(* ===== verification/_CoqProject ===== *)
-Q . S2P
Prelude.v
Text.v
Primitives.v
Params.v
Records.v
Crypto.v
Store.v
Transitions.v
Executor.v
Refinement.v
Ledger.v
Governance.v
Solvency.v
Finality.v
Accounts.v
Tokenomics.v
Rewards.v
StorageBook.v
Pipeline.v
Gvs.v
Aggregator.v
MutualProof.v
Submission.v
Scenarios.v
NodeConfig.v
ActiveParams.v
PlayerTicks.v
CosmosAddress.v
Verifier.v
EpochRewards.v
StorageAudit.v
P2p.v
P2pSocket.v
NodeRuntime.v
Preparation.v
Settlement.v
GovernanceRuntime.v
SettlementRun.v
GovernanceIndex.v
ProtoWire.v
PoleMsgs.v
PoleSchema.v
PoleCodec.v
CosmosClient.v
Progress.v
ActivitySources.v
Daemon.v
Ingestion.v
ProofBinary.v
ProofLevels.v
ReleaseSigning.v
Updater.v
ServiceControl.v
ControlApi.v
Genesis.v
P2pFilesystem.v
GameDirectory.v
ClientConfig.v
BridgeCommands.v
