(* ===== verification/Prelude.v ===== *)
(** * PoLE: a verification library for the Proof of Live Engagement node

    The program (the Rust crate under src/src) is the node of a chain that rewards
    play time. Its parts, and how they interact:

    - the ledger: a store of accounts, nodes, batches, commits, challenges, rewards,
      delegations, unbonds, votes and proposals (store.rs), the protocol state with
      one method per transaction and per settlement operation (transitions.rs), and
      the executor that runs blocks over it (executor.rs); the parameters they obey
      and may change by vote (params.rs);
    - the collection pipeline: samples become signed observations, observations a
      sealed batch (node_pipeline.rs); the local runtime collects, stores and announces
      batches (node_runtime.rs), and reads them back from disk (node_daemon.rs); the
      batches of an epoch are aggregated per slot and game (node_aggregator.rs), scored
      (node_gvs.rs) and audited (node_verifier.rs, node_storage_audit.rs);
    - mutual proofs: play sessions, heartbeats and witness attestations
      (mutual_proof.rs);
    - rewards: the emission schedule (tokenomics.rs), the reward ticks of a player and
      the rewards of an epoch (node_rewards.rs), which the ledger pays out on claims;
    - settlement: an epoch's aggregation, rewards, audit and batches are combined into a
      commit (node_prepare.rs), run through the local ledger and saved
      (node_settlement.rs); votes and proposals go the same way
      (governance_runtime.rs);
    - the retention book of a storage node (storage_book.rs) and the gossip networks
      (p2p.rs);
    - the daemon: a tick collects from the activity sources (activity_collector.rs,
      steam_collector.rs), moves the progress and the reward-adjustment cycle on, ingests
      what peers announced, settles pending epochs and prunes (node_daemon.rs);
    - the bridge to the Cosmos chain: messages encoded by hand in the protobuf wire format
      (cosmos/pole_msgs.rs), built into signed transactions and broadcast with retries
      (cosmos/tx_builder.rs, tx_signer.rs, rpc_client.rs, mod.rs); the genesis document
      (genesis_builder);
    - layered proofs of play on the player's machine (the proof directory);
    - operations: release manifests and their signatures (update_manifest.rs, signing.rs),
      the updater (updater.rs), service states and actions (service_runtime.rs) and the
      HTTP control API (control_api.rs);
    - the command line: commands that change a node's configuration and commands that put
      its work on the chain (cli_client.rs, cli_node.rs, with cli_parsing.rs, cli_support.rs,
      node_cli_support.rs), and the recognition of games they rely on
      (steam_game_directory.rs, os_support.rs);
    - around them: configuration (node_config.rs), paths (app_paths.rs), addresses
      (cosmos/address.rs), wallet and operating-system glue.

    ** Files

    - Prelude (this file): outcomes, the state-and-error monad [M] with its wp
      calculus, machine arithmetic, [Ord] and the ordered iteration of BTreeMaps,
      sorts, sums over lists and maps, the hint database [pole] and the tactics.
    - Text: the string operations of the standard library the sources use.
    - Primitives, Params, Records: primitives.rs; params.rs; records.rs, state.rs and
      transactions.rs, field by field.
    - Crypto: [stable_hash32], [merkle_root], [cid_from_hash] (node_pipeline.rs),
      [hex_32] (node_config.rs) and [verify_signature] (wallet/keys.rs), over the
      class [External] of the crates they call.
    - Store: the trait [ProtocolStore] as a class, [InMemoryStore] (a gmap per
      BTreeMap), [PersistentStoreStub], and the class [StoreRefines] of lawful stores.
    - Transitions, Executor: [ProtocolState<S>] and every method of transitions.rs,
      generic in the store; [execute_block].
    - Refinement: an operation on any lawful store is that operation on the in-memory
      store, which carries the theorems of the ledger to the persistent one.
    - Ledger: the step relation of the protocol ([step]: a transaction, the start of
      a block, a resolution, a finalization, the scheduling of parameters, each possibly
      ending in an error, or the recording of a reward) and the
      token supply; Governance: proposals and votes; Solvency: the invariant of
      reachable states; Finality: what only grows; Accounts: authorization, transfers
      and claims. These files only add specifications and theorems over Transitions.
    - Tokenomics, Rewards, StorageBook, Pipeline, Gvs, Aggregator, MutualProof: one
      source file each (Rewards: the allocators of node_rewards.rs), with its theorems.
    - Submission: a batch that the pipeline seals is one that the ledger accepts.
    - Scenarios: a small chain on which the ledger's theorems are instantiated, and the
      runs that exhibit the findings about it.
    - NodeConfig: the configuration and its validation (node_config.rs);
      ActiveParams, PlayerTicks, EpochRewards: the rest of node_rewards.rs (parameters in
      force and game mappings; reward ticks; the rewards of an epoch and their root);
      CosmosAddress: cosmos/address.rs and cosmos/error.rs.
    - Verifier: node_verifier.rs and the verification credentials of node_daemon.rs;
      StorageAudit: node_storage_audit.rs.
    - P2p, P2pSocket, P2pFilesystem: the trait [P2pNetwork] of p2p.rs as a class, with the
      in-memory network, the UDP network and the network of directories as instances.
    - NodeRuntime: node_runtime.rs, against the class [P2pNetwork], and the reading back
      of batches; Preparation: node_prepare.rs.
    - Settlement: node_settlement.rs over the chain's files ([Disk]);
      GovernanceRuntime: governance_runtime.rs, and the invariants of every command on
      those files; GovernanceIndex: the exported governance index; SettlementRun: the
      path of an epoch from samples to balance, and the runs that exhibit the findings
      about settlement.
    - ProtoWire: the wire encoders of cosmos/pole_msgs.rs, and a reader of the wire format
      with message types as the reference; PoleMsgs: every message and record of the
      bridge with its encoder (pole_msgs.rs, wire_types.rs, the messages of
      tx_builder.rs); PoleSchema: the message types of chain/proto and the chain's reading
      of them; PoleCodec: the theorems that connect the two.
    - CosmosClient: tx_builder.rs, tx_signer.rs, the broadcasts of rpc_client.rs, the
      account and credit queries of query_client.rs and the client of cosmos/mod.rs,
      against a chain given by its answers.
    - Progress: the progress file, the slot cursor and the adjustment cycles of
      node_daemon.rs; ActivitySources: activity_collector.rs, steam_collector.rs and the
      collection of a tick with retries and source health; Daemon: heartbeat buckets,
      automatic settlement, challenge counters, summaries and loops; Ingestion: play
      heartbeats, announcements of peers, storage challenges, pruning, over the data
      directory ([DataDir]).
    - ProofBinary: proof/l1_binary.rs with the PE check of os_support.rs; ProofLevels:
      l2_render.rs, l3_hardware.rs and composite.rs.
    - ReleaseSigning: update_manifest.rs and signing.rs; Updater: updater.rs over its
      records and files ([Machine]); ServiceControl: service_runtime.rs with the service
      manager as a class, and the service and update actions of control_api.rs;
      ControlApi: the rest of control_api.rs but its reports.
    - Genesis: genesis_builder.
    - GameDirectory: steam_game_directory.rs with the process names and the engagement of
      os_support.rs; ClientConfig: the parsers of the command line, paths, and the commands
      that change a configuration, over the configuration files and recognition caches
      ([ClientDisk]); BridgeCommands: the commands that make bridge messages of a node's
      work, over the data directory and the messages handed to the client.

    ** How the code is modelled

    Integers are [Z]; a u64 or u128 operation is [add w], [sub w] or [mul w], which the
    class [BuildMode] makes panic (overflow checks, the debug profile) or wrap (the
    release profile); [saturating_*] and [checked_*] calls and [as] casts are written
    out. [Result] is [outcome], with a third constructor for panics (overflow, division
    by zero, index out of range, failed [expect]). A method on [&mut self] is a
    computation in [M]: an early [return Err(..)] keeps the writes made before it, which
    is what several findings are about. A BTreeMap is a gmap read through [bt_iter], which
    iterates in key order; [sort_by_key] is a stable sort. Borsh, JSON, SHA-256, Ed25519,
    Bech32 and hex are operations of classes ([External], [ReceiptEncoding],
    [PipelineEncoding], [VerifierEncoding], [RuntimeEncoding], [ProofExternal], [Bech32]),
    with the documented behaviour the theorems need in classes of laws ([ExternalLaws],
    [EncodingTotal], [VerifierLaws], [RuntimeTotal], [SigningLaws], [SignatureSize],
    [Bech32Laws]), each with a toy instance. Files enter as their parsed content, or as
    the result of reading them; in Settlement they are the state, and [io] says which
    operations fail. Datagrams, clock readings and the results of sends are arguments of
    the UDP network; the answers of the chain are arguments of the Cosmos client, those of
    HTTP sources of the collectors, and those of the operating system a record of the
    machine ([Host], [RenderHost], [HardwareHost], [Processes]). The crates of the bridge
    and of release signing are classes ([TxProto], [ReleaseExternal], [GenesisExternal],
    [ActivityJson]) with laws and a toy instance where a theorem needs one.

    ** What the theorems show

    - Parameters and configuration: [validate] and [validate_node_config] accept exactly
      the declaratively valid sets; the parameters in force and scheduled are always
      valid.
    - Money: the exact change of the supply for blocks, errors and resolutions; solvency
      (locked funds cover every challenge bond, queued unbond and pending proposal in all
      reachable states); matured unbonds are always paid in full; finalization never
      fails half-way.
    - Governance: what finalization does to parameters and proposals; exactly when a vote
      schedules a proposal; the exported index is complete and in order.
    - Finality: no accepted transaction is accepted twice (challenge openings apart);
      finalized epochs stay closed; history only grows; a reward is paid once.
    - Settlement: an epoch in which only the node itself collected, with its rewards
      computed from the collected batches, settles up to its balance; a settled
      epoch is never settled again, across restarts; the chain file always holds a
      solvent ledger.
    - Authorization, transfers and claims.
    - Emission and rewards: integer square root, activity factor, halving schedule,
      exact proportional allocation; reward ticks account for every second and are
      bounded; an epoch pays exactly its budget, in the order of the reward root, and
      nothing for play that nobody else saw.
    - Storage: exact quota accounting under recording, pruning and loading; audits and
      storage challenges pass exactly when the payloads are there.
    - Pipeline: sealing, acceptance by the chain, reading back, aggregation equal to a
      reference grouping, medians that no minority of collectors can move, bounded
      scores, Merkle roots that bind their leaves (up to a collision among the messages that
      were hashed for them); what a node with an identity collects passes its own audit, and
      the credentials it signs are about other nodes' batches.
    - Networks: who receives a published message, who answers a request, the bound on
      learned peers, and which spoofed messages are dropped; on payload ids whose directory
      names are proper and different, the network of directories answers as the in-memory
      one does, up to the choice among the providers of a payload.
    - Command line: the commands keep every configuration file valid and change none when
      they fail (but for the two that write an identity); reconciling the games is complete,
      keeps what was configured and is stable; an added peer is read back, and replaces its
      entry when the identifiers are spelt in lower case; heartbeats are
      handed over after their sessions and reward amounts unchanged; the search of an
      installation directory terminates with the answer of a reference, and the cache of
      recognised games behaves as a map.
    - Mutual proof: session ids bind their scope, witnesses are independent.
    - Round trips: hexadecimal identifiers, addresses, stored batches, allocations, Steam
      manifests.
    - Bridge: what is written for a message has the type its route names and is read back
      by the chain as that message; a transaction is built exactly for the signer's key,
      decodes to the message, sequence, key and fee it was built for, and is signed over its
      own content; submitting sends only transactions for sequences
      that the chain reported, a bounded number of times.
    - Daemon: every slot is collected once and in order; the fixed reward follows the
      reference over adjustment cycles; automatic settlement settles a prefix of the
      pending epochs; sources fail independently, outliers are judged as a reference does;
      ingested batches reproduce their announcement and published batches are ingested;
      pruning removes what has expired and nothing else; the limited loop terminates.
    - Proofs of play: exactly which evidence makes a process eligible, and that better
      evidence never lowers its tier.
    - Updates: no run of the updater downgrades, restarts as another version included; installing and rolling back restores the
      program, also when the service does not come up; what a verified manifest is.
    - Control API: a request is reassembled from any chunks without waiting for the client
      to close; actions that change something need the token, the GET that opens the wallet's
      folder apart; transfers made one after the other are recorded as confirmed and stay
      within the verified reward, as long as no write of the file is cut short.
    - Genesis: the supply is the sum of the balances and within the total supply.

    The reachable states of Solvency and Finality are those of runs with overflow checks
    in which no step panicked.

    ** Bounds and fuel

    [merkle_reduce] runs at most as many rounds as there are leaves (each round at least
    halves a level of two or more). [newton_loop] has 130 rounds, enough for any
    128-bit value: the theorem on the square root shows that the loop leaves by its own
    exit test, with the root. [tick_loop] runs at most once per second of its interval
    (each round consumes at least one) and [trim_end_matches] at most once per
    character, as do [str_replace] and [utf8_lossy]. [encode_varint] has nine rounds, what
    a 64-bit value takes; the readers of the wire format have the length of the input.
    [find_upwards] makes the six steps of the source. [wait_loop] polls as often as its
    deadline allows, since polls are at least an interval apart. The collect loop of
    Daemon takes a number of rounds as fuel, and the theorem on the limited loop shows
    that its limit is enough. The search of an installation directory has as many rounds as
    its tree has directories down to the depth limit ([tree_rounds]), and the theorem on it
    shows that they suffice. All other loops recurse on their input.

    ** Not modelled, and the plan

    File and network I/O, JSON parsing, clocks and processes are left out (their results
    are arguments), as are display texts and log lines. Not modelled: the report views of
    control_api.rs and load_status of node_daemon.rs, which copy artifacts into JSON;
    service_windows.rs, git_sync.rs and downloads, which run processes; the probes of
    os_support.rs; keystores and mnemonics (external crates); the commands of cli_client.rs
    and cli_node.rs that only print, start services or run simulations, and their dispatch
    (bin_commands.rs, cli_commands.rs). What remains of logic of its own is
    cosmos/eip712.rs and the discovery of Steam libraries. *)
From Stdlib Require Export ZArith Lia.
From stdpp Require Export base option list gmap strings sorting.

Declare Scope pole_scope.
Delimit Scope pole_scope with pole.
Global Open Scope Z_scope.

(** ** Outcomes: [Result], plus the panic of an overflow check, an index out
    of range, a division by zero or a failed [expect]. *)

Inductive outcome (E A : Type) : Type :=
| Ok (a : A)
| Err (e : E)
| Panic.
Arguments Ok {E A} a.
Arguments Err {E A} e.
Arguments Panic {E A}.

Definition is_ok {E A} (r : outcome E A) : bool :=
  match r with Ok _ => true | _ => false end.

Definition outcome_bind {E A B} (r : outcome E A) (k : A → outcome E B) : outcome E B :=
  match r with Ok a => k a | Err e => Err e | Panic => Panic end.

(** An [option] that stands for a panicking computation. *)
Definition or_panic {E A} (o : option A) : outcome E A :=
  match o with Some a => Ok a | None => Panic end.

Definition map_err {E F A} (f : E → F) (r : outcome E A) : outcome F A :=
  match r with Ok a => Ok a | Err e => Err (f e) | Panic => Panic end.

(** ** Methods on [&mut self]: a state monad whose errors keep the state, since
    an early [return Err(..)] does not undo the writes made before it. *)

Definition M (S E A : Type) : Type := S → outcome E A * S.

Definition m_ret {S E A} (a : A) : M S E A := λ s, (Ok a, s).
Definition m_bind {S E A B} (m : M S E A) (k : A → M S E B) : M S E B := λ s,
  match m s with
  | (Ok a, s') => k a s'
  | (Err e, s') => (Err e, s')
  | (Panic, s') => (Panic, s')
  end.
Definition m_throw {S E A} (e : E) : M S E A := λ s, (Err e, s).
Definition gets {S E A} (f : S → A) : M S E A := λ s, (Ok (f s), s).
Definition modify {S E} (f : S → S) : M S E unit := λ s, (Ok tt, f s).
Definition lift {S E A} (r : outcome E A) : M S E A := λ s, (r, s).
(** [opt.ok_or(e)?] *)
Definition ok_or {S E A} (o : option A) (e : E) : M S E A :=
  lift (match o with Some a => Ok a | None => Err e end).
(** [if !cond { return Err(e) }] *)
Definition ensure {S E} (cond : bool) (e : E) : M S E unit :=
  lift (if cond then Ok tt else Err e).
(** A panicking primitive used inside a method. *)
Definition chk {S E A} (o : option A) : M S E A := lift (or_panic o).

Notation "x <- m ;; k" := (m_bind m (λ x, k))
  (at level 100, m at next level, right associativity) : pole_scope.
Notation "m ;;; k" := (m_bind m (λ _, k))
  (at level 100, right associativity) : pole_scope.
Notation "'do?' x <- r ; k" := (outcome_bind r (λ x, k))
  (at level 100, x name, r at next level, right associativity) : pole_scope.

(** A [for] loop whose body may fail or change the state. *)
Fixpoint for_each {S E A} (body : A → M S E unit) (xs : list A) : M S E unit :=
  match xs with
  | [] => m_ret tt
  | x :: xs => m_bind (body x) (λ _, for_each body xs)
  end.

(** A [for] loop that pushes one result per element. *)
Fixpoint map_m {S E A B} (body : A → M S E B) (xs : list A) : M S E (list B) :=
  match xs with
  | [] => m_ret []
  | x :: xs => m_bind (body x) (λ y, m_bind (map_m body xs) (λ ys, m_ret (y :: ys)))
  end.

(** ** Unsigned machine integers as [Z]

    [+], [-] and [*] panic on overflow when the build has overflow checks (the
    dev and test profiles) and wrap around otherwise (the release profile); the
    crate's manifest overrides neither, so the model is parametric in it. *)

Class BuildMode := overflow_checks : bool.

Definition in_width (w z : Z) : bool := (0 <=? z) && (z <? 2 ^ w).

Definition arith `{BuildMode} (w z : Z) : option Z :=
  if in_width w z then Some z
  else if overflow_checks then None else Some (z mod 2 ^ w).

Definition add `{BuildMode} (w a b : Z) : option Z := arith w (a + b).
Definition sub `{BuildMode} (w a b : Z) : option Z := arith w (a - b).
Definition mul `{BuildMode} (w a b : Z) : option Z := arith w (a * b).
Definition umax (w : Z) : Z := 2 ^ w - 1.
Definition saturating_add (w a b : Z) : Z := Z.min (a + b) (umax w).
Definition saturating_sub (a b : Z) : Z := Z.max 0 (a - b).
Definition saturating_mul (w a b : Z) : Z := Z.min (a * b) (umax w).
(** [a / b], which panics on a zero divisor in every build. *)
Definition div_checked (a b : Z) : option Z := if b =? 0 then None else Some (a / b).

(** [iter.sum()], accumulating from zero with the build's addition. *)
Fixpoint sum_from `{BuildMode} (w acc : Z) (xs : list Z) : option Z :=
  match xs with
  | [] => Some acc
  | x :: xs => match add w acc x with Some acc' => sum_from w acc' xs | None => None end
  end.
Definition sum_checked `{BuildMode} (w : Z) (xs : list Z) : option Z := sum_from w 0 xs.

(** ** [Ord]: the comparison that orders BTreeMap keys and sort keys *)

Class Ord (K : Type) := cmp : K → K → comparison.
Class OrdLaws (K : Type) `{Ord K} : Prop := {
  cmp_eq (x y : K) : cmp x y = Eq ↔ x = y;
  cmp_opp (x y : K) : cmp y x = CompOpp (cmp x y);
  cmp_lt_trans (x y z : K) : cmp x y = Lt → cmp y z = Lt → cmp x z = Lt;
}.

Definition leb {K} `{Ord K} (x y : K) : bool :=
  match cmp x y with Gt => false | _ => true end.
Definition ltb {K} `{Ord K} (x y : K) : bool :=
  match cmp x y with Lt => true | _ => false end.

#[export] Instance Z_ord : Ord Z := Z.compare.
#[export] Instance prod_ord {A B} `{Ord A, Ord B} : Ord (A * B) := λ x y,
  match cmp x.1 y.1 with Eq => cmp x.2 y.2 | c => c end.
Fixpoint list_cmp {A} `{Ord A} (xs ys : list A) : comparison :=
  match xs, ys with
  | x :: xs, y :: ys =>
      match cmp x y with Lt => Lt | Gt => Gt | Eq => list_cmp xs ys end
  | _ :: _, [] => Gt
  | [], _ :: _ => Lt
  | [], [] => Eq
  end.
#[export] Instance list_ord {A} `{Ord A} : Ord (list A) := list_cmp.
(** The UTF-8 bytes of a string ([as_bytes]). *)
Definition string_bytes (s : string) : list Z :=
  (λ c, Z.of_N (Ascii.N_of_ascii c)) <$> String.list_ascii_of_string s.
#[export] Instance string_ord : Ord string := λ x y, cmp (string_bytes x) (string_bytes y).

(** Stable sort: an element is placed before the first one it is [<=] to, the
    elements being inserted from the last to the first. *)
Fixpoint insert_by {A} (le : A → A → bool) (x : A) (l : list A) : list A :=
  match l with
  | [] => [x]
  | y :: l' => if le x y then x :: l else y :: insert_by le x l'
  end.
Definition sort_by {A} (le : A → A → bool) (l : list A) : list A :=
  foldr (insert_by le) [] l.
Definition sort_by_key {A K} `{Ord K} (key : A → K) (l : list A) : list A :=
  sort_by (λ x y, leb (key x) (key y)) l.

(** [map.iter()] and [map.values()] of a BTreeMap: ascending key order. *)
Definition bt_iter {K V} `{Countable K, Ord K} (m : gmap K V) : list (K * V) :=
  sort_by_key fst (map_to_list m).
Definition bt_values {K V} `{Countable K, Ord K} (m : gmap K V) : list V :=
  (bt_iter m).*2.
Definition bt_keys {K V} `{Countable K, Ord K} (m : gmap K V) : list K :=
  (bt_iter m).*1.
(** [set.iter()] of a BTreeSet. *)
Definition bts_iter {K} `{Countable K, Ord K} (s : gset K) : list K :=
  sort_by_key id (elements s).

(** [Vec::dedup] *)
Fixpoint dedup {A} `{EqDecision A} (l : list A) : list A :=
  match l with
  | x :: ((y :: _) as l') => if bool_decide (x = y) then dedup l' else x :: dedup l'
  | _ => l
  end.

(** ** Sums over maps and lists *)

Definition lsum {A} (f : A → Z) (l : list A) : Z := foldr (λ x acc, f x + acc) 0 l.
Definition msum {K V} `{Countable K} (f : K → V → Z) (m : gmap K V) : Z :=
  map_fold (λ k v acc, f k v + acc) 0 m.

(** * Lemmas *)

Section Ordering.
Context {K : Type} `{OrdLaws K}.

Lemma cmp_refl (x : K) : cmp x x = Eq.
Proof. by apply cmp_eq. Qed.

Lemma leb_refl (x : K) : leb x x = true.
Proof. unfold leb. by rewrite cmp_refl. Qed.

Lemma leb_total (x y : K) : leb x y = true ∨ leb y x = true.
Proof. unfold leb. rewrite (cmp_opp x y). destruct (cmp x y); auto. Qed.

Lemma leb_false (x y : K) : leb x y = false → leb y x = true.
Proof. destruct (leb_total x y); congruence. Qed.

Lemma leb_antisym (x y : K) : leb x y = true → leb y x = true → x = y.
Proof.
  unfold leb. rewrite (cmp_opp x y). destruct (cmp x y) eqn:E; try done.
  intros _ _. by apply cmp_eq.
Qed.

Lemma leb_trans (x y z : K) : leb x y = true → leb y z = true → leb x z = true.
Proof.
  unfold leb. destruct (cmp x y) eqn:E1; try done; destruct (cmp y z) eqn:E2; try done;
    intros _ _; rewrite ?cmp_eq in E1; rewrite ?cmp_eq in E2; subst;
    rewrite ?cmp_refl, ?E1, ?E2; try done.
  by rewrite (cmp_lt_trans _ _ _ E1 E2).
Qed.

Lemma ltb_spec (x y : K) : ltb x y = true ↔ leb x y = true ∧ x ≠ y.
Proof.
  unfold ltb, leb. destruct (cmp x y) eqn:E; split; try naive_solver.
  - apply cmp_eq in E. naive_solver.
  - intros _. split; [done|]. intros ->. by rewrite cmp_refl in E.
Qed.

Lemma ltb_irrefl (x : K) : ltb x x = false.
Proof. unfold ltb. by rewrite cmp_refl. Qed.

Lemma ltb_leb (x y : K) : ltb x y = negb (leb y x).
Proof. unfold ltb, leb. rewrite (cmp_opp x y). by destruct (cmp x y). Qed.
End Ordering.

#[export] Instance Z_ord_laws : OrdLaws Z.
Proof.
  split; unfold cmp, Z_ord.
  - intros. apply Z.compare_eq_iff.
  - intros. apply Z.compare_antisym.
  - intros x y z. rewrite !Z.compare_lt_iff. lia.
Qed.

#[export] Instance prod_ord_laws {A B} `{OrdLaws A, OrdLaws B} : OrdLaws (A * B).
Proof.
  split; unfold cmp, prod_ord.
  - intros [a b] [a' b']; simpl. destruct (cmp a a') eqn:E.
    + apply cmp_eq in E as ->. rewrite cmp_eq. naive_solver.
    + split; [done|]. intros [= -> ->]. by rewrite cmp_refl in E.
    + split; [done|]. intros [= -> ->]. by rewrite cmp_refl in E.
  - intros [a b] [a' b']; simpl. rewrite (cmp_opp a a'), (cmp_opp b b').
    by destruct (cmp a a').
  - intros [a b] [a' b'] [a'' b'']; simpl.
    destruct (cmp a a') eqn:E1; [| |done]; destruct (cmp a' a'') eqn:E2; try done.
    + apply cmp_eq in E1 as ->. rewrite E2. apply cmp_lt_trans.
    + apply cmp_eq in E1 as ->. by rewrite E2.
    + apply cmp_eq in E2 as ->. by rewrite E1.
    + by rewrite (cmp_lt_trans _ _ _ E1 E2).
Qed.

#[export] Instance list_ord_laws {A} `{OrdLaws A} : OrdLaws (list A).
Proof.
  split; unfold cmp at 1, list_ord.
  - induction x as [|x xs IH]; intros [|y ys]; simpl; try naive_solver.
    destruct (cmp x y) eqn:E.
    + apply cmp_eq in E as ->. rewrite IH. naive_solver.
    + split; [done|]. intros [= -> ->]. by rewrite cmp_refl in E.
    + split; [done|]. intros [= -> ->]. by rewrite cmp_refl in E.
  - unfold cmp, list_ord.
    induction x as [|x xs IH]; intros [|y ys]; simpl; try done.
    rewrite (cmp_opp x y). destruct (cmp x y); [apply IH|done|done].
  - unfold cmp, list_ord.
    induction x as [|x xs IH]; intros [|y ys] [|z zs]; simpl; try done.
    destruct (cmp x y) eqn:E1; [| |done]; destruct (cmp y z) eqn:E2; try done.
    + apply cmp_eq in E1 as ->. rewrite E2. apply IH.
    + apply cmp_eq in E1 as ->. by rewrite E2.
    + apply cmp_eq in E2 as ->. by rewrite E1.
    + by rewrite (cmp_lt_trans _ _ _ E1 E2).
Qed.

Lemma string_bytes_inj (s t : string) : string_bytes s = string_bytes t → s = t.
Proof.
  unfold string_bytes. intros Heq.
  rewrite <- (String.string_of_list_ascii_of_string s),
    <- (String.string_of_list_ascii_of_string t). f_equal.
  eapply list_fmap_eq_inj; [|exact Heq].
  intros a b Hab. rewrite <- (Ascii.ascii_N_embedding a), <- (Ascii.ascii_N_embedding b).
  f_equal. by apply N2Z.inj.
Qed.

#[export] Instance string_ord_laws : OrdLaws string.
Proof.
  split; unfold cmp, string_ord.
  - intros. rewrite cmp_eq. split; [apply string_bytes_inj|naive_solver].
  - intros. apply cmp_opp.
  - intros x y z. apply cmp_lt_trans.
Qed.

(** ** Stable sort *)

Lemma insert_by_perm {A} (le : A → A → bool) x l : insert_by le x l ≡ₚ x :: l.
Proof.
  induction l as [|y l IH]; simpl; [done|]. destruct (le x y); [done|].
  rewrite IH. apply Permutation_swap.
Qed.

Lemma sort_by_perm {A} (le : A → A → bool) l : sort_by le l ≡ₚ l.
Proof.
  induction l as [|x l IH]; simpl; [done|]. by rewrite insert_by_perm, IH.
Qed.

Section SortBy.
Context {A : Type} (le : A → A → bool).
Context (le_total : ∀ x y, le x y = false → le y x = true).
Context (le_trans : ∀ x y z, le x y = true → le y z = true → le x z = true).

Lemma insert_by_sorted x l :
  StronglySorted (λ a b, le a b = true) l →
  StronglySorted (λ a b, le a b = true) (insert_by le x l).
Proof using le_total le_trans.
  induction 1 as [|y l Hs IH Hall]; simpl; [repeat constructor|].
  destruct (le x y) eqn:E.
  - constructor; [by constructor|]. constructor; [done|].
    eapply Forall_impl; [exact Hall|]. intros z Hz; simpl in Hz. eauto.
  - constructor; [done|]. rewrite insert_by_perm. constructor; auto.
Qed.

Lemma sort_by_sorted l : StronglySorted (λ a b, le a b = true) (sort_by le l).
Proof using le_total le_trans.
  induction l; simpl; [constructor|]. by apply insert_by_sorted.
Qed.

(** Stability: elements that compare equal both ways keep their order. *)
Lemma insert_by_filter_eq x l (P : A → Prop) `{∀ y, Decision (P y)} :
  (∀ y z, P y → P z → le y z = true) →
  filter P (insert_by le x l) = filter P (x :: l).
Proof.
  intros HP. induction l as [|y l IH]; simpl; [done|].
  destruct (le x y) eqn:E; [done|]. rewrite filter_cons, IH, !filter_cons.
  do 2 case_decide; try done. rewrite (HP x y) in E by done. done.
Qed.

Lemma sort_by_stable l (P : A → Prop) `{∀ y, Decision (P y)} :
  (∀ y z, P y → P z → le y z = true) →
  filter P (sort_by le l) = filter P l.
Proof.
  intros HP. induction l as [|x l IH]; simpl; [done|].
  rewrite insert_by_filter_eq by done. by rewrite !filter_cons, IH.
Qed.
End SortBy.

Lemma leb_fst {A B} `{Ord A, Ord B} (a a' : A) (b b' : B) :
  leb (a, b) (a', b') = true → leb a a' = true.
Proof. unfold leb, cmp at 1, prod_ord; simpl. by destruct (cmp a a'). Qed.

Lemma Z_leb_le (a b : Z) : leb a b = true ↔ a <= b.
Proof. unfold leb, cmp, Z_ord. destruct (Z.compare_spec a b); split; (lia || done). Qed.

Lemma sort_by_key_perm {A K} `{Ord K} (key : A → K) l : sort_by_key key l ≡ₚ l.
Proof. apply sort_by_perm. Qed.

Lemma sort_by_key_sorted {A K} `{OrdLaws K} (key : A → K) l :
  StronglySorted (λ a b, leb (key a) (key b) = true) (sort_by_key key l).
Proof.
  apply sort_by_sorted; intros; [by apply leb_false|by eapply leb_trans].
Qed.

Lemma length_sort_by_key {A K} `{Ord K} (key : A → K) l :
  length (sort_by_key key l) = length l.
Proof. by rewrite sort_by_key_perm. Qed.

Lemma bt_iter_perm {K V} `{Countable K, Ord K} (m : gmap K V) :
  bt_iter m ≡ₚ map_to_list m.
Proof. apply sort_by_key_perm. Qed.

Lemma elem_of_bt_iter {K V} `{Countable K, Ord K} (m : gmap K V) k v :
  (k, v) ∈ bt_iter m ↔ m !! k = Some v.
Proof. rewrite bt_iter_perm. apply elem_of_map_to_list. Qed.

Lemma bt_keys_sorted {K V} `{Countable K, OrdLaws K} (m : gmap K V) :
  StronglySorted (λ a b, leb a b = true) (bt_iter m).*1.
Proof.
  pose proof (sort_by_key_sorted fst (map_to_list m)) as Hs. unfold bt_iter.
  induction Hs as [|kv l Hs IH Hall]; csimpl; constructor; [done|].
  apply Forall_fmap. exact Hall.
Qed.

Lemma NoDup_bt_keys {K V} `{Countable K, Ord K} (m : gmap K V) : NoDup (bt_iter m).*1.
Proof. rewrite bt_iter_perm. apply NoDup_fst_map_to_list. Qed.

(** ** Sums *)

Lemma lsum_app {A} (f : A → Z) l1 l2 : lsum f (l1 ++ l2) = lsum f l1 + lsum f l2.
Proof. induction l1; simpl; lia. Qed.

#[export] Instance lsum_perm {A} (f : A → Z) : Proper ((≡ₚ) ==> eq) (lsum f).
Proof. intros l1 l2. induction 1; simpl; lia. Qed.

Lemma lsum_ext {A} (f g : A → Z) l : (∀ x, x ∈ l → f x = g x) → lsum f l = lsum g l.
Proof.
  induction l as [|x l IH]; simpl; [done|]. intros Heq.
  rewrite IH by set_solver. rewrite Heq by set_solver. done.
Qed.

Lemma lsum_fmap {A B} (f : B → Z) (g : A → B) l : lsum f (g <$> l) = lsum (f ∘ g) l.
Proof. induction l; csimpl; [done|]. by rewrite IHl. Qed.

Lemma lsum_nonneg {A} (f : A → Z) l : (∀ x, x ∈ l → 0 <= f x) → 0 <= lsum f l.
Proof.
  induction l as [|x l IH]; simpl; [done|]. intros Hf.
  assert (0 <= f x) by set_solver. assert (0 <= lsum f l) by (apply IH; set_solver). lia.
Qed.

Lemma lsum_elem_le {A} (f : A → Z) l x :
  (∀ y, y ∈ l → 0 <= f y) → x ∈ l → f x <= lsum f l.
Proof.
  intros Hnn (l1 & l2 & ->)%list_elem_of_split. rewrite lsum_app. simpl.
  pose proof (lsum_nonneg f l1 (λ y Hy, Hnn y ltac:(set_solver))).
  pose proof (lsum_nonneg f l2 (λ y Hy, Hnn y ltac:(set_solver))). lia.
Qed.

Lemma lsum_le {A} (f g : A → Z) l : (∀ x, x ∈ l → f x <= g x) → lsum f l <= lsum g l.
Proof.
  induction l as [|x l IH]; simpl; [done|]. intros Hf.
  assert (f x <= g x) by set_solver.
  assert (lsum f l <= lsum g l) by (apply IH; set_solver). lia.
Qed.

Lemma lsum_add {A} (f g : A → Z) l : lsum (λ x, f x + g x) l = lsum f l + lsum g l.
Proof. induction l; simpl; lia. Qed.

Lemma lsum_mul_l {A} (f : A → Z) c l : lsum (λ x, c * f x) l = c * lsum f l.
Proof. induction l; simpl; lia. Qed.

Lemma filter_all {A} (P : A → Prop) `{∀ x, Decision (P x)} l : Forall P l → filter P l = l.
Proof. induction 1; [done|]. rewrite filter_cons_True by done. by f_equal. Qed.
Lemma filter_none {A} (P : A → Prop) `{∀ x, Decision (P x)} l : Forall (λ x, ¬ P x) l → filter P l = [].
Proof. induction 1; [done|]. by rewrite filter_cons_False. Qed.

Lemma lsum_filter {A} (f : A → Z) (P : A → Prop) `{∀ x, Decision (P x)} l :
  lsum f l = lsum f (filter P l) + lsum f (filter (λ x, ¬ P x) l).
Proof.
  induction l as [|x l IH]; [done|]. rewrite !filter_cons. simpl.
  do 2 case_decide; simpl; first [lia|tauto].
Qed.

Section MapSums.
Context {K V : Type} `{Countable K}.
Implicit Types (f : K → V → Z) (m : gmap K V).

Lemma msum_empty f : msum f ∅ = 0.
Proof. apply map_fold_empty. Qed.

Lemma msum_insert_None f m k v : m !! k = None → msum f (<[k:=v]> m) = f k v + msum f m.
Proof.
  intros Hk. unfold msum.
  by rewrite (map_fold_insert_L (λ k v acc, f k v + acc)) by (done || (intros; lia)).
Qed.

Lemma msum_delete f m k v : m !! k = Some v → msum f m = f k v + msum f (delete k m).
Proof.
  intros Hk. rewrite <- msum_insert_None by apply lookup_delete_eq.
  by rewrite insert_delete_id.
Qed.

Lemma msum_insert_Some f m k v v' :
  m !! k = Some v → msum f (<[k:=v']> m) = msum f m + f k v' - f k v.
Proof.
  intros Hk. rewrite <- insert_delete_eq.
  rewrite msum_insert_None by apply lookup_delete_eq.
  rewrite (msum_delete f m k v) by done. lia.
Qed.

Lemma msum_list f m : msum f m = lsum (λ kv, f kv.1 kv.2) (map_to_list m).
Proof.
  unfold msum. rewrite map_fold_foldr. unfold lsum.
  induction (map_to_list m) as [|[k v] l IH]; simpl; [done|]. by rewrite IH.
Qed.

Lemma msum_nonneg f m : (∀ k v, m !! k = Some v → 0 <= f k v) → 0 <= msum f m.
Proof.
  intros Hf. rewrite msum_list. apply lsum_nonneg. intros [k v] Hkv.
  apply elem_of_map_to_list in Hkv. eauto.
Qed.

Lemma msum_lookup_le f m k v :
  (∀ k v, m !! k = Some v → 0 <= f k v) → m !! k = Some v → f k v <= msum f m.
Proof.
  intros Hf Hk. rewrite (msum_delete f m k v) by done.
  assert (0 <= msum f (delete k m)); [|lia].
  apply msum_nonneg. intros k' v' [_ ?]%lookup_delete_Some. eauto.
Qed.

Lemma msum_ext f g m : (∀ k v, m !! k = Some v → f k v = g k v) → msum f m = msum g m.
Proof.
  intros Heq. rewrite !msum_list. apply lsum_ext. intros [k v] Hkv.
  apply elem_of_map_to_list in Hkv. eauto.
Qed.

Lemma msum_fmap {V'} (g : V' → V) f (m : gmap K V') :
  msum f (g <$> m) = msum (λ k v, f k (g v)) m.
Proof. unfold msum. apply map_fold_fmap. Qed.

Lemma lsum_bt_values `{Ord K} (f : V → Z) m : lsum f (bt_values m) = msum (λ _ v, f v) m.
Proof.
  unfold bt_values. rewrite lsum_fmap, bt_iter_perm, msum_list. done.
Qed.
End MapSums.

(** ** Machine arithmetic *)

Lemma in_width_spec w z : in_width w z = true ↔ 0 <= z < 2 ^ w.
Proof. unfold in_width. rewrite andb_true_iff, Z.leb_le, Z.ltb_lt. done. Qed.

Section Arith.
Context `{B : BuildMode}.

Lemma arith_exact w z : 0 <= z < 2 ^ w → arith w z = Some z.
Proof. intros Hz. unfold arith. by rewrite (proj2 (in_width_spec w z) Hz). Qed.

Lemma arith_range w z y : 0 <= w → arith w z = Some y → 0 <= y < 2 ^ w.
Proof.
  intros Hw. unfold arith. destruct (in_width w z) eqn:E.
  - intros [= <-]. by apply in_width_spec.
  - destruct overflow_checks; [done|]. intros [= <-]. apply Z.mod_pos_bound. lia.
Qed.

Lemma arith_checked w z y :
  overflow_checks = true → arith w z = Some y → y = z ∧ 0 <= z < 2 ^ w.
Proof.
  intros Hc. unfold arith. rewrite Hc. destruct (in_width w z) eqn:E; [|done].
  intros [= <-]. by apply in_width_spec in E.
Qed.

Lemma add_exact w a b : 0 <= a + b < 2 ^ w → add w a b = Some (a + b).
Proof. apply arith_exact. Qed.

Lemma sub_exact w a b : 0 <= a - b < 2 ^ w → sub w a b = Some (a - b).
Proof. apply arith_exact. Qed.

Lemma mul_exact w a b : 0 <= a * b < 2 ^ w → mul w a b = Some (a * b).
Proof. apply arith_exact. Qed.

Lemma sum_from_exact w acc xs :
  0 <= acc → (∀ x, x ∈ xs → 0 <= x) → acc + lsum id xs < 2 ^ w →
  sum_from w acc xs = Some (acc + lsum id xs).
Proof.
  revert acc. induction xs as [|x xs IH]; intros acc Ha Hxs Hb; simpl in *.
  - by rewrite Z.add_0_r.
  - assert (0 <= x) by set_solver. change (id x) with x in *.
    assert (0 <= lsum id xs) by (apply lsum_nonneg; set_solver).
    rewrite add_exact by lia. rewrite IH by (set_solver || lia). f_equal. lia.
Qed.

Lemma sum_exact w xs :
  (∀ x, x ∈ xs → 0 <= x) → lsum id xs < 2 ^ w → sum_checked w xs = Some (lsum id xs).
Proof. intros. unfold sum_checked. rewrite sum_from_exact by (done || lia). done. Qed.

Lemma sum_from_checked w acc xs y :
  overflow_checks = true → sum_from w acc xs = Some y → y = acc + lsum id xs.
Proof.
  intros Hc. revert acc. induction xs as [|x xs IH]; intros acc; simpl.
  - intros [= <-]. lia.
  - destruct (add w acc x) as [a|] eqn:E; [|done]. intros Hs%IH.
    apply arith_checked in E as [-> _]; [|done]. change (id x) with x. lia.
Qed.

Lemma sum_from_nonneg w acc xs y : 0 <= w → 0 <= acc → sum_from w acc xs = Some y → 0 <= y.
Proof.
  intros Hw. revert acc. induction xs as [|x xs IH]; intros acc Ha; simpl; [naive_solver|].
  destruct (add w acc x) as [a|] eqn:E; [|done]. apply IH. eapply arith_range in E; lia.
Qed.
End Arith.

(** Comparing a quotient with a threshold. *)
Lemma div_ltb_false a b q : 0 < b → (a / b <? q) = false ↔ q * b <= a.
Proof.
  intros Hb. rewrite Z.ltb_ge. split; intros.
  - pose proof (Z.mul_div_le a b Hb). nia.
  - apply Z.div_le_lower_bound; lia.
Qed.

Lemma saturating_add_exact w a b : a + b < 2 ^ w → saturating_add w a b = a + b.
Proof. unfold saturating_add, umax. lia. Qed.

Lemma saturating_mul_exact w a b : a * b < 2 ^ w → saturating_mul w a b = a * b.
Proof. unfold saturating_mul, umax. lia. Qed.

Lemma saturating_mul_range w a b :
  0 <= w → 0 <= a → 0 <= b → 0 <= saturating_mul w a b < 2 ^ w.
Proof.
  unfold saturating_mul, umax. intros. assert (0 < 2 ^ w) by (apply Z.pow_pos_nonneg; lia). nia.
Qed.

Lemma saturating_mul_le w a b : saturating_mul w a b <= a * b.
Proof. unfold saturating_mul. lia. Qed.

Create HintDb pole discriminated.
#[export] Hint Resolve saturating_mul_le leb_refl : pole.

(** ** Running methods *)

Section Inversion.
Context {S E A B : Type}.
Implicit Types (m : M S E A) (k : A → M S E B).

Lemma m_bind_ok_inv m k s b s' :
  m_bind m k s = (Ok b, s') → ∃ a s1, m s = (Ok a, s1) ∧ k a s1 = (Ok b, s').
Proof. unfold m_bind. destruct (m s) as [[] ?]; naive_solver. Qed.

Lemma m_bind_err_inv m k s e s' :
  m_bind m k s = (Err e, s') →
  m s = (Err e, s') ∨ ∃ a s1, m s = (Ok a, s1) ∧ k a s1 = (Err e, s').
Proof. unfold m_bind. destruct (m s) as [[] ?]; naive_solver. Qed.

Lemma m_bind_panic_inv m k s s' :
  m_bind m k s = (Panic, s') →
  m s = (Panic, s') ∨ ∃ a s1, m s = (Ok a, s1) ∧ k a s1 = (Panic, s').
Proof. unfold m_bind. destruct (m s) as [[] ?]; naive_solver. Qed.

Lemma m_bind_ok m k s a s1 : m s = (Ok a, s1) → m_bind m k s = k a s1.
Proof. unfold m_bind. by intros ->. Qed.

Lemma lift_inv (r r' : outcome E A) (s s' : S) : lift r s = (r', s') → r = r' ∧ s' = s.
Proof. unfold lift. naive_solver. Qed.

Lemma gets_inv (f : S → A) s (r : outcome E A) s' : gets f s = (r, s') → r = Ok (f s) ∧ s' = s.
Proof. unfold gets. naive_solver. Qed.

Lemma m_ret_inv (a : A) (s : S) (r : outcome E A) s' : m_ret a s = (r, s') → r = Ok a ∧ s' = s.
Proof. unfold m_ret. naive_solver. Qed.

Lemma m_throw_inv (e : E) (s : S) (r : outcome E A) s' : m_throw e s = (r, s') → r = Err e ∧ s' = s.
Proof. unfold m_throw. naive_solver. Qed.

Lemma modify_inv (f : S → S) s (r : outcome E unit) s' :
  modify f s = (r, s') → r = Ok tt ∧ s' = f s.
Proof. unfold modify. naive_solver. Qed.
End Inversion.

Lemma ensure_inv {S E} (c : bool) (e : E) (s s' : S) r :
  ensure c e s = (r, s') → s' = s ∧ ((c = true ∧ r = Ok tt) ∨ (c = false ∧ r = Err e)).
Proof. unfold ensure, lift. destruct c; naive_solver. Qed.

Lemma ok_or_inv {S E A} (o : option A) (e : E) (s s' : S) r :
  ok_or o e s = (r, s') →
  s' = s ∧ ((∃ a, o = Some a ∧ r = Ok a) ∨ (o = None ∧ r = Err e)).
Proof. unfold ok_or, lift. destruct o; naive_solver. Qed.

Lemma chk_inv {S E A} (o : option A) (s s' : S) (r : outcome E A) :
  chk o s = (r, s') → s' = s ∧ ((∃ a, o = Some a ∧ r = Ok a) ∨ (o = None ∧ r = Panic)).
Proof. unfold chk, lift, or_panic. destruct o; naive_solver. Qed.

(** [minv H] runs a method backwards from its result: one goal per way it can
    end with that result, with the guards it passed as hypotheses. *)
Ltac msubst := simplify_eq/=.

Ltac minv H :=
  lazymatch type of H with
  | m_bind _ _ _ = (Ok _, _) =>
      let a := fresh "a" in let s := fresh "s" in let H1 := fresh "H" in
      apply m_bind_ok_inv in H; destruct H as (a & s & H1 & H);
      minv H1; cbn beta in H; minv H
  | m_bind _ _ _ = (Err _, _) =>
      let a := fresh "a" in let s := fresh "s" in let H1 := fresh "H" in
      apply m_bind_err_inv in H;
      destruct H as [H | (a & s & H1 & H)]; [minv H | minv H1; cbn beta in H; minv H]
  | m_bind _ _ _ = (Panic, _) =>
      let a := fresh "a" in let s := fresh "s" in let H1 := fresh "H" in
      apply m_bind_panic_inv in H;
      destruct H as [H | (a & s & H1 & H)]; [minv H | minv H1; cbn beta in H; minv H]
  | gets _ _ = _ =>
      let E := fresh "E" in apply gets_inv in H; destruct H as [E H];
      try discriminate E; injection E as E; subst
  | m_ret _ _ = _ =>
      let E := fresh "E" in apply m_ret_inv in H; destruct H as [E H];
      try discriminate E; injection E as E; subst
  | m_throw _ _ = _ =>
      let E := fresh "E" in apply m_throw_inv in H; destruct H as [E H];
      try discriminate E; injection E as E; subst
  | modify _ _ = _ =>
      let E := fresh "E" in apply modify_inv in H; destruct H as [E H];
      try discriminate E; subst
  | ensure _ _ _ = _ =>
      let E := fresh "E" in
      apply ensure_inv in H; destruct H as [E [[H ?] | [H ?]]]; try discriminate; msubst
  | ok_or _ _ _ = _ =>
      let E := fresh "E" in let a := fresh "a" in
      apply ok_or_inv in H; destruct H as [E [(a & H & ?) | [H ?]]]; try discriminate; msubst
  | chk _ _ = _ =>
      let E := fresh "E" in let a := fresh "a" in
      apply chk_inv in H; destruct H as [E [(a & H & ?) | [H ?]]]; try discriminate; msubst
  | lift _ _ = _ =>
      let E := fresh "E" in
      apply lift_inv in H; destruct H as [H E]; subst
  | _ => idtac
  end.

(** ** Weakest preconditions

    [wp m Q s]: run from [s], the method panics or ends in an outcome and a state
    that satisfy [Q]. Errors are outcomes like any other. *)

Definition wp {S E A} (m : M S E A) (Q : outcome E A → S → Prop) (s : S) : Prop :=
  match m s with (Panic, _) => True | (r, s') => Q r s' end.

Section WeakestPre.
Context {S E : Type}.
Implicit Types (s : S) (e : E).

Lemma wp_elim {A} (m : M S E A) Q s r s' : wp m Q s → m s = (r, s') → r ≠ Panic → Q r s'.
Proof. unfold wp. intros Hwp Heq. rewrite Heq in Hwp. by destruct r. Qed.

Lemma wp_intro {A} (m : M S E A) (Q : outcome E A → S → Prop) s :
  (∀ r s', m s = (r, s') → r ≠ Panic → Q r s') → wp m Q s.
Proof. unfold wp. destruct (m s) as [[] ?]; intros HQ; try done; by apply HQ. Qed.

Lemma wp_mono {A} (m : M S E A) (Q Q' : outcome E A → S → Prop) s :
  wp m Q s → (∀ r s', r ≠ Panic → Q r s' → Q' r s') → wp m Q' s.
Proof. unfold wp. destruct (m s) as [[] ?]; intros HQ HQ'; try done; by apply HQ'. Qed.

Lemma wp_and {A} (m : M S E A) (Q Q' : outcome E A → S → Prop) s :
  wp m Q s → wp m Q' s → wp m (λ r s', Q r s' ∧ Q' r s') s.
Proof. unfold wp. destruct (m s) as [[] ?]; auto. Qed.

Lemma wp_bind {A C} (m : M S E A) (k : A → M S E C) Q s :
  wp m (λ r s', match r with Ok a => wp (k a) Q s' | Err e => Q (Err e) s' | Panic => True end) s →
  wp (m_bind m k) Q s.
Proof. unfold wp, m_bind. by destruct (m s) as [[] ?]. Qed.

Lemma wp_unbind {A C} (m : M S E A) (k : A → M S E C) Q s :
  wp (m_bind m k) Q s →
  wp m (λ r s', match r with Ok a => wp (k a) Q s' | Err e => Q (Err e) s' | Panic => True end) s.
Proof. unfold wp, m_bind. by destruct (m s) as [[] ?]. Qed.

Lemma wp_ret {A} (a : A) (Q : outcome E A → S → Prop) s : Q (Ok a) s → wp (m_ret a) Q s.
Proof. done. Qed.

Lemma wp_throw {A} e (Q : outcome E A → S → Prop) s : Q (Err e) s → wp (m_throw e) Q s.
Proof. done. Qed.

Lemma wp_gets {A} (f : S → A) (Q : outcome E A → S → Prop) s : Q (Ok (f s)) s → wp (gets f) Q s.
Proof. done. Qed.

Lemma wp_modify (f : S → S) (Q : outcome E unit → S → Prop) s :
  Q (Ok tt) (f s) → wp (modify f) Q s.
Proof. done. Qed.

Lemma wp_lift {A} (o : outcome E A) (Q : outcome E A → S → Prop) s :
  (∀ a, o = Ok a → Q (Ok a) s) → (∀ e, o = Err e → Q (Err e) s) → wp (lift o) Q s.
Proof. unfold wp, lift. destruct o; auto. Qed.

Lemma wp_ensure (c : bool) e (Q : outcome E unit → S → Prop) s :
  (c = true → Q (Ok tt) s) → (c = false → Q (Err e) s) → wp (ensure c e) Q s.
Proof. unfold wp, ensure, lift. destruct c; auto. Qed.

Lemma wp_ok_or {A} (o : option A) e (Q : outcome E A → S → Prop) s :
  (∀ a, o = Some a → Q (Ok a) s) → (o = None → Q (Err e) s) → wp (ok_or o e) Q s.
Proof. unfold wp, ok_or, lift. destruct o; auto. Qed.

Lemma wp_chk {A} (o : option A) (Q : outcome E A → S → Prop) s :
  (∀ a, o = Some a → Q (Ok a) s) → wp (chk o) Q s.
Proof. unfold wp, chk, lift, or_panic. destruct o; auto. Qed.

(** Loop rule: the invariant speaks of the elements left. *)
Lemma wp_for_each_left {A} (body : A → M S E unit) xs (I : list A → S → Prop)
    (Q : outcome E unit → S → Prop) s :
  I xs s →
  (∀ x xs s, I (x :: xs) s →
    wp (body x) (λ r s', match r with Ok _ => I xs s' | Err e => Q (Err e) s' | Panic => True end) s) →
  (∀ s, I [] s → Q (Ok tt) s) →
  wp (for_each body xs) Q s.
Proof.
  intros HI Hbody HQ. revert s HI. induction xs as [|x xs IH]; intros s HI; simpl.
  - apply wp_ret. auto.
  - apply wp_bind. eapply wp_mono; [by apply Hbody|].
    intros [[]|e|] s' _ HI'; [by apply IH|done|done].
Qed.

(** A loop keeps an invariant that each iteration keeps. *)
Lemma wp_for_each {A} (body : A → M S E unit) xs (I : S → Prop) (Q : outcome E unit → S → Prop) s :
  I s → (∀ x s, x ∈ xs → I s → wp (body x) (λ _, I) s) → (∀ r s, I s → Q r s) →
  wp (for_each body xs) Q s.
Proof.
  intros HI Hbody HQ.
  apply (wp_for_each_left _ _ (λ l s, l ⊆ xs ∧ I s)); [done| |naive_solver].
  intros x l s' [Hl HI']. eapply wp_mono; [apply Hbody; [set_solver|done]|].
  intros [[]|e|] s'' _ ?; [|auto|done]. split; [set_solver|done].
Qed.

Lemma wp_map_m {A C} (body : A → M S E C) xs (I : S → Prop) (Q : outcome E (list C) → S → Prop) s :
  I s → (∀ x s, x ∈ xs → I s → wp (body x) (λ _, I) s) → (∀ r s, I s → Q r s) →
  wp (map_m body xs) Q s.
Proof.
  intros HI Hbody. revert Q s HI. induction xs as [|x xs IH]; intros Q s HI HQ; simpl.
  - apply wp_ret. auto.
  - apply wp_bind. eapply wp_mono; [apply Hbody; [set_solver|done]|].
    intros [y|e|] s' _ HI'; [|auto|done]. apply wp_bind. apply IH; [|done|].
    { intros. apply Hbody; set_solver. }
    intros [ys|e|] s'' HI''; [apply wp_ret|..]; auto.
Qed.
End WeakestPre.

(** [wp_step] executes one operation of a method; the continuation gets the
    guards and results as hypotheses. *)
Ltac wp_step :=
  lazymatch goal with
  | |- wp (m_bind _ _) _ _ => apply wp_bind
  | |- wp (m_ret _) _ _ => apply wp_ret
  | |- wp (m_throw _) _ _ => apply wp_throw
  | |- wp (gets _) _ _ => apply wp_gets
  | |- wp (modify _) _ _ => apply wp_modify
  | |- wp (lift _) _ _ => apply wp_lift; intros ? ?
  | |- wp (ensure _ _) _ _ => apply wp_ensure; intros ?
  | |- wp (ok_or _ _) _ _ => apply wp_ok_or; [intros ? ?|intros ?]
  | |- wp (chk _) _ _ => apply wp_chk; intros ? ?
  | |- wp (let '(_, _) := ?x in _) _ _ => destruct x eqn:?
  | |- wp (match ?x with _ => _ end) _ _ => destruct x eqn:?
  | |- wp (match ?x with _ => _ end _) _ _ => destruct x eqn:?
  end; cbn beta iota zeta.
