(* ===== verification/Text.v ===== *)
(** * Strings: the operations of [str] the program uses

    A [&str] is its UTF-8 encoding, a Rocq [string] of bytes; [len] counts bytes.
    [trim] removes the characters with the Unicode property White_Space, in their
    UTF-8 forms; a slice at an offset that is not a character boundary panics. *)
From S2P Require Import Prelude.
From stdpp Require Import pretty.
Local Open Scope Z_scope.

(** [{n}] in a format string, for an unsigned integer. *)
Definition display (n : Z) : string := pretty n.

Definition string_of_bytes (b : list Z) : string :=
  foldr (λ x s, String (Ascii.ascii_of_N (Z.to_N x)) s) EmptyString b.

Definition str_len (s : string) : Z := Z.of_nat (String.length s).
Definition str_is_empty (s : string) : bool := match s with EmptyString => true | _ => false end.

(** ** White space: U+0009..U+000D, U+0020, U+0085, U+00A0, U+1680, U+2000..U+200A,
    U+2028, U+2029, U+202F, U+205F and U+3000 *)
Definition ws1 (a : Z) : bool := ((9 <=? a) && (a <=? 13)) || (a =? 32).
Definition ws2 (a b : Z) : bool := (a =? 0xC2) && ((b =? 0x85) || (b =? 0xA0)).
Definition ws3 (a b c : Z) : bool :=
  ((a =? 0xE1) && (b =? 0x9A) && (c =? 0x80))
  || ((a =? 0xE2) && (b =? 0x80)
      && (((0x80 <=? c) && (c <=? 0x8A)) || (c =? 0xA8) || (c =? 0xA9) || (c =? 0xAF)))
  || ((a =? 0xE2) && (b =? 0x81) && (c =? 0x9F))
  || ((a =? 0xE3) && (b =? 0x80) && (c =? 0x80)).

Fixpoint trim_start_bytes (l : list Z) : list Z :=
  match l with
  | [] => []
  | a :: l1 =>
      if ws1 a then trim_start_bytes l1 else
      match l1 with
      | b :: l2 =>
          if ws2 a b then trim_start_bytes l2 else
          match l2 with
          | c :: l3 => if ws3 a b c then trim_start_bytes l3 else l
          | [] => l
          end
      | [] => l
      end
  end.

(** The same from the end, on the reversed bytes. *)
Fixpoint trim_end_rev (l : list Z) : list Z :=
  match l with
  | [] => []
  | c :: l1 =>
      if ws1 c then trim_end_rev l1 else
      match l1 with
      | b :: l2 =>
          if ws2 b c then trim_end_rev l2 else
          match l2 with
          | a :: l3 => if ws3 a b c then trim_end_rev l3 else l
          | [] => l
          end
      | [] => l
      end
  end.

Definition trim_bytes (l : list Z) : list Z := rev (trim_end_rev (rev (trim_start_bytes l))).
Definition trim (s : string) : string := string_of_bytes (trim_bytes (string_bytes s)).

(** ** Case *)
Definition lower_byte (a : Z) : Z := if (65 <=? a) && (a <=? 90) then a + 32 else a.
Definition to_ascii_lowercase (s : string) : string :=
  string_of_bytes (lower_byte <$> string_bytes s).
Definition eq_ignore_ascii_case (s t : string) : bool :=
  bool_decide (to_ascii_lowercase s = to_ascii_lowercase t).

(** ** Slices *)

(** [is_char_boundary]: the byte at the offset does not continue a character. *)
Definition is_char_boundary (l : list Z) (i : nat) : bool :=
  match l !! i with
  | Some b => negb ((0x80 <=? b) && (b <=? 0xBF))
  | None => bool_decide (i = length l)
  end.

(** [&s[i..]] and [&s[..i]]; [None] is the panic. *)
Definition slice_from (s : string) (i : nat) : option string :=
  if is_char_boundary (string_bytes s) i then Some (string_of_bytes (drop i (string_bytes s))) else None.
Definition slice_to (s : string) (i : nat) : option string :=
  if is_char_boundary (string_bytes s) i then Some (string_of_bytes (take i (string_bytes s))) else None.

(** ** Prefixes and suffixes *)
Fixpoint strip_prefix_list (p l : list Z) : option (list Z) :=
  match p, l with
  | [], _ => Some l
  | x :: p, y :: l => if x =? y then strip_prefix_list p l else None
  | _ :: _, [] => None
  end.
Definition strip_prefix (s p : string) : option string :=
  string_of_bytes <$> strip_prefix_list (string_bytes p) (string_bytes s).
Definition strip_suffix (s p : string) : option string :=
  (λ l, string_of_bytes (rev l)) <$>
    strip_prefix_list (rev (string_bytes p)) (rev (string_bytes s)).

(** [trim_end_matches(p)] for a non-empty pattern: every repetition goes. The fuel is
    the length of the string, of which each round removes a byte or more. *)
Fixpoint trim_end_matches_fuel (fuel : nat) (p l : list Z) : list Z :=
  match fuel with
  | O => l
  | S fuel =>
      match strip_prefix_list p l with
      | Some l' => trim_end_matches_fuel fuel p l'
      | None => l
      end
  end.
Definition trim_end_matches (s p : string) : string :=
  let l := rev (string_bytes s) in
  string_of_bytes (rev (trim_end_matches_fuel (length l) (rev (string_bytes p)) l)).

(** ** Replacement *)

(** [s.replace(p, by)] for a non-empty pattern, from the left. The fuel is the length of
    the string, of which each round consumes a byte or more. *)
Fixpoint replace_fuel (fuel : nat) (p by_ l : list Z) : list Z :=
  match fuel, l with
  | O, _ => l
  | S fuel, _ =>
      match strip_prefix_list p l with
      | Some l' => (by_ ++ replace_fuel fuel p by_ l')%list
      | None => match l with [] => [] | x :: l => x :: replace_fuel fuel p by_ l end
      end
  end.
Definition str_replace (s p by_ : string) : string :=
  string_of_bytes (replace_fuel (String.length s) (string_bytes p) (string_bytes by_) (string_bytes s)).

(** * Lemmas *)

Definition is_byte (x : Z) : Prop := 0 <= x < 256.
#[export] Instance is_byte_dec x : Decision (is_byte x).
Proof. unfold is_byte. apply _. Defined.

Lemma string_bytes_cons a s :
  string_bytes (String a s) = Z.of_N (Ascii.N_of_ascii a) :: string_bytes s.
Proof. reflexivity. Qed.

Lemma string_bytes_range s : Forall is_byte (string_bytes s).
Proof.
  induction s as [|a s IH]; [constructor|]. rewrite string_bytes_cons.
  constructor; [|done]. unfold is_byte. pose proof (Ascii.N_ascii_bounded a). lia.
Qed.

Lemma string_bytes_length s : length (string_bytes s) = String.length s.
Proof. induction s as [|a s IH]; [done|]. rewrite string_bytes_cons. simpl. by rewrite IH. Qed.

Lemma string_bytes_of_bytes l : Forall is_byte l → string_bytes (string_of_bytes l) = l.
Proof.
  induction 1 as [|x l Hx _ IH]; [done|]. simpl. rewrite string_bytes_cons, IH. f_equal.
  unfold is_byte in Hx. rewrite Ascii.N_ascii_embedding by lia. lia.
Qed.

Lemma string_of_string_bytes s : string_of_bytes (string_bytes s) = s.
Proof.
  induction s as [|a s IH]; [done|]. rewrite string_bytes_cons. simpl. rewrite IH.
  by rewrite N2Z.id, Ascii.ascii_N_embedding.
Qed.

Lemma string_bytes_app s t : string_bytes (s +:+ t) = string_bytes s ++ string_bytes t.
Proof.
  induction s as [|a s IH]; [done|].
  change (String a s +:+ t) with (String a (s +:+ t)). by rewrite !string_bytes_cons, IH.
Qed.

Lemma lower_byte_range x : is_byte x → is_byte (lower_byte x).
Proof. unfold is_byte, lower_byte. case_match; lia. Qed.

Lemma string_bytes_lower s : string_bytes (to_ascii_lowercase s) = lower_byte <$> string_bytes s.
Proof.
  apply string_bytes_of_bytes, Forall_fmap. eapply Forall_impl; [apply string_bytes_range|].
  intros x. apply lower_byte_range.
Qed.

(** A property of bytes that holds of all 256 of them, by computation. *)
Lemma byte_forall (P : Z → bool) :
  forallb P (Z.of_nat <$> seq 0 256) = true → ∀ x, is_byte x → P x = true.
Proof.
  intros Hall x [Hx1 Hx2]. rewrite forallb_forall in Hall. apply Hall, list_elem_of_In.
  apply list_elem_of_fmap. exists (Z.to_nat x). split; [lia|]. apply elem_of_seq. lia.
Qed.

(** ** [str::parse] for unsigned integers

    An optional sign, then decimal digits; the value must fit [w] bits. *)
Definition parse_digit (b : Z) : option Z :=
  if (48 <=? b) && (b <=? 57) then Some (b - 48) else None.

Fixpoint parse_digits (w : Z) (acc : Z) (l : list Z) : outcome string Z :=
  match l with
  | [] => Ok acc
  | b :: l =>
      match parse_digit b with
      | None => Err "invalid digit found in string"%string
      | Some d =>
          if 10 * acc + d <? 2 ^ w then parse_digits w (10 * acc + d) l
          else Err "number too large to fit in target type"%string
      end
  end.

Definition parse_uint (w : Z) (s : string) : outcome string Z :=
  match string_bytes s with
  | [] => Err "cannot parse integer from empty string"%string
  | 43 :: [] | 45 :: [] => Err "invalid digit found in string"%string
  | 43 :: l => parse_digits w 0 l
  | l => parse_digits w 0 l
  end.

Lemma parse_digits_range w acc l n : 0 <= acc < 2 ^ w → parse_digits w acc l = Ok n → 0 <= n < 2 ^ w.
Proof.
  revert acc. induction l as [|b l IH]; simpl; intros acc Ha He; [by simplify_eq|].
  destruct (parse_digit b) as [d|] eqn:Ed; [|done].
  destruct (Z.ltb_spec (10 * acc + d) (2 ^ w)); [|done]. eapply IH; [|done].
  unfold parse_digit in Ed. destruct (_ && _) eqn:E; simplify_eq.
  apply andb_true_iff in E as [?%Z.leb_le ?%Z.leb_le]. lia.
Qed.

Lemma parse_uint_range w s n : 0 < w → parse_uint w s = Ok n → 0 <= n < 2 ^ w.
Proof.
  intros Hw. assert (0 <= 0 < 2 ^ w) as H0 by lia. unfold parse_uint.
  destruct (string_bytes s) as [|b l]; [done|].
  repeat case_match; simplify_eq; try done; intros He; by eapply parse_digits_range in He.
Qed.

(** ** Searching and splitting *)

(** [s.contains(p)]: the pattern is a prefix of some suffix. *)
Fixpoint contains_list (p l : list Z) : bool :=
  match strip_prefix_list p l with
  | Some _ => true
  | None => match l with [] => false | _ :: l => contains_list p l end
  end.
Definition str_contains (s p : string) : bool := contains_list (string_bytes p) (string_bytes s).

(** [s.split(c)] for a one-byte character: the pieces between its occurrences. *)
Fixpoint split_bytes (c : Z) (l : list Z) : list (list Z) :=
  match l with
  | [] => [[]]
  | x :: l =>
      if x =? c then [] :: split_bytes c l else
      match split_bytes c l with
      | piece :: rest => (x :: piece) :: rest
      | [] => [[x]]
      end
  end.
Definition str_split (s : string) (c : Z) : list string := string_of_bytes <$> split_bytes c (string_bytes s).

(** [s.lines()]: the pieces between line feeds, without a carriage return before one, and
    without an empty last piece. *)
Definition strip_cr (l : list Z) : list Z :=
  match rev l with 13 :: r => rev r | _ => l end.
Fixpoint line_pieces (pieces : list (list Z)) : list (list Z) :=
  match pieces with
  | [] => []
  | [last] => match last with [] => [] | _ => [last] end
  | p :: rest => strip_cr p :: line_pieces rest
  end.
Definition str_lines (s : string) : list string :=
  string_of_bytes <$> line_pieces (split_bytes 10 (string_bytes s)).

(** [trim_start_matches(p)] for a non-empty pattern; the fuel is the length of the string. *)
Definition trim_start_matches (s p : string) : string :=
  string_of_bytes (trim_end_matches_fuel (String.length s) (string_bytes p) (string_bytes s)).

(** [String::from_utf8_lossy]: every maximal prefix of an ill-formed sequence becomes
    U+FFFD. The second byte of a three- or four-byte form has a narrower range after the
    lead bytes 0xE0, 0xED, 0xF0 and 0xF4. *)
Definition is_cont (b : Z) : bool := (0x80 <=? b) && (b <=? 0xBF).
Definition second_ok (a b : Z) : bool :=
  if a =? 0xE0 then (0xA0 <=? b) && (b <=? 0xBF)
  else if a =? 0xED then (0x80 <=? b) && (b <=? 0x9F)
  else if a =? 0xF0 then (0x90 <=? b) && (b <=? 0xBF)
  else if a =? 0xF4 then (0x80 <=? b) && (b <=? 0x8F)
  else is_cont b.
Definition replacement : list Z := [0xEF; 0xBF; 0xBD].

Fixpoint utf8_lossy (l : list Z) : list Z :=
  match l with
  | [] => []
  | a :: l1 =>
      if a <? 0x80 then a :: utf8_lossy l1
      else if (0xC2 <=? a) && (a <=? 0xDF) then
        match l1 with
        | b :: l2 => if is_cont b then a :: b :: utf8_lossy l2 else (replacement ++ utf8_lossy l1)%list
        | [] => replacement
        end
      else if (0xE0 <=? a) && (a <=? 0xEF) then
        match l1 with
        | b :: l2 =>
            if second_ok a b then
              match l2 with
              | c :: l3 => if is_cont c then a :: b :: c :: utf8_lossy l3 else (replacement ++ utf8_lossy l2)%list
              | [] => replacement
              end
            else (replacement ++ utf8_lossy l1)%list
        | [] => replacement
        end
      else if (0xF0 <=? a) && (a <=? 0xF4) then
        match l1 with
        | b :: l2 =>
            if second_ok a b then
              match l2 with
              | c :: l3 =>
                  if is_cont c then
                    match l3 with
                    | d :: l4 => if is_cont d then a :: b :: c :: d :: utf8_lossy l4 else (replacement ++ utf8_lossy l3)%list
                    | [] => replacement
                    end
                  else (replacement ++ utf8_lossy l2)%list
              | [] => replacement
              end
            else (replacement ++ utf8_lossy l1)%list
        | [] => replacement
        end
      else (replacement ++ utf8_lossy l1)%list
  end.

Lemma contains_list_spec p l : contains_list p l = true ↔ ∃ a b, l = (a ++ p ++ b)%list.
Proof.
  assert (Hstrip : ∀ (p l : list Z), is_Some (strip_prefix_list p l) ↔ ∃ b, l = (p ++ b)%list).
  { clear. intros p. induction p as [|x p IH]; intros l; simpl.
    - split; [intros _; by exists l|intros _; done].
    - destruct l as [|y l]; [split; [intros [? [=]]|intros [? [=]]]|].
      destruct (Z.eqb_spec x y) as [->|Hn].
      + rewrite IH. split; intros [b Hb]; exists b; [by rewrite Hb|by injection Hb].
      + split; [intros [? [=]]|intros [b [=]]; congruence]. }
  induction l as [|y l IH]; simpl; pose proof (Hstrip p) as Hs.
  - specialize (Hs []). destruct (strip_prefix_list p []) eqn:E.
    + split; [intros _|done]. destruct (proj1 Hs) as [b Hb]; [eauto|]. exists [], b. done.
    + split; [done|]. intros (a & b & Hab). symmetry in Hab. apply app_eq_nil in Hab as [_ Hab].
      assert (is_Some (@None (list Z))) as [? [=]] by (apply Hs; by exists b).
  - specialize (Hs (y :: l)). destruct (strip_prefix_list p (y :: l)) eqn:E.
    + split; [intros _|done]. destruct (proj1 Hs) as [b Hb]; [eauto|]. exists [], b. done.
    + rewrite IH. split.
      * intros (a & b & ->). by exists (y :: a), b.
      * intros ([|z a] & b & Hab).
        { assert (is_Some (@None (list Z))) as [? [=]] by (apply Hs; by exists b). }
        injection Hab as -> ->. by exists a, b.
Qed.

Lemma split_bytes_ne c l : split_bytes c l ≠ [].
Proof. destruct l as [|x l]; simpl; [done|]. destruct (x =? c); [done|]. by case_match. Qed.

(** A piece with no separator, then a separator: the first piece of the split. *)
Lemma split_bytes_piece c a b :
  c ∉ a → split_bytes c (a ++ c :: b) = a :: split_bytes c b.
Proof.
  induction a as [|x a IH]; intros Hc; simpl; [by rewrite Z.eqb_refl|].
  apply not_elem_of_cons in Hc as [Hx Ha]. destruct (Z.eqb_spec x c); [congruence|].
  by rewrite IH.
Qed.
Lemma split_bytes_whole c a : c ∉ a → split_bytes c a = [a].
Proof.
  induction a as [|x a IH]; intros Hc; simpl; [done|].
  apply not_elem_of_cons in Hc as [Hx Ha]. destruct (Z.eqb_spec x c); [congruence|].
  by rewrite IH.
Qed.
