(* ===== verification/Primitives.v ===== *)
(** * Primitives: src/src/primitives.rs

    Type aliases and enumerations. Integers are [Z] at the width the alias
    names; a 32-byte array is its list of bytes, ordered lexicographically as
    Rust orders arrays. *)
From S2P Require Import Prelude.

Definition bytes : Type := list Z.

Definition EpochId : Type := Z.
Definition SlotId : Type := Z.
Definition Height : Type := Z.
Definition UnixMillis : Type := Z.
Definition Amount : Type := Z.
Definition AppId : Type := Z.
Definition ContentId : Type := string.
Definition Hash32 : Type := bytes.
Definition NodeId : Type := bytes.
Definition Address : Type := bytes.
Definition SignatureBytes : Type := bytes.

(** The aliases are transparent to instance search. *)
#[export] Typeclasses Transparent bytes EpochId SlotId Height UnixMillis Amount AppId
  ContentId Hash32 NodeId Address SignatureBytes.

Inductive Capability := Collect | Store | Verify | Propose | Archive.
Inductive NodeStatus := NodePending | NodeActive | NodeJailed | NodeTombstoned.
Inductive ServeClass := BestEffort | ChallengeWindow | ServeArchive.
Inductive ChallengeKind := BadBatch | Omission | BadAggregate | BadReward | BadStorage.
Inductive ChallengeState := Open | Responded | Succeeded | Rejected | Expired.
Inductive VoteChoice := Yes | No | Abstain.
Inductive ActivitySourceKind := Steam | Epic | Ea | Gog | Community.

#[export] Instance Capability_eq_dec : EqDecision Capability.
Proof. solve_decision. Defined.
#[export] Instance NodeStatus_eq_dec : EqDecision NodeStatus.
Proof. solve_decision. Defined.
#[export] Instance ServeClass_eq_dec : EqDecision ServeClass.
Proof. solve_decision. Defined.
#[export] Instance ChallengeKind_eq_dec : EqDecision ChallengeKind.
Proof. solve_decision. Defined.
#[export] Instance ChallengeState_eq_dec : EqDecision ChallengeState.
Proof. solve_decision. Defined.
#[export] Instance VoteChoice_eq_dec : EqDecision VoteChoice.
Proof. solve_decision. Defined.
#[export] Instance ActivitySourceKind_eq_dec : EqDecision ActivitySourceKind.
Proof. solve_decision. Defined.

(** [#[derive(PartialOrd, Ord)]]: declaration order. *)
Definition source_kind_index (k : ActivitySourceKind) : Z :=
  match k with Steam => 0 | Epic => 1 | Ea => 2 | Gog => 3 | Community => 4 end.
#[export] Instance ActivitySourceKind_ord : Ord ActivitySourceKind := λ x y,
  cmp (source_kind_index x) (source_kind_index y).

Record MerkleCommitment := {
  root : Hash32;
  leaf_count : Z;
}.
#[export] Instance MerkleCommitment_eq_dec : EqDecision MerkleCommitment.
Proof. solve_decision. Defined.
