(* ===== verification/Params.v ===== *)
(** * Protocol parameters: src/src/params.rs

    The parameter records, their reference values and [ProtocolParams::validate],
    one guard per [if] in the source's order. *)
From S2P Require Import Prelude Primitives.
Local Open Scope string_scope.
Local Open Scope Z_scope.

Record SlashingParams := {
  double_sign_bps : Z;
  offline_bps : Z;
  medium_deviation_bps : Z;
  severe_deviation_bps : Z;
}.

Record FeeParams := {
  base_gas_price_nano : Z;
  max_gas_price_nano : Z;
  gas_adjustment_ppm : Z;
  congestion_threshold_ppm : Z;
  fee_burn_bps : Z;
}.

Record AppWeightOverride := {
  awo_app_id : Z;
  awo_game_coefficient_ppm : Z;
}.

Record RewardParams := {
  reward_source_is_tokenomics : bool;
  emission_year : Z;
  reward_block_secs : Z;
  initial_emission_rate_bps : Z;
  tail_emission_start_year : Z;
  tail_emission_rate_bps : Z;
  player_reward_allocation_bps : Z;
  service_reward_allocation_bps : Z;
  collect_reward_bps : Z;
  store_reward_bps : Z;
  verify_reward_bps : Z;
  propose_reward_bps : Z;
  configured_player_block_reward : Amount;
  effective_player_block_reward : Amount;
  target_network_weight_units : Amount;
  reward_adjustment_cap_bps : Z;
  tier1_weight_ppm : Z;
  tier2_weight_min_ppm : Z;
  tier2_weight_max_ppm : Z;
  tier3_weight_min_ppm : Z;
  tier3_weight_max_ppm : Z;
  app_weight_overrides : list AppWeightOverride;
  reward_burn_threshold : Amount;
  reward_burn_bps : Z;
  governance_burn_bps : Z;
}.

Record GovernanceParams := {
  params_update_bond : Amount;
  params_update_quorum_bps : Z;
  params_update_approval_bps : Z;
  slow_params_update_bond : Amount;
  slow_params_update_quorum_bps : Z;
  slow_params_update_approval_bps : Z;
}.

Record MutualProofParams := {
  min_witness_count : Z;
  min_witness_observation_tolerance_ppm : Z;
  min_distinct_observations : Z;
  session_slash_bps : Z;
  min_heartbeat_count : Z;
  heartbeat_bucket_seconds : Z;
  min_heartbeat_coverage_bps : Z;
  challenge_bond_burn_bps : Z;
}.

Record ProtocolParams := {
  slot_seconds : Z;
  epoch_slots : Z;
  committee_size : Z;
  unbonding_blocks : Z;
  min_verify_bond : Amount;
  min_propose_bond : Amount;
  challenge_window_blocks : Z;
  max_emergency_brake_blocks : Z;
  min_retention_epochs : Z;
  fee : FeeParams;
  rewards : RewardParams;
  governance : GovernanceParams;
  slashing : SlashingParams;
  mutual_proof : MutualProofParams;
}.

Definition MutualProofParams_default : MutualProofParams := {|
  min_witness_count := 2;
  min_witness_observation_tolerance_ppm := 50000;
  min_distinct_observations := 2;
  session_slash_bps := 5000;
  min_heartbeat_count := 2;
  heartbeat_bucket_seconds := 300;
  min_heartbeat_coverage_bps := 5000;
  challenge_bond_burn_bps := 2500;
|}.

Definition ProtocolParams_default : ProtocolParams := {|
  slot_seconds := 300;
  epoch_slots := 12;
  committee_size := 21;
  unbonding_blocks := 5;
  min_verify_bond := 100;
  min_propose_bond := 10000;
  challenge_window_blocks := 20;
  max_emergency_brake_blocks := 100;
  min_retention_epochs := 2;
  fee := {|
    base_gas_price_nano := 100;
    max_gas_price_nano := 1000;
    gas_adjustment_ppm := 1150000;
    congestion_threshold_ppm := 500000;
    fee_burn_bps := 2500;
  |};
  rewards := {|
    reward_source_is_tokenomics := true;
    emission_year := 1;
    reward_block_secs := 3600;
    initial_emission_rate_bps := 2000;
    tail_emission_start_year := 4;
    tail_emission_rate_bps := 200;
    player_reward_allocation_bps := 8000;
    service_reward_allocation_bps := 1000;
    collect_reward_bps := 5000;
    store_reward_bps := 2500;
    verify_reward_bps := 1500;
    propose_reward_bps := 1000;
    configured_player_block_reward := 1000;
    effective_player_block_reward := 18264;
    target_network_weight_units := 150000000000000;
    reward_adjustment_cap_bps := 2000;
    tier1_weight_ppm := 1000000;
    tier2_weight_min_ppm := 300000;
    tier2_weight_max_ppm := 600000;
    tier3_weight_min_ppm := 50000;
    tier3_weight_max_ppm := 150000;
    app_weight_overrides := [];
    reward_burn_threshold := 10000;
    reward_burn_bps := 1000;
    governance_burn_bps := 100;
  |};
  governance := {|
    params_update_bond := 10000;
    params_update_quorum_bps := 2500;
    params_update_approval_bps := 6000;
    slow_params_update_bond := 20000;
    slow_params_update_quorum_bps := 3300;
    slow_params_update_approval_bps := 7500;
  |};
  slashing := {|
    double_sign_bps := 5000;
    offline_bps := 100;
    medium_deviation_bps := 500;
    severe_deviation_bps := 2000;
  |};
  mutual_proof := {|
    min_witness_count := 2;
    min_witness_observation_tolerance_ppm := 50000;
    min_distinct_observations := 2;
    session_slash_bps := 5000;
    min_heartbeat_count := 2;
    heartbeat_bucket_seconds := 300;
    min_heartbeat_coverage_bps := 5000;
    challenge_bond_burn_bps := 2500;
  |};
|}.

Inductive ProtocolParamsError :=
| ZeroSlotSeconds
| ZeroEpochSlots
| ZeroChallengeWindowBlocks
| ZeroMinRetentionEpochs
| ZeroEmissionYear
| ZeroTailEmissionStartYear
| ZeroRewardBlockSecs
| ServiceRewardSplitInvalid (total_bps : Z)
| AllocationSplitInvalid (total_bps : Z)
| EffectivePlayerBlockRewardZero
| InvalidAppWeightOverrides
| GovernanceThresholdInvalid
| GovernanceBondZero
| MinWitnessCountZero
| MinDistinctObservationsZero
| MinHeartbeatCountZero
| HeartbeatBucketSecondsZero
| ObservationToleranceInvalid (ppm : Z)
| BurnBpsOutOfRange (field : string) (bps : Z).

(** The loop over [app_weight_overrides]: [previous] is [previous_app_id]. *)
Fixpoint app_weight_overrides_ok (previous : option Z) (l : list AppWeightOverride) : bool :=
  match l with
  | [] => true
  | entry :: l =>
      if awo_game_coefficient_ppm entry =? 0 then false
      else if match previous with Some last => awo_app_id entry <=? last | None => false end
      then false
      else app_weight_overrides_ok (Some (awo_app_id entry)) l
  end.

(** [v == 0 || v > 10_000] *)
Definition threshold_invalid (v : Z) : bool := (v =? 0) || (10000 <? v).

(** The loop over the burn shares: the first one above 10000 bps. *)
Fixpoint first_out_of_range (l : list (string * Z)) : option (string * Z) :=
  match l with
  | [] => None
  | (field, bps) :: l => if 10000 <? bps then Some (field, bps) else first_out_of_range l
  end.

(** The totals are u32 sums of u16 values, which cannot overflow. *)
Definition validate (p : ProtocolParams) : outcome ProtocolParamsError unit :=
  let r := rewards p in
  let g := governance p in
  let proof := mutual_proof p in
  if slot_seconds p =? 0 then Err ZeroSlotSeconds else
  if epoch_slots p =? 0 then Err ZeroEpochSlots else
  if challenge_window_blocks p =? 0 then Err ZeroChallengeWindowBlocks else
  if min_retention_epochs p =? 0 then Err ZeroMinRetentionEpochs else
  if emission_year r =? 0 then Err ZeroEmissionYear else
  if tail_emission_start_year r =? 0 then Err ZeroTailEmissionStartYear else
  if reward_block_secs r =? 0 then Err ZeroRewardBlockSecs else
  let service_split_total :=
    collect_reward_bps r + store_reward_bps r + verify_reward_bps r + propose_reward_bps r in
  if negb (service_split_total =? 10000) then Err (ServiceRewardSplitInvalid service_split_total) else
  let allocation_total := player_reward_allocation_bps r + service_reward_allocation_bps r in
  if negb (allocation_total =? 9000) then Err (AllocationSplitInvalid allocation_total) else
  if effective_player_block_reward r =? 0 then Err EffectivePlayerBlockRewardZero else
  if negb (app_weight_overrides_ok None (app_weight_overrides r))
  then Err InvalidAppWeightOverrides else
  if threshold_invalid (params_update_quorum_bps g) || threshold_invalid (params_update_approval_bps g)
  then Err GovernanceThresholdInvalid else
  if params_update_bond g =? 0 then Err GovernanceBondZero else
  if (slow_params_update_bond g =? 0) || threshold_invalid (slow_params_update_quorum_bps g)
     || threshold_invalid (slow_params_update_approval_bps g)
  then Err GovernanceThresholdInvalid else
  if min_witness_count proof =? 0 then Err MinWitnessCountZero else
  if min_distinct_observations proof =? 0 then Err MinDistinctObservationsZero else
  if min_heartbeat_count proof =? 0 then Err MinHeartbeatCountZero else
  if heartbeat_bucket_seconds proof =? 0 then Err HeartbeatBucketSecondsZero else
  if (min_witness_observation_tolerance_ppm proof =? 0)
     || (1000000 <? min_witness_observation_tolerance_ppm proof)
  then Err (ObservationToleranceInvalid (min_witness_observation_tolerance_ppm proof)) else
  match first_out_of_range
    [("session_slash_bps", session_slash_bps proof);
     ("min_heartbeat_coverage_bps", min_heartbeat_coverage_bps proof);
     ("challenge_bond_burn_bps", challenge_bond_burn_bps proof)] with
  | Some (field, bps) => Err (BurnBpsOutOfRange field bps)
  | None => Ok tt
  end.

(** ** What a valid parameter set is, stated declaratively *)

Definition bps_threshold (v : Z) : Prop := v ≠ 0 ∧ v <= 10000.

Record valid_params (p : ProtocolParams) : Prop := {
  vp_nonzero :
    Forall (λ v, v ≠ 0)
      [slot_seconds p; epoch_slots p; challenge_window_blocks p; min_retention_epochs p;
       emission_year (rewards p); tail_emission_start_year (rewards p);
       reward_block_secs (rewards p); effective_player_block_reward (rewards p);
       params_update_bond (governance p); slow_params_update_bond (governance p);
       min_witness_count (mutual_proof p); min_distinct_observations (mutual_proof p);
       min_heartbeat_count (mutual_proof p); heartbeat_bucket_seconds (mutual_proof p);
       min_witness_observation_tolerance_ppm (mutual_proof p)];
  vp_service_split :
    collect_reward_bps (rewards p) + store_reward_bps (rewards p)
    + verify_reward_bps (rewards p) + propose_reward_bps (rewards p) = 10000;
  vp_allocation_split :
    player_reward_allocation_bps (rewards p) + service_reward_allocation_bps (rewards p) = 9000;
  vp_overrides_positive :
    Forall (λ o, awo_game_coefficient_ppm o ≠ 0) (app_weight_overrides (rewards p));
  vp_overrides_sorted :
    StronglySorted Z.lt (awo_app_id <$> app_weight_overrides (rewards p));
  vp_thresholds :
    Forall bps_threshold
      [params_update_quorum_bps (governance p); params_update_approval_bps (governance p);
       slow_params_update_quorum_bps (governance p);
       slow_params_update_approval_bps (governance p)];
  vp_tolerance : min_witness_observation_tolerance_ppm (mutual_proof p) <= 1000000;
  vp_burn_shares :
    Forall (λ v, v <= 10000)
      [session_slash_bps (mutual_proof p); min_heartbeat_coverage_bps (mutual_proof p);
       challenge_bond_burn_bps (mutual_proof p)];
}.

Lemma overrides_ok_from last l :
  app_weight_overrides_ok (Some last) l = true ↔
  Forall (λ o, awo_game_coefficient_ppm o ≠ 0) l ∧
  StronglySorted Z.lt (last :: (awo_app_id <$> l)).
Proof.
  revert last. induction l as [|e l IH]; intros last; simpl.
  - split; [|done]. intros _. repeat constructor.
  - destruct (Z.eqb_spec (awo_game_coefficient_ppm e) 0) as [Hz|Hz].
    { split; [done|]. intros [Hf _]. inversion_clear Hf. done. }
    destruct (Z.leb_spec (awo_app_id e) last) as [Hle|Hlt].
    { split; [done|]. intros [_ Hs]. inversion_clear Hs as [|? ? _ Hall].
      inversion_clear Hall. lia. }
    rewrite IH, Forall_cons. split.
    + intros [Hf Hs]. split_and!; [done..|]. inversion_clear Hs as [|? ? Hs' Hall].
      constructor; [by constructor|]. constructor; [done|].
      eapply Forall_impl; [exact Hall|]. simpl. lia.
    + intros [[_ Hf] Hs]. split; [done|]. inversion_clear Hs as [|? ? Hs' _]. done.
Qed.

Lemma overrides_ok_spec l :
  app_weight_overrides_ok None l = true ↔
  Forall (λ o, awo_game_coefficient_ppm o ≠ 0) l ∧ StronglySorted Z.lt (awo_app_id <$> l).
Proof.
  destruct l as [|e l]; simpl; [split; [repeat constructor|done]|].
  destruct (Z.eqb_spec (awo_game_coefficient_ppm e) 0) as [Hz|Hz].
  { split; [done|]. intros [Hf _]. inversion_clear Hf. done. }
  rewrite overrides_ok_from, Forall_cons. naive_solver.
Qed.

Lemma threshold_invalid_spec v : threshold_invalid v = false ↔ bps_threshold v.
Proof.
  unfold threshold_invalid, bps_threshold.
  rewrite orb_false_iff, Z.eqb_neq, Z.ltb_ge. done.
Qed.

Lemma first_out_of_range_spec l :
  first_out_of_range l = None ↔ Forall (λ fv, fv.2 <= 10000) l.
Proof.
  induction l as [|[f v] l IH]; simpl; [done|]. rewrite Forall_cons; simpl.
  destruct (Z.ltb_spec 10000 v); [split; [done|lia]|]. rewrite IH. naive_solver lia.
Qed.

(** One guard of [validate]: the error is returned or its negation holds. *)
Lemma guard_ok {E A} (b : bool) (e : E) (k : outcome E A) (a : A) :
  (if b then Err e else k) = Ok a ↔ b = false ∧ k = Ok a.
Proof. destruct b; naive_solver. Qed.

(** [validate] accepts exactly the parameter sets that satisfy the
    declarative specification: all mandatory quantities non-zero, service split
    10000 bps, allocation split 9000 bps, app weight overrides strictly sorted by
    app id with positive coefficients, governance thresholds in (0, 10000],
    tolerance in (0, 10^6] and burn shares at most 10000 bps. *)
Theorem validate_ok_iff (p : ProtocolParams) : validate p = Ok tt ↔ valid_params p.
Proof.
  unfold validate. rewrite !guard_ok, !orb_false_iff, !negb_false_iff, !threshold_invalid_spec.
  rewrite !Z.eqb_neq, !Z.eqb_eq, overrides_ok_spec, Z.ltb_ge.
  assert (∀ o : option (string * Z),
    (match o with Some (f, b) => Err (BurnBpsOutOfRange f b) | None => Ok tt end = Ok tt)
    ↔ o = None) as -> by (intros [[]|]; naive_solver).
  rewrite first_out_of_range_spec, !Forall_cons, Forall_nil; simpl.
  split.
  - intros; destruct_and!. split; rewrite ?Forall_cons, ?Forall_nil; tauto.
  - intros [Hn ? ? ? ? Ht ? Hb]. rewrite !Forall_cons in Hn.
    rewrite !Forall_cons in Ht. rewrite !Forall_cons in Hb. tauto.
Qed.

(** The reference parameters pass their own validation. *)
Lemma default_params_valid : validate ProtocolParams_default = Ok tt.
Proof. reflexivity. Qed.
