(* ===== verification/Records.v ===== *)
(** * Records: src/src/records.rs, state.rs and transactions.rs

    The stored records, account and node state and transactions, field by field.
    A field is named after the source's, with a prefix for the struct where two
    structs share a name. *)
From S2P Require Import Prelude Primitives Params.

(** [node_gvs::GvsTier], a field of [AggregateRecord]. *)
Inductive GvsTier := Tier1 | Tier2 | Tier3.

Record ObservationRecord := {
  obs_epoch_id : EpochId;
  obs_slot_id : SlotId;
  obs_app_id : AppId;
  obs_source_kind : ActivitySourceKind;
  obs_source_confidence_ppm : Z;
  observed_players : Z;
  observed_at_millis : UnixMillis;
  obs_collector_id : NodeId;
  raw_body_cid : ContentId;
  raw_body_hash : Hash32;
  collector_signature : SignatureBytes;
}.

Record BatchCommit := {
  bc_epoch_id : EpochId;
  bc_collector_id : NodeId;
  slot_start : SlotId;
  slot_end : SlotId;
  batch : MerkleCommitment;
  bc_payload_cid : ContentId;
  obs_count : Z;
  submitted_at_height : Height;
}.

Record ReplicaReceipt := {
  rr_epoch_id : EpochId;
  rr_payload_cid : ContentId;
  storer_id : NodeId;
  rr_retention_until_epoch : EpochId;
  receipt_signature : SignatureBytes;
}.

Record AggregateRecord := {
  agg_epoch_id : EpochId;
  agg_slot_id : SlotId;
  agg_app_id : AppId;
  gvs_tier : GvsTier;
  primary_source_kind : ActivitySourceKind;
  agg_source_confidence_ppm : Z;
  accepted_observations : Z;
  agg_median_players : Z;
  base_glv_microunits : Z;
  tier_weight_ppm : Z;
  time_decay_ppm : Z;
  coverage_bonus_ppm : Z;
  gvs_microunits : Z;
  source_batch_root : Hash32;
}.

Record RewardRecord := {
  rw_epoch_id : EpochId;
  rw_node_id : NodeId;
  recipient_address : string;
  player_reward : Amount;
  collect_reward : Amount;
  store_reward : Amount;
  verify_reward : Amount;
  propose_reward : Amount;
  slash_debit : Amount;
  net_reward : Amount;
}.

Record EpochCommit := {
  ec_epoch_id : EpochId;
  accepted_batches : MerkleCommitment;
  observations : MerkleCommitment;
  aggregates : MerkleCommitment;
  ec_rewards : MerkleCommitment;
  availability : MerkleCommitment;
  randomness_seed : Hash32;
  proposer_id : NodeId;
  challenge_open_height : Height;
  challenge_deadline_height : Height;
}.

Record ChallengeEvidenceRef := {
  ev_batch_root : option Hash32;
  aggregate_root : option Hash32;
  reward_root : option Hash32;
  ev_payload_cid : option ContentId;
  ev_merkle_proof : list Hash32;
}.

Record Challenge := {
  ch_challenge_id : Hash32;
  ch_kind : ChallengeKind;
  ch_epoch_id : EpochId;
  target_node : option NodeId;
  challenger : Address;
  ch_bond : Amount;
  opened_at_height : Height;
  deadline_height : Height;
  ch_state : ChallengeState;
  evidence : ChallengeEvidenceRef;
}.

Record DelegationRecord := {
  dl_delegator : Address;
  dl_operator : NodeId;
  dl_amount : Amount;
}.

Record PlaySession := {
  ps_session_id : Hash32;
  ps_node_address : Address;
  ps_app_id : AppId;
  ps_epoch_id : EpochId;
  ps_slot_id : SlotId;
  play_seconds : Z;
  ps_collector_address : Address;
  observation_cid : ContentId;
  ps_observed_players : Z;
  ps_submitted_at_height : Height;
  session_signature : SignatureBytes;
}.

Record PlayHeartbeat := {
  hb_session_id : Hash32;
  hb_node_address : Address;
  bucket_index : Z;
  signed_at_millis : UnixMillis;
  heartbeat_signature : SignatureBytes;
}.

Record WitnessAttestation := {
  wa_session_id : Hash32;
  witness_address : Address;
  observed_play_seconds : Z;
  witness_observation_cid : ContentId;
  wa_observed_players : Z;
  attested_at_height : Height;
  witness_signature : SignatureBytes;
}.

Record UnbondingRecord := {
  ub_delegator : Address;
  ub_operator : NodeId;
  ub_amount : Amount;
  unlock_height : Height;
}.

Record GovernanceVoteRecord := {
  gv_proposal_id : Hash32;
  gv_voter : Address;
  gv_choice : VoteChoice;
  gv_voting_power : Amount;
  recorded_height : Height;
}.

Inductive GovernanceProposalState := Pending | Scheduled | Activated | ProposalExpired.
Inductive GovernanceProposalKind := FastParams | SlowParams.
#[export] Instance GovernanceProposalState_eq_dec : EqDecision GovernanceProposalState.
Proof. solve_decision. Defined.

Record GovernanceParamsUpdateProposalRecord := {
  gp_proposal_id : Hash32;
  gp_proposer : Address;
  gp_kind : GovernanceProposalKind;
  gp_effective_epoch : EpochId;
  submitted_height : Height;
  bond_amount : Amount;
  params_hash : Hash32;
  gp_params : ProtocolParams;
  gp_state : GovernanceProposalState;
}.

Record ChallengeResponseRecord := {
  cr_challenge_id : Hash32;
  cr_responder : NodeId;
  cr_response_payload_cid : option ContentId;
  cr_response_hash : option Hash32;
  responded_at_height : Height;
}.

Inductive ChallengeResolutionDetails :=
| DetailsRejected
| DetailsBadBatch (rejected_batch_root : option Hash32)
| DetailsOmission (omitted_batch_root : Hash32)
| DetailsBadAggregate (corrected_aggregate_root : option Hash32)
| DetailsBadReward (corrected_reward_root : option Hash32)
| DetailsBadStorage (missing_payload_cid : option ContentId).

Record ChallengeResolutionRecord := {
  rs_challenge_id : Hash32;
  rs_kind : ChallengeKind;
  rs_slash_amount : Amount;
  rs_challenger_reward : Amount;
  rs_details : ChallengeResolutionDetails;
  resolved_at_height : Height;
}.

(** ** src/src/state.rs *)

Record AccountState := {
  address : Address;
  balance : Amount;
  staked : Amount;
  locked : Amount;
  nonce : Z;
}.

Record ReputationSnapshot := {
  score_ppm : Z;
  successful_challenges : Z;
  failed_challenges : Z;
  challengeable_faults : Z;
  collection_successes : Z;
  collection_failures : Z;
  storage_proofs_passed : Z;
  storage_proofs_failed : Z;
  last_updated_epoch : EpochId;
}.

Record NodeRegistry := {
  node_id : NodeId;
  nr_pubkey : bytes;
  reward_address : Address;
  bond : Amount;
  status : NodeStatus;
  enabled_capabilities : list Capability;
  reputation : ReputationSnapshot;
  joined_at_height : Height;
}.

Record StorageOffer := {
  so_node_id : NodeId;
  quota_gb : Z;
  so_min_retention_epochs : Z;
  serve_class : ServeClass;
  valid_from_epoch : EpochId;
  max_response_millis : Z;
}.

(** ** src/src/transactions.rs *)

Record TransferTx := {
  tr_from : Address;
  tr_to : Address;
  tr_amount : Amount;
  tr_fee : Amount;
  tr_nonce : Z;
  tr_pubkey : bytes;
  tr_signature : SignatureBytes;
}.

Record StakeTx := {
  st_delegator : Address;
  st_operator : NodeId;
  st_amount : Amount;
  st_nonce : Z;
  st_pubkey : bytes;
  st_signature : SignatureBytes;
}.

Record UnbondTx := {
  un_delegator : Address;
  un_operator : NodeId;
  un_amount : Amount;
  un_nonce : Z;
  un_pubkey : bytes;
  un_signature : SignatureBytes;
}.

Record ClaimRewardTx := {
  cl_claimer : Address;
  cl_epoch_id : EpochId;
  cl_node_id : NodeId;
  cl_amount : Amount;
  cl_merkle_proof : list Hash32;
  cl_nonce : Z;
  cl_pubkey : bytes;
  cl_signature : SignatureBytes;
}.

Record SubmitBatchTx := {
  sb_batch_commit : BatchCommit;
  sb_pubkey : bytes;
  sb_signature : SignatureBytes;
}.

Record CommitEpochTx := {
  ce_epoch_commit : EpochCommit;
  ce_pubkey : bytes;
  ce_signature : SignatureBytes;
}.

Record OpenChallengeTx := {
  oc_challenge : Challenge;
  oc_pubkey : bytes;
  oc_signature : SignatureBytes;
}.

Record ChallengeResponseTx := {
  rt_challenge_id : Hash32;
  rt_responder : NodeId;
  rt_response_payload_cid : option ContentId;
  rt_response_hash : option Hash32;
  rt_pubkey : bytes;
  rt_signature : SignatureBytes;
}.

Record VoteTx := {
  vt_proposal_id : Hash32;
  vt_voter : Address;
  vt_choice : VoteChoice;
  vt_voting_power : Amount;
  vt_nonce : Z;
  vt_pubkey : bytes;
  vt_signature : SignatureBytes;
}.

Record ProposeProtocolParamsUpdateTx := {
  pp_proposal_id : Hash32;
  pp_proposer : Address;
  pp_effective_epoch : EpochId;
  pp_params : ProtocolParams;
  pp_nonce : Z;
  pp_pubkey : bytes;
  pp_signature : SignatureBytes;
}.

Inductive Transaction :=
| Transfer (tx : TransferTx)
| Stake (tx : StakeTx)
| Unbond (tx : UnbondTx)
| ClaimReward (tx : ClaimRewardTx)
| SubmitBatch (tx : SubmitBatchTx)
| CommitEpoch (tx : CommitEpochTx)
| OpenChallenge (tx : OpenChallengeTx)
| ChallengeResponse (tx : ChallengeResponseTx)
| Vote (tx : VoteTx)
| ProposeProtocolParamsUpdate (tx : ProposeProtocolParamsUpdateTx).

(** [clone.signature.clear()] of [signing_payload]. *)
Definition clear_signature (t : Transaction) : Transaction :=
  match t with
  | Transfer (Build_TransferTx a b c d e f _) => Transfer (Build_TransferTx a b c d e f [])
  | Stake (Build_StakeTx a b c d e _) => Stake (Build_StakeTx a b c d e [])
  | Unbond (Build_UnbondTx a b c d e _) => Unbond (Build_UnbondTx a b c d e [])
  | ClaimReward (Build_ClaimRewardTx a b c d e f g _) =>
      ClaimReward (Build_ClaimRewardTx a b c d e f g [])
  | SubmitBatch (Build_SubmitBatchTx a b _) => SubmitBatch (Build_SubmitBatchTx a b [])
  | CommitEpoch (Build_CommitEpochTx a b _) => CommitEpoch (Build_CommitEpochTx a b [])
  | OpenChallenge (Build_OpenChallengeTx a b _) => OpenChallenge (Build_OpenChallengeTx a b [])
  | ChallengeResponse (Build_ChallengeResponseTx a b c d e _) =>
      ChallengeResponse (Build_ChallengeResponseTx a b c d e [])
  | Vote (Build_VoteTx a b c d e f _) => Vote (Build_VoteTx a b c d e f [])
  | ProposeProtocolParamsUpdate (Build_ProposeProtocolParamsUpdateTx a b c d e f _) =>
      ProposeProtocolParamsUpdate (Build_ProposeProtocolParamsUpdateTx a b c d e f [])
  end.

(** ** In-place field updates the transitions perform *)

Definition with_balances (a : AccountState) (bal stk lck : Amount) (n : Z) : AccountState :=
  {| address := address a; balance := bal; staked := stk; locked := lck; nonce := n |}.

Definition set_bond (n : NodeRegistry) (b : Amount) : NodeRegistry := {|
  node_id := node_id n; nr_pubkey := nr_pubkey n; reward_address := reward_address n;
  bond := b; status := status n; enabled_capabilities := enabled_capabilities n;
  reputation := reputation n; joined_at_height := joined_at_height n |}.

Definition set_faults (n : NodeRegistry) (f : Z) : NodeRegistry := {|
  node_id := node_id n; nr_pubkey := nr_pubkey n; reward_address := reward_address n;
  bond := bond n; status := status n; enabled_capabilities := enabled_capabilities n;
  reputation := {|
    score_ppm := score_ppm (reputation n);
    successful_challenges := successful_challenges (reputation n);
    failed_challenges := failed_challenges (reputation n);
    challengeable_faults := f;
    collection_successes := collection_successes (reputation n);
    collection_failures := collection_failures (reputation n);
    storage_proofs_passed := storage_proofs_passed (reputation n);
    storage_proofs_failed := storage_proofs_failed (reputation n);
    last_updated_epoch := last_updated_epoch (reputation n) |};
  joined_at_height := joined_at_height n |}.

Definition set_submitted_at (b : BatchCommit) (h : Height) : BatchCommit := {|
  bc_epoch_id := bc_epoch_id b; bc_collector_id := bc_collector_id b;
  slot_start := slot_start b; slot_end := slot_end b; batch := batch b;
  bc_payload_cid := bc_payload_cid b; obs_count := obs_count b; submitted_at_height := h |}.

Definition set_open_height (c : EpochCommit) (h : Height) : EpochCommit := {|
  ec_epoch_id := ec_epoch_id c; accepted_batches := accepted_batches c;
  observations := observations c; aggregates := aggregates c; ec_rewards := ec_rewards c;
  availability := availability c; randomness_seed := randomness_seed c;
  proposer_id := proposer_id c; challenge_open_height := h;
  challenge_deadline_height := challenge_deadline_height c |}.

Definition set_opened_at (c : Challenge) (h : Height) : Challenge := {|
  ch_challenge_id := ch_challenge_id c; ch_kind := ch_kind c; ch_epoch_id := ch_epoch_id c;
  target_node := target_node c; challenger := challenger c; ch_bond := ch_bond c;
  opened_at_height := h; deadline_height := deadline_height c; ch_state := ch_state c;
  evidence := evidence c |}.

Definition set_challenge_state (c : Challenge) (s : ChallengeState) : Challenge := {|
  ch_challenge_id := ch_challenge_id c; ch_kind := ch_kind c; ch_epoch_id := ch_epoch_id c;
  target_node := target_node c; challenger := challenger c; ch_bond := ch_bond c;
  opened_at_height := opened_at_height c; deadline_height := deadline_height c; ch_state := s;
  evidence := evidence c |}.

Definition set_proposal_state (p : GovernanceParamsUpdateProposalRecord)
    (s : GovernanceProposalState) : GovernanceParamsUpdateProposalRecord := {|
  gp_proposal_id := gp_proposal_id p; gp_proposer := gp_proposer p; gp_kind := gp_kind p;
  gp_effective_epoch := gp_effective_epoch p; submitted_height := submitted_height p;
  bond_amount := bond_amount p; params_hash := params_hash p; gp_params := gp_params p;
  gp_state := s |}.
