(* ===== verification/Crypto.v ===== *)
(** * Hashing, signatures and Merkle roots

    [stable_hash32], [merkle_root] and [merkle_leaf_sha256] of
    src/src/node_pipeline.rs and [verify_signature] of src/src/wallet/keys.rs.
    The crates they call (ed25519-dalek, sha2, borsh, hex) are the operations of
    the class [External]; [ExternalLaws] states the documented behaviour the
    theorems need. *)
From S2P Require Import Prelude Primitives Params Records.

Class External := {
  VerifyingKey : Type;
  (** [VerifyingKey::from_bytes(..).ok()] *)
  VerifyingKey_from_bytes : bytes → option VerifyingKey;
  (** [verifying_key.verify(message, &sig).is_ok()] *)
  ed25519_verify : VerifyingKey → bytes → bytes → bool;
  sha256 : bytes → bytes;
  hex_encode : bytes → string;
  (** [borsh::to_vec] of the struct inside the transaction; [None] is [Err]. *)
  borsh_tx : Transaction → option bytes;
  (** [borsh::to_vec(&params)], the error as its message. *)
  borsh_params : ProtocolParams → outcome string bytes;
}.

(** SHA-256 digests are 32 bytes. *)
Class ExternalLaws `{External} : Prop := {
  sha256_length : ∀ m, length (sha256 m) = 32%nat;
}.

(** ** 64-bit words *)

Definition rotate_left64 (x k : Z) : Z :=
  Z.lor (Z.shiftl x k mod 2 ^ 64) (Z.shiftr x (64 - k)).

(** [to_le_bytes]: [n] bytes, least significant first. *)
Fixpoint le_bytes (n : nat) (x : Z) : bytes :=
  match n with
  | O => []
  | S n => x mod 256 :: le_bytes n (x / 256)
  end.

(** Lowercase hexadecimal, two digits per byte ([hex_32] of node_config.rs). *)
Definition hex_digit (n : Z) : string :=
  nth (Z.to_nat n) ["0"; "1"; "2"; "3"; "4"; "5"; "6"; "7"; "8"; "9"; "a"; "b"; "c"; "d"; "e"; "f"]
    ""%string.
Fixpoint hex_32 (b : bytes) : string :=
  match b with
  | [] => ""
  | x :: b => hex_digit (Z.shiftr x 4) +:+ hex_digit (Z.land x 0x0f) +:+ hex_32 b
  end.

Definition HASH_SEEDS : list Z :=
  [0xcbf29ce484222325; 0x84222325cbf29ce4; 0x9e3779b185ebca87; 0x517cc1b727220a95].
Definition HASH_PRIME : Z := 0x100000001B3.

(** One byte of the inner loop of [stable_hash32] for lane [index]. *)
Definition hash_step (index : Z) (acc byte : Z) : Z :=
  let acc := Z.lxor acc byte in
  let acc := (acc * HASH_PRIME) mod 2 ^ 64 in
  let acc := Z.lxor acc (((index + 1) * 0x9e3779b9) mod 2 ^ 64) in
  rotate_left64 acc 5.

Definition hash_lane (index seed : Z) (msg : bytes) : Z :=
  foldl (hash_step index) seed msg.

Definition stable_hash32 (msg : bytes) : Hash32 :=
  concat (imap (λ i seed, le_bytes 8 (hash_lane (Z.of_nat i) seed msg)) HASH_SEEDS).

(** ** Signatures *)

Section Signatures.
Context `{External}.

Definition verify_signature (public_key message signature : bytes) : bool :=
  match VerifyingKey_from_bytes public_key with
  | None => false
  | Some verifying_key =>
      if bool_decide (length signature = 64%nat)
      then ed25519_verify verifying_key message signature
      else false
  end.

(** [signing_payload]: [None] is the panic of its [expect]. *)
Definition signing_payload (t : Transaction) : option bytes := borsh_tx (clear_signature t).
End Signatures.

(** ** Merkle trees *)

Section Merkle.
Context `{External}.

(** [sha256(0x01 || left || right)] *)
Definition merkle_parent (l r : Hash32) : Hash32 := sha256 (1 :: l ++ r).

(** [sha256(0x00 || record)] *)
Definition merkle_leaf_sha256 (record_bytes : bytes) : Hash32 := sha256 (0 :: record_bytes).

(** The inner loop: one parent per pair, the last node paired with itself when
    the level is odd. *)
Fixpoint merkle_level (level : list Hash32) : list Hash32 :=
  match level with
  | [] => []
  | [x] => [merkle_parent x x]
  | x :: y :: rest => merkle_parent x y :: merkle_level rest
  end.

(** The outer loop [while level.len() > 1], run at most [fuel] times. *)
Fixpoint merkle_reduce (fuel : nat) (level : list Hash32) : list Hash32 :=
  match fuel with
  | O => level
  | S fuel => if (1 <? length level)%nat then merkle_reduce fuel (merkle_level level) else level
  end.

Definition ZERO_HASH : Hash32 := replicate 32 0.

Definition merkle_root (leaves : list Hash32) : Hash32 :=
  match leaves with
  | [] => ZERO_HASH
  | _ => List.hd ZERO_HASH (merkle_reduce (length leaves) leaves)
  end.

Definition cid_from_hash (hash : Hash32) (namespace : string) : ContentId :=
  ("cid://" +:+ namespace +:+ "/" +:+ hex_encode hash)%string.
End Merkle.

(** * Lemmas *)

Lemma le_bytes_length n x : length (le_bytes n x) = n.
Proof. revert x; induction n; intros; simpl; auto. Qed.

Lemma le_bytes_range n x : Forall (λ b, 0 <= b < 256) (le_bytes n x).
Proof.
  revert x; induction n; intros; simpl; constructor; auto. apply Z.mod_pos_bound. lia.
Qed.

Lemma stable_hash32_length msg : length (stable_hash32 msg) = 32%nat.
Proof. reflexivity. Qed.

Section MerkleLemmas.
Context `{X : External}.

Lemma merkle_level_length l : length (merkle_level l) = Nat.div2 (S (length l)).
Proof.
  revert l. fix IH 1. intros [|a [|b l]]; [done..|]. simpl. by rewrite IH.
Qed.

Lemma merkle_level_shrinks l :
  (1 < length l)%nat → (0 < length (merkle_level l) < length l)%nat.
Proof.
  intros Hl. rewrite merkle_level_length.
  destruct l as [|a [|b l]]; simpl in *; try lia.
  pose proof (Nat.le_div2 (length l)). simpl in *. lia.
Qed.

(** The loop of [merkle_root] ends with a single node: [length leaves]
    iterations are enough. *)
Lemma merkle_reduce_single fuel l :
  l ≠ [] → (length l <= fuel)%nat → length (merkle_reduce fuel l) = 1%nat.
Proof.
  revert l. induction fuel as [|fuel IH]; intros l Hne Hf.
  { destruct l; simpl in *; [done|lia]. }
  simpl. destruct (Nat.ltb_spec 1 (length l)) as [Hgt|Hle].
  - pose proof (merkle_level_shrinks l Hgt). apply IH; [|lia].
    intros E. rewrite E in *. simpl in *. lia.
  - destruct l as [|a [|b l]]; simpl in *; [done|done|lia].
Qed.

Lemma merkle_reduce_fuel fuel fuel' l :
  (length l <= fuel)%nat → (length l <= fuel')%nat →
  merkle_reduce fuel l = merkle_reduce fuel' l.
Proof.
  revert fuel' l. induction fuel as [|fuel IH]; intros [|fuel'] l Hf Hf'; simpl; try done;
    destruct (Nat.ltb_spec 1 (length l)) as [Hgt|Hle]; try done; try lia.
  pose proof (merkle_level_shrinks l Hgt). apply IH; lia.
Qed.

Lemma merkle_level_dup_last l x :
  Nat.Even (length l) → merkle_level (l ++ [x; x]) = merkle_level (l ++ [x]).
Proof.
  revert l. fix IH 1. intros [|a [|b l]] Hev; [done| |].
  - destruct Hev as [k Hk]. simpl in Hk. lia.
  - simpl. f_equal. apply IH. destruct Hev as [[|k] Hk]; simpl in Hk; [lia|].
    exists k. lia.
Qed.

(** The padding rule makes [merkle_root] insensitive to repeating the last
    leaf of an odd-length list: the lists [l ++ [x]] and [l ++ [x; x]] have the
    same root whenever [l] is non-empty and of even length. A root commits to the
    leaves only together with their number. *)
Theorem merkle_root_repeat_last l x :
  l ≠ [] → Nat.Even (length l) → merkle_root (l ++ [x; x]) = merkle_root (l ++ [x]).
Proof.
  intros Hne Hev. destruct l as [|a l]; [done|].
  assert (∀ l' y, merkle_root ((a :: l) ++ y :: l') =
    List.hd ZERO_HASH (merkle_reduce (length l + length l' + 2)
      (merkle_level ((a :: l) ++ y :: l')))) as Hroot.
  { intros l' y. unfold merkle_root.
    replace (length ((a :: l) ++ y :: l')) with (S (length l + length l' + 1))
      by (simpl; rewrite length_app; simpl; lia). simpl app.
    cbn [merkle_reduce]. destruct (Nat.ltb_spec 1 (length (a :: l ++ y :: l'))) as [Hgt|Hle];
      [|simpl in Hle; rewrite length_app in Hle; simpl in Hle; lia].
    pose proof (merkle_level_shrinks _ Hgt) as Hs. simpl in Hs. rewrite length_app in Hs.
    simpl in Hs. f_equal. apply merkle_reduce_fuel; simpl; lia. }
  rewrite !Hroot. rewrite merkle_level_dup_last by done. f_equal.
  pose proof (merkle_level_shrinks ((a :: l) ++ [x])) as Hs.
  rewrite length_app in Hs. simpl in Hs. simpl app.
  apply merkle_reduce_fuel; simpl; lia.
Qed.
End MerkleLemmas.

(** ** A root binds the leaves, up to a collision among the messages hashed for it *)

Section Binding.
Context `{X : External} `{L : !ExternalLaws}.

(** What [merkle_root] hashes above the leaves, in the order of the levels. *)
Fixpoint level_inputs (level : list Hash32) : list bytes :=
  match level with
  | [] => []
  | [x] => [1 :: x ++ x]
  | x :: y :: rest => (1 :: x ++ y) :: level_inputs rest
  end.
Fixpoint reduce_inputs (fuel : nat) (level : list Hash32) : list bytes :=
  match fuel with
  | O => []
  | S fuel =>
      if (1 <? length level)%nat then level_inputs level ++ reduce_inputs fuel (merkle_level level) else []
  end.
Definition root_inputs (leaves : list Hash32) : list bytes := reduce_inputs (length leaves) leaves.

(** Two different messages with one digest, the first hashed in one computation and the
    second in the other. *)
Definition collide (inputs inputs' : list bytes) : Prop :=
  ∃ m m', m ∈ inputs ∧ m' ∈ inputs' ∧ m ≠ m' ∧ sha256 m = sha256 m'.

Lemma collide_mono i1 i2 j1 j2 : i1 ⊆ j1 → i2 ⊆ j2 → collide i1 i2 → collide j1 j2.
Proof. intros H1 H2 (m & m' & ? & ? & ?). exists m, m'. split_and!; [by apply H1|by apply H2|tauto..]. Qed.

Lemma merkle_parent_inj a b c d :
  length a = length c → merkle_parent a b = merkle_parent c d →
  (a = c ∧ b = d) ∨ collide [1 :: a ++ b] [1 :: c ++ d].
Proof.
  intros Hl Heq. destruct (decide (1 :: a ++ b = 1 :: c ++ d)) as [E|Hne]; [left|right].
  - injection E as E. by apply app_inj_1 in E.
  - eexists _, _. split_and!; [apply list_elem_of_singleton; reflexivity..|done|done].
Qed.

Lemma merkle_level_inj (l l' : list Hash32) :
  length l = length l' → Forall (λ h, length h = 32%nat) l → Forall (λ h, length h = 32%nat) l' →
  merkle_level l = merkle_level l' → l = l' ∨ collide (level_inputs l) (level_inputs l').
Proof using L.
  revert l l'. fix IH 1. intros [|a [|b l]] [|a' [|b' l']] Hlen Hf Hf' Heq;
    simpl in *; try lia; [by left| |].
  - apply Forall_cons in Hf as [Ha _]. apply Forall_cons in Hf' as [Ha' _].
    injection Heq as Hp. destruct (merkle_parent_inj a a a' a') as [[-> _]|?];
      [congruence|done|by left|by right].
  - rewrite !Forall_cons in Hf. rewrite !Forall_cons in Hf'.
    destruct Hf as (Ha & Hb & Hf). destruct Hf' as (Ha' & Hb' & Hf').
    injection Heq as Hp Hr.
    destruct (merkle_parent_inj a b a' b') as [[-> ->]|Hc]; [congruence|done| |].
    + destruct (IH l l') as [->|Hc]; [lia|done..|by left|right].
      revert Hc. apply collide_mono; set_solver.
    + right. revert Hc. apply collide_mono; set_solver.
Qed.

Lemma merkle_level_digests l : Forall (λ h, length h = 32%nat) (merkle_level l).
Proof using L.
  revert l. fix IH 1. intros [|a [|b l]]; simpl; constructor; auto;
    try apply sha256_length; try constructor.
Qed.

Lemma merkle_reduce_inj fuel (l l' : list Hash32) :
  length l = length l' → Forall (λ h, length h = 32%nat) l → Forall (λ h, length h = 32%nat) l' →
  merkle_reduce fuel l = merkle_reduce fuel l' → l = l' ∨ collide (reduce_inputs fuel l) (reduce_inputs fuel l').
Proof using L.
  revert l l'. induction fuel as [|fuel IH]; intros l l' Hlen Hf Hf'; simpl; [by left|].
  rewrite Hlen. destruct (1 <? length l')%nat; [|by left].
  intros Heq. destruct (IH (merkle_level l) (merkle_level l')) as [Hl|Hc];
    [by rewrite !merkle_level_length, Hlen|apply merkle_level_digests..|done| |].
  - destruct (merkle_level_inj l l') as [?|Hc]; [done..|by left|right].
    revert Hc. apply collide_mono; set_solver.
  - right. revert Hc. apply collide_mono; set_solver.
Qed.

(** Two lists of the same number of 32-byte leaves with the same Merkle root are equal, or
    the two computations of the root hash two different messages to one digest. *)
Theorem merkle_root_binding (l l' : list Hash32) :
  length l = length l' → Forall (λ h, length h = 32%nat) l → Forall (λ h, length h = 32%nat) l' →
  merkle_root l = merkle_root l' → l = l' ∨ collide (root_inputs l) (root_inputs l').
Proof using L.
  intros Hlen Hf Hf'. unfold root_inputs.
  destruct l as [|a l], l' as [|a' l']; try done; [by left|].
  set (k := a :: l) in *. set (k' := a' :: l') in *. unfold merkle_root at 1 2.
  change (match k with [] => _ | _ => ?z end) with z.
  change (match k' with [] => _ | _ => ?z end) with z.
  rewrite <- Hlen. intros Heq. apply (merkle_reduce_inj (length k)); [done..|].
  pose proof (merkle_reduce_single (length k) k ltac:(done) ltac:(done)) as H1.
  pose proof (merkle_reduce_single (length k) k' ltac:(done) ltac:(lia)) as H2.
  destruct (merkle_reduce _ k) as [|x [|]], (merkle_reduce _ k') as [|y [|]];
    simpl in *; try done; congruence.
Qed.
End Binding.

(** A toy instance of the external crates: it lets the model run on concrete
    inputs and shows that [ExternalLaws] can be met. *)
Definition demo_external : External := {|
  VerifyingKey := bytes;
  VerifyingKey_from_bytes := λ pk, Some pk;
  ed25519_verify := λ _ _ _, true;
  sha256 := λ m, stable_hash32 m;
  hex_encode := λ _, "00"%string;
  borsh_tx := λ _, Some [];
  borsh_params := λ _, Ok [];
|}.

Lemma demo_external_laws : @ExternalLaws demo_external.
Proof. constructor. intros m. reflexivity. Qed.

Lemma merkle_root_repeat_last_witness :
  @merkle_root demo_external [[1]; [2]; [3]; [3]] = @merkle_root demo_external [[1]; [2]; [3]].
Proof.
  apply (@merkle_root_repeat_last demo_external [[1]; [2]] [3]); [done|by exists 1%nat].
Defined.

Lemma merkle_root_binding_witness :
  let leaf := replicate 32 7 in
  let inputs := @root_inputs demo_external [leaf; leaf; leaf] in
  [leaf; leaf; leaf] = [leaf; leaf; leaf] ∨ @collide demo_external inputs inputs.
Proof.
  apply (@merkle_root_binding demo_external demo_external_laws);
    [reflexivity|repeat constructor..|reflexivity].
Defined.
