(* ===== verification/Store.v ===== *)
(** * Protocol store: src/src/store.rs

    The trait [ProtocolStore] as a class, its in-memory implementation (one
    finite map per BTreeMap) and the persistent wrapper, which forwards every
    call to the in-memory store it holds. [StoreRefines] is the promise the
    ledger's theorems rely on: a store has a view as an in-memory store and every
    operation acts on the view as the in-memory operation does. *)
From S2P Require Import Prelude Primitives Params Records.

Definition BatchKey : Type := EpochId * NodeId * Hash32.
Definition RewardKey : Type := EpochId * NodeId.
Definition DelegationKey : Type := Address * NodeId.
Definition VoteKey : Type := Hash32 * Address.
#[export] Typeclasses Transparent BatchKey RewardKey DelegationKey VoteKey.

(** A [..._mut] accessor is a lookup followed by a [..._put] of the updated
    value at the same key; [remove_...] returns the removed value and the store. *)
Class ProtocolStore (S : Type) := {
  account : S → Address → option AccountState;
  account_put : S → Address → AccountState → S;
  insert_account : S → AccountState → S;
  accounts_iter : S → list AccountState;

  node : S → NodeId → option NodeRegistry;
  node_put : S → NodeId → NodeRegistry → S;
  insert_node : S → NodeRegistry → S;

  storage_offer : S → NodeId → option StorageOffer;
  insert_storage_offer : S → StorageOffer → S;

  batch_at : S → BatchKey → option BatchCommit;
  insert_batch : S → BatchKey → BatchCommit → S;
  has_any_batch_for_epoch : S → EpochId → bool;

  epoch_commit : S → EpochId → option EpochCommit;
  insert_epoch_commit : S → EpochId → EpochCommit → S;

  open_challenge : S → Hash32 → option Challenge;
  insert_open_challenge : S → Hash32 → Challenge → S;
  remove_open_challenge : S → Hash32 → option Challenge * S;
  has_open_challenges_for_epoch : S → EpochId → bool;
  insert_resolved_challenge : S → Hash32 → Challenge → S;
  challenge_resolution : S → Hash32 → option ChallengeResolutionRecord;
  insert_challenge_resolution : S → Hash32 → ChallengeResolutionRecord → S;

  reward_record : S → RewardKey → option RewardRecord;
  insert_reward_record : S → RewardKey → RewardRecord → S;
  is_reward_claimed : S → RewardKey → bool;
  mark_reward_claimed : S → RewardKey → S;

  delegation : S → DelegationKey → option DelegationRecord;
  insert_delegation : S → DelegationKey → DelegationRecord → S;
  remove_delegation : S → DelegationKey → option DelegationRecord * S;

  queue_unbonding : S → UnbondingRecord → S;
  drain_mature_unbondings : S → Height → list UnbondingRecord * S;

  vote_record : S → VoteKey → option GovernanceVoteRecord;
  insert_vote_record : S → VoteKey → GovernanceVoteRecord → S;
  vote_records_for_proposal : S → Hash32 → list GovernanceVoteRecord;
  params_update_proposal : S → Hash32 → option GovernanceParamsUpdateProposalRecord;
  params_update_proposals_iter : S → list GovernanceParamsUpdateProposalRecord;
  params_update_proposal_put : S → Hash32 → GovernanceParamsUpdateProposalRecord → S;
  insert_params_update_proposal : S → Hash32 → GovernanceParamsUpdateProposalRecord → S;

  challenge_response : S → Hash32 → option ChallengeResponseRecord;
  insert_challenge_response : S → Hash32 → ChallengeResponseRecord → S;

  scheduled_protocol_params : S → EpochId → option ProtocolParams;
  insert_scheduled_protocol_params : S → EpochId → ProtocolParams → S;
  take_scheduled_protocol_params : S → EpochId → option ProtocolParams * S;

  is_epoch_finalized : S → EpochId → bool;
  mark_epoch_finalized : S → EpochId → S;
}.

Record InMemoryStore := {
  accounts : gmap Address AccountState;
  nodes : gmap NodeId NodeRegistry;
  storage_offers : gmap NodeId StorageOffer;
  batches : gmap BatchKey BatchCommit;
  epoch_commits : gmap EpochId EpochCommit;
  open_challenges : gmap Hash32 Challenge;
  resolved_challenges : gmap Hash32 Challenge;
  challenge_resolutions : gmap Hash32 ChallengeResolutionRecord;
  reward_records : gmap RewardKey RewardRecord;
  claimed_rewards : gset RewardKey;
  delegations : gmap DelegationKey DelegationRecord;
  unbonding_queue : list UnbondingRecord;
  votes : gmap VoteKey GovernanceVoteRecord;
  params_update_proposals : gmap Hash32 GovernanceParamsUpdateProposalRecord;
  challenge_responses : gmap Hash32 ChallengeResponseRecord;
  scheduled_params : gmap EpochId ProtocolParams;
  finalized_epochs : gset EpochId;
}.

Definition InMemoryStore_default : InMemoryStore := {|
  accounts := ∅;
  nodes := ∅;
  storage_offers := ∅;
  batches := ∅;
  epoch_commits := ∅;
  open_challenges := ∅;
  resolved_challenges := ∅;
  challenge_resolutions := ∅;
  reward_records := ∅;
  claimed_rewards := ∅;
  delegations := ∅;
  unbonding_queue := [];
  votes := ∅;
  params_update_proposals := ∅;
  challenge_responses := ∅;
  scheduled_params := ∅;
  finalized_epochs := ∅;
|}.

(** Writing one table of the store. *)
Definition set_accounts (s : InMemoryStore) (x : gmap Address AccountState) : InMemoryStore := {|
  accounts := x; nodes := nodes s; storage_offers := storage_offers s; batches :=
  batches s; epoch_commits := epoch_commits s; open_challenges := open_challenges s;
  resolved_challenges := resolved_challenges s; challenge_resolutions :=
  challenge_resolutions s; reward_records := reward_records s; claimed_rewards :=
  claimed_rewards s; delegations := delegations s; unbonding_queue := unbonding_queue s;
  votes := votes s; params_update_proposals := params_update_proposals s;
  challenge_responses := challenge_responses s; scheduled_params := scheduled_params s;
  finalized_epochs := finalized_epochs s |}.
Definition set_nodes (s : InMemoryStore) (x : gmap NodeId NodeRegistry) : InMemoryStore := {|
  accounts := accounts s; nodes := x; storage_offers := storage_offers s; batches :=
  batches s; epoch_commits := epoch_commits s; open_challenges := open_challenges s;
  resolved_challenges := resolved_challenges s; challenge_resolutions :=
  challenge_resolutions s; reward_records := reward_records s; claimed_rewards :=
  claimed_rewards s; delegations := delegations s; unbonding_queue := unbonding_queue s;
  votes := votes s; params_update_proposals := params_update_proposals s;
  challenge_responses := challenge_responses s; scheduled_params := scheduled_params s;
  finalized_epochs := finalized_epochs s |}.
Definition set_storage_offers (s : InMemoryStore) (x : gmap NodeId StorageOffer) : InMemoryStore := {|
  accounts := accounts s; nodes := nodes s; storage_offers := x; batches := batches s;
  epoch_commits := epoch_commits s; open_challenges := open_challenges s;
  resolved_challenges := resolved_challenges s; challenge_resolutions :=
  challenge_resolutions s; reward_records := reward_records s; claimed_rewards :=
  claimed_rewards s; delegations := delegations s; unbonding_queue := unbonding_queue s;
  votes := votes s; params_update_proposals := params_update_proposals s;
  challenge_responses := challenge_responses s; scheduled_params := scheduled_params s;
  finalized_epochs := finalized_epochs s |}.
Definition set_batches (s : InMemoryStore) (x : gmap BatchKey BatchCommit) : InMemoryStore := {|
  accounts := accounts s; nodes := nodes s; storage_offers := storage_offers s; batches
  := x; epoch_commits := epoch_commits s; open_challenges := open_challenges s;
  resolved_challenges := resolved_challenges s; challenge_resolutions :=
  challenge_resolutions s; reward_records := reward_records s; claimed_rewards :=
  claimed_rewards s; delegations := delegations s; unbonding_queue := unbonding_queue s;
  votes := votes s; params_update_proposals := params_update_proposals s;
  challenge_responses := challenge_responses s; scheduled_params := scheduled_params s;
  finalized_epochs := finalized_epochs s |}.
Definition set_epoch_commits (s : InMemoryStore) (x : gmap EpochId EpochCommit) : InMemoryStore := {|
  accounts := accounts s; nodes := nodes s; storage_offers := storage_offers s; batches
  := batches s; epoch_commits := x; open_challenges := open_challenges s;
  resolved_challenges := resolved_challenges s; challenge_resolutions :=
  challenge_resolutions s; reward_records := reward_records s; claimed_rewards :=
  claimed_rewards s; delegations := delegations s; unbonding_queue := unbonding_queue s;
  votes := votes s; params_update_proposals := params_update_proposals s;
  challenge_responses := challenge_responses s; scheduled_params := scheduled_params s;
  finalized_epochs := finalized_epochs s |}.
Definition set_open_challenges (s : InMemoryStore) (x : gmap Hash32 Challenge) : InMemoryStore := {|
  accounts := accounts s; nodes := nodes s; storage_offers := storage_offers s; batches
  := batches s; epoch_commits := epoch_commits s; open_challenges := x;
  resolved_challenges := resolved_challenges s; challenge_resolutions :=
  challenge_resolutions s; reward_records := reward_records s; claimed_rewards :=
  claimed_rewards s; delegations := delegations s; unbonding_queue := unbonding_queue s;
  votes := votes s; params_update_proposals := params_update_proposals s;
  challenge_responses := challenge_responses s; scheduled_params := scheduled_params s;
  finalized_epochs := finalized_epochs s |}.
Definition set_resolved_challenges (s : InMemoryStore) (x : gmap Hash32 Challenge) : InMemoryStore := {|
  accounts := accounts s; nodes := nodes s; storage_offers := storage_offers s; batches
  := batches s; epoch_commits := epoch_commits s; open_challenges := open_challenges s;
  resolved_challenges := x; challenge_resolutions := challenge_resolutions s;
  reward_records := reward_records s; claimed_rewards := claimed_rewards s; delegations
  := delegations s; unbonding_queue := unbonding_queue s; votes := votes s;
  params_update_proposals := params_update_proposals s; challenge_responses :=
  challenge_responses s; scheduled_params := scheduled_params s; finalized_epochs :=
  finalized_epochs s |}.
Definition set_challenge_resolutions (s : InMemoryStore) (x : gmap Hash32 ChallengeResolutionRecord) : InMemoryStore := {|
  accounts := accounts s; nodes := nodes s; storage_offers := storage_offers s; batches
  := batches s; epoch_commits := epoch_commits s; open_challenges := open_challenges s;
  resolved_challenges := resolved_challenges s; challenge_resolutions := x;
  reward_records := reward_records s; claimed_rewards := claimed_rewards s; delegations
  := delegations s; unbonding_queue := unbonding_queue s; votes := votes s;
  params_update_proposals := params_update_proposals s; challenge_responses :=
  challenge_responses s; scheduled_params := scheduled_params s; finalized_epochs :=
  finalized_epochs s |}.
Definition set_reward_records (s : InMemoryStore) (x : gmap RewardKey RewardRecord) : InMemoryStore := {|
  accounts := accounts s; nodes := nodes s; storage_offers := storage_offers s; batches
  := batches s; epoch_commits := epoch_commits s; open_challenges := open_challenges s;
  resolved_challenges := resolved_challenges s; challenge_resolutions :=
  challenge_resolutions s; reward_records := x; claimed_rewards := claimed_rewards s;
  delegations := delegations s; unbonding_queue := unbonding_queue s; votes := votes s;
  params_update_proposals := params_update_proposals s; challenge_responses :=
  challenge_responses s; scheduled_params := scheduled_params s; finalized_epochs :=
  finalized_epochs s |}.
Definition set_claimed_rewards (s : InMemoryStore) (x : gset RewardKey) : InMemoryStore := {|
  accounts := accounts s; nodes := nodes s; storage_offers := storage_offers s; batches
  := batches s; epoch_commits := epoch_commits s; open_challenges := open_challenges s;
  resolved_challenges := resolved_challenges s; challenge_resolutions :=
  challenge_resolutions s; reward_records := reward_records s; claimed_rewards := x;
  delegations := delegations s; unbonding_queue := unbonding_queue s; votes := votes s;
  params_update_proposals := params_update_proposals s; challenge_responses :=
  challenge_responses s; scheduled_params := scheduled_params s; finalized_epochs :=
  finalized_epochs s |}.
Definition set_delegations (s : InMemoryStore) (x : gmap DelegationKey DelegationRecord) : InMemoryStore := {|
  accounts := accounts s; nodes := nodes s; storage_offers := storage_offers s; batches
  := batches s; epoch_commits := epoch_commits s; open_challenges := open_challenges s;
  resolved_challenges := resolved_challenges s; challenge_resolutions :=
  challenge_resolutions s; reward_records := reward_records s; claimed_rewards :=
  claimed_rewards s; delegations := x; unbonding_queue := unbonding_queue s; votes :=
  votes s; params_update_proposals := params_update_proposals s; challenge_responses :=
  challenge_responses s; scheduled_params := scheduled_params s; finalized_epochs :=
  finalized_epochs s |}.
Definition set_unbonding_queue (s : InMemoryStore) (x : list UnbondingRecord) : InMemoryStore := {|
  accounts := accounts s; nodes := nodes s; storage_offers := storage_offers s; batches
  := batches s; epoch_commits := epoch_commits s; open_challenges := open_challenges s;
  resolved_challenges := resolved_challenges s; challenge_resolutions :=
  challenge_resolutions s; reward_records := reward_records s; claimed_rewards :=
  claimed_rewards s; delegations := delegations s; unbonding_queue := x; votes := votes
  s; params_update_proposals := params_update_proposals s; challenge_responses :=
  challenge_responses s; scheduled_params := scheduled_params s; finalized_epochs :=
  finalized_epochs s |}.
Definition set_votes (s : InMemoryStore) (x : gmap VoteKey GovernanceVoteRecord) : InMemoryStore := {|
  accounts := accounts s; nodes := nodes s; storage_offers := storage_offers s; batches
  := batches s; epoch_commits := epoch_commits s; open_challenges := open_challenges s;
  resolved_challenges := resolved_challenges s; challenge_resolutions :=
  challenge_resolutions s; reward_records := reward_records s; claimed_rewards :=
  claimed_rewards s; delegations := delegations s; unbonding_queue := unbonding_queue s;
  votes := x; params_update_proposals := params_update_proposals s; challenge_responses
  := challenge_responses s; scheduled_params := scheduled_params s; finalized_epochs :=
  finalized_epochs s |}.
Definition set_params_update_proposals (s : InMemoryStore) (x : gmap Hash32 GovernanceParamsUpdateProposalRecord) : InMemoryStore := {|
  accounts := accounts s; nodes := nodes s; storage_offers := storage_offers s; batches
  := batches s; epoch_commits := epoch_commits s; open_challenges := open_challenges s;
  resolved_challenges := resolved_challenges s; challenge_resolutions :=
  challenge_resolutions s; reward_records := reward_records s; claimed_rewards :=
  claimed_rewards s; delegations := delegations s; unbonding_queue := unbonding_queue s;
  votes := votes s; params_update_proposals := x; challenge_responses :=
  challenge_responses s; scheduled_params := scheduled_params s; finalized_epochs :=
  finalized_epochs s |}.
Definition set_challenge_responses (s : InMemoryStore) (x : gmap Hash32 ChallengeResponseRecord) : InMemoryStore := {|
  accounts := accounts s; nodes := nodes s; storage_offers := storage_offers s; batches
  := batches s; epoch_commits := epoch_commits s; open_challenges := open_challenges s;
  resolved_challenges := resolved_challenges s; challenge_resolutions :=
  challenge_resolutions s; reward_records := reward_records s; claimed_rewards :=
  claimed_rewards s; delegations := delegations s; unbonding_queue := unbonding_queue s;
  votes := votes s; params_update_proposals := params_update_proposals s;
  challenge_responses := x; scheduled_params := scheduled_params s; finalized_epochs :=
  finalized_epochs s |}.
Definition set_scheduled_params (s : InMemoryStore) (x : gmap EpochId ProtocolParams) : InMemoryStore := {|
  accounts := accounts s; nodes := nodes s; storage_offers := storage_offers s; batches
  := batches s; epoch_commits := epoch_commits s; open_challenges := open_challenges s;
  resolved_challenges := resolved_challenges s; challenge_resolutions :=
  challenge_resolutions s; reward_records := reward_records s; claimed_rewards :=
  claimed_rewards s; delegations := delegations s; unbonding_queue := unbonding_queue s;
  votes := votes s; params_update_proposals := params_update_proposals s;
  challenge_responses := challenge_responses s; scheduled_params := x; finalized_epochs
  := finalized_epochs s |}.
Definition set_finalized_epochs (s : InMemoryStore) (x : gset EpochId) : InMemoryStore := {|
  accounts := accounts s; nodes := nodes s; storage_offers := storage_offers s; batches
  := batches s; epoch_commits := epoch_commits s; open_challenges := open_challenges s;
  resolved_challenges := resolved_challenges s; challenge_resolutions :=
  challenge_resolutions s; reward_records := reward_records s; claimed_rewards :=
  claimed_rewards s; delegations := delegations s; unbonding_queue := unbonding_queue s;
  votes := votes s; params_update_proposals := params_update_proposals s;
  challenge_responses := challenge_responses s; scheduled_params := scheduled_params s;
  finalized_epochs := x |}.

(** [self.batches.keys().any(|(candidate, _, _)| *candidate == epoch_id)] *)
Definition ims_has_any_batch_for_epoch (s : InMemoryStore) (epoch_id : EpochId) : bool :=
  existsb (λ k : BatchKey, k.1.1 =? epoch_id) (bt_keys (batches s)).

(** [self.open_challenges.values().any(|challenge| challenge.epoch_id == epoch_id)] *)
Definition ims_has_open_challenges_for_epoch (s : InMemoryStore) (epoch_id : EpochId) : bool :=
  existsb (λ c, ch_epoch_id c =? epoch_id) (bt_values (open_challenges s)).

(** The loop that splits the queue, keeping its order. *)
Definition ims_drain_mature_unbondings (s : InMemoryStore) (current_height : Height)
    : list UnbondingRecord * InMemoryStore :=
  let pending := unbonding_queue s in
  let matured := filter (λ r, unlock_height r <= current_height) pending in
  let remaining := filter (λ r, ¬ unlock_height r <= current_height) pending in
  (matured, set_unbonding_queue s remaining).

(** The votes cast on one proposal, in key order. *)
Definition ims_vote_records_for_proposal (s : InMemoryStore) (proposal_id : Hash32)
    : list GovernanceVoteRecord :=
  (filter (λ kv : VoteKey * GovernanceVoteRecord, kv.1.1 = proposal_id) (bt_iter (votes s))).*2.

#[export] Instance InMemoryStore_store : ProtocolStore InMemoryStore := {|
  account s a := accounts s !! a;
  account_put s a v := set_accounts s (<[a := v]> (accounts s));
  insert_account s v := set_accounts s (<[address v := v]> (accounts s));
  accounts_iter s := bt_values (accounts s);
  node s n := nodes s !! n;
  node_put s n v := set_nodes s (<[n := v]> (nodes s));
  insert_node s v := set_nodes s (<[node_id v := v]> (nodes s));
  storage_offer s n := storage_offers s !! n;
  insert_storage_offer s v := set_storage_offers s (<[so_node_id v := v]> (storage_offers s));
  batch_at s k := batches s !! k;
  insert_batch s k v := set_batches s (<[k := v]> (batches s));
  has_any_batch_for_epoch := ims_has_any_batch_for_epoch;
  epoch_commit s e := epoch_commits s !! e;
  insert_epoch_commit s e v := set_epoch_commits s (<[e := v]> (epoch_commits s));
  open_challenge s c := open_challenges s !! c;
  insert_open_challenge s c v := set_open_challenges s (<[c := v]> (open_challenges s));
  remove_open_challenge s c :=
    (open_challenges s !! c, set_open_challenges s (delete c (open_challenges s)));
  has_open_challenges_for_epoch := ims_has_open_challenges_for_epoch;
  insert_resolved_challenge s c v :=
    set_resolved_challenges s (<[c := v]> (resolved_challenges s));
  challenge_resolution s c := challenge_resolutions s !! c;
  insert_challenge_resolution s c v :=
    set_challenge_resolutions s (<[c := v]> (challenge_resolutions s));
  reward_record s k := reward_records s !! k;
  insert_reward_record s k v := set_reward_records s (<[k := v]> (reward_records s));
  is_reward_claimed s k := bool_decide (k ∈ claimed_rewards s);
  mark_reward_claimed s k := set_claimed_rewards s ({[ k ]} ∪ claimed_rewards s);
  delegation s k := delegations s !! k;
  insert_delegation s k v := set_delegations s (<[k := v]> (delegations s));
  remove_delegation s k := (delegations s !! k, set_delegations s (delete k (delegations s)));
  queue_unbonding s r := set_unbonding_queue s (unbonding_queue s ++ [r]);
  drain_mature_unbondings := ims_drain_mature_unbondings;
  vote_record s k := votes s !! k;
  insert_vote_record s k v := set_votes s (<[k := v]> (votes s));
  vote_records_for_proposal := ims_vote_records_for_proposal;
  params_update_proposal s p := params_update_proposals s !! p;
  params_update_proposals_iter s := bt_values (params_update_proposals s);
  params_update_proposal_put s p v :=
    set_params_update_proposals s (<[p := v]> (params_update_proposals s));
  insert_params_update_proposal s p v :=
    set_params_update_proposals s (<[p := v]> (params_update_proposals s));
  challenge_response s c := challenge_responses s !! c;
  insert_challenge_response s c v :=
    set_challenge_responses s (<[c := v]> (challenge_responses s));
  scheduled_protocol_params s e := scheduled_params s !! e;
  insert_scheduled_protocol_params s e v := set_scheduled_params s (<[e := v]> (scheduled_params s));
  take_scheduled_protocol_params s e :=
    (scheduled_params s !! e, set_scheduled_params s (delete e (scheduled_params s)));
  is_epoch_finalized s e := bool_decide (e ∈ finalized_epochs s);
  mark_epoch_finalized s e := set_finalized_epochs s ({[ e ]} ∪ finalized_epochs s);
|}.

(** [PersistentStoreStub]: a path and the store it forwards to. *)
Record PersistentStoreStub := {
  path : string;
  inner : InMemoryStore;
}.
Definition set_inner (s : PersistentStoreStub) (i : InMemoryStore) : PersistentStoreStub :=
  {| path := path s; inner := i |}.

#[export] Instance PersistentStoreStub_store : ProtocolStore PersistentStoreStub := {|
  account s x := account (inner s) x;
  account_put s x y := set_inner s (account_put (inner s) x y);
  insert_account s x := set_inner s (insert_account (inner s) x);
  accounts_iter s := accounts_iter (inner s);
  node s x := node (inner s) x;
  node_put s x y := set_inner s (node_put (inner s) x y);
  insert_node s x := set_inner s (insert_node (inner s) x);
  storage_offer s x := storage_offer (inner s) x;
  insert_storage_offer s x := set_inner s (insert_storage_offer (inner s) x);
  batch_at s x := batch_at (inner s) x;
  insert_batch s x y := set_inner s (insert_batch (inner s) x y);
  has_any_batch_for_epoch s x := has_any_batch_for_epoch (inner s) x;
  epoch_commit s x := epoch_commit (inner s) x;
  insert_epoch_commit s x y := set_inner s (insert_epoch_commit (inner s) x y);
  open_challenge s x := open_challenge (inner s) x;
  insert_open_challenge s x y := set_inner s (insert_open_challenge (inner s) x y);
  remove_open_challenge s x :=
    let r := remove_open_challenge (inner s) x in (r.1, set_inner s r.2);
  has_open_challenges_for_epoch s x := has_open_challenges_for_epoch (inner s) x;
  insert_resolved_challenge s x y := set_inner s (insert_resolved_challenge (inner s) x y);
  challenge_resolution s x := challenge_resolution (inner s) x;
  insert_challenge_resolution s x y := set_inner s (insert_challenge_resolution (inner s) x y);
  reward_record s x := reward_record (inner s) x;
  insert_reward_record s x y := set_inner s (insert_reward_record (inner s) x y);
  is_reward_claimed s x := is_reward_claimed (inner s) x;
  mark_reward_claimed s x := set_inner s (mark_reward_claimed (inner s) x);
  delegation s x := delegation (inner s) x;
  insert_delegation s x y := set_inner s (insert_delegation (inner s) x y);
  remove_delegation s x :=
    let r := remove_delegation (inner s) x in (r.1, set_inner s r.2);
  queue_unbonding s x := set_inner s (queue_unbonding (inner s) x);
  drain_mature_unbondings s x :=
    let r := drain_mature_unbondings (inner s) x in (r.1, set_inner s r.2);
  vote_record s x := vote_record (inner s) x;
  insert_vote_record s x y := set_inner s (insert_vote_record (inner s) x y);
  vote_records_for_proposal s x := vote_records_for_proposal (inner s) x;
  params_update_proposal s x := params_update_proposal (inner s) x;
  params_update_proposals_iter s := params_update_proposals_iter (inner s);
  params_update_proposal_put s x y := set_inner s (params_update_proposal_put (inner s) x y);
  insert_params_update_proposal s x y := set_inner s (insert_params_update_proposal (inner s) x y);
  challenge_response s x := challenge_response (inner s) x;
  insert_challenge_response s x y := set_inner s (insert_challenge_response (inner s) x y);
  scheduled_protocol_params s x := scheduled_protocol_params (inner s) x;
  insert_scheduled_protocol_params s x y := set_inner s (insert_scheduled_protocol_params (inner s) x y);
  take_scheduled_protocol_params s x :=
    let r := take_scheduled_protocol_params (inner s) x in (r.1, set_inner s r.2);
  is_epoch_finalized s x := is_epoch_finalized (inner s) x;
  mark_epoch_finalized s x := set_inner s (mark_epoch_finalized (inner s) x);
|}.

(** The interface the ledger relies on. *)
Class StoreRefines (S : Type) `{ProtocolStore S} := {
  view : S → InMemoryStore;
  view_account : ∀ s x, account s x = account (view s) x;
  view_account_put : ∀ s x y, view (account_put s x y) = account_put (view s) x y;
  view_insert_account : ∀ s x, view (insert_account s x) = insert_account (view s) x;
  view_accounts_iter : ∀ s, accounts_iter s = accounts_iter (view s);
  view_node : ∀ s x, node s x = node (view s) x;
  view_node_put : ∀ s x y, view (node_put s x y) = node_put (view s) x y;
  view_insert_node : ∀ s x, view (insert_node s x) = insert_node (view s) x;
  view_storage_offer : ∀ s x, storage_offer s x = storage_offer (view s) x;
  view_insert_storage_offer : ∀ s x, view (insert_storage_offer s x) = insert_storage_offer (view s) x;
  view_batch_at : ∀ s x, batch_at s x = batch_at (view s) x;
  view_insert_batch : ∀ s x y, view (insert_batch s x y) = insert_batch (view s) x y;
  view_has_any_batch_for_epoch : ∀ s x, has_any_batch_for_epoch s x = has_any_batch_for_epoch (view s) x;
  view_epoch_commit : ∀ s x, epoch_commit s x = epoch_commit (view s) x;
  view_insert_epoch_commit : ∀ s x y, view (insert_epoch_commit s x y) = insert_epoch_commit (view s) x y;
  view_open_challenge : ∀ s x, open_challenge s x = open_challenge (view s) x;
  view_insert_open_challenge : ∀ s x y, view (insert_open_challenge s x y) = insert_open_challenge (view s) x y;
  view_remove_open_challenge : ∀ s x, ((remove_open_challenge s x).1, view (remove_open_challenge s x).2) = remove_open_challenge (view s) x;
  view_has_open_challenges_for_epoch : ∀ s x, has_open_challenges_for_epoch s x = has_open_challenges_for_epoch (view s) x;
  view_insert_resolved_challenge : ∀ s x y, view (insert_resolved_challenge s x y) = insert_resolved_challenge (view s) x y;
  view_challenge_resolution : ∀ s x, challenge_resolution s x = challenge_resolution (view s) x;
  view_insert_challenge_resolution : ∀ s x y, view (insert_challenge_resolution s x y) = insert_challenge_resolution (view s) x y;
  view_reward_record : ∀ s x, reward_record s x = reward_record (view s) x;
  view_insert_reward_record : ∀ s x y, view (insert_reward_record s x y) = insert_reward_record (view s) x y;
  view_is_reward_claimed : ∀ s x, is_reward_claimed s x = is_reward_claimed (view s) x;
  view_mark_reward_claimed : ∀ s x, view (mark_reward_claimed s x) = mark_reward_claimed (view s) x;
  view_delegation : ∀ s x, delegation s x = delegation (view s) x;
  view_insert_delegation : ∀ s x y, view (insert_delegation s x y) = insert_delegation (view s) x y;
  view_remove_delegation : ∀ s x, ((remove_delegation s x).1, view (remove_delegation s x).2) = remove_delegation (view s) x;
  view_queue_unbonding : ∀ s x, view (queue_unbonding s x) = queue_unbonding (view s) x;
  view_drain_mature_unbondings : ∀ s x, ((drain_mature_unbondings s x).1, view (drain_mature_unbondings s x).2) = drain_mature_unbondings (view s) x;
  view_vote_record : ∀ s x, vote_record s x = vote_record (view s) x;
  view_insert_vote_record : ∀ s x y, view (insert_vote_record s x y) = insert_vote_record (view s) x y;
  view_vote_records_for_proposal : ∀ s x, vote_records_for_proposal s x = vote_records_for_proposal (view s) x;
  view_params_update_proposal : ∀ s x, params_update_proposal s x = params_update_proposal (view s) x;
  view_params_update_proposals_iter : ∀ s, params_update_proposals_iter s = params_update_proposals_iter (view s);
  view_params_update_proposal_put : ∀ s x y, view (params_update_proposal_put s x y) = params_update_proposal_put (view s) x y;
  view_insert_params_update_proposal : ∀ s x y, view (insert_params_update_proposal s x y) = insert_params_update_proposal (view s) x y;
  view_challenge_response : ∀ s x, challenge_response s x = challenge_response (view s) x;
  view_insert_challenge_response : ∀ s x y, view (insert_challenge_response s x y) = insert_challenge_response (view s) x y;
  view_scheduled_protocol_params : ∀ s x, scheduled_protocol_params s x = scheduled_protocol_params (view s) x;
  view_insert_scheduled_protocol_params : ∀ s x y, view (insert_scheduled_protocol_params s x y) = insert_scheduled_protocol_params (view s) x y;
  view_take_scheduled_protocol_params : ∀ s x, ((take_scheduled_protocol_params s x).1, view (take_scheduled_protocol_params s x).2) = take_scheduled_protocol_params (view s) x;
  view_is_epoch_finalized : ∀ s x, is_epoch_finalized s x = is_epoch_finalized (view s) x;
  view_mark_epoch_finalized : ∀ s x, view (mark_epoch_finalized s x) = mark_epoch_finalized (view s) x;
}.

(** Forwarding to a lawful store is lawful. *)
#[export] Instance PersistentStoreStub_refines : StoreRefines PersistentStoreStub.
Proof. unshelve econstructor; [exact inner|reflexivity..]. Defined.

#[export] Instance InMemoryStore_refines : StoreRefines InMemoryStore.
Proof.
  unshelve econstructor; [exact (λ s, s)|try reflexivity..].
  all: intros; symmetry; apply surjective_pairing.
Defined.
