(* ===== verification/Transitions.v ===== *)
(** * State transitions: src/src/transitions.rs

    [ProtocolState<S>] and its methods, generic in the store as in the source.
    Each method is a computation in the monad [M]: a guard that fails returns an
    error and keeps the writes made before it, an overflow check that fails
    panics. *)
From S2P Require Import Prelude Primitives Params Records Crypto Store.
Local Open Scope pole_scope.

Inductive ChallengeResolution :=
| ResBadBatch (slash_amount challenger_reward : Amount) (rejected_batch_root : option Hash32)
| ResOmission (slash_amount challenger_reward : Amount) (omitted_batch_root : Hash32)
| ResBadAggregate (slash_amount challenger_reward : Amount) (corrected_aggregate_root : option Hash32)
| ResBadReward (slash_amount challenger_reward : Amount) (corrected_reward_root : option Hash32)
| ResBadStorage (slash_amount challenger_reward : Amount) (missing_payload_cid : option string)
| ResRejected.

Record ProtocolState (S : Type) := {
  height : Height;
  current_epoch : EpochId;
  params : ProtocolParams;
  store : S;
}.
Arguments height {S} _.
Arguments current_epoch {S} _.
Arguments params {S} _.
Arguments store {S} _.
Arguments Build_ProtocolState {S} _ _ _ _.

Inductive TransitionEffect :=
| BatchAccepted (key : BatchKey)
| EpochCommitted (epoch_id : EpochId) (challenge_deadline : Height)
| ChallengeOpened (challenge_id : Hash32) (locked_bond : Amount)
| ChallengeResolved (challenge_id : Hash32) (kind : ChallengeKind)
    (slash_amount challenger_reward : Amount)
| EpochFinalized (epoch_id : EpochId)
| RewardClaimed (epoch_id : EpochId) (node_id : NodeId) (claimer : Address) (amount : Amount)
| TransferApplied (from to : Address) (amount fee : Amount)
| StakeApplied (delegator : Address) (operator : NodeId) (amount : Amount)
| UnbondQueued (delegator : Address) (operator : NodeId) (amount : Amount) (unlock_height : Height)
| UnbondMatured (delegator : Address) (operator : NodeId) (amount : Amount)
| VoteRecorded (proposal_id : Hash32) (voter : Address) (voting_power : Amount)
| ProtocolParamsUpdateProposed (proposal_id : Hash32) (proposer : Address)
    (effective_epoch : EpochId)
| ChallengeResponded (challenge_id : Hash32) (responder : NodeId).

Inductive TransitionError :=
| InvalidSignature
| InvalidSigner
| EmptyPayloadCid
| EmptyBatch
| InvalidSlotRange
| StaleEpoch (epoch_id current_epoch : EpochId)
| UnknownNode (n : NodeId)
| UnknownAccount (a : Address)
| NodeNotActive (n : NodeId)
| MissingCapability (n : NodeId) (capability : Capability)
| InsufficientBond (n : NodeId) (required actual : Amount)
| DuplicateBatch (key : BatchKey)
| DuplicateEpochCommit (epoch_id : EpochId)
| MissingBatchForEpoch (epoch_id : EpochId)
| ChallengeWindowInvalid (open_height deadline_height : Height) (max_window : Z)
| EpochCommitNotFound (epoch_id : EpochId)
| ChallengeAlreadyExists (id : Hash32)
| ChallengeNotFound (id : Hash32)
| InvalidChallengeBond
| MissingChallengeTarget (id : Hash32)
| InvalidChallengeReward (slash_amount challenger_reward : Amount)
| ResolutionKindMismatch (challenge_id : Hash32) (expected : ChallengeKind)
| ChallengeStillOpen (epoch_id : EpochId)
| ChallengeWindowNotElapsed (current_height deadline_height : Height)
| EpochAlreadyFinalized (epoch_id : EpochId)
| EpochNotFinalized (epoch_id : EpochId)
| RewardNotFound (key : RewardKey)
| RewardAlreadyClaimed (key : RewardKey)
| ClaimAmountMismatch (expected actual : Amount)
| InvalidRewardClaimer (expected actual : Address)
| InvalidAmount
| DelegationNotFound (key : DelegationKey)
| InsufficientDelegation (key : DelegationKey) (required actual : Amount)
| InsufficientVotingPower (address : Address) (required available : Amount)
| DuplicateVote (key : VoteKey)
| ChallengeAlreadyResponded (id : Hash32)
| ChallengeResponseWindowElapsed (challenge_id : Hash32) (current_height deadline_height : Height)
| DuplicateParamsUpdateProposal (id : Hash32)
| ParamsUpdateProposalNotFound (id : Hash32)
| ParamsUpdateMustTargetFutureEpoch (current_epoch effective_epoch : EpochId)
| InvalidChallengeResponder (challenge_id : Hash32) (expected actual : NodeId)
| EmptyChallengeResponse
| NonceMismatch (address : Address) (expected actual : Z)
| InsufficientBalance (address : Address) (required available : Amount)
| ParamsSerialization (message : string)
| InvalidProtocolParams (e : ProtocolParamsError).

Abbreviation fallible := (outcome TransitionError).
Abbreviation method S A := (M (ProtocolState S) TransitionError A).

(** ** Free functions *)

Definition ensure_signature `{External} (pubkey expected_signer message signature : bytes)
    : fallible unit :=
  if negb (bool_decide (stable_hash32 pubkey = expected_signer)) then Err InvalidSigner
  else if negb (verify_signature pubkey message signature) then Err InvalidSignature
  else Ok tt.

Definition ensure_non_empty_payload (payload_cid : ContentId) : fallible unit :=
  if bool_decide (payload_cid = ""%string) then Err EmptyPayloadCid else Ok tt.

Definition ensure_epoch_not_stale (epoch_id current_epoch : EpochId) : fallible unit :=
  if epoch_id <? current_epoch then Err (StaleEpoch epoch_id current_epoch) else Ok tt.

Definition ensure_positive_amount (amount : Amount) : fallible unit :=
  if amount =? 0 then Err InvalidAmount else Ok tt.

Definition ensure_nonce (address : Address) (expected actual : Z) : fallible unit :=
  if negb (expected =? actual) then Err (NonceMismatch address expected actual) else Ok tt.

Definition ensure_bond (node_id : NodeId) (actual required : Amount) : fallible unit :=
  if actual <? required then Err (InsufficientBond node_id required actual) else Ok tt.

Section FreeFunctions.
Context `{BuildMode}.

(** The [&mut AccountState] helpers return the updated account. *)
Definition lock_bond (account : AccountState) (amount : Amount) : fallible AccountState :=
  if balance account <? amount
  then Err (InsufficientBalance (address account) amount (balance account)) else
  do? b <- or_panic (sub 128 (balance account) amount);
  do? l <- or_panic (add 128 (locked account) amount);
  Ok (with_balances account b (staked account) l (nonce account)).

Definition unlock_bond_to_balance (account : AccountState) (locked_amount credit_amount : Amount)
    : fallible AccountState :=
  if locked account <? locked_amount
  then Err (InsufficientBalance (address account) locked_amount (locked account)) else
  do? l <- or_panic (sub 128 (locked account) locked_amount);
  do? b <- or_panic (add 128 (balance account) credit_amount);
  Ok (with_balances account b (staked account) l (nonce account)).

Definition burn_locked_bond (account : AccountState) (amount : Amount) : fallible AccountState :=
  if locked account <? amount
  then Err (InsufficientBalance (address account) amount (locked account)) else
  do? l <- or_panic (sub 128 (locked account) amount);
  Ok (with_balances account (balance account) (staked account) l (nonce account)).
End FreeFunctions.

Definition classify_protocol_params_update (current proposed : ProtocolParams)
    : GovernanceProposalKind :=
  if negb (reward_block_secs (rewards current) =? reward_block_secs (rewards proposed))
  then SlowParams else FastParams.

Definition resolution_details (challenge_id : Hash32) (expected_kind : ChallengeKind)
    (resolution : ChallengeResolution) : fallible ChallengeResolutionDetails :=
  match expected_kind, resolution with
  | BadBatch, ResBadBatch _ _ r => Ok (DetailsBadBatch r)
  | Omission, ResOmission _ _ r => Ok (DetailsOmission r)
  | BadAggregate, ResBadAggregate _ _ r => Ok (DetailsBadAggregate r)
  | BadReward, ResBadReward _ _ r => Ok (DetailsBadReward r)
  | BadStorage, ResBadStorage _ _ c => Ok (DetailsBadStorage c)
  | _, ResRejected => Ok DetailsRejected
  | _, _ => Err (ResolutionKindMismatch challenge_id expected_kind)
  end.

Definition resolution_amounts (resolution : ChallengeResolution) : Amount * Amount :=
  match resolution with
  | ResBadBatch s c _ | ResOmission s c _ | ResBadAggregate s c _ | ResBadReward s c _
  | ResBadStorage s c _ => (s, c)
  | ResRejected => (0, 0)
  end.

(** ** Methods of [ProtocolState<S>] *)

Section Methods.
Context `{B : BuildMode} `{X : External} {S : Type} `{PS : ProtocolStore S}.
Implicit Types (st : ProtocolState S).

Definition set_store st (s : S) : ProtocolState S :=
  {| height := height st; current_epoch := current_epoch st; params := params st; store := s |}.
Definition set_height st (h : Height) : ProtocolState S :=
  {| height := h; current_epoch := current_epoch st; params := params st; store := store st |}.
Definition set_current_epoch st (e : EpochId) : ProtocolState S :=
  {| height := height st; current_epoch := e; params := params st; store := store st |}.
Definition set_params st (p : ProtocolParams) : ProtocolState S :=
  {| height := height st; current_epoch := current_epoch st; params := p; store := store st |}.

(** Reading and writing the store. *)
Definition from_store {A} (f : S → A) : method S A := gets (λ st, f (store st)).
Definition update_store (f : S → S) : method S unit := modify (λ st, set_store st (f (store st))).
(** A store operation that returns a value and changes the store. *)
Definition run_store {A} (f : S → A * S) : method S A := λ st,
  let r := f (store st) in (Ok r.1, set_store st r.2).

(** [self.store.account_mut(a).ok_or(TransitionError::UnknownAccount(a))?] *)
Definition account_or_err (a : Address) : method S AccountState :=
  o <- from_store (λ s, account s a);; ok_or o (UnknownAccount a).
Definition write_account (a : Address) (v : AccountState) : method S unit :=
  update_store (λ s, account_put s a v).
Definition node_or_err (n : NodeId) : method S NodeRegistry :=
  o <- from_store (λ s, node s n);; ok_or o (UnknownNode n).
Definition write_node (n : NodeId) (v : NodeRegistry) : method S unit :=
  update_store (λ s, node_put s n v).

(** [ensure_signature(&tx.pubkey, signer, &tx.signing_payload(), &tx.signature)?] *)
Definition check_signature (tx : Transaction) (pubkey signer signature : bytes)
    : method S unit :=
  payload <- chk (signing_payload tx);;
  lift (ensure_signature pubkey signer payload signature).

(** [with_store] panics on invalid parameters; [new] is it on the empty store. *)
Definition with_store (p : ProtocolParams) (h : Height) (e : EpochId) (s : S)
    : option (ProtocolState S) :=
  match validate p with
  | Ok _ => Some {| height := h; current_epoch := e; params := p; store := s |}
  | _ => None
  end.

Definition require_active_node (n : NodeId) : method S NodeRegistry :=
  r <- node_or_err n;;
  ensure (bool_decide (status r = NodeActive)) (NodeNotActive n);;;
  m_ret r.

Definition require_active_node_with_capability (n : NodeId) (capability : Capability)
    : method S NodeRegistry :=
  r <- require_active_node n;;
  ensure (bool_decide (capability ∈ enabled_capabilities r)) (MissingCapability n capability);;;
  m_ret r.

Definition apply_submit_batch (tx : SubmitBatchTx) : method S TransitionEffect :=
  let b := sb_batch_commit tx in
  check_signature (SubmitBatch tx) (sb_pubkey tx) (bc_collector_id b) (sb_signature tx);;;
  epoch <- gets current_epoch;;
  lift (ensure_epoch_not_stale (bc_epoch_id b) epoch);;;
  lift (ensure_non_empty_payload (bc_payload_cid b));;;
  ensure (negb (obs_count b =? 0)) EmptyBatch;;;
  ensure (negb (slot_end b <? slot_start b)) InvalidSlotRange;;;
  n <- require_active_node_with_capability (bc_collector_id b) Collect;;
  let key := (bc_epoch_id b, node_id n, root (batch b)) in
  existing <- from_store (λ s, batch_at s key);;
  ensure (bool_decide (existing = None)) (DuplicateBatch key);;;
  h <- gets height;;
  update_store (λ s, insert_batch s key (set_submitted_at b h));;;
  m_ret (BatchAccepted key).

Definition apply_commit_epoch (tx : CommitEpochTx) : method S TransitionEffect :=
  let c := ce_epoch_commit tx in
  check_signature (CommitEpoch tx) (ce_pubkey tx) (proposer_id c) (ce_signature tx);;;
  epoch <- gets current_epoch;;
  lift (ensure_epoch_not_stale (ec_epoch_id c) epoch);;;
  proposer <- require_active_node_with_capability (proposer_id c) Propose;;
  p <- gets params;;
  lift (ensure_bond (node_id proposer) (bond proposer) (min_propose_bond p));;;
  existing <- from_store (λ s, epoch_commit s (ec_epoch_id c));;
  ensure (bool_decide (existing = None)) (DuplicateEpochCommit (ec_epoch_id c));;;
  has_batch <- from_store (λ s, has_any_batch_for_epoch s (ec_epoch_id c));;
  ensure has_batch (MissingBatchForEpoch (ec_epoch_id c));;;
  open_height <- gets height;;
  let deadline := challenge_deadline_height c in
  ensure (negb ((deadline <=? open_height)
                || (challenge_window_blocks p <? deadline - open_height)))
    (ChallengeWindowInvalid open_height deadline (challenge_window_blocks p));;;
  update_store (λ s, insert_epoch_commit s (ec_epoch_id c) (set_open_height c open_height));;;
  m_ret (EpochCommitted (ec_epoch_id c) deadline).

Definition apply_open_challenge (tx : OpenChallengeTx) : method S TransitionEffect :=
  let c := oc_challenge tx in
  check_signature (OpenChallenge tx) (oc_pubkey tx) (challenger c) (oc_signature tx);;;
  ensure (negb (ch_bond c =? 0)) InvalidChallengeBond;;;
  existing <- from_store (λ s, open_challenge s (ch_challenge_id c));;
  ensure (bool_decide (existing = None)) (ChallengeAlreadyExists (ch_challenge_id c));;;
  oe <- from_store (λ s, epoch_commit s (ch_epoch_id c));;
  commit <- ok_or oe (EpochCommitNotFound (ch_epoch_id c));;
  h <- gets height;;
  p <- gets params;;
  ensure (negb ((deadline_height c <=? h)
                || (challenge_deadline_height commit <? deadline_height c)))
    (ChallengeWindowInvalid h (deadline_height c) (challenge_window_blocks p));;;
  match target_node c with
  | Some target => require_active_node target;;; m_ret tt
  | None => m_ret tt
  end;;;
  account <- account_or_err (challenger c);;
  account' <- lift (lock_bond account (ch_bond c));;
  write_account (challenger c) account';;;
  update_store (λ s, insert_open_challenge s (ch_challenge_id c) (set_opened_at c h));;;
  m_ret (ChallengeOpened (ch_challenge_id c) (ch_bond c)).

(** The tail of [resolve_challenge]: file the resolved challenge. *)
Definition record_resolution (c : Challenge) (slash_amount challenger_reward : Amount)
    (details : ChallengeResolutionDetails) (h : Height) : method S TransitionEffect :=
  update_store (λ s, insert_resolved_challenge s (ch_challenge_id c) c);;;
  update_store (λ s, insert_challenge_resolution s (ch_challenge_id c)
    {| rs_challenge_id := ch_challenge_id c; rs_kind := ch_kind c;
       rs_slash_amount := slash_amount; rs_challenger_reward := challenger_reward;
       rs_details := details; resolved_at_height := h |});;;
  m_ret (ChallengeResolved (ch_challenge_id c) (ch_kind c) slash_amount challenger_reward).

Definition resolve_challenge (challenge_id : Hash32) (resolution : ChallengeResolution)
    : method S TransitionEffect :=
  removed <- run_store (λ s, remove_open_challenge s challenge_id);;
  c <- ok_or removed (ChallengeNotFound challenge_id);;
  match resolution with
  | ResRejected =>
      account <- account_or_err (challenger c);;
      account' <- lift (burn_locked_bond account (ch_bond c));;
      write_account (challenger c) account';;;
      h <- gets height;;
      record_resolution (set_challenge_state c Rejected) 0 0 DetailsRejected h
  | _ =>
      let '(slash_amount, challenger_reward) := resolution_amounts resolution in
      details <- lift (resolution_details (ch_challenge_id c) (ch_kind c) resolution);;
      ensure (negb (slash_amount <? challenger_reward))
        (InvalidChallengeReward slash_amount challenger_reward);;;
      target <- ok_or (target_node c) (MissingChallengeTarget (ch_challenge_id c));;
      n <- node_or_err target;;
      lift (ensure_bond (node_id n) (bond n) slash_amount);;;
      b <- chk (sub 128 (bond n) slash_amount);;
      f <- chk (add 32 (challengeable_faults (reputation n)) 1);;
      write_node target (set_faults (set_bond n b) f);;;
      account <- account_or_err (challenger c);;
      credit <- chk (add 128 (ch_bond c) challenger_reward);;
      account' <- lift (unlock_bond_to_balance account (ch_bond c) credit);;
      write_account (challenger c) account';;;
      h <- gets height;;
      record_resolution (set_challenge_state c Succeeded) slash_amount challenger_reward details h
  end.

Definition schedule_protocol_params_update (effective_epoch : EpochId) (p : ProtocolParams)
    : method S unit :=
  lift (match validate p with
        | Ok _ => Ok tt | Err e => Err (InvalidProtocolParams e) | Panic => Panic end);;;
  epoch <- gets current_epoch;;
  ensure (epoch <? effective_epoch)
    (ParamsUpdateMustTargetFutureEpoch epoch effective_epoch);;;
  update_store (λ s, insert_scheduled_protocol_params s effective_epoch p).

Definition activate_scheduled_protocol_params : method S unit :=
  epoch <- gets current_epoch;;
  taken <- run_store (λ s, take_scheduled_protocol_params s epoch);;
  match taken with
  | None => m_ret tt
  | Some p =>
      modify (λ st, set_params st p);;;
      proposals <- from_store params_update_proposals_iter;;
      for_each (λ proposal,
        if bool_decide (gp_state proposal = Scheduled) && (gp_effective_epoch proposal =? epoch)
        then
          o <- from_store (λ s, params_update_proposal s (gp_proposal_id proposal));;
          match o with
          | Some record =>
              update_store (λ s, params_update_proposal_put s (gp_proposal_id proposal)
                (set_proposal_state record Activated))
          | None => m_ret tt
          end
        else m_ret tt) proposals
  end.

Definition expire_stale_params_update_proposals : method S unit :=
  proposals <- from_store params_update_proposals_iter;;
  for_each (λ proposal,
    epoch <- gets current_epoch;;
    if negb (bool_decide (gp_state proposal = Pending)) || (epoch <? gp_effective_epoch proposal)
    then m_ret tt
    else
      account <- account_or_err (gp_proposer proposal);;
      account' <- lift (burn_locked_bond account (bond_amount proposal));;
      write_account (gp_proposer proposal) account';;;
      o <- from_store (λ s, params_update_proposal s (gp_proposal_id proposal));;
      record <- ok_or o (ParamsUpdateProposalNotFound (gp_proposal_id proposal));;
      update_store (λ s, params_update_proposal_put s (gp_proposal_id proposal)
        (set_proposal_state record ProposalExpired))) proposals.

Definition finalize_epoch (epoch_id : EpochId) : method S TransitionEffect :=
  finalized <- from_store (λ s, is_epoch_finalized s epoch_id);;
  ensure (negb finalized) (EpochAlreadyFinalized epoch_id);;;
  oc <- from_store (λ s, epoch_commit s epoch_id);;
  commit <- ok_or oc (EpochCommitNotFound epoch_id);;
  let deadline := challenge_deadline_height commit in
  h <- gets height;;
  ensure (negb (h <=? deadline)) (ChallengeWindowNotElapsed h deadline);;;
  still_open <- from_store (λ s, has_open_challenges_for_epoch s epoch_id);;
  ensure (negb still_open) (ChallengeStillOpen epoch_id);;;
  update_store (λ s, mark_epoch_finalized s epoch_id);;;
  epoch <- gets current_epoch;;
  (if epoch <=? epoch_id then
     next <- chk (add 64 epoch_id 1);;
     modify (λ st, set_current_epoch st next);;;
     activate_scheduled_protocol_params;;;
     expire_stale_params_update_proposals
   else m_ret tt);;;
  m_ret (EpochFinalized epoch_id).

Definition apply_claim_reward (tx : ClaimRewardTx) : method S TransitionEffect :=
  check_signature (ClaimReward tx) (cl_pubkey tx) (cl_claimer tx) (cl_signature tx);;;
  finalized <- from_store (λ s, is_epoch_finalized s (cl_epoch_id tx));;
  ensure finalized (EpochNotFinalized (cl_epoch_id tx));;;
  let key := (cl_epoch_id tx, cl_node_id tx) in
  claimed <- from_store (λ s, is_reward_claimed s key);;
  ensure (negb claimed) (RewardAlreadyClaimed key);;;
  o <- from_store (λ s, reward_record s key);;
  reward <- ok_or o (RewardNotFound key);;
  n <- node_or_err (cl_node_id tx);;
  ensure (bool_decide (reward_address n = cl_claimer tx))
    (InvalidRewardClaimer (reward_address n) (cl_claimer tx));;;
  ensure (net_reward reward =? cl_amount tx)
    (ClaimAmountMismatch (net_reward reward) (cl_amount tx));;;
  account <- account_or_err (cl_claimer tx);;
  b <- chk (add 128 (balance account) (cl_amount tx));;
  write_account (cl_claimer tx)
    (with_balances account b (staked account) (locked account) (nonce account));;;
  update_store (λ s, mark_reward_claimed s key);;;
  m_ret (RewardClaimed (cl_epoch_id tx) (cl_node_id tx) (cl_claimer tx) (cl_amount tx)).

Definition apply_transfer (tx : TransferTx) : method S TransitionEffect :=
  check_signature (Transfer tx) (tr_pubkey tx) (tr_from tx) (tr_signature tx);;;
  sender <- account_or_err (tr_from tx);;
  lift (ensure_nonce (address sender) (nonce sender) (tr_nonce tx));;;
  let total := saturating_add 128 (tr_amount tx) (tr_fee tx) in
  ensure (negb (balance sender <? total))
    (InsufficientBalance (address sender) total (balance sender));;;
  b <- chk (sub 128 (balance sender) total);;
  n <- chk (add 64 (nonce sender) 1);;
  write_account (tr_from tx) (with_balances sender b (staked sender) (locked sender) n);;;
  recipient <- account_or_err (tr_to tx);;
  rb <- chk (add 128 (balance recipient) (tr_amount tx));;
  write_account (tr_to tx)
    (with_balances recipient rb (staked recipient) (locked recipient) (nonce recipient));;;
  m_ret (TransferApplied (tr_from tx) (tr_to tx) (tr_amount tx) (tr_fee tx)).

Definition apply_stake (tx : StakeTx) : method S TransitionEffect :=
  check_signature (Stake tx) (st_pubkey tx) (st_delegator tx) (st_signature tx);;;
  lift (ensure_positive_amount (st_amount tx));;;
  require_active_node (st_operator tx);;;
  d <- account_or_err (st_delegator tx);;
  lift (ensure_nonce (address d) (nonce d) (st_nonce tx));;;
  ensure (negb (balance d <? st_amount tx))
    (InsufficientBalance (address d) (st_amount tx) (balance d));;;
  b <- chk (sub 128 (balance d) (st_amount tx));;
  s <- chk (add 128 (staked d) (st_amount tx));;
  n <- chk (add 64 (nonce d) 1);;
  write_account (st_delegator tx) (with_balances d b s (locked d) n);;;
  operator <- node_or_err (st_operator tx);;
  ob <- chk (add 128 (bond operator) (st_amount tx));;
  write_node (st_operator tx) (set_bond operator ob);;;
  let key := (st_delegator tx, st_operator tx) in
  existing <- from_store (λ s, delegation s key);;
  next_amount <- chk (add 128 (default 0 (dl_amount <$> existing)) (st_amount tx));;
  update_store (λ s, insert_delegation s key
    {| dl_delegator := st_delegator tx; dl_operator := st_operator tx; dl_amount := next_amount |});;;
  m_ret (StakeApplied (st_delegator tx) (st_operator tx) (st_amount tx)).

Definition apply_unbond (tx : UnbondTx) : method S TransitionEffect :=
  check_signature (Unbond tx) (un_pubkey tx) (un_delegator tx) (un_signature tx);;;
  lift (ensure_positive_amount (un_amount tx));;;
  let key := (un_delegator tx, un_operator tx) in
  o <- from_store (λ s, delegation s key);;
  existing <- ok_or o (DelegationNotFound key);;
  ensure (negb (dl_amount existing <? un_amount tx))
    (InsufficientDelegation key (un_amount tx) (dl_amount existing));;;
  d <- account_or_err (un_delegator tx);;
  lift (ensure_nonce (address d) (nonce d) (un_nonce tx));;;
  ensure (negb (staked d <? un_amount tx))
    (InsufficientBalance (address d) (un_amount tx) (staked d));;;
  sk <- chk (sub 128 (staked d) (un_amount tx));;
  l <- chk (add 128 (locked d) (un_amount tx));;
  n <- chk (add 64 (nonce d) 1);;
  write_account (un_delegator tx) (with_balances d (balance d) sk l n);;;
  operator <- node_or_err (un_operator tx);;
  lift (ensure_bond (node_id operator) (bond operator) (un_amount tx));;;
  ob <- chk (sub 128 (bond operator) (un_amount tx));;
  write_node (un_operator tx) (set_bond operator ob);;;
  remaining <- chk (sub 128 (dl_amount existing) (un_amount tx));;
  (if remaining =? 0
   then run_store (λ s, remove_delegation s key);;; m_ret tt
   else update_store (λ s, insert_delegation s key
     {| dl_delegator := un_delegator tx; dl_operator := un_operator tx; dl_amount := remaining |}));;;
  h <- gets height;;
  p <- gets params;;
  unlock <- chk (add 64 h (unbonding_blocks p));;
  update_store (λ s, queue_unbonding s
    {| ub_delegator := un_delegator tx; ub_operator := un_operator tx;
       ub_amount := un_amount tx; unlock_height := unlock |});;;
  m_ret (UnbondQueued (un_delegator tx) (un_operator tx) (un_amount tx) unlock).

(** The three running totals and the vote count of the tally loop. *)
Fixpoint tally_votes (yes no abstain total : Z) (vs : list GovernanceVoteRecord)
    : option (Z * Z * Z * Z) :=
  match vs with
  | [] => Some (yes, no, abstain, total)
  | v :: vs =>
      total ← add 32 total 1;
      match gv_choice v with
      | Yes => yes ← add 128 yes (gv_voting_power v); tally_votes yes no abstain total vs
      | No => no ← add 128 no (gv_voting_power v); tally_votes yes no abstain total vs
      | Abstain =>
          abstain ← add 128 abstain (gv_voting_power v); tally_votes yes no abstain total vs
      end
  end.

(** [account.balance + account.staked + account.locked] *)
Definition voting_power_of (a : AccountState) : option Z :=
  x ← add 128 (balance a) (staked a); add 128 x (locked a).

(** [accounts_iter().map(..).sum::<u128>()] *)
Definition total_voting_power_of (accounts : list AccountState) : option Z :=
  powers ← mapM voting_power_of accounts; sum_checked 128 powers.

Definition required_quorum_bps (p : ProtocolParams) (kind : GovernanceProposalKind) : Z :=
  match kind with
  | FastParams => params_update_quorum_bps (governance p)
  | SlowParams => slow_params_update_quorum_bps (governance p)
  end.
Definition required_approval_bps (p : ProtocolParams) (kind : GovernanceProposalKind) : Z :=
  match kind with
  | FastParams => params_update_approval_bps (governance p)
  | SlowParams => slow_params_update_approval_bps (governance p)
  end.

Definition try_schedule_params_update_after_vote (proposal_id : Hash32) : method S unit :=
  o <- from_store (λ s, params_update_proposal s proposal_id);;
  match o with
  | None => m_ret tt
  | Some proposal =>
  if negb (bool_decide (gp_state proposal = Pending)) then m_ret tt else
  vs <- from_store (λ s, vote_records_for_proposal s proposal_id);;
  t <- chk (tally_votes 0 0 0 0 vs);;
  let '(yes, no, abstain, total_votes) := t in
  if total_votes =? 0 then m_ret tt else
  participating_power <- chk (x ← add 128 yes no; add 128 x abstain);;
  accounts <- from_store accounts_iter;;
  total_voting_power <- chk (total_voting_power_of accounts);;
  if total_voting_power =? 0 then m_ret tt else
  let quorum_bps := saturating_mul 128 participating_power 10000 / total_voting_power in
  p <- gets params;;
  if quorum_bps <? required_quorum_bps p (gp_kind proposal) then m_ret tt else
  decisive_power <- chk (add 128 yes no);;
  if decisive_power =? 0 then m_ret tt else
  let approval_bps := saturating_mul 128 yes 10000 / decisive_power in
  if approval_bps <? required_approval_bps p (gp_kind proposal) then m_ret tt else
  schedule_protocol_params_update (gp_effective_epoch proposal) (gp_params proposal);;;
  account <- account_or_err (gp_proposer proposal);;
  account' <- lift (unlock_bond_to_balance account (bond_amount proposal) (bond_amount proposal));;
  write_account (gp_proposer proposal) account';;;
  o' <- from_store (λ s, params_update_proposal s proposal_id);;
  record <- ok_or o' (ParamsUpdateProposalNotFound proposal_id);;
  update_store (λ s, params_update_proposal_put s proposal_id (set_proposal_state record Scheduled))
  end.

Definition apply_vote (tx : VoteTx) : method S TransitionEffect :=
  check_signature (Vote tx) (vt_pubkey tx) (vt_voter tx) (vt_signature tx);;;
  lift (ensure_positive_amount (vt_voting_power tx));;;
  let key := (vt_proposal_id tx, vt_voter tx) in
  existing <- from_store (λ s, vote_record s key);;
  ensure (bool_decide (existing = None)) (DuplicateVote key);;;
  voter <- account_or_err (vt_voter tx);;
  lift (ensure_nonce (address voter) (nonce voter) (vt_nonce tx));;;
  available <- chk (voting_power_of voter);;
  ensure (negb (available <? vt_voting_power tx))
    (InsufficientVotingPower (address voter) (vt_voting_power tx) available);;;
  n <- chk (add 64 (nonce voter) 1);;
  write_account (vt_voter tx)
    (with_balances voter (balance voter) (staked voter) (locked voter) n);;;
  h <- gets height;;
  update_store (λ s, insert_vote_record s key
    {| gv_proposal_id := vt_proposal_id tx; gv_voter := vt_voter tx; gv_choice := vt_choice tx;
       gv_voting_power := vt_voting_power tx; recorded_height := h |});;;
  try_schedule_params_update_after_vote (vt_proposal_id tx);;;
  m_ret (VoteRecorded (vt_proposal_id tx) (vt_voter tx) (vt_voting_power tx)).

Definition apply_propose_protocol_params_update (tx : ProposeProtocolParamsUpdateTx)
    : method S TransitionEffect :=
  check_signature (ProposeProtocolParamsUpdate tx) (pp_pubkey tx) (pp_proposer tx)
    (pp_signature tx);;;
  existing <- from_store (λ s, params_update_proposal s (pp_proposal_id tx));;
  ensure (bool_decide (existing = None)) (DuplicateParamsUpdateProposal (pp_proposal_id tx));;;
  proposer <- account_or_err (pp_proposer tx);;
  lift (ensure_nonce (address proposer) (nonce proposer) (pp_nonce tx));;;
  p <- gets params;;
  let kind := classify_protocol_params_update p (pp_params tx) in
  let required_bond :=
    match kind with
    | FastParams => params_update_bond (governance p)
    | SlowParams => slow_params_update_bond (governance p)
    end in
  proposer' <- lift (lock_bond proposer required_bond);;
  n <- chk (add 64 (nonce proposer') 1);;
  write_account (pp_proposer tx)
    (with_balances proposer' (balance proposer') (staked proposer') (locked proposer') n);;;
  encoded <- lift (match borsh_params (pp_params tx) with
                   | Ok e => Ok e | Err e => Err (ParamsSerialization e) | Panic => Panic end);;
  h <- gets height;;
  update_store (λ s, insert_params_update_proposal s (pp_proposal_id tx)
    {| gp_proposal_id := pp_proposal_id tx; gp_proposer := pp_proposer tx; gp_kind := kind;
       gp_effective_epoch := pp_effective_epoch tx; submitted_height := h;
       bond_amount := required_bond; params_hash := stable_hash32 encoded;
       gp_params := pp_params tx; gp_state := Pending |});;;
  m_ret (ProtocolParamsUpdateProposed (pp_proposal_id tx) (pp_proposer tx)
    (pp_effective_epoch tx)).

Definition apply_challenge_response (tx : ChallengeResponseTx) : method S TransitionEffect :=
  let id := rt_challenge_id tx in
  check_signature (ChallengeResponse tx) (rt_pubkey tx) (rt_responder tx) (rt_signature tx);;;
  ensure (negb (bool_decide (rt_response_payload_cid tx = None)
                && bool_decide (rt_response_hash tx = None))) EmptyChallengeResponse;;;
  existing <- from_store (λ s, challenge_response s id);;
  ensure (bool_decide (existing = None)) (ChallengeAlreadyResponded id);;;
  oc <- from_store (λ s, open_challenge s id);;
  c <- ok_or oc (ChallengeNotFound id);;
  h <- gets height;;
  ensure (negb (deadline_height c <? h))
    (ChallengeResponseWindowElapsed id h (deadline_height c));;;
  match target_node c with
  | Some expected =>
      ensure (bool_decide (expected = rt_responder tx))
        (InvalidChallengeResponder id expected (rt_responder tx))
  | None => m_throw (MissingChallengeTarget id)
  end;;;
  run_store (λ s, remove_open_challenge s id);;;
  update_store (λ s, insert_open_challenge s id (set_challenge_state c Responded));;;
  update_store (λ s, insert_challenge_response s id
    {| cr_challenge_id := id; cr_responder := rt_responder tx;
       cr_response_payload_cid := rt_response_payload_cid tx;
       cr_response_hash := rt_response_hash tx; responded_at_height := h |});;;
  m_ret (ChallengeResponded id (rt_responder tx)).

(** The body of the payment loop. *)
Definition pay_matured_unbond (request : UnbondingRecord) : method S TransitionEffect :=
  d <- account_or_err (ub_delegator request);;
  d' <- lift (unlock_bond_to_balance d (ub_amount request) (ub_amount request));;
  write_account (ub_delegator request) d';;;
  m_ret (UnbondMatured (ub_delegator request) (ub_operator request) (ub_amount request)).

Definition process_mature_unbonds : method S (list TransitionEffect) :=
  h <- gets height;;
  matured <- run_store (λ s, drain_mature_unbondings s h);;
  map_m pay_matured_unbond matured.

Definition upsert_account (a : AccountState) : method S unit :=
  update_store (λ s, insert_account s a).
Definition upsert_node (n : NodeRegistry) : method S unit :=
  update_store (λ s, insert_node s n).
Definition upsert_reward_record (r : RewardRecord) : method S unit :=
  update_store (λ s, insert_reward_record s (rw_epoch_id r, rw_node_id r) r).
End Methods.

(** [ProtocolState::new] *)
Definition ProtocolState_new (p : ProtocolParams) (h : Height) (e : EpochId)
    : option (ProtocolState InMemoryStore) :=
  with_store p h e InMemoryStore_default.
