(* ===== verification/Executor.v ===== *)
(** * Block execution: src/src/executor.rs

    [execute_block] runs the matured unbonds and then the block's transactions in
    order, stopping at the first error. *)
From S2P Require Import Prelude Primitives Params Records Crypto Store Transitions.
Local Open Scope pole_scope.

Record Block := {
  block_height : Height;
  transactions : list Transaction;
}.

Inductive BlockExecutionError :=
| HeightRegression (current_height block_height : Height)
| UnsupportedTransaction (what : string)
| Transition (e : TransitionError).

(** [?] through [From<TransitionError>]. *)
Definition transition {S A} (m : method S A) : M (ProtocolState S) BlockExecutionError A := λ st,
  match m st with
  | (Ok a, st') => (Ok a, st')
  | (Err e, st') => (Err (Transition e), st')
  | (Panic, st') => (Panic, st')
  end.

Section Execution.
Context `{B : BuildMode} `{X : External} {S : Type} `{PS : ProtocolStore S}.

Definition apply_transaction (tx : Transaction) : method S TransitionEffect :=
  match tx with
  | Transfer tx => apply_transfer tx
  | Stake tx => apply_stake tx
  | Unbond tx => apply_unbond tx
  | SubmitBatch tx => apply_submit_batch tx
  | CommitEpoch tx => apply_commit_epoch tx
  | OpenChallenge tx => apply_open_challenge tx
  | ChallengeResponse tx => apply_challenge_response tx
  | ClaimReward tx => apply_claim_reward tx
  | Vote tx => apply_vote tx
  | ProposeProtocolParamsUpdate tx => apply_propose_protocol_params_update tx
  end.

Definition execute_block (block : Block)
    : M (ProtocolState S) BlockExecutionError (list TransitionEffect) :=
  h <- gets height;;
  ensure (negb (block_height block <=? h)) (HeightRegression h (block_height block));;;
  modify (λ st, set_height st (block_height block));;;
  matured <- transition process_mature_unbonds;;
  effects <- map_m (λ tx, transition (apply_transaction tx)) (transactions block);;
  m_ret (matured ++ effects).
End Execution.
