(* ===== verification/Refinement.v ===== *)
(** * Every lawful store runs the same protocol

    A method run on any store that meets [StoreRefines] behaves as the same
    method run on the in-memory store: same outcome, and the resulting stores
    correspond. The ledger's theorems are proved on the in-memory store and hold
    for the persistent one through this file. *)
From S2P Require Import Prelude Primitives Params Records Crypto Store Transitions Executor.

Section Refinement.
Context `{B : BuildMode} `{X : External} {S : Type} `{PS : ProtocolStore S} `{R : !StoreRefines S}.

Definition lift_state (st : ProtocolState S) : ProtocolState InMemoryStore :=
  {| height := height st; current_epoch := current_epoch st; params := params st;
     store := view (store st) |}.

(** [m] on the concrete store simulates [m'] on the in-memory store. *)
Definition refines {E A} (m : M (ProtocolState S) E A) (m' : M (ProtocolState InMemoryStore) E A)
    : Prop :=
  ∀ st, m' (lift_state st) = ((m st).1, lift_state (m st).2).

Lemma refines_ret {E A} (a : A) : refines (E := E) (m_ret a) (m_ret a).
Proof. done. Qed.

Lemma refines_throw {E A} (e : E) : refines (A := A) (m_throw e) (m_throw e).
Proof. done. Qed.

Lemma refines_lift {E A} (r : outcome E A) : refines (lift r) (lift r).
Proof. done. Qed.

Lemma refines_bind {E A C} (m : M _ E A) m' (k : A → M _ E C) k' :
  refines m m' → (∀ a, refines (k a) (k' a)) → refines (m_bind m k) (m_bind m' k').
Proof.
  intros Hm Hk st. unfold m_bind. rewrite Hm. destruct (m st) as [[a|e|] st1]; simpl; [|done..].
  apply Hk.
Qed.

Lemma refines_gets {E A} (f : ProtocolState S → A) f' :
  (∀ st, f' (lift_state st) = f st) → refines (E := E) (gets f) (gets f').
Proof. intros Hf st. unfold gets. by rewrite Hf. Qed.

Lemma refines_modify {E} (f : ProtocolState S → ProtocolState S) f' :
  (∀ st, f' (lift_state st) = lift_state (f st)) → refines (E := E) (modify f) (modify f').
Proof. intros Hf st. unfold modify. by rewrite Hf. Qed.

Lemma refines_from_store {A} (f : S → A) f' :
  (∀ s, f s = f' (view s)) → refines (from_store f) (from_store f').
Proof. intros Hf. apply refines_gets. intros st. simpl. by rewrite Hf. Qed.

Lemma refines_update_store (f : S → S) f' :
  (∀ s, view (f s) = f' (view s)) → refines (update_store f) (update_store f').
Proof. intros Hf. apply refines_modify. intros st. unfold lift_state, set_store. simpl. by rewrite Hf. Qed.

Lemma refines_run_store {A} (f : S → A * S) f' :
  (∀ s, ((f s).1, view (f s).2) = f' (view s)) → refines (run_store f) (run_store f').
Proof.
  intros Hf st. unfold run_store, lift_state, set_store. simpl. by rewrite <- Hf.
Qed.

Lemma refines_for_each {E A} (body : A → M _ E unit) body' xs :
  (∀ x, refines (body x) (body' x)) → refines (for_each body xs) (for_each body' xs).
Proof.
  intros Hb. induction xs; simpl; [apply refines_ret|]. by apply refines_bind.
Qed.

Lemma refines_map_m {E A C} (body : A → M _ E C) body' xs :
  (∀ x, refines (body x) (body' x)) → refines (map_m body xs) (map_m body' xs).
Proof.
  intros Hb. induction xs; simpl; [apply refines_ret|].
  apply refines_bind; [done|]. intros. apply refines_bind; [done|]. intros. apply refines_ret.
Qed.

Lemma refines_transition {A} (m : method S A) m' :
  refines m m' → refines (transition m) (transition m').
Proof.
  intros Hm st. unfold transition. rewrite Hm. by destruct (m st) as [[a|e|] st1].
Qed.
End Refinement.

Create HintDb store_law discriminated.
#[export] Hint Resolve @view_account @view_accounts_iter @view_node @view_storage_offer
  @view_batch_at @view_has_any_batch_for_epoch @view_epoch_commit @view_open_challenge
  @view_has_open_challenges_for_epoch @view_challenge_resolution @view_reward_record
  @view_is_reward_claimed @view_delegation @view_vote_record @view_vote_records_for_proposal
  @view_params_update_proposal @view_params_update_proposals_iter @view_challenge_response
  @view_scheduled_protocol_params @view_is_epoch_finalized : store_law.
#[export] Hint Resolve @view_account_put @view_insert_account @view_node_put @view_insert_node
  @view_insert_storage_offer @view_insert_batch @view_insert_epoch_commit
  @view_insert_open_challenge @view_remove_open_challenge @view_insert_resolved_challenge
  @view_insert_challenge_resolution @view_insert_reward_record @view_mark_reward_claimed
  @view_insert_delegation @view_remove_delegation @view_queue_unbonding
  @view_drain_mature_unbondings @view_insert_vote_record @view_params_update_proposal_put
  @view_insert_params_update_proposal @view_insert_challenge_response
  @view_insert_scheduled_protocol_params @view_take_scheduled_protocol_params
  @view_mark_epoch_finalized : store_law.

(** Structural walk over a method: one step per monadic operation or branch. *)
Ltac refine_step :=
  lazymatch goal with
  | |- refines (m_bind _ _) _ => apply refines_bind; [|intros ?]
  | |- refines (m_ret _) _ => apply refines_ret
  | |- refines (m_throw _) _ => apply refines_throw
  | |- refines (lift _) _ => apply refines_lift
  | |- refines (ensure _ _) _ => apply refines_lift
  | |- refines (ok_or _ _) _ => apply refines_lift
  | |- refines (chk _) _ => apply refines_lift
  | |- refines (from_store _) _ =>
      apply refines_from_store; intros; auto with store_law
  | |- refines (update_store _) _ =>
      apply refines_update_store; intros; auto with store_law
  | |- refines (run_store _) _ =>
      apply refines_run_store; intros; auto with store_law
  | |- refines (gets _) _ => apply refines_gets; intros; reflexivity
  | |- refines (modify _) _ => apply refines_modify; intros; reflexivity
  | |- refines (for_each _ _) _ => apply refines_for_each; intros ?
  | |- refines (map_m _ _) _ => apply refines_map_m; intros ?
  | |- refines (transition _) _ => apply refines_transition
  | |- refines (match ?x with _ => _ end) _ => destruct x
  | |- refines (let '(_, _) := ?x in _) _ => destruct x
  end.
Ltac refine_method := cbv zeta; repeat refine_step; auto with refine.

Create HintDb refine discriminated.

Section Methods.
Context `{B : BuildMode} `{X : External} {S : Type} `{PS : ProtocolStore S} `{R : !StoreRefines S}.

Lemma account_or_err_refines a : refines (S := S) (account_or_err a) (account_or_err a).
Proof. unfold account_or_err. refine_method. Qed.
Lemma write_account_refines a v : refines (S := S) (write_account a v) (write_account a v).
Proof. unfold write_account. refine_method. Qed.
Lemma node_or_err_refines n : refines (S := S) (node_or_err n) (node_or_err n).
Proof. unfold node_or_err. refine_method. Qed.
Lemma write_node_refines n v : refines (S := S) (write_node n v) (write_node n v).
Proof. unfold write_node. refine_method. Qed.
Lemma check_signature_refines tx p s sg :
  refines (S := S) (check_signature tx p s sg) (check_signature tx p s sg).
Proof. unfold check_signature. refine_method. Qed.
#[local] Hint Resolve account_or_err_refines write_account_refines node_or_err_refines
  write_node_refines check_signature_refines : refine.

Lemma require_active_node_refines n :
  refines (S := S) (require_active_node n) (require_active_node n).
Proof. unfold require_active_node. refine_method. Qed.
#[local] Hint Resolve require_active_node_refines : refine.
Lemma require_capability_refines n c :
  refines (S := S) (require_active_node_with_capability n c)
    (require_active_node_with_capability n c).
Proof. unfold require_active_node_with_capability. refine_method. Qed.
Lemma record_resolution_refines c a b d h :
  refines (S := S) (record_resolution c a b d h) (record_resolution c a b d h).
Proof. unfold record_resolution. refine_method. Qed.
Lemma schedule_refines e p :
  refines (S := S) (schedule_protocol_params_update e p) (schedule_protocol_params_update e p).
Proof. unfold schedule_protocol_params_update. refine_method. Qed.
#[local] Hint Resolve require_capability_refines record_resolution_refines schedule_refines : refine.

Lemma try_schedule_refines p :
  refines (S := S) (try_schedule_params_update_after_vote p)
    (try_schedule_params_update_after_vote p).
Proof. unfold try_schedule_params_update_after_vote. refine_method. Qed.
Lemma activate_refines :
  refines (S := S) activate_scheduled_protocol_params activate_scheduled_protocol_params.
Proof. unfold activate_scheduled_protocol_params. refine_method. Qed.
Lemma expire_refines :
  refines (S := S) expire_stale_params_update_proposals expire_stale_params_update_proposals.
Proof. unfold expire_stale_params_update_proposals. refine_method. Qed.
Lemma process_mature_refines :
  refines (S := S) process_mature_unbonds process_mature_unbonds.
Proof. unfold process_mature_unbonds, pay_matured_unbond. refine_method. Qed.
#[local] Hint Resolve try_schedule_refines activate_refines expire_refines
  process_mature_refines : refine.

Lemma apply_transaction_refines tx :
  refines (S := S) (apply_transaction tx) (apply_transaction tx).
Proof.
  destruct tx; simpl;
    unfold apply_transfer, apply_stake, apply_unbond, apply_claim_reward, apply_submit_batch,
      apply_commit_epoch, apply_open_challenge, apply_challenge_response, apply_vote,
      apply_propose_protocol_params_update; refine_method.
Qed.
#[local] Hint Resolve apply_transaction_refines : refine.

Lemma block_refines b : refines (S := S) (execute_block b) (execute_block b).
Proof. unfold execute_block. refine_method. Qed.

(** Challenge resolution and epoch finalization refine in the same way. *)
Lemma settlement_refines (id : Hash32) (res : ChallengeResolution) (e : EpochId)
    (st : ProtocolState S) :
  resolve_challenge id res (lift_state st) =
    ((resolve_challenge id res st).1, lift_state (resolve_challenge id res st).2)
  ∧ finalize_epoch e (lift_state st) =
    ((finalize_epoch e st).1, lift_state (finalize_epoch e st).2).
Proof.
  split; revert st.
  - change (refines (S := S) (resolve_challenge id res) (resolve_challenge id res)).
    unfold resolve_challenge. refine_method.
  - change (refines (S := S) (finalize_epoch e) (finalize_epoch e)).
    unfold finalize_epoch. refine_method.
Qed.
End Methods.
