(* ===== verification/Ledger.v ===== *)
(** * The ledger: steps of the protocol and the token supply

    The step relation of the protocol over the in-memory store, the lemmas every
    invariant shares, and the exact effect of each operation on the supply. *)
From S2P Require Import Prelude Primitives Params Records Crypto Store Transitions Executor.

Abbreviation pstate := (ProtocolState InMemoryStore).

(** ** Values of the machine types

    The model's integers are unbounded; the fields of a decoded transaction are
    not. *)

Definition u64 (z : Z) : Prop := 0 <= z < 2 ^ 64.
Definition u128 (z : Z) : Prop := 0 <= z < 2 ^ 128.

(** The parameter fields the ledger computes with. *)
Definition params_typed (p : ProtocolParams) : Prop :=
  u128 (params_update_bond (governance p)) ∧ u128 (slow_params_update_bond (governance p)).

Definition tx_typed (tx : Transaction) : Prop :=
  match tx with
  | Transfer t => u128 (tr_amount t) ∧ u128 (tr_fee t)
  | Stake t => u128 (st_amount t)
  | Unbond t => u128 (un_amount t)
  | ClaimReward t => u128 (cl_amount t)
  | OpenChallenge t => u128 (ch_bond (oc_challenge t))
  | Vote t => u128 (vt_voting_power t)
  | ProposeProtocolParamsUpdate t => params_typed (pp_params t)
  | SubmitBatch _ | CommitEpoch _ | ChallengeResponse _ => True
  end.

Definition resolution_typed (r : ChallengeResolution) : Prop :=
  u128 (resolution_amounts r).1 ∧ u128 (resolution_amounts r).2.

(** ** Steps: whatever a caller can do with a [ProtocolState], errors included
    (an operation that returns an error keeps its partial writes), short of a
    panic. *)

Section Steps.
Context `{B : BuildMode} `{X : External}.

Inductive step : pstate → pstate → Prop :=
| step_transaction tx r st st' :
    tx_typed tx → apply_transaction tx st = (r, st') → r ≠ Panic → step st st'
| step_resolve id res r st st' :
    resolution_typed res → resolve_challenge id res st = (r, st') → r ≠ Panic → step st st'
| step_finalize e r st st' :
    finalize_epoch e st = (r, st') → r ≠ Panic → step st st'
| step_block_start h r st st' :
    height st < h → process_mature_unbonds (set_height st h) = (r, st') → r ≠ Panic → step st st'
| step_schedule e p r st st' :
    params_typed p → schedule_protocol_params_update e p st = (r, st') → r ≠ Panic → step st st'
| step_reward_record rw r st st' :
    upsert_reward_record rw st = (r, st') → step st st'.
End Steps.

(** ** Inversion of the building blocks *)

Lemma wp_run_store {S A} (f : S → A * S) (Q : outcome TransitionError A → ProtocolState S → Prop) st :
  Q (Ok (f (store st)).1) (set_store st (f (store st)).2) → wp (run_store f) Q st.
Proof. done. Qed.

Section Blocks.
Context `{B : BuildMode}.

Lemma lock_bond_ok a amt a' :
  overflow_checks = true → lock_bond a amt = Ok a' →
  amt <= balance a ∧ locked a + amt < 2 ^ 128 ∧
  a' = with_balances a (balance a - amt) (staked a) (locked a + amt) (nonce a).
Proof.
  intros Hc. unfold lock_bond. destruct (Z.ltb_spec (balance a) amt) as [|Hle]; [done|].
  destruct (sub 128 _ _) as [b|] eqn:E1; [|done]; simpl.
  destruct (add 128 _ _) as [l|] eqn:E2; [|done]; simpl. intros [= <-].
  apply arith_checked in E1 as [-> ?]; [|done]. apply arith_checked in E2 as [-> ?]; [|done].
  split_and!; [done|lia|done].
Qed.

Lemma unlock_bond_ok a amt credit a' :
  overflow_checks = true → unlock_bond_to_balance a amt credit = Ok a' →
  amt <= locked a ∧ balance a + credit < 2 ^ 128 ∧
  a' = with_balances a (balance a + credit) (staked a) (locked a - amt) (nonce a).
Proof.
  intros Hc. unfold unlock_bond_to_balance.
  destruct (Z.ltb_spec (locked a) amt) as [|Hle]; [done|].
  destruct (sub 128 _ _) as [b|] eqn:E1; [|done]; simpl.
  destruct (add 128 _ _) as [l|] eqn:E2; [|done]; simpl. intros [= <-].
  apply arith_checked in E1 as [-> ?]; [|done]. apply arith_checked in E2 as [-> ?]; [|done].
  split_and!; [done|lia|done].
Qed.

Lemma burn_bond_ok a amt a' :
  overflow_checks = true → burn_locked_bond a amt = Ok a' →
  amt <= locked a ∧
  a' = with_balances a (balance a) (staked a) (locked a - amt) (nonce a).
Proof.
  intros Hc. unfold burn_locked_bond.
  destruct (Z.ltb_spec (locked a) amt) as [|Hle]; [done|].
  destruct (sub 128 _ _) as [b|] eqn:E1; [|done]; simpl. intros [= <-].
  apply arith_checked in E1 as [-> ?]; [|done]. done.
Qed.
End Blocks.

Lemma ensure_nonce_ok a e n u : ensure_nonce a e n = Ok u → e = n.
Proof. unfold ensure_nonce. destruct (Z.eqb_spec e n); [done|discriminate]. Qed.

Lemma ensure_positive_ok a u : ensure_positive_amount a = Ok u → a ≠ 0.
Proof. unfold ensure_positive_amount. destruct (Z.eqb_spec a 0); [discriminate|done]. Qed.

Lemma ensure_bond_ok n a r u : ensure_bond n a r = Ok u → r <= a.
Proof. unfold ensure_bond. destruct (Z.ltb_spec a r); [discriminate|done]. Qed.

Lemma ensure_signature_ok `{External} pk signer msg sg u :
  ensure_signature pk signer msg sg = Ok u →
  stable_hash32 pk = signer ∧ verify_signature pk msg sg = true.
Proof.
  unfold ensure_signature. case_bool_decide; [|discriminate]. simpl.
  destruct (verify_signature pk msg sg); [done|discriminate].
Qed.

(** Results of [u8]-style checks become facts about integers. *)
Ltac checked_facts Hc :=
  repeat match goal with
  | H : add _ _ _ = Some _ |- _ => apply (arith_checked _ _ _ Hc) in H as [? ?]
  | H : sub _ _ _ = Some _ |- _ => apply (arith_checked _ _ _ Hc) in H as [? ?]
  | H : lock_bond _ _ = Ok _ |- _ => apply (lock_bond_ok _ _ _ Hc) in H as (? & ? & ?)
  | H : unlock_bond_to_balance _ _ _ = Ok _ |- _ =>
      apply (unlock_bond_ok _ _ _ _ Hc) in H as (? & ? & ?)
  | H : burn_locked_bond _ _ = Ok _ |- _ => apply (burn_bond_ok _ _ _ Hc) in H as [? ?]
  | H : ensure_nonce _ _ _ = Ok _ |- _ => apply ensure_nonce_ok in H
  | H : ensure_bond _ _ _ = Ok _ |- _ => apply ensure_bond_ok in H
  | H : ensure_positive_amount _ = Ok _ |- _ => apply ensure_positive_ok in H
  | H : negb (_ <? _) = true |- _ => rewrite negb_true_iff, Z.ltb_ge in H
  | H : negb (_ <=? _) = true |- _ => rewrite negb_true_iff, Z.leb_gt in H
  | H : negb (_ =? _) = true |- _ => rewrite negb_true_iff, Z.eqb_neq in H
  | H : bool_decide _ = true |- _ => apply bool_decide_eq_true in H
  | H : bool_decide _ = false |- _ => apply bool_decide_eq_false in H
  end; subst.

(** [wp_run] executes a method down to its primitive operations, keeping the
    loops and the sub-methods closed. *)
Ltac wp_open :=
  unfold require_active_node_with_capability, require_active_node, check_signature,
    record_resolution, schedule_protocol_params_update;
  unfold account_or_err, write_account, node_or_err, write_node, from_store, update_store.

Ltac wp_run_step :=
  lazymatch goal with
  | |- wp (run_store _) _ _ => apply wp_run_store; cbn beta iota zeta
  | |- _ => wp_step
  end.
Ltac wp_run := wp_open; cbv zeta; repeat wp_run_step.

(** ** The token supply *)

Definition holdings (a : AccountState) : Z := balance a + staked a + locked a.
Definition supply (st : pstate) : Z := msum (λ _, holdings) (accounts (store st)).

Section Supply.
Context `{B : BuildMode} `{X : External} (checked : overflow_checks = true).

(** What a transaction that succeeded adds to the supply: a claim mints the
    reward, a transfer burns the fee. *)
Definition minted (eff : TransitionEffect) : Z :=
  match eff with
  | RewardClaimed _ _ _ amount => amount
  | TransferApplied _ _ amount fee => amount - saturating_add 128 amount fee
  | _ => 0
  end.

(** The supply after writes to accounts that exist. *)
Ltac supply_solve :=
  checked_facts checked; unfold supply in *; simpl in *;
  repeat match goal with
  | H : ?m !! ?k = Some ?v |- context [msum _ (<[?k := ?w]> ?m)] =>
      rewrite (msum_insert_Some _ m k v w H)
  end; unfold holdings; simpl; lia.

Lemma try_schedule_supply id st :
  wp (try_schedule_params_update_after_vote id) (λ _ st', supply st' = supply st) st.
Proof using checked.
  unfold try_schedule_params_update_after_vote. wp_run; first [done|supply_solve].
Qed.

(** The effect of a transaction on the supply: exact when it succeeds; an error
    changes nothing, except that a transfer to an unknown recipient destroys what
    the sender was debited. *)
Definition supply_after (tx : Transaction) (st : pstate) (r : fallible TransitionEffect)
    (st' : pstate) : Prop :=
  match r with
  | Ok eff => supply st' = supply st + minted eff
  | Err e =>
      supply st' = supply st ∨
      ∃ t, tx = Transfer t ∧ e = UnknownAccount (tr_to t) ∧ accounts (store st) !! tr_to t = None ∧
        supply st' = supply st - saturating_add 128 (tr_amount t) (tr_fee t)
  | Panic => True
  end.

Lemma apply_transaction_supply tx st :
  wp (apply_transaction tx) (supply_after tx st) st.
Proof using checked.
  destruct tx as [t|t|t|t|t|t|t|t|t|t]; simpl;
    unfold apply_transfer, apply_stake, apply_unbond, apply_claim_reward, apply_submit_batch,
      apply_commit_epoch, apply_open_challenge, apply_challenge_response, apply_vote,
      apply_propose_protocol_params_update.
  all: wp_run; unfold supply_after, minted; try first [by left|supply_solve|left; supply_solve].
  - right. exists t. simpl in *. apply lookup_insert_None in H6 as [? ?].
    split_and!; [done..|supply_solve].
  - eapply wp_mono; [apply try_schedule_supply|]. intros [[]|e|] st' _ Hs; [| |done].
    + apply wp_ret. rewrite Hs. supply_solve.
    + left. rewrite Hs. supply_solve.
Qed.

(** Paying out matured unbonds moves funds within accounts. *)
Lemma process_mature_supply st :
  wp process_mature_unbonds
    (λ r st', supply st' = supply st ∧ ∀ effs, r = Ok effs → lsum minted effs = 0) st.
Proof using checked.
  unfold process_mature_unbonds. wp_run. simpl.
  set (st1 := set_store st _). change (supply st) with (supply st1).
  generalize (filter (λ r, unlock_height r <= height st) (unbonding_queue (store st))) as l.
  clearbody st1. intros l. revert st1. induction l as [|u l IH]; intros st1; simpl.
  { apply wp_ret. naive_solver. }
  unfold pay_matured_unbond at 1. wp_run; try naive_solver; try (split; [supply_solve|naive_solver]).
  eapply wp_mono; [apply IH|]. intros [effs|e|] st' _ [Hs He]; [apply wp_ret| |done]; cbn beta;
    rewrite Hs; (split; [supply_solve|]); [|done].
  intros ? [= <-]. simpl. by rewrite He.
Qed.

Lemma transactions_supply txs st :
  wp (map_m (λ tx, transition (apply_transaction tx)) txs)
    (λ r st', ∀ effs, r = Ok effs → supply st' = supply st + lsum minted effs) st.
Proof using checked.
  revert st. induction txs as [|tx txs IH]; intros st; simpl.
  { apply wp_ret. intros ? [= <-]. simpl. lia. }
  apply wp_bind, wp_intro. intros r st' Htx Hr.
  destruct r as [eff|e|]; [|done|done].
  unfold transition in Htx. destruct (apply_transaction tx st) as [[] st1] eqn:E; simplify_eq.
  pose proof (wp_elim _ _ _ _ _ (apply_transaction_supply tx st) E) as Hs. simpl in Hs.
  apply wp_bind. eapply wp_mono; [apply IH|]. intros [effs|e|] st2 _ He; [|done|done].
  apply wp_ret. intros ? [= <-]. rewrite (He effs) by done. rewrite Hs by done. simpl. lia.
Qed.

(** The bonds burned when an epoch is finalized: those of the proposals that are
    still pending when their epoch has come. *)
Definition expired_bond (epoch : EpochId) (p : GovernanceParamsUpdateProposalRecord) : Z :=
  if negb (bool_decide (gp_state p = Pending)) || (epoch <? gp_effective_epoch p) then 0
  else bond_amount p.

Lemma expire_supply st :
  wp expire_stale_params_update_proposals
    (λ r st', r = Ok tt → supply st' = supply st -
       msum (λ _, expired_bond (current_epoch st)) (params_update_proposals (store st))) st.
Proof using checked.
  unfold expire_stale_params_update_proposals, from_store. wp_step. wp_step. simpl.
  rewrite <- lsum_bt_values.
  apply (wp_for_each_left _ _ (λ l st', current_epoch st' = current_epoch st ∧
    supply st' - lsum (expired_bond (current_epoch st)) l =
    supply st - lsum (expired_bond (current_epoch st)) (bt_values (params_update_proposals (store st))))).
  - done.
  - intros p l st1 [He Hs]. simpl in Hs. unfold expired_bond at 1 in Hs. wp_run.
    all: rewrite He in *; rewrite Heqb in Hs; try done.
    split; [done|]. rewrite <- Hs. supply_solve.
  - intros st1 [_ Hs] _. simpl in Hs. lia.
Qed.

Lemma resolve_supply id res st :
  wp (resolve_challenge id res)
    (λ r st', match r with
      | Ok _ => ∃ c, open_challenges (store st) !! id = Some c ∧
          supply st' = supply st + match res with
            | ResRejected => - ch_bond c | _ => (resolution_amounts res).2 end
      | Err _ => supply st' = supply st
      | Panic => True
      end) st.
Proof using checked.
  unfold resolve_challenge. wp_run; simpl in *; try done.
  all: try (eexists; split; [done|]); simplify_eq; supply_solve.
Qed.

(** C8: A block that executes changes the sum of all balances, stakes and locked
    funds by exactly what its effects announce: the rewards claimed, minus the
    fees of the transfers. Nothing else in a block mints or destroys tokens. *)
Theorem supply_block b st effs st' :
  execute_block b st = (Ok effs, st') → supply st' = supply st + lsum minted effs.
Proof using checked.
  intros Hb. enough (wp (execute_block b) (λ r st', ∀ effs, r = Ok effs →
    supply st' = supply st + lsum minted effs) st) as Hwp.
  { by eapply (wp_elim _ _ _ _ _ Hwp Hb). }
  unfold execute_block. do 2 wp_step. wp_step. wp_step; [|done]. wp_step. wp_step. wp_step.
  apply wp_intro. intros r st1 Hp Hr. destruct r as [matured|e|]; [|done|done].
  unfold transition in Hp. destruct (process_mature_unbonds _) as [[] st2] eqn:E; simplify_eq.
  destruct (wp_elim _ _ _ _ _ (process_mature_supply _) E) as [Hs1 Hm]; [done|].
  wp_step. eapply wp_mono; [apply transactions_supply|]. intros [effs'|e|] st2 _ Hs2; [|done|done].
  apply wp_ret. intros ? [= <-]. rewrite (Hs2 _ eq_refl), Hs1, lsum_app, (Hm _ eq_refl). done.
Qed.

(** a transaction that returns an error leaves the supply as it was, with one
    exception: a transfer to an account that does not exist destroys the amount
    and the fee it debited from the sender. *)
Theorem supply_error tx st e st' :
  apply_transaction tx st = (Err e, st') →
  supply st' = supply st ∨
  ∃ t, tx = Transfer t ∧ e = UnknownAccount (tr_to t) ∧ accounts (store st) !! tr_to t = None ∧
    supply st' = supply st - saturating_add 128 (tr_amount t) (tr_fee t).
Proof using checked. intros H. by apply (wp_elim _ _ _ _ _ (apply_transaction_supply tx st) H). Qed.

(** Resolving a challenge burns the challenger's bond when it is rejected and
    mints the challenger's reward when it succeeds; the slashed bond is taken from
    the node registry, not from the accounts. *)
Theorem supply_resolution id res st eff st' :
  resolve_challenge id res st = (Ok eff, st') →
  ∃ c, open_challenges (store st) !! id = Some c ∧
    supply st' = supply st + match res with
      | ResRejected => - ch_bond c | _ => (resolution_amounts res).2 end.
Proof using checked. intros H. by apply (wp_elim _ _ _ _ _ (resolve_supply id res st) H). Qed.
End Supply.

Section FailedResolutions.
Context `{B : BuildMode} `{X : External}.

(** A resolution that fails (wrong kind, reward above the slash, missing
    target, insufficient bond) has already removed the challenge, and it leaves
    every account as it was: the challenger's bond stays locked with no challenge
    left to release it. *)
Theorem failed_resolution_consumes_challenge id res (st : pstate) e st' :
  resolve_challenge id res st = (Err e, st') →
  open_challenges (store st') = delete id (open_challenges (store st)) ∧
  accounts (store st') = accounts (store st).
Proof.
  intros Hr. enough (wp (resolve_challenge id res) (λ r st', is_ok r = false →
    open_challenges (store st') = delete id (open_challenges (store st)) ∧
    accounts (store st') = accounts (store st)) st) as Hwp.
  { by apply (wp_elim _ _ _ _ _ Hwp Hr). }
  unfold resolve_challenge. wp_run; done.
Qed.
End FailedResolutions.
