(* ===== verification/Governance.v ===== *)
(** * Parameter governance: proposals, votes, activation and expiry

    The functional specifications of the loops [activate_scheduled_protocol_params]
    and [expire_stale_params_update_proposals], what [finalize_epoch] does to
    proposals and to the supply, and when a vote schedules an update. *)
From S2P Require Import Prelude Primitives Params Records Crypto Store Transitions Executor Ledger.

Abbreviation proposals := (gmap Hash32 GovernanceParamsUpdateProposalRecord).

(** The proposal table is keyed by proposal id. *)
Definition proposals_keyed (m : proposals) : Prop :=
  ∀ k p, m !! k = Some p → gp_proposal_id p = k.

(** ** A loop that rewrites every proposal of a snapshot

    [partly f m l m']: the table was [m]; the proposals of [l] are still to be
    rewritten by [f]. *)

Definition partly (f : GovernanceParamsUpdateProposalRecord → GovernanceParamsUpdateProposalRecord)
    (m : proposals) (l : list GovernanceParamsUpdateProposalRecord) (m' : proposals) : Prop :=
  NoDup (gp_proposal_id <$> l) ∧ (∀ p, p ∈ l → m !! gp_proposal_id p = Some p) ∧
  ∀ k, m' !! k = if decide (k ∈ gp_proposal_id <$> l) then m !! k else f <$> (m !! k).

Section Partly.
Context (f : GovernanceParamsUpdateProposalRecord → GovernanceParamsUpdateProposalRecord).
Implicit Types (m : proposals).

Lemma keyed_ids m : proposals_keyed m → gp_proposal_id <$> bt_values m = bt_keys m.
Proof.
  intros Hm. unfold bt_values, bt_keys. rewrite <- list_fmap_compose.
  apply list_fmap_ext. intros i [k p] Hi. simpl. apply Hm.
  apply elem_of_bt_iter. by eapply list_elem_of_lookup_2.
Qed.

Lemma partly_init m : proposals_keyed m → partly f m (bt_values m) m.
Proof.
  intros Hm. split_and!.
  - rewrite keyed_ids by done. apply NoDup_bt_keys.
  - intros p (kp & -> & Hkp)%list_elem_of_fmap. destruct kp as [k p]; simpl.
    apply elem_of_bt_iter in Hkp. by rewrite (Hm _ _ Hkp).
  - intros k. case_decide as Hk; [done|]. rewrite keyed_ids in Hk by done.
    destruct (m !! k) as [p|] eqn:E; [|done]. destruct Hk.
    unfold bt_keys. apply list_elem_of_fmap. exists (k, p). by rewrite elem_of_bt_iter.
Qed.

Lemma partly_head m p l m' : partly f m (p :: l) m' → m' !! gp_proposal_id p = Some p.
Proof.
  intros (Hnd & Hin & Hlook). rewrite Hlook, decide_True by (csimpl; set_solver).
  apply Hin. set_solver.
Qed.

Lemma partly_step m p l m' :
  partly f m (p :: l) m' → partly f m l (<[gp_proposal_id p := f p]> m').
Proof.
  intros (Hnd & Hin & Hlook). csimpl in Hnd. apply NoDup_cons in Hnd as [Hp Hnd].
  split_and!; [done|set_solver|]. intros k.
  destruct (decide (k = gp_proposal_id p)) as [->|Hk].
  - rewrite lookup_insert_eq, decide_False by done. rewrite Hin by set_solver. done.
  - rewrite lookup_insert_ne by done. rewrite Hlook. csimpl.
    repeat case_decide; set_solver.
Qed.

Lemma partly_skip m p l m' : f p = p → partly f m (p :: l) m' → partly f m l m'.
Proof.
  intros Hf Hp. pose proof (partly_head _ _ _ _ Hp) as Hh.
  apply partly_step in Hp. rewrite Hf in Hp. by rewrite insert_id in Hp.
Qed.

Lemma partly_nil m m' : partly f m [] m' → m' = f <$> m.
Proof.
  intros (_ & _ & Hlook). apply map_eq. intros k. rewrite Hlook, lookup_fmap.
  by rewrite decide_False by (csimpl; set_solver).
Qed.
End Partly.

(** ** Activation and expiry as maps over the table *)

Definition activate_one (epoch : EpochId) (p : GovernanceParamsUpdateProposalRecord) :=
  if bool_decide (gp_state p = Scheduled) && (gp_effective_epoch p =? epoch)
  then set_proposal_state p Activated else p.
Definition expire_one (epoch : EpochId) (p : GovernanceParamsUpdateProposalRecord) :=
  if negb (bool_decide (gp_state p = Pending)) || (epoch <? gp_effective_epoch p) then p
  else set_proposal_state p ProposalExpired.

(** The state with another proposal table. *)
Definition with_proposals (st : pstate) (m : proposals) : pstate :=
  set_store st (set_params_update_proposals (store st) m).

Section Loops.
Context `{B : BuildMode} `{X : External}.

(** The state in which the epoch's scheduled parameters have been taken. *)
Definition taken_state (st : pstate) : pstate :=
  set_store st (set_scheduled_params (store st)
    (delete (current_epoch st) (scheduled_params (store st)))).

Lemma activate_spec st :
  proposals_keyed (params_update_proposals (store st)) →
  wp activate_scheduled_protocol_params
    (λ r st', r = Ok tt ∧
      st' = match scheduled_params (store st) !! current_epoch st with
        | None => taken_state st
        | Some p => with_proposals (set_params (taken_state st) p)
            (activate_one (current_epoch st) <$> params_update_proposals (store st))
        end) st.
Proof.
  intros Hk. unfold activate_scheduled_protocol_params, from_store, update_store. wp_run;
    simpl in Heqo; rewrite Heqo; [|done]. set (st0 := set_params (taken_state st) p).
  apply (wp_for_each_left _ _ (λ l st', ∃ m', st' = with_proposals st0 m' ∧
    partly (activate_one (current_epoch st)) (params_update_proposals (store st)) l m')).
  - exists (params_update_proposals (store st)). split; [done|]. by apply partly_init.
  - intros q l st1 (m' & -> & Hp). pose proof (partly_head _ _ _ _ _ Hp) as Hh.
    wp_run; simpl in *; simplify_eq.
    + eexists. split; [reflexivity|]. apply partly_step in Hp.
      unfold activate_one in Hp at 2. by rewrite Heqb in Hp.
    + eexists. split; [reflexivity|]. apply partly_skip in Hp; [done|].
      unfold activate_one. by rewrite Heqb.
  - intros st1 (m' & -> & ->%partly_nil). done.
Qed.

(** Expiry, when it succeeds: every proposal whose time has come is expired. *)
Lemma expire_spec st :
  proposals_keyed (params_update_proposals (store st)) →
  wp expire_stale_params_update_proposals
    (λ r st', r = Ok tt → ∃ accs, st' = set_store st (set_params_update_proposals
        (set_accounts (store st) accs)
        (expire_one (current_epoch st) <$> params_update_proposals (store st)))) st.
Proof.
  intros Hk. unfold expire_stale_params_update_proposals, from_store. wp_step. wp_step. simpl.
  apply (wp_for_each_left _ _ (λ l st', ∃ m' accs,
    st' = set_store st (set_params_update_proposals (set_accounts (store st) accs) m') ∧
    partly (expire_one (current_epoch st)) (params_update_proposals (store st)) l m')).
  - exists (params_update_proposals (store st)), (accounts (store st)).
    split; [by destruct st as [???[]]|]. by apply partly_init.
  - intros q l st1 (m' & accs & -> & Hp). pose proof (partly_head _ _ _ _ _ Hp) as Hh.
    wp_run; simpl in *; simplify_eq; try done.
    + eexists _, _. split; [reflexivity|]. apply partly_skip in Hp; [done|].
      unfold expire_one. by rewrite Heqb.
    + eexists _, _. split; [reflexivity|]. apply partly_step in Hp.
      unfold expire_one in Hp at 2. by rewrite Heqb in Hp.
  - intros st1 (m' & accs & -> & ->%partly_nil) _. by eexists.
Qed.
End Loops.

Section Finalization.
Context `{B : BuildMode} `{X : External} (checked : overflow_checks = true).

Lemma expired_after_activation (epoch : EpochId) (m : proposals) :
  msum (λ _, expired_bond epoch) (activate_one epoch <$> m) = msum (λ _, expired_bond epoch) m.
Proof.
  rewrite msum_fmap. apply msum_ext. intros k p _. unfold expired_bond, activate_one.
  destruct (bool_decide (gp_state p = Scheduled)) eqn:E; simpl; [|done].
  apply bool_decide_eq_true in E. destruct (_ =? _); [|done]. simpl. rewrite E. done.
Qed.

(** The proposals after an epoch advance. *)
Definition advance_proposals (epoch : EpochId) (scheduled : option ProtocolParams) (m : proposals)
    : proposals :=
  expire_one epoch <$> (if scheduled is Some _ then activate_one epoch <$> m else m).

Lemma keyed_fmap (f : _ → GovernanceParamsUpdateProposalRecord) (m : proposals) :
  (∀ p, gp_proposal_id (f p) = gp_proposal_id p) → proposals_keyed m → proposals_keyed (f <$> m).
Proof. intros Hf Hm k p (q & <- & Hq)%lookup_fmap_Some. rewrite Hf. by apply Hm. Qed.

Lemma activate_one_id epoch p : gp_proposal_id (activate_one epoch p) = gp_proposal_id p.
Proof. unfold activate_one. by destruct (_ && _). Qed.
Lemma expire_one_id epoch p : gp_proposal_id (expire_one epoch p) = gp_proposal_id p.
Proof. unfold expire_one. by destruct (_ || _). Qed.

Lemma advance_spec st :
  proposals_keyed (params_update_proposals (store st)) →
  wp (m_bind activate_scheduled_protocol_params (λ _, expire_stale_params_update_proposals))
    (λ r st', r = Ok tt → let e := current_epoch st in let sched := scheduled_params (store st) in
      current_epoch st' = e ∧ height st' = height st ∧
      finalized_epochs (store st') = finalized_epochs (store st) ∧
      params st' = default (params st) (sched !! e) ∧
      scheduled_params (store st') = delete e sched ∧
      params_update_proposals (store st') =
        advance_proposals e (sched !! e) (params_update_proposals (store st)) ∧
      supply st' = supply st - msum (λ _, expired_bond e) (params_update_proposals (store st))) st.
Proof using checked.
  intros Hk. wp_step. eapply wp_mono; [by apply activate_spec|]. intros r st1 _ [-> ->].
  apply wp_intro. intros r st' Hex Hr Hok. cbv zeta.
  assert (Hk1 : proposals_keyed (params_update_proposals (store
    match scheduled_params (store st) !! current_epoch st with
    | None => taken_state st
    | Some p => with_proposals (set_params (taken_state st) p)
            (activate_one (current_epoch st) <$> params_update_proposals (store st))
    end))).
  { destruct (_ !! _); simpl; [|done]. apply keyed_fmap; [apply activate_one_id|done]. }
  pose proof (wp_elim _ _ _ _ _ (expire_supply checked _) Hex Hr Hok) as Hs.
  destruct (wp_elim _ _ _ _ _ (expire_spec _ Hk1) Hex Hr Hok) as [accs ->].
  rewrite Hs. unfold advance_proposals. destruct (_ !! _); simpl;
    rewrite ?expired_after_activation; done.
Qed.

Definition finalized_state (e : EpochId) (st st' : pstate) : Prop :=
  let next := e + 1 in let sched := scheduled_params (store st) in
  finalized_epochs (store st') = {[ e ]} ∪ finalized_epochs (store st) ∧
  if current_epoch st <=? e then
    current_epoch st' = next ∧
    params st' = default (params st) (sched !! next) ∧
    scheduled_params (store st') = delete next sched ∧
    params_update_proposals (store st') =
      advance_proposals next (sched !! next) (params_update_proposals (store st)) ∧
    supply st' = supply st - msum (λ _, expired_bond next) (params_update_proposals (store st))
  else st' = set_store st (mark_epoch_finalized (store st) e).

(** what finalizing an epoch does. The epoch is marked final; if it is the
    current one or a later one, the current epoch becomes its successor, the
    parameters scheduled for that epoch (if any) take effect and their proposals
    are activated, every proposal still pending for it or an earlier epoch
    expires, and exactly the bonds of the expired proposals are burned. Finalizing
    an older epoch changes nothing else. *)
Theorem finalize_epoch_spec (e : EpochId) st eff st' :
  proposals_keyed (params_update_proposals (store st)) →
  finalize_epoch e st = (Ok eff, st') →
  eff = EpochFinalized e ∧ finalized_state e st st'.
Proof using checked.
  intros Hk Hf. enough (wp (finalize_epoch e) (λ r st', ∀ eff, r = Ok eff →
    eff = EpochFinalized e ∧ finalized_state e st st') st) as Hwp.
  { by apply (wp_elim _ _ _ _ _ Hwp Hf). }
  clear Hf eff st'. unfold finalize_epoch, from_store, update_store. cbv zeta.
  repeat (wp_step; try done); simpl in Heqb.
  - apply arith_checked in H3 as [-> _]; [|done].
    eapply wp_mono; [eapply wp_unbind, (advance_spec (set_current_epoch _ _)); done|]. intros [[]|er|] st1 _; [|done|done].
    intros Hwp. eapply wp_mono; [exact Hwp|]. intros [[]|er|] st2 _ Hadv; [|done|done].
    apply wp_ret. intros ? [= <-]. split; [done|]. unfold finalized_state. rewrite Heqb.
    destruct (Hadv eq_refl) as (? & ? & ? & ?). split; [done|]. naive_solver.
  - intros ? [= <-]. split; [done|]. unfold finalized_state. by rewrite Heqb.
Qed.
End Finalization.

(** ** Votes *)

Definition power_for (c : VoteChoice) (vs : list GovernanceVoteRecord) : Z :=
  lsum (λ v, if decide (gv_choice v = c) then gv_voting_power v else 0) vs.
Definition power_cast (vs : list GovernanceVoteRecord) : Z := lsum gv_voting_power vs.

(** A proposal passes when the power cast reaches the quorum share of all power
    and the yes votes the approval share of the decisive votes, in basis points. *)
Definition passes (p : ProtocolParams) (kind : GovernanceProposalKind) (total : Z)
    (vs : list GovernanceVoteRecord) : Prop :=
  vs ≠ [] ∧ 0 < total ∧ 0 < power_for Yes vs + power_for No vs ∧
  required_quorum_bps p kind * total <= saturating_mul 128 (power_cast vs) 10000 ∧
  required_approval_bps p kind * (power_for Yes vs + power_for No vs)
    <= saturating_mul 128 (power_for Yes vs) 10000.

#[export] Instance passes_dec p kind total vs : Decision (passes p kind total vs).
Proof. unfold passes. apply _. Defined.

Section Votes.
Context `{B : BuildMode} `{X : External} (checked : overflow_checks = true).

Lemma power_cast_split vs :
  power_cast vs = power_for Yes vs + power_for No vs + power_for Abstain vs.
Proof.
  unfold power_cast, power_for. induction vs as [|v vs IH]; simpl; [done|].
  destruct (gv_choice v); simpl; lia.
Qed.

Lemma pair_eq_intro {A C : Type} (a a' : A) (c c' : C) : a = a' → c = c' → (a, c) = (a', c').
Proof. by intros -> ->. Qed.

Lemma tally_votes_ok y n a t vs r :
  tally_votes y n a t vs = Some r →
  r = (y + power_for Yes vs, n + power_for No vs, a + power_for Abstain vs, t + Z.of_nat (length vs)).
Proof using checked.
  revert y n a t. induction vs as [|v vs IH]; intros y n a t; simpl.
  - intros [= <-]. unfold power_for; simpl. repeat apply pair_eq_intro; lia.
  - intros (t' & Ht & Hr)%bind_Some. apply arith_checked in Ht as [-> _]; [|done].
    unfold power_for in *. simpl. destruct (gv_choice v); simpl in *;
      apply bind_Some in Hr as (x & Hx & Hr); apply arith_checked in Hx as [-> _]; try done;
      apply IH in Hr as ->; repeat apply pair_eq_intro; lia.
Qed.

Lemma voting_power_ok a v : voting_power_of a = Some v → v = holdings a.
Proof using checked.
  unfold voting_power_of, holdings. intros (x & Hx & Hv)%bind_Some.
  apply arith_checked in Hx as [-> _]; [|done]. by apply arith_checked in Hv as [-> _].
Qed.

Lemma total_power_ok (st : pstate) t :
  total_voting_power_of (accounts_iter (store st)) = Some t → t = supply st ∧ 0 <= t.
Proof using checked.
  unfold total_voting_power_of. intros (ps & Hps & Ht)%bind_Some.
  split; [|by eapply sum_from_nonneg in Ht].
  apply sum_from_checked in Ht as ->; [|done]. unfold supply. rewrite <- lsum_bt_values. simpl.
  apply mapM_Some in Hps. clear -Hps checked. simpl in Hps.
  induction Hps as [|a v l ps Ha Hps IH]; simpl in *; [done|].
  apply voting_power_ok in Ha as ->. unfold id in *. lia.
Qed.

(** A proposal of another state, or of none, is left alone; a pending one is
    scheduled and its bond returned exactly when the votes pass it. *)
Definition after_vote (id : Hash32) (st st' : pstate) : Prop :=
  match params_update_proposals (store st) !! id with
  | Some p =>
      if decide (gp_state p = Pending ∧
                 passes (params st) (gp_kind p) (supply st) (ims_vote_records_for_proposal (store st) id))
      then ∃ a a', validate (gp_params p) = Ok tt ∧ current_epoch st < gp_effective_epoch p ∧
        accounts (store st) !! gp_proposer p = Some a ∧
        bond_amount p <= locked a ∧
        a' = with_balances a (balance a + bond_amount p) (staked a) (locked a - bond_amount p) (nonce a) ∧
        st' = set_store st (set_params_update_proposals
          (set_accounts
            (set_scheduled_params (store st) (<[gp_effective_epoch p := gp_params p]> (scheduled_params (store st))))
            (<[gp_proposer p := a']> (accounts (store st))))
          (<[id := set_proposal_state p Scheduled]> (params_update_proposals (store st))))
      else st' = st
  | None => st' = st
  end.

(** The computed totals as the mathematical ones. *)
Ltac tally_facts :=
  repeat match goal with
  | H : tally_votes _ _ _ _ _ = Some _ |- _ => apply tally_votes_ok in H; simplify_eq
  | H : total_voting_power_of _ = Some _ |- _ => apply total_power_ok in H as [-> ?]
  | H : (add _ _ _ ≫= _) = Some _ |- _ => apply bind_Some in H as (? & ? & ?)
  end; checked_facts checked;
  repeat match goal with
  | H : (_ =? 0) = true |- _ => apply Z.eqb_eq in H
  | H : (_ =? 0) = false |- _ => apply Z.eqb_neq in H
  | H : (_ / _ <? _) = true |- _ => apply not_false_iff_true in H; rewrite div_ltb_false in H by lia
  | H : (_ / _ <? _) = false |- _ => apply div_ltb_false in H; [|lia]
  end.

Lemma validate_err_or_ok p r :
  (match validate p with Ok _ => Ok tt | Err e => Err (InvalidProtocolParams e) | Panic => Panic end)
    = Ok (E := TransitionError) r → validate p = Ok tt.
Proof. destruct (validate p) as [[]|e|]; naive_solver. Qed.

Lemma try_schedule_spec id st :
  wp (try_schedule_params_update_after_vote id) (λ r st', r = Ok tt → after_vote id st st') st.
Proof using checked.
  unfold try_schedule_params_update_after_vote, after_vote. wp_run; simpl in *; try done.
  all: intros _; match goal with H : params_update_proposals _ !! _ = _ |- _ => rewrite ?H; try done end.
  all: simplify_eq; try match goal with H : negb _ = false |- _ => apply negb_false_iff in H end; tally_facts.
  all: try (rewrite decide_False; [done|]; intros (? & Hne & Htot & Hdec & Hq & Ha);
    rewrite power_cast_split in Hq; rewrite ?Z.add_0_l in *; first [done|lia]).
  - rewrite decide_False; [done|]. intros [Hp _]. rewrite Hp in Heqb. done.
  - rewrite decide_False; [done|]. intros (_ & Hne & _). destruct Hne.
    apply nil_length_inv. lia.
  - rewrite decide_True.
    { eexists _, _. split_and!; [by eapply validate_err_or_ok|by apply Z.ltb_lt|done..]. }
    split; [done|]. unfold passes. rewrite power_cast_split, !Z.add_0_l in *.
    split_and!; try done; try lia. intros Hnil. rewrite Hnil in Heqb0. done.
Qed.

(** The state in which the vote is recorded and the voter's nonce advanced. *)
Definition recorded_state (tx : VoteTx) (v : AccountState) (st : pstate) : pstate :=
  set_store st (set_votes
    (set_accounts (store st) (<[vt_voter tx :=
      with_balances v (balance v) (staked v) (locked v) (nonce v + 1)]> (accounts (store st))))
    (<[(vt_proposal_id tx, vt_voter tx) :=
      {| gv_proposal_id := vt_proposal_id tx; gv_voter := vt_voter tx; gv_choice := vt_choice tx;
         gv_voting_power := vt_voting_power tx; recorded_height := height st |}]> (votes (store st)))).

(** C9: A vote that is accepted is the voter's first on the proposal, carries the
    voter's next nonce and no more power than the voter holds (balance, stake and
    locked funds). Once recorded, it schedules the proposal (valid parameters, for
    a future epoch, the proposer's bond returned) exactly when the proposal was
    pending and the recorded votes reach quorum and approval; otherwise it changes
    nothing else. *)
Theorem apply_vote_spec tx st eff st' :
  apply_vote tx st = (Ok eff, st') →
  ∃ v, accounts (store st) !! vt_voter tx = Some v ∧ nonce v = vt_nonce tx ∧
    votes (store st) !! (vt_proposal_id tx, vt_voter tx) = None ∧
    vt_voting_power tx ≠ 0 ∧ vt_voting_power tx <= holdings v ∧
    after_vote (vt_proposal_id tx) (recorded_state tx v st) st'.
Proof using checked.
  intros Hv. enough (wp (apply_vote tx) (λ r st', is_ok r = true →
    ∃ v, accounts (store st) !! vt_voter tx = Some v ∧ nonce v = vt_nonce tx ∧
    votes (store st) !! (vt_proposal_id tx, vt_voter tx) = None ∧
    vt_voting_power tx ≠ 0 ∧ vt_voting_power tx <= holdings v ∧
    after_vote (vt_proposal_id tx) (recorded_state tx v st) st') st) as Hwp.
  { by apply (wp_elim _ _ _ _ _ Hwp Hv). }
  clear Hv eff st'. unfold apply_vote. wp_run; try done.
  eapply wp_mono; [apply try_schedule_spec|]. intros [[]|e|] st1 _ Hs; [|done|done].
  apply wp_ret. intros _. exists a2. simpl in *.
  apply voting_power_ok in H5 as ->. checked_facts checked. split_and!; try done. by apply Hs.
Qed.
End Votes.
