(* ===== verification/Solvency.v ===== *)
(** * Solvency: the locked funds cover every obligation

    An account's locked funds are pledged to the challenges it opened, the unbonds
    it queued and the proposals it has pending. The invariant says that they
    always suffice, whatever sequence of operations was run and whichever of them
    failed; so paying out matured unbonds, burning the bond of a rejected
    challenge and expiring proposals cannot fail. *)
From S2P Require Import Prelude Primitives Params Records Crypto Store Transitions Executor.
From S2P Require Import Ledger Governance.

(** ** Obligations *)

Definition due_challenge (a : Address) (c : Challenge) : Z :=
  if decide (challenger c = a) then ch_bond c else 0.
Definition due_unbond (a : Address) (u : UnbondingRecord) : Z :=
  if decide (ub_delegator u = a) then ub_amount u else 0.
Definition due_proposal (a : Address) (p : GovernanceParamsUpdateProposalRecord) : Z :=
  if decide (gp_proposer p = a ∧ gp_state p = Pending) then bond_amount p else 0.

(** What is pledged from the locked funds of [a]. *)
Definition owed (s : InMemoryStore) (a : Address) : Z :=
  msum (λ _, due_challenge a) (open_challenges s) + lsum (due_unbond a) (unbonding_queue s)
  + msum (λ _, due_proposal a) (params_update_proposals s).

Definition locked_of (accs : gmap Address AccountState) (a : Address) : Z :=
  match accs !! a with Some v => locked v | None => 0 end.

(** ** Well-formed states *)

Definition account_ok (v : AccountState) : Prop :=
  u128 (balance v) ∧ u128 (staked v) ∧ u128 (locked v).
Definition params_ok (p : ProtocolParams) : Prop := validate p = Ok tt ∧ params_typed p.
Definition proposal_ok (accs : gmap Address AccountState)
    (p : GovernanceParamsUpdateProposalRecord) : Prop :=
  u128 (bond_amount p) ∧ params_typed (gp_params p) ∧ is_Some (accs !! gp_proposer p).

(** [wf_with l st]: well formed, with the payments of [l] still to be made. *)
Record wf_with (l : list UnbondingRecord) (st : pstate) : Prop := {
  wf_accounts : map_Forall (λ _, account_ok) (accounts (store st));
  wf_params : params_ok (params st);
  wf_scheduled : map_Forall (λ _, params_ok) (scheduled_params (store st));
  wf_keyed : proposals_keyed (params_update_proposals (store st));
  wf_proposals : map_Forall (λ _, proposal_ok (accounts (store st))) (params_update_proposals (store st));
  wf_challenges : map_Forall (λ _ c, 0 < ch_bond c) (open_challenges (store st));
  wf_queue : Forall (λ u, 0 < ub_amount u) (unbonding_queue (store st) ++ l);
  wf_solvent : ∀ a, owed (store st) a + lsum (due_unbond a) l <= locked_of (accounts (store st)) a;
}.
Abbreviation wf := (wf_with []).

(** A state as genesis builds it: valid parameters, accounts with representable
    amounts, nothing pledged and nothing finalized yet. *)
Record genesis_state (st : pstate) : Prop := {
  gen_accounts : map_Forall (λ _, account_ok) (accounts (store st));
  gen_params : params_ok (params st);
  gen_scheduled : scheduled_params (store st) = ∅;
  gen_proposals : params_update_proposals (store st) = ∅;
  gen_challenges : open_challenges (store st) = ∅;
  gen_queue : unbonding_queue (store st) = [];
  gen_finalized : finalized_epochs (store st) = ∅;
}.

Lemma genesis_wf st : genesis_state st → wf st.
Proof.
  intros [Ha Hp Hs Hpr Hc Hq _]. split; rewrite ?Hs, ?Hpr, ?Hc, ?Hq; try done.
  - intros a. unfold owed. rewrite Hc, Hq, Hpr, !msum_empty. simpl.
    unfold locked_of. destruct (_ !! a) as [v|] eqn:E; [|done]. by destruct (Ha _ _ E) as (_ & _ & ? & _).
Qed.

(** ** Lemmas on the tables *)

Lemma due_challenge_nonneg a c : 0 < ch_bond c → 0 <= due_challenge a c.
Proof. unfold due_challenge. case_decide; lia. Qed.

Lemma owed_challenges_nonneg s a :
  map_Forall (λ _ c, 0 < ch_bond c) (open_challenges s) →
  0 <= msum (λ _, due_challenge a) (open_challenges s).
Proof. intros Hc. apply msum_nonneg. intros k c Hk. apply due_challenge_nonneg. by eapply Hc. Qed.

Lemma owed_queue_nonneg l a : Forall (λ u, 0 < ub_amount u) l → 0 <= lsum (due_unbond a) l.
Proof.
  intros Hq. apply lsum_nonneg. intros u Hu. rewrite Forall_forall in Hq.
  unfold due_unbond. case_decide; [|done]. apply Hq in Hu. lia.
Qed.

Lemma owed_proposals_nonneg (accs : gmap Address AccountState) (m : proposals) (a : Address) :
  map_Forall (λ _, proposal_ok accs) m → 0 <= msum (λ _, due_proposal a) m.
Proof.
  intros Hp. apply msum_nonneg. intros k p Hk. unfold due_proposal. case_decide; [|done].
  destruct (Hp _ _ Hk) as [[? ?] _]. lia.
Qed.

Lemma locked_of_insert accs k v a :
  locked_of (<[k := v]> accs) a = if decide (k = a) then locked v else locked_of accs a.
Proof.
  unfold locked_of. case_decide; [subst; by rewrite lookup_insert_eq|by rewrite lookup_insert_ne].
Qed.

Lemma locked_of_lookup accs a v : accs !! a = Some v → locked_of accs a = locked v.
Proof. unfold locked_of. by intros ->. Qed.

(** Accounts are never removed, so writes keep the proposals well formed. *)
Lemma proposals_ok_insert (accs : gmap Address AccountState) (a : Address) (v : AccountState)
    (m : proposals) :
  map_Forall (λ _, proposal_ok accs) m → map_Forall (λ _, proposal_ok (<[a := v]> accs)) m.
Proof.
  intros Hm k p Hk. destruct (Hm _ _ Hk) as (? & ? & ?). split_and!; [done..|].
  rewrite lookup_insert_is_Some'. auto.
Qed.

Lemma keyed_insert (m : proposals) p :
  proposals_keyed m → proposals_keyed (<[gp_proposal_id p := p]> m).
Proof. intros Hm k q [[<- <-]|[_ ?]]%lookup_insert_Some; [done|by apply Hm]. Qed.

Lemma keyed_update (m : proposals) (k : Hash32) (p p' : GovernanceParamsUpdateProposalRecord) :
  proposals_keyed m → m !! k = Some p → gp_proposal_id p' = gp_proposal_id p →
  proposals_keyed (<[k := p']> m).
Proof.
  intros Hm Hk Hid j q [[<- <-]|[_ ?]]%lookup_insert_Some; [rewrite Hid|]; by apply Hm.
Qed.

(** ** Every operation keeps states well formed *)

(** The account a lookup found has representable amounts. *)
Ltac account_facts :=
  repeat match goal with
  | H : (<[_ := _]> _) !! _ = Some _ |- _ =>
      let E := fresh "E" in
      apply lookup_insert_Some in H as [[E ?]|[? ?]]; [try rewrite E in *|]; simplify_eq
  end;
  repeat match goal with
  | HF : map_Forall (λ _, account_ok) ?m, H : ?m !! ?k = Some ?v |- _ =>
      lazymatch goal with
      | _ : account_ok v |- _ => fail
      | _ => pose proof (HF _ _ H : account_ok v)
      end
  | HF : map_Forall (λ _ c, 0 < ch_bond c) ?m, H : ?m !! ?k = Some ?c |- _ =>
      lazymatch goal with
      | _ : 0 < ch_bond c |- _ => fail
      | _ => pose proof (HF _ _ H : 0 < ch_bond c)
      end
  | HF : map_Forall (λ _, proposal_ok ?accs) ?m, H : ?m !! ?k = Some ?p |- _ =>
      lazymatch goal with
      | _ : proposal_ok accs p |- _ => fail
      | _ => pose proof (HF _ _ H : proposal_ok accs p)
      end
  end.

Ltac solvent_solve Hso :=
  let a := fresh "a" in
  intros a; specialize (Hso a); unfold owed in *; simpl in *;
  rewrite ?insert_delete_eq;
  repeat match goal with
  | H : ?m !! ?k = None |- context [delete ?k ?m] => rewrite (delete_id m k H)
  | H : ?m !! ?k = Some ?v, H2 : context [msum ?f ?m] |- context [msum ?f (delete ?k ?m)] =>
      rewrite (msum_delete f m k v H) in H2
  | H : ?m !! ?k = Some ?v |- context [msum ?f (<[?k := ?w]> ?m)] =>
      rewrite (msum_insert_Some f m k v w H)
  | H : ?m !! ?k = None |- context [msum ?f (<[?k := ?w]> ?m)] =>
      rewrite (msum_insert_None f m k w H)
  end;
  rewrite ?lsum_app, ?locked_of_insert; simpl;
  unfold due_challenge, due_unbond, due_proposal in *; simpl in *;
  repeat case_decide; subst;
  repeat match goal with
  | H : ?m !! ?k = Some ?v, H2 : context [locked_of ?m ?k] |- _ =>
      rewrite (locked_of_lookup m k v H) in H2
  | H : ?m !! ?k = Some ?v |- context [locked_of ?m ?k] => rewrite (locked_of_lookup m k v H)
  end; simpl in *; first [lia|exfalso; intuition congruence].

Ltac wf_solve :=
  lazymatch goal with
  | H : wf_with _ ?st |- wf_with _ _ =>
    let Ha := fresh "Ha" in let Hso := fresh "Hso" in
    destruct H as [Ha ? ? ? ? ? ? Hso]; simpl in *; account_facts;
    repeat match goal with
    | H : account_ok _ |- _ => destruct H as (? & ? & ?)
    | H : proposal_ok _ _ |- _ => destruct H as (? & ? & ?)
    end; unfold u128 in *; simpl in *;
    (constructor; simpl;
    [ repeat (apply map_Forall_insert_2; [unfold account_ok, u128; simpl; split_and!; lia|]); try done
    | try done
    | try (apply map_Forall_insert_2; [split; [by eapply validate_err_or_ok|done]|]); try done
    | try (by eapply keyed_update); try done
    | repeat apply proposals_ok_insert;
      try (apply map_Forall_insert_2; [unfold proposal_ok; simpl; split_and!; done|]); try done
    | rewrite ?insert_delete_eq; try (apply map_Forall_insert_2; [simpl; lia|]);
      try apply map_Forall_delete; try done
    | rewrite ?Forall_app, ?Forall_cons in *; try done; destruct_and?; split_and?; try done;
      repeat constructor; simpl; lia
    | solvent_solve Hso ])
  end.

Section Operations.
Context `{B : BuildMode} `{X : External} (checked : overflow_checks = true).

Lemma try_schedule_wf id st :
  wf st → wp (try_schedule_params_update_after_vote id) (λ _, wf) st.
Proof using checked.
  intros Hwf. unfold try_schedule_params_update_after_vote. wp_run; simpl in *; try done.
  all: checked_facts checked; unfold u128 in *.
  all: try match goal with H : negb _ = false |- _ => apply negb_false_iff in H end; simplify_eq.
  all: checked_facts checked.
  all: wf_solve.
Qed.

Lemma propose_wf t st :
  params_typed (pp_params t) → wf st →
  wp (apply_propose_protocol_params_update t) (λ _, wf) st.
Proof using checked.
  intros Ht Hwf. unfold apply_propose_protocol_params_update. wp_run; try done.
  all: match goal with H : lock_bond _ ?b = Ok _ |- _ =>
    assert (u128 b) by (destruct (wf_params _ _ Hwf) as [_ [? ?]]; by destruct (classify_protocol_params_update _ _));
    set (bond := b) in *; clearbody bond end.
  all: simpl in *; checked_facts checked; wf_solve.
  match goal with |- proposals_keyed (<[_ := ?p]> ?m) => by apply (keyed_insert m p) end.
Qed.

Lemma apply_transaction_wf tx st :
  tx_typed tx → wf st → wp (apply_transaction tx) (λ _, wf) st.
Proof using checked.
  intros Ht Hwf. destruct tx as [t|t|t|t|t|t|t|t|t|t]; simpl in *; [..|by apply propose_wf].
  all: unfold apply_transfer, apply_stake, apply_unbond, apply_claim_reward, apply_submit_batch,
      apply_commit_epoch, apply_open_challenge, apply_challenge_response, apply_vote.
  all: wp_run; simpl in *; try done.
  all: try lazymatch goal with |- wp (try_schedule_params_update_after_vote _) _ _ =>
    eapply wp_mono; [apply try_schedule_wf|by intros [[]|e|] ? _ ?; [apply wp_ret|..]] end.
  all: checked_facts checked; unfold u128 in *.
  all: wf_solve.
Qed.

Lemma resolve_wf id res st :
  resolution_typed res → wf st → wp (resolve_challenge id res) (λ _, wf) st.
Proof using checked.
  intros [Hr1 Hr2] Hwf. unfold resolve_challenge. wp_run; simpl in *; simplify_eq; try done.
  all: checked_facts checked; unfold u128 in *.
  all: wf_solve.
Qed.

Lemma schedule_wf e p st :
  params_typed p → wf st → wp (schedule_protocol_params_update e p) (λ _, wf) st.
Proof.
  intros Hp Hwf. wp_run; simpl in *; try done. wf_solve.
Qed.

(** Activation changes no obligation. *)
Lemma due_activate a epoch p : due_proposal a (activate_one epoch p) = due_proposal a p.
Proof.
  unfold due_proposal, activate_one. destruct (bool_decide (gp_state p = Scheduled)) eqn:E; [|done].
  apply bool_decide_eq_true in E. destruct (_ =? _); [|done]. simpl.
  repeat case_decide; first [done|intuition congruence].
Qed.

Lemma activate_wf st : wf st → wp activate_scheduled_protocol_params (λ r st', r = Ok tt ∧ wf st') st.
Proof.
  intros Hwf. eapply wp_mono; [apply activate_spec, Hwf|]. intros r st' _ [-> ->]. split; [done|].
  destruct Hwf as [Ha Hp Hs Hk Hpr Hc Hq Hso].
  destruct (scheduled_params (store st) !! current_epoch st) as [p|] eqn:E.
  - split; simpl; try done.
    + by eapply Hs.
    + by apply map_Forall_delete.
    + apply keyed_fmap; [apply activate_one_id|done].
    + apply map_Forall_fmap. intros k q Hq'. destruct (Hpr _ _ Hq') as (? & ? & ?).
      unfold activate_one. simpl. by destruct (_ && _).
    + intros a. specialize (Hso a). unfold owed in *. simpl. rewrite msum_fmap.
      rewrite (msum_ext (λ _ v, due_proposal a (activate_one (current_epoch st) v))
        (λ _, due_proposal a)); [exact Hso|]. intros. apply due_activate.
  - split; simpl; try done. by apply map_Forall_delete.
Qed.

(** A pending proposal's bond is covered by its proposer's locked funds. *)
Lemma proposal_covered st k p :
  wf st → params_update_proposals (store st) !! k = Some p → gp_state p = Pending →
  ∃ v, accounts (store st) !! gp_proposer p = Some v ∧ bond_amount p <= locked v.
Proof.
  intros Hwf Hk Hst. destruct (wf_proposals _ _ Hwf _ _ Hk) as (_ & _ & [v Hv]).
  exists v. split; [done|]. pose proof (wf_solvent _ _ Hwf (gp_proposer p)) as Hso.
  rewrite (locked_of_lookup _ _ _ Hv) in Hso. unfold owed in Hso.
  rewrite (msum_delete _ (params_update_proposals (store st)) _ _ Hk) in Hso.
  pose proof (owed_challenges_nonneg (store st) (gp_proposer p) (wf_challenges _ _ Hwf)).
  pose proof (wf_queue _ _ Hwf) as Hq. rewrite app_nil_r in Hq.
  pose proof (owed_queue_nonneg _ (gp_proposer p) Hq).
  assert (0 <= msum (λ _, due_proposal (gp_proposer p)) (delete k (params_update_proposals (store st)))).
  { eapply owed_proposals_nonneg, map_Forall_delete, wf_proposals, Hwf. }
  unfold due_proposal at 1 in Hso. rewrite decide_True in Hso by done. simpl in Hso. lia.
Qed.

Lemma burn_covered v amt : amt <= locked v → u128 (locked v) → 0 <= amt →
  burn_locked_bond v amt =
    Ok (with_balances v (balance v) (staked v) (locked v - amt) (nonce v)).
Proof.
  intros Hle Hu Ha. unfold burn_locked_bond, u128 in *. rewrite (proj2 (Z.ltb_ge _ _)) by lia.
  rewrite sub_exact by lia. done.
Qed.

(** The body of the expiry loop. *)
Definition expire_body (p : GovernanceParamsUpdateProposalRecord) : method InMemoryStore unit :=
  m_bind (gets current_epoch) (λ epoch,
  if negb (bool_decide (gp_state p = Pending)) || (epoch <? gp_effective_epoch p) then m_ret tt
  else m_bind (account_or_err (gp_proposer p)) (λ account,
    m_bind (lift (burn_locked_bond account (bond_amount p))) (λ account',
    m_bind (write_account (gp_proposer p) account') (λ _,
    m_bind (from_store (λ s, params_update_proposal s (gp_proposal_id p))) (λ o,
    m_bind (ok_or o (ParamsUpdateProposalNotFound (gp_proposal_id p))) (λ record,
    update_store (λ s, params_update_proposal_put s (gp_proposal_id p)
      (set_proposal_state record ProposalExpired)))))))).

(** The expiry loop on the way: well formed, with the proposals of [l] still to be visited. *)
Definition expiring (st : pstate) (l : list GovernanceParamsUpdateProposalRecord) (st' : pstate) : Prop :=
  wf st' ∧ current_epoch st' = current_epoch st ∧
  partly (expire_one (current_epoch st)) (params_update_proposals (store st)) l
    (params_update_proposals (store st')).

(** A visit never fails or panics on a well-formed state. *)
Lemma expire_body_ok st p l st1 :
  expiring st (p :: l) st1 → ∃ st2, expire_body p st1 = (Ok tt, st2) ∧ expiring st l st2.
Proof using checked.
  intros (Hwf & He & Hp). pose proof (partly_head _ _ _ _ _ Hp) as Hh.
  unfold expire_body, m_bind, gets. rewrite He. unfold m_ret.
  destruct (negb (bool_decide (gp_state p = Pending)) || (current_epoch st <? gp_effective_epoch p)) eqn:Heqb.
  { exists st1. split; [done|]. split_and!; [done..|]. apply partly_skip in Hp; [done|].
    unfold expire_one. by rewrite Heqb. }
  pose proof Heqb as Hpend. apply orb_false_iff in Hpend as [Hpend _].
  apply negb_false_iff, bool_decide_eq_true in Hpend.
  destruct (proposal_covered _ _ _ Hwf Hh Hpend) as (v & Hv & Hle).
  destruct (wf_proposals _ _ Hwf _ _ Hh) as ([? ?] & _ & _).
  destruct (wf_accounts _ _ Hwf _ _ Hv) as (_ & _ & Hl).
  unfold account_or_err, from_store, gets, ok_or, lift, m_bind. simpl. rewrite Hv. simpl.
  rewrite (burn_covered v (bond_amount p) Hle Hl ltac:(done)). simpl. rewrite Hh. simpl.
  eexists. split; [reflexivity|]. split_and!; simpl; [|done|].
  - wf_solve.
  - apply partly_step in Hp. unfold expire_one in Hp at 2. by rewrite Heqb in Hp.
Qed.

(** Expiry of stale proposals never fails or panics on a well-formed state. *)
Lemma expire_total st :
  wf st → ∃ st', expire_stale_params_update_proposals st = (Ok tt, st') ∧ wf st'.
Proof using checked.
  intros Hwf. change (expire_stale_params_update_proposals st) with
    (for_each expire_body (bt_values (params_update_proposals (store st))) st).
  assert (expiring st (bt_values (params_update_proposals (store st))) st) as Hi.
  { split_and!; [done..|]. apply partly_init, Hwf. }
  revert Hi. generalize (bt_values (params_update_proposals (store st))) as l. generalize st at 2 3 as st1.
  intros st1 l. revert st1. induction l as [|p l IH]; intros st1 Hi; simpl; [exists st1; split; [done|apply Hi]|].
  destruct (expire_body_ok _ _ _ _ Hi) as (st2 & Hr & Hi2). unfold m_bind. rewrite Hr. by apply IH.
Qed.

Lemma expire_wf st :
  wf st → wp expire_stale_params_update_proposals (λ r st', r = Ok tt ∧ wf st') st.
Proof using checked. intros (st' & Hr & Hwf)%expire_total. unfold wp. by rewrite Hr. Qed.

(** Finalizing keeps states well formed, and once the guards are passed it
    succeeds. *)
Lemma finalize_wf e st :
  wf st → wp (finalize_epoch e) (λ r st', wf st' ∧ (is_ok r = true ∨ st' = st)) st.
Proof using checked.
  intros Hwf. unfold finalize_epoch, from_store, update_store. cbv zeta.
  repeat (wp_step; try (by auto)).
  - eapply wp_mono; [apply activate_wf|].
    { simpl in *. wf_solve. }
    intros r st1 _ [-> Hwf1]. eapply wp_mono; [by apply expire_wf|].
    intros r st2 _ [-> Hwf2]. apply wp_ret. auto.
  - split; [|by left]. simpl in *. wf_solve.
Qed.

(** ** Paying out matured unbonds *)

Lemma unbond_covered u l st :
  wf_with (u :: l) st →
  ∃ v, accounts (store st) !! ub_delegator u = Some v ∧ 0 < ub_amount u <= locked v.
Proof.
  intros Hwf. pose proof (wf_solvent _ _ Hwf (ub_delegator u)) as Hso. unfold owed in Hso.
  pose proof (wf_queue _ _ Hwf) as Hq. apply Forall_app in Hq as [Hq Hl].
  apply Forall_cons in Hl as [Hu Hl].
  pose proof (owed_challenges_nonneg (store st) (ub_delegator u) (wf_challenges _ _ Hwf)).
  pose proof (owed_queue_nonneg _ (ub_delegator u) Hq).
  pose proof (owed_queue_nonneg _ (ub_delegator u) Hl).
  pose proof (owed_proposals_nonneg _ _ (ub_delegator u) (wf_proposals _ _ Hwf)).
  simpl in Hso. unfold due_unbond at 2 in Hso. rewrite decide_True in Hso by done.
  unfold locked_of in Hso. destruct (accounts (store st) !! ub_delegator u) as [v|]; [|lia].
  exists v. split; [done|]. lia.
Qed.

Definition balance_of (accs : gmap Address AccountState) (a : Address) : Z :=
  match accs !! a with Some v => balance v | None => 0 end.

Lemma balance_of_insert accs k v a :
  balance_of (<[k := v]> accs) a = if decide (k = a) then balance v else balance_of accs a.
Proof.
  unfold balance_of. case_decide; [subst; by rewrite lookup_insert_eq|by rewrite lookup_insert_ne].
Qed.

Lemma holdings_le_supply l st a v :
  wf_with l st → accounts (store st) !! a = Some v → holdings v <= supply st.
Proof.
  intros Hwf Hv. unfold supply. apply (msum_lookup_le (λ _, holdings) _ a v); [|done].
  intros k w Hk. destruct (wf_accounts _ _ Hwf _ _ Hk) as ([? _] & [? _] & [? _]).
  unfold holdings. lia.
Qed.

Lemma pay_one u l st :
  wf_with (u :: l) st → supply st < 2 ^ 128 →
  ∃ st', pay_matured_unbond u st =
      (Ok (UnbondMatured (ub_delegator u) (ub_operator u) (ub_amount u)), st') ∧
    wf_with l st' ∧ supply st' = supply st ∧ unbonding_queue (store st') = unbonding_queue (store st) ∧
    ∀ a, balance_of (accounts (store st')) a = balance_of (accounts (store st)) a + due_unbond a u.
Proof.
  intros Hwf Hs. destruct (unbond_covered _ _ _ Hwf) as (v & Hv & Hu & Hle).
  pose proof (holdings_le_supply _ _ _ _ Hwf Hv) as Hh.
  pose proof (wf_accounts _ _ Hwf _ _ Hv) as ([? ?] & [? ?] & [? ?]). unfold holdings in Hh.
  unfold pay_matured_unbond, account_or_err, write_account, from_store, update_store, m_bind, gets,
    ok_or, lift, unlock_bond_to_balance. simpl. rewrite Hv.
  rewrite (proj2 (Z.ltb_ge _ _)) by lia. rewrite sub_exact, add_exact by lia. simpl.
  eexists. split; [reflexivity|]. split_and!; [| |done|].
  - wf_solve.
  - unfold supply. simpl. rewrite (msum_insert_Some _ _ _ v) by done. unfold holdings. simpl. lia.
  - intros a. simpl. rewrite balance_of_insert. unfold due_unbond, balance_of.
    repeat case_decide; subst; rewrite ?Hv; simpl; lia.
Qed.

Lemma pay_all l st :
  wf_with l st → supply st < 2 ^ 128 →
  ∃ st', map_m pay_matured_unbond l st =
      (Ok ((λ u, UnbondMatured (ub_delegator u) (ub_operator u) (ub_amount u)) <$> l), st') ∧
    wf st' ∧ supply st' = supply st ∧ unbonding_queue (store st') = unbonding_queue (store st) ∧
    ∀ a, balance_of (accounts (store st')) a =
      balance_of (accounts (store st)) a + lsum (due_unbond a) l.
Proof.
  revert st. induction l as [|u l IH]; intros st Hwf Hs; simpl.
  - eexists. split_and!; try done. intros. lia.
  - destruct (pay_one _ _ _ Hwf Hs) as (st1 & Hp & Hwf1 & Hs1 & Hq1 & Hb1).
    destruct (IH st1) as (st2 & Hm & Hwf2 & Hs2 & Hq2 & Hb2); [done|lia|].
    exists st2. unfold m_bind. rewrite Hp, Hm. split_and!; [done..|lia|congruence|].
    intros a. rewrite Hb2, Hb1. lia.
Qed.

Lemma drain_wf st :
  wf st → wf_with (ims_drain_mature_unbondings (store st) (height st)).1
    (set_store st (ims_drain_mature_unbondings (store st) (height st)).2).
Proof.
  intros [Ha Hp Hs Hk Hpr Hc Hq Hso]. split; simpl; try done.
  - rewrite app_nil_r in Hq. rewrite Forall_forall in Hq. apply Forall_app.
    split; apply Forall_forall; intros u [_ Hu]%list_elem_of_filter; by apply Hq.
  - intros a. specialize (Hso a). unfold owed in *. simpl in *.
    rewrite (lsum_filter _ (λ r, unlock_height r <= height st) (unbonding_queue (store st))) in Hso.
    lia.
Qed.

(** Whatever the supply, the payments do not return an error. *)
Lemma pay_all_wf l st :
  wf_with l st → wp (map_m pay_matured_unbond l) (λ r st', is_ok r = true ∧ wf st') st.
Proof using checked.
  revert st. induction l as [|u l IH]; intros st Hwf; simpl; [by apply wp_ret|].
  destruct (unbond_covered _ _ _ Hwf) as (v & Hv & Hu & Hle).
  apply wp_bind. unfold pay_matured_unbond at 1. wp_run; simpl in *; simplify_eq.
  - checked_facts checked. eapply wp_mono; [apply IH; wf_solve|].
    intros [effs|e|] st' _ [Hok Hwf']; [by apply wp_ret|done|done].
  - unfold unlock_bond_to_balance in *. rewrite (proj2 (Z.ltb_ge _ _)) in * by done.
    destruct (sub _ _ _); [|done]. simpl in *. by destruct (add _ _ _).
Qed.

Lemma process_mature_wf st :
  wf st → wp process_mature_unbonds (λ r st', is_ok r = true ∧ wf st') st.
Proof using checked.
  intros Hwf. unfold process_mature_unbonds. wp_run.
  apply pay_all_wf. by apply drain_wf.
Qed.

Lemma set_height_wf l st h : wf_with l st → wf_with l (set_height st h).
Proof. intros []. by split. Qed.

Lemma step_wf st st' : wf st → step st st' → wf st'.
Proof using checked.
  intros Hwf Hstep. revert Hwf. destruct Hstep as [tx r s s' Ht E Hr|id res r s s' Ht E Hr|e r s s' E Hr|h r s s' Hh E Hr
    |e p r s s' Hp E Hr|rw r s s' E]; intros Hwf.
  - exact (wp_elim _ _ _ _ _ (apply_transaction_wf _ _ Ht Hwf) E Hr).
  - exact (wp_elim _ _ _ _ _ (resolve_wf _ _ _ Ht Hwf) E Hr).
  - by destruct (wp_elim _ _ _ _ _ (finalize_wf e _ Hwf) E Hr).
  - by destruct (wp_elim _ _ _ _ _ (process_mature_wf _ (set_height_wf _ _ h Hwf)) E Hr).
  - exact (wp_elim _ _ _ _ _ (schedule_wf e _ _ Hp Hwf) E Hr).
  - unfold upsert_reward_record, update_store, modify in E. simplify_eq.
    destruct Hwf. by split.
Qed.

(** States the protocol can reach from a genesis state. *)
Definition reachable (st : pstate) : Prop := ∃ st0, genesis_state st0 ∧ rtc step st0 st.

Lemma reachable_wf st : reachable st → wf st.
Proof using checked.
  intros (st0 & Hg & Hr). apply genesis_wf in Hg. induction Hr; [done|]. eauto using step_wf.
Qed.

(** C1: solvency. Whatever transactions, resolutions, finalizations and blocks
    were run from genesis, and whichever of them returned errors, the locked funds
    of every account cover the bonds of its open challenges, its queued unbonds
    and the bonds of its pending proposals. *)
Theorem solvency st a : reachable st → owed (store st) a <= locked_of (accounts (store st)) a.
Proof using checked.
  intros Hr%reachable_wf. pose proof (wf_solvent _ _ Hr a). simpl in *. lia.
Qed.

(** C7: matured unbonds are always paid, in full and to the right accounts: when a
    block moves a reachable state whose supply fits in 128 bits to height [h],
    [process_mature_unbonds] neither fails nor panics, announces one payment per
    matured request in queue order, leaves the other requests queued, and credits
    every account with exactly the amounts that fell due to it. *)
Theorem matured_unbonds_paid st (h : Height) :
  reachable st → supply st < 2 ^ 128 →
  let matured := filter (λ r, unlock_height r <= h) (unbonding_queue (store st)) in
  ∃ st', process_mature_unbonds (set_height st h) =
      (Ok ((λ u, UnbondMatured (ub_delegator u) (ub_operator u) (ub_amount u)) <$> matured), st') ∧
    unbonding_queue (store st') = filter (λ r, ¬ unlock_height r <= h) (unbonding_queue (store st)) ∧
    ∀ a, balance_of (accounts (store st')) a =
      balance_of (accounts (store st)) a + lsum (due_unbond a) matured.
Proof using checked.
  intros Hwf%reachable_wf Hs. apply (set_height_wf _ _ h), drain_wf in Hwf.
  destruct (pay_all _ _ Hwf Hs) as (st' & Hm & _ & _ & Hq & Hb). by exists st'.
Qed.

(** C10: finalization cannot get stuck on governance. In a reachable state, once an
    epoch passes the guards of [finalize_epoch] the whole call succeeds (burning
    the bonds of expired proposals never fails): a call that returns an error has
    changed nothing. *)
Theorem finalize_error_changes_nothing e st er st' :
  reachable st → finalize_epoch e st = (Err er, st') → st' = st.
Proof using checked.
  intros Hwf%reachable_wf Hf.
  by destruct (wp_elim _ _ _ _ _ (finalize_wf e _ Hwf) Hf) as [_ [|]].
Qed.

(** the parameters in force and every scheduled set of parameters always pass
    [validate], whatever was proposed and voted. *)
Theorem params_always_valid st :
  reachable st → validate (params st) = Ok tt ∧
  ∀ e p, scheduled_params (store st) !! e = Some p → validate p = Ok tt.
Proof using checked.
  intros Hwf%reachable_wf. split; [apply Hwf|]. intros e p Hp. by apply (wf_scheduled _ _ Hwf e p Hp).
Qed.
End Operations.
