(* ===== verification/Finality.v ===== *)
(** * Finality: what never changes back

    Heights, epochs and nonces only grow, commits, batches, votes, responses,
    finalized epochs and claimed rewards are never lost or overwritten; hence a
    finalized epoch stays closed and no accepted transaction (challenge openings
    apart) is accepted twice. *)
From S2P Require Import Prelude Primitives Params Records Crypto Store Transitions Executor.
From S2P Require Import Ledger Governance Solvency.

(** Accounts persist and their nonces do not decrease. *)
Definition accounts_grow (accs accs' : gmap Address AccountState) : Prop :=
  ∀ a v, accs !! a = Some v → ∃ v', accs' !! a = Some v' ∧ nonce v <= nonce v'.

(** Nodes persist under the identity they registered. *)
Definition nodes_grow (m m' : gmap NodeId NodeRegistry) : Prop :=
  ∀ k n, m !! k = Some n → ∃ n', m' !! k = Some n' ∧ node_id n' = node_id n.

Record grows (st st' : pstate) : Prop := {
  gr_height : height st <= height st';
  gr_epoch : current_epoch st <= current_epoch st';
  gr_accounts : accounts_grow (accounts (store st)) (accounts (store st'));
  gr_nodes : nodes_grow (nodes (store st)) (nodes (store st'));
  gr_batches : batches (store st) ⊆ batches (store st');
  gr_commits : epoch_commits (store st) ⊆ epoch_commits (store st');
  gr_votes : votes (store st) ⊆ votes (store st');
  gr_responses : challenge_responses (store st) ⊆ challenge_responses (store st');
  gr_claimed : claimed_rewards (store st) ⊆ claimed_rewards (store st');
  gr_finalized : finalized_epochs (store st) ⊆ finalized_epochs (store st');
}.

Lemma accounts_grow_refl accs : accounts_grow accs accs.
Proof. intros a v Hv. exists v. split; [done|lia]. Qed.

Lemma accounts_grow_insert accs0 accs a v v' :
  accs !! a = Some v → nonce v <= nonce v' → accounts_grow accs0 accs →
  accounts_grow accs0 (<[a := v']> accs).
Proof.
  intros Ha Hn Hg b w Hb. destruct (Hg _ _ Hb) as (w' & Hw & Hle).
  destruct (decide (a = b)) as [->|]; [|exists w'; by rewrite lookup_insert_ne].
  exists v'. rewrite lookup_insert_eq. simplify_eq. split; [done|lia].
Qed.

Lemma nodes_grow_refl m : nodes_grow m m.
Proof. intros k n Hn. by exists n. Qed.

Lemma nodes_grow_insert m0 m k n n' :
  m !! k = Some n → node_id n' = node_id n → nodes_grow m0 m → nodes_grow m0 (<[k := n']> m).
Proof.
  intros Hk Hid Hg j w Hj. destruct (Hg _ _ Hj) as (w' & Hw & Heq).
  destruct (decide (k = j)) as [->|]; [|exists w'; by rewrite lookup_insert_ne].
  exists n'. rewrite lookup_insert_eq. simplify_eq. split; [done|congruence].
Qed.

#[export] Instance grows_refl : Reflexive grows.
Proof. intros st. split; first [lia|done|apply accounts_grow_refl|apply nodes_grow_refl]. Qed.

#[export] Instance grows_trans : Transitive grows.
Proof.
  intros st1 st2 st3 [] []. split; try lia; try (by etrans).
  - intros a v Hv. destruct (gr_accounts0 _ _ Hv) as (v' & Hv' & ?).
    destruct (gr_accounts1 _ _ Hv') as (v'' & ? & ?). exists v''. split; [done|lia].
  - intros k n Hn. destruct (gr_nodes0 _ _ Hn) as (n' & Hn' & ?).
    destruct (gr_nodes1 _ _ Hn') as (n'' & ? & ?). exists n''. split; [done|congruence].
Qed.

(** [grows_solve] closes the comparison of a state with the result of its writes. *)
Ltac grows_solve :=
  split; simpl in *;
  [ lia | lia
  | repeat (eapply accounts_grow_insert; [eassumption|simpl; lia|]); apply accounts_grow_refl
  | repeat (eapply nodes_grow_insert; [eassumption|done|]); apply nodes_grow_refl
  | first [done|by apply insert_subseteq] | first [done|by apply insert_subseteq]
  | first [done|by apply insert_subseteq] | first [done|by apply insert_subseteq]
  | first [done|apply union_subseteq_r] | first [done|apply union_subseteq_r] ].

Section Growth.
Context `{B : BuildMode} `{X : External} (checked : overflow_checks = true).

Lemma try_schedule_grows id st :
  wp (try_schedule_params_update_after_vote id) (λ _ st', grows st st') st.
Proof using checked.
  unfold try_schedule_params_update_after_vote. wp_run; try done.
  all: simpl in *; checked_facts checked; grows_solve.
Qed.

Lemma apply_transaction_grows tx st :
  wp (apply_transaction tx) (λ _ st', grows st st') st.
Proof using checked.
  destruct tx as [t|t|t|t|t|t|t|t|t|t]; simpl;
    unfold apply_transfer, apply_stake, apply_unbond, apply_claim_reward, apply_submit_batch,
      apply_commit_epoch, apply_open_challenge, apply_challenge_response, apply_vote,
      apply_propose_protocol_params_update.
  all: wp_run; try done; simpl in *.
  all: try lazymatch goal with |- wp (try_schedule_params_update_after_vote _) _ _ =>
    eapply wp_mono; [apply try_schedule_grows|];
    intros [[]|e|] st' _ Hg; [apply wp_ret| |done]; (etrans; [|exact Hg]) end.
  all: checked_facts checked; grows_solve.
Qed.

Lemma resolve_grows id res st : wp (resolve_challenge id res) (λ _ st', grows st st') st.
Proof using checked.
  unfold resolve_challenge. wp_run; try done; simpl in *; checked_facts checked; grows_solve.
Qed.

Lemma activate_grows st : wp activate_scheduled_protocol_params (λ _ st', grows st st') st.
Proof.
  unfold activate_scheduled_protocol_params. wp_run; [|grows_solve].
  eapply (wp_for_each _ _ (grows st)); [simpl; grows_solve| |done].
  intros q s _ Hg. wp_run; try done. etrans; [exact Hg|grows_solve].
Qed.

Lemma expire_grows st : wp expire_stale_params_update_proposals (λ _ st', grows st st') st.
Proof using checked.
  unfold expire_stale_params_update_proposals, from_store. wp_step. wp_step.
  eapply (wp_for_each _ _ (grows st)); [done| |done].
  intros p s _ Hg. wp_run; try done; (etrans; [exact Hg|]); simpl in *; checked_facts checked;
    grows_solve.
Qed.

Lemma finalize_grows e st : wp (finalize_epoch e) (λ _ st', grows st st') st.
Proof using checked.
  unfold finalize_epoch, from_store, update_store. cbv zeta. repeat (wp_step; try done).
  - checked_facts checked. simpl in *. apply Z.leb_le in Heqb.
    eapply wp_mono; [apply activate_grows|]. intros [[]|er|] st1 _ Hg1; [|etrans; [|exact Hg1]; grows_solve|done].
    eapply wp_mono; [apply expire_grows|]. intros [[]|er|] st2 _ Hg2; [apply wp_ret| |done].
    all: etrans; [|exact Hg2]; (etrans; [|exact Hg1]); grows_solve.
  - simpl in *. grows_solve.
Qed.

Lemma process_mature_grows st : wp process_mature_unbonds (λ _ st', grows st st') st.
Proof using checked.
  unfold process_mature_unbonds. wp_run.
  eapply (wp_map_m _ _ (grows st)); [simpl; grows_solve| |done].
  intros u s _ Hg. unfold pay_matured_unbond. wp_run; try done.
  etrans; [exact Hg|]; simpl in *; checked_facts checked; grows_solve.
Qed.

Lemma step_grows st st' : step st st' → grows st st'.
Proof using checked.
  intros [tx r s s' Ht E Hr|id res r s s' Ht E Hr|e r s s' E Hr|h r s s' Hh E Hr
    |e p r s s' Hp E Hr|rw r s s' E].
  - exact (wp_elim _ _ _ _ _ (apply_transaction_grows tx s) E Hr).
  - exact (wp_elim _ _ _ _ _ (resolve_grows id res s) E Hr).
  - exact (wp_elim _ _ _ _ _ (finalize_grows e s) E Hr).
  - etrans; [|exact (wp_elim _ _ _ _ _ (process_mature_grows _) E Hr)].
    split; simpl; first [done|lia|apply accounts_grow_refl|apply nodes_grow_refl].
  - assert (wp (schedule_protocol_params_update e p) (λ _ st', grows s st') s) as Hwp.
    { wp_run; try done. grows_solve. }
    exact (wp_elim _ _ _ _ _ Hwp E Hr).
  - unfold upsert_reward_record, update_store, modify in E. simplify_eq. grows_solve.
Qed.

Lemma steps_grow st st' : rtc step st st' → grows st st'.
Proof using checked. induction 1; [done|]. etrans; [by apply step_grows|done]. Qed.
End Growth.

(** ** No accepted transaction is accepted twice *)

(** The mark an accepted transaction leaves. *)
Definition nonce_past (st : pstate) (a : Address) (n : Z) : Prop :=
  ∃ v, accounts (store st) !! a = Some v ∧ n < nonce v.

Definition spent (tx : Transaction) (st : pstate) : Prop :=
  match tx with
  | Transfer t => nonce_past st (tr_from t) (tr_nonce t)
  | Stake t => nonce_past st (st_delegator t) (st_nonce t)
  | Unbond t => nonce_past st (un_delegator t) (un_nonce t)
  | ProposeProtocolParamsUpdate t => nonce_past st (pp_proposer t) (pp_nonce t)
  | Vote t => is_Some (votes (store st) !! (vt_proposal_id t, vt_voter t))
  | ClaimReward t => (cl_epoch_id t, cl_node_id t) ∈ claimed_rewards (store st)
  | SubmitBatch t => let b := sb_batch_commit t in
      ∃ n, nodes (store st) !! bc_collector_id b = Some n ∧
        is_Some (batches (store st) !! (bc_epoch_id b, node_id n, root (batch b)))
  | CommitEpoch t => is_Some (epoch_commits (store st) !! ec_epoch_id (ce_epoch_commit t))
  | ChallengeResponse t => is_Some (challenge_responses (store st) !! rt_challenge_id t)
  | OpenChallenge _ => False
  end.

Definition opens_challenge (tx : Transaction) : bool :=
  match tx with OpenChallenge _ => true | _ => false end.

Lemma nonce_past_grows st st' a n : grows st st' → nonce_past st a n → nonce_past st' a n.
Proof.
  intros Hg (v & Hv & Hn). destruct (gr_accounts _ _ Hg _ _ Hv) as (v' & ? & ?).
  exists v'. split; [done|lia].
Qed.

Lemma lookup_grows {K V} `{Countable K} (m m' : gmap K V) k :
  m ⊆ m' → is_Some (m !! k) → is_Some (m' !! k).
Proof. intros Hs [v Hv]. exists v. by eapply lookup_weaken. Qed.

Lemma spent_grows tx st st' : grows st st' → spent tx st → spent tx st'.
Proof.
  intros Hg. destruct tx; simpl; try apply (nonce_past_grows _ _ _ _ Hg); try done.
  - apply (gr_claimed _ _ Hg).
  - intros (n & Hn & Hb). destruct (gr_nodes _ _ Hg _ _ Hn) as (n' & Hn' & Hid).
    exists n'. split; [done|]. rewrite Hid. eapply lookup_grows; [apply Hg|done].
  - apply lookup_grows, Hg.
  - apply lookup_grows, Hg.
  - apply lookup_grows, Hg.
Qed.

Section Replay.
Context `{B : BuildMode} `{X : External} (checked : overflow_checks = true).

Lemma accepted_spent tx st :
  wp (apply_transaction tx)
    (λ r st', is_ok r = true → opens_challenge tx = false → spent tx st') st.
Proof using checked.
  destruct tx as [t|t|t|t|t|t|t|t|t|t]; simpl;
    unfold apply_transfer, apply_stake, apply_unbond, apply_claim_reward, apply_submit_batch,
      apply_commit_epoch, apply_open_challenge, apply_challenge_response, apply_vote,
      apply_propose_protocol_params_update.
  all: wp_run; try done; simpl in *.
  all: try (eapply wp_mono; [by apply try_schedule_grows|];
    intros [[]|e|] st' _ Hg; [apply wp_ret|done|done]; intros _ _; apply (spent_grows (Vote t) _ _ Hg)).
  all: try (intros _ _); checked_facts checked; simpl in *.
  all: unfold nonce_past; simpl.
  all: try (eexists; split; [apply lookup_insert_eq|simpl; lia]).
  all: try (rewrite lookup_insert_eq; by eexists).
  - destruct (decide (tr_to t = tr_from t)) as [Heq|Hne].
    + rewrite Heq in *. rewrite lookup_insert_eq in *. simplify_eq/=. eexists. split; [done|simpl; lia].
    + rewrite lookup_insert_ne, lookup_insert_eq by done. eexists. split; [done|simpl; lia].
  - apply elem_of_union_l, elem_of_singleton_2. done.
  - eexists. split; [eassumption|]. rewrite lookup_insert_eq. by eexists.
Qed.

Lemma spent_rejected tx st : spent tx st → wp (apply_transaction tx) (λ r _, is_ok r = false) st.
Proof using checked.
  destruct tx as [t|t|t|t|t|t|t|t|t|t]; simpl;
    unfold nonce_past, apply_transfer, apply_stake, apply_unbond, apply_claim_reward,
      apply_submit_batch, apply_commit_epoch, apply_open_challenge, apply_challenge_response,
      apply_vote, apply_propose_protocol_params_update; intros Hsp; destruct_and?; try done.
  all: wp_run; try done; simpl in *.
  all: checked_facts checked; exfalso; simpl in *.
  all: try (destruct Hsp as (? & ? & ?); simplify_eq; lia).
  all: try (destruct Hsp; congruence).
  - by rewrite bool_decide_true in H2.
  - destruct Hsp as (n & Hn & [b Hb]). simplify_eq.
    discriminate (eq_trans (eq_sym Hb) H8).
  - destruct Hsp as [v Hv]. discriminate (eq_trans (eq_sym Hv) H2).
Qed.

(** C2: replay protection. A transaction that was accepted, other than the opening
    of a challenge, is never accepted again: not right after, nor after any
    sequence of further operations (nonces and the claim, vote, batch, commit and
    response tables only grow). *)
Theorem no_replay tx st eff st1 st2 eff' st3 :
  apply_transaction tx st = (Ok eff, st1) → opens_challenge tx = false →
  rtc step st1 st2 → apply_transaction tx st2 ≠ (Ok eff', st3).
Proof using checked.
  intros Htx Hopen Hsteps Hagain.
  assert (spent tx st2) as Hsp.
  { eapply spent_grows; [by apply (steps_grow checked)|].
    by apply (wp_elim _ _ _ _ _ (accepted_spent tx st) Htx). }
  by pose proof (wp_elim _ _ _ _ _ (spent_rejected tx st2 Hsp) Hagain ltac:(done)).
Qed.
End Replay.

(** ** A finalized epoch stays closed *)

(** Finalized epochs lie in the past, are committed, their challenge window is
    over and no challenge against them is open. *)
Definition closed (st : pstate) : Prop :=
  ∀ e, e ∈ finalized_epochs (store st) →
    e < current_epoch st ∧
    (∃ c, epoch_commits (store st) !! e = Some c ∧ challenge_deadline_height c < height st) ∧
    ∀ k ch, open_challenges (store st) !! k = Some ch → ch_epoch_id ch ≠ e.

Section Closed.
Context `{B : BuildMode} `{X : External} (checked : overflow_checks = true).

(** The open challenges of [st'] were open in [st] or have just been opened on a
    committed epoch whose window has not elapsed; the epochs finalized are those
    of [st]. *)
Definition opens_in_window (st st' : pstate) : Prop :=
  finalized_epochs (store st') = finalized_epochs (store st) ∧
  ∀ k ch, open_challenges (store st') !! k = Some ch →
    (∃ k' ch', open_challenges (store st) !! k' = Some ch' ∧ ch_epoch_id ch' = ch_epoch_id ch) ∨
    (∃ c, epoch_commits (store st) !! ch_epoch_id ch = Some c ∧ height st < challenge_deadline_height c).

Lemma opens_in_window_same st st' :
  finalized_epochs (store st') = finalized_epochs (store st) →
  open_challenges (store st') = open_challenges (store st) → opens_in_window st st'.
Proof. intros Hf Ho. split; [done|]. rewrite Ho. naive_solver. Qed.

Lemma opens_in_window_closed st st' : grows st st' → opens_in_window st st' → closed st → closed st'.
Proof.
  intros Hg [Hf Ho] Hc e He. rewrite Hf in He. destruct (Hc e He) as (He' & (c & Hec & Hd) & Hno).
  split_and!.
  - pose proof (gr_epoch _ _ Hg). lia.
  - exists c. split; [by eapply lookup_weaken; [|apply Hg]|]. pose proof (gr_height _ _ Hg). lia.
  - intros k ch Hk Hch. destruct (Ho _ _ Hk) as [(k' & ch' & Hk' & Heq)|(c' & Hec' & Hlt)].
    + apply (Hno _ _ Hk'). congruence.
    + rewrite Hch in Hec'. pose proof (eq_trans (eq_sym Hec) Hec') as [= ->]. lia.
Qed.

Lemma apply_transaction_window tx st : wp (apply_transaction tx) (λ _, opens_in_window st) st.
Proof using checked.
  destruct tx as [t|t|t|t|t|t|t|t|t|t]; simpl;
    unfold apply_transfer, apply_stake, apply_unbond, apply_claim_reward, apply_submit_batch,
      apply_commit_epoch, apply_open_challenge, apply_challenge_response, apply_vote,
      apply_propose_protocol_params_update, try_schedule_params_update_after_vote.
  all: wp_run; try by apply opens_in_window_same.
  all: simpl in *; split; [done|]; simpl; intros k ch [[<- <-]|[_ Hk]]%lookup_insert_Some.
  all: try (right; eexists; split; [eassumption|]; apply negb_true_iff, orb_false_iff in H4 as [? ?];
    rewrite ?Z.leb_gt, ?Z.ltb_ge in *; lia).
  all: try (left; by eexists _, _).
  apply lookup_delete_Some in Hk as [_ Hk]. left. by eexists _, _.
Qed.

Lemma resolve_window id res st : wp (resolve_challenge id res) (λ _, opens_in_window st) st.
Proof.
  assert (∀ st', finalized_epochs (store st') = finalized_epochs (store st) →
    open_challenges (store st') = delete id (open_challenges (store st)) → opens_in_window st st')
    as Hdel.
  { intros st' Hf Ho. split; [done|]. rewrite Ho. intros k ch [_ Hk]%lookup_delete_Some.
    left. by eexists _, _. }
  unfold resolve_challenge. wp_run; by apply Hdel.
Qed.

(** The governance and payment loops touch neither table. *)
Definition same_challenges (st st' : pstate) : Prop :=
  finalized_epochs (store st') = finalized_epochs (store st) ∧
  open_challenges (store st') = open_challenges (store st).

Lemma activate_same st : wp activate_scheduled_protocol_params (λ _, same_challenges st) st.
Proof.
  unfold activate_scheduled_protocol_params. wp_run; [|done].
  apply (wp_for_each _ _ (same_challenges st)); [done| |done].
  intros q s _ Hs. wp_run; done.
Qed.

Lemma expire_same st : wp expire_stale_params_update_proposals (λ _, same_challenges st) st.
Proof.
  unfold expire_stale_params_update_proposals, from_store. wp_step. wp_step.
  apply (wp_for_each _ _ (same_challenges st)); [done| |done].
  intros q s _ Hs. wp_run; done.
Qed.

Lemma process_mature_same st : wp process_mature_unbonds (λ _, same_challenges st) st.
Proof.
  unfold process_mature_unbonds. wp_run.
  apply (wp_map_m _ _ (same_challenges st)); [done| |done].
  intros u s _ Hs. unfold pay_matured_unbond. wp_run; done.
Qed.

Lemma same_closed st st' : grows st st' → same_challenges st st' → closed st → closed st'.
Proof. intros Hg [? ?]. apply opens_in_window_closed; [done|]. by apply opens_in_window_same. Qed.

Lemma no_open_challenges (s : InMemoryStore) (e : EpochId) k ch :
  ims_has_open_challenges_for_epoch s e = false → open_challenges s !! k = Some ch →
  ch_epoch_id ch ≠ e.
Proof.
  intros Hno Hk Heq. apply not_true_iff_false in Hno. destruct Hno.
  apply existsb_exists. exists ch. split; [|by apply Z.eqb_eq].
  apply list_elem_of_In, list_elem_of_fmap. exists (k, ch). by rewrite elem_of_bt_iter.
Qed.

Lemma finalize_closed e st : closed st → wp (finalize_epoch e) (λ _, closed) st.
Proof using checked.
  intros Hc. unfold finalize_epoch, from_store, update_store. cbv zeta. repeat (wp_step; try done).
  all: simpl in *; apply negb_true_iff in H1, H2; apply Z.leb_gt in H1.
  - checked_facts checked. apply Z.leb_le in Heqb.
    set (st1 := set_current_epoch _ _).
    assert (closed st1) as Hc1.
    { intros e' [->%elem_of_singleton|He']%elem_of_union; simpl.
      - split_and!; [lia|by eexists|]. intros. by eapply no_open_challenges.
      - destruct (Hc e' He') as (? & ? & ?). split_and!; [lia|done|done]. }
    clearbody st1. eapply wp_mono; [apply wp_and; [apply activate_grows|apply activate_same]|].
    intros r st2 _ [Hg2 Hs2]. pose proof (same_closed _ _ Hg2 Hs2 Hc1) as Hc2. destruct r; try done.
    eapply wp_mono; [apply wp_and; [by apply expire_grows|apply expire_same]|].
    intros r st3 _ [Hg3 Hs3]. pose proof (same_closed _ _ Hg3 Hs3 Hc2). by destruct r; try apply wp_ret.
  - apply Z.leb_gt in Heqb. intros e' [->%elem_of_singleton|He']%elem_of_union; simpl.
    + split_and!; [lia|by eexists|]. intros. by eapply no_open_challenges.
    + by apply Hc.
Qed.

Lemma step_closed st st' : step st st' → closed st → closed st'.
Proof using checked.
  intros Hstep. pose proof (step_grows checked _ _ Hstep) as Hg. revert Hg.
  destruct Hstep as [tx r s s' Ht E Hr|id res r s s' Ht E Hr|e r s s' E Hr|h r s s' Hh E Hr
    |e p r s s' Hp E Hr|rw r s s' E]; intros Hg Hc.
  - exact (opens_in_window_closed _ _ Hg (wp_elim _ _ _ _ _ (apply_transaction_window tx s) E Hr) Hc).
  - exact (opens_in_window_closed _ _ Hg (wp_elim _ _ _ _ _ (resolve_window id res s) E Hr) Hc).
  - exact (wp_elim _ _ _ _ _ (finalize_closed e s Hc) E Hr).
  - exact (same_closed _ _ Hg (wp_elim _ _ _ _ _ (process_mature_same _) E Hr) Hc).
  - assert (wp (schedule_protocol_params_update e p) (λ _, same_challenges s) s) as Hwp
      by (wp_run; done).
    exact (same_closed _ _ Hg (wp_elim _ _ _ _ _ Hwp E Hr) Hc).
  - unfold upsert_reward_record, update_store, modify in E. simplify_eq.
    by apply (same_closed s).
Qed.

(** finality. In every reachable state a finalized epoch lies before the
    current one, has a commit whose challenge window is over, and has no open
    challenge: no operation ever reopens it. *)
Theorem finalized_stays_closed st e :
  reachable st → e ∈ finalized_epochs (store st) →
  e < current_epoch st ∧
  (∃ c, epoch_commits (store st) !! e = Some c ∧ challenge_deadline_height c < height st) ∧
  ∀ k ch, open_challenges (store st) !! k = Some ch → ch_epoch_id ch ≠ e.
Proof using checked.
  intros (st0 & Hg & Hr). revert e. change (closed st).
  assert (closed st0) as Hc by (intros e He; by rewrite (gen_finalized _ Hg) in He).
  clear Hg. induction Hr; [done|]. eauto using step_closed.
Qed.

(** history only grows. Between any two states of a run, heights, epochs and
    account nonces do not decrease, and batches, epoch commits, votes, challenge
    responses, claimed rewards and finalized epochs are neither lost nor
    overwritten. *)
Theorem history_grows st st' : rtc step st st' → grows st st'.
Proof using checked. apply (steps_grow checked). Qed.
End Closed.
