(* ===== verification/Accounts.v ===== *)
(** * Accounts: who may act, and what transfers and claims pay

    Authorization of accepted transactions, and the functional behaviour of
    [apply_transfer] and [apply_claim_reward] on balances. *)
From S2P Require Import Prelude Primitives Params Records Crypto Store Transitions Executor.
From S2P Require Import Ledger Governance Solvency Finality.

(** The public key, acting address and signature of a transaction. *)
Definition signer_of (tx : Transaction) : bytes * bytes * bytes :=
  match tx with
  | Transfer t => (tr_pubkey t, tr_from t, tr_signature t)
  | Stake t => (st_pubkey t, st_delegator t, st_signature t)
  | Unbond t => (un_pubkey t, un_delegator t, un_signature t)
  | ClaimReward t => (cl_pubkey t, cl_claimer t, cl_signature t)
  | SubmitBatch t => (sb_pubkey t, bc_collector_id (sb_batch_commit t), sb_signature t)
  | CommitEpoch t => (ce_pubkey t, proposer_id (ce_epoch_commit t), ce_signature t)
  | OpenChallenge t => (oc_pubkey t, challenger (oc_challenge t), oc_signature t)
  | ChallengeResponse t => (rt_pubkey t, rt_responder t, rt_signature t)
  | Vote t => (vt_pubkey t, vt_voter t, vt_signature t)
  | ProposeProtocolParamsUpdate t => (pp_pubkey t, pp_proposer t, pp_signature t)
  end.

Section Authorization.
Context `{B : BuildMode} `{X : External}.

(** a transaction changes the state only if it is authorized: when the key
    does not hash to the acting address, or the signature does not verify over the
    transaction's signing payload under that key, the transaction is rejected and
    the state is unchanged. *)
Theorem unauthorized_rejected tx (st : pstate) payload r st' :
  let '(pk, who, sg) := signer_of tx in
  signing_payload tx = Some payload →
  stable_hash32 pk ≠ who ∨ verify_signature pk payload sg = false →
  apply_transaction tx st = (r, st') → is_ok r = false ∧ st' = st.
Proof.
  destruct (signer_of tx) as [[pk who] sg] eqn:Hs. intros Hpay Hbad Htx.
  assert (∀ A (k : unit → method InMemoryStore A),
    m_bind (check_signature tx pk who sg) k st = (Err InvalidSigner, st) ∨
    m_bind (check_signature tx pk who sg) k st = (Err InvalidSignature, st)) as Hrej.
  { intros A k. unfold check_signature, m_bind, chk, lift, ensure_signature. rewrite Hpay. simpl.
    case_bool_decide; simpl; [|by left]. destruct Hbad as [|Hv]; [done|]. rewrite Hv. by right. }
  destruct tx as [t|t|t|t|t|t|t|t|t|t]; simpl in *; simplify_eq;
    unfold apply_transfer, apply_stake, apply_unbond, apply_claim_reward, apply_submit_batch,
      apply_commit_epoch, apply_open_challenge, apply_challenge_response, apply_vote,
      apply_propose_protocol_params_update in Htx; cbv zeta in Htx;
    lazymatch type of Htx with
    | m_bind _ ?k _ = _ => destruct (Hrej _ k) as [E|E]; rewrite E in Htx; by simplify_eq
    end.
Qed.
End Authorization.

Section Payments.
Context `{B : BuildMode} `{X : External} (checked : overflow_checks = true).

(** a successful transfer debits the sender with amount plus fee and credits
    the recipient with the amount (net effect for a transfer to oneself: the fee);
    no other balance and no other part of the state changes. *)
Theorem transfer_moves tx st eff st' :
  apply_transfer tx st = (Ok eff, st') →
  (∃ accs, st' = set_store st (set_accounts (store st) accs)) ∧
  ∀ a, balance_of (accounts (store st')) a = balance_of (accounts (store st)) a
    - (if decide (tr_from tx = a) then saturating_add 128 (tr_amount tx) (tr_fee tx) else 0)
    + (if decide (tr_to tx = a) then tr_amount tx else 0).
Proof using checked.
  intros Htx. enough (wp (apply_transfer tx) (λ r st', is_ok r = true →
    (∃ accs, st' = set_store st (set_accounts (store st) accs)) ∧
    ∀ a, balance_of (accounts (store st')) a = balance_of (accounts (store st)) a
      - (if decide (tr_from tx = a) then saturating_add 128 (tr_amount tx) (tr_fee tx) else 0)
      + (if decide (tr_to tx = a) then tr_amount tx else 0)) st) as Hwp.
  { by apply (wp_elim _ _ _ _ _ Hwp Htx). }
  clear Htx. unfold apply_transfer. wp_run; try done. simpl in *. checked_facts checked. intros _.
  split; [by eexists|]. intros a'. rewrite !balance_of_insert. simpl.
  account_facts; unfold balance_of; repeat case_decide; subst; try congruence;
    repeat match goal with H : accounts (store st) !! _ = Some _ |- _ => rewrite H; clear H end;
    simpl; lia.
Qed.

(** a successful claim is for a finalized epoch and a reward not claimed
    before, is made by the node's reward address, pays exactly the recorded net
    reward to it, and marks the reward claimed. *)
Theorem claim_pays_net_reward tx st eff st' :
  apply_claim_reward tx st = (Ok eff, st') →
  let key := (cl_epoch_id tx, cl_node_id tx) in
  ∃ rw n, cl_epoch_id tx ∈ finalized_epochs (store st) ∧ (key ∉ claimed_rewards (store st)) ∧
    reward_records (store st) !! key = Some rw ∧ nodes (store st) !! cl_node_id tx = Some n ∧
    reward_address n = cl_claimer tx ∧
    claimed_rewards (store st') = {[ key ]} ∪ claimed_rewards (store st) ∧
    ∀ a, balance_of (accounts (store st')) a = balance_of (accounts (store st)) a
      + (if decide (cl_claimer tx = a) then net_reward rw else 0).
Proof using checked.
  intros Htx key. enough (wp (apply_claim_reward tx) (λ r st', is_ok r = true →
    ∃ rw n, cl_epoch_id tx ∈ finalized_epochs (store st) ∧ (key ∉ claimed_rewards (store st)) ∧
    reward_records (store st) !! key = Some rw ∧ nodes (store st) !! cl_node_id tx = Some n ∧
    reward_address n = cl_claimer tx ∧
    claimed_rewards (store st') = {[ key ]} ∪ claimed_rewards (store st) ∧
    ∀ a, balance_of (accounts (store st')) a = balance_of (accounts (store st)) a
      + (if decide (cl_claimer tx = a) then net_reward rw else 0)) st) as Hwp.
  { by apply (wp_elim _ _ _ _ _ Hwp Htx). }
  clear Htx. unfold apply_claim_reward. wp_run; try done. simpl in *. intros _.
  apply Z.eqb_eq in H6. apply negb_true_iff in H2. checked_facts checked.
  eexists _, _. split_and!; try done.
  intros a'. rewrite balance_of_insert, <- H6. simpl. case_decide; [subst|lia].
  unfold balance_of. rewrite H7. lia.
Qed.

(** C3: a reward is paid at most once: after a claim of a node's reward for an
    epoch, no claim of it by anyone succeeds again, whatever happens in between. *)
Theorem reward_paid_once t1 t2 st eff st1 st2 eff' st3 :
  apply_claim_reward t1 st = (Ok eff, st1) →
  cl_epoch_id t2 = cl_epoch_id t1 → cl_node_id t2 = cl_node_id t1 →
  rtc step st1 st2 → apply_claim_reward t2 st2 ≠ (Ok eff', st3).
Proof using checked.
  intros H1 He Hn Hsteps H2.
  assert (spent (ClaimReward t2) st2) as Hsp.
  { eapply spent_grows; [by apply (steps_grow checked)|]. simpl. rewrite He, Hn.
    by apply (wp_elim _ _ _ _ _ (accepted_spent checked (ClaimReward t1) st) H1). }
  by pose proof (wp_elim _ _ _ _ _ (spent_rejected checked (ClaimReward t2) st2 Hsp) H2 ltac:(done)).
Qed.
End Payments.
