(* ===== verification/Tokenomics.v ===== *)
(** * Tokenomics: src/src/tokenomics.rs

    The emission schedule, the per-block budgets and the activity adjustment of
    the annual emission, with the integer square root it uses. [None] is a panic
    (an overflow with checks on, or a division by zero). *)
From S2P Require Import Prelude Primitives.

Definition TOTAL_SUPPLY : Amount := 1000000000.
Definition INITIAL_EMISSION_RATE_BPS : Z := 2000.
Definition LONG_TERM_TAIL_START_YEAR : Z := 4.
Definition LONG_TERM_TAIL_EMISSION_RATE_BPS : Z := 200.
Definition PLAYER_REWARD_ALLOCATION_BPS : Z := 8000.
Definition SERVICE_REWARD_ALLOCATION_BPS : Z := 1000.
Definition TREASURY_ALLOCATION_BPS : Z := 500.
Definition TEAM_ALLOCATION_BPS : Z := 300.
Definition EARLY_SUPPORTER_ALLOCATION_BPS : Z := 200.
Definition HOURS_PER_YEAR : Z := 24 * 365.
Definition ANNUAL_EMISSION_ADJUSTMENT_CAP_BPS : Z := 1000.

Record AllocationBreakdown := {
  player_rewards : Amount;
  service_rewards : Amount;
  treasury : Amount;
  team : Amount;
  early_supporters : Amount;
}.

Record AnnualEmissionSchedule := {
  aes_year : Z;
  nominal_rate_bps : Z;
  annual_emission_of : Amount;
  cumulative_emission : Amount;
}.

Definition proportional_amount (total : Amount) (bps : Z) : Amount :=
  saturating_mul 128 total bps / 10000.

Definition allocation_breakdown : AllocationBreakdown := {|
  player_rewards := proportional_amount TOTAL_SUPPLY PLAYER_REWARD_ALLOCATION_BPS;
  service_rewards := proportional_amount TOTAL_SUPPLY SERVICE_REWARD_ALLOCATION_BPS;
  treasury := proportional_amount TOTAL_SUPPLY TREASURY_ALLOCATION_BPS;
  team := proportional_amount TOTAL_SUPPLY TEAM_ALLOCATION_BPS;
  early_supporters := proportional_amount TOTAL_SUPPLY EARLY_SUPPORTER_ALLOCATION_BPS |}.

(** [for _ in 0..n { rate /= 2; if rate == 0 { break } }] *)
Fixpoint halve_rate (n : nat) (rate : Z) : Z :=
  match n with
  | O => rate
  | S n => let rate := rate / 2 in if rate =? 0 then rate else halve_rate n rate
  end.

Definition annual_emission_rate_bps_with_tail (year tail_start_year tail_emission_rate_bps : Z) : Z :=
  if Z.max tail_start_year 1 <=? year then tail_emission_rate_bps
  else halve_rate (Z.to_nat (saturating_sub year 1 / 2)) INITIAL_EMISSION_RATE_BPS.

Definition annual_emission_rate_bps (year : Z) : Z :=
  annual_emission_rate_bps_with_tail year LONG_TERM_TAIL_START_YEAR LONG_TERM_TAIL_EMISSION_RATE_BPS.

Definition annual_emission_amount (year : Z) : Amount :=
  proportional_amount TOTAL_SUPPLY (annual_emission_rate_bps year).

Definition annual_emission_amount_with_tail (year tail_start tail_rate : Z) : Amount :=
  proportional_amount TOTAL_SUPPLY (annual_emission_rate_bps_with_tail year tail_start tail_rate).

(** The loop over [1..=years], from the years left and the running total. *)
Fixpoint emission_rows `{BuildMode} (tail_start tail_rate year cumulative : Z) (remaining : nat)
    : option (list AnnualEmissionSchedule) :=
  match remaining with
  | O => Some []
  | S remaining =>
      let annual := annual_emission_amount_with_tail year tail_start tail_rate in
      cumulative ← add 128 cumulative annual;
      rows ← emission_rows tail_start tail_rate (year + 1) cumulative remaining;
      Some ({| aes_year := year;
               nominal_rate_bps := annual_emission_rate_bps_with_tail year tail_start tail_rate;
               annual_emission_of := annual; cumulative_emission := cumulative |} :: rows)
  end.

Definition annual_emission_schedule_with_tail `{BuildMode} (years tail_start tail_rate : Z)
    : option (list AnnualEmissionSchedule) :=
  emission_rows tail_start tail_rate 1 0 (Z.to_nat years).

Definition annual_emission_schedule `{BuildMode} (years : Z) : option (list AnnualEmissionSchedule) :=
  annual_emission_schedule_with_tail years LONG_TERM_TAIL_START_YEAR LONG_TERM_TAIL_EMISSION_RATE_BPS.

Definition annual_player_rewards_emission (year : Z) : Amount :=
  proportional_amount (annual_emission_amount year) PLAYER_REWARD_ALLOCATION_BPS.
Definition annual_player_rewards_emission_with_tail (year tail_start tail_rate : Z) : Amount :=
  proportional_amount (annual_emission_amount_with_tail year tail_start tail_rate)
    PLAYER_REWARD_ALLOCATION_BPS.
Definition annual_service_rewards_emission (year : Z) : Amount :=
  proportional_amount (annual_emission_amount year) SERVICE_REWARD_ALLOCATION_BPS.
Definition annual_service_rewards_emission_with_tail (year tail_start tail_rate : Z) : Amount :=
  proportional_amount (annual_emission_amount_with_tail year tail_start tail_rate)
    SERVICE_REWARD_ALLOCATION_BPS.

Definition base_player_reward_per_block_with_tail (year reward_block_secs tail_start tail_rate : Z)
    : Amount :=
  if reward_block_secs =? 0 then 0 else
  let annual_player_budget := annual_player_rewards_emission_with_tail year tail_start tail_rate in
  let blocks_per_year := HOURS_PER_YEAR * 3600 / reward_block_secs in
  if blocks_per_year =? 0 then 0 else annual_player_budget / blocks_per_year.
Definition base_player_reward_per_block (year reward_block_secs : Z) : Amount :=
  base_player_reward_per_block_with_tail year reward_block_secs LONG_TERM_TAIL_START_YEAR
    LONG_TERM_TAIL_EMISSION_RATE_BPS.

Definition base_service_reward_per_block_with_tail (year reward_block_secs tail_start tail_rate : Z)
    : Amount :=
  if reward_block_secs =? 0 then 0 else
  let annual_service_budget := annual_service_rewards_emission_with_tail year tail_start tail_rate in
  let blocks_per_year := HOURS_PER_YEAR * 3600 / reward_block_secs in
  if blocks_per_year =? 0 then 0 else annual_service_budget / blocks_per_year.
Definition base_service_reward_per_block (year reward_block_secs : Z) : Amount :=
  base_service_reward_per_block_with_tail year reward_block_secs LONG_TERM_TAIL_START_YEAR
    LONG_TERM_TAIL_EMISSION_RATE_BPS.

(** [(x0 + value / x0) / 2] *)
Definition newton_step `{BuildMode} (value x0 : Z) : option Z :=
  q ← div_checked value x0; s ← add 128 x0 q; Some (s / 2).

(** [while x1 < x0 { x0 = x1; x1 = ... }]; 130 iterations are
    enough for 128 bits, as the correctness theorem shows. *)
Fixpoint newton_loop `{BuildMode} (fuel : nat) (value x0 x1 : Z) : option Z :=
  match fuel with
  | O => None
  | S fuel =>
      if x1 <? x0 then x2 ← newton_step value x1; newton_loop fuel value x1 x2 else Some x0
  end.

Definition integer_sqrt `{BuildMode} (value : Amount) : option Amount :=
  if value <? 2 then Some value else x1 ← newton_step value value; newton_loop 130 value value x1.

Definition annual_emission_activity_factor `{BuildMode} (target current : Amount) (cap_bps : Z)
    : option Amount :=
  if (target =? 0) || (current =? 0) then Some 1000000 else
  let cap_ppm := Z.min cap_bps 10000 * 100 in
  let lower := saturating_sub 1000000 cap_ppm in
  let upper := saturating_add 128 1000000 cap_ppm in
  let scaled_ratio := saturating_mul 128 target 1000000000000 / current in
  r ← integer_sqrt scaled_ratio; Some (Z.max lower (Z.min r upper)).

Definition annual_emission `{BuildMode} (year : Z) (target current : Amount) (cap_bps : Z)
    : option Amount :=
  let base := annual_emission_amount year in
  factor ← annual_emission_activity_factor target current cap_bps;
  Some (saturating_mul 128 base factor / 1000000).

(** * Theorems *)

(** ** The integer square root *)

Section Sqrt.
Context `{B : BuildMode}.

Lemma newton_lower v x : 0 < x → 0 <= v → Z.sqrt v <= (x + v / x) / 2.
Proof.
  intros Hx Hv. pose proof (Z.sqrt_spec v Hv) as [Hs _]. set (s := Z.sqrt v) in *.
  pose proof (Z.square_nonneg (s - x)).
  assert (2 * s - x <= v / x) by (apply Z.div_le_lower_bound; [done|nia]).
  apply Z.div_le_lower_bound; lia.
Qed.

Lemma newton_halves v x : 0 <= v → Z.sqrt v < x → (x + v / x) / 2 <= (x + Z.sqrt v) / 2.
Proof.
  intros Hv Hx. pose proof (Z.sqrt_spec v Hv) as [_ Hs]. pose proof (Z.sqrt_nonneg v).
  set (s := Z.sqrt v) in *.
  assert (v / x < s + 1) by (apply Z.div_lt_upper_bound; [lia|nia]).
  apply Z.div_le_mono; lia.
Qed.

Lemma newton_step_exact v x :
  1 < v < 2 ^ 128 - 1 → 0 < x <= v → newton_step v x = Some ((x + v / x) / 2).
Proof.
  intros Hv Hx. unfold newton_step, div_checked. rewrite (proj2 (Z.eqb_neq x 0)) by lia. simpl.
  assert (v / x <= v + 1 - x).
  { apply Z.lt_succ_r, Z.div_lt_upper_bound; [lia|]. nia. }
  assert (0 <= v / x) by (apply Z.div_pos; lia).
  rewrite add_exact by lia. done.
Qed.

Lemma newton_loop_ok fuel v x :
  1 < v < 2 ^ 128 - 1 → Z.sqrt v <= x <= v → x - Z.sqrt v < 2 ^ Z.of_nat fuel →
  newton_loop (S fuel) v x ((x + v / x) / 2) = Some (Z.sqrt v).
Proof.
  intros Hv. assert (0 < Z.sqrt v) as Hs by (apply Z.sqrt_pos; lia).
  revert x. induction fuel as [|fuel IH]; intros x Hx Hf.
  - assert (x = Z.sqrt v) as -> by lia. simpl.
    pose proof (newton_lower v (Z.sqrt v) Hs ltac:(lia)).
    by rewrite (proj2 (Z.ltb_ge _ _)) by lia.
  - set (f := S fuel) in *. simpl. unfold f in *.
    pose proof (newton_lower v x ltac:(lia) ltac:(lia)).
    destruct (Z.ltb_spec ((x + v / x) / 2) x) as [Hlt|Hge].
    + assert (Z.sqrt v < x) by lia. pose proof (newton_halves v x ltac:(lia) ltac:(done)) as Hh.
      rewrite newton_step_exact by lia. simpl. apply IH; [lia|].
      rewrite Nat2Z.inj_succ, Z.pow_succ_r in Hf by lia.
      assert ((x + Z.sqrt v) / 2 < Z.sqrt v + 2 ^ Z.of_nat fuel); [|lia].
      apply Z.div_lt_upper_bound; lia.
    + f_equal. destruct (decide (Z.sqrt v = x)) as [|Hne]; [done|].
      pose proof (newton_halves v x ltac:(lia) ltac:(lia)) as Hh.
      assert ((x + Z.sqrt v) / 2 < x) by (apply Z.div_lt_upper_bound; lia). lia.
Qed.

Lemma integer_sqrt_ok v : 0 <= v < 2 ^ 128 - 1 → integer_sqrt v = Some (Z.sqrt v).
Proof.
  intros Hv. unfold integer_sqrt. destruct (Z.ltb_spec v 2) as [Hlt|Hge].
  - assert (v = 0 ∨ v = 1) as [-> | ->] by lia; done.
  - rewrite newton_step_exact by lia. simpl.
    assert (Z.sqrt v < v) by (apply Z.sqrt_lt_lin; lia).
    pose proof (Z.sqrt_nonneg v).
    apply (newton_loop_ok 129); [lia..|].
    assert (2 ^ 128 <= 2 ^ Z.of_nat 129) by (apply Z.pow_le_mono_r; lia). lia.
Qed.

Lemma integer_sqrt_max : integer_sqrt (2 ^ 128 - 1) = None.
Proof. destruct B; vm_compute; reflexivity. Qed.

(** C14: the Newton iteration terminates and computes the floor of the square root
    for every 128-bit value but the largest, in either build; on the largest it
    panics in every build (the first addition overflows; without overflow checks it
    wraps to zero, which the next iteration divides by). *)
Theorem integer_sqrt_correct v :
  0 <= v < 2 ^ 128 →
  integer_sqrt v = if decide (v = 2 ^ 128 - 1) then None else Some (Z.sqrt v).
Proof.
  intros Hv. case_decide as Hd; [rewrite Hd; apply integer_sqrt_max|]. apply integer_sqrt_ok. lia.
Qed.
End Sqrt.

Lemma integer_sqrt_correct_witness :
  @integer_sqrt false 1000000 =
    if decide (1000000 = 2 ^ 128 - 1) then None else Some (Z.sqrt 1000000).
Proof. apply integer_sqrt_correct. lia. Defined.

(** ** The activity factor *)

Section Activity.
Context `{B : BuildMode}.

(** The quotient saturates to the largest value only when the network weight is
    one unit and the target does not fit. *)
Lemma scaled_ratio_max t c :
  0 < t → 0 < c →
  saturating_mul 128 t 1000000000000 / c = 2 ^ 128 - 1 ↔ c = 1 ∧ 2 ^ 128 - 1 <= t * 1000000000000.
Proof.
  intros Ht Hc. unfold saturating_mul, umax. set (n := Z.min _ _).
  assert (0 < n <= 2 ^ 128 - 1) as Hn by lia. split.
  - intros Heq. assert (c = 1) as ->.
    { destruct (decide (c = 1)) as [|Hne]; [done|].
      assert (n / c < n) by (apply Z.div_lt; lia). lia. }
    rewrite Z.div_1_r in Heq. lia.
  - intros [-> Hle]. rewrite Z.div_1_r. lia.
Qed.

(** The activity factor is the floor of [sqrt(target / actual)] in parts per
    million (scaled as in the code), clamped to one plus or minus the cap; it is
    one when either weight is zero; and it panics in exactly one case, an actual
    weight of one unit with a target whose scaled value does not fit in 128 bits. *)
Theorem activity_factor_spec t c cap :
  0 <= t < 2 ^ 128 → 0 <= c < 2 ^ 128 → 0 <= cap →
  let cap_ppm := Z.min cap 10000 * 100 in
  annual_emission_activity_factor t c cap =
    if decide (t = 0 ∨ c = 0) then Some 1000000
    else if decide (c = 1 ∧ 2 ^ 128 - 1 <= t * 1000000000000) then None
    else Some (Z.max (1000000 - cap_ppm)
      (Z.min (Z.sqrt (saturating_mul 128 t 1000000000000 / c)) (1000000 + cap_ppm))).
Proof.
  intros Ht Hc Hcap cap_ppm. unfold annual_emission_activity_factor.
  case_decide as Hz.
  { destruct Hz as [->| ->]; rewrite ?orb_true_r; done. }
  assert (t ≠ 0 ∧ c ≠ 0) as [Ht0 Hc0] by tauto.
  rewrite (proj2 (Z.eqb_neq t 0)), (proj2 (Z.eqb_neq c 0)) by done. simpl.
  pose proof (scaled_ratio_max t c ltac:(lia) ltac:(lia)) as Hmax.
  pose proof (saturating_mul_range 128 t 1000000000000 ltac:(lia) ltac:(lia) ltac:(lia)) as Hr.
  set (q := saturating_mul 128 t 1000000000000 / c) in *.
  assert (0 <= q <= 2 ^ 128 - 1) as Hq.
  { split; [apply Z.div_pos; lia|]. apply Z.lt_succ_r, Z.div_lt_upper_bound; nia. }
  case_decide as Hd.
  { apply Hmax in Hd. rewrite Hd, integer_sqrt_max. done. }
  rewrite <- Hmax in Hd.
  rewrite integer_sqrt_ok by lia.
  simpl. unfold saturating_sub. rewrite saturating_add_exact by lia. f_equal. unfold cap_ppm. lia.
Qed.
End Activity.

Lemma activity_factor_spec_witness :
  @annual_emission_activity_factor false 400 100 1000 = Some 1100000.
Proof.
  rewrite (@activity_factor_spec false 400 100 1000) by lia. reflexivity.
Defined.

(** ** The schedule *)

Lemma halve_rate_spec n rate : 0 <= rate → halve_rate n rate = rate / 2 ^ Z.of_nat n.
Proof.
  revert rate. induction n as [|n IH]; intros rate Hr; simpl halve_rate.
  - by rewrite Z.div_1_r.
  - rewrite Nat2Z.inj_succ, Z.pow_succ_r, <- Z.div_div by lia.
    destruct (Z.eqb_spec (rate / 2) 0) as [->|]; [by rewrite Z.div_0_l by lia|].
    apply IH, Z.div_pos; lia.
Qed.

(** Before the tail the emission rate halves every two years, from 20 percent:
    year [y] emits [2000 / 2^((y-1)/2)] basis points; from the tail's first year on
    it is the tail rate. *)
Theorem emission_rate_halves year tail_start tail_rate :
  1 <= year →
  annual_emission_rate_bps_with_tail year tail_start tail_rate =
    if decide (Z.max tail_start 1 <= year) then tail_rate
    else 2000 / 2 ^ ((year - 1) / 2).
Proof.
  intros Hy. unfold annual_emission_rate_bps_with_tail.
  destruct (Z.leb_spec (Z.max tail_start 1) year); case_decide; try lia.
  rewrite halve_rate_spec by done. unfold saturating_sub.
  rewrite Z.max_r by lia. rewrite Z2Nat.id by (apply Z.div_pos; lia). done.
Qed.

Lemma emission_rate_halves_witness :
  annual_emission_rate_bps_with_tail 3 10 200 =
    if decide (Z.max 10 1 <= 3) then 200 else 2000 / 2 ^ ((3 - 1) / 2).
Proof. apply (emission_rate_halves 3 10 200). lia. Defined.

Lemma emission_amount_bound year tail_start tail_rate :
  0 <= tail_rate < 2 ^ 16 →
  0 <= annual_emission_amount_with_tail year tail_start tail_rate < 2 ^ 48.
Proof.
  intros Ht. unfold annual_emission_amount_with_tail, proportional_amount.
  assert (0 <= annual_emission_rate_bps_with_tail year tail_start tail_rate < 2 ^ 16) as Hr.
  { unfold annual_emission_rate_bps_with_tail. destruct (_ <=? _); [done|].
    rewrite halve_rate_spec by done. unfold INITIAL_EMISSION_RATE_BPS.
    set (k := 2 ^ Z.of_nat _). assert (0 < k) by (apply Z.pow_pos_nonneg; lia).
    split; [apply Z.div_pos; lia|]. apply Z.div_lt_upper_bound; nia. }
  rewrite saturating_mul_exact by (unfold TOTAL_SUPPLY; lia). unfold TOTAL_SUPPLY.
  split; [apply Z.div_pos; lia|]. apply Z.div_lt_upper_bound; lia.
Qed.

(** The emissions of the years [first .. first + n - 1]. *)
Definition emitted (tail_start tail_rate first : Z) (n : nat) : Z :=
  lsum (λ i, annual_emission_amount_with_tail (first + Z.of_nat i) tail_start tail_rate) (seq 0 n).

Lemma emitted_succ ts tr first n :
  emitted ts tr first (S n) =
    annual_emission_amount_with_tail first ts tr + emitted ts tr (first + 1) n.
Proof.
  unfold emitted. simpl. rewrite Z.add_0_r. f_equal.
  rewrite <- (fmap_S_seq 0 n), lsum_fmap. apply lsum_ext. intros i _. unfold compose. f_equal. lia.
Qed.

Lemma emitted_bound ts tr first n :
  0 <= tr < 2 ^ 16 → 0 <= emitted ts tr first n <= Z.of_nat n * 2 ^ 48.
Proof.
  intros Ht. revert first. induction n as [|n IH]; intros first; [done|].
  rewrite emitted_succ. pose proof (emission_amount_bound first ts tr Ht).
  specialize (IH (first + 1)). lia.
Qed.

Section Schedule.
Context `{B : BuildMode}.

Lemma emission_rows_spec ts tr year acc n :
  0 <= tr < 2 ^ 16 → 0 <= acc → acc + Z.of_nat n * 2 ^ 48 < 2 ^ 128 →
  ∃ rows, emission_rows ts tr year acc n = Some rows ∧ length rows = n ∧
    ∀ i row, rows !! i = Some row → aes_year row = year + Z.of_nat i ∧
      annual_emission_of row = annual_emission_amount_with_tail (year + Z.of_nat i) ts tr ∧
      cumulative_emission row = acc + emitted ts tr year (S i).
Proof.
  intros Ht. revert year acc. induction n as [|n IH]; intros year acc Ha Hb; simpl.
  { by exists []. }
  pose proof (emission_amount_bound year ts tr Ht) as He.
  rewrite add_exact by lia. simpl.
  destruct (IH (year + 1) (acc + annual_emission_amount_with_tail year ts tr))
    as (rows & -> & Hlen & Hrows); [lia..|]. simpl.
  eexists. split; [done|]. split; [simpl; by rewrite Hlen|].
  intros [|i] row; simpl.
  - intros [= <-]. simpl. rewrite emitted_succ. unfold emitted. simpl. split_and!; [lia|f_equal; lia|lia].
  - intros Hi. destruct (Hrows _ _ Hi) as (Hy & Ha' & Hc). rewrite (emitted_succ _ _ year (S i)).
    rewrite Hy, Ha', Hc. split_and!; [lia|f_equal; lia|lia].
Qed.

(** The emission schedule has one row per year, in order, each with the year's
    emission and the exact running total; computing it never overflows. *)
Theorem emission_schedule_cumulative years tail_start tail_rate :
  0 <= years < 2 ^ 32 → 0 <= tail_rate < 2 ^ 16 →
  ∃ rows, annual_emission_schedule_with_tail years tail_start tail_rate = Some rows ∧
    length rows = Z.to_nat years ∧
    ∀ i row, rows !! i = Some row → aes_year row = 1 + Z.of_nat i ∧
      annual_emission_of row =
        annual_emission_amount_with_tail (1 + Z.of_nat i) tail_start tail_rate ∧
      cumulative_emission row = emitted tail_start tail_rate 1 (S i).
Proof.
  intros Hy Ht. destruct (emission_rows_spec tail_start tail_rate 1 0 (Z.to_nat years))
    as (rows & He & Hl & Hr); [lia..|]. exists rows. split_and!; [done..|].
  intros i row Hi. destruct (Hr i row Hi) as (? & ? & ?). split_and!; [done..|lia].
Qed.
End Schedule.

Lemma emission_schedule_cumulative_witness :
  ∃ rows, @annual_emission_schedule_with_tail true 4 4 200 = Some rows ∧
    length rows = Z.to_nat 4 ∧
    ∀ i row, rows !! i = Some row → aes_year row = 1 + Z.of_nat i ∧
      annual_emission_of row = annual_emission_amount_with_tail (1 + Z.of_nat i) 4 200 ∧
      cumulative_emission row = emitted 4 200 1 (S i).
Proof. apply (@emission_schedule_cumulative true 4 4 200); lia. Defined.
