(* ===== verification/Rewards.v ===== *)
(** * Reward allocation: src/src/node_rewards.rs

    The two proportional allocators (largest remainder), the service pools of an
    epoch, the block reward adjustment and the merging of reward components into
    records. [None] is a panic. *)
From S2P Require Import Prelude Primitives Records Crypto Tokenomics.

(** ** Configuration the rewards depend on (src/src/node_config.rs) *)

Inductive RewardSourceMode := Static | Tokenomics.

Record RewardGameMapping := {
  process_name : string;
  gm_app_id : AppId;
  game_coefficient_ppm : Z;
}.

Record RewardConfig := {
  reward_source : RewardSourceMode;
  rc_emission_year : Z;
  rc_reward_block_secs : Z;
  player_block_reward : Amount;
  reward_adjustment_period_blocks : Z;
  rc_target_network_weight_units : Amount;
  rc_reward_adjustment_cap_bps : Z;
  rc_collect_reward_bps : Z;
  rc_store_reward_bps : Z;
  rc_verify_reward_bps : Z;
  rc_propose_reward_bps : Z;
  rc_tail_emission_start_year : Z;
  rc_tail_emission_rate_bps : Z;
  game_mappings : list RewardGameMapping;
}.

Record CapabilityConfig := {
  cap_collect : bool;
  cap_store : bool;
  cap_verify : bool;
  cap_propose : bool;
  cap_archive : bool;
}.

Definition base_player_block_reward (c : RewardConfig) : Amount :=
  match reward_source c with
  | Static => player_block_reward c
  | Tokenomics => Z.max (base_player_reward_per_block_with_tail (rc_emission_year c)
      (rc_reward_block_secs c) (rc_tail_emission_start_year c) (rc_tail_emission_rate_bps c)) 1
  end.

(** ** The allocators *)

(** The first loop of both allocators: the floor share of each weight, the total
    handed out, and the remainders. The witness allocator skips zero credits. *)
Fixpoint share_loop {K} `{Countable K} (skip_zero : bool) (pool total : Amount) (l : list (K * Z))
    (allocations : gmap K Z) (distributed : Amount) (remainders : list (Z * K))
    : gmap K Z * Amount * list (Z * K) :=
  match l with
  | [] => (allocations, distributed, remainders)
  | (k, weight) :: l =>
      if skip_zero && (weight =? 0) then
        share_loop skip_zero pool total l (<[k := 0]> allocations) distributed remainders
      else
        let numerator := saturating_mul 128 pool weight in
        let share := numerator / total in
        let remainder := numerator mod total in
        share_loop skip_zero pool total l (<[k := share]> allocations)
          (saturating_add 128 distributed share) (remainders ++ [(remainder, k)])
  end.

(** [while leftover > 0 && !remainders.is_empty()], round robin; [n] is the
    leftover. *)
Fixpoint hand_out_cyclic `{BuildMode} {K} `{Countable K} (n index : nat) (remainders : list (Z * K))
    (allocations : gmap K Z) : option (gmap K Z) :=
  match n with
  | O => Some allocations
  | S n =>
      match remainders !! (index mod length remainders)%nat with
      | None => Some allocations
      | Some (_, k) =>
          x ← add 128 (default 0 (allocations !! k)) 1;
          hand_out_cyclic n (S index) remainders (<[k := x]> allocations)
      end
  end.

(** [while leftover > 0 && index < remainders.len()] *)
Fixpoint hand_out_once `{BuildMode} {K} `{Countable K} (n : nat) (remainders : list (Z * K))
    (allocations : gmap K Z) : option (gmap K Z) :=
  match n, remainders with
  | O, _ | _, [] => Some allocations
  | S n, (_, k) :: remainders =>
      match allocations !! k with
      | Some entry => x ← add 128 entry 1; hand_out_once n remainders (<[k := x]> allocations)
      | None => hand_out_once n remainders allocations
      end
  end.

Definition allocate_proportional `{BuildMode} (weights : gmap NodeId Z) (pool : Amount)
    : option (gmap NodeId Z) :=
  if (pool =? 0) || bool_decide (weights = ∅) then Some ∅ else
  total_weight ← sum_checked 128 (bt_values weights);
  if total_weight =? 0 then Some ∅ else
  let '(allocations, distributed, remainders) :=
    share_loop false pool total_weight (bt_iter weights) ∅ 0 [] in
  let remainders := sort_by (λ left right, leb right left) remainders in
  hand_out_cyclic (Z.to_nat (saturating_sub pool distributed)) 0 remainders allocations.

(** Largest remainder first, ties by ascending address. *)
Definition witness_order (l r : Z * string) : bool :=
  match cmp r.1 l.1 with Lt => true | Gt => false | Eq => leb l.2 r.2 end.

Definition allocate_witness_rewards `{BuildMode} (credits : gmap string Z) (pool : Amount)
    : option (gmap string Z) :=
  let total_credits := foldl (saturating_add 64) 0 (bt_values credits) in
  if (pool =? 0) || (total_credits =? 0) then Some ((λ _, 0) <$> credits) else
  let '(allocation, distributed, remainders) :=
    share_loop true pool total_credits (bt_iter credits) ∅ 0 [] in
  let remainders := sort_by witness_order remainders in
  hand_out_once (Z.to_nat (saturating_sub pool distributed)) remainders allocation.

(** ** Pools and adjustments *)

Definition reward_units_from_gvs (gvs_microunits : Z) : Amount := gvs_microunits / 1000000.

Record ServiceRewardPools := {
  collect_pool : Amount;
  store_pool : Amount;
  verify_pool : Amount;
  propose_pool : Amount;
}.

Definition proportional_service_pool (base_service_pool : Amount) (bps : Z) : Amount :=
  if (base_service_pool =? 0) || (bps =? 0) then 0
  else Z.max (saturating_mul 128 base_service_pool bps / 10000) 1.

(** [proportional_amount] of node_rewards.rs *)
Definition proportional_reward (pool weight total_weight : Amount) : Amount :=
  if (pool =? 0) || (weight =? 0) || (total_weight =? 0) then 0
  else saturating_mul 128 pool weight / total_weight.

Definition service_reward_pools_for_epoch `{BuildMode} (reward : RewardConfig)
    (capabilities : CapabilityConfig) (player_block_count total_gvs_units : Z)
    (has_retention_records has_aggregation_groups has_witness_credits : bool)
    : option ServiceRewardPools :=
  match reward_source reward with
  | Static =>
      verify ←
        (if (0 <? total_gvs_units) && (cap_verify capabilities && has_aggregation_groups)
         then Some (Z.max (total_gvs_units / 10) 1)
         else if has_witness_credits && (0 <? player_block_count)
         then v ← mul 128 player_block_count 100; Some (Z.max v 1)
         else Some 0);
      Some {|
        collect_pool := total_gvs_units;
        store_pool := if (0 <? total_gvs_units) && has_retention_records
                      then Z.max (total_gvs_units / 5) 1 else 0;
        verify_pool := verify;
        propose_pool := if (0 <? total_gvs_units) && cap_propose capabilities && has_aggregation_groups
                        then Z.max (total_gvs_units / 20) 1 else 0 |}
  | Tokenomics =>
      let base_service_pool := saturating_mul 128
        (base_service_reward_per_block (rc_emission_year reward) (rc_reward_block_secs reward))
        player_block_count in
      Some {|
        collect_pool := proportional_service_pool base_service_pool (rc_collect_reward_bps reward);
        store_pool := if has_retention_records
          then proportional_service_pool base_service_pool (rc_store_reward_bps reward) else 0;
        verify_pool := if (cap_verify capabilities && has_aggregation_groups) || has_witness_credits
          then proportional_service_pool base_service_pool (rc_verify_reward_bps reward) else 0;
        propose_pool := if cap_propose capabilities && has_aggregation_groups
          then proportional_service_pool base_service_pool (rc_propose_reward_bps reward) else 0 |}
  end.

Definition adjusted_player_block_reward `{BuildMode} (base target current : Amount) (cap : Z)
    : option Amount :=
  if base =? 0 then Some 0 else
  if (target =? 0) || (current =? 0) then Some base else
  let cap_bps := Z.min cap 10000 in
  let lower_bound := saturating_mul 128 base (saturating_sub 10000 cap_bps) / 10000 in
  let upper_bound := saturating_mul 128 base (saturating_add 128 10000 cap_bps) / 10000 in
  let scaled_ratio := saturating_mul 128 target 1000000000000 / current in
  ratio_sqrt ← integer_sqrt scaled_ratio;
  let adjusted := saturating_mul 128 base ratio_sqrt / 1000000 in
  Some (Z.max (Z.max lower_bound (Z.min adjusted upper_bound)) 1).

(** ** Reward records *)

Inductive RewardComponent := ComponentCollect | ComponentStore.

Definition empty_reward_record (epoch_id : EpochId) (n : NodeId) : RewardRecord := {|
  rw_epoch_id := epoch_id; rw_node_id := n; recipient_address := ""%string; player_reward := 0;
  collect_reward := 0; store_reward := 0; verify_reward := 0; propose_reward := 0;
  slash_debit := 0; net_reward := 0 |}.

Definition with_rewards (r : RewardRecord) (recipient : string)
    (player collect store verify propose net : Amount) : RewardRecord := {|
  rw_epoch_id := rw_epoch_id r; rw_node_id := rw_node_id r; recipient_address := recipient;
  player_reward := player; collect_reward := collect; store_reward := store;
  verify_reward := verify; propose_reward := propose; slash_debit := slash_debit r;
  net_reward := net |}.

Definition add_component `{BuildMode} (component : RewardComponent) (r : RewardRecord) (amount : Amount)
    : option RewardRecord :=
  match component with
  | ComponentCollect =>
      x ← add 128 (collect_reward r) amount;
      Some (with_rewards r (recipient_address r) (player_reward r) x (store_reward r)
        (verify_reward r) (propose_reward r) (net_reward r))
  | ComponentStore =>
      x ← add 128 (store_reward r) amount;
      Some (with_rewards r (recipient_address r) (player_reward r) (collect_reward r) x
        (verify_reward r) (propose_reward r) (net_reward r))
  end.

Fixpoint merge_components `{BuildMode} (epoch_id : EpochId) (component : RewardComponent)
    (l : list (NodeId * Z)) (rewards : gmap NodeId RewardRecord)
    : option (gmap NodeId RewardRecord) :=
  match l with
  | [] => Some rewards
  | (n, amount) :: l =>
      r ← add_component component (default (empty_reward_record epoch_id n) (rewards !! n)) amount;
      merge_components epoch_id component l (<[n := r]> rewards)
  end.

Definition merge_reward_component `{BuildMode} (rewards : gmap NodeId RewardRecord)
    (epoch_id : EpochId) (component_rewards : gmap NodeId Z) (component : RewardComponent)
    : option (gmap NodeId RewardRecord) :=
  merge_components epoch_id component (bt_iter component_rewards) rewards.

Definition reward_record_for_node (rewards : gmap NodeId RewardRecord) (epoch_id : EpochId)
    (n : NodeId) (recipient : option string) : RewardRecord :=
  let record := default (empty_reward_record epoch_id n) (rewards !! n) in
  match recipient with
  | Some address => if bool_decide (address = ""%string) then record
      else with_rewards record address (player_reward record) (collect_reward record)
        (store_reward record) (verify_reward record) (propose_reward record) (net_reward record)
  | None => record
  end.

Definition witness_node_id (recipient : string) : NodeId := stable_hash32 (string_bytes recipient).

(** The closing loop of [compute_local_epoch_rewards]. *)
Definition settle_net_reward (r : RewardRecord) : RewardRecord :=
  let gross := saturating_add 128 (saturating_add 128 (saturating_add 128 (saturating_add 128
    (player_reward r) (collect_reward r)) (store_reward r)) (verify_reward r)) (propose_reward r) in
  with_rewards r (recipient_address r) (player_reward r) (collect_reward r) (store_reward r)
    (verify_reward r) (propose_reward r) (saturating_sub gross (slash_debit r)).

(** * Theorems *)

Lemma saturating_fold w acc xs :
  0 <= acc → (∀ x, x ∈ xs → 0 <= x) → acc + lsum id xs < 2 ^ w →
  foldl (saturating_add w) acc xs = acc + lsum id xs.
Proof.
  revert acc. induction xs as [|x xs IH]; intros acc Ha Hx Hb; simpl in *; [lia|].
  assert (0 <= x) by set_solver. assert (0 <= lsum id xs) by (apply lsum_nonneg; set_solver).
  change (id x) with x in *. rewrite saturating_add_exact by lia.
  rewrite IH; [lia|lia|set_solver|lia].
Qed.

(** ** Shares and remainders *)

Section Shares.
Context {K : Type} `{Countable K}.
Implicit Types (l : list (K * Z)) (m : gmap K Z).

Definition share_of (pool total : Z) (kw : K * Z) : Z := pool * kw.2 / total.
Definition remainder_of (pool total : Z) (kw : K * Z) : Z * K := (pool * kw.2 mod total, kw.1).
Definition weight_sum l : Z := lsum snd l.

Lemma share_identity pool total l :
  total ≠ 0 →
  total * lsum (share_of pool total) l + lsum fst (remainder_of pool total <$> l)
    = pool * weight_sum l.
Proof.
  intros Ht. unfold weight_sum. induction l as [|[k w] l IH]; csimpl; [lia|].
  unfold share_of at 1. simpl. pose proof (Z.div_mod (pool * w) total Ht). lia.
Qed.

Lemma remainders_bound pool total l :
  0 < total → 0 <= lsum fst (remainder_of pool total <$> l) <= Z.of_nat (length l) * (total - 1).
Proof.
  intros Ht. induction l as [|[k w] l IH]; csimpl; [lia|].
  pose proof (Z.mod_pos_bound (pool * w) total Ht). lia.
Qed.

Lemma shares_nonneg pool total l :
  0 <= pool → 0 < total → (∀ kw, kw ∈ l → 0 <= kw.2) → 0 <= lsum (share_of pool total) l.
Proof.
  intros Hp Ht Hl. apply lsum_nonneg. intros kw Hkw. apply Hl in Hkw.
  apply Z.div_pos; nia.
Qed.

(** What is left to hand out after the floor shares is less than one unit per
    participant. *)
Lemma leftover_bound pool l :
  0 < weight_sum l → l ≠ [] →
  0 <= pool - lsum (share_of pool (weight_sum l)) l < Z.of_nat (length l).
Proof.
  intros Ht Hne. pose proof (share_identity pool (weight_sum l) l ltac:(lia)) as Hid.
  pose proof (remainders_bound pool (weight_sum l) l Ht) as Hr.
  assert (0 < length l)%nat by (destruct l; simpl; [done|lia]). nia.
Qed.

(** The zero weights contribute neither a share nor a weight. *)
Lemma zero_weights pool total l :
  lsum (share_of pool total) (filter (λ kw, kw.2 ≠ 0) l) = lsum (share_of pool total) l
  ∧ weight_sum (filter (λ kw, kw.2 ≠ 0) l) = weight_sum l.
Proof.
  unfold weight_sum. induction l as [|[k w] l [IH1 IH2]]; [done|]. rewrite filter_cons.
  case_decide as Hw; simpl in *; [by rewrite IH1, IH2|].
  assert (w = 0) as -> by lia. unfold share_of at 2. simpl. rewrite Z.mul_0_r, Zdiv.Zdiv_0_l.
  by rewrite IH1, IH2.
Qed.

(** The participants of the loop: all, or those of non-zero weight. *)
Definition participants (skip_zero : bool) l : list (K * Z) :=
  if skip_zero then filter (λ kw, kw.2 ≠ 0) l else l.

Lemma share_loop_spec skip pool total l allocs dist rems :
  0 < total → 0 <= pool → 0 <= dist →
  (∀ kw, kw ∈ l → 0 <= kw.2 ∧ pool * kw.2 < 2 ^ 128) → NoDup l.*1 →
  dist + lsum (share_of pool total) l < 2 ^ 128 →
  share_loop skip pool total l allocs dist rems =
    (list_to_map ((λ kw, (kw.1, share_of pool total kw)) <$> l) ∪ allocs,
     dist + lsum (share_of pool total) l,
     rems ++ (remainder_of pool total <$> participants skip l)).
Proof.
  intros Ht Hp. revert allocs dist rems.
  induction l as [|[k w] l IH]; intros allocs dist rems Hd Hl Hnd Hb; csimpl.
  { destruct skip; csimpl; by rewrite (left_id_L ∅ (∪)), app_nil_r, Z.add_0_r. }
  csimpl in Hnd. apply NoDup_cons in Hnd as [Hk Hnd].
  destruct (Hl (k, w)) as [Hw Hpw]; [set_solver|]. simpl in Hw, Hpw.
  assert (0 <= share_of pool total (k, w)) by (apply Z.div_pos; simpl; nia).
  assert (0 <= lsum (share_of pool total) l) by (apply shares_nonneg; [done..|]; set_solver).
  assert (∀ x : Z, list_to_map ((λ kw, (kw.1, share_of pool total kw)) <$> l) ∪ <[k:=x]> allocs
    = <[k:=x]> (list_to_map ((λ kw, (kw.1, share_of pool total kw)) <$> l) ∪ allocs)) as Hun.
  { intros x. rewrite insert_union_r; [done|]. apply not_elem_of_list_to_map_1.
    by rewrite <- list_fmap_compose. }
  rewrite <- insert_union_l. csimpl in Hb. unfold participants in *.
  destruct (skip && (w =? 0)) eqn:Hskip.
  - apply andb_true_iff in Hskip as [-> ->%Z.eqb_eq].
    rewrite IH; [|lia|set_solver|done|lia]. rewrite Hun. rewrite filter_cons_False by (simpl; lia).
    assert (share_of pool total (k, 0) = 0) as -> by
      (unfold share_of; simpl; rewrite Z.mul_0_r; apply Zdiv.Zdiv_0_l). done.
  - rewrite saturating_mul_exact by done. change (pool * w / total) with (share_of pool total (k, w)).
    rewrite saturating_add_exact by lia.
    rewrite IH; [|lia|set_solver|done|lia]. rewrite Hun. f_equal; [f_equal; lia|].
    rewrite <- app_assoc. f_equal. destruct skip; [|done]. rewrite filter_cons_True; [done|].
    simpl in *. by apply Z.eqb_neq.
Qed.

(** ** Handing out the leftover *)

Context `{B : BuildMode}.

(** One more unit for each key of [ks]. *)
Definition plus_one (ks : list K) (k : K) (x : Z) : Z := if decide (k ∈ ks) then x + 1 else x.

Lemma hand_out_once_spec n (rems : list (Z * K)) m :
  (n <= length rems)%nat → NoDup rems.*2 →
  (∀ k, k ∈ rems.*2 → ∃ x, m !! k = Some x ∧ 0 <= x ∧ (n ≠ 0%nat → x < 2 ^ 128 - 1)) →
  ∃ m', hand_out_once n rems m = Some m' ∧
    msum (λ _ x, x) m' = msum (λ _ x, x) m + Z.of_nat n ∧
    m' = map_imap (λ k x, Some (plus_one (take n rems).*2 k x)) m.
Proof.
  revert n m. induction rems as [|[r k] rems IH]; intros [|n] m Hn Hnd Hm; simpl in *; try lia.
  1,2: eexists; split_and!; [done|lia|]; apply map_eq; intros j; rewrite map_lookup_imap;
    unfold plus_one; destruct (m !! j); simpl; done.
  csimpl in Hnd. apply NoDup_cons in Hnd as [Hk Hnd].
  destruct (Hm k) as (x & Hx & Hx0 & Hb); [set_solver|]. specialize (Hb ltac:(lia)).
  rewrite Hx, add_exact by lia. simpl.
  destruct (IH n (<[k := x + 1]> m)) as (m' & -> & Hs & Hm'); [lia|done| |].
  { intros j Hj. rewrite lookup_insert_ne by set_solver.
    destruct (Hm j) as (y & ? & ? & ?); [set_solver|]. exists y. split_and!; [done..|]. intros. lia. }
  exists m'. split_and!; [done| |].
  - rewrite Hs, (msum_insert_Some _ _ _ x) by done. lia.
  - rewrite Hm'. apply map_eq. intros j. rewrite !map_lookup_imap. csimpl. unfold plus_one.
    assert (k ∉ (take n rems).*2) as Hk'.
    { intros Hin. apply Hk. apply list_elem_of_fmap in Hin as (y & -> & Hy).
      apply list_elem_of_fmap. exists y. split; [done|]. apply elem_of_take in Hy as (i & Hi & _). by eapply list_elem_of_lookup_2. }
    destruct (decide (k = j)) as [->|Hne].
    + rewrite lookup_insert_eq, Hx. simpl. rewrite decide_False by done.
      rewrite decide_True by set_solver. done.
    + rewrite lookup_insert_ne by done. destruct (m !! j); simpl; [|done].
      repeat case_decide; set_solver.
Qed.

Lemma hand_out_cyclic_once n i (rems : list (Z * K)) m :
  (i + n <= length rems)%nat → (∀ k, k ∈ rems.*2 → is_Some (m !! k)) →
  hand_out_cyclic n i rems m = hand_out_once n (drop i rems) m.
Proof.
  revert i m. induction n as [|n IH]; intros i m Hi Hm; simpl.
  { by destruct (drop i rems). }
  rewrite Nat.mod_small by lia.
  destruct (rems !! i) as [[r k]|] eqn:E; [|apply lookup_ge_None in E; lia].
  rewrite (drop_S _ _ _ E). assert (k ∈ rems.*2) as Hk.
  { apply list_elem_of_fmap. exists (r, k). split; [done|]. by eapply list_elem_of_lookup_2. }
  destruct (Hm k Hk) as [x Hx]. rewrite Hx. simpl. destruct (add 128 x 1) as [y|]; [|done]. simpl.
  apply IH; [lia|]. intros j Hj. apply lookup_insert_is_Some'. auto.
Qed.
End Shares.

(** ** The allocation as a whole *)

Section Allocation.
Context {K : Type} `{Countable K, OrdLaws K} `{B : BuildMode}.

(** The floor share of every participant, and one more unit for the first
    participants of the order given by [rems]. *)
Definition allocation (pool total : Z) (winners : list K) (weights : gmap K Z) : gmap K Z :=
  map_imap (λ k w, Some (plus_one winners k (pool * w / total))) weights.

Lemma shares_map pool total (weights : gmap K Z) :
  list_to_map ((λ kw, (kw.1, share_of pool total kw)) <$> bt_iter weights)
    = (λ w, pool * w / total) <$> weights.
Proof.
  rewrite <- (list_to_map_to_list ((λ w, pool * w / total) <$> weights)).
  rewrite map_to_list_fmap. apply list_to_map_proper.
  - rewrite <- list_fmap_compose. change (NoDup (fst <$> bt_iter weights)). apply NoDup_bt_keys.
  - rewrite bt_iter_perm. apply Permutation_refl'. apply list_fmap_ext. by intros i [k w].
Qed.

Lemma participants_weight skip pool total (l : list (K * Z)) :
  lsum (share_of pool total) (participants skip l) = lsum (share_of pool total) l ∧
  weight_sum (participants skip l) = weight_sum l.
Proof. destruct skip; simpl; [apply zero_weights|done]. Qed.

Lemma participants_sub skip (l : list (K * Z)) : participants skip l `sublist_of` l.
Proof. destruct skip; [apply sublist_filter|done]. Qed.

Lemma allocation_core skip pool (weights : gmap K Z) order :
  0 < pool < 2 ^ 128 → 0 < msum (λ _ w, w) weights →
  (∀ k w, weights !! k = Some w → 0 <= w ∧ pool * w < 2 ^ 128) →
  let total := msum (λ _ w, w) weights in
  ∃ dist rems, share_loop skip pool total (bt_iter weights) ∅ 0 [] =
      ((λ w, pool * w / total) <$> weights, dist, rems) ∧
    (Z.to_nat (pool - dist) <= length rems)%nat ∧ dist <= pool ∧
    (∀ k, k ∈ rems.*2 → is_Some (weights !! k)) ∧
    (sort_by order rems).*2 ≡ₚ rems.*2 ∧
    ∃ m, hand_out_once (Z.to_nat (pool - dist)) (sort_by order rems)
        ((λ w, pool * w / total) <$> weights) = Some m ∧
      m = allocation pool total (take (Z.to_nat (pool - dist)) (sort_by order rems)).*2 weights ∧
      msum (λ _ x, x) m = pool.
Proof.
  intros Hp Ht Hw total. set (l := bt_iter weights).
  assert (weight_sum l = total) as Hsum.
  { unfold weight_sum, l, total. rewrite bt_iter_perm, msum_list. apply lsum_ext. by intros []. }
  assert (∀ kw, kw ∈ l → 0 <= kw.2 ∧ pool * kw.2 < 2 ^ 128) as Hl.
  { intros [k w] Hkw. by apply elem_of_bt_iter, Hw in Hkw. }
  destruct (participants_weight skip pool total l) as [Hsh Hws].
  assert (participants skip l ≠ []) as Hne 
    by (intros Hnil; rewrite Hnil in Hws; change (0 = weight_sum l) in Hws; lia).
  pose proof (leftover_bound pool (participants skip l) ltac:(lia) Hne) as Hlo.
  rewrite Hws, Hsum, Hsh in Hlo.
  pose proof (shares_nonneg pool total l ltac:(lia) Ht ltac:(naive_solver)) as Hnn.
  set (dist := lsum (share_of pool total) l) in *.
  set (rems := remainder_of pool total <$> participants skip l).
  assert (rems.*2 = (participants skip l).*1) as Hkeys by (unfold rems; by rewrite <- list_fmap_compose).
  assert (NoDup rems.*2) as Hnd.
  { rewrite Hkeys. eapply sublist_NoDup; [apply (NoDup_bt_keys weights)|].
    apply fmap_sublist, participants_sub. }
  assert (∀ k, k ∈ rems.*2 → ∃ w, weights !! k = Some w) as Hin.
  { intros k. rewrite Hkeys. intros ((k', w) & -> & Hkw)%list_elem_of_fmap. exists w.
    apply elem_of_bt_iter. eapply sublist_subseteq; [apply participants_sub|done]. }
  assert ((sort_by order rems).*2 ≡ₚ rems.*2) as Hperm by by rewrite sort_by_perm.
  assert (length rems = length (participants skip l)) as Hlen by apply length_fmap.
  exists dist, rems. split_and!; [|lia|lia|done|done|].
  { rewrite share_loop_spec; [|lia|lia|lia|done|apply NoDup_bt_keys|unfold dist in *; lia].
    unfold l at 1. rewrite shares_map, (right_id_L ∅ (∪)). done. }
  assert (msum (λ _ x, x) ((λ w, pool * w / total) <$> weights) = dist) as Hdist.
  { rewrite msum_fmap, msum_list. unfold dist, l. rewrite bt_iter_perm. apply lsum_ext. by intros []. }
  assert (∀ k w, weights !! k = Some w → 0 <= pool * w / total) as Hnn'.
  { intros k w Hkw. apply Hw in Hkw. apply Z.div_pos; nia. }
  destruct (hand_out_once_spec (Z.to_nat (pool - dist)) (sort_by order rems)
    ((λ w, pool * w / total) <$> weights)) as (m & Hm & Hs & Heq).
  - rewrite sort_by_perm. lia.
  - by rewrite Hperm.
  - intros k Hk. rewrite Hperm in Hk. destruct (Hin k Hk) as [w Hkw].
    rewrite lookup_fmap, Hkw. simpl. eexists. split_and!; [done|by eapply Hnn'|]. intros Hz.
    assert (pool * w / total <= dist); [|lia]. rewrite <- Hdist.
    apply (msum_lookup_le (λ _ x, x) _ k); [|by rewrite lookup_fmap, Hkw].
    intros k' x (w' & <- & Hw')%lookup_fmap_Some. by eapply Hnn'.
  - exists m. split_and!; [done| |rewrite Hs, Hdist; lia].
    rewrite Heq. apply map_eq. intros k. unfold allocation.
    rewrite !map_lookup_imap, lookup_fmap. by destruct (weights !! k).
Qed.

Lemma allocation_lookup pool total ws (weights : gmap K Z) k w :
  weights !! k = Some w →
  ∃ x, allocation pool total ws weights !! k = Some x ∧ pool * w / total <= x <= pool * w / total + 1.
Proof.
  intros Hk. unfold allocation. rewrite map_lookup_imap, Hk. simpl. eexists. split; [done|].
  unfold plus_one. case_decide; lia.
Qed.

Lemma allocation_dom pool total ws (weights : gmap K Z) :
  dom (allocation pool total ws weights) = dom weights.
Proof.
  apply set_eq. intros k. rewrite !elem_of_dom. unfold allocation. rewrite map_lookup_imap.
  by destruct (weights !! k); simpl; split; intros [? ?].
Qed.
End Allocation.

(** Both allocators return an [allocation] of the whole pool. *)
Lemma allocate_proportional_shape `{B : BuildMode} (weights : gmap NodeId Z) (pool : Z) :
  let total := msum (λ _ w, w) weights in
  0 < pool < 2 ^ 128 → 0 < total < 2 ^ 128 →
  (∀ k w, weights !! k = Some w → 0 <= w ∧ pool * w < 2 ^ 128) →
  ∃ winners, allocate_proportional weights pool = Some (allocation pool total winners weights) ∧
    msum (λ _ x, x) (allocation pool total winners weights) = pool.
Proof.
  intros total Hp Ht Hw. unfold allocate_proportional.
  rewrite (proj2 (Z.eqb_neq pool 0)) by lia. simpl.
  rewrite bool_decide_false by (intros ->; unfold total in Ht; rewrite msum_empty in Ht; lia).
  assert (lsum id (bt_values weights) = total) as Hsum by apply lsum_bt_values.
  rewrite sum_exact; [|intros w (kw & -> & Hkw)%list_elem_of_fmap|rewrite Hsum; apply Ht].
  2: { destruct kw as [k w]. apply elem_of_bt_iter in Hkw. by destruct (Hw _ _ Hkw). }
  simpl. rewrite Hsum. rewrite (proj2 (Z.eqb_neq total 0)) by lia.
  subst total. destruct (allocation_core false pool weights (λ l r, leb r l) Hp ltac:(apply Ht) Hw)
    as (dist & rems & -> & Hlen & Hd & Hin & Hperm & m & Hm & -> & Hs).
  unfold saturating_sub. rewrite Z.max_r by lia.
  rewrite hand_out_cyclic_once, drop_0, Hm; [|by rewrite sort_by_perm|].
  - eexists. split; [reflexivity|done].
  - intros k Hk. rewrite Hperm in Hk. rewrite lookup_fmap. by apply fmap_is_Some, Hin.
Qed.

Lemma allocate_witness_rewards_shape `{B : BuildMode} (credits : gmap string Z) (pool : Z) :
  let total := msum (λ _ w, w) credits in
  0 < pool < 2 ^ 128 → 0 < total < 2 ^ 64 →
  (∀ k w, credits !! k = Some w → 0 <= w ∧ pool * w < 2 ^ 128) →
  ∃ winners, allocate_witness_rewards credits pool = Some (allocation pool total winners credits) ∧
    msum (λ _ x, x) (allocation pool total winners credits) = pool.
Proof.
  intros total Hp Ht Hw. unfold allocate_witness_rewards.
  assert (foldl (saturating_add 64) 0 (bt_values credits) = total) as ->.
  { assert (lsum id (bt_values credits) = total) as Hsum by apply lsum_bt_values.
    rewrite saturating_fold; [lia|done|intros w (kw & -> & Hkw)%list_elem_of_fmap|lia].
    destruct kw as [k w]. apply elem_of_bt_iter in Hkw. by destruct (Hw _ _ Hkw). }
  rewrite (proj2 (Z.eqb_neq pool 0)), (proj2 (Z.eqb_neq total 0)) by lia. simpl.
  subst total. destruct (allocation_core true pool credits witness_order Hp ltac:(apply Ht) Hw)
    as (dist & rems & -> & Hlen & Hd & Hin & Hperm & m & Hm & -> & Hs).
  unfold saturating_sub. rewrite Z.max_r by lia. rewrite Hm. eexists. split; [reflexivity|done].
Qed.

(** C13: the reward allocator is exact and proportional. When no product of the
    pool and a weight overflows 128 bits, every participant and nobody else gets an
    amount, each the floor of its proportional share or one more, and the amounts
    sum to the pool: nothing is lost to rounding and nothing is created. *)
Theorem allocate_proportional_exact `{B : BuildMode} (weights : gmap NodeId Z) (pool : Z) :
  let total := msum (λ _ w, w) weights in
  0 < pool < 2 ^ 128 → 0 < total < 2 ^ 128 →
  (∀ k w, weights !! k = Some w → 0 <= w ∧ pool * w < 2 ^ 128) →
  ∃ m, allocate_proportional weights pool = Some m ∧ dom m = dom weights ∧
    msum (λ _ x, x) m = pool ∧
    ∀ k w, weights !! k = Some w →
      ∃ x, m !! k = Some x ∧ pool * w / total <= x <= pool * w / total + 1.
Proof.
  intros total Hp Ht Hw. destruct (allocate_proportional_shape weights pool Hp Ht Hw) as (ws & -> & Hs).
  eexists. split_and!; [done|apply allocation_dom|done|]. intros. by apply allocation_lookup.
Qed.

Definition demo_weights : gmap NodeId Z := {[ [1] := 1; [2] := 1; [3] := 1 ]}.

Lemma demo_weights_one : map_Forall (λ _ w, w = 1) demo_weights.
Proof. repeat (apply map_Forall_insert_2; [done|]). apply map_Forall_empty. Qed.

Lemma allocate_proportional_exact_witness :
  ∃ m, @allocate_proportional true demo_weights 100 = Some m ∧ dom m = dom demo_weights ∧
    msum (λ _ x, x) m = 100 ∧
    ∀ k w, demo_weights !! k = Some w →
      ∃ x, m !! k = Some x ∧
        100 * w / msum (λ _ w, w) demo_weights <= x <= 100 * w / msum (λ _ w, w) demo_weights + 1.
Proof.
  apply (@allocate_proportional_exact true demo_weights 100); [lia|vm_compute; intuition congruence|].
  intros k w Hk. rewrite (demo_weights_one k w Hk). lia.
Defined.

(** the witness split is exact too: with credits whose sum fits in 64 bits and
    is not zero, and products that fit in 128 bits, the allocations sum to the pool
    and each is the floor of the proportional share or one more. *)
Theorem allocate_witness_rewards_exact `{B : BuildMode} (credits : gmap string Z) (pool : Z) :
  let total := msum (λ _ w, w) credits in
  0 < pool < 2 ^ 128 → 0 < total < 2 ^ 64 →
  (∀ k w, credits !! k = Some w → 0 <= w ∧ pool * w < 2 ^ 128) →
  ∃ m, allocate_witness_rewards credits pool = Some m ∧ dom m = dom credits ∧
    msum (λ _ x, x) m = pool ∧
    ∀ k w, credits !! k = Some w →
      ∃ x, m !! k = Some x ∧ pool * w / total <= x <= pool * w / total + 1.
Proof.
  intros total Hp Ht Hw. destruct (allocate_witness_rewards_shape credits pool Hp Ht Hw) as (ws & -> & Hs).
  eexists. split_and!; [done|apply allocation_dom|done|]. intros. by apply allocation_lookup.
Qed.

Definition demo_credits : gmap string Z := {[ "a" := 1; "b" := 1 ]}%string.

Lemma demo_credits_one : map_Forall (λ _ w, w = 1) demo_credits.
Proof. repeat (apply map_Forall_insert_2; [done|]). apply map_Forall_empty. Qed.

Lemma allocate_witness_rewards_exact_witness :
  ∃ m, @allocate_witness_rewards true demo_credits 7 = Some m ∧ dom m = dom demo_credits ∧
    msum (λ _ x, x) m = 7 ∧
    ∀ k w, demo_credits !! k = Some w →
      ∃ x, m !! k = Some x ∧
        7 * w / msum (λ _ w, w) demo_credits <= x <= 7 * w / msum (λ _ w, w) demo_credits + 1.
Proof.
  apply (@allocate_witness_rewards_exact true demo_credits 7); [lia|vm_compute; intuition congruence|].
  intros k w Hk. rewrite (demo_credits_one k w Hk). lia.
Defined.

(** ** The block reward adjustment *)

(** The adjusted block reward stays within the cap around the base reward
    (and is at least one unit); it equals the base when a weight is zero. *)
Theorem adjusted_reward_within_cap `{B : BuildMode} base target current cap r :
  0 < base → base * 20000 < 2 ^ 128 → 0 <= cap →
  adjusted_player_block_reward base target current cap = Some r →
  base * (10000 - Z.min cap 10000) / 10000 <= r
  ∧ r <= Z.max 1 (base * (10000 + Z.min cap 10000) / 10000)
  ∧ 1 <= r.
Proof.
  intros Hb Hfit Hcap. unfold adjusted_player_block_reward.
  rewrite (proj2 (Z.eqb_neq base 0)) by lia.
  set (c := Z.min cap 10000). assert (0 <= c <= 10000) as Hc by lia.
  assert (base * (10000 - c) / 10000 <= base) by (apply Z.div_le_upper_bound; nia).
  assert (base <= base * (10000 + c) / 10000) by (apply Z.div_le_lower_bound; nia).
  destruct ((target =? 0) || (current =? 0)); [intros [= <-]; lia|].
  intros (s & Hs & [= <-])%bind_Some.
  unfold saturating_sub. rewrite (Z.max_r 0 (10000 - c)) by lia. rewrite saturating_add_exact by lia.
  rewrite (saturating_mul_exact 128 base (10000 - c)), (saturating_mul_exact 128 base (10000 + c)) by nia.
  lia.
Qed.

Lemma adjusted_reward_within_cap_witness :
  1000 * (10000 - Z.min 2000 10000) / 10000 <= 1200
  ∧ 1200 <= Z.max 1 (1000 * (10000 + Z.min 2000 10000) / 10000) ∧ 1 <= 1200.
Proof.
  apply (@adjusted_reward_within_cap false 1000 400 100 2000 1200); [lia..|vm_compute; reflexivity].
Defined.

(** ** Merging components into records *)

Section Merge.
Context `{B : BuildMode} (checked : overflow_checks = true).

(** A component credited with an amount. *)
Definition credited (component : RewardComponent) (r : RewardRecord) (amount : Z) : RewardRecord :=
  match component with
  | ComponentCollect => with_rewards r (recipient_address r) (player_reward r)
      (collect_reward r + amount) (store_reward r) (verify_reward r) (propose_reward r) (net_reward r)
  | ComponentStore => with_rewards r (recipient_address r) (player_reward r) (collect_reward r)
      (store_reward r + amount) (verify_reward r) (propose_reward r) (net_reward r)
  end.

Lemma merge_components_spec e component l rewards rewards' :
  NoDup l.*1 → merge_components e component l rewards = Some rewards' →
  ∀ n, rewards' !! n = match (list_to_map l : gmap NodeId Z) !! n with
    | Some amount => Some (credited component (default (empty_reward_record e n) (rewards !! n)) amount)
    | None => rewards !! n
    end.
Proof using checked.
  revert rewards. induction l as [|[k x] l IH]; intros rewards Hnd; simpl; [naive_solver|].
  csimpl in Hnd. apply NoDup_cons in Hnd as [Hk Hnd].
  intros (r & Hr & Hm)%bind_Some n. rewrite (IH _ Hnd Hm n).
  destruct (decide (k = n)) as [->|Hne].
  - rewrite (not_elem_of_list_to_map_1 l n Hk), !lookup_insert_eq. f_equal.
    unfold add_component, credited in *. destruct component;
      apply bind_Some in Hr as (y & Hy & [= <-]); by apply arith_checked in Hy as [-> _].
  - by rewrite !lookup_insert_ne.
Qed.

(** Merging a component credits exactly the allocated amounts: each node of the
    allocation gets its amount added to that component of its record (a fresh empty
    record if it had none), and every other record is unchanged. *)
Theorem merge_reward_component_spec rewards e alloc component rewards' :
  merge_reward_component rewards e alloc component = Some rewards' →
  ∀ n, rewards' !! n = match alloc !! n with
    | Some amount => Some (credited component (default (empty_reward_record e n) (rewards !! n)) amount)
    | None => rewards !! n
    end.
Proof using checked.
  intros Hm n. rewrite (merge_components_spec _ _ _ _ _ (NoDup_bt_keys alloc) Hm n).
  rewrite (list_to_map_proper (bt_iter alloc) (map_to_list alloc));
    [by rewrite list_to_map_to_list|apply NoDup_bt_keys|apply bt_iter_perm].
Qed.
End Merge.

Lemma merge_reward_component_spec_witness :
  let merged := default ∅ (@merge_reward_component true ∅ 7 demo_weights ComponentStore) in
  merged !! [1] = match demo_weights !! [1] with
    | Some amount =>
        Some (credited ComponentStore
          (default (empty_reward_record 7 [1]) ((∅ : gmap NodeId RewardRecord) !! [1])) amount)
    | None => (∅ : gmap NodeId RewardRecord) !! [1]
    end.
Proof.
  apply (@merge_reward_component_spec true eq_refl ∅ 7 demo_weights ComponentStore).
  vm_compute. reflexivity.
Defined.
