(* ===== verification/StorageBook.v ===== *)
(** * The retention book: src/src/storage_book.rs

    The payloads a storage node retains, with its quota accounting and receipts.
    Borsh encoding is a parameter; the JSON file is its parsed content. *)
From S2P Require Import Prelude Primitives Records Crypto.
Local Open Scope pole_scope.

Record StoredPayloadRecord := {
  sp_epoch_id : EpochId;
  sp_payload_cid : ContentId;
  payload_hash : Hash32;
  size_bytes : Z;
  sp_retention_until_epoch : EpochId;
  receipt : ReplicaReceipt;
}.

Record LocalRetentionBook := {
  quota_bytes : Z;
  used_bytes : Z;
  payloads : gmap ContentId StoredPayloadRecord;
}.

Record StoredPayloadReceiptValidation := {
  payload_matches : bool;
  epoch_matches : bool;
  retention_matches : bool;
  signature_matches : bool;
}.

Inductive StorageBookError :=
| BookIo (e : string)
| BookJson (e : string)
| BookBorsh (e : string)
| QuotaExceeded (quota_bytes used_bytes requested_bytes : Z).

(** [borsh::to_vec] of the tuple a receipt signs. *)
Class ReceiptEncoding :=
  borsh_receipt : NodeId → EpochId → EpochId → string → Hash32 → Z → outcome string bytes.

Section Book.
Context `{B : BuildMode} `{X : External} `{RE : ReceiptEncoding}.

Definition quota_of_gb (quota_gb : Z) : option Z :=
  a ← mul 64 quota_gb 1024; b ← mul 64 a 1024; mul 64 b 1024.

Definition with_quota_gb (quota_gb : Z) : option LocalRetentionBook :=
  q ← quota_of_gb quota_gb; Some {| quota_bytes := q; used_bytes := 0; payloads := ∅ |}.

Definition recalculate_used_bytes (book : LocalRetentionBook) : option LocalRetentionBook :=
  u ← sum_checked 64 (size_bytes <$> bt_values (payloads book));
  Some {| quota_bytes := quota_bytes book; used_bytes := u; payloads := payloads book |}.

(** [content]: the parsed file, or [None] if the path does not exist. *)
Definition load_or_default_json (content : option (outcome StorageBookError LocalRetentionBook))
    (quota_gb : Z) : outcome StorageBookError LocalRetentionBook :=
  match content with
  | None => or_panic (with_quota_gb quota_gb)
  | Some parsed =>
      do? book <- parsed;
      do? quota <- (if quota_bytes book =? 0 then or_panic (quota_of_gb quota_gb)
                    else Ok (quota_bytes book));
      or_panic (recalculate_used_bytes
        {| quota_bytes := quota; used_bytes := used_bytes book; payloads := payloads book |})
  end.

Definition development_receipt_signature (storer : NodeId) (epoch_id until : EpochId)
    (payload_cid : string) (hash : Hash32) (size : Z) : outcome StorageBookError SignatureBytes :=
  match borsh_receipt storer epoch_id until payload_cid hash size with
  | Ok encoded => Ok (stable_hash32 encoded)
  | Err e => Err (BookBorsh e)
  | Panic => Panic
  end.

Definition record_payload (storer : NodeId) (epoch_id : EpochId) (retention_epochs : Z)
    (payload_cid : ContentId) (hash : Hash32) (size : Z)
    : M LocalRetentionBook StorageBookError StoredPayloadRecord :=
  existing <- gets (λ book, payloads book !! payload_cid);;
  match existing with
  | Some record => m_ret record
  | None =>
  book <- gets id;;
  ensure (negb (quota_bytes book <? saturating_add 64 (used_bytes book) size))
    (QuotaExceeded (quota_bytes book) (used_bytes book) size);;;
  until <- chk (add 64 epoch_id retention_epochs);;
  signature <- lift (development_receipt_signature storer epoch_id until payload_cid hash size);;
  let record := {|
    sp_epoch_id := epoch_id; sp_payload_cid := payload_cid; payload_hash := hash;
    size_bytes := size; sp_retention_until_epoch := until;
    receipt := {| rr_epoch_id := epoch_id; rr_payload_cid := payload_cid; storer_id := storer;
                  rr_retention_until_epoch := until; receipt_signature := signature |} |} in
  used <- chk (add 64 (used_bytes book) size);;
  modify (λ book, {| quota_bytes := quota_bytes book; used_bytes := used;
                     payloads := <[payload_cid := record]> (payloads book) |});;;
  m_ret record
  end.

Definition record_batch_payload (storer : NodeId) (epoch_id : EpochId) (retention_epochs : Z)
    (payload_bytes : bytes) : M LocalRetentionBook StorageBookError StoredPayloadRecord :=
  let hash := stable_hash32 payload_bytes in
  record_payload storer epoch_id retention_epochs (cid_from_hash hash "batch-payload") hash
    (Z.of_nat (length payload_bytes)).

(** The removal loop of [prune_expired]. *)
Fixpoint prune_loop (keys : list ContentId) (book : LocalRetentionBook)
    : list StoredPayloadRecord * LocalRetentionBook :=
  match keys with
  | [] => ([], book)
  | key :: keys =>
      match payloads book !! key with
      | Some record =>
          let '(removed, book') := prune_loop keys
            {| quota_bytes := quota_bytes book;
               used_bytes := saturating_sub (used_bytes book) (size_bytes record);
               payloads := delete key (payloads book) |} in
          (record :: removed, book')
      | None => prune_loop keys book
      end
  end.

Definition prune_expired (current_epoch : EpochId) (book : LocalRetentionBook)
    : list StoredPayloadRecord * LocalRetentionBook :=
  let expired_keys := (filter (λ kv : ContentId * StoredPayloadRecord,
    sp_retention_until_epoch kv.2 < current_epoch) (bt_iter (payloads book))).*1 in
  prune_loop expired_keys book.

Definition validate_stored_payload_record (r : StoredPayloadRecord)
    : outcome StorageBookError StoredPayloadReceiptValidation :=
  do? signature <- development_receipt_signature (storer_id (receipt r)) (sp_epoch_id r)
    (sp_retention_until_epoch r) (sp_payload_cid r) (payload_hash r) (size_bytes r);
  Ok {| payload_matches := bool_decide (rr_payload_cid (receipt r) = sp_payload_cid r);
        epoch_matches := rr_epoch_id (receipt r) =? sp_epoch_id r;
        retention_matches := rr_retention_until_epoch (receipt r) =? sp_retention_until_epoch r;
        signature_matches := bool_decide (receipt_signature (receipt r) = signature) |}.

(** * Theorems *)

(** The accounting is exact and within the quota, every payload is filed under
    its content id, and every receipt is one [validate] accepts. *)
Definition receipt_valid (r : StoredPayloadRecord) : Prop :=
  validate_stored_payload_record r =
    Ok {| payload_matches := true; epoch_matches := true; retention_matches := true;
          signature_matches := true |}.

Record book_ok (book : LocalRetentionBook) : Prop := {
  book_used : used_bytes book = msum (λ _, size_bytes) (payloads book);
  book_quota : used_bytes book <= quota_bytes book < 2 ^ 64 - 1;
  book_records : map_Forall (λ cid r, sp_payload_cid r = cid ∧ 0 <= size_bytes r ∧ receipt_valid r)
    (payloads book);
}.

Lemma sizes_nonneg book :
  book_ok book → ∀ k r, payloads book !! k = Some r → 0 <= size_bytes r.
Proof. intros Hb k r Hk. by destruct (book_records _ Hb _ _ Hk) as (_ & ? & _). Qed.

Lemma used_nonneg book : book_ok book → 0 <= used_bytes book.
Proof. intros Hb. rewrite (book_used _ Hb). apply msum_nonneg, (sizes_nonneg _ Hb). Qed.

Lemma record_payload_wp storer e retention cid hash size book :
  book_ok book → 0 <= size < 2 ^ 64 →
  wp (record_payload storer e retention cid hash size)
    (λ r book', book_ok book' ∧
      match r with
      | Ok rec => payloads book' !! cid = Some rec ∧
          (∀ k, k ≠ cid → payloads book' !! k = payloads book !! k) ∧
          (is_Some (payloads book !! cid) → book' = book) ∧
          (payloads book !! cid = None → used_bytes book' = used_bytes book + size)
      | _ => book' = book
      end) book.
Proof.
  intros Hb Hs. pose proof (used_nonneg _ Hb) as Hu. destruct (book_quota _ Hb) as [Hq1 Hq2].
  unfold record_payload. repeat (wp_step; try done).
  apply negb_true_iff, Z.ltb_ge in H. unfold id, saturating_add, umax in H.
  rewrite add_exact in H2 by (unfold id; lia). unfold id in *. simplify_eq. split.
  - split; simpl.
    + rewrite msum_insert_None by done. rewrite (book_used _ Hb). simpl. lia.
    + lia.
    + apply map_Forall_insert_2; [|apply Hb]. simpl. split_and!; [done|lia|].
      unfold receipt_valid, validate_stored_payload_record. simpl. rewrite H1. simpl.
      by rewrite !bool_decide_true, !Z.eqb_refl.
  - simpl. rewrite lookup_insert_eq. split_and!; try done.
    intros k Hk. by rewrite lookup_insert_ne.
Qed.

(** recording a payload keeps the book well formed (exact accounting, within
    quota, valid receipts), stores exactly that payload, and is idempotent: a known
    content id returns the stored record and changes nothing. A refused payload
    changes nothing. *)
Theorem record_payload_spec storer e retention cid hash size book r book' :
  book_ok book → 0 <= size < 2 ^ 64 →
  record_payload storer e retention cid hash size book = (r, book') → r ≠ Panic →
  book_ok book' ∧
  match r with
  | Ok rec => payloads book' !! cid = Some rec ∧
      (∀ k, k ≠ cid → payloads book' !! k = payloads book !! k) ∧
      (is_Some (payloads book !! cid) → book' = book) ∧
      (payloads book !! cid = None → used_bytes book' = used_bytes book + size)
  | _ => book' = book
  end.
Proof. intros Hb Hs Hr Hp. exact (wp_elim _ _ _ _ _ (record_payload_wp _ _ _ _ _ _ _ Hb Hs) Hr Hp). Qed.

(** Removing a list of distinct stored keys. *)
Lemma prune_loop_spec keys book :
  book_ok book → NoDup keys → (∀ k, k ∈ keys → is_Some (payloads book !! k)) →
  ∃ removed book', prune_loop keys book = (removed, book') ∧ book_ok book' ∧
    quota_bytes book' = quota_bytes book ∧
    removed = omap (payloads book !!.) keys ∧
    ∀ j, payloads book' !! j = if decide (j ∈ keys) then None else payloads book !! j.
Proof.
  revert book. induction keys as [|k keys IH]; intros book Hb Hnd Hin; simpl.
  { eexists _, _. split_and!; try done. }
  apply NoDup_cons in Hnd as [Hk Hnd]. destruct (Hin k) as [r Hr]; [set_solver|].
  set (book1 := {| quota_bytes := quota_bytes book;
    used_bytes := saturating_sub (used_bytes book) (size_bytes r);
    payloads := delete k (payloads book) |}).
  assert (book_ok book1) as Hb1.
  { destruct Hb as [Hu Hq Hrec].
    assert (0 <= msum (λ _, size_bytes) (delete k (payloads book))) as Hnn.
    { apply msum_nonneg. intros j v [_ Hj]%lookup_delete_Some.
      by destruct (Hrec _ _ Hj) as (_ & ? & _). }
    pose proof (msum_delete (λ _, size_bytes) _ _ _ Hr) as Hd. simpl in Hd.
    destruct (Hrec _ _ Hr) as (_ & Hsz & _).
    split; simpl; unfold saturating_sub; [lia|lia|by apply map_Forall_delete]. }
  destruct (IH book1 Hb1 Hnd) as (removed & book' & Hloop & Hb' & Hq' & Hrem & Hpay).
  { intros j Hj. simpl. rewrite lookup_delete_ne by set_solver. apply Hin. set_solver. }
  rewrite Hr. fold book1. rewrite Hloop. eexists _, _. split_and!; [done..| |].
  - rewrite Hrem. f_equal. apply list_omap_ext, Forall_Forall2_diag, Forall_forall.
    intros j Hj. simpl. rewrite lookup_delete_ne; [done|]. set_solver.
  - intros j. rewrite Hpay. simpl. destruct (decide (j = k)) as [->|Hne].
    + rewrite lookup_delete_eq. repeat case_decide; set_solver.
    + rewrite lookup_delete_ne by done. repeat case_decide; set_solver.
Qed.

(** pruning removes exactly the payloads whose retention has run out, returns
    them, releases exactly their bytes and keeps the book well formed. *)
Theorem prune_expired_spec current book :
  book_ok book →
  ∃ removed book', prune_expired current book = (removed, book') ∧ book_ok book' ∧
    quota_bytes book' = quota_bytes book ∧
    (∀ r, r ∈ removed ↔ ∃ cid, payloads book !! cid = Some r ∧ sp_retention_until_epoch r < current) ∧
    (∀ cid r, payloads book' !! cid = Some r ↔
       payloads book !! cid = Some r ∧ current <= sp_retention_until_epoch r).
Proof.
  intros Hb. unfold prune_expired. set (keys := (filter _ _).*1).
  assert (∀ k, k ∈ keys ↔ ∃ r, payloads book !! k = Some r ∧ sp_retention_until_epoch r < current)
    as Hkeys.
  { intros k. unfold keys. rewrite list_elem_of_fmap. split.
    - intros ([k' r] & -> & [Hlt Hin]%list_elem_of_filter). exists r. by rewrite elem_of_bt_iter in Hin.
    - intros (r & Hr & Hlt). exists (k, r). split; [done|]. apply list_elem_of_filter.
      by rewrite elem_of_bt_iter. }
  destruct (prune_loop_spec keys book Hb) as (removed & book' & -> & Hb' & Hq & Hrem & Hpay).
  { eapply sublist_NoDup; [apply (NoDup_bt_keys (payloads book))|].
    apply fmap_sublist, sublist_filter. }
  { intros k (r & Hr & _)%Hkeys. by exists r. }
  exists removed, book'. split_and!; [done..| |].
  - intros r. rewrite Hrem, list_elem_of_omap. split.
    + intros (k & (r' & Hr' & Hlt)%Hkeys & Hr). simplify_eq. by exists k.
    + intros (k & Hr & Hlt). exists k. split; [apply Hkeys; by exists r|done].
  - intros k r. rewrite Hpay. case_decide as Hk.
    + apply Hkeys in Hk as (r' & Hr' & Hlt). split; [done|]. intros [? ?]. simplify_eq. lia.
    + split; [|by intros [? ?]]. intros Hr. split; [done|]. apply Z.nlt_ge. intros Hlt.
      apply Hk, Hkeys. by exists r.
Qed.

(** Loading a book restores its accounting from the payloads, whatever the file
    said, and an absent file gives an empty book with the configured quota. *)
Theorem load_restores_accounting content quota_gb book :
  load_or_default_json content quota_gb = Ok book →
  (content = None → payloads book = ∅) ∧
  (overflow_checks = true → used_bytes book = msum (λ _, size_bytes) (payloads book)) ∧
  (0 < quota_gb < 2 ^ 32 → content = None → quota_bytes book = quota_gb * 2 ^ 30).
Proof.
  unfold load_or_default_json, with_quota_gb, recalculate_used_bytes. destruct content as [parsed|].
  - intros Hl. split_and!; [done| |done]. intros Hc.
    destruct parsed as [b|e|]; simpl in Hl; [|done|done].
    assert (∃ q, (do? q <- Ok (E := StorageBookError) q;
      or_panic (sum_checked 64 (size_bytes <$> bt_values (payloads b)) ≫= λ u,
        Some {| quota_bytes := q; used_bytes := u; payloads := payloads b |})) = Ok book)
      as (q & Hl').
    { destruct (quota_bytes b =? 0); [|by eexists].
      destruct (quota_of_gb quota_gb) as [q|]; [|done]. by eexists. }
    simpl in Hl'. destruct (sum_checked 64 _) as [u|] eqn:Es; simpl in Hl'; [|done].
    simplify_eq. simpl. apply sum_from_checked in Es as ->; [|done].
    rewrite lsum_fmap, <- lsum_bt_values. done.
  - intros Hl. unfold quota_of_gb in Hl.
    destruct (mul 64 quota_gb 1024 ≫= _) as [q|] eqn:E; simpl in Hl; [|done].
    simplify_eq. simpl. split_and!; [done|by rewrite msum_empty|]. intros Hq _.
    rewrite mul_exact in E by lia. simpl in E. rewrite mul_exact in E by lia. simpl in E.
    rewrite mul_exact in E by lia. simplify_eq. lia.
Qed.
End Book.

(** ** A concrete book *)

Definition demo_encoding : ReceiptEncoding := λ _ _ _ _ _ _, Ok [].
Definition demo_book : LocalRetentionBook := {| quota_bytes := 100; used_bytes := 0; payloads := ∅ |}.

Lemma demo_book_ok : @book_ok demo_encoding demo_book.
Proof. split; [done|simpl; lia|done]. Qed.

Definition demo_record : M LocalRetentionBook StorageBookError StoredPayloadRecord :=
  @record_payload true demo_encoding [7] 3 2 "cid" [1] 40.

Lemma record_payload_spec_witness :
  @book_ok demo_encoding (demo_record demo_book).2 ∧
  match (demo_record demo_book).1 with
  | Ok rec => payloads (demo_record demo_book).2 !! "cid"%string = Some rec ∧
      (∀ k, k ≠ "cid"%string → payloads (demo_record demo_book).2 !! k = payloads demo_book !! k) ∧
      (is_Some (payloads demo_book !! "cid"%string) → (demo_record demo_book).2 = demo_book) ∧
      (payloads demo_book !! "cid"%string = None →
        used_bytes (demo_record demo_book).2 = used_bytes demo_book + 40)
  | _ => (demo_record demo_book).2 = demo_book
  end.
Proof.
  apply (@record_payload_spec true demo_encoding [7] 3 2 "cid" [1] 40 demo_book);
    [apply demo_book_ok|lia|reflexivity|vm_compute; discriminate].
Defined.

Lemma prune_expired_spec_witness :
  ∃ removed book', prune_expired 9 demo_book = (removed, book') ∧ @book_ok demo_encoding book' ∧
    quota_bytes book' = quota_bytes demo_book ∧
    (∀ r, r ∈ removed ↔ ∃ cid, payloads demo_book !! cid = Some r ∧ sp_retention_until_epoch r < 9) ∧
    (∀ cid r, payloads book' !! cid = Some r ↔
       payloads demo_book !! cid = Some r ∧ 9 <= sp_retention_until_epoch r).
Proof. apply (@prune_expired_spec demo_encoding 9 demo_book). apply demo_book_ok. Defined.

Lemma load_restores_accounting_witness :
  let book := {| quota_bytes := 2 ^ 30; used_bytes := 0; payloads := ∅ |} in
  (@None (outcome StorageBookError LocalRetentionBook) = None → payloads book = ∅) ∧
  (true = true → used_bytes book = msum (λ _, size_bytes) (payloads book)) ∧
  (0 < 1 < 2 ^ 32 → @None (outcome StorageBookError LocalRetentionBook) = None →
    quota_bytes book = 1 * 2 ^ 30).
Proof. apply (@load_restores_accounting true None 1). vm_compute. reflexivity. Defined.
