(* ===== verification/Pipeline.v ===== *)
(** * The collection pipeline: src/src/node_pipeline.rs

    From an activity sample to a signed observation, from observations to a sealed
    batch, and the records the chain hashes. Borsh and serde_json encodings are the
    operations of [PipelineEncoding]; [EncodingTotal] states that writing to a
    [Vec] does not fail. Hashing and Merkle trees are in Crypto. *)
From S2P Require Import Prelude Primitives Params Records Crypto.
Local Open Scope pole_scope.

Record ActivitySample := {
  as_app_id : AppId;
  as_observed_players : Z;
  as_observed_at_millis : UnixMillis;
  as_source_kind : ActivitySourceKind;
  as_source_confidence_ppm : Z;
  raw_body : string;
}.

Record AssembledBatch := {
  ab_batch_commit : BatchCommit;
  ab_payload_hash : Hash32;
  ab_payload_cid : ContentId;
  payload_bytes : bytes;
  ab_observations : list ObservationRecord;
}.

Inductive NodePipelineError :=
| EmptySignature
| EmptyRawBody
| PipelineEmptyBatch
| MismatchedEpoch (expected actual : EpochId)
| MismatchedCollector (expected actual : NodeId).

Record BatchBuilder := {
  bb_epoch_id : EpochId;
  bb_collector_id : NodeId;
  bb_observations : list ObservationRecord;
}.

Inductive SignatureStatus := SigEmpty | SigDevPlaceholder | SigValid | SigInvalid | SigUnverifiable.

Record ChainRewardRecordJson := {
  cr_epoch_id : EpochId;
  cr_recipient : string;
  cr_player_reward : Amount;
  cr_collect_reward : Amount;
  cr_store_reward : Amount;
  cr_verify_reward : Amount;
  cr_propose_reward : Amount;
  cr_slash_debit : Amount;
  cr_net_reward : Amount;
}.

Record ChainAggregateRecordJson := {
  ca_epoch_id : EpochId;
  ca_app_id : AppId;
  ca_total_weight_units : Z;
  ca_player_count : Z;
}.

Class PipelineEncoding := {
  (** [borsh::to_vec]; [None] is [Err], which the callers [expect] away. *)
  borsh_observation : ObservationRecord → option bytes;
  borsh_observations : list ObservationRecord → option bytes;
  (** The error as its message. *)
  borsh_batch_commit : BatchCommit → outcome string bytes;
  (** [serde_json::to_vec] *)
  json_reward : ChainRewardRecordJson → outcome string bytes;
  json_aggregate : ChainAggregateRecordJson → outcome string bytes;
}.

(** Borsh serialization into a vector succeeds on these types. *)
Class EncodingTotal `{PipelineEncoding} : Prop := {
  borsh_observation_total : ∀ o, is_Some (borsh_observation o);
  borsh_observations_total : ∀ os, is_Some (borsh_observations os);
}.

Definition ActivitySample_new (app_id : AppId) (observed_players : Z) (observed_at_millis : UnixMillis)
    (body : string) (source_kind : ActivitySourceKind) (source_confidence_ppm : Z)
    : ActivitySample := {|
  as_app_id := app_id; as_observed_players := observed_players;
  as_observed_at_millis := observed_at_millis; as_source_kind := source_kind;
  as_source_confidence_ppm := source_confidence_ppm; raw_body := body |}.

Definition steam_current_players (app_id : AppId) (observed_players : Z)
    (observed_at_millis : UnixMillis) (body : string) : ActivitySample :=
  ActivitySample_new app_id observed_players observed_at_millis body Steam 1000000.

Definition source_namespace (source_kind : ActivitySourceKind) : string :=
  match source_kind with
  | Steam => "steam-observation"
  | Epic => "epic-observation"
  | Ea => "ea-observation"
  | Gog => "gog-observation"
  | Community => "community-observation"
  end.

Definition with_collector_signature (o : ObservationRecord) (s : SignatureBytes)
    : ObservationRecord := {|
  obs_epoch_id := obs_epoch_id o; obs_slot_id := obs_slot_id o; obs_app_id := obs_app_id o;
  obs_source_kind := obs_source_kind o; obs_source_confidence_ppm := obs_source_confidence_ppm o;
  observed_players := observed_players o; observed_at_millis := observed_at_millis o;
  obs_collector_id := obs_collector_id o; raw_body_cid := raw_body_cid o;
  raw_body_hash := raw_body_hash o; collector_signature := s |}.

Definition BatchBuilder_new (epoch_id : EpochId) (collector_id : NodeId) : BatchBuilder :=
  {| bb_epoch_id := epoch_id; bb_collector_id := collector_id; bb_observations := [] |}.

(** [push] takes [&mut self]: the builder after the call is the result. *)
Definition push (b : BatchBuilder) (o : ObservationRecord) : outcome NodePipelineError BatchBuilder :=
  if negb (obs_epoch_id o =? bb_epoch_id b)
  then Err (MismatchedEpoch (bb_epoch_id b) (obs_epoch_id o)) else
  if negb (bool_decide (obs_collector_id o = bb_collector_id b))
  then Err (MismatchedCollector (bb_collector_id b) (obs_collector_id o)) else
  Ok {| bb_epoch_id := bb_epoch_id b; bb_collector_id := bb_collector_id b;
        bb_observations := bb_observations b ++ [o] |}.

Section Pipeline.
Context `{X : External} `{PE : PipelineEncoding}.

Definition into_observation (s : ActivitySample) (epoch_id : EpochId) (slot_id : SlotId)
    (collector_id : NodeId) (signature : SignatureBytes)
    : outcome NodePipelineError ObservationRecord :=
  if bool_decide (signature = []) then Err EmptySignature else
  if bool_decide (raw_body s = ""%string) then Err EmptyRawBody else
  let hash := stable_hash32 (string_bytes (raw_body s)) in
  Ok {| obs_epoch_id := epoch_id; obs_slot_id := slot_id; obs_app_id := as_app_id s;
        obs_source_kind := as_source_kind s;
        obs_source_confidence_ppm := as_source_confidence_ppm s;
        observed_players := as_observed_players s; observed_at_millis := as_observed_at_millis s;
        obs_collector_id := collector_id;
        raw_body_cid := cid_from_hash hash (source_namespace (as_source_kind s));
        raw_body_hash := hash; collector_signature := signature |}.

Definition observation_signing_payload (o : ObservationRecord) : option bytes :=
  borsh_observation (with_collector_signature o []).

(** [debug_assertions] is the compilation flag; the 32-byte placeholder is
    recognised only with it. *)
Definition verify_collector_signature (debug_assertions : bool) (o : ObservationRecord)
    (pubkey : option bytes) : option SignatureStatus :=
  if bool_decide (collector_signature o = []) then Some SigEmpty else
  if debug_assertions && bool_decide (length (collector_signature o) = 32%nat)
  then Some SigDevPlaceholder else
  match pubkey with
  | None => Some SigUnverifiable
  | Some pubkey =>
      if negb (bool_decide (stable_hash32 pubkey = obs_collector_id o)) then Some SigInvalid else
      payload ← observation_signing_payload o;
      Some (if verify_signature pubkey payload (collector_signature o)
            then SigValid else SigInvalid)
  end.

Definition observation_order (o : ObservationRecord) : Z * Z * Z :=
  (obs_slot_id o, obs_app_id o, observed_at_millis o).

Definition observation_leaf (o : ObservationRecord) : option Hash32 :=
  encoded ← borsh_observation o; Some (merkle_leaf_sha256 encoded).

Definition finalize (b : BatchBuilder) (submitted_at_height : Height)
    : outcome NodePipelineError AssembledBatch :=
  match bb_observations b with
  | [] => Err PipelineEmptyBatch
  | _ =>
      let observations := sort_by_key observation_order (bb_observations b) in
      let slot_start := default 0 (obs_slot_id <$> head observations) in
      let slot_end := default 0 (obs_slot_id <$> last observations) in
      do? payload_bytes <- or_panic (borsh_observations observations);
      let payload_hash := stable_hash32 payload_bytes in
      let payload_cid := cid_from_hash payload_hash "batch-payload" in
      do? leaf_hashes <- or_panic (mapM observation_leaf observations);
      let count := Z.of_nat (length observations) mod 2 ^ 32 in
      Ok {| ab_batch_commit := {|
              bc_epoch_id := bb_epoch_id b; bc_collector_id := bb_collector_id b;
              slot_start := slot_start; slot_end := slot_end;
              batch := {| root := merkle_root leaf_hashes; leaf_count := count |};
              bc_payload_cid := payload_cid; obs_count := count;
              submitted_at_height := submitted_at_height |};
            ab_payload_hash := payload_hash; ab_payload_cid := payload_cid;
            payload_bytes := payload_bytes; ab_observations := observations |}
  end.

Definition reward_record_to_chain_json (r : RewardRecord) (recipient : string)
    : outcome string bytes :=
  json_reward {|
    cr_epoch_id := rw_epoch_id r; cr_recipient := recipient; cr_player_reward := player_reward r;
    cr_collect_reward := collect_reward r; cr_store_reward := store_reward r;
    cr_verify_reward := verify_reward r; cr_propose_reward := propose_reward r;
    cr_slash_debit := slash_debit r; cr_net_reward := net_reward r |}.

Definition aggregate_record_to_chain_json (r : AggregateRecord) : outcome string bytes :=
  json_aggregate {|
    ca_epoch_id := agg_epoch_id r; ca_app_id := agg_app_id r;
    ca_total_weight_units := gvs_microunits r; ca_player_count := agg_median_players r |}.
End Pipeline.

(** * Theorems *)

(** Pushing observations one after the other, as a collector does. *)
Fixpoint push_all (b : BatchBuilder) (os : list ObservationRecord)
    : outcome NodePipelineError BatchBuilder :=
  match os with
  | [] => Ok b
  | o :: os => do? b <- push b o; push_all b os
  end.

Definition belongs_to (b : BatchBuilder) (o : ObservationRecord) : Prop :=
  obs_epoch_id o = bb_epoch_id b ∧ obs_collector_id o = bb_collector_id b.

Lemma push_own b o : belongs_to b o → push b o =
  Ok {| bb_epoch_id := bb_epoch_id b; bb_collector_id := bb_collector_id b;
        bb_observations := bb_observations b ++ [o] |}.
Proof.
  intros [He Hc]. unfold push. rewrite He, Z.eqb_refl. simpl. by rewrite bool_decide_true.
Qed.

Lemma push_all_own b os : (∀ o, o ∈ os → belongs_to b o) → push_all b os =
  Ok {| bb_epoch_id := bb_epoch_id b; bb_collector_id := bb_collector_id b;
        bb_observations := bb_observations b ++ os |}.
Proof.
  revert b. induction os as [|o os IH]; intros b Hos; simpl.
  - rewrite app_nil_r. by destruct b.
  - rewrite push_own by (apply Hos; set_solver). simpl. rewrite IH.
    + simpl. by rewrite <- (assoc_L (++)).
    + intros o' Ho'. apply (Hos o'). set_solver.
Qed.

(** The first and the last slot of a sorted batch enclose all its slots. *)
Lemma sorted_slots os :
  StronglySorted (λ a b, leb (observation_order a) (observation_order b) = true) os →
  ∀ o, o ∈ os → default 0 (obs_slot_id <$> head os) <= obs_slot_id o
                <= default 0 (obs_slot_id <$> last os).
Proof.
  assert (∀ a b, leb (observation_order a) (observation_order b) = true →
    obs_slot_id a <= obs_slot_id b) as Hle.
  { intros a b Hab. by do 2 apply leb_fst in Hab; apply Z_leb_le. }
  induction os as [|x os IH]; intros Hs o Ho; [set_solver|].
  apply StronglySorted_inv in Hs as [Hs Hx]. rewrite Forall_forall in Hx. simpl.
  assert (obs_slot_id x <= default 0 (obs_slot_id <$> last (x :: os))) as Hlast.
  { destruct os as [|y os]; [done|]. rewrite last_cons_cons.
    etrans; [apply (Hle x y), Hx; set_solver|]. apply (IH Hs y). set_solver. }
  apply elem_of_cons in Ho as [->|Ho]; [done|]. split; [by apply Hle, Hx|].
  destruct os as [|y os]; [set_solver|]. rewrite last_cons_cons. by apply (IH Hs o).
Qed.

Section Sealing.
Context `{X : External} `{PE : PipelineEncoding} `{T : !EncodingTotal}.

Lemma observation_leaf_total os : ∃ leaves, mapM observation_leaf os = Some leaves.
Proof.
  apply mapM_is_Some_2, Forall_forall. intros o _. unfold observation_leaf.
  simpl. destruct (borsh_observation_total o) as [e ->]. done.
Qed.

(** What [finalize] makes of a non-empty builder. *)
Record sealed (b : BatchBuilder) (h : Height) (s : AssembledBatch) : Prop := {
  sealed_observations : ab_observations s ≡ₚ bb_observations b;
  sealed_order : StronglySorted
    (λ x y, leb (observation_order x) (observation_order y) = true) (ab_observations s);
  sealed_slots : ∀ o, o ∈ bb_observations b →
    slot_start (ab_batch_commit s) <= obs_slot_id o <= slot_end (ab_batch_commit s);
  sealed_root : ∃ leaves, mapM observation_leaf (ab_observations s) = Some leaves ∧
    root (batch (ab_batch_commit s)) = merkle_root leaves;
  sealed_payload : borsh_observations (ab_observations s) = Some (payload_bytes s) ∧
    bc_payload_cid (ab_batch_commit s) = cid_from_hash (stable_hash32 (payload_bytes s)) "batch-payload";
  sealed_count : obs_count (ab_batch_commit s) = Z.of_nat (length (bb_observations b)) mod 2 ^ 32 ∧
    leaf_count (batch (ab_batch_commit s)) = obs_count (ab_batch_commit s);
  sealed_header : bc_epoch_id (ab_batch_commit s) = bb_epoch_id b ∧
    bc_collector_id (ab_batch_commit s) = bb_collector_id b ∧
    submitted_at_height (ab_batch_commit s) = h;
}.

Lemma finalize_seals b h :
  bb_observations b ≠ [] → ∃ s, finalize b h = Ok s ∧ sealed b h s.
Proof.
  intros Hne. unfold finalize.
  set (os := sort_by_key observation_order (bb_observations b)).
  assert (os ≡ₚ bb_observations b) as Hp by apply sort_by_key_perm.
  assert (StronglySorted (λ x y, leb (observation_order x) (observation_order y) = true) os)
    as Hs by apply sort_by_key_sorted.
  destruct (borsh_observations_total os) as [payload Hpay].
  destruct (observation_leaf_total os) as [leaves Hleaves].
  destruct (bb_observations b) as [|x xs] eqn:E; [done|].
  fold os. rewrite Hpay. simpl. rewrite Hleaves. simpl. eexists. split; [done|].
  split; rewrite ?E; simpl; try done.
  - intros o Ho. apply sorted_slots; [done|]. by rewrite Hp.
  - by exists leaves.
  - by rewrite Hp.
Qed.

(** A builder accepts exactly the observations of its epoch and collector, and
    sealing a non-empty one always succeeds: the batch holds the pushed observations
    in slot order, its slot range encloses them, its root is the Merkle root of their
    leaves and its content id the hash of the payload. *)
Theorem batch_sealed e c os h :
  os ≠ [] → (∀ o, o ∈ os → obs_epoch_id o = e ∧ obs_collector_id o = c) →
  ∃ b s, push_all (BatchBuilder_new e c) os = Ok b ∧ bb_observations b = os ∧
    finalize b h = Ok s ∧ sealed b h s ∧
    (∀ o, is_ok (push b o) = true ↔ obs_epoch_id o = e ∧ obs_collector_id o = c).
Proof.
  intros Hne Hos. rewrite push_all_own by done. simpl. eexists _.
  destruct (finalize_seals {| bb_epoch_id := e; bb_collector_id := c; bb_observations := os |} h)
    as (s & Hf & Hs); [done|].
  exists s. split_and!; [done..|]. intros o. unfold push. simpl.
  destruct (Z.eqb_spec (obs_epoch_id o) e); [|naive_solver]. simpl.
  case_bool_decide; naive_solver.
Qed.
End Sealing.

(** A toy encoding, on which the laws hold. *)
Definition demo_pipeline_encoding : PipelineEncoding := {|
  borsh_observation := λ o, Some [obs_slot_id o; obs_app_id o; observed_players o];
  borsh_observations := λ os, Some (obs_slot_id <$> os);
  borsh_batch_commit := λ b, Ok [bc_epoch_id b; obs_count b];
  json_reward := λ r, Ok [cr_epoch_id r; cr_net_reward r];
  json_aggregate := λ r, Ok [ca_epoch_id r; ca_app_id r; ca_player_count r];
|}.

Lemma demo_pipeline_total : @EncodingTotal demo_pipeline_encoding.
Proof. split; done. Qed.

Definition demo_observation (slot : SlotId) (players : Z) : ObservationRecord := {|
  obs_epoch_id := 4; obs_slot_id := slot; obs_app_id := 570; obs_source_kind := Steam;
  obs_source_confidence_ppm := 1000000; observed_players := players; observed_at_millis := 10;
  obs_collector_id := [7]; raw_body_cid := "cid"; raw_body_hash := []; collector_signature := [1] |}.

Lemma batch_sealed_witness :
  let os := [demo_observation 3 20; demo_observation 1 30; demo_observation 2 40] in
  ∃ b s, push_all (BatchBuilder_new 4 [7]) os = Ok b ∧ bb_observations b = os ∧
    @finalize demo_external demo_pipeline_encoding b 9 = Ok s ∧
    @sealed demo_external demo_pipeline_encoding b 9 s ∧
    (∀ o, is_ok (push b o) = true ↔ obs_epoch_id o = 4 ∧ obs_collector_id o = [7]).
Proof.
  apply (@batch_sealed demo_external demo_pipeline_encoding demo_pipeline_total); [done|].
  apply Forall_forall. repeat constructor.
Defined.
