(* ===== verification/Gvs.v ===== *)
(** * Game value score: src/src/node_gvs.rs

    The factors that turn a median player count into a score. What the module
    reads of the node's configuration, the latest activated protocol parameters
    and the number of slots per epoch, are arguments. [None] is a panic. *)
From S2P Require Import Prelude Primitives Params Records.

Definition PPM_DENOMINATOR : Z := 1000000.
Definition TIER1_MIN_PLAYERS : Z := 1000.
Definition TIER1_MIN_COLLECTORS : Z := 3.

Record GvsFactors := {
  gf_base_glv_microunits : Z;
  gf_tier : GvsTier;
  gf_tier_weight_ppm : Z;
  gf_time_decay_ppm : Z;
  gf_coverage_bonus_ppm : Z;
  gf_gvs_microunits : Z;
}.

(** [activated.map(|p| f(p)).unwrap_or(d)] *)
Definition activated_or (activated : option ProtocolParams) (f : RewardParams → Z) (d : Z) : Z :=
  default d ((λ p, f (rewards p)) <$> activated).

Section Gvs.
Context `{B : BuildMode}.

Definition classify_tier (activated : option ProtocolParams) (unique_collectors median_players : Z)
    : option (GvsTier * Z) :=
  let tier1_weight := activated_or activated tier1_weight_ppm 1000000 in
  let tier2_min := activated_or activated tier2_weight_min_ppm 300000 in
  let tier2_max := activated_or activated tier2_weight_max_ppm 600000 in
  let tier3_min := activated_or activated tier3_weight_min_ppm 50000 in
  let tier3_max := activated_or activated tier3_weight_max_ppm 150000 in
  if (TIER1_MIN_COLLECTORS <=? unique_collectors) && (TIER1_MIN_PLAYERS <=? median_players)
  then Some (Tier1, tier1_weight)
  else if TIER1_MIN_COLLECTORS <=? unique_collectors then
    collector_bonus ← mul 32 (saturating_sub unique_collectors TIER1_MIN_COLLECTORS) 50000;
    player_bonus ← mul 32 (Z.min (median_players / 500) 3) 50000;
    x ← add 32 tier2_min collector_bonus; y ← add 32 x player_bonus;
    Some (Tier2, Z.min y tier2_max)
  else
    collector_bonus ← mul 32 (saturating_sub unique_collectors 1) 25000;
    player_bonus ← mul 32 (Z.min (median_players / 500) 2) 25000;
    x ← add 32 tier3_min collector_bonus; y ← add 32 x player_bonus;
    Some (Tier3, Z.min y tier3_max).

Definition compute_time_decay_ppm (slots_per_epoch_config slot_id : Z) : option Z :=
  let slots_per_epoch := Z.max slots_per_epoch_config 1 in
  if slots_per_epoch <=? 1 then Some 1000000 else
  let slot_index := Z.min (saturating_sub slot_id 1) (slots_per_epoch - 1) in
  n ← mul 64 slot_index 150000;
  let ramp := n / (slots_per_epoch - 1) in
  s ← add 32 850000 (ramp mod 2 ^ 32);
  Some (Z.min s 1000000).

Definition compute_coverage_bonus_ppm (unique_collectors : Z) : option Z :=
  let extra_collectors := saturating_sub unique_collectors 1 in
  s ← add 32 1000000 (saturating_mul 32 extra_collectors 50000);
  Some (Z.min s 1250000).

Definition compute_gvs_microunits (base_glv tier_weight time_decay coverage : Z) : Z :=
  let weighted := saturating_mul 128 (saturating_mul 128 (saturating_mul 128 base_glv tier_weight)
    time_decay) coverage in
  Z.min (weighted / PPM_DENOMINATOR ^ 3) (umax 64).

Definition compute_gvs_factors (activated : option ProtocolParams)
    (slots_per_epoch slot_id unique_collectors median_players : Z) : option GvsFactors :=
  let base_glv := saturating_mul 64 median_players PPM_DENOMINATOR in
  tw ← classify_tier activated unique_collectors median_players;
  time_decay ← compute_time_decay_ppm slots_per_epoch slot_id;
  coverage ← compute_coverage_bonus_ppm unique_collectors;
  Some {| gf_base_glv_microunits := base_glv; gf_tier := tw.1; gf_tier_weight_ppm := tw.2;
          gf_time_decay_ppm := time_decay; gf_coverage_bonus_ppm := coverage;
          gf_gvs_microunits := compute_gvs_microunits base_glv tw.2 time_decay coverage |}.

(** * Theorems *)

Lemma time_decay_range slots slot d :
  0 <= slots < 2 ^ 40 → 0 <= slot →
  compute_time_decay_ppm slots slot = Some d → 850000 <= d <= 1000000.
Proof.
  intros Hs Hslot. unfold compute_time_decay_ppm.
  destruct (Z.leb_spec (Z.max slots 1) 1); [naive_solver lia|].
  unfold saturating_sub. set (n := Z.max slots 1 - 1). set (i := Z.min _ _).
  assert (0 < n < 2 ^ 40 ∧ 0 <= i <= n) as [Hn Hi] by lia.
  rewrite mul_exact by lia. simpl.
  assert (0 <= i * 150000 / n <= 150000) as Hr.
  { split; [apply Z.div_pos; lia|]. apply Z.div_le_upper_bound; lia. }
  rewrite Z.mod_small by lia. rewrite add_exact by lia. intros [= <-]. lia.
Qed.

Lemma time_decay_total slots slot :
  0 <= slots < 2 ^ 40 → 0 <= slot → is_Some (compute_time_decay_ppm slots slot).
Proof.
  intros Hs Hslot. unfold compute_time_decay_ppm.
  destruct (Z.leb_spec (Z.max slots 1) 1); [done|].
  unfold saturating_sub. set (n := Z.max slots 1 - 1). set (i := Z.min _ _).
  assert (0 < n < 2 ^ 40 ∧ 0 <= i <= n) as [Hn Hi] by lia.
  rewrite mul_exact by lia. simpl.
  pose proof (Z.mod_pos_bound (i * 150000 / n) (2 ^ 32) ltac:(lia)).
  assert (0 <= i * 150000 / n <= 150000) as Hr.
  { split; [apply Z.div_pos; lia|]. apply Z.div_le_upper_bound; lia. }
  rewrite Z.mod_small by lia. by rewrite add_exact by lia.
Qed.

Lemma coverage_exact c :
  0 <= c <= 80000 →
  compute_coverage_bonus_ppm c = Some (Z.min (1000000 + saturating_sub c 1 * 50000) 1250000).
Proof.
  intros Hc. unfold compute_coverage_bonus_ppm, saturating_sub.
  rewrite saturating_mul_exact by lia. by rewrite add_exact by lia.
Qed.

(** The default tier weights (no activated parameters). *)
Definition default_tier (c m : Z) : GvsTier * Z :=
  if decide (3 <= c ∧ 1000 <= m) then (Tier1, 1000000)
  else if decide (3 <= c) then (Tier2, Z.min (300000 + (c - 3) * 50000 + Z.min (m / 500) 3 * 50000) 600000)
  else (Tier3, Z.min (50000 + Z.max 0 (c - 1) * 25000 + Z.min (m / 500) 2 * 25000) 150000).

Lemma classify_default c m :
  0 <= c <= 80000 → 0 <= m → classify_tier None c m = Some (default_tier c m).
Proof.
  intros Hc Hm. assert (0 <= m / 500) by (apply Z.div_pos; lia).
  unfold classify_tier, default_tier, activated_or, TIER1_MIN_COLLECTORS, TIER1_MIN_PLAYERS,
    saturating_sub. simpl.
  destruct (Z.leb_spec 3 c); simpl; destruct (Z.leb_spec 1000 m); simpl;
    repeat case_decide; try lia; try done.
  - rewrite Z.max_r by lia. rewrite !mul_exact by lia. simpl. rewrite add_exact by lia. simpl.
    by rewrite add_exact by lia.
  - rewrite !mul_exact by lia. simpl. rewrite add_exact by lia. simpl. by rewrite add_exact by lia.
  - rewrite !mul_exact by lia. simpl. rewrite add_exact by lia. simpl. by rewrite add_exact by lia.
Qed.

Lemma gvs_factors_total slots slot c m :
  0 <= slots < 2 ^ 40 → 0 <= slot → 0 <= c <= 80000 → 0 <= m →
  is_Some (compute_gvs_factors None slots slot c m).
Proof.
  intros Hs Hslot Hc Hm. unfold compute_gvs_factors. rewrite classify_default by lia. simpl.
  destruct (time_decay_total slots slot Hs Hslot) as [d ->]. simpl.
  by rewrite coverage_exact by done.
Qed.

(** With the default weights, up to 80000 collectors and fewer than 2^40 slots
    per epoch, the score is always computed, the time decay lies between 0.85 and
    1, the coverage bonus between 1 and 1.25, the tier weight at most 1, and the
    score never exceeds 1.25 times the base value. *)
Theorem gvs_factors_bounded slots slot c m :
  0 <= slots < 2 ^ 40 → 0 <= slot → 0 <= c <= 80000 → 0 <= m < 2 ^ 64 →
  ∃ g, compute_gvs_factors None slots slot c m = Some g ∧
    850000 <= gf_time_decay_ppm g <= 1000000 ∧
    1000000 <= gf_coverage_bonus_ppm g <= 1250000 ∧
    0 <= gf_tier_weight_ppm g <= 1000000 ∧
    gf_gvs_microunits g <= gf_base_glv_microunits g * 5 / 4.
Proof.
  intros Hs Hslot Hc Hm. unfold compute_gvs_factors. rewrite classify_default by lia. simpl.
  destruct (time_decay_total slots slot Hs Hslot) as [d Hd].
  pose proof (time_decay_range slots slot d Hs Hslot Hd) as Hdr. rewrite Hd. simpl.
  rewrite coverage_exact by done. simpl. eexists. split; [done|]. simpl.
  unfold saturating_sub. set (v := Z.min _ 1250000).
  assert (1000000 <= v <= 1250000) as Hv by lia.
  assert (0 <= (default_tier c m).2 <= 1000000) as Ht.
  { unfold default_tier. assert (0 <= m / 500) by (apply Z.div_pos; lia).
    repeat case_decide; simpl; lia. }
  split_and!; try lia. unfold compute_gvs_microunits, PPM_DENOMINATOR.
  set (b := saturating_mul 64 m 1000000). set (t := (default_tier c m).2) in *.
  assert (0 <= b) as Hb by (unfold b, saturating_mul, umax; lia).
  set (w := saturating_mul 128 _ v).
  assert (w <= b * 1000000 * 1000000 * 1250000) as Hw.
  { unfold w. etrans; [apply saturating_mul_le|].
    assert (0 <= saturating_mul 128 b t <= b * 1000000).
    { unfold saturating_mul, umax. nia. }
    assert (0 <= saturating_mul 128 (saturating_mul 128 b t) d <= b * 1000000 * 1000000).
    { unfold saturating_mul at 1 3, umax. nia. }
    nia. }
  apply Z.min_le_iff. left. apply Z.div_le_lower_bound; [lia|].
  pose proof (Z.mul_div_le w (1000000 ^ 3) ltac:(lia)). change (1000000 ^ 3) with 1000000000000000000 in *.
  lia.
Qed.
End Gvs.

Lemma gvs_factors_bounded_witness :
  ∃ g, @compute_gvs_factors true None 12 5 4 2000 = Some g ∧
    850000 <= gf_time_decay_ppm g <= 1000000 ∧
    1000000 <= gf_coverage_bonus_ppm g <= 1250000 ∧
    0 <= gf_tier_weight_ppm g <= 1000000 ∧
    gf_gvs_microunits g <= gf_base_glv_microunits g * 5 / 4.
Proof. apply (@gvs_factors_bounded true 12 5 4 2000); lia. Defined.

(** Far above realistic sizes the coverage bonus breaks: for 90000 collectors
    the addition overflows, which panics with overflow checks and without them
    yields a factor below one. *)
Theorem coverage_bonus_overflows :
  @compute_coverage_bonus_ppm true 90000 = None ∧
  @compute_coverage_bonus_ppm false 90000 = Some 999999.
Proof. split; vm_compute; reflexivity. Qed.
