(* ===== verification/Aggregator.v ===== *)
(** * Epoch aggregation: src/src/node_aggregator.rs

    From the batches of an epoch to one aggregate per slot and application:
    grouping, deduplication by collector, trimming of extremes, median, dominant
    source and score, then the artifact with its counters and Merkle root. The
    encodings are those of Pipeline; [load_batches_for_epoch] is its result, and
    writing the artifact is not modelled. *)
From S2P Require Import Prelude Primitives Params Records Crypto Gvs Pipeline.
Local Open Scope pole_scope.

Record AggregateInput := {
  ai_observation : ObservationRecord;
  ai_batch_commit_hash : Hash32;
}.

Record EpochAggregationGroup := {
  eg_slot_id : SlotId;
  eg_app_id : AppId;
  eg_total_observations : Z;
  eg_unique_collectors : Z;
  eg_trimmed_observations : Z;
  eg_accepted_observations : list ObservationRecord;
  eg_aggregate : AggregateRecord;
}.

Record EpochAggregateEntry := {
  en_slot_id : SlotId;
  en_app_id : AppId;
  en_total_observations : Z;
  en_unique_collectors : Z;
  en_trimmed_observations : Z;
  en_aggregate : AggregateRecord;
}.

Record EpochAggregationArtifact := {
  ea_epoch_id : EpochId;
  ea_aggregate_count : Z;
  ea_total_observation_count : Z;
  ea_deduped_observation_count : Z;
  ea_accepted_observation_count : Z;
  ea_aggregate_root_hex : string;
  ea_records : list EpochAggregateEntry;
}.

Record EpochAggregationComputation := {
  ec_artifact : EpochAggregationArtifact;
  ec_groups : list EpochAggregationGroup;
}.

Inductive NodeAggregationError :=
| AggUpstream (e : string)
| AggIo (e : string)
| AggJson (e : string)
| AggBorsh (e : string).

(** [candidate_rank] and [trimmed_rank] are tuples; Rust compares them
    lexicographically. *)
Definition candidate_rank (i : AggregateInput) : Z * Z * Hash32 * Hash32 * bytes :=
  let o := ai_observation i in
  (observed_at_millis o, observed_players o, raw_body_hash o, ai_batch_commit_hash i,
   collector_signature o).

Definition prefers_candidate (candidate current : AggregateInput) : bool :=
  ltb (candidate_rank candidate) (candidate_rank current).

Fixpoint dedup_loop (inputs : list AggregateInput) (selected : gmap NodeId AggregateInput)
    : gmap NodeId AggregateInput :=
  match inputs with
  | [] => selected
  | input :: inputs =>
      let key := obs_collector_id (ai_observation input) in
      match selected !! key with
      | Some existing =>
          if negb (prefers_candidate input existing) then dedup_loop inputs selected
          else dedup_loop inputs (<[key := input]> selected)
      | None => dedup_loop inputs (<[key := input]> selected)
      end
  end.

Definition deduplicate_by_collector (inputs : list AggregateInput) : list AggregateInput :=
  bt_values (dedup_loop inputs ∅).

Definition trimmed_rank (i : AggregateInput) : Z * NodeId * Z * Hash32 * Hash32 :=
  let o := ai_observation i in
  (observed_players o, obs_collector_id o, observed_at_millis o, raw_body_hash o,
   ai_batch_commit_hash i).

(** [inputs[1..inputs.len() - 1]] *)
Definition trim_extreme_observations (inputs : list AggregateInput) : list AggregateInput :=
  if (length inputs <? 5)%nat then inputs
  else let sorted := sort_by_key trimmed_rank inputs in take (length sorted - 2) (drop 1 sorted).

Definition median_players (inputs : list AggregateInput) : Z :=
  let players := sort_by_key id ((observed_players ∘ ai_observation) <$> inputs) in
  match players with
  | [] => 0
  | _ =>
      let middle := Nat.div (length players) 2 in
      if Nat.odd (length players) then nth middle players 0
      else saturating_add 64 (nth (middle - 1) players 0) (nth middle players 0) / 2
  end.

Fixpoint source_counts (observations : list ObservationRecord) (counts : ActivitySourceKind → Z)
    : ActivitySourceKind → Z :=
  match observations with
  | [] => counts
  | o :: observations => source_counts observations
      (λ k, if bool_decide (k = obs_source_kind o) then counts k + 1 else counts k)
  end.

(** [max_by_key] over the kinds that occur, in ascending order: the last maximum
    of (count, kind). *)
Definition max_by_count (counts : ActivitySourceKind → Z) (best : option ActivitySourceKind)
    (k : ActivitySourceKind) : option ActivitySourceKind :=
  if counts k =? 0 then best else
  match best with
  | None => Some k
  | Some b => if leb (counts b, source_kind_index b) (counts k, source_kind_index k)
              then Some k else Some b
  end.

Definition dominant_source_kind (observations : list ObservationRecord) : ActivitySourceKind :=
  let counts := source_counts observations (λ _, 0) in
  default Steam (foldl (max_by_count counts) None [Steam; Epic; Ea; Gog; Community]).

Section Aggregation.
Context `{B : BuildMode} `{X : External} `{PE : PipelineEncoding}.

Definition hash_batch_commit (b : BatchCommit) : outcome NodeAggregationError Hash32 :=
  do? encoded <- map_err AggBorsh (borsh_batch_commit b);
  Ok (merkle_leaf_sha256 encoded).

Definition aggregate_leaf (r : AggregateRecord) : outcome NodeAggregationError Hash32 :=
  do? json <- map_err AggJson (aggregate_record_to_chain_json r);
  Ok (merkle_leaf_sha256 json).

(** Collecting results stops at the first error. *)
Fixpoint collect_leaves (rs : list AggregateRecord) : outcome NodeAggregationError (list Hash32) :=
  match rs with
  | [] => Ok []
  | r :: rs => do? x <- aggregate_leaf r; do? xs <- collect_leaves rs; Ok (x :: xs)
  end.

Definition aggregate_record_root (records : list AggregateRecord)
    : outcome NodeAggregationError Hash32 :=
  do? leaf_hashes <- collect_leaves (sort_by_key (λ r, (agg_epoch_id r, agg_app_id r)) records);
  Ok (merkle_root leaf_hashes).

Definition aggregate_source_batch_root (inputs : list AggregateInput) : Hash32 :=
  merkle_root (bts_iter (list_to_set (ai_batch_commit_hash <$> inputs) : gset Hash32)).

Definition average_source_confidence_ppm (observations : list ObservationRecord) : option Z :=
  match observations with
  | [] => Some 1000000
  | _ => total ← sum_checked 64 (obs_source_confidence_ppm <$> observations);
         Some (total / Z.of_nat (length observations) mod 2 ^ 32)
  end.

(** The grouping loops; a group's inputs keep their order of arrival. *)
Fixpoint group_observations (epoch_id : EpochId) (hash : Hash32) (os : list ObservationRecord)
    (groups : gmap (SlotId * AppId) (list AggregateInput)) (total : Z)
    : gmap (SlotId * AppId) (list AggregateInput) * Z :=
  match os with
  | [] => (groups, total)
  | o :: os =>
      if negb (obs_epoch_id o =? epoch_id) then group_observations epoch_id hash os groups total
      else
        let key := (obs_slot_id o, obs_app_id o) in
        group_observations epoch_id hash os
          (<[key := default [] (groups !! key) ++
                    [{| ai_observation := o; ai_batch_commit_hash := hash |}]]> groups)
          (saturating_add 32 total 1)
  end.

Fixpoint group_batches (epoch_id : EpochId) (batches : list (BatchCommit * list ObservationRecord))
    (groups : gmap (SlotId * AppId) (list AggregateInput)) (total : Z)
    : outcome NodeAggregationError (gmap (SlotId * AppId) (list AggregateInput) * Z) :=
  match batches with
  | [] => Ok (groups, total)
  | (commit, os) :: batches =>
      do? hash <- hash_batch_commit commit;
      let '(groups, total) := group_observations epoch_id hash os groups total in
      group_batches epoch_id batches groups total
  end.

(** The body of the loop over groups. *)
Definition aggregate_group (activated : option ProtocolParams) (slots_per_epoch : Z)
    (epoch_id : EpochId) (slot_id : SlotId) (app_id : AppId) (inputs : list AggregateInput)
    : option EpochAggregationGroup :=
  let total_observations := Z.of_nat (length inputs) mod 2 ^ 32 in
  let deduped := deduplicate_by_collector inputs in
  let unique_collectors := Z.of_nat (length deduped) mod 2 ^ 32 in
  let accepted := trim_extreme_observations deduped in
  let accepted_count := Z.of_nat (length accepted) mod 2 ^ 32 in
  let median := median_players accepted in
  let observations := ai_observation <$> accepted in
  gvs ← compute_gvs_factors activated slots_per_epoch slot_id unique_collectors median;
  confidence ← average_source_confidence_ppm observations;
  Some {|
    eg_slot_id := slot_id; eg_app_id := app_id; eg_total_observations := total_observations;
    eg_unique_collectors := unique_collectors;
    eg_trimmed_observations := saturating_sub unique_collectors accepted_count;
    eg_accepted_observations := observations;
    eg_aggregate := {|
      agg_epoch_id := epoch_id; agg_slot_id := slot_id; agg_app_id := app_id;
      gvs_tier := gf_tier gvs; primary_source_kind := dominant_source_kind observations;
      agg_source_confidence_ppm := confidence; accepted_observations := accepted_count;
      agg_median_players := median; base_glv_microunits := gf_base_glv_microunits gvs;
      tier_weight_ppm := gf_tier_weight_ppm gvs; time_decay_ppm := gf_time_decay_ppm gvs;
      coverage_bonus_ppm := gf_coverage_bonus_ppm gvs; gvs_microunits := gf_gvs_microunits gvs;
      source_batch_root := aggregate_source_batch_root accepted |} |}.

(** The loop over the groups, in key order, with its two counters. *)
Fixpoint aggregate_groups (activated : option ProtocolParams) (slots_per_epoch : Z)
    (epoch_id : EpochId) (groups : list ((SlotId * AppId) * list AggregateInput))
    (deduped accepted : Z) : option (list EpochAggregationGroup * Z * Z) :=
  match groups with
  | [] => Some ([], deduped, accepted)
  | ((slot_id, app_id), inputs) :: groups =>
      g ← aggregate_group activated slots_per_epoch epoch_id slot_id app_id inputs;
      r ← aggregate_groups activated slots_per_epoch epoch_id groups
            (saturating_add 32 deduped (eg_unique_collectors g))
            (saturating_add 32 accepted (accepted_observations (eg_aggregate g)));
      Some (g :: r.1.1, r.1.2, r.2)
  end.

Definition entry_of (g : EpochAggregationGroup) : EpochAggregateEntry := {|
  en_slot_id := eg_slot_id g; en_app_id := eg_app_id g;
  en_total_observations := eg_total_observations g;
  en_unique_collectors := eg_unique_collectors g;
  en_trimmed_observations := eg_trimmed_observations g; en_aggregate := eg_aggregate g |}.

(** [batches] is the result of [load_batches_for_epoch]. *)
Definition compute_local_epoch_aggregation (activated : option ProtocolParams)
    (slots_per_epoch : Z) (epoch_id : EpochId)
    (batches : outcome NodeAggregationError (list (BatchCommit * list ObservationRecord)))
    : outcome NodeAggregationError EpochAggregationComputation :=
  do? batches <- batches;
  do? gt <- group_batches epoch_id batches ∅ 0;
  do? r <- or_panic (aggregate_groups activated slots_per_epoch epoch_id (bt_iter gt.1) 0 0);
  let groups := r.1.1 in
  do? aggregate_root <- aggregate_record_root (eg_aggregate <$> groups);
  Ok {| ec_artifact := {|
          ea_epoch_id := epoch_id; ea_aggregate_count := Z.of_nat (length groups);
          ea_total_observation_count := gt.2; ea_deduped_observation_count := r.1.2;
          ea_accepted_observation_count := r.2; ea_aggregate_root_hex := hex_32 aggregate_root;
          ea_records := entry_of <$> groups |};
        ec_groups := groups |}.
End Aggregation.

(** * Theorems *)

Abbreviation collector i := (obs_collector_id (ai_observation i)).
Abbreviation players i := (observed_players (ai_observation i)).

(** ** Deduplication *)

(** [selected] holds, for each collector of [seen], a candidate of least rank. *)
Definition dedup_inv (seen : list AggregateInput) (selected : gmap NodeId AggregateInput) : Prop :=
  (∀ i, i ∈ seen → is_Some (selected !! collector i)) ∧
  (∀ k x, selected !! k = Some x → collector x = k ∧ x ∈ seen ∧
     ∀ i, i ∈ seen → collector i = k → leb (candidate_rank x) (candidate_rank i) = true).

Lemma dedup_step seen selected i :
  dedup_inv seen selected →
  dedup_inv (seen ++ [i])
    (match selected !! collector i with
     | Some existing => if negb (prefers_candidate i existing) then selected
                        else <[collector i := i]> selected
     | None => <[collector i := i]> selected
     end).
Proof.
  intros [Hsome Hsel]. unfold prefers_candidate.
  assert (∀ old, (∀ x, selected !! collector i = Some x →
      leb (candidate_rank i) (candidate_rank x) = true) →
    old = selected → dedup_inv (seen ++ [i]) (<[collector i := i]> old)) as Hins.
  { intros old Hle ->. split.
    - intros j Hj. rewrite lookup_insert_is_Some'. apply elem_of_app in Hj as [Hj|Hj].
      + right. by apply Hsome.
      + left. by apply list_elem_of_singleton in Hj as ->.
    - intros k x [[<- <-]|[Hne Hx]]%lookup_insert_Some.
      + split_and!; [done|set_solver|]. intros j Hj Hc. apply elem_of_app in Hj as [Hj|Hj].
        * destruct (Hsome j Hj) as [x Hx]. rewrite Hc in Hx.
          destruct (Hsel _ _ Hx) as (_ & _ & Hmin).
          eapply leb_trans; [by apply Hle|by apply Hmin].
        * apply list_elem_of_singleton in Hj as ->. apply leb_refl.
      + destruct (Hsel _ _ Hx) as (Hc & Hin & Hmin). split_and!; [done|set_solver|].
        intros j Hj Hcj. apply elem_of_app in Hj as [Hj|Hj]; [by apply Hmin|].
        apply list_elem_of_singleton in Hj as ->. congruence. }
  destruct (selected !! collector i) as [x|] eqn:Hx; [|by apply Hins].
  destruct (ltb (candidate_rank i) (candidate_rank x)) eqn:Hlt; simpl.
  - apply Hins; [|done]. intros x' [= <-]. by apply ltb_spec in Hlt as [? _].
  - rewrite ltb_leb in Hlt. apply negb_false_iff in Hlt. split.
    + intros j Hj. apply elem_of_app in Hj as [Hj|Hj]; [by apply Hsome|].
      apply list_elem_of_singleton in Hj as ->. by rewrite Hx.
    + intros k y Hy. destruct (Hsel _ _ Hy) as (Hc & Hin & Hmin). split_and!; [done|set_solver|].
      intros j Hj Hcj. apply elem_of_app in Hj as [Hj|Hj]; [by apply Hmin|].
      apply list_elem_of_singleton in Hj as ->. rewrite Hcj in Hx. by simplify_eq.
Qed.

Lemma dedup_loop_inv inputs seen selected :
  dedup_inv seen selected → dedup_inv (seen ++ inputs) (dedup_loop inputs selected).
Proof.
  revert seen selected. induction inputs as [|i inputs IH]; intros seen selected Hinv; simpl.
  { by rewrite app_nil_r. }
  apply dedup_step with (i := i) in Hinv. rewrite (cons_middle i seen inputs), (assoc_L (++)).
  destruct (selected !! collector i) as [x|]; [|by apply IH].
  destruct (negb _); by apply IH.
Qed.

Lemma StronglySorted_values (l : list (NodeId * AggregateInput)) :
  StronglySorted (λ a b, leb a.1 b.1 = true) l →
  (∀ kv, kv ∈ l → collector kv.2 = kv.1) →
  StronglySorted (λ a b, leb (collector a) (collector b) = true) (snd <$> l).
Proof.
  induction l as [|kv l IH]; intros Hs Hc; [constructor|].
  apply StronglySorted_inv in Hs as [Hs Hall]. rewrite fmap_cons. constructor.
  - apply IH; [done|]. set_solver.
  - apply Forall_fmap, Forall_forall. intros y Hy. rewrite Forall_forall in Hall.
    simpl. rewrite (Hc y), (Hc kv) by set_solver. by apply Hall.
Qed.

Lemma dedup_out_inv inputs : dedup_inv inputs (dedup_loop inputs ∅).
Proof. apply (dedup_loop_inv inputs []). split; [set_solver|done]. Qed.

Lemma elem_of_dedup inputs x :
  x ∈ deduplicate_by_collector inputs ↔ ∃ k, dedup_loop inputs ∅ !! k = Some x.
Proof.
  unfold deduplicate_by_collector, bt_values. rewrite list_elem_of_fmap. split.
  - intros ([k y] & -> & Hk). exists k. by rewrite elem_of_bt_iter in Hk.
  - intros [k Hk]. exists (k, x). by rewrite elem_of_bt_iter.
Qed.

Lemma dedup_subset inputs x : x ∈ deduplicate_by_collector inputs → x ∈ inputs.
Proof. intros [k Hk]%elem_of_dedup. by destruct (proj2 (dedup_out_inv inputs) _ _ Hk) as (_ & ? & _). Qed.

Lemma dedup_keys inputs :
  (λ i, collector i) <$> deduplicate_by_collector inputs = bt_keys (dedup_loop inputs ∅).
Proof.
  unfold deduplicate_by_collector, bt_values, bt_keys. rewrite <- list_fmap_compose.
  apply list_fmap_ext. intros j [k x] Hj. simpl.
  apply list_elem_of_lookup_2, elem_of_bt_iter in Hj.
  by destruct (proj2 (dedup_out_inv inputs) _ _ Hj) as [? _].
Qed.

(** Deduplication keeps exactly one observation per collector, all of them
    collectors of the input, and for each the one of least rank (earliest, then by
    count, hashes and signature), in ascending order of collector. *)
Theorem dedup_one_per_collector inputs :
  let out := deduplicate_by_collector inputs in
  NoDup ((λ i, collector i) <$> out) ∧
  StronglySorted (λ a b, leb (collector a) (collector b) = true) out ∧
  (∀ i, i ∈ inputs → ∃ x, x ∈ out ∧ collector x = collector i) ∧
  (∀ x, x ∈ out → x ∈ inputs ∧
    ∀ i, i ∈ inputs → collector i = collector x →
      leb (candidate_rank x) (candidate_rank i) = true).
Proof.
  destruct (dedup_out_inv inputs) as [Hsome Hsel]. split_and!.
  - rewrite dedup_keys. apply NoDup_bt_keys.
  - apply StronglySorted_values; [apply sort_by_key_sorted|].
    intros [k x] Hk%elem_of_bt_iter. by destruct (Hsel _ _ Hk) as [? _].
  - intros i Hi. destruct (Hsome i Hi) as [x Hx]. exists x.
    split; [apply elem_of_dedup; by eexists|]. by destruct (Hsel _ _ Hx) as [? _].
  - intros x [k Hk]%elem_of_dedup. destruct (Hsel _ _ Hk) as (Hc & Hin & Hmin). split; [done|].
    intros i Hi Hci. apply Hmin; [done|congruence].
Qed.

(** ** Trimming *)

Lemma trimmed_rank_players a b :
  leb (trimmed_rank a) (trimmed_rank b) = true → players a <= players b.
Proof.
  unfold trimmed_rank. intros Hle. by do 4 apply leb_fst in Hle; apply Z_leb_le.
Qed.

(** With five or more observations, trimming drops one smallest and one largest and
    keeps the rest. *)
Lemma trim_split inputs :
  trim_extreme_observations inputs = inputs ∧ (length inputs < 5)%nat ∨
  ∃ lo hi, inputs ≡ₚ lo :: trim_extreme_observations inputs ++ [hi] ∧
    (∀ x, x ∈ trim_extreme_observations inputs → players lo <= players x <= players hi) ∧
    (5 <= length inputs)%nat.
Proof.
  unfold trim_extreme_observations. destruct (Nat.ltb_spec (length inputs) 5) as [|Hlen]; [by left|right].
  pose proof (sort_by_key_sorted trimmed_rank inputs) as Hs.
  pose proof (sort_by_key_perm trimmed_rank inputs) as Hp.
  set (s := sort_by_key trimmed_rank inputs) in *. simpl.
  assert (length s = length inputs) as Hl by by rewrite Hp.
  destruct s as [|lo s]; [simpl in Hl; lia|]. apply StronglySorted_inv in Hs as [Hs Hlo].
  destruct (exists_last (l := s)) as (out & hi & Heq); [intros ->; simpl in Hl; lia|]. subst s.
  change (drop 1 (lo :: out ++ [hi])) with (out ++ [hi]).
  assert (length (lo :: out ++ [hi]) - 2 = length out)%nat as ->
    by (simpl; rewrite length_app; simpl; lia).
  rewrite take_app_length. exists lo, hi. split_and!; [by symmetry| |done].
  intros x Hx. split.
  - apply trimmed_rank_players. rewrite Forall_forall in Hlo. apply Hlo. set_solver.
  - apply trimmed_rank_players. clear -Hs Hx. induction out as [|y out IH]; [set_solver|].
    simpl in Hs. apply StronglySorted_inv in Hs as [Hs Hy].
    apply elem_of_cons in Hx as [->|Hx]; [|by apply IH].
    rewrite Forall_forall in Hy. apply Hy. set_solver.
Qed.


(** ** The median *)

Section Median.
Local Open Scope nat_scope.

Abbreviation in_order := (StronglySorted (λ a b : Z, leb a b = true)).

(** Fewer than [m + 1] elements below [lo] put position [m] at [lo] or above. *)
Lemma sorted_nth_ge (lo : Z) s : ∀ m, in_order s → m < length s →
  length s - (m + 1) < length (filter (λ p, lo <= p)%Z s) → (lo <= nth m s 0)%Z.
Proof.
  induction s as [|x s IH]; intros m Hs Hm; [simpl in Hm; lia|].
  apply StronglySorted_inv in Hs as [Hs Hx]. rewrite filter_cons. simpl length in *.
  case_decide as Hlo; simpl.
  - intros _. destruct m as [|m]; [done|]. rewrite Forall_forall in Hx.
    etrans; [exact Hlo|]. apply Z_leb_le, Hx. apply list_elem_of_In, nth_In. lia.
  - pose proof (length_filter (λ p, lo <= p)%Z s). intros Hc.
    destruct m as [|m]; [lia|]. apply IH; [done|lia|lia].
Qed.

(** More than [m] elements at most [hi] put position [m] at [hi] or below. *)
Lemma sorted_nth_le (hi : Z) s : ∀ m, in_order s →
  m < length (filter (λ p, p <= hi)%Z s) → (nth m s 0 <= hi)%Z.
Proof.
  induction s as [|x s IH]; intros m Hs Hm; [simpl in Hm; lia|].
  apply StronglySorted_inv in Hs as [Hs Hx]. rewrite filter_cons in Hm.
  case_decide as Hhi; simpl in *.
  - destruct m as [|m]; [done|]. apply IH; [done|lia].
  - exfalso. destruct (filter _ s) as [|y l] eqn:E; [simpl in Hm; lia|].
    assert (y ∈ filter (λ p, p <= hi)%Z s) as [Hy1 Hy2]%list_elem_of_filter
      by (rewrite E; set_solver).
    rewrite Forall_forall in Hx. pose proof (proj1 (Z_leb_le _ _) (Hx y Hy2)). lia.
Qed.

Lemma length_filter_mono {A} (P Q : A → Prop) `{∀ x, Decision (P x), ∀ x, Decision (Q x)} l :
  (∀ x, P x → Q x) → length (filter P l) <= length (filter Q l).
Proof.
  intros HPQ. induction l as [|x l IH]; [done|]. rewrite !filter_cons.
  repeat case_decide; simpl; try lia. naive_solver.
Qed.

Lemma length_filter_fmap {A B} (f : A → B) (P : B → Prop) `{∀ x, Decision (P x)} (l : list A) :
  length (filter P (f <$> l)) = length (filter (λ x, P (f x)) l).
Proof.
  induction l as [|x l IH]; [done|]. rewrite fmap_cons, !filter_cons.
  case_decide; simpl; lia.
Qed.

End Median.

Definition within (lo hi : Z) (i : AggregateInput) : Prop := lo <= players i <= hi.

#[export] Instance within_dec lo hi i : Decision (within lo hi i).
Proof. unfold within. apply _. Defined.

(** A strict majority of the inputs reports between [lo] and [hi]. *)
Definition majority_within (lo hi : Z) (inputs : list AggregateInput) : Prop :=
  (length inputs < 2 * length (filter (within lo hi) inputs))%nat.

Lemma median_majority lo hi inputs :
  majority_within lo hi inputs → lo < 2 ^ 63 → lo <= median_players inputs <= hi.
Proof.
  unfold majority_within, median_players. intros Hmaj Hlo.
  set (ps := (observed_players ∘ ai_observation) <$> inputs).
  set (s := sort_by_key id ps).
  assert (StronglySorted (λ a b : Z, leb a b = true) s) as Hs by apply (sort_by_key_sorted id ps).
  assert (length s = length inputs) as Hlen
    by (unfold s, ps; by rewrite length_sort_by_key, length_fmap).
  assert (length (filter (within lo hi) inputs) = length (filter (λ p, lo <= p <= hi) s)) as Hf.
  { unfold s. rewrite sort_by_key_perm. unfold ps. rewrite length_filter_fmap. done. }
  rewrite Hf, <- Hlen in Hmaj. clear Hf. revert Hs Hmaj. generalize s. clear -Hlo. intros s Hs Hmaj.
  pose proof (length_filter_mono (λ p, lo <= p <= hi) (λ p, lo <= p) s ltac:(simpl; intros; lia)) as H1.
  pose proof (length_filter_mono (λ p, lo <= p <= hi) (λ p, p <= hi) s ltac:(simpl; intros; lia)) as H2.
  pose proof (Nat.div_mod_eq (length s) 2) as Hdm.
  pose proof (Nat.mod_upper_bound (length s) 2 ltac:(lia)) as Hmod.
  assert (0 < length s)%nat as Hpos by (destruct s; simpl in *; lia).
  set (m := Nat.div (length s) 2) in *.
  assert (nth m s 0 <= hi) as Hhi by (apply sorted_nth_le; [done|lia]).
  destruct s as [|x0 s0] eqn:Es; [simpl in *; lia|]. rewrite <- Es in *.
  destruct (Nat.odd (length s)) eqn:Hodd.
  - apply Nat.odd_spec in Hodd as [k Hk]. split; [|done]. apply sorted_nth_ge; [done|lia|lia].
  - assert (Nat.even (length s) = true) as Heven by (rewrite <- Nat.negb_odd, Hodd; done).
    apply Nat.even_spec in Heven as [k Hk].
    assert (lo <= nth (m - 1) s 0) by (apply sorted_nth_ge; [done|lia|lia]).
    assert (lo <= nth m s 0) by (apply sorted_nth_ge; [done|lia|lia]).
    assert (nth (m - 1) s 0 <= hi) by (apply sorted_nth_le; [done|lia]).
    unfold saturating_add, umax. split.
    + apply Z.div_le_lower_bound; lia.
    + apply Z.div_le_upper_bound; lia.
Qed.

(** Trimming keeps a majority: dropping an honest extreme means that no input lies
    beyond it. *)
Lemma trim_majority lo hi inputs :
  majority_within lo hi inputs → majority_within lo hi (trim_extreme_observations inputs).
Proof.
  intros Hmaj. destruct (trim_split inputs) as [[-> _]|(a & b & Hp & Hab & Hn)]; [done|].
  revert Hp Hab. generalize (trim_extreme_observations inputs). intros out Hp Hab.
  unfold majority_within in *.
  assert (0 < length out)%nat as Hpos by (rewrite Hp in Hn; simpl in Hn; rewrite length_app in Hn; simpl in Hn; lia).
  rewrite Hp in Hmaj.
  rewrite filter_cons, filter_app, filter_cons, filter_nil in Hmaj.
  assert (within lo hi a → within lo hi b → filter (within lo hi) out = out) as Hall.
  { unfold within. intros Ha Hb. apply filter_all, Forall_forall. intros x Hx. specialize (Hab x Hx). lia. }
  simpl in Hmaj. rewrite length_app in Hmaj. simpl in Hmaj.
  repeat case_decide; simpl in Hmaj; rewrite ?length_app in Hmaj; simpl in Hmaj; try lia.
  rewrite Hall by done. lia.
Qed.

(** ** A whole group *)

Lemma median_nonneg inputs : (∀ i, i ∈ inputs → 0 <= players i) → 0 <= median_players inputs.
Proof.
  intros Hp. unfold median_players.
  set (s := sort_by_key id ((observed_players ∘ ai_observation) <$> inputs)).
  assert (∀ n, 0 <= nth n s 0) as Hs.
  { intros n. destruct (nth_in_or_default n s 0) as [Hin|Hd]; [|by rewrite Hd].
    apply list_elem_of_In in Hin. revert Hin. generalize (nth n s 0). intros p Hin.
    unfold s in Hin. rewrite sort_by_key_perm in Hin.
    apply list_elem_of_fmap in Hin as (i & -> & Hi). by apply Hp. }
  pose proof (Hs (Nat.div (length s) 2)). pose proof (Hs (Nat.div (length s) 2 - 1)%nat).
  destruct s as [|x l] eqn:E; [done|]. rewrite <- E in *. destruct (Nat.odd _); [done|].
  apply Z.div_pos; [|lia]. unfold saturating_add, umax. lia.
Qed.

(** As many observations survive as there are collectors. *)
Lemma length_dedup inputs :
  length (deduplicate_by_collector inputs) =
  size (list_to_set (C := gset NodeId) ((λ i, collector i) <$> inputs)).
Proof.
  rewrite <- (length_fmap (λ i, collector i)), dedup_keys.
  rewrite <- (size_list_to_set (C := gset NodeId)) by apply NoDup_bt_keys.
  f_equal. apply set_eq. intros k. rewrite !elem_of_list_to_set, <- dedup_keys.
  destruct (dedup_out_inv inputs) as [Hsome Hsel]. rewrite !list_elem_of_fmap. split.
  - intros (x & -> & Hx%dedup_subset). by exists x.
  - intros (i & -> & Hi). destruct (Hsome i Hi) as [x Hx]. exists x.
    rewrite elem_of_dedup. destruct (Hsel _ _ Hx) as [? _]. naive_solver.
Qed.

Lemma length_dedup_le inputs : (length (deduplicate_by_collector inputs) <= length inputs)%nat.
Proof.
  rewrite length_dedup, <- (length_fmap (λ i, collector i)).
  generalize ((λ i, collector i) <$> inputs). intros l. induction l as [|x l IH]; simpl; [done|].
  rewrite size_union_alt, size_singleton.
  assert (size (list_to_set l ∖ {[x]} : gset NodeId) <= size (list_to_set l : gset NodeId))%nat
    by (apply subseteq_size; set_solver). lia.
Qed.

Section Groups.
Context `{B : BuildMode} `{X : External}.

(** What [compute_local_epoch_aggregation] reads of an observation has the width of its field. *)
Definition input_typed (i : AggregateInput) : Prop :=
  0 <= players i < 2 ^ 64 ∧ 0 <= obs_source_confidence_ppm (ai_observation i) < 2 ^ 32.

Lemma elem_of_accepted inputs x :
  x ∈ trim_extreme_observations (deduplicate_by_collector inputs) → x ∈ inputs.
Proof.
  intros Hx. apply dedup_subset. destruct (trim_split (deduplicate_by_collector inputs))
    as [[<- _]|(lo & hi & -> & _)]; [done|set_solver].
Qed.

Lemma confidence_total os :
  (∀ o, o ∈ os → 0 <= obs_source_confidence_ppm o < 2 ^ 32) → Z.of_nat (length os) <= 80000 →
  is_Some (average_source_confidence_ppm os).
Proof.
  intros Ho Hlen. unfold average_source_confidence_ppm. destruct os as [|o os']; [done|].
  set (os := o :: os') in *. rewrite sum_exact; [done|set_solver|].
  assert (lsum id (obs_source_confidence_ppm <$> os) <= Z.of_nat (length os) * 2 ^ 32); [|lia].
  clear Hlen. revert Ho. generalize os. clear. intros os. induction os as [|o os IH]; intros Ho; csimpl; [done|].
  assert (0 <= obs_source_confidence_ppm o < 2 ^ 32) by (apply Ho; set_solver).
  specialize (IH ltac:(set_solver)). rewrite Nat2Z.inj_succ.
  unfold id at 1. change (λ x : Z, x) with (@id Z). lia.
Qed.

(** C11: with the default weights, the aggregate of a group of at most 80000 typed
    observations is always computed, and no minority of collectors can move it: each
    collector counts once, and whenever a strict majority of the collectors reports
    between [lo] and [hi] (below 2^63), so does the published median, before and
    after the extremes are trimmed. *)
Theorem group_median_resists_minority slots epoch slot app inputs lo hi :
  0 <= slots < 2 ^ 40 → 0 <= slot → Z.of_nat (length inputs) <= 80000 →
  (∀ i, i ∈ inputs → input_typed i) →
  majority_within lo hi (deduplicate_by_collector inputs) → lo < 2 ^ 63 →
  ∃ g, aggregate_group None slots epoch slot app inputs = Some g ∧
    eg_unique_collectors g = Z.of_nat (size (list_to_set (C := gset NodeId) ((λ i, collector i) <$> inputs))) ∧
    lo <= agg_median_players (eg_aggregate g) <= hi.
Proof.
  intros Hs Hslot Hlen Hty Hmaj Hlo. unfold aggregate_group.
  set (d := deduplicate_by_collector inputs) in *. set (t := trim_extreme_observations d).
  pose proof (length_dedup_le inputs) as Hd. fold d in Hd.
  assert (length t <= length d)%nat as Ht.
  { unfold t. destruct (trim_split d) as [[-> _]|(? & ? & Hp & _)]; [done|].
    rewrite Hp at 2. simpl. rewrite length_app. lia. }
  rewrite (Z.mod_small (Z.of_nat (length d))) by lia.
  destruct (gvs_factors_total slots slot (Z.of_nat (length d)) (median_players t)) as [g ->];
    [done|done|lia| |].
  { apply median_nonneg. intros i Hi%elem_of_accepted. by apply Hty. }
  simpl. destruct (confidence_total (ai_observation <$> t)) as [c ->].
  { intros o (i & -> & Hi)%list_elem_of_fmap. apply elem_of_accepted in Hi. by apply Hty. }
  { rewrite length_fmap. lia. }
  simpl. eexists. split; [done|]. simpl. split.
  - f_equal. apply length_dedup.
  - by apply median_majority; [apply trim_majority|].
Qed.
End Groups.

(** ** A whole epoch *)

Section Epoch.
Context `{B : BuildMode} `{X : External} `{PE : PipelineEncoding}.

(** The observations of the epoch, each with the hash of its batch. *)
Definition tag (epoch_id : EpochId) (hash : Hash32) (os : list ObservationRecord)
    : list AggregateInput :=
  (λ o, {| ai_observation := o; ai_batch_commit_hash := hash |}) <$>
    filter (λ o, obs_epoch_id o = epoch_id) os.

Definition epoch_inputs (epoch_id : EpochId) (hashes : list Hash32)
    (batches : list (BatchCommit * list ObservationRecord)) : list AggregateInput :=
  concat (zip_with (λ h b, tag epoch_id h b.2) hashes batches).

Definition input_key (i : AggregateInput) : SlotId * AppId :=
  (obs_slot_id (ai_observation i), obs_app_id (ai_observation i)).

(** The inputs of one group, in order of arrival. *)
Definition group_inputs (k : SlotId * AppId) (inputs : list AggregateInput)
    : list AggregateInput := filter (λ i, input_key i = k) inputs.

(** [groups] files exactly [inputs], and no group is empty. *)
Definition grouped (groups : gmap (SlotId * AppId) (list AggregateInput))
    (inputs : list AggregateInput) : Prop :=
  ∀ k, groups !! k = match group_inputs k inputs with [] => None | l => Some l end.

Lemma grouped_snoc groups inputs i :
  grouped groups inputs →
  grouped (<[input_key i := default [] (groups !! input_key i) ++ [i]]> groups) (inputs ++ [i]).
Proof.
  intros Hg k. unfold group_inputs. rewrite filter_app, filter_cons, filter_nil.
  destruct (decide (input_key i = k)) as [<-|Hne].
  - rewrite lookup_insert_eq, (Hg (input_key i)). unfold group_inputs.
    by destruct (filter _ inputs).
  - rewrite lookup_insert_ne, app_nil_r by done. apply Hg.
Qed.

Lemma group_observations_spec epoch hash os : ∀ groups inputs,
  grouped groups inputs → Z.of_nat (length inputs) >= 0 →
  grouped (group_observations epoch hash os groups (Z.min (Z.of_nat (length inputs)) (umax 32))).1
    (inputs ++ tag epoch hash os) ∧
  (group_observations epoch hash os groups (Z.min (Z.of_nat (length inputs)) (umax 32))).2 =
    Z.min (Z.of_nat (length (inputs ++ tag epoch hash os))) (umax 32).
Proof.
  unfold tag. induction os as [|o os IH]; intros groups inputs Hg Hl; simpl.
  { by rewrite app_nil_r. }
  rewrite filter_cons. destruct (Z.eqb_spec (obs_epoch_id o) epoch) as [He|He]; simpl.
  - rewrite decide_True by done. rewrite fmap_cons.
    set (i := {| ai_observation := o; ai_batch_commit_hash := hash |}).
    rewrite (cons_middle i inputs), (assoc_L (++)).
    assert (saturating_add 32 (Z.min (Z.of_nat (length inputs)) (umax 32)) 1 =
      Z.min (Z.of_nat (length (inputs ++ [i]))) (umax 32)) as ->.
    { rewrite length_app. unfold saturating_add, umax. simpl. lia. }
    apply (IH _ (inputs ++ [i])); [|lia]. by apply (grouped_snoc groups inputs i).
  - rewrite decide_False by done. by apply IH.
Qed.

Lemma group_batches_spec epoch batches hashes : ∀ groups inputs,
  Forall2 (λ b h, hash_batch_commit b.1 = Ok h) batches hashes → grouped groups inputs →
  ∃ groups', group_batches epoch batches groups (Z.min (Z.of_nat (length inputs)) (umax 32)) =
      Ok (groups', Z.min (Z.of_nat (length (inputs ++ epoch_inputs epoch hashes batches))) (umax 32)) ∧
    grouped groups' (inputs ++ epoch_inputs epoch hashes batches).
Proof.
  intros groups inputs Hh. revert groups inputs.
  induction Hh as [|[c os] h batches hashes Hb Hh IH]; intros groups inputs Hg; simpl in *.
  { exists groups. by rewrite app_nil_r. }
  rewrite Hb. simpl. destruct (group_observations_spec epoch h os groups inputs Hg) as [Hg' Ht];
    [lia|]. destruct (group_observations _ _ _ _ _) as [groups' total']. simpl in *. subst total'.
  destruct (IH _ _ Hg') as (groups'' & -> & Hg''). exists groups''.
  unfold epoch_inputs in *. simpl. by rewrite (assoc_L (++)).
Qed.

Lemma aggregate_groups_spec act slots epoch gs : ∀ d a r,
  aggregate_groups act slots epoch gs d a = Some r →
  Forall2 (λ kv g, aggregate_group act slots epoch kv.1.1 kv.1.2 kv.2 = Some g) gs r.1.1.
Proof.
  induction gs as [|[[slot app] inputs] gs IH]; intros d a r; simpl; [intros [= <-]; constructor|].
  destruct (aggregate_group _ _ _ _ _ _) as [g|] eqn:Hg; [|done]. simpl.
  destruct (aggregate_groups _ _ _ gs _ _) as [r'|] eqn:Hr; [|done]. simpl. intros [= <-].
  constructor; [done|]. by eapply IH.
Qed.

Lemma group_key act slots epoch slot app inputs g :
  aggregate_group act slots epoch slot app inputs = Some g →
  eg_slot_id g = slot ∧ eg_app_id g = app.
Proof.
  unfold aggregate_group. destruct (compute_gvs_factors _ _ _ _ _); [|done]. simpl.
  destruct (average_source_confidence_ppm _); [|done]. simpl. by intros [= <-].
Qed.

(** C12: the aggregation of an epoch is the reference aggregation of its observations:
    when every batch encodes, the observations counted are those of the epoch
    (saturating at 2^32 - 1), there is exactly one group per slot and application
    that was observed, in ascending order, and each group is computed from exactly
    the epoch's observations of that slot and application, in order of arrival. *)
Theorem epoch_aggregation_reference act slots epoch batches hashes r :
  Forall2 (λ b h, hash_batch_commit b.1 = Ok h) batches hashes →
  compute_local_epoch_aggregation act slots epoch (Ok batches) = Ok r →
  let inputs := epoch_inputs epoch hashes batches in
  let keys := (λ g, (eg_slot_id g, eg_app_id g)) <$> ec_groups r in
  ea_total_observation_count (ec_artifact r) = Z.min (Z.of_nat (length inputs)) (2 ^ 32 - 1) ∧
  NoDup keys ∧ StronglySorted (λ a b, leb a b = true) keys ∧
  (∀ k, k ∈ keys ↔ ∃ i, i ∈ inputs ∧ input_key i = k) ∧
  ∀ g, g ∈ ec_groups r → aggregate_group act slots epoch (eg_slot_id g) (eg_app_id g)
    (group_inputs (eg_slot_id g, eg_app_id g) inputs) = Some g.
Proof.
  intros Hh. unfold compute_local_epoch_aggregation. simpl.
  destruct (group_batches_spec epoch batches hashes ∅ [] Hh) as (groups & Hg & Hgs); [done|].
  change (Z.min (Z.of_nat (length (@nil AggregateInput))) (umax 32)) with 0 in Hg.
  rewrite Hg. simpl in Hgs |- *.
  destruct (aggregate_groups act slots epoch (bt_iter groups) 0 0) as [r'|] eqn:Ha; [|done].
  apply aggregate_groups_spec in Ha. simpl.
  destruct (aggregate_record_root _) as [root| |]; simpl; [|done..]. intros [= <-]. simpl.
  assert ((λ g, (eg_slot_id g, eg_app_id g)) <$> r'.1.1 = (bt_iter groups).*1) as ->.
  { clear -Ha. induction Ha as [|[[s a] l] g gs r Hg Ha IH]; csimpl; [done|].
    apply group_key in Hg as [-> ->]. simpl. by f_equal. }
  split_and!; [done|apply NoDup_bt_keys| | |].
  - apply bt_keys_sorted.
  - intros k. rewrite list_elem_of_fmap. split.
    + intros ([k' l] & -> & Hk%elem_of_bt_iter). simpl. rewrite (Hgs k') in Hk.
      destruct (group_inputs k' _) as [|i l'] eqn:E; [done|].
      assert (i ∈ group_inputs k' (epoch_inputs epoch hashes batches)) as [? ?]%list_elem_of_filter
        by (rewrite E; set_solver). by exists i.
    + intros (i & Hi & <-). destruct (groups !! input_key i) as [l|] eqn:E.
      * exists (input_key i, l). by rewrite elem_of_bt_iter.
      * rewrite (Hgs (input_key i)) in E.
        assert (i ∈ group_inputs (input_key i) (epoch_inputs epoch hashes batches)) as Hin
          by (by apply list_elem_of_filter). destruct (group_inputs _ _); set_solver.
  - intros g Hin. apply list_elem_of_lookup_1 in Hin as [n Hn].
    destruct (Forall2_lookup_r _ _ _ _ _ Ha Hn) as ([[s a] l] & Hl & Hagg). simpl in Hagg.
    destruct (group_key _ _ _ _ _ _ _ Hagg) as [-> ->].
    apply list_elem_of_lookup_2, elem_of_bt_iter in Hl. rewrite (Hgs (s, a)) in Hl.
    destruct (group_inputs (s, a) _); [done|]. by injection Hl as <-.
Qed.
End Epoch.

(** Five collectors around 100 players and two that report extremes; one collector
    reports twice. *)
Definition demo_input (collector : Z) (at_millis players : Z) : AggregateInput := {|
  ai_observation := {|
    obs_epoch_id := 1; obs_slot_id := 3; obs_app_id := 570; obs_source_kind := Steam;
    obs_source_confidence_ppm := 900000; observed_players := players;
    observed_at_millis := at_millis; obs_collector_id := [collector];
    raw_body_cid := ""; raw_body_hash := []; collector_signature := [] |};
  ai_batch_commit_hash := [] |}.

Definition demo_inputs : list AggregateInput :=
  [demo_input 1 10 100; demo_input 2 11 104; demo_input 3 12 98; demo_input 4 9 1000000;
   demo_input 5 8 0; demo_input 1 5 101; demo_input 6 7 103; demo_input 7 6 99].

Lemma group_median_resists_minority_witness :
  ∃ g, @aggregate_group true demo_external None 12 1 3 570 demo_inputs = Some g ∧
    eg_unique_collectors g = 7 ∧ 98 <= agg_median_players (eg_aggregate g) <= 104.
Proof.
  apply (@group_median_resists_minority true demo_external 12 1 3 570 demo_inputs 98 104); try lia.
  - vm_compute. discriminate.
  - apply Forall_forall. unfold demo_inputs. repeat constructor; vm_compute; try done.
  - unfold majority_within. apply Nat.ltb_lt. vm_compute. reflexivity.
Defined.

Definition demo_commit : BatchCommit := {|
  bc_epoch_id := 1; bc_collector_id := [1]; slot_start := 3; slot_end := 3;
  batch := {| root := []; leaf_count := 4 |}; bc_payload_cid := "cid"; obs_count := 4;
  submitted_at_height := 0 |}.
Definition demo_batches : list (BatchCommit * list ObservationRecord) :=
  [(demo_commit, ai_observation <$> take 4 demo_inputs);
   (demo_commit, ai_observation <$> drop 4 demo_inputs)].
Definition demo_hash : Hash32 := @merkle_leaf_sha256 demo_external [1; 4].

Lemma epoch_aggregation_reference_witness :
  ∃ r, @compute_local_epoch_aggregation true demo_external demo_pipeline_encoding None 12 1
         (Ok demo_batches) = Ok r ∧
    ea_total_observation_count (ec_artifact r) = 8.
Proof.
  eexists. split; [vm_compute; reflexivity|].
  apply (@epoch_aggregation_reference true demo_external demo_pipeline_encoding None 12 1 demo_batches
           [demo_hash; demo_hash]); [repeat constructor|vm_compute; reflexivity].
Defined.
