(* ===== verification/MutualProof.v ===== *)
(** * Mutual proof: src/src/mutual_proof.rs

    A node's signed play session, the heartbeats that cover it and an independent
    node's attestation, with the key pair of src/src/wallet/keys.rs. Ed25519 signing
    and Borsh encoding are the operations of [ProofExternal]; [SigningLaws] states
    that a signature verifies under the public key of its secret. The heartbeat file
    of a session is its parsed content. Wire projection, paths and file access are
    not modelled. *)
From S2P Require Import Prelude Primitives Params Records Crypto.
Local Open Scope pole_scope.

Record PlaySessionInputs := {
  in_app_id : AppId;
  in_epoch_id : EpochId;
  in_slot_id : SlotId;
  in_play_seconds : Z;
  in_collector_id : NodeId;
  in_observation_cid : string;
  in_observed_players : Z;
}.

Inductive MutualProofError :=
| WitnessIsPlayer
| WitnessIsCollector
| WitnessObservationReused
| EmptyObservationCid
| AddressError (e : string).

Record KeyPair := {
  secret : bytes;
  public : bytes;
  kp_address : bytes;
}.

Class ProofExternal := {
  (** [SigningKey::from_bytes(seed).verifying_key().to_bytes()] *)
  public_of_seed : bytes → bytes;
  (** [SigningKey::from_bytes(secret).sign(message).to_bytes()] *)
  ed25519_sign : bytes → bytes → bytes;
  (** [borsh::to_vec]; [None] is [Err], which the callers [expect] away. *)
  borsh_session : PlaySession → option bytes;
  borsh_heartbeat : PlayHeartbeat → option bytes;
  borsh_attestation : WitnessAttestation → option bytes;
}.

Class SigningLaws `{External, ProofExternal} : Prop := {
  signature_verifies : ∀ seed m,
    verify_signature (public_of_seed seed) m (ed25519_sign seed m) = true;
  borsh_session_total : ∀ s, is_Some (borsh_session s);
  borsh_attestation_total : ∀ a, is_Some (borsh_attestation a);
}.

Definition with_session_signature (s : PlaySession) (sg : bytes) : PlaySession := {|
  ps_session_id := ps_session_id s; ps_node_address := ps_node_address s;
  ps_app_id := ps_app_id s; ps_epoch_id := ps_epoch_id s; ps_slot_id := ps_slot_id s;
  play_seconds := play_seconds s; ps_collector_address := ps_collector_address s;
  observation_cid := observation_cid s; ps_observed_players := ps_observed_players s;
  ps_submitted_at_height := ps_submitted_at_height s; session_signature := sg |}.

Definition with_heartbeat_signature (h : PlayHeartbeat) (sg : bytes) : PlayHeartbeat := {|
  hb_session_id := hb_session_id h; hb_node_address := hb_node_address h;
  bucket_index := bucket_index h; signed_at_millis := signed_at_millis h;
  heartbeat_signature := sg |}.

Definition with_witness_signature (a : WitnessAttestation) (sg : bytes) : WitnessAttestation := {|
  wa_session_id := wa_session_id a; witness_address := witness_address a;
  observed_play_seconds := observed_play_seconds a;
  witness_observation_cid := witness_observation_cid a;
  wa_observed_players := wa_observed_players a; attested_at_height := attested_at_height a;
  witness_signature := sg |}.

Section MutualProof.
Context `{X : External} `{PX : ProofExternal}.

Definition from_seed (seed : bytes) : KeyPair :=
  let public := public_of_seed seed in
  {| secret := seed; public := public; kp_address := stable_hash32 public |}.

Definition sign (k : KeyPair) (message : bytes) : bytes := ed25519_sign (secret k) message.

Definition session_signing_payload (s : PlaySession) : option bytes :=
  borsh_session (with_session_signature s []).
Definition heartbeat_signing_payload (h : PlayHeartbeat) : option bytes :=
  borsh_heartbeat (with_heartbeat_signature h []).
Definition attestation_signing_payload (a : WitnessAttestation) : option bytes :=
  borsh_attestation (with_witness_signature a []).

(** [sha256(pubkey)[..20]] (src/src/cosmos/address.rs). *)
Definition cosmos_account_from_pubkey (pubkey : bytes) : bytes := take 20 (sha256 pubkey).

Definition address_from_account20 (account : bytes) : Address := account ++ replicate 12 0.

Definition identity_account_address (public_key : bytes) : Address :=
  address_from_account20 (cosmos_account_from_pubkey public_key).

Definition collector_address (node_id : NodeId) : Address := node_id.

Definition session_payload (node_id : NodeId) (app_id : AppId) (epoch_id : EpochId)
    (slot_id : SlotId) (cid : string) : bytes :=
  string_bytes "pole-play-session-v1" ++ node_id ++ le_bytes 4 app_id ++ le_bytes 8 epoch_id ++
  le_bytes 8 slot_id ++ string_bytes cid.

Definition session_id_from_parts (node_id : NodeId) (app_id : AppId) (epoch_id : EpochId)
    (slot_id : SlotId) (cid : string) : Hash32 :=
  stable_hash32 (session_payload node_id app_id epoch_id slot_id cid).

(** [config_node_id] is the result of [config.node_id()]. *)
Definition build_play_session (config_node_id : outcome string NodeId) (identity : KeyPair)
    (inputs : PlaySessionInputs) : outcome MutualProofError PlaySession :=
  if bool_decide (in_observation_cid inputs = ""%string) then Err EmptyObservationCid else
  do? node_id <- map_err AddressError config_node_id;
  let session := {|
    ps_session_id := session_id_from_parts node_id (in_app_id inputs) (in_epoch_id inputs)
                       (in_slot_id inputs) (in_observation_cid inputs);
    ps_node_address := identity_account_address (public identity);
    ps_app_id := in_app_id inputs; ps_epoch_id := in_epoch_id inputs;
    ps_slot_id := in_slot_id inputs; play_seconds := in_play_seconds inputs;
    ps_collector_address := collector_address (in_collector_id inputs);
    observation_cid := in_observation_cid inputs;
    ps_observed_players := in_observed_players inputs;
    ps_submitted_at_height := 0; session_signature := [] |} in
  do? payload <- or_panic (session_signing_payload session);
  Ok (with_session_signature session (sign identity payload)).

Definition build_play_heartbeat (identity : KeyPair) (session : PlaySession) (bucket : Z)
    (at_millis : UnixMillis) : outcome MutualProofError PlayHeartbeat :=
  let heartbeat := {|
    hb_session_id := ps_session_id session; hb_node_address := ps_node_address session;
    bucket_index := bucket; signed_at_millis := at_millis; heartbeat_signature := [] |} in
  do? payload <- or_panic (heartbeat_signing_payload heartbeat);
  Ok (with_heartbeat_signature heartbeat (sign identity payload)).

(** The node id a witness is compared with: the configured one, else the hash of
    its key. *)
Definition witness_id (config_node_id : outcome string NodeId) (identity : KeyPair) : NodeId :=
  match config_node_id with Ok id => id | _ => stable_hash32 (public identity) end.

Definition build_witness_attestation (config_node_id : outcome string NodeId) (identity : KeyPair)
    (session : PlaySession) (own_observation_cid : string) (seconds players : Z)
    : outcome MutualProofError WitnessAttestation :=
  if bool_decide (own_observation_cid = ""%string) then Err EmptyObservationCid else
  let address := identity_account_address (public identity) in
  if bool_decide (address = ps_node_address session) then Err WitnessIsPlayer else
  if bool_decide (witness_id config_node_id identity = ps_collector_address session)
  then Err WitnessIsCollector else
  if negb (bool_decide (observation_cid session = ""%string))
     && bool_decide (own_observation_cid = observation_cid session)
  then Err WitnessObservationReused else
  let attestation := {|
    wa_session_id := ps_session_id session; witness_address := address;
    observed_play_seconds := seconds; witness_observation_cid := own_observation_cid;
    wa_observed_players := players; attested_at_height := 0; witness_signature := [] |} in
  do? payload <- or_panic (attestation_signing_payload attestation);
  Ok (with_witness_signature attestation (sign identity payload)).

(** The new content of the heartbeat file of the session. *)
Definition save_play_heartbeat (existing : list PlayHeartbeat) (h : PlayHeartbeat)
    : list PlayHeartbeat :=
  if existsb (λ c, bucket_index c =? bucket_index h) existing then existing
  else sort_by_key bucket_index (existing ++ [h]).

Fixpoint local_session_ids (sessions : list PlaySession) (epoch_id : EpochId) (slot_id : SlotId)
    (by_app : gmap AppId string) : gmap AppId string :=
  match sessions with
  | [] => by_app
  | s :: sessions =>
      local_session_ids sessions epoch_id slot_id
        (if (ps_epoch_id s =? epoch_id) && (ps_slot_id s =? slot_id) then
           match by_app !! ps_app_id s with
           | Some _ => by_app
           | None => <[ps_app_id s := hex_32 (ps_session_id s)]> by_app
           end
         else by_app)
  end.

(** [sessions] is the result of [load_play_sessions]. *)
Definition local_session_ids_for_slot (sessions : list PlaySession) (epoch_id : EpochId)
    (slot_id : SlotId) : gmap AppId string := local_session_ids sessions epoch_id slot_id ∅.
End MutualProof.

(** * Theorems *)

(** ** Session ids *)

Lemma le_bytes_inj n x y :
  0 <= x < 256 ^ Z.of_nat n → 0 <= y < 256 ^ Z.of_nat n → le_bytes n x = le_bytes n y → x = y.
Proof.
  revert x y. induction n as [|n IH]; intros x y Hx Hy; simpl.
  { simpl in *. lia. }
  rewrite Nat2Z.inj_succ, Z.pow_succ_r in Hx, Hy by lia. intros [= Hm Hd].
  apply IH in Hd; [|split; [apply Z.div_pos; lia|apply Z.div_lt_upper_bound; lia]..].
  pose proof (Z.div_mod x 256). pose proof (Z.div_mod y 256). lia.
Qed.

Record parts_typed (node_id : NodeId) (app_id : AppId) (epoch_id : EpochId) (slot_id : SlotId)
    : Prop := {
  pt_node : length node_id = 32%nat;
  pt_app : 0 <= app_id < 2 ^ 32;
  pt_epoch : 0 <= epoch_id < 2 ^ 64;
  pt_slot : 0 <= slot_id < 2 ^ 64;
}.

(** A session id names one session scope: two claims with the same id have the
    same node, application, epoch, slot and observation, unless the hash function maps
    their two different payloads to one id (the fixed-width fields leave no room for
    ambiguity). *)
Theorem session_id_binding n a e s c n' a' e' s' c' :
  parts_typed n a e s → parts_typed n' a' e' s' →
  session_id_from_parts n a e s c = session_id_from_parts n' a' e' s' c' →
  (n = n' ∧ a = a' ∧ e = e' ∧ s = s' ∧ c = c') ∨
  (session_payload n a e s c ≠ session_payload n' a' e' s' c' ∧
   stable_hash32 (session_payload n a e s c) = stable_hash32 (session_payload n' a' e' s' c')).
Proof.
  intros [Hn Ha He Hs] [Hn' Ha' He' Hs'] Heq.
  destruct (decide (session_payload n a e s c = session_payload n' a' e' s' c')) as [Hp|Hp];
    [left|right; by split].
  unfold session_payload in Hp. apply app_inj_1 in Hp as [_ Hp]; [|done].
  apply app_inj_1 in Hp as [-> Hp]; [|congruence].
  apply app_inj_1 in Hp as [Ha1 Hp]; [|by rewrite !le_bytes_length].
  apply app_inj_1 in Hp as [He1 Hp]; [|by rewrite !le_bytes_length].
  apply app_inj_1 in Hp as [Hs1 Hp]; [|by rewrite !le_bytes_length].
  apply le_bytes_inj in Ha1; [|done..]. apply le_bytes_inj in He1; [|done..].
  apply le_bytes_inj in Hs1; [|done..]. by apply string_bytes_inj in Hp.
Qed.

(** ** Attestations *)

Section Proofs.
Context `{X : External} `{PX : ProofExternal} `{L : !SigningLaws}.

(** C15: witnesses are independent. An attestation is built exactly when the witness
    has an observation of its own, is neither the player nor the collector of the
    session and does not reuse the session's observation; it then names the session
    and the witness, carries the witness's observation, and its signature verifies
    under the witness's key. *)
Theorem attestation_independent id seed session cid seconds players :
  let k := from_seed seed in
  let me := identity_account_address (public k) in
  match build_witness_attestation id k session cid seconds players with
  | Ok a => me ≠ ps_node_address session ∧ witness_id id k ≠ ps_collector_address session ∧
      cid ≠ ""%string ∧ cid ≠ observation_cid session ∧
      wa_session_id a = ps_session_id session ∧ witness_address a = me ∧
      witness_observation_cid a = cid ∧
      ∃ payload, attestation_signing_payload a = Some payload ∧
        verify_signature (public k) payload (witness_signature a) = true
  | Err EmptyObservationCid => cid = ""%string
  | Err WitnessIsPlayer => me = ps_node_address session
  | Err WitnessIsCollector => witness_id id k = ps_collector_address session
  | Err WitnessObservationReused => cid = observation_cid session
  | Err (AddressError _) | Panic => False
  end.
Proof.
  intros k me. unfold build_witness_attestation. fold me.
  case_bool_decide as Hcid; [done|]. case_bool_decide as Hme; [done|].
  case_bool_decide as Hcol; [done|].
  destruct (negb _ && _) eqn:Hreuse.
  { apply andb_true_iff in Hreuse as [_ Hreuse]. by apply bool_decide_eq_true in Hreuse. }
  assert (cid ≠ observation_cid session) as Hown.
  { apply andb_false_iff in Hreuse as [Hr|Hr%bool_decide_eq_false]; [|done].
    apply negb_false_iff, bool_decide_eq_true in Hr. congruence. }
  set (a := {| wa_session_id := ps_session_id session |}).
  destruct (borsh_attestation_total (with_witness_signature a [])) as [payload Hp].
  unfold attestation_signing_payload. rewrite Hp. simpl. split_and!; try done.
  exists payload. split; [exact Hp|]. apply signature_verifies.
Qed.

(** The claim of a player is signed with its identity key and names its scope; an
    unconfigured node id is an error. *)
Theorem play_session_signed node_id seed inputs :
  in_observation_cid inputs ≠ ""%string →
  let k := from_seed seed in
  ∃ s payload, build_play_session (Ok node_id) k inputs = Ok s ∧
    ps_session_id s = session_id_from_parts node_id (ps_app_id s) (ps_epoch_id s) (ps_slot_id s)
                        (observation_cid s) ∧
    ps_node_address s = identity_account_address (public k) ∧
    session_signing_payload s = Some payload ∧
    verify_signature (public k) payload (session_signature s) = true.
Proof.
  intros Hcid k. unfold build_play_session. rewrite bool_decide_false by done. simpl.
  set (s := {| ps_session_id := session_id_from_parts _ _ _ _ _ |}).
  destruct (borsh_session_total (with_session_signature s [])) as [payload Hp].
  unfold session_signing_payload. rewrite Hp. simpl. exists (with_session_signature s (sign k payload)), payload.
  split_and!; try done. apply signature_verifies.
Qed.
End Proofs.

(** ** Heartbeats *)

(** The file of a session: one heartbeat per bucket, in bucket order. *)
Definition heartbeats_ok (hs : list PlayHeartbeat) : Prop :=
  NoDup (bucket_index <$> hs) ∧
  StronglySorted (λ a b, leb (bucket_index a) (bucket_index b) = true) hs.

(** Saving keeps one heartbeat per bucket in order, never loses one, and a second
    heartbeat for a bucket changes nothing. *)
Theorem save_play_heartbeat_spec hs h :
  heartbeats_ok hs →
  heartbeats_ok (save_play_heartbeat hs h) ∧
  (bucket_index h ∈ (bucket_index <$> hs) → save_play_heartbeat hs h = hs) ∧
  (bucket_index h ∉ (bucket_index <$> hs) → save_play_heartbeat hs h ≡ₚ h :: hs).
Proof.
  intros [Hnd Hs]. unfold save_play_heartbeat.
  destruct (existsb _ hs) eqn:E.
  - apply existsb_exists in E as (c & Hc%list_elem_of_In & Heq%Z.eqb_eq). split_and!; [done|done|].
    intros Hno. destruct Hno. rewrite <- Heq. by apply list_elem_of_fmap_2.
  - assert (bucket_index h ∉ (bucket_index <$> hs)) as Hno.
    { intros (c & Hb & Hc%list_elem_of_In)%list_elem_of_fmap.
      assert (existsb (λ c, bucket_index c =? bucket_index h) hs = true) as Ht.
      { apply existsb_exists. exists c. split; [done|]. by apply Z.eqb_eq. } congruence. }
    assert (sort_by_key bucket_index (hs ++ [h]) ≡ₚ h :: hs) as Hp
      by (rewrite sort_by_key_perm; by rewrite (comm (++))).
    split_and!; [|done|done]. split; [|apply sort_by_key_sorted].
    rewrite Hp. simpl. by constructor.
Qed.

(** A toy instance of the signing crates, on which the laws hold. *)
Definition demo_proof_external : ProofExternal := {|
  public_of_seed := λ seed, seed;
  ed25519_sign := λ _ _, replicate 64 0;
  borsh_session := λ _, Some [];
  borsh_heartbeat := λ _, Some [];
  borsh_attestation := λ a, Some (witness_address a);
|}.

Lemma demo_signing_laws : @SigningLaws demo_external demo_proof_external.
Proof. split; done. Qed.

Definition demo_session : PlaySession := {|
  ps_session_id := [1]; ps_node_address := replicate 32 1; ps_app_id := 570; ps_epoch_id := 1;
  ps_slot_id := 3; play_seconds := 600; ps_collector_address := replicate 32 2;
  observation_cid := "cid://a"; ps_observed_players := 100; ps_submitted_at_height := 0;
  session_signature := [] |}.

(** The attestation the laws speak of is built: the witness is a third node with an
    observation of its own. *)
Lemma attestation_independent_witness :
  let k := @from_seed demo_proof_external (replicate 32 9) in
  ∃ a payload, @build_witness_attestation demo_external demo_proof_external (Ok (replicate 32 3)) k
      demo_session "cid://b" 590 98 = Ok a ∧
    "cid://b"%string ≠ observation_cid demo_session ∧
    @attestation_signing_payload demo_proof_external a = Some payload ∧
    @verify_signature demo_external (public k) payload (witness_signature a) = true.
Proof.
  intros k.
  generalize (@attestation_independent demo_external demo_proof_external demo_signing_laws
    (Ok (replicate 32 3)) (replicate 32 9) demo_session "cid://b" 590 98). cbv zeta. fold k.
  destruct (build_witness_attestation _ k _ _ _ _) as [a|e|] eqn:E;
    [|vm_compute in E; discriminate..].
  intros (_ & _ & _ & Hown & _ & _ & _ & payload & Hp & Hv). exists a, payload.
  exact (conj eq_refl (conj Hown (conj Hp Hv))).
Defined.

Lemma session_id_binding_witness :
  let n := replicate 32 7 in
  (n = n ∧ 570 = 570 ∧ 1 = 1 ∧ 3 = 3 ∧ "c" = "c")%string ∨
  (session_payload n 570 1 3 "c" ≠ session_payload n 570 1 3 "c" ∧
   stable_hash32 (session_payload n 570 1 3 "c") = stable_hash32 (session_payload n 570 1 3 "c")).
Proof.
  apply (session_id_binding (replicate 32 7) 570 1 3 "c" (replicate 32 7) 570 1 3 "c");
    [split; (lia || done)..|reflexivity].
Defined.
