(* ===== verification/Submission.v ===== *)
(** * From the collector to the chain

    The batch that the pipeline seals (Pipeline) is what [apply_submit_batch]
    (Transitions) asks for: none of the structural checks of the chain can reject
    it, so a registered collector that signs it gets it accepted. *)
From S2P Require Import Prelude Primitives Params Records Crypto Store Transitions Pipeline.

Section Submission.
Context `{B : BuildMode} `{X : External} `{PE : PipelineEncoding} `{T : !EncodingTotal}.

Definition submit_tx (s : AssembledBatch) (pk sg : bytes) : SubmitBatchTx :=
  {| sb_batch_commit := ab_batch_commit s; sb_pubkey := pk; sb_signature := sg |}.

(** The transaction signed with [sign]: the payload leaves the signature out. *)
Definition signed_submission (sign : bytes → bytes) (s : AssembledBatch) (pk : bytes)
    : option SubmitBatchTx :=
  payload ← signing_payload (SubmitBatch (submit_tx s pk []));
  Some (submit_tx s pk (sign payload)).

(** The structural checks of [apply_submit_batch]. *)
Lemma sealed_structure b h s :
  bb_observations b ≠ [] → Z.of_nat (length (bb_observations b)) < 2 ^ 32 → sealed b h s →
  bc_payload_cid (ab_batch_commit s) ≠ ""%string ∧ obs_count (ab_batch_commit s) ≠ 0 ∧
  slot_start (ab_batch_commit s) <= slot_end (ab_batch_commit s).
Proof.
  intros Hne Hlen Hs. destruct (bb_observations b) as [|o os] eqn:E; [done|].
  destruct (sealed_payload _ _ _ Hs) as [_ ->], (sealed_count _ _ _ Hs) as [-> _].
  pose proof (sealed_slots _ _ _ Hs o) as Hslot. rewrite E in *. split_and!.
  - done.
  - rewrite Z.mod_small by lia. simpl. lia.
  - specialize (Hslot ltac:(set_solver)). lia.
Qed.

(** A run of [apply_submit_batch] whose checks all pass up to the duplicate test. *)
Lemma submit_checked (st : ProtocolState InMemoryStore) tx payload n :
  let b := sb_batch_commit tx in
  signing_payload (SubmitBatch tx) = Some payload →
  stable_hash32 (sb_pubkey tx) = bc_collector_id b →
  verify_signature (sb_pubkey tx) payload (sb_signature tx) = true →
  current_epoch st <= bc_epoch_id b → bc_payload_cid b ≠ ""%string → obs_count b ≠ 0 →
  slot_start b <= slot_end b → nodes (store st) !! bc_collector_id b = Some n →
  status n = NodeActive → Collect ∈ enabled_capabilities n →
  let key : BatchKey := (bc_epoch_id b, node_id n, root (batch b)) in
  apply_submit_batch tx st =
    match batches (store st) !! key with
    | None => (Ok (BatchAccepted key), set_store st (set_batches (store st)
        (<[key := set_submitted_at b (height st)]> (batches (store st)))))
    | Some _ => (Err (DuplicateBatch key), st)
    end.
Proof.
  intros b Hp Hpk Hv Hep Hcid Hcount Hslots Hn Hact Hcap key.
  unfold apply_submit_batch, m_bind, check_signature, chk, m_bind. rewrite Hp.
  unfold lift, ensure_signature, gets, ensure. rewrite bool_decide_true by done. simpl. rewrite Hv. simpl.
  fold b. unfold ensure_epoch_not_stale, ensure_non_empty_payload.
  rewrite (proj2 (Z.ltb_ge _ _) Hep), bool_decide_false by done. simpl.
  rewrite (proj2 (Z.eqb_neq _ _) Hcount), (proj2 (Z.ltb_ge _ _) Hslots). simpl.
  unfold require_active_node_with_capability, require_active_node, node_or_err, m_bind, from_store,
    gets, ok_or, ensure. simpl. rewrite Hn. simpl. rewrite bool_decide_true by done. simpl.
  rewrite bool_decide_true by done. simpl. fold key.
  case_bool_decide as Hk; [by rewrite Hk|]. by destruct (batches (store st) !! key).
Qed.

(** a batch sealed by the pipeline is accepted by the chain: for a registered,
    active collector that signs it, in an epoch that is not stale, unless the same
    batch is already there. The chain then holds the batch with the current height,
    nothing else changes, and the epoch can be committed. *)
Theorem sealed_batch_accepted (st : ProtocolState InMemoryStore) b h pk sign n :
  bb_observations b ≠ [] → Z.of_nat (length (bb_observations b)) < 2 ^ 32 →
  stable_hash32 pk = bb_collector_id b →
  (∀ t, is_Some (borsh_tx t)) → (∀ m, verify_signature pk m (sign m) = true) →
  current_epoch st <= bb_epoch_id b →
  nodes (store st) !! bb_collector_id b = Some n → status n = NodeActive →
  Collect ∈ enabled_capabilities n →
  ∃ s tx, finalize b h = Ok s ∧ signed_submission sign s pk = Some tx ∧
    let key : BatchKey := (bb_epoch_id b, node_id n, root (batch (ab_batch_commit s))) in
    let st' := set_store st (set_batches (store st)
      (<[key := set_submitted_at (ab_batch_commit s) (height st)]> (batches (store st)))) in
    (batches (store st) !! key = None →
     apply_submit_batch tx st = (Ok (BatchAccepted key), st') ∧
     has_any_batch_for_epoch (store st') (bb_epoch_id b) = true) ∧
    (batches (store st) !! key ≠ None →
     apply_submit_batch tx st = (Err (DuplicateBatch key), st)).
Proof.
  intros Hne Hlen Hpk Hborsh Hsig Hep Hn Hact Hcap.
  destruct (finalize_seals b h Hne) as (s & Hf & Hs). exists s.
  destruct (Hborsh (clear_signature (SubmitBatch (submit_tx s pk [])))) as [payload Hp].
  set (tx := submit_tx s pk (sign payload)). exists tx. split; [done|].
  split; [unfold signed_submission, signing_payload; by rewrite Hp|]. intros key st'.
  destruct (sealed_structure b h s Hne Hlen Hs) as (Hcid & Hcount & Hslots).
  destruct (sealed_header _ _ _ Hs) as (He & Hc & _).
  assert (apply_submit_batch tx st =
    match batches (store st) !! key with
    | None => (Ok (BatchAccepted key), st')
    | Some _ => (Err (DuplicateBatch key), st)
    end) as Hrun.
  { pose proof (submit_checked st tx payload n) as Hsub. simpl in Hsub.
    rewrite He, Hc in Hsub. apply Hsub; done || by apply Hsig. }
  rewrite Hrun. split; intros Hb.
  - rewrite Hb. split; [done|]. apply existsb_exists. exists key. split; [|apply Z.eqb_refl].
    apply list_elem_of_In, list_elem_of_fmap.
    exists (key, set_submitted_at (ab_batch_commit s) (height st)). split; [done|].
    apply elem_of_bt_iter, lookup_insert_eq.
  - by destruct (batches (store st) !! key).
Qed.
End Submission.
