(* ===== verification/Scenarios.v ===== *)
(** * Scenarios: concrete runs of the ledger

    A small chain with two accounts and one node, run on the toy crypto instance
    with overflow checks. The runs instantiate the theorems of the ledger files
    and exhibit the behaviours reported as findings. *)
From S2P Require Import Prelude Primitives Params Records Crypto Store Transitions Executor.
From S2P Require Import Refinement Ledger Governance Solvency Finality Accounts Pipeline Submission.

#[local] Instance demo_build : BuildMode := true.
#[local] Existing Instance demo_external.

Definition alice_key : bytes := replicate 32 1.
Definition bob_key : bytes := replicate 32 2.
Definition alice : Address := Eval vm_compute in stable_hash32 alice_key.
Definition bob : Address := Eval vm_compute in stable_hash32 bob_key.
Definition nobody : Address := replicate 32 9.
Definition any_signature : bytes := replicate 64 0.

Definition demo_account (a : Address) (b : Z) : AccountState :=
  {| address := a; balance := b; staked := 0; locked := 0; nonce := 0 |}.

Definition demo_node : NodeRegistry := {|
  node_id := alice; nr_pubkey := alice_key; reward_address := alice; bond := 20000;
  status := NodeActive; enabled_capabilities := [Collect; Propose];
  reputation := {| score_ppm := 0; successful_challenges := 0; failed_challenges := 0;
    challengeable_faults := 0; collection_successes := 0; collection_failures := 0;
    storage_proofs_passed := 0; storage_proofs_failed := 0; last_updated_epoch := 0 |};
  joined_at_height := 0 |}.

Definition demo_state : pstate := {|
  height := 1; current_epoch := 0; params := ProtocolParams_default;
  store := insert_node (insert_account (insert_account InMemoryStore_default
    (demo_account alice 100000)) (demo_account bob 50000)) demo_node |}.

Definition pay (to : Address) (n : Z) : Transaction := Transfer {|
  tr_from := alice; tr_to := to; tr_amount := 10; tr_fee := 1; tr_nonce := n;
  tr_pubkey := alice_key; tr_signature := any_signature |}.
Definition stake500 : Transaction := Stake {|
  st_delegator := bob; st_operator := alice; st_amount := 500; st_nonce := 0;
  st_pubkey := bob_key; st_signature := any_signature |}.
Definition unbond500 : Transaction := Unbond {|
  un_delegator := bob; un_operator := alice; un_amount := 500; un_nonce := 1;
  un_pubkey := bob_key; un_signature := any_signature |}.

Definition no_leaves : MerkleCommitment := {| root := replicate 32 0; leaf_count := 0 |}.
Definition batch0 : Transaction := SubmitBatch {|
  sb_batch_commit := {| bc_epoch_id := 0; bc_collector_id := alice; slot_start := 0; slot_end := 1;
    batch := no_leaves; bc_payload_cid := "cid"; obs_count := 1; submitted_at_height := 0 |};
  sb_pubkey := alice_key; sb_signature := any_signature |}.
Definition commit0 : Transaction := CommitEpoch {|
  ce_epoch_commit := {| ec_epoch_id := 0; accepted_batches := no_leaves; observations := no_leaves;
    aggregates := no_leaves; ec_rewards := no_leaves; availability := no_leaves;
    randomness_seed := replicate 32 0; proposer_id := alice; challenge_open_height := 0;
    challenge_deadline_height := 3 |};
  ce_pubkey := alice_key; ce_signature := any_signature |}.
Definition challenge0 : Transaction := OpenChallenge {|
  oc_challenge := {| ch_challenge_id := replicate 32 5; ch_kind := BadBatch; ch_epoch_id := 0;
    target_node := Some alice; challenger := bob; ch_bond := 100; opened_at_height := 0;
    deadline_height := 3; ch_state := Open;
    evidence := {| ev_batch_root := None; aggregate_root := None; reward_root := None;
      ev_payload_cid := None; ev_merkle_proof := [] |} |};
  oc_pubkey := bob_key; oc_signature := any_signature |}.
Definition reward0 : RewardRecord := {|
  rw_epoch_id := 0; rw_node_id := alice; recipient_address := ""; player_reward := 70;
  collect_reward := 0; store_reward := 0; verify_reward := 0; propose_reward := 0;
  slash_debit := 0; net_reward := 70 |}.
Definition claim_tx : ClaimRewardTx := {|
  cl_claimer := alice; cl_epoch_id := 0; cl_node_id := alice; cl_amount := 70;
  cl_merkle_proof := []; cl_nonce := 0; cl_pubkey := alice_key; cl_signature := any_signature |}.
Definition bond_id : Hash32 := replicate 32 5.

(** ** Running operations *)

Definition after (tx : Transaction) (st : pstate) : pstate := (apply_transaction tx st).2.
Definition effect_of {E} (r : outcome E TransitionEffect) : TransitionEffect :=
  match r with Ok e => e | _ => EpochFinalized (-1) end.

Lemma pair_ok {E A S} (x : outcome E A * S) : is_ok x.1 = true → x = (x.1, x.2) ∧ x.1 ≠ Panic.
Proof. by destruct x as [[]]. Qed.

Lemma ok_result {E A S} (x : outcome E A * S) (r : outcome E A) : x.1 = r → x = (r, x.2).
Proof. destruct x. by intros <-. Qed.

Lemma step_after tx st :
  tx_typed tx → is_ok (apply_transaction tx st).1 = true → step st (after tx st).
Proof. intros Ht [He Hp]%pair_ok. exact (step_transaction _ _ _ _ Ht He Hp). Qed.

Definition at_block (h : Height) (st : pstate) : pstate :=
  (process_mature_unbonds (set_height st h)).2.
Lemma step_at_block h st :
  height st < h → is_ok (process_mature_unbonds (set_height st h)).1 = true → step st (at_block h st).
Proof. intros Hh [He Hp]%pair_ok. exact (step_block_start _ _ _ _ Hh He Hp). Qed.

Definition finalized (e : EpochId) (st : pstate) : pstate := (finalize_epoch e st).2.
Lemma step_finalized e st : is_ok (finalize_epoch e st).1 = true → step st (finalized e st).
Proof. intros [He Hp]%pair_ok. exact (step_finalize _ _ _ _ He Hp). Qed.

(** Epoch 0: a batch, its commit, a block past the window, finalization, and the
    reward of the epoch. *)
Definition st_committed : pstate := after commit0 (after batch0 demo_state).
Definition st_late : pstate := at_block 5 st_committed.
Definition st_final : pstate := finalized 0 st_late.
Definition st_reward : pstate := (upsert_reward_record reward0 st_final).2.
Definition st_claimed : pstate := (apply_claim_reward claim_tx st_reward).2.
Definition st_unbonding : pstate := after unbond500 (after stake500 demo_state).

Ltac run := vm_compute; reflexivity.
Ltac result := unfold st_claimed, st_final, finalized, after; apply ok_result; run.
Ltac typed := vm_compute; intuition congruence.

Lemma demo_genesis : genesis_state demo_state.
Proof.
  split; try reflexivity; simpl.
  - repeat (apply map_Forall_insert_2; [typed|]). apply map_Forall_empty.
  - split; [reflexivity|typed].
Qed.

Lemma late_steps : rtc step demo_state st_late.
Proof.
  eapply rtc_r; [|apply step_at_block; run].
  eapply rtc_r; [|apply step_after; [exact I|run]].
  eapply rtc_r; [|apply step_after; [exact I|run]]. apply rtc_refl.
Qed.

Lemma late_reachable : reachable st_late.
Proof. exists demo_state. split; [apply demo_genesis|apply late_steps]. Qed.

Lemma final_steps : rtc step demo_state st_final.
Proof. eapply rtc_r; [apply late_steps|apply step_finalized; run]. Qed.

Lemma final_reachable : reachable st_final.
Proof. exists demo_state. split; [apply demo_genesis|apply final_steps]. Qed.

Lemma unbonding_reachable : reachable st_unbonding.
Proof.
  exists demo_state. split; [apply demo_genesis|].
  eapply rtc_r; [|apply step_after; [typed|run]].
  eapply rtc_r; [|apply step_after; [typed|run]]. apply rtc_refl.
Qed.

(** ** The ledger's theorems on these runs *)

Definition demo_block : Block := {| block_height := 2; transactions := [pay bob 0; stake500] |}.
Definition effects_of {E} (r : outcome E (list TransitionEffect)) : list TransitionEffect :=
  match r with Ok l => l | _ => [] end.

Lemma supply_block_witness :
  supply (execute_block demo_block demo_state).2 =
    supply demo_state + lsum minted (effects_of (execute_block demo_block demo_state).1).
Proof. apply (supply_block eq_refl demo_block). result. Defined.

Lemma supply_error_witness :
  supply (after (pay nobody 0) demo_state) = supply demo_state ∨
  ∃ t, pay nobody 0 = Transfer t ∧ UnknownAccount nobody = UnknownAccount (tr_to t) ∧
    accounts (store demo_state) !! tr_to t = None ∧
    supply (after (pay nobody 0) demo_state) =
      supply demo_state - saturating_add 128 (tr_amount t) (tr_fee t).
Proof. apply (supply_error eq_refl (pay nobody 0)). result. Defined.

Definition st_challenged : pstate := after challenge0 st_committed.

Lemma supply_resolution_witness :
  ∃ c, open_challenges (store st_challenged) !! bond_id = Some c ∧
    supply (resolve_challenge bond_id ResRejected st_challenged).2 = supply st_challenged + - ch_bond c.
Proof.
  apply (supply_resolution eq_refl bond_id ResRejected st_challenged
    (effect_of (resolve_challenge bond_id ResRejected st_challenged).1)). result.
Defined.

Lemma solvency_witness : owed (store st_unbonding) bob <= locked_of (accounts (store st_unbonding)) bob.
Proof. apply (solvency eq_refl). apply unbonding_reachable. Defined.

Lemma matured_unbonds_paid_witness :
  let matured := filter (λ r, unlock_height r <= 10) (unbonding_queue (store st_unbonding)) in
  ∃ st', process_mature_unbonds (set_height st_unbonding 10) =
      (Ok ((λ u, UnbondMatured (ub_delegator u) (ub_operator u) (ub_amount u)) <$> matured), st') ∧
    unbonding_queue (store st') = filter (λ r, ¬ unlock_height r <= 10) (unbonding_queue (store st_unbonding)) ∧
    ∀ a, balance_of (accounts (store st')) a =
      balance_of (accounts (store st_unbonding)) a + lsum (due_unbond a) matured.
Proof. apply (matured_unbonds_paid eq_refl st_unbonding 10); [apply unbonding_reachable|run]. Defined.

Lemma finalize_error_changes_nothing_witness : finalized 0 st_final = st_final.
Proof.
  apply (finalize_error_changes_nothing eq_refl 0 st_final (EpochAlreadyFinalized 0));
    [apply final_reachable|result].
Defined.

Lemma params_always_valid_witness :
  validate (params st_final) = Ok tt ∧
  ∀ e p, scheduled_params (store st_final) !! e = Some p → validate p = Ok tt.
Proof. apply (params_always_valid eq_refl). apply final_reachable. Defined.

Lemma finalized_stays_closed_witness :
  0 < current_epoch st_final ∧
  (∃ c, epoch_commits (store st_final) !! 0 = Some c ∧ challenge_deadline_height c < height st_final) ∧
  ∀ k ch, open_challenges (store st_final) !! k = Some ch → ch_epoch_id ch ≠ 0.
Proof.
  apply (finalized_stays_closed eq_refl); [apply final_reachable|].
  apply (bool_decide_eq_true_1 (0 ∈ finalized_epochs (store st_final))). run.
Defined.

Lemma history_grows_witness : grows demo_state st_final.
Proof. apply (history_grows eq_refl). apply final_steps. Defined.

Lemma no_replay_witness :
  apply_transaction (pay bob 0) (after (pay bob 0) demo_state) ≠
    (Ok (TransferApplied alice bob 10 1), demo_state).
Proof.
  apply (no_replay eq_refl (pay bob 0) demo_state (TransferApplied alice bob 10 1)
    (after (pay bob 0) demo_state)); [result|run|apply rtc_refl].
Defined.

Lemma finalize_epoch_spec_witness :
  EpochFinalized 0 = EpochFinalized 0 ∧ finalized_state 0 st_late st_final.
Proof.
  apply (finalize_epoch_spec eq_refl 0 st_late (EpochFinalized 0) st_final);
    [apply (wf_keyed [] st_late); apply (reachable_wf eq_refl), late_reachable|result].
Defined.

(** A proposal by bob, passed by alice's vote. *)
Definition propose_tx : Transaction := ProposeProtocolParamsUpdate {|
  pp_proposal_id := replicate 32 3; pp_proposer := bob; pp_effective_epoch := 4;
  pp_params := ProtocolParams_default; pp_nonce := 0; pp_pubkey := bob_key;
  pp_signature := any_signature |}.
Definition vote_tx : VoteTx := {|
  vt_proposal_id := replicate 32 3; vt_voter := alice; vt_choice := Yes; vt_voting_power := 100000;
  vt_nonce := 0; vt_pubkey := alice_key; vt_signature := any_signature |}.
Definition st_proposed : pstate := after propose_tx demo_state.

Lemma apply_vote_spec_witness :
  ∃ v, accounts (store st_proposed) !! alice = Some v ∧ nonce v = 0 ∧
    votes (store st_proposed) !! (replicate 32 3, alice) = None ∧ 100000 ≠ 0 ∧
    100000 <= holdings v ∧
    after_vote (replicate 32 3) (recorded_state vote_tx v st_proposed) (apply_vote vote_tx st_proposed).2.
Proof.
  apply (apply_vote_spec eq_refl vote_tx st_proposed (effect_of (apply_vote vote_tx st_proposed).1)).
  result.
Defined.

Definition forged : Transaction := Transfer {|
  tr_from := alice; tr_to := bob; tr_amount := 10; tr_fee := 1; tr_nonce := 0;
  tr_pubkey := bob_key; tr_signature := any_signature |}.
Lemma unauthorized_rejected_witness :
  is_ok (apply_transaction forged demo_state).1 = false ∧ after forged demo_state = demo_state.
Proof.
  apply (unauthorized_rejected forged demo_state []); [run|left; vm_compute; discriminate|].
  apply surjective_pairing.
Defined.

Definition pay_bob : TransferTx := {|
  tr_from := alice; tr_to := bob; tr_amount := 10; tr_fee := 1; tr_nonce := 0;
  tr_pubkey := alice_key; tr_signature := any_signature |}.
Lemma transfer_moves_witness :
  (∃ accs, (apply_transfer pay_bob demo_state).2 = set_store demo_state (set_accounts (store demo_state) accs)) ∧
  ∀ a, balance_of (accounts (store (apply_transfer pay_bob demo_state).2)) a =
    balance_of (accounts (store demo_state)) a
    - (if decide (alice = a) then saturating_add 128 10 1 else 0)
    + (if decide (bob = a) then 10 else 0).
Proof. apply (transfer_moves eq_refl pay_bob demo_state (TransferApplied alice bob 10 1)). result. Defined.

Lemma claim_pays_net_reward_witness :
  let key := (0, alice) in
  ∃ rw n, 0 ∈ finalized_epochs (store st_reward) ∧ (key ∉ claimed_rewards (store st_reward)) ∧
    reward_records (store st_reward) !! key = Some rw ∧ nodes (store st_reward) !! alice = Some n ∧
    reward_address n = alice ∧
    claimed_rewards (store st_claimed) = {[ key ]} ∪ claimed_rewards (store st_reward) ∧
    ∀ a, balance_of (accounts (store st_claimed)) a = balance_of (accounts (store st_reward)) a
      + (if decide (alice = a) then net_reward rw else 0).
Proof. apply (claim_pays_net_reward eq_refl claim_tx st_reward (RewardClaimed 0 alice alice 70)). result. Defined.

Lemma reward_paid_once_witness :
  apply_claim_reward claim_tx st_claimed ≠ (Ok (RewardClaimed 0 alice alice 70), st_claimed).
Proof.
  apply (reward_paid_once eq_refl claim_tx claim_tx st_reward (RewardClaimed 0 alice alice 70) st_claimed);
    [result|reflexivity|reflexivity|apply rtc_refl].
Defined.

(** ** Behaviours reported as findings *)

Lemma failed_resolution_consumes_challenge_witness :
  let st' := (resolve_challenge bond_id (ResOmission 0 0 bond_id) st_challenged).2 in
  open_challenges (store st') = delete bond_id (open_challenges (store st_challenged)) ∧
  accounts (store st') = accounts (store st_challenged).
Proof.
  apply (failed_resolution_consumes_challenge bond_id (ResOmission 0 0 bond_id) st_challenged
    (ResolutionKindMismatch bond_id BadBatch)). result.
Defined.

(** A transfer to an account that does not exist is refused, yet the sender
    has paid the amount and the fee and used the nonce. *)
Theorem transfer_to_unknown_recipient_destroys_funds :
  (apply_transaction (pay nobody 0) demo_state).1 = Err (UnknownAccount nobody) ∧
  supply (after (pay nobody 0) demo_state) = supply demo_state - 11 ∧
  (nonce <$> accounts (store (after (pay nobody 0) demo_state)) !! alice) = Some 1.
Proof. split_and!; run. Qed.

(** Bob delegates 500 to the node; a challenge slashes the node's bond to 100. *)
Definition st_slashed : pstate :=
  (resolve_challenge bond_id (ResBadBatch 20400 0 None)
    (after challenge0 (after stake500 st_committed))).2.

(** A delegator of a node slashed below the delegation cannot unbond: the
    attempt is refused after the stake has been moved to the locked funds, so the
    funds are neither staked nor queued, and the delegation remains. *)
Theorem unbond_after_slash_strands_stake :
  let st' := after unbond500 st_slashed in
  (apply_transaction unbond500 st_slashed).1 = Err (InsufficientBond alice 500 100) ∧
  (staked <$> accounts (store st_slashed) !! bob) = Some 500 ∧
  (staked <$> accounts (store st') !! bob) = Some 0 ∧
  (locked <$> accounts (store st') !! bob) = Some 500 ∧
  unbonding_queue (store st') = [] ∧
  (dl_amount <$> delegations (store st') !! (bob, alice)) = Some 500.
Proof. split_and!; run. Qed.

(** Opening a challenge is the one transaction without replay protection: the
    same signed transaction is accepted again once its challenge is resolved, and
    locks the challenger's bond a second time. *)
Theorem challenge_opening_replays :
  let st1 := after challenge0 st_committed in
  let st2 := (resolve_challenge bond_id ResRejected st1).2 in
  (apply_transaction challenge0 st_committed).1 = Ok (ChallengeOpened bond_id 100) ∧
  is_ok (resolve_challenge bond_id ResRejected st1).1 = true ∧
  (apply_transaction challenge0 st2).1 = Ok (ChallengeOpened bond_id 100) ∧
  supply st2 = supply st1 - 100.
Proof. split_and!; run. Qed.

(** A proposal whose epoch is not in the future is accepted and its bond
    locked, although it can never be scheduled: the vote that passes it returns an
    error, after it has been recorded. *)
Theorem stale_proposal_accepted :
  let stale := ProposeProtocolParamsUpdate {|
    pp_proposal_id := replicate 32 3; pp_proposer := bob; pp_effective_epoch := 0;
    pp_params := ProtocolParams_default; pp_nonce := 0; pp_pubkey := bob_key;
    pp_signature := any_signature |} in
  let st1 := after stale demo_state in
  let st2 := after (Vote vote_tx) st1 in
  (apply_transaction stale demo_state).1 =
    Ok (ProtocolParamsUpdateProposed (replicate 32 3) bob 0) ∧
  (locked <$> accounts (store st1) !! bob) = Some 10000 ∧
  (apply_transaction (Vote vote_tx) st1).1 = Err (ParamsUpdateMustTargetFutureEpoch 0 0) ∧
  is_Some (votes (store st2) !! (replicate 32 3, alice)).
Proof. split_and!; try run. eexists. run. Qed.

(** A batch of two observations, sealed and submitted by the demo collector. *)
Definition demo_builder : BatchBuilder := {|
  bb_epoch_id := 0; bb_collector_id := alice;
  bb_observations := [demo_observation 2 40; demo_observation 1 30] |}.

Lemma sealed_batch_accepted_witness :
  ∃ s tx, @finalize demo_external demo_pipeline_encoding demo_builder 1 = Ok s ∧
    signed_submission (λ _, any_signature) s alice_key = Some tx ∧
    is_ok (apply_submit_batch tx demo_state).1 = true.
Proof.
  destruct (@sealed_batch_accepted demo_external demo_pipeline_encoding
    demo_pipeline_total demo_state demo_builder 1 alice_key (λ _, any_signature) demo_node)
    as (s & tx & Hf & Ht & Hok & _); [done|done|reflexivity|by exists []|done|done|reflexivity|done|left|].
  exists s, tx. destruct Hok as [Hok _]; [reflexivity|]. by rewrite Hok.
Defined.
