(* ===== verification/NodeConfig.v ===== *)
(** * The node configuration: src/src/node_config.rs

    The configuration record with its defaults, [NodeConfig::validate] guard by guard,
    the node id and reward address it denotes, and the hexadecimal decoder behind
    them. [RewardConfig] and [CapabilityConfig] are in Rewards, [hex_32] in Crypto.
    JSON files enter as their parsed content; the identity key file is not modelled. *)
From S2P Require Import Prelude Primitives Params Records Crypto Tokenomics Rewards Text.
Local Open Scope pole_scope.
Local Open Scope string_scope.
Local Open Scope Z_scope.

Record CollectConfig := {
  collect_enabled : bool;
  default_epoch_id : EpochId;
  default_slot_id : SlotId;
}.

Record P2pSimulationConfig := {
  batch_listener_count : Z;
  receipt_listener_count : Z;
  dual_listener_count : Z;
}.

Record P2pSocketPeerConfig := {
  peer_id_hex : string;
  peer_addr : string;
  peer_topics : list string;
}.

Record P2pSocketConfig := {
  bind_addr : string;
  socket_peers : list P2pSocketPeerConfig;
}.

Record ActivitySourceConfig := {
  asc_app_id : AppId;
  asc_source_kind : ActivitySourceKind;
  endpoint_url : option string;
  inline_json : option string;
  retries : Z;
}.

Record RuntimeConfig := {
  data_dir : string;
  poll_interval_secs : Z;
  slots_per_epoch : Z;
  rt_challenge_window_blocks : Z;
  low_impact_mode : bool;
  os_background_priority : bool;
  game_active_poll_interval_secs : Z;
  game_process_names : list string;
  target_app_ids : list AppId;
  p2p_simulation : P2pSimulationConfig;
  p2p_socket : P2pSocketConfig;
  activity_sources : list ActivitySourceConfig;
}.

Record StorageConfig := {
  quota_gb : Z;
  sc_retention_epochs : Z;
}.

Record NodeConfig := {
  nc_chain_id : string;
  node_id_hex : string;
  reward_address_hex : string;
  nc_capabilities : CapabilityConfig;
  nc_collect : CollectConfig;
  runtime : RuntimeConfig;
  nc_storage : StorageConfig;
  nc_reward : RewardConfig;
}.

Inductive NodeConfigError :=
| ConfigIo (e : string)
| ConfigJson (e : string)
| ConfigWallet (e : string)
| InvalidHexLength (field : string) (expected actual : Z)
| InvalidHexCharacter (field : string) (index byte : Z)
| InvalidValue (field reason : string).

(** ** Defaults *)

Definition default_game_coefficient_ppm : Z := 1000000.

Definition RewardConfig_default : RewardConfig := {|
  reward_source := Static;
  rc_emission_year := 1;
  rc_reward_block_secs := 3600;
  player_block_reward := 1000;
  reward_adjustment_period_blocks := 288;
  rc_target_network_weight_units := 150000000000000;
  rc_reward_adjustment_cap_bps := 2000;
  rc_collect_reward_bps := 5000;
  rc_store_reward_bps := 2500;
  rc_verify_reward_bps := 1500;
  rc_propose_reward_bps := 1000;
  rc_tail_emission_start_year := LONG_TERM_TAIL_START_YEAR;
  rc_tail_emission_rate_bps := LONG_TERM_TAIL_EMISSION_RATE_BPS;
  game_mappings := [];
|}.

Definition P2pSimulationConfig_default : P2pSimulationConfig :=
  {| batch_listener_count := 1; receipt_listener_count := 1; dual_listener_count := 1 |}.

Definition P2pSocketConfig_default : P2pSocketConfig :=
  {| bind_addr := "127.0.0.1:0"; socket_peers := [] |}.

Definition NodeConfig_default : NodeConfig := {|
  nc_chain_id := "pole-local";
  node_id_hex := hex_32 (replicate 32 0x11);
  reward_address_hex := hex_32 (replicate 32 0x22);
  nc_capabilities := {| cap_collect := true; cap_store := false; cap_verify := false;
                        cap_propose := false; cap_archive := false |};
  nc_collect := {| collect_enabled := true; default_epoch_id := 1; default_slot_id := 1 |};
  runtime := {|
    data_dir := "./pole-node-data";
    poll_interval_secs := 300;
    slots_per_epoch := 288;
    rt_challenge_window_blocks := 20;
    low_impact_mode := true;
    os_background_priority := true;
    game_active_poll_interval_secs := 900;
    game_process_names := [];
    target_app_ids := [730];
    p2p_simulation := P2pSimulationConfig_default;
    p2p_socket := P2pSocketConfig_default;
    activity_sources := [];
  |};
  nc_storage := {| quota_gb := 10; sc_retention_epochs := 2 |};
  nc_reward := RewardConfig_default;
|}.

(** ** Hexadecimal *)

Definition decode_nibble (byte : Z) (field : string) (index : Z) : outcome NodeConfigError Z :=
  if (48 <=? byte) && (byte <=? 57) then Ok (byte - 48)
  else if (97 <=? byte) && (byte <=? 102) then Ok (byte - 97 + 10)
  else if (65 <=? byte) && (byte <=? 70) then Ok (byte - 65 + 10)
  else Err (InvalidHexCharacter field index byte).

(** The loop [for index in 0..32], on the bytes from [index * 2] on. *)
Fixpoint decode_pairs (field : string) (index : Z) (input : list Z) : outcome NodeConfigError bytes :=
  match input with
  | b0 :: b1 :: input =>
      do? hi <- decode_nibble b0 field (index * 2);
      do? lo <- decode_nibble b1 field (index * 2 + 1);
      do? out <- decode_pairs field (index + 1) input;
      Ok (Z.lor (Z.shiftl hi 4 mod 256) lo :: out)
  | _ => Ok []
  end.

Definition decode_hex_32 (input field : string) : outcome NodeConfigError bytes :=
  if negb (str_len input =? 64) then Err (InvalidHexLength field 64 (str_len input))
  else decode_pairs field 0 (string_bytes input).

(** ** The identity and the reward address *)

Definition is_placeholder_reward_address (addr : string) : bool :=
  let trimmed := trim addr in
  str_is_empty trimmed
  || bool_decide (trimmed = hex_32 (replicate 32 0x00))
  || bool_decide (trimmed = hex_32 (replicate 32 0x11))
  || bool_decide (trimmed = hex_32 (replicate 32 0x22))
  || bool_decide (trimmed = hex_32 (replicate 32 0x31))
  || bool_decide (trimmed = hex_32 (replicate 32 0x41)).

Definition has_placeholder_reward_address (c : NodeConfig) : bool :=
  is_placeholder_reward_address (reward_address_hex c).

Definition effective_reward_address_hex (c : NodeConfig) : string :=
  if has_placeholder_reward_address c
     && negb (str_is_empty (trim (node_id_hex c)))
     && negb (bool_decide (node_id_hex c = hex_32 (replicate 32 0x11)))
     && negb (bool_decide (node_id_hex c = hex_32 (replicate 32 0x31)))
  then node_id_hex c
  else reward_address_hex c.

Definition node_id (c : NodeConfig) : outcome NodeConfigError NodeId :=
  decode_hex_32 (node_id_hex c) "node_id_hex".

Definition reward_address (c : NodeConfig) : outcome NodeConfigError Address :=
  decode_hex_32 (effective_reward_address_hex c) "reward_address_hex".

Definition inline_verify_enabled (c : NodeConfig) : bool :=
  cap_verify (nc_capabilities c) && negb (low_impact_mode (runtime c)).
Definition inline_propose_enabled (c : NodeConfig) : bool :=
  cap_propose (nc_capabilities c) && negb (low_impact_mode (runtime c)).

Definition reward_source_label (c : RewardConfig) : string :=
  match reward_source c with Static => "static" | Tokenomics => "tokenomics" end.

(** ** Validation *)

(** [if cond { return Err(InvalidValue { field, reason }) }] before the rest. *)
Notation "'reject' cond 'at' field 'because' reason ; k" :=
  (if cond then Err (InvalidValue field reason) else k)
  (at level 100, cond at level 99, field at level 99, reason at level 99,
   right associativity) : pole_scope.

Fixpoint validate_mappings (l : list RewardGameMapping) : outcome NodeConfigError unit :=
  match l with
  | [] => Ok tt
  | mapping :: l =>
      reject str_is_empty (trim (process_name mapping))
        at "reward.game_mappings[].process_name" because "must not be empty";
      reject game_coefficient_ppm mapping =? 0
        at "reward.game_mappings[].game_coefficient_ppm" because "must be greater than 0";
      validate_mappings l
  end.

Definition validate_node_config (c : NodeConfig) : outcome NodeConfigError unit :=
  let rt := runtime c in
  let rw := nc_reward c in
  do? _id <- node_id c;
  do? _address <- reward_address c;
  reject str_is_empty (trim (nc_chain_id c)) at "chain_id" because "must not be empty";
  reject str_is_empty (trim (data_dir rt)) at "runtime.data_dir" because "must not be empty";
  reject slots_per_epoch rt =? 0
    at "runtime.slots_per_epoch" because "must be greater than 0";
  reject rt_challenge_window_blocks rt =? 0
    at "runtime.challenge_window_blocks" because "must be greater than 0";
  reject collect_enabled (nc_collect c) && negb (cap_collect (nc_capabilities c))
    at "collect.enabled" because "cannot be true when capabilities.collect is false";
  reject bool_decide (target_app_ids rt = [])
    at "runtime.target_app_ids" because "must contain at least one app id";
  reject quota_gb (nc_storage c) =? 0 at "storage.quota_gb" because "must be greater than 0";
  reject sc_retention_epochs (nc_storage c) =? 0
    at "storage.retention_epochs" because "must be greater than 0";
  reject rc_reward_block_secs rw =? 0
    at "reward.reward_block_secs" because "must be greater than 0";
  reject rc_emission_year rw =? 0 at "reward.emission_year" because "must be greater than 0";
  reject rc_tail_emission_start_year rw =? 0
    at "reward.tail_emission_start_year" because "must be greater than 0";
  reject 10000 <? rc_tail_emission_rate_bps rw
    at "reward.tail_emission_rate_bps" because "must be less than or equal to 10000 bps";
  reject (0 <? poll_interval_secs rt)
         && negb (rc_reward_block_secs rw mod poll_interval_secs rt =? 0)
    at "reward.reward_block_secs"
    because "must be an exact multiple of runtime.poll_interval_secs ("
            +:+ display (poll_interval_secs rt) +:+ ")";
  reject player_block_reward rw =? 0
    at "reward.player_block_reward" because "must be greater than 0";
  reject reward_adjustment_period_blocks rw =? 0
    at "reward.reward_adjustment_period_blocks" because "must be greater than 0";
  reject rc_target_network_weight_units rw =? 0
    at "reward.target_network_weight_units" because "must be greater than 0";
  reject 10000 <? rc_reward_adjustment_cap_bps rw
    at "reward.reward_adjustment_cap_bps" because "must be less than or equal to 10000 bps";
  let total_service_reward_bps := rc_collect_reward_bps rw + rc_store_reward_bps rw
    + rc_verify_reward_bps rw + rc_propose_reward_bps rw in
  reject negb (total_service_reward_bps =? 10000)
    at "reward.*_reward_bps"
    because "service reward split must sum to 10000 bps, got " +:+ display total_service_reward_bps;
  validate_mappings (game_mappings rw).

(** [parsed]: what [fs::read_to_string] and [serde_json::from_str] gave. *)
Definition load_json (parsed : outcome NodeConfigError NodeConfig)
    : outcome NodeConfigError NodeConfig :=
  do? config <- parsed;
  do? _u <- validate_node_config config;
  Ok config.

(** * Properties *)

(** ** The hexadecimal decoder *)

Definition is_hex_digit (x : Z) : bool :=
  ((48 <=? x) && (x <=? 57)) || ((97 <=? x) && (x <=? 102)) || ((65 <=? x) && (x <=? 70)).

(** The byte of a digit. *)
Definition hex_byte (n : Z) : Z := if n <? 10 then 48 + n else 87 + n.

Lemma hex_digit_byte n : 0 <= n < 16 → string_bytes (hex_digit n) = [hex_byte n].
Proof.
  intros Hn. assert (n ∈ Z.of_nat <$> seq 0 16) as Hin.
  { apply list_elem_of_fmap. exists (Z.to_nat n). split; [lia|]. apply elem_of_seq. lia. }
  simpl in Hin. rewrite !elem_of_cons, elem_of_nil in Hin.
  destruct_or!; subst; try done.
Qed.

Lemma decode_nibble_ok x n f i :
  decode_nibble x f i = Ok n ↔ 0 <= n < 16 ∧ lower_byte x = hex_byte n.
Proof.
  unfold decode_nibble, lower_byte, hex_byte. split.
  - intros Hd. repeat case_match; simplify_eq; lia.
  - intros [Hn Hl]. repeat case_match; simplify_eq; try (f_equal; lia); exfalso; lia.
Qed.

Lemma decode_nibble_err x e f i :
  decode_nibble x f i = Err e ↔ is_hex_digit x = false ∧ e = InvalidHexCharacter f i x.
Proof.
  unfold decode_nibble, is_hex_digit.
  destruct ((48 <=? x) && (x <=? 57)), ((97 <=? x) && (x <=? 102)), ((65 <=? x) && (x <=? 70));
    simpl; naive_solver.
Qed.

#[local] Ltac Zify.zify_post_hook ::= Z.div_mod_to_equations.

(** A byte is its two nibbles. *)
Lemma byte_split x : is_byte x →
  Z.shiftr x 4 = x / 16 ∧ Z.land x 0x0f = x mod 16
  ∧ Z.lor (Z.shiftl (x / 16) 4 mod 256) (x mod 16) = x.
Proof.
  intros Hx. change 0x0f with (Z.ones 4).
  rewrite Z.land_ones, Z.shiftr_div_pow2 by lia. do 2 (split; [done|]).
  apply Z.eqb_eq. apply (byte_forall (λ x, Z.lor (Z.shiftl (x / 16) 4 mod 256) (x mod 16) =? x));
    [vm_compute; reflexivity|done].
Qed.

Lemma nibbles_join hi lo : 0 <= hi < 16 → 0 <= lo < 16 →
  Z.lor (Z.shiftl hi 4 mod 256) lo = 16 * hi + lo.
Proof.
  intros Hh Hl. destruct (byte_split (16 * hi + lo)) as (_ & _ & He); [unfold is_byte; lia|].
  replace ((16 * hi + lo) / 16) with hi in He by lia.
  replace ((16 * hi + lo) mod 16) with lo in He by lia. done.
Qed.

Lemma hex_32_bytes b : Forall is_byte b →
  string_bytes (hex_32 b) = b ≫= λ x, [hex_byte (x / 16); hex_byte (x mod 16)].
Proof.
  induction 1 as [|x b Hx _ IH]; [done|]. cbn [hex_32].
  destruct (byte_split x Hx) as (-> & -> & _). unfold is_byte in Hx.
  rewrite !string_bytes_app, !hex_digit_byte, IH by lia. done.
Qed.

(** The decoding loop inverts [hex_32], up to the case of the digits. *)
Lemma decode_pairs_ok l f i b : Nat.Even (length l) →
  decode_pairs f i l = Ok b ↔
  Forall is_byte b ∧ lower_byte <$> l = b ≫= λ x, [hex_byte (x / 16); hex_byte (x mod 16)].
Proof.
  revert i b. induction l as [l IH] using (induction_ltof1 _ (@length Z)). unfold ltof in IH.
  intros i b Hev. destruct l as [|x0 [|x1 l]]; simpl.
  - split; [naive_solver|]. intros [_ Hb]. destruct b; [done|discriminate].
  - destruct Hev as [k Hk]. simpl in Hk. lia.
  - assert (Nat.Even (length l)) as Hev' by (destruct Hev as [[|k] Hk]; simpl in Hk; [lia|exists k; lia]).
    split.
    + intros H. destruct (decode_nibble x0 f (i * 2)) as [hi|?|] eqn:E0; try done.
      destruct (decode_nibble x1 f (i * 2 + 1)) as [lo|?|] eqn:E1; try done. simpl in H.
      destruct (decode_pairs f (i + 1) l) as [out|?|] eqn:E2; try done. simpl in H.
      apply decode_nibble_ok in E0 as [Hh E0]. apply decode_nibble_ok in E1 as [Hl E1].
      apply IH in E2 as [Hf E2]; [|simpl; lia|done]. simplify_eq.
      rewrite nibbles_join by done. split; [constructor; [unfold is_byte; lia|done]|]. simpl.
      replace ((16 * hi + lo) / 16) with hi by lia.
      replace ((16 * hi + lo) mod 16) with lo by lia.
      rewrite E0, E1. do 2 f_equal. exact E2.
    + intros [Hf Hb]. destruct b as [|x b]; [done|].
      apply Forall_cons in Hf as [Hx Hf]. pose proof (byte_split x Hx) as (_ & _ & Hj).
      unfold is_byte in Hx. simpl in Hb. injection Hb as E0 E1 E2.
      rewrite (proj2 (decode_nibble_ok x0 (x / 16) f (i * 2))) by (split; [lia|done]).
      simpl. rewrite (proj2 (decode_nibble_ok x1 (x mod 16) f (i * 2 + 1))) by (split; [lia|done]).
      simpl. rewrite (proj2 (IH l ltac:(simpl; lia) (i + 1) b Hev')) by done. simpl. by rewrite Hj.
Qed.

Lemma length_hex_pairs (b : bytes) (g h : Z → Z) :
  length (b ≫= λ x, [g x; h x]) = (2 * length b)%nat.
Proof. induction b as [|x b IH]; [done|]. rewrite bind_cons, length_app, IH. simpl. lia. Qed.

(** Hexadecimal output is already in lower case. *)
Lemma lower_hex_32 b : Forall is_byte b → to_ascii_lowercase (hex_32 b) = hex_32 b.
Proof.
  intros Hb. apply string_bytes_inj. rewrite string_bytes_lower, hex_32_bytes by done.
  induction Hb as [|x b Hx _ IH]; [done|]. unfold is_byte in Hx.
  rewrite bind_cons, fmap_app, IH. f_equal. simpl. unfold hex_byte, lower_byte.
  repeat case_match; repeat (f_equal; try lia).
Qed.

Lemma decode_hex_32_hex b field :
  length b = 32%nat → Forall is_byte b → decode_hex_32 (hex_32 b) field = Ok b.
Proof.
  intros Hl Hb. unfold decode_hex_32, str_len. rewrite <- string_bytes_length, hex_32_bytes by done.
  rewrite length_hex_pairs, Hl. simpl negb. rewrite <- hex_32_bytes by done.
  apply decode_pairs_ok.
  - rewrite hex_32_bytes, length_hex_pairs by done. exists (length b). lia.
  - split; [done|]. rewrite <- string_bytes_lower, lower_hex_32 by done. by apply hex_32_bytes.
Qed.

(** Reading back a printed identifier: [decode_hex_32] accepts exactly the strings
    that are, up to the case of their letters, what [hex_32] prints for a 32-byte array,
    and returns that array. *)
Theorem decode_hex_32_roundtrip (input field : string) (b : bytes) :
  decode_hex_32 input field = Ok b ↔
  length b = 32%nat ∧ Forall is_byte b ∧ to_ascii_lowercase input = hex_32 b.
Proof.
  unfold decode_hex_32, str_len. rewrite <- string_bytes_length.
  assert (to_ascii_lowercase input = hex_32 b ↔
          lower_byte <$> string_bytes input = string_bytes (hex_32 b)) as ->.
  { rewrite <- string_bytes_lower. split; [by intros ->|apply string_bytes_inj]. }
  destruct (Z.eqb_spec (Z.of_nat (length (string_bytes input))) 64) as [H64|Hn64]; simpl.
  - rewrite decode_pairs_ok by (exists 32%nat; lia). split.
    + intros [Hf Hb]. split_and!; [|done|by rewrite hex_32_bytes].
      apply (f_equal length) in Hb. rewrite length_fmap, length_hex_pairs in Hb. lia.
    + intros (Hl & Hf & Hb). rewrite hex_32_bytes in Hb by done. done.
  - split; [done|]. intros (Hl & Hf & Hb). rewrite hex_32_bytes in Hb by done.
    apply (f_equal length) in Hb. rewrite length_fmap, length_hex_pairs in Hb. lia.
Qed.

Lemma decode_nibble_total x f i : decode_nibble x f i ≠ Panic.
Proof. unfold decode_nibble. repeat case_match; done. Qed.

Lemma decode_nibble_hex x f i : is_hex_digit x = true → ∃ n, decode_nibble x f i = Ok n.
Proof.
  intros Hx. destruct (decode_nibble x f i) eqn:E; [eauto| |by apply decode_nibble_total in E].
  apply decode_nibble_err in E as [? _]. congruence.
Qed.

Lemma decode_nibble_dec x f i n : decode_nibble x f i = Ok n → is_hex_digit x = true.
Proof.
  intros Hd. destruct (is_hex_digit x) eqn:E; [done|].
  rewrite (proj2 (decode_nibble_err x _ f i)) in Hd by (split; [done|reflexivity]). done.
Qed.

(** The loop fails at the first byte that is not a digit. *)
Lemma decode_pairs_err l f i e : Nat.Even (length l) →
  decode_pairs f i l = Err e ↔
  ∃ k x, l !! k = Some x ∧ is_hex_digit x = false ∧ Forall (λ y, is_hex_digit y = true) (take k l)
         ∧ e = InvalidHexCharacter f (i * 2 + Z.of_nat k) x.
Proof.
  revert i. induction l as [l IH] using (induction_ltof1 _ (@length Z)). unfold ltof in IH.
  intros i Hev. destruct l as [|x0 [|x1 l]].
  - split; [done|]. intros (k & x & Hk & _). done.
  - destruct Hev as [k Hk]. simpl in Hk. lia.
  - assert (Nat.Even (length l)) as Hev' by (destruct Hev as [[|k] Hk]; simpl in Hk; [lia|exists k; lia]).
    specialize (IH l ltac:(simpl; lia) (i + 1) Hev'). simpl decode_pairs.
    destruct (decode_nibble x0 f (i * 2)) as [hi|e0|] eqn:E0; [| |by apply decode_nibble_total in E0].
    2: { apply decode_nibble_err in E0 as [Hx0 ->]. simpl. split.
         - intros [= <-]. exists 0%nat, x0. split_and!; try done. simpl. f_equal. lia.
         - intros ([|k] & x & Hk & Hx & Hf & ->); simpl in *; simplify_eq; [do 2 f_equal; lia|].
           apply Forall_cons in Hf as [? _]. congruence. }
    apply decode_nibble_dec in E0. simpl.
    destruct (decode_nibble x1 f (i * 2 + 1)) as [lo|e1|] eqn:E1; [| |by apply decode_nibble_total in E1].
    2: { apply decode_nibble_err in E1 as [Hx1 ->]. simpl. split.
         - intros [= <-]. exists 1%nat, x1. split_and!; try done. by constructor.
         - intros ([|[|k]] & x & Hk & Hx & Hf & ->); simpl in *; simplify_eq; [congruence|done|].
           rewrite !Forall_cons in Hf. naive_solver congruence. }
    apply decode_nibble_dec in E1. simpl. transitivity (decode_pairs f (i + 1) l = Err e).
    { destruct (decode_pairs f (i + 1) l); simpl; naive_solver. }
    rewrite IH. split.
    + intros (k & x & Hk & Hx & Hf & ->). exists (S (S k)), x. split_and!; try done.
      * simpl. by repeat constructor.
      * f_equal. lia.
    + intros ([|[|k]] & x & Hk & Hx & Hf & ->); simpl in *; simplify_eq; try congruence.
      rewrite !Forall_cons in Hf. exists k, x. split_and!; try tauto. f_equal. lia.
Qed.

(** What [decode_hex_32] rejects, and how: a string whose length is not 64 bytes is
    reported with its length; otherwise the first byte that is not a hexadecimal digit
    is reported with its offset. *)
Theorem decode_hex_32_error (input field : string) (e : NodeConfigError) :
  decode_hex_32 input field = Err e ↔
  (str_len input ≠ 64 ∧ e = InvalidHexLength field 64 (str_len input))
  ∨ (str_len input = 64 ∧ ∃ k x, string_bytes input !! k = Some x ∧ is_hex_digit x = false
       ∧ Forall (λ y, is_hex_digit y = true) (take k (string_bytes input))
       ∧ e = InvalidHexCharacter field (Z.of_nat k) x).
Proof.
  unfold decode_hex_32. destruct (Z.eqb_spec (str_len input) 64) as [H64|Hn]; simpl.
  - rewrite decode_pairs_err; [naive_solver|]. unfold str_len in H64.
    rewrite string_bytes_length. exists 32%nat. lia.
  - naive_solver.
Qed.

(** ** Validation *)

Record valid_node_config (c : NodeConfig) : Prop := {
  vc_node_id : is_ok (node_id c) = true;
  vc_reward_address : is_ok (reward_address c) = true;
  vc_names : trim (nc_chain_id c) ≠ "" ∧ trim (data_dir (runtime c)) ≠ "";
  vc_nonzero : Forall (λ z, z ≠ 0)
    [slots_per_epoch (runtime c); rt_challenge_window_blocks (runtime c);
     quota_gb (nc_storage c); sc_retention_epochs (nc_storage c);
     rc_reward_block_secs (nc_reward c); rc_emission_year (nc_reward c);
     rc_tail_emission_start_year (nc_reward c); player_block_reward (nc_reward c);
     reward_adjustment_period_blocks (nc_reward c); rc_target_network_weight_units (nc_reward c)];
  vc_collect : collect_enabled (nc_collect c) = true → cap_collect (nc_capabilities c) = true;
  vc_targets : target_app_ids (runtime c) ≠ [];
  vc_bps : rc_tail_emission_rate_bps (nc_reward c) <= 10000
           ∧ rc_reward_adjustment_cap_bps (nc_reward c) <= 10000;
  vc_polls : 0 < poll_interval_secs (runtime c) →
             (poll_interval_secs (runtime c) | rc_reward_block_secs (nc_reward c));
  vc_split : rc_collect_reward_bps (nc_reward c) + rc_store_reward_bps (nc_reward c)
             + rc_verify_reward_bps (nc_reward c) + rc_propose_reward_bps (nc_reward c) = 10000;
  vc_mappings : Forall (λ m, trim (process_name m) ≠ "" ∧ game_coefficient_ppm m ≠ 0)
                  (game_mappings (nc_reward c));
}.

Lemma str_is_empty_false s : str_is_empty s = false ↔ s ≠ "".
Proof. destruct s; naive_solver. Qed.

Lemma validate_mappings_ok l : validate_mappings l = Ok tt ↔
  Forall (λ m, trim (process_name m) ≠ "" ∧ game_coefficient_ppm m ≠ 0) l.
Proof.
  induction l as [|m l IH]; simpl; [split; [constructor|done]|].
  rewrite !guard_ok, IH, str_is_empty_false, Z.eqb_neq, Forall_cons. tauto.
Qed.

Lemma outcome_bind_ignore {E A B} (r : outcome E A) (k : outcome E B) (b : B) :
  outcome_bind r (λ _, k) = Ok b ↔ is_ok r = true ∧ k = Ok b.
Proof. destruct r; simpl; naive_solver. Qed.

(** [NodeConfig::validate] accepts exactly the valid configurations: identifiers
    that decode, names that are not blank, mandatory quantities that are not zero, a
    service split of 10000 bps, percentages of at most 10000 bps, a reward block that
    is a multiple of a non-zero poll interval, collection enabled only with its
    capability, at least one target app and game mappings with a name and a weight. *)
Theorem validate_node_config_ok_iff (c : NodeConfig) :
  validate_node_config c = Ok tt ↔ valid_node_config c.
Proof.
  unfold validate_node_config. cbv zeta.
  rewrite !outcome_bind_ignore, !guard_ok, validate_mappings_ok, !str_is_empty_false.
  rewrite !andb_false_iff, !negb_false_iff, !Z.eqb_neq, !Z.ltb_ge, bool_decide_eq_false, !Z.eqb_eq.
  assert (collect_enabled (nc_collect c) = false ∨ cap_collect (nc_capabilities c) = true ↔
    (collect_enabled (nc_collect c) = true → cap_collect (nc_capabilities c) = true)) as ->.
  { destruct (collect_enabled (nc_collect c)), (cap_collect (nc_capabilities c)); naive_solver. }
  assert ((poll_interval_secs (runtime c) <= 0
    ∨ rc_reward_block_secs (nc_reward c) mod poll_interval_secs (runtime c) = 0) ↔
    (0 < poll_interval_secs (runtime c) →
      (poll_interval_secs (runtime c) | rc_reward_block_secs (nc_reward c)))) as ->.
  { destruct (Z.ltb_spec 0 (poll_interval_secs (runtime c))); [|split; [lia|left; lia]].
    rewrite <- (Z.mod_divide _ (poll_interval_secs (runtime c))) by lia. intuition lia. }
  split.
  - intros; destruct_and!. split; rewrite ?Forall_cons, ?Forall_nil; tauto.
  - intros [? ? ? Hn ? ? ? ? ? ?]. rewrite !Forall_cons in Hn. tauto.
Qed.

(** The default configuration is valid. *)
Lemma default_config_valid : validate_node_config NodeConfig_default = Ok tt.
Proof. vm_compute. reflexivity. Qed.

Lemma valid_reward_block_secs c :
  valid_node_config c → rc_reward_block_secs (nc_reward c) ≠ 0.
Proof. intros Hv. pose proof (vc_nonzero c Hv) as Hn. rewrite !Forall_cons in Hn. tauto. Qed.
