(* ===== verification/ActiveParams.v ===== *)
(** * Activated parameters: what the node reads from its chain store

    [latest_activated_protocol_params], the [effective_*] accessors and the game
    mappings of src/src/node_rewards.rs: the parameters of the chain, once a proposal
    has been activated, take precedence over the configuration. The store is the
    one [PersistentStoreStub::open] gives, [None] when it does not open; the Steam
    library scan ([infer_reward_game_mapping]) is an argument. *)
From S2P Require Import Prelude Primitives Params Records Crypto Store Tokenomics Rewards Text NodeConfig.
Local Open Scope Z_scope.

(** [Iterator::max_by_key]: the last of the greatest elements. *)
Definition max_by_key {A K} `{Ord K} (key : A → K) (l : list A) : option A :=
  foldl (λ best x, match best with
    | Some y => if leb (key y) (key x) then Some x else best
    | None => Some x
    end) None l.

Definition latest_activated (proposals : list GovernanceParamsUpdateProposalRecord)
    : option ProtocolParams :=
  gp_params <$> max_by_key gp_effective_epoch (filter (λ p, gp_state p = Activated) proposals).

Section Effective.
Context {S : Type} `{PS : ProtocolStore S}.
Implicit Types (store : option S) (c : NodeConfig).

Definition latest_activated_protocol_params store : option ProtocolParams :=
  s ← store; latest_activated (params_update_proposals_iter s).

Definition effective_reward_block_secs store c : Z :=
  default (rc_reward_block_secs (nc_reward c))
    ((λ p, reward_block_secs (rewards p)) <$> latest_activated_protocol_params store).

Definition effective_player_block_reward_of store c : Amount :=
  default (base_player_block_reward (nc_reward c))
    ((λ p, effective_player_block_reward (rewards p)) <$> latest_activated_protocol_params store).

Definition effective_target_network_weight_units store c : Amount :=
  default (rc_target_network_weight_units (nc_reward c))
    ((λ p, target_network_weight_units (rewards p)) <$> latest_activated_protocol_params store).

Definition effective_reward_adjustment_cap_bps store c : Z :=
  default (rc_reward_adjustment_cap_bps (nc_reward c))
    ((λ p, reward_adjustment_cap_bps (rewards p)) <$> latest_activated_protocol_params store).

Definition effective_challenge_window_blocks store c : Z :=
  default (rt_challenge_window_blocks (runtime c))
    (challenge_window_blocks <$> latest_activated_protocol_params store).

Definition effective_min_retention_epochs store c : Z :=
  default (sc_retention_epochs (nc_storage c))
    (min_retention_epochs <$> latest_activated_protocol_params store).

Definition activated_protocol_game_coefficient_ppm_for_app store (app_id : AppId) : option Z :=
  params ← latest_activated_protocol_params store;
  awo_game_coefficient_ppm <$>
    (snd <$> list_find (λ entry, awo_app_id entry = app_id) (app_weight_overrides (rewards params))).

(** [Iterator::max] *)
Definition iter_max (l : list Z) : option Z :=
  match l with [] => None | x :: l => Some (foldl Z.max x l) end.

Definition game_coefficient_ppm_for_app store c (app_id : AppId) : Z :=
  match activated_protocol_game_coefficient_ppm_for_app store app_id with
  | Some override_ppm => override_ppm
  | None => default 1000000 (iter_max (game_coefficient_ppm <$>
      filter (λ m, gm_app_id m = app_id) (game_mappings (nc_reward c))))
  end.
End Effective.

(** ** Process names *)

Definition normalize_process_name (process_name : string) : string :=
  trim_end_matches (to_ascii_lowercase (trim process_name)) ".exe".

(** [None] is the panic of slicing inside a multi-byte character. *)
Definition canonical_process_name (process_name : string) : option string :=
  let trimmed := trim process_name in
  if str_is_empty trimmed then Some ""%string else
  let len := String.length trimmed in
  base ← (if (4 <=? len)%nat then
            tail ← slice_from trimmed (len - 4);
            if eq_ignore_ascii_case tail ".exe" then slice_to trimmed (len - 4) else Some trimmed
          else Some trimmed);
  Some (base +:+ ".exe")%string.

Definition find_game_mapping (c : NodeConfig) (name : string) : option RewardGameMapping :=
  let normalized := normalize_process_name name in
  snd <$> list_find (λ mapping, normalize_process_name (process_name mapping) = normalized)
    (game_mappings (nc_reward c)).

Section Mappings.
Context {S : Type} `{PS : ProtocolStore S} (infer_reward_game_mapping : string → option RewardGameMapping).

Definition game_mapping_for (c : NodeConfig) (name : string) : option RewardGameMapping :=
  match find_game_mapping c name with
  | Some mapping => Some mapping
  | None => infer_reward_game_mapping name
  end.

(** The closure both branches of [select_active_game_mapping] map. *)
Definition active_mapping_of (store : option S) (c : NodeConfig) (mapping : RewardGameMapping)
    : option (string * AppId * Z) :=
  name ← canonical_process_name (process_name mapping);
  Some (name, gm_app_id mapping, game_coefficient_ppm_for_app store c (gm_app_id mapping)).

(** [find_map] over the active processes; the outer [None] is a panic. *)
Fixpoint first_active_mapping (store : option S) (c : NodeConfig) (names : list string)
    : option (option (string * AppId * Z)) :=
  match names with
  | [] => Some None
  | name :: names =>
      match game_mapping_for c name with
      | Some mapping => Some <$> active_mapping_of store c mapping
      | None => first_active_mapping store c names
      end
  end.

Definition select_active_game_mapping (store : option S) (c : NodeConfig)
    (foreground_process : option string) (active_game_processes : list string)
    : option (option (string * AppId * Z)) :=
  match foreground_process ≫= game_mapping_for c with
  | Some mapping => Some <$> active_mapping_of store c mapping
  | None => first_active_mapping store c active_game_processes
  end.

Fixpoint mapped_apps (c : NodeConfig) (names : list string) (apps : list (string * AppId))
    : option (list (string * AppId)) :=
  match names with
  | [] => Some apps
  | name :: names =>
      match game_mapping_for c name with
      | Some mapping =>
          canonical ← canonical_process_name (process_name mapping);
          let entry := (canonical, gm_app_id mapping) in
          mapped_apps c names (if bool_decide (entry ∈ apps) then apps else apps ++ [entry])
      | None => mapped_apps c names apps
      end
  end.

Definition active_mapped_apps (c : NodeConfig) (names : list string)
    : option (list (string * AppId)) :=
  apps ← mapped_apps c names []; Some (sort_by leb apps).
End Mappings.

(** * Properties *)

Section MaxByKey.
Context {A K : Type} `{OrdLaws K} (key : A → K).

(** The element [max_by_key] returns splits the list: nothing before it is greater,
    everything after it is smaller. *)
Lemma max_by_key_split l :
  (max_by_key key l = None ∧ l = [])
  ∨ ∃ l1 m l2, l = l1 ++ m :: l2 ∧ max_by_key key l = Some m
      ∧ Forall (λ x, leb (key x) (key m) = true) l1
      ∧ Forall (λ x, leb (key m) (key x) = false) l2.
Proof.
  unfold max_by_key. induction l as [|x l IH] using rev_ind; [by left|right].
  rewrite foldl_app. simpl. destruct IH as [[-> ->]|(l1 & m & l2 & -> & -> & Hl1 & Hl2)].
  { by exists [], x, []. }
  destruct (leb (key m) (key x)) eqn:Hle.
  - exists (l1 ++ m :: l2), x, []. split_and!; try done.
    rewrite Forall_app, Forall_cons. split_and!; [|done|].
    + eapply Forall_impl; [exact Hl1|]. intros y Hy. eapply leb_trans; [exact Hy|exact Hle].
    + eapply Forall_impl; [exact Hl2|]. intros y Hy. eapply leb_trans; [|exact Hle].
      by apply leb_false.
  - exists l1, m, (l2 ++ [x]). split_and!; try done; [by simplify_list_eq|].
    rewrite Forall_app, Forall_singleton. done.
Qed.
End MaxByKey.

(** The parameters the node uses are those of an activated proposal, and no activated
    proposal takes effect later. *)
Lemma latest_activated_max l p :
  latest_activated l = Some p →
  ∃ r, r ∈ l ∧ gp_state r = Activated ∧ gp_params r = p ∧
    ∀ r', r' ∈ l → gp_state r' = Activated → gp_effective_epoch r' <= gp_effective_epoch r.
Proof.
  unfold latest_activated. intros (r & Hr & Hmax)%fmap_Some.
  destruct (max_by_key_split gp_effective_epoch (filter (λ p, gp_state p = Activated) l))
    as [[Hn _]|(l1 & m & l2 & Hl & Hm & Hl1 & Hl2)]; [congruence|].
  assert (m = r) as -> by congruence. exists r.
  assert (r ∈ filter (λ p, gp_state p = Activated) l) as [? ?]%list_elem_of_filter
    by (rewrite Hl; set_solver).
  split_and!; [done..|]. intros r' Hr' Hs.
  assert (r' ∈ l1 ++ r :: l2) as Hin by (rewrite <- Hl; by apply list_elem_of_filter).
  rewrite elem_of_app, elem_of_cons in Hin. rewrite !Forall_forall in *.
  destruct Hin as [Hin|[->|Hin]]; [apply Z_leb_le, Hl1; done|done|].
  apply Z_leb_le, leb_false, Hl2; done.
Qed.

Lemma latest_activated_none l :
  latest_activated l = None ↔ ∀ r, r ∈ l → gp_state r ≠ Activated.
Proof.
  unfold latest_activated. rewrite fmap_None.
  destruct (max_by_key_split gp_effective_epoch (filter (λ p, gp_state p = Activated) l))
    as [[-> Hl]|(l1 & m & l2 & Hl & -> & _)].
  - split; [|done]. intros _ r Hr Hs.
    assert (r ∈ filter (λ p, gp_state p = Activated) l) as Hin by by apply list_elem_of_filter.
    rewrite Hl in Hin. by apply not_elem_of_nil in Hin.
  - split; [done|]. intros Hall.
    assert (m ∈ filter (λ p, gp_state p = Activated) l) as [Hs Hin]%list_elem_of_filter
      by (rewrite Hl; set_solver). by destruct (Hall m).
Qed.

Section MappingProofs.
Context {S : Type} `{PS : ProtocolStore S} (infer : string → option RewardGameMapping).

Lemma mapped_apps_spec c names apps r :
  mapped_apps infer c names apps = Some r → NoDup apps →
  NoDup r ∧ ∀ e, e ∈ r ↔ e ∈ apps ∨ ∃ name m, name ∈ names ∧ game_mapping_for infer c name = Some m
    ∧ canonical_process_name (process_name m) = Some e.1 ∧ e.2 = gm_app_id m.
Proof.
  revert apps. induction names as [|name names IH]; simpl; intros apps Hr Hnd.
  { simplify_eq. split; [done|]. set_solver. }
  destruct (game_mapping_for infer c name) as [m|] eqn:Hm.
  - destruct (canonical_process_name (process_name m)) as [cn|] eqn:Hc; [|done]. simpl in Hr.
    case_bool_decide as Hin.
    + destruct (IH _ Hr Hnd) as [Hn He]. split; [done|]. intros e. rewrite He.
      split; [set_solver|]. intros [?|(nm & m' & Hnm & Hm' & Hc' & He2)]; [by left|].
      apply elem_of_cons in Hnm as [->|]; [|right; eauto 10].
      left. destruct e; simpl in *. simplify_eq. done.
    + destruct (IH _ Hr) as [Hn He]; [apply NoDup_app; split_and!; [done| |apply NoDup_singleton]; set_solver|].
      split; [done|]. intros e. rewrite He, elem_of_app, list_elem_of_singleton. split.
      * intros [[?| ->]|(? & ? & ? & ? & ?)]; [by left| |set_solver]. right. exists name, m. set_solver.
      * intros [?|(nm & m' & Hnm & Hm' & Hc' & He2)]; [by do 2 left|].
        apply elem_of_cons in Hnm as [->|]; [|right; eauto 10].
        left; right. destruct e; simpl in *. simplify_eq. done.
  - destruct (IH _ Hr Hnd) as [Hn He]. split; [done|]. intros e. rewrite He.
    split; [set_solver|]. intros [?|(nm & m' & Hnm & Hm' & Hc' & He2)]; [by left|].
    apply elem_of_cons in Hnm as [->|]; [congruence|right; eauto 10].
Qed.

Lemma first_active_mapping_spec store c names name app ppm :
  first_active_mapping infer store c names = Some (Some (name, app, ppm)) →
  ∃ n m, n ∈ names ∧ game_mapping_for infer c n = Some m
    ∧ canonical_process_name (process_name m) = Some name ∧ app = gm_app_id m.
Proof.
  induction names as [|n names IH]; simpl; [done|].
  destruct (game_mapping_for infer c n) as [m|] eqn:Hm; [|set_solver].
  unfold active_mapping_of. destruct (canonical_process_name (process_name m)) eqn:Hc; [|done].
  simpl. intros ?. simplify_eq. exists n, m. set_solver.
Qed.

(** The reward tick and the mutual-proof layer agree on what is being played: when
    the process in the foreground, if any, is among the active ones, the game a tick
    credits is one of the apps play sessions are opened for. *)
Theorem credited_game_has_session store c fg names name app ppm apps :
  (∀ p, fg = Some p → p ∈ names) →
  select_active_game_mapping infer store c fg names = Some (Some (name, app, ppm)) →
  active_mapped_apps infer c names = Some apps → (name, app) ∈ apps.
Proof.
  intros Hfg Hsel Happs. unfold active_mapped_apps in Happs.
  destruct (mapped_apps infer c names []) as [r|] eqn:Hr; [|done]. simpl in Happs. simplify_eq.
  rewrite sort_by_perm. destruct (mapped_apps_spec c names [] r Hr) as [_ He]; [constructor|].
  rewrite He. right. simpl. unfold select_active_game_mapping in Hsel.
  destruct (fg ≫= game_mapping_for infer c) as [m|] eqn:Hm.
  - apply bind_Some in Hm as (p & -> & Hm). unfold active_mapping_of in Hsel.
    destruct (canonical_process_name (process_name m)) eqn:Hc; [|done]. simpl in Hsel.
    simplify_eq. exists p, m. auto.
  - apply first_active_mapping_spec in Hsel as (n & m & ? & ? & ? & ->). by exists n, m.
Qed.
End MappingProofs.

(** A process name of two Chinese characters, as Windows reports it with its suffix,
    is canonical; without the suffix, the slice falls inside a character. *)
Example canonical_name_with_suffix :
  canonical_process_name (string_of_bytes [0xE5;0x8E;0x9F;0xE7;0xA5;0x9E;0x2E;0x45;0x58;0x45])
  = Some (string_of_bytes [0xE5;0x8E;0x9F;0xE7;0xA5;0x9E;0x2E;0x65;0x78;0x65]).
Proof. vm_compute. reflexivity. Qed.

(** A process name whose fourth byte from the end continues a character makes
    [canonical_process_name] panic, also in a configuration that validates. *)
Example canonical_name_panics :
  canonical_process_name (string_of_bytes [0xE5;0x8E;0x9F;0xE7;0xA5;0x9E]) = None.
Proof. vm_compute. reflexivity. Qed.

(** A configuration that credits one game. *)
Definition demo_game : RewardGameMapping :=
  {| process_name := "Game.exe"; gm_app_id := 730; game_coefficient_ppm := 1000000 |}.

Definition with_game_mappings (r : RewardConfig) (l : list RewardGameMapping) : RewardConfig := {|
  reward_source := reward_source r; rc_emission_year := rc_emission_year r;
  rc_reward_block_secs := rc_reward_block_secs r; player_block_reward := player_block_reward r;
  reward_adjustment_period_blocks := reward_adjustment_period_blocks r;
  rc_target_network_weight_units := rc_target_network_weight_units r;
  rc_reward_adjustment_cap_bps := rc_reward_adjustment_cap_bps r;
  rc_collect_reward_bps := rc_collect_reward_bps r; rc_store_reward_bps := rc_store_reward_bps r;
  rc_verify_reward_bps := rc_verify_reward_bps r; rc_propose_reward_bps := rc_propose_reward_bps r;
  rc_tail_emission_start_year := rc_tail_emission_start_year r;
  rc_tail_emission_rate_bps := rc_tail_emission_rate_bps r; game_mappings := l |}.

Definition demo_config (l : list RewardGameMapping) : NodeConfig :=
  let c := NodeConfig_default in {|
  nc_chain_id := nc_chain_id c; node_id_hex := hex_32 (replicate 32 0x51);
  reward_address_hex := reward_address_hex c;
  nc_capabilities := nc_capabilities c; nc_collect := nc_collect c; runtime := runtime c;
  nc_storage := nc_storage c; nc_reward := with_game_mappings (nc_reward c) l |}.

Lemma demo_config_valid : validate_node_config (demo_config [demo_game]) = Ok tt.
Proof. vm_compute. reflexivity. Qed.

Lemma credited_game_has_session_witness :
  select_active_game_mapping (S:=InMemoryStore) (λ _, None) None (demo_config [demo_game])
    (Some "GAME"%string) ["other"%string; "GAME"%string] = Some (Some ("Game.exe"%string, 730, 1000000))
  ∧ ("Game.exe"%string, 730) ∈ [("Game.exe"%string, 730)].
Proof.
  split; [vm_compute; reflexivity|].
  apply (credited_game_has_session (S:=InMemoryStore) (λ _, None) None (demo_config [demo_game])
    (Some "GAME"%string) ["other"%string; "GAME"%string] "Game.exe"%string 730 1000000).
  - intros p [= <-]. set_solver.
  - vm_compute; reflexivity.
  - vm_compute; reflexivity.
Defined.
