(* ===== verification/PlayerTicks.v ===== *)
(** * Player reward ticks: [record_player_reward_tick] of src/src/node_rewards.rs

    Each collection tick adds its interval to a pending reward block; every time the
    block reaches [reward_block_secs] it is closed and each game played in it gets a
    record with its share of the block reward. [None] is a panic (an overflowing sum
    or counter, or a process name cut inside a character); the artifact's file is not
    modelled. *)
From S2P Require Import Prelude Primitives Params Records Crypto Store Tokenomics Rewards Pipeline Text NodeConfig ActiveParams.

Record PendingPlayerRewardEntry := {
  pe_process_name : string;
  pe_app_id : AppId;
  pe_game_coefficient_ppm : Z;
  pe_play_seconds : Z;
}.

Record PendingPlayerRewardBlockState := {
  pp_sampled_interval_secs : Z;
  pp_total_network_weight_units : Amount;
  pp_total_adjustment_cycle_network_weight_units : Amount;
  pp_fixed_block_reward : Amount;
  pp_fixed_player_reward : Amount;
  pp_reward_adjustment_period_index : Z;
  pp_adjustment_cycle_index : Z;
  pp_entries : list PendingPlayerRewardEntry;
}.

Definition PendingPlayerRewardBlockState_default : PendingPlayerRewardBlockState := {|
  pp_sampled_interval_secs := 0; pp_total_network_weight_units := 0;
  pp_total_adjustment_cycle_network_weight_units := 0; pp_fixed_block_reward := 0;
  pp_fixed_player_reward := 0; pp_reward_adjustment_period_index := 0;
  pp_adjustment_cycle_index := 0; pp_entries := [] |}.

(** [if x == 0 { x = y }] *)
Definition or_if_zero (x y : Z) : Z := if x =? 0 then y else x.

Definition normalize_pending (s : PendingPlayerRewardBlockState) : PendingPlayerRewardBlockState :=
  let weight := or_if_zero (pp_total_adjustment_cycle_network_weight_units s)
                  (pp_total_network_weight_units s) in
  let reward := or_if_zero (pp_fixed_player_reward s) (pp_fixed_block_reward s) in
  let index := or_if_zero (pp_adjustment_cycle_index s) (pp_reward_adjustment_period_index s) in
  {| pp_sampled_interval_secs := pp_sampled_interval_secs s;
     pp_total_network_weight_units := weight;
     pp_total_adjustment_cycle_network_weight_units := weight;
     pp_fixed_block_reward := reward;
     pp_fixed_player_reward := reward;
     pp_reward_adjustment_period_index := index;
     pp_adjustment_cycle_index := index;
     pp_entries := pp_entries s |}.

Record RewardTickContext := {
  tc_epoch_id : EpochId;
  tc_slot_id : SlotId;
  tc_session_id : string;
  tc_sampled_interval_secs : Z;
  tc_fixed_block_reward : Amount;
  tc_fixed_player_reward : Amount;
  tc_reward_adjustment_period_index : Z;
  tc_adjustment_cycle_index : Z;
  tc_fixed_block_reward_basis_period_index : Z;
  tc_fixed_player_reward_basis_cycle_index : Z;
  tc_fixed_block_reward_basis_network_weight_units : Amount;
  tc_fixed_player_reward_basis_total_network_weight_units : Amount;
}.

Record PlayerRewardBlockRecord := {
  pb_epoch_id : EpochId;
  pb_slot_id : SlotId;
  pb_block_index : Z;
  pb_process_name : string;
  pb_app_id : AppId;
  pb_session_id : string;
  pb_play_seconds : Z;
  pb_reward_block_secs : Z;
  pb_sampled_interval_secs : Z;
  pb_game_coefficient_ppm : Z;
  pb_observed_network_players : Z;
  pb_player_weight_units : Amount;
  pb_total_network_weight_units : Amount;
  pb_reward_adjustment_period_index : Z;
  pb_adjustment_cycle_index : Z;
  pb_reward_adjustment_period_blocks : Z;
  pb_adjustment_cycle_blocks : Z;
  pb_target_network_weight_units : Amount;
  pb_target_total_network_weight_units : Amount;
  pb_reward_adjustment_cap_bps : Z;
  pb_fixed_block_reward_basis_period_index : Z;
  pb_fixed_player_reward_basis_cycle_index : Z;
  pb_fixed_block_reward_basis_network_weight_units : Amount;
  pb_fixed_player_reward_basis_total_network_weight_units : Amount;
  pb_block_reward : Amount;
  pb_fixed_player_reward : Amount;
  pb_player_reward : Amount;
}.

Definition normalize_block_record (r : PlayerRewardBlockRecord) : PlayerRewardBlockRecord :=
  let cycle := or_if_zero (pb_adjustment_cycle_index r) (pb_reward_adjustment_period_index r) in
  let blocks := or_if_zero (pb_adjustment_cycle_blocks r) (pb_reward_adjustment_period_blocks r) in
  let target := or_if_zero (pb_target_total_network_weight_units r)
                  (pb_target_network_weight_units r) in
  let basis_cycle := or_if_zero (pb_fixed_player_reward_basis_cycle_index r)
                       (pb_fixed_block_reward_basis_period_index r) in
  let basis_weight := or_if_zero (pb_fixed_player_reward_basis_total_network_weight_units r)
                        (pb_fixed_block_reward_basis_network_weight_units r) in
  let reward := or_if_zero (pb_fixed_player_reward r) (pb_block_reward r) in
  {| pb_epoch_id := pb_epoch_id r; pb_slot_id := pb_slot_id r; pb_block_index := pb_block_index r;
     pb_process_name := pb_process_name r; pb_app_id := pb_app_id r;
     pb_session_id := pb_session_id r; pb_play_seconds := pb_play_seconds r;
     pb_reward_block_secs := pb_reward_block_secs r;
     pb_sampled_interval_secs := pb_sampled_interval_secs r;
     pb_game_coefficient_ppm := pb_game_coefficient_ppm r;
     pb_observed_network_players := pb_observed_network_players r;
     pb_player_weight_units := pb_player_weight_units r;
     pb_total_network_weight_units := pb_total_network_weight_units r;
     pb_reward_adjustment_period_index := cycle; pb_adjustment_cycle_index := cycle;
     pb_reward_adjustment_period_blocks := blocks; pb_adjustment_cycle_blocks := blocks;
     pb_target_network_weight_units := target; pb_target_total_network_weight_units := target;
     pb_reward_adjustment_cap_bps := pb_reward_adjustment_cap_bps r;
     pb_fixed_block_reward_basis_period_index := basis_cycle;
     pb_fixed_player_reward_basis_cycle_index := basis_cycle;
     pb_fixed_block_reward_basis_network_weight_units := basis_weight;
     pb_fixed_player_reward_basis_total_network_weight_units := basis_weight;
     pb_block_reward := reward; pb_fixed_player_reward := reward;
     pb_player_reward := pb_player_reward r |}.

Record PlayerRewardTickArtifact := {
  pt_epoch_id : EpochId;
  pt_slot_id : SlotId;
  pt_sampled_interval_secs : Z;
  pt_reward_block_secs : Z;
  pt_reward_adjustment_period_index : Z;
  pt_adjustment_cycle_index : Z;
  pt_reward_adjustment_period_blocks : Z;
  pt_adjustment_cycle_blocks : Z;
  pt_completed_reward_block_count : Z;
  pt_fixed_block_reward_basis_period_index : Z;
  pt_fixed_player_reward_basis_cycle_index : Z;
  pt_fixed_block_reward_basis_network_weight_units : Amount;
  pt_fixed_player_reward_basis_total_network_weight_units : Amount;
  pt_block_reward : Amount;
  pt_fixed_player_reward : Amount;
  pt_foreground_process : option string;
  pt_active_game_processes : list string;
  pt_records : list PlayerRewardBlockRecord;
  pt_total_player_reward : Amount;
}.

Definition normalize_tick_artifact (a : PlayerRewardTickArtifact) : PlayerRewardTickArtifact :=
  let cycle := or_if_zero (pt_adjustment_cycle_index a) (pt_reward_adjustment_period_index a) in
  let blocks := or_if_zero (pt_adjustment_cycle_blocks a) (pt_reward_adjustment_period_blocks a) in
  let basis_cycle := or_if_zero (pt_fixed_player_reward_basis_cycle_index a)
                       (pt_fixed_block_reward_basis_period_index a) in
  let basis_weight := or_if_zero (pt_fixed_player_reward_basis_total_network_weight_units a)
                        (pt_fixed_block_reward_basis_network_weight_units a) in
  let reward := or_if_zero (pt_fixed_player_reward a) (pt_block_reward a) in
  {| pt_epoch_id := pt_epoch_id a; pt_slot_id := pt_slot_id a;
     pt_sampled_interval_secs := pt_sampled_interval_secs a;
     pt_reward_block_secs := pt_reward_block_secs a;
     pt_reward_adjustment_period_index := cycle; pt_adjustment_cycle_index := cycle;
     pt_reward_adjustment_period_blocks := blocks; pt_adjustment_cycle_blocks := blocks;
     pt_completed_reward_block_count := pt_completed_reward_block_count a;
     pt_fixed_block_reward_basis_period_index := basis_cycle;
     pt_fixed_player_reward_basis_cycle_index := basis_cycle;
     pt_fixed_block_reward_basis_network_weight_units := basis_weight;
     pt_fixed_player_reward_basis_total_network_weight_units := basis_weight;
     pt_block_reward := reward; pt_fixed_player_reward := reward;
     pt_foreground_process := pt_foreground_process a;
     pt_active_game_processes := pt_active_game_processes a;
     pt_records := normalize_block_record <$> pt_records a;
     pt_total_player_reward := pt_total_player_reward a |}.

Record PlayerRewardTickComputation := {
  tk_artifact : PlayerRewardTickArtifact;
  tk_pending_state : option PendingPlayerRewardBlockState;
}.

(** The four assignments that copy the block reward of the context. *)
Definition seed_pending (ctx : RewardTickContext) (s : PendingPlayerRewardBlockState)
    : PendingPlayerRewardBlockState := {|
  pp_sampled_interval_secs := pp_sampled_interval_secs s;
  pp_total_network_weight_units := pp_total_network_weight_units s;
  pp_total_adjustment_cycle_network_weight_units := pp_total_adjustment_cycle_network_weight_units s;
  pp_fixed_block_reward := tc_fixed_block_reward ctx;
  pp_fixed_player_reward := tc_fixed_player_reward ctx;
  pp_reward_adjustment_period_index := tc_reward_adjustment_period_index ctx;
  pp_adjustment_cycle_index := tc_adjustment_cycle_index ctx;
  pp_entries := pp_entries s |}.

(** Credit [chunk] seconds to the game: [entries.iter_mut().find(..)] or [push]. *)
Fixpoint add_play (game : string * AppId * Z) (chunk : Z) (entries : list PendingPlayerRewardEntry)
    : list PendingPlayerRewardEntry :=
  let '(name, app_id, ppm) := game in
  match entries with
  | [] => [{| pe_process_name := name; pe_app_id := app_id; pe_game_coefficient_ppm := ppm;
              pe_play_seconds := chunk |}]
  | e :: entries =>
      if (pe_app_id e =? app_id) && (pe_game_coefficient_ppm e =? ppm)
         && bool_decide (pe_process_name e = name)
      then {| pe_process_name := pe_process_name e; pe_app_id := pe_app_id e;
              pe_game_coefficient_ppm := pe_game_coefficient_ppm e;
              pe_play_seconds := saturating_add 64 (pe_play_seconds e) chunk |} :: entries
      else e :: add_play game chunk entries
  end.

Definition entry_key (e : PendingPlayerRewardEntry) : string * AppId * Z :=
  (pe_process_name e, pe_app_id e, pe_game_coefficient_ppm e).

Section Tick.
Context `{B : BuildMode} {DB : Type} `{PS : ProtocolStore DB}.
Context (infer_reward_game_mapping : string → option RewardGameMapping).
Context (store : option DB) (config : NodeConfig).

Definition network_weight_units_for_duration (samples : list ActivitySample) (duration_secs : Z)
    : option Amount :=
  sum_checked 128 ((λ s, saturating_mul 128 (saturating_mul 128 (as_observed_players s) duration_secs)
    (game_coefficient_ppm_for_app store config (as_app_id s))) <$> samples).

Definition current_network_weight_units_for_block (samples : list ActivitySample) : option Amount :=
  network_weight_units_for_duration samples (Z.max (effective_reward_block_secs store config) 1).

Section Loop.
Context (ctx : RewardTickContext) (block_secs : Z) (active_mapping : option (string * AppId * Z)).
Context (session_ids_by_app : gmap AppId string) (samples : list ActivitySample).

(** One record of a completed block. *)
Definition block_record (pending : PendingPlayerRewardBlockState) (block_index : Z)
    (e : PendingPlayerRewardEntry) : PlayerRewardBlockRecord :=
  let weight := saturating_mul 128 (pe_play_seconds e) (pe_game_coefficient_ppm e) in
  {| pb_epoch_id := tc_epoch_id ctx; pb_slot_id := tc_slot_id ctx; pb_block_index := block_index;
     pb_process_name := pe_process_name e; pb_app_id := pe_app_id e;
     pb_session_id := if str_is_empty (tc_session_id ctx)
       then default ""%string (session_ids_by_app !! pe_app_id e) else tc_session_id ctx;
     pb_play_seconds := pe_play_seconds e; pb_reward_block_secs := block_secs;
     pb_sampled_interval_secs := block_secs; pb_game_coefficient_ppm := pe_game_coefficient_ppm e;
     pb_observed_network_players := default 0 ((λ r, as_observed_players r.2) <$>
       list_find (λ s, as_app_id s = pe_app_id e) samples);
     pb_player_weight_units := weight;
     pb_total_network_weight_units := pp_total_network_weight_units pending;
     pb_reward_adjustment_period_index := 0;
     pb_adjustment_cycle_index := pp_reward_adjustment_period_index pending;
     pb_reward_adjustment_period_blocks := 0;
     pb_adjustment_cycle_blocks := reward_adjustment_period_blocks (nc_reward config);
     pb_target_network_weight_units := 0;
     pb_target_total_network_weight_units := effective_target_network_weight_units store config;
     pb_reward_adjustment_cap_bps := effective_reward_adjustment_cap_bps store config;
     pb_fixed_block_reward_basis_period_index := 0;
     pb_fixed_player_reward_basis_cycle_index := tc_fixed_player_reward_basis_cycle_index ctx;
     pb_fixed_block_reward_basis_network_weight_units := 0;
     pb_fixed_player_reward_basis_total_network_weight_units :=
       tc_fixed_player_reward_basis_total_network_weight_units ctx;
     pb_block_reward := 0;
     pb_fixed_player_reward := pp_fixed_block_reward pending;
     pb_player_reward := proportional_reward (pp_fixed_block_reward pending) weight
       (pp_total_network_weight_units pending) |}.

(** The variables of the loop. *)
Record TickState := {
  ts_pending : PendingPlayerRewardBlockState;
  ts_records : list PlayerRewardBlockRecord;
  ts_count : Z;
  ts_remaining : Z;
  ts_block_index : Z;
}.

(** The seconds the next iteration takes. *)
Definition chunk_of (st : TickState) : Z :=
  let needed := saturating_sub block_secs (pp_sampled_interval_secs (ts_pending st)) in
  Z.min (ts_remaining st) (Z.max needed 1).

(** The first half of the loop body: the chunk is added to the pending block. *)
Definition grow_pending (pending : PendingPlayerRewardBlockState) (chunk : Z)
    : option PendingPlayerRewardBlockState :=
  weight ← network_weight_units_for_duration samples chunk;
  let total := saturating_add 128 (pp_total_network_weight_units pending) weight in
  Some {|
    pp_sampled_interval_secs := saturating_add 64 (pp_sampled_interval_secs pending) chunk;
    pp_total_network_weight_units := total;
    pp_total_adjustment_cycle_network_weight_units := total;
    pp_fixed_block_reward := pp_fixed_block_reward pending;
    pp_fixed_player_reward := pp_fixed_player_reward pending;
    pp_reward_adjustment_period_index := pp_reward_adjustment_period_index pending;
    pp_adjustment_cycle_index := pp_adjustment_cycle_index pending;
    pp_entries := match active_mapping with
                  | Some game => add_play game chunk (pp_entries pending)
                  | None => pp_entries pending
                  end |}.

(** The pending block after a completed one. *)
Definition next_pending (remaining : Z) : PendingPlayerRewardBlockState :=
  if 0 <? remaining then normalize_pending (seed_pending ctx PendingPlayerRewardBlockState_default)
  else PendingPlayerRewardBlockState_default.

Definition tick_step (st : TickState) : option TickState :=
  let chunk := chunk_of st in
  pending ← grow_pending (ts_pending st) chunk;
  let remaining := saturating_sub (ts_remaining st) chunk in
  if pp_sampled_interval_secs pending <? block_secs then
    Some {| ts_pending := pending; ts_records := ts_records st; ts_count := ts_count st;
            ts_remaining := remaining; ts_block_index := ts_block_index st |}
  else
    let records := block_record pending (ts_block_index st) <$>
                     sort_by_key entry_key (pp_entries pending) in
    count ← add 64 (ts_count st) 1;
    index ← add 32 (ts_block_index st) 1;
    Some {| ts_pending := next_pending remaining; ts_records := ts_records st ++ records;
            ts_count := count; ts_remaining := remaining; ts_block_index := index |}.

(** [while remaining_secs > 0]: every iteration takes a second or more. *)
Fixpoint tick_loop (fuel : nat) (st : TickState) : option TickState :=
  match fuel with
  | O => Some st
  | S fuel => if 0 <? ts_remaining st then st' ← tick_step st; tick_loop fuel st' else Some st
  end.
End Loop.

Definition initial_pending (ctx : RewardTickContext) (pending : option PendingPlayerRewardBlockState)
    : PendingPlayerRewardBlockState :=
  let p := normalize_pending (default PendingPlayerRewardBlockState_default pending) in
  if (pp_fixed_block_reward p =? 0) || (pp_sampled_interval_secs p =? 0)
  then seed_pending ctx p else p.

(** [sessions]: the play sessions this node stored. *)
Definition record_player_reward_tick (sessions : gmap AppId string) (ctx : RewardTickContext)
    (pending : option PendingPlayerRewardBlockState) (foreground_process : option string)
    (active_game_processes : list string) (samples : list ActivitySample)
    : option PlayerRewardTickComputation :=
  let block_secs := Z.max (effective_reward_block_secs store config) 1 in
  let interval := Z.max (tc_sampled_interval_secs ctx) 1 in
  active_mapping ← select_active_game_mapping infer_reward_game_mapping store config
    foreground_process active_game_processes;
  let session_ids_by_app := if str_is_empty (tc_session_id ctx) then sessions else ∅ in
  st ← tick_loop ctx block_secs active_mapping session_ids_by_app samples (Z.to_nat interval)
    {| ts_pending := initial_pending ctx pending; ts_records := []; ts_count := 0;
       ts_remaining := interval; ts_block_index := 0 |};
  total ← sum_checked 128 (pb_player_reward <$> ts_records st);
  let artifact := normalize_tick_artifact {|
    pt_epoch_id := tc_epoch_id ctx; pt_slot_id := tc_slot_id ctx;
    pt_sampled_interval_secs := interval; pt_reward_block_secs := block_secs;
    pt_reward_adjustment_period_index := 0;
    pt_adjustment_cycle_index := tc_adjustment_cycle_index ctx;
    pt_reward_adjustment_period_blocks := 0;
    pt_adjustment_cycle_blocks := reward_adjustment_period_blocks (nc_reward config);
    pt_completed_reward_block_count := ts_count st;
    pt_fixed_block_reward_basis_period_index := 0;
    pt_fixed_player_reward_basis_cycle_index := tc_fixed_player_reward_basis_cycle_index ctx;
    pt_fixed_block_reward_basis_network_weight_units := 0;
    pt_fixed_player_reward_basis_total_network_weight_units :=
      tc_fixed_player_reward_basis_total_network_weight_units ctx;
    pt_block_reward := 0;
    pt_fixed_player_reward := match ts_records st with
      | record :: _ => pb_fixed_player_reward record
      | [] => Z.max (pp_fixed_block_reward (ts_pending st)) (tc_fixed_player_reward ctx)
      end;
    pt_foreground_process := foreground_process;
    pt_active_game_processes := active_game_processes;
    pt_records := ts_records st;
    pt_total_player_reward := total |} in
  Some {| tk_artifact := artifact;
          tk_pending_state := if 0 <? pp_sampled_interval_secs (ts_pending st)
                              then Some (ts_pending st) else None |}.
End Tick.

(** * Properties *)

(** [f] of the coefficient, weighted by the time played. *)
Definition played (f : Z → Z) (l : list PendingPlayerRewardEntry) : Z :=
  lsum (λ e, pe_play_seconds e * f (pe_game_coefficient_ppm e)) l.
Notation play_secs := (played (λ _, 1)).
Notation play_weight := (played (λ ppm, ppm)).

Lemma add_play_played f game chunk l :
  Forall (λ e, 0 <= pe_play_seconds e) l → play_secs l + chunk < 2 ^ 64 →
  played f (add_play game chunk l) = played f l + chunk * f game.2.
Proof.
  destruct game as [[name app] ppm]. unfold played. intros Hnn.
  induction Hnn as [|e l He Hl IH]; intros Hlt; simpl in *; [lia|].
  assert (0 <= lsum (λ e, pe_play_seconds e * 1) l).
  { apply lsum_nonneg. intros x Hx. rewrite Forall_forall in Hl. specialize (Hl x Hx). lia. }
  destruct ((_ =? _) && (_ =? _) && _) eqn:Hm; simpl.
  - rewrite !andb_true_iff, Z.eqb_eq, Z.eqb_eq in Hm. destruct Hm as [[_ Hp] _].
    rewrite saturating_add_exact, Hp by lia. lia.
  - rewrite IH by lia. lia.
Qed.

Lemma add_play_forall (P : PendingPlayerRewardEntry → Prop) game chunk l :
  (∀ name app ppm secs, P {| pe_process_name := name; pe_app_id := app;
     pe_game_coefficient_ppm := ppm; pe_play_seconds := secs |} ↔ 0 <= secs ∧ 0 <= ppm < 2 ^ 32) →
  0 <= chunk → 0 <= game.2 < 2 ^ 32 → Forall P l → Forall P (add_play game chunk l).
Proof.
  intros HP Hc Hg. destruct game as [[name app] ppm]; simpl in *.
  induction 1 as [|[n a p s] l He Hl IH]; simpl; [constructor; [by apply HP|constructor]|].
  case_match; constructor; try done. rewrite HP in He |- *. unfold saturating_add, umax. lia.
Qed.

(** The pending block of a tick: entries of machine integers, less than a block of
    time, of which the entries account for a part. *)
Record pending_ok (block_secs : Z) (p : PendingPlayerRewardBlockState) : Prop := {
  po_entries : Forall (λ e, 0 <= pe_play_seconds e ∧ 0 <= pe_game_coefficient_ppm e < 2 ^ 32)
                 (pp_entries p);
  po_secs : 0 <= pp_sampled_interval_secs p < block_secs;
  po_play : play_secs (pp_entries p) <= pp_sampled_interval_secs p;
}.

Section TickProofs.
Context `{B : BuildMode} {DB : Type} `{PS : ProtocolStore DB}.
Context (store : option DB) (config : NodeConfig) (ctx : RewardTickContext) (block_secs : Z).
Context (game : option (string * AppId * Z)) (ids : gmap AppId string).
Context (samples : list ActivitySample).
Context (Hblock : 0 < block_secs < 2 ^ 64).
Context (Hgame : ∀ g, game = Some g → 0 <= g.2 < 2 ^ 32).

Notation grow := (grow_pending store config game samples).
Notation step := (tick_step store config ctx block_secs game ids samples).
Notation loop := (tick_loop store config ctx block_secs game ids samples).

(** The part of an interval that counts as play. *)
Definition credited (secs : Z) : Z := match game with Some _ => secs | None => 0 end.

Lemma next_pending_ok remaining : pending_ok block_secs (next_pending ctx remaining).
Proof using Hblock.
  unfold next_pending. destruct (0 <? remaining); split; simpl; unfold played; simpl; try constructor; lia.
Qed.

Lemma next_pending_empty remaining :
  pp_entries (next_pending ctx remaining) = [] ∧ pp_sampled_interval_secs (next_pending ctx remaining) = 0.
Proof. unfold next_pending. by destruct (0 <? remaining). Qed.

Lemma grow_facts p chunk p' :
  pending_ok block_secs p → 0 <= chunk → pp_sampled_interval_secs p + chunk <= block_secs →
  grow p chunk = Some p' →
  Forall (λ e, 0 <= pe_play_seconds e ∧ 0 <= pe_game_coefficient_ppm e < 2 ^ 32) (pp_entries p') ∧
  pp_sampled_interval_secs p' = pp_sampled_interval_secs p + chunk ∧
  play_secs (pp_entries p') = play_secs (pp_entries p) + credited chunk.
Proof using Hblock Hgame.
  intros [He Hs Hp] Hc Hle. unfold grow_pending, credited.
  destruct (network_weight_units_for_duration _ _ _ _); simpl; [|done]. intros ?; simplify_eq; simpl.
  rewrite saturating_add_exact by lia. destruct game as [g|]; [|split_and!; [done..|lia]].
  split_and!; [|done|].
  - apply add_play_forall; auto; done.
  - rewrite add_play_played; [lia| |lia]. eapply Forall_impl; [exact He|]. simpl; tauto.
Qed.

(** What the loop keeps, for an interval of [total] seconds that met a pending block of
    [q0] seconds with [p0] seconds played. *)
Record tick_inv (total q0 p0 : Z) (st : TickState) : Prop := {
  ti_pending : pending_ok block_secs (ts_pending st);
  ti_remaining : 0 <= ts_remaining st;
  ti_index : ts_block_index st = ts_count st;
  ti_count : 0 <= ts_count st ∧ ts_count st + ts_remaining st <= total;
  ti_time : ts_count st * block_secs + pp_sampled_interval_secs (ts_pending st) + ts_remaining st
            = q0 + total;
  ti_play : lsum pb_play_seconds (ts_records st) + play_secs (pp_entries (ts_pending st))
            + credited (ts_remaining st) = p0 + credited total;
}.

Lemma chunk_bounds st :
  0 < ts_remaining st → 0 <= pp_sampled_interval_secs (ts_pending st) < block_secs →
  1 <= chunk_of block_secs st <= ts_remaining st ∧
  pp_sampled_interval_secs (ts_pending st) + chunk_of block_secs st <= block_secs.
Proof. unfold chunk_of, saturating_sub. lia. Qed.

Lemma block_records_play p i l :
  lsum pb_play_seconds (block_record store config ctx block_secs ids samples p i <$> sort_by_key entry_key l)
  = play_secs l.
Proof.
  rewrite lsum_fmap, sort_by_key_perm. unfold played, compose. apply lsum_ext. intros; simpl. lia.
Qed.

Lemma tick_step_inv total q0 p0 st st' :
  total < 2 ^ 32 → tick_inv total q0 p0 st → 0 < ts_remaining st → step st = Some st' →
  tick_inv total q0 p0 st' ∧ ts_remaining st' < ts_remaining st.
Proof using Hblock Hgame.
  intros Htot [Hp Hr Hi Hc Ht Hpl] Hpos. unfold tick_step.
  destruct (chunk_bounds st Hpos (po_secs _ _ Hp)) as [Hch Hfit].
  destruct (grow (ts_pending st) (chunk_of block_secs st)) as [p'|] eqn:Hg; [|done]. simpl.
  destruct (grow_facts (ts_pending st) (chunk_of block_secs st) p' Hp ltac:(lia) Hfit Hg) as (He' & Hs' & Hp').
  assert (saturating_sub (ts_remaining st) (chunk_of block_secs st)
          = ts_remaining st - chunk_of block_secs st) as -> by (unfold saturating_sub; lia).
  assert (credited (ts_remaining st - chunk_of block_secs st)
          = credited (ts_remaining st) - credited (chunk_of block_secs st)) as Hcr
    by (unfold credited; destruct game; lia).
  pose proof (po_play _ _ Hp). pose proof (po_secs _ _ Hp).
  destruct (Z.ltb_spec (pp_sampled_interval_secs p') block_secs) as [Hlt|Hge].
  - intros ?; simplify_eq; simpl. split; [|lia]. split; simpl; try lia.
    split; [done|lia|]. rewrite Hp', Hs'. unfold credited. destruct game; lia.
  - rewrite !add_exact by lia. simpl. intros ?; simplify_eq; simpl. split; [|lia].
    destruct (next_pending_empty (ts_remaining st - chunk_of block_secs st)) as [Hn1 Hn2].
    split; simpl; try lia; [apply next_pending_ok|].
    rewrite lsum_app, block_records_play, Hp', Hn1, Hcr. unfold played at 2. simpl. lia.
Qed.

(** The fuel suffices: the loop ends with nothing left of the interval. *)
Lemma tick_loop_inv fuel total q0 p0 st st' :
  total < 2 ^ 32 → tick_inv total q0 p0 st → (Z.to_nat (ts_remaining st) <= fuel)%nat →
  loop fuel st = Some st' → tick_inv total q0 p0 st' ∧ ts_remaining st' = 0.
Proof using Hblock Hgame.
  intros Htot. revert st. induction fuel as [|fuel IH]; intros st Hinv Hf; simpl.
  { intros ?; simplify_eq. split; [done|]. pose proof (ti_remaining _ _ _ _ Hinv). lia. }
  destruct (Z.ltb_spec 0 (ts_remaining st)) as [Hpos|Hz].
  - destruct (step st) as [st1|] eqn:Hs; [|done]. simpl.
    destruct (tick_step_inv _ _ _ _ _ Htot Hinv Hpos Hs) as [Hinv1 Hlt].
    intros Hl. apply (IH st1); [done| |done]. pose proof (ti_remaining _ _ _ _ Hinv1). lia.
  - intros ?; simplify_eq. split; [done|]. pose proof (ti_remaining _ _ _ _ Hinv). lia.
Qed.
End TickProofs.

(** ** Rewards *)

(** Shares of weights that sum to at most the total sum to at most the pool. *)
Lemma proportional_sum_le {A} (pool total : Z) (w : A → Z) l :
  0 <= pool → 0 <= total → (∀ x, x ∈ l → 0 <= w x) → lsum w l <= total →
  lsum (λ x, proportional_reward pool (w x) total) l <= pool.
Proof.
  intros Hp Ht Hw Hsum.
  assert (∀ x, x ∈ l → total * proportional_reward pool (w x) total <= pool * w x) as Heach.
  { intros x Hx. specialize (Hw x Hx). unfold proportional_reward.
    destruct ((pool =? 0) || _ || _) eqn:Hz; [nia|].
    rewrite !orb_false_iff, !Z.eqb_neq in Hz. pose proof (saturating_mul_le 128 pool (w x)).
    pose proof (Z.mul_div_le (saturating_mul 128 pool (w x)) total). lia. }
  apply lsum_le in Heach. rewrite !lsum_mul_l in Heach.
  destruct (Z.eq_dec total 0) as [->|Hnz]; [|nia].
  rewrite (lsum_ext _ (λ _, 0)); [|intros x _; unfold proportional_reward; by rewrite !orb_true_r].
  clear -Hp. induction l; simpl; lia.
Qed.

Lemma saturating_mul3_exact a d c :
  0 <= a → 0 <= d → 0 <= c → a * d * c < 2 ^ 128 →
  saturating_mul 128 (saturating_mul 128 a d) c = a * d * c.
Proof.
  intros Ha Hd Hc Hlt. destruct (Z.eq_dec c 0) as [->|Hn].
  - unfold saturating_mul. rewrite !Z.mul_0_r. reflexivity.
  - rewrite (saturating_mul_exact 128 a d) by nia. by apply saturating_mul_exact.
Qed.

Section TickRewards.
Context `{B : BuildMode} {DB : Type} `{PS : ProtocolStore DB}.
Context (store : option DB) (config : NodeConfig) (ctx : RewardTickContext) (block_secs : Z).
Context (game : option (string * AppId * Z)) (ids : gmap AppId string).
Context (samples : list ActivitySample) (F : Z).
Context (Hblock : 0 < block_secs < 2 ^ 64).

Notation coeff := (game_coefficient_ppm_for_app store config).
Notation grow := (grow_pending store config game samples).
Notation step := (tick_step store config ctx block_secs game ids samples).
Notation loop := (tick_loop store config ctx block_secs game ids samples).

(** The samples: machine integers whose weights over a block fit, with at least one
    observed player of the game that is credited. *)
Record samples_cover : Prop := {
  sc_players : Forall (λ s, 0 <= as_observed_players s) samples;
  sc_coeff : ∀ app, 0 <= coeff app < 2 ^ 32;
  sc_fit : lsum (λ s, as_observed_players s * block_secs * coeff (as_app_id s)) samples < 2 ^ 128;
  sc_cover : ∀ name app ppm, game = Some (name, app, ppm) →
    ppm = coeff app ∧ ∃ s, s ∈ samples ∧ as_app_id s = app ∧ 1 <= as_observed_players s;
}.
Context (Hcover : samples_cover).

Definition unit_weight : Z := lsum (λ s, as_observed_players s * coeff (as_app_id s)) samples.

Lemma game_ppm_range g : game = Some g → 0 <= g.2 < 2 ^ 32.
Proof using Hcover.
  destruct g as [[n a] p]. intros Hg. destruct (sc_cover Hcover n a p Hg) as [-> _].
  apply (sc_coeff Hcover).
Qed.

Lemma weight_exact d : 0 <= d <= block_secs →
  network_weight_units_for_duration store config samples d = Some (d * unit_weight).
Proof using Hblock Hcover.
  intros Hd. unfold network_weight_units_for_duration, unit_weight.
  pose proof (sc_players Hcover) as Hp. rewrite Forall_forall in Hp.
  assert (∀ s, s ∈ samples → 0 <= as_observed_players s * block_secs * coeff (as_app_id s)) as Hnn.
  { intros s Hs. specialize (Hp s Hs). pose proof (sc_coeff Hcover (as_app_id s)). nia. }
  assert (∀ s, s ∈ samples → saturating_mul 128 (saturating_mul 128 (as_observed_players s) d)
    (coeff (as_app_id s)) = d * (as_observed_players s * coeff (as_app_id s))) as Heq.
  { intros s Hs. specialize (Hp s Hs). pose proof (sc_coeff Hcover (as_app_id s)).
    pose proof (lsum_elem_le _ _ _ Hnn Hs) as Hle. cbn beta in Hle. pose proof (sc_fit Hcover).
    assert (as_observed_players s * d * coeff (as_app_id s)
            <= as_observed_players s * block_secs * coeff (as_app_id s)) by nia.
    rewrite saturating_mul3_exact by lia. lia. }
  assert (d * lsum (λ s, as_observed_players s * coeff (as_app_id s)) samples < 2 ^ 128) as Hlt.
  { eapply Z.le_lt_trans; [|exact (sc_fit Hcover)]. rewrite <- lsum_mul_l. apply lsum_le.
    intros s Hs. specialize (Hp s Hs). pose proof (sc_coeff Hcover (as_app_id s)). nia. }
  rewrite sum_exact; rewrite ?lsum_fmap; unfold compose, id.
  - f_equal. rewrite <- lsum_mul_l. by apply lsum_ext.
  - intros x (s & -> & Hs)%list_elem_of_fmap. rewrite Heq by done.
    specialize (Hp s Hs). pose proof (sc_coeff Hcover (as_app_id s)). nia.
  - rewrite <- lsum_mul_l in Hlt. by rewrite (lsum_ext _ _ _ Heq).
Qed.

(** The entries of a block never outweigh the network, and the block has a reward of at
    most [F]. *)
Record pending_paid (p : PendingPlayerRewardBlockState) : Prop := {
  pa_weight : play_weight (pp_entries p) <= pp_total_network_weight_units p;
  pa_reward : 0 <= pp_fixed_block_reward p <= F;
}.

Lemma play_weight_bound l :
  Forall (λ e, 0 <= pe_play_seconds e ∧ 0 <= pe_game_coefficient_ppm e < 2 ^ 32) l →
  0 <= play_weight l <= 2 ^ 32 * play_secs l.
Proof.
  unfold played. intros Hl. rewrite Forall_forall in Hl. rewrite <- lsum_mul_l. split.
  - apply lsum_nonneg. intros x Hx. destruct (Hl x Hx). nia.
  - apply lsum_le. intros x Hx. destruct (Hl x Hx). nia.
Qed.

Lemma unit_weight_covers g : game = Some g → g.2 <= unit_weight.
Proof using Hcover.
  destruct g as [[n a] p]. intros Hg.
  destruct (sc_cover Hcover n a p Hg) as (-> & s & Hs & <- & Hpl). simpl.
  pose proof (sc_players Hcover) as Hp. rewrite Forall_forall in Hp.
  pose proof (lsum_elem_le (λ s, as_observed_players s * coeff (as_app_id s)) samples s) as Hle.
  unfold unit_weight. pose proof (sc_coeff Hcover (as_app_id s)).
  transitivity (as_observed_players s * coeff (as_app_id s)); [nia|]. apply Hle; [|done].
  intros y Hy. specialize (Hp y Hy). pose proof (sc_coeff Hcover (as_app_id y)). nia.
Qed.

Lemma grow_paid p chunk :
  pending_ok block_secs p → pending_paid p → 0 <= chunk →
  pp_sampled_interval_secs p + chunk <= block_secs →
  ∃ p', grow p chunk = Some p' ∧ pending_paid p'.
Proof using Hblock Hcover.
  intros [He Hs Hp] [Hw Hr] Hc Hle. unfold grow_pending. rewrite weight_exact by lia. simpl.
  eexists. split; [reflexivity|]. split; simpl; [|done].
  pose proof (play_weight_bound _ He) as Hb. unfold saturating_add, umax.
  destruct game as [g|] eqn:Hg.
  - rewrite add_play_played; [| |lia].
    + pose proof (unit_weight_covers g Hg). pose proof (game_ppm_range g Hg).
      apply Z.min_glb; nia.
    + eapply Forall_impl; [exact He|]. simpl; tauto.
  - assert (0 <= chunk * unit_weight).
    { apply Z.mul_nonneg_nonneg; [lia|]. unfold unit_weight. apply lsum_nonneg. intros s Hs'.
      pose proof (sc_players Hcover) as Hpl. rewrite Forall_forall in Hpl. specialize (Hpl s Hs').
      pose proof (sc_coeff Hcover (as_app_id s)). nia. }
    apply Z.min_glb; nia.
Qed.
Context (HF : 0 <= tc_fixed_block_reward ctx <= F ∧ 0 <= tc_fixed_player_reward ctx <= F).

Lemma next_pending_paid remaining : pending_paid (next_pending ctx remaining).
Proof using HF.
  unfold next_pending, normalize_pending, or_if_zero, played. destruct (0 <? remaining); split;
    cbn; repeat case_match; unfold played; simpl; lia.
Qed.

Lemma block_records_reward p i :
  Forall (λ e, 0 <= pe_play_seconds e ∧ 0 <= pe_game_coefficient_ppm e < 2 ^ 32) (pp_entries p) →
  pending_paid p →
  lsum pb_player_reward (block_record store config ctx block_secs ids samples p i <$>
    sort_by_key entry_key (pp_entries p)) <= F.
Proof.
  intros He [Hw Hr]. rewrite lsum_fmap, sort_by_key_perm. unfold compose. simpl.
  pose proof (play_weight_bound _ He) as Hb. rewrite Forall_forall in He.
  transitivity (pp_fixed_block_reward p); [|lia]. apply proportional_sum_le; [lia|lia| |].
  - intros x Hx. destruct (He x Hx). unfold saturating_mul, umax. nia.
  - etransitivity; [|exact Hw]. apply lsum_le. intros; apply saturating_mul_le.
Qed.
Lemma block_records_nonneg p i :
  Forall (λ e, 0 <= pe_play_seconds e ∧ 0 <= pe_game_coefficient_ppm e < 2 ^ 32) (pp_entries p) →
  pending_paid p →
  Forall (λ r, 0 <= pb_player_reward r) (block_record store config ctx block_secs ids samples p i <$>
    sort_by_key entry_key (pp_entries p)).
Proof.
  intros He [Hw Hr]. pose proof (play_weight_bound _ He) as Hb. apply Forall_fmap.
  rewrite sort_by_key_perm. eapply Forall_impl; [exact He|]. intros e [Hp Hc]. simpl.
  unfold proportional_reward. destruct ((_ =? 0) || _ || _) eqn:Hz; [lia|].
  rewrite !orb_false_iff, !Z.eqb_neq in Hz. apply Z.div_pos; [|lia].
  unfold saturating_mul, umax. repeat apply Z.min_glb; try lia.
Qed.

(** What the records of completed blocks pay. *)
Definition records_paid (st : TickState) : Prop :=
  Forall (λ r, 0 <= pb_player_reward r) (ts_records st)
  ∧ lsum pb_player_reward (ts_records st) <= ts_count st * F.

(** A step always succeeds, and pays at most [F] per completed block. *)
Lemma tick_step_paid total q0 p0 st :
  total < 2 ^ 32 → tick_inv block_secs game total q0 p0 st → pending_paid (ts_pending st) →
  records_paid st → 0 < ts_remaining st →
  ∃ st', step st = Some st' ∧ pending_paid (ts_pending st') ∧ records_paid st'.
Proof using Hblock Hcover HF.
  intros Htot Hinv Hpaid [Hnn Hsum] Hpos. pose proof (ti_pending _ _ _ _ _ _ Hinv) as Hok.
  destruct (chunk_bounds block_secs st Hpos (po_secs _ _ Hok)) as [Hch Hfit].
  destruct (grow_paid (ts_pending st) (chunk_of block_secs st) Hok Hpaid ltac:(lia) Hfit)
    as (p' & Hg & Hp').
  destruct (grow_facts store config block_secs game samples Hblock game_ppm_range
    (ts_pending st) (chunk_of block_secs st) p' Hok ltac:(lia) Hfit Hg) as (He' & _ & _).
  unfold tick_step. rewrite Hg. simpl. destruct (_ <? block_secs).
  - eexists. split; [reflexivity|]. done.
  - destruct (ti_count _ _ _ _ _ _ Hinv). rewrite (ti_index _ _ _ _ _ _ Hinv).
    rewrite !add_exact by lia. simpl. eexists. split; [reflexivity|]. simpl.
    split; [apply next_pending_paid|]. split; simpl.
    + apply Forall_app. split; [done|]. by apply block_records_nonneg.
    + rewrite lsum_app. pose proof (block_records_reward p' (ts_count st) He' Hp'). lia.
Qed.

Lemma tick_loop_paid fuel total q0 p0 st :
  total < 2 ^ 32 → tick_inv block_secs game total q0 p0 st → pending_paid (ts_pending st) →
  records_paid st → ∃ st', loop fuel st = Some st' ∧ records_paid st'.
Proof using Hblock Hcover HF.
  intros Htot. revert st. induction fuel as [|fuel IH]; intros st Hinv Hpaid Hsum; simpl; [eauto|].
  destruct (Z.ltb_spec 0 (ts_remaining st)) as [Hpos|]; [|eauto].
  destruct (tick_step_paid _ _ _ _ Htot Hinv Hpaid Hsum Hpos) as (st1 & Hs & Hpaid1 & Hsum1).
  rewrite Hs. simpl. apply IH; try done.
  by destruct (tick_step_inv store config ctx block_secs game ids samples Hblock game_ppm_range
    _ _ _ _ _ Htot Hinv Hpos Hs).
Qed.
End TickRewards.

Section WholeTick.
Context `{B : BuildMode} {DB : Type} `{PS : ProtocolStore DB}.
Context (infer : string → option RewardGameMapping) (store : option DB) (config : NodeConfig).
Implicit Types (ctx : RewardTickContext) (pending : option PendingPlayerRewardBlockState).

Lemma select_coefficient fg names name app ppm :
  select_active_game_mapping infer store config fg names = Some (Some (name, app, ppm)) →
  ppm = game_coefficient_ppm_for_app store config app.
Proof.
  unfold select_active_game_mapping.
  assert (∀ m, Some <$> active_mapping_of store config m = Some (Some (name, app, ppm)) →
    ppm = game_coefficient_ppm_for_app store config app) as Hone.
  { intros m. unfold active_mapping_of. destruct (canonical_process_name _); simpl; naive_solver. }
  destruct (fg ≫= _) as [m|]; [apply Hone|].
  induction names as [|n names IH]; simpl; [done|].
  destruct (game_mapping_for infer config n); [apply Hone|done].
Qed.

Definition pending_of pending : PendingPlayerRewardBlockState :=
  default PendingPlayerRewardBlockState_default pending.

Lemma initial_pending_same ctx pending :
  pp_entries (initial_pending ctx pending) = pp_entries (pending_of pending) ∧
  pp_sampled_interval_secs (initial_pending ctx pending) = pp_sampled_interval_secs (pending_of pending).
Proof. unfold initial_pending, pending_of. destruct (_ || _); done. Qed.

Lemma initial_tick_inv block_secs game ctx pending total :
  pending_ok block_secs (pending_of pending) → 0 <= total →
  tick_inv block_secs game total (pp_sampled_interval_secs (pending_of pending))
    (play_secs (pp_entries (pending_of pending)))
    {| ts_pending := initial_pending ctx pending; ts_records := []; ts_count := 0;
       ts_remaining := total; ts_block_index := 0 |}.
Proof.
  intros [He Hs Hp] Ht. destruct (initial_pending_same ctx pending) as [E1 E2].
  split; simpl; rewrite ?E1, ?E2; try lia. split; rewrite ?E1, ?E2; done.
Qed.

(** The hypotheses on a tick: machine integers, less than 2^32 seconds since the last
    one, and a pending block that an earlier tick left. *)
Record tick_ok ctx pending : Prop := {
  to_interval : tc_sampled_interval_secs ctx < 2 ^ 32;
  to_block : effective_reward_block_secs store config < 2 ^ 64;
  to_coeff : ∀ app, 0 <= game_coefficient_ppm_for_app store config app < 2 ^ 32;
  to_pending : pending_ok (Z.max (effective_reward_block_secs store config) 1) (pending_of pending);
}.

Lemma normalized_play l :
  lsum pb_play_seconds (normalize_block_record <$> l) = lsum pb_play_seconds l.
Proof. rewrite lsum_fmap. by apply lsum_ext. Qed.

(** C17: A tick accounts for every second. With [q0] seconds pending and an interval of
    [interval] seconds, it completes [(q0 + interval) / block_secs] blocks and leaves the
    remainder pending; the seconds played that it records or keeps pending are those
    that were pending plus the whole interval if a game was active, and none otherwise. *)
Theorem tick_accounts_time sessions ctx pending fg names samples game r :
  tick_ok ctx pending →
  select_active_game_mapping infer store config fg names = Some game →
  record_player_reward_tick infer store config sessions ctx pending fg names samples = Some r →
  let block_secs := Z.max (effective_reward_block_secs store config) 1 in
  let interval := Z.max (tc_sampled_interval_secs ctx) 1 in
  let p := pending_of pending in
  let p' := pending_of (tk_pending_state r) in
  pt_completed_reward_block_count (tk_artifact r)
    = (pp_sampled_interval_secs p + interval) / block_secs ∧
  pp_sampled_interval_secs p' = (pp_sampled_interval_secs p + interval) mod block_secs ∧
  lsum pb_play_seconds (pt_records (tk_artifact r)) + play_secs (pp_entries p')
    = play_secs (pp_entries p) + match game with Some _ => interval | None => 0 end ∧
  pending_ok block_secs p'.
Proof.
  intros [Hint Hblk Hco Hok] Hsel Hrun. cbv zeta.
  set (block_secs := Z.max (effective_reward_block_secs store config) 1) in *.
  set (interval := Z.max (tc_sampled_interval_secs ctx) 1) in *.
  assert (0 < block_secs < 2 ^ 64) as Hb by lia.
  assert (∀ g, game = Some g → 0 <= g.2 < 2 ^ 32) as Hg.
  { intros [[n a] q] ->. apply select_coefficient in Hsel. subst q. apply Hco. }
  unfold record_player_reward_tick in Hrun. cbv zeta in Hrun.
  fold block_secs interval in Hrun. rewrite Hsel in Hrun. simpl in Hrun.
  destruct (tick_loop _ _ _ _ _ _ _ _ _) as [st|] eqn:Hl; [|done]. simpl in Hrun.
  destruct (sum_checked 128 _) as [tot|]; [|done]. simpl in Hrun. simplify_eq. simpl.
  pose proof (initial_tick_inv block_secs game ctx pending interval Hok ltac:(lia)) as Hinv.
  destruct (tick_loop_inv store config ctx block_secs game _ samples Hb Hg (Z.to_nat interval)
    interval _ _ _ st ltac:(lia) Hinv ltac:(simpl; lia) Hl) as [[Hpo _ _ [Hc _] Ht Hp] Hz].
  pose proof (po_secs _ _ Hpo) as Hs. rewrite Hz in Ht, Hp. rewrite normalized_play.
  assert (ts_count st = (pp_sampled_interval_secs (pending_of pending) + interval) / block_secs ∧
    pp_sampled_interval_secs (ts_pending st)
      = (pp_sampled_interval_secs (pending_of pending) + interval) mod block_secs) as [Hq Hm].
  { split.
    - apply (Z.div_unique_pos _ _ _ (pp_sampled_interval_secs (ts_pending st))); lia.
    - apply (Z.mod_unique_pos _ _ (ts_count st)); lia. }
  unfold credited in Hp. destruct (Z.ltb_spec 0 (pp_sampled_interval_secs (ts_pending st))) as [|Hz'].
  - split_and!; [done..| |done]. simpl. destruct game; lia.
  - assert (play_secs (pp_entries (ts_pending st)) = 0) as Hp0.
    { pose proof (po_play _ _ Hpo). pose proof (play_weight_bound _ (po_entries _ _ Hpo)). lia. }
    change (pending_of None) with PendingPlayerRewardBlockState_default. split_and!; [done|simpl; lia| |].
    + unfold played at 1. simpl. destruct game; lia.
    + split; simpl; [constructor|lia|]. unfold played. simpl. lia.
Qed.

(** A tick pays at most the block reward per completed block, and does not panic:
    when every game that is credited has at least one observed player in the samples
    and the amounts fit their widths, the tick succeeds and the player rewards it
    records sum to at most [F] for each completed block, [F] bounding the block rewards
    of the context and of the pending block. *)
Theorem tick_rewards_bounded sessions ctx pending fg names samples game F :
  tick_ok ctx pending →
  select_active_game_mapping infer store config fg names = Some game →
  samples_cover store config (Z.max (effective_reward_block_secs store config) 1) game samples →
  0 <= tc_fixed_block_reward ctx <= F → 0 <= tc_fixed_player_reward ctx <= F →
  pending_paid F (initial_pending ctx pending) →
  Z.max (tc_sampled_interval_secs ctx) 1 * F < 2 ^ 128 →
  ∃ r, record_player_reward_tick infer store config sessions ctx pending fg names samples = Some r ∧
       0 <= pt_total_player_reward (tk_artifact r)
         <= pt_completed_reward_block_count (tk_artifact r) * F.
Proof.
  intros [Hint Hblk Hco Hok] Hsel Hcov HF1 HF2 Hpaid Hfit.
  set (block_secs := Z.max (effective_reward_block_secs store config) 1) in *.
  set (interval := Z.max (tc_sampled_interval_secs ctx) 1) in *.
  assert (0 < block_secs < 2 ^ 64) as Hb by lia.
  unfold record_player_reward_tick. cbv zeta. fold block_secs interval. rewrite Hsel. simpl.
  set (ids := if str_is_empty (tc_session_id ctx) then sessions else ∅).
  pose proof (initial_tick_inv block_secs game ctx pending interval Hok ltac:(lia)) as Hinv.
  destruct (tick_loop_paid store config ctx block_secs game ids samples F Hb Hcov
    (conj HF1 HF2) (Z.to_nat interval) interval _ _ _ ltac:(lia) Hinv Hpaid) as (st & Hl & Hnn & Hsum).
  { split; simpl; [constructor|lia]. }
  rewrite Hl. simpl.
  destruct (tick_loop_inv store config ctx block_secs game ids samples Hb
    (game_ppm_range store config block_secs game samples Hcov) (Z.to_nat interval)
    interval _ _ _ st ltac:(lia) Hinv ltac:(simpl; lia) Hl) as [[_ _ _ [Hc Hci] _ _] Hz].
  assert (0 <= lsum pb_player_reward (ts_records st)).
  { apply lsum_nonneg. intros x Hx. rewrite Forall_forall in Hnn. auto. }
  assert (lsum id (pb_player_reward <$> ts_records st) = lsum pb_player_reward (ts_records st)) as He
    by (rewrite lsum_fmap; done).
  rewrite sum_exact; rewrite ?He.
  - eexists. split; [reflexivity|]. simpl. lia.
  - intros x (y & -> & Hy)%list_elem_of_fmap. rewrite Forall_forall in Hnn. auto.
  - nia.
Qed.
End WholeTick.

(** ** A tick of 5000 seconds, with 600 seconds pending *)

Definition demo_sample (app : AppId) (players : Z) : ActivitySample := {|
  as_app_id := app; as_observed_players := players; as_observed_at_millis := 0;
  as_source_kind := Steam; as_source_confidence_ppm := 1000000; raw_body := "" |}.

Definition demo_tick_context (interval : Z) : RewardTickContext := {|
  tc_epoch_id := 1; tc_slot_id := 3; tc_session_id := ""; tc_sampled_interval_secs := interval;
  tc_fixed_block_reward := 1000; tc_fixed_player_reward := 1000;
  tc_reward_adjustment_period_index := 0; tc_adjustment_cycle_index := 0;
  tc_fixed_block_reward_basis_period_index := 0; tc_fixed_player_reward_basis_cycle_index := 0;
  tc_fixed_block_reward_basis_network_weight_units := 0;
  tc_fixed_player_reward_basis_total_network_weight_units := 0 |}.

Definition demo_pending : PendingPlayerRewardBlockState := {|
  pp_sampled_interval_secs := 600; pp_total_network_weight_units := 1800000000;
  pp_total_adjustment_cycle_network_weight_units := 1800000000; pp_fixed_block_reward := 900;
  pp_fixed_player_reward := 900; pp_reward_adjustment_period_index := 0;
  pp_adjustment_cycle_index := 0;
  pp_entries := [{| pe_process_name := "Game.exe"; pe_app_id := 730;
                    pe_game_coefficient_ppm := 1000000; pe_play_seconds := 300 |}] |}.

Definition demo_tick : option PlayerRewardTickComputation :=
  record_player_reward_tick (B:=true) (DB:=InMemoryStore) (λ _, None) None (demo_config [demo_game])
    ∅ (demo_tick_context 5000) (Some demo_pending) (Some "game"%string) ["game"%string]
    [demo_sample 730 3].

Lemma demo_coefficient app :
  0 <= game_coefficient_ppm_for_app (S:=InMemoryStore) None (demo_config [demo_game]) app < 2 ^ 32.
Proof.
  unfold game_coefficient_ppm_for_app. cbn [activated_protocol_game_coefficient_ppm_for_app
    latest_activated_protocol_params mbind option_bind].
  change (game_mappings (nc_reward (demo_config [demo_game]))) with [demo_game].
  rewrite filter_cons. case_decide; vm_compute; split; done.
Qed.

Lemma demo_tick_ok :
  tick_ok (DB:=InMemoryStore) None (demo_config [demo_game]) (demo_tick_context 5000) (Some demo_pending).
Proof.
  split; [done|done|apply demo_coefficient|]. split; [|vm_compute; split; done|vm_compute; done].
  repeat constructor; vm_compute; done.
Qed.

Lemma tick_accounts_time_witness :
  ∃ r, demo_tick = Some r ∧ pt_completed_reward_block_count (tk_artifact r) = 1 ∧
    lsum pb_play_seconds (pt_records (tk_artifact r))
      + played (λ _, 1) (pp_entries (pending_of (tk_pending_state r))) = 5300.
Proof.
  destruct demo_tick as [r|] eqn:Hr; [|vm_compute in Hr; discriminate].
  destruct (tick_accounts_time (B:=true) (DB:=InMemoryStore) (λ _, None) None (demo_config [demo_game])
    ∅ (demo_tick_context 5000) (Some demo_pending) (Some "game"%string) ["game"%string]
    [demo_sample 730 3] (Some ("Game.exe"%string, 730, 1000000)) r) as (Hc & _ & Hp & _).
  - exact demo_tick_ok.
  - vm_compute; reflexivity.
  - exact Hr.
  - exists r. split; [reflexivity|]. split; [rewrite Hc; vm_compute; reflexivity|].
    rewrite Hp. vm_compute; reflexivity.
Defined.

Lemma demo_samples_cover :
  samples_cover (DB:=InMemoryStore) None (demo_config [demo_game]) 3600
    (Some ("Game.exe"%string, 730, 1000000)) [demo_sample 730 3].
Proof.
  split.
  - repeat constructor; vm_compute; done.
  - apply demo_coefficient.
  - vm_compute. done.
  - intros n a p [= <- <- <-]. split; [vm_compute; reflexivity|].
    exists (demo_sample 730 3). split_and!; [set_solver|done|done].
Qed.

Lemma tick_rewards_bounded_witness :
  ∃ r, demo_tick = Some r ∧ 0 <= pt_total_player_reward (tk_artifact r)
         <= pt_completed_reward_block_count (tk_artifact r) * 1000.
Proof.
  apply (tick_rewards_bounded (B:=true) (DB:=InMemoryStore) (λ _, None) None (demo_config [demo_game])
    ∅ (demo_tick_context 5000) (Some demo_pending) (Some "game"%string) ["game"%string]
    [demo_sample 730 3] (Some ("Game.exe"%string, 730, 1000000)) 1000).
  - exact demo_tick_ok.
  - vm_compute; reflexivity.
  - exact demo_samples_cover.
  - simpl; lia.
  - simpl; lia.
  - split; vm_compute; [done|split; done].
  - vm_compute; done.
Defined.

(** Without the coverage hypothesis the bound fails: the network weight counts only the
    apps that were sampled, so when the game being played was not sampled and another
    app with a small coefficient was, one player is paid a thousand block rewards. *)
Example uncovered_tick_pays_more_than_block_reward :
  (λ r, (pt_completed_reward_block_count (tk_artifact r), pt_total_player_reward (tk_artifact r))) <$>
    record_player_reward_tick (B:=true) (DB:=InMemoryStore) (λ _, None) None
      (demo_config [demo_game; {| process_name := "idle.exe"; gm_app_id := 570;
                                  game_coefficient_ppm := 1000 |}])
      ∅ (demo_tick_context 3600) None (Some "game"%string) ["game"%string] [demo_sample 570 1]
  = Some (1, 1000 * 1000).
Proof. vm_compute. reflexivity. Qed.

(** Normalizing the duplicated field names twice changes nothing more. *)
Lemma normalize_pending_idempotent s : normalize_pending (normalize_pending s) = normalize_pending s.
Proof.
  unfold normalize_pending, or_if_zero. simpl. repeat case_match; congruence.
Qed.
