(* ===== verification/CosmosAddress.v ===== *)
(** * Account addresses: src/src/cosmos/address.rs

    Conversions between the 32-byte addresses of the node and the bech32 account
    addresses of the Cosmos chain. The bech32 and hex crates are the class [Bech32];
    [Bech32Laws] states that their decoders undo their encoders (BIP 173: the human
    readable part, the separator '1', the data). *)
From S2P Require Import Prelude Primitives Params Records Crypto Text NodeConfig.
From Stdlib Require Import Ascii.
Local Open Scope pole_scope.
Local Open Scope string_scope.
Local Open Scope Z_scope.

Inductive CosmosError :=
| InvalidHex (e : string)
| InvalidBech32 (e : string)
| Bech32PrefixMismatch (expected actual : string)
| InvalidPubKeyLength (n : Z)
| InvalidSignatureLength (n : Z)
| CosmosHttp (e : string)
| CosmosRpc (code : Z) (message : string)
| CosmosRest (status : Z) (body : string)
| CosmosDecode (e : string)
| CosmosEncode (e : string)
| BroadcastExhausted (attempts : Z) (last : string)
| MissingField (name : string)
| Unimplemented (name : string).

Class Bech32 := {
  (** [bech32::encode(prefix, data, Variant::Bech32)] *)
  bech32_encode : string → list Z → outcome string string;
  (** [bech32::decode], without the variant *)
  bech32_decode : string → outcome string (string * list Z);
  to_base32 : bytes → list Z;
  from_base32 : list Z → outcome string bytes;
  (** [hex::decode] and [hex::encode] *)
  hex_decode : string → outcome string bytes;
  hex_encode_str : bytes → string;
}.

Class Bech32Laws `{Bech32} : Prop := {
  bech32_decode_encode : ∀ prefix data s,
    bech32_encode prefix data = Ok s → bech32_decode s = Ok (prefix, data);
  bech32_encode_shape : ∀ prefix data s,
    bech32_encode prefix data = Ok s → ∃ t, s = prefix +:+ "1" +:+ t;
  from_to_base32 : ∀ b, Forall is_byte b → from_base32 (to_base32 b) = Ok b;
  hex_encode_decode : ∀ s b, hex_decode s = Ok b →
    Forall is_byte b ∧ hex_encode_str b = to_ascii_lowercase s;
}.

Definition DEFAULT_BECH32_PREFIX : string := "cosmos".
Definition POLE_BECH32_PREFIX : string := "pole".
Definition ACCOUNT_ADDRESS_LEN : nat := 20.

(** [s.split(c).next()]: the text before the first separator, all of it if none. *)
Fixpoint before_char (c : Ascii.ascii) (s : string) : string :=
  match s with
  | EmptyString => EmptyString
  | String a s => if bool_decide (a = c) then EmptyString else String a (before_char c s)
  end.

(** [trim_start_matches("0x")]; every repetition goes. *)
Fixpoint trim_start_0x (s : string) : string :=
  match s with
  | String a (String b s') =>
      if bool_decide (a = "0"%char) && bool_decide (b = "x"%char) then trim_start_0x s' else s
  | _ => s
  end.

Record CosmosAddress := {
  ca_account : bytes;
  ca_bech32 : string;
}.

Section Addresses.
Context `{BC : Bech32}.

Definition encode_bech32 (prefix : string) (b : bytes) : outcome CosmosError string :=
  map_err InvalidBech32 (bech32_encode prefix (to_base32 b)).

Definition decode_bech32 (expected_prefix addr : string) : outcome CosmosError bytes :=
  do? decoded <- map_err InvalidBech32 (bech32_decode addr);
  let '(prefix, data) := decoded in
  if bool_decide (prefix ≠ expected_prefix) then Err (Bech32PrefixMismatch expected_prefix prefix)
  else map_err InvalidBech32 (from_base32 data).

Definition or_else {E A} (r : outcome E A) (k : outcome E A) : outcome E A :=
  match r with Err _ => k | _ => r end.

Definition decode_any (addr : string) : outcome CosmosError bytes :=
  or_else (decode_bech32 DEFAULT_BECH32_PREFIX addr) (decode_bech32 (before_char "1" addr) addr).

Definition hex_to_bech32 (prefix hex : string) : outcome CosmosError string :=
  do? b <- map_err InvalidHex (hex_decode (trim_start_0x hex));
  encode_bech32 prefix b.

Definition bech32_to_hex (addr : string) : outcome CosmosError string :=
  do? b <- decode_any addr; Ok (hex_encode_str b).

Definition address_to_bech32 (prefix : string) (address : Address) : outcome CosmosError string :=
  encode_bech32 prefix (take ACCOUNT_ADDRESS_LEN address).

Definition node_id_to_bech32 (prefix : string) (n : NodeId) : outcome CosmosError string :=
  encode_bech32 prefix (take ACCOUNT_ADDRESS_LEN n).

Definition bech32_to_address (addr : string) : outcome CosmosError Address :=
  do? b <- decode_any addr;
  if (32 <? length b)%nat
  then Err (InvalidBech32 ("decoded length " +:+ display (Z.of_nat (length b)) +:+ " exceeds 32"))
  else Ok (replicate (32 - length b) 0 ++ b)%list.

Definition address_prefix (a : CosmosAddress) : string := before_char "1" (ca_bech32 a).

Definition CosmosAddress_try_from (s : string) : outcome CosmosError CosmosAddress :=
  do? account <- decode_bech32 (before_char "1" s) s;
  Ok {| ca_account := account; ca_bech32 := s |}.

(** [RewardRecord::chain_recipient] of src/src/records.rs *)
Definition chain_recipient (r : RewardRecord) : outcome CosmosError string :=
  if negb (str_is_empty (recipient_address r)) then Ok (recipient_address r)
  else node_id_to_bech32 DEFAULT_BECH32_PREFIX (rw_node_id r).
End Addresses.

(** * Properties *)

Lemma before_char_append c p t :
  before_char c p = p → before_char c (p +:+ String c t) = p.
Proof.
  induction p as [|a p IH]; simpl; intros Hp; [by rewrite bool_decide_true|].
  case_bool_decide; [done|]. injection Hp as Hp. f_equal. by apply IH.
Qed.

Section AddressProofs.
Context `{BC : Bech32} `{BL : !Bech32Laws}.

Lemma decode_encode_bech32 prefix b s :
  Forall is_byte b → encode_bech32 prefix b = Ok s → decode_bech32 prefix s = Ok b.
Proof using BL.
  unfold encode_bech32, decode_bech32. intros Hb He.
  destruct (bech32_encode prefix (to_base32 b)) as [s'|?|] eqn:E; simpl in He; simplify_eq.
  rewrite (bech32_decode_encode _ _ _ E). simpl. rewrite bool_decide_false by naive_solver.
  by rewrite from_to_base32.
Qed.

(** The fallback on the embedded prefix decodes whatever was encoded. *)
Lemma decode_any_encode prefix b s :
  before_char "1" prefix = prefix → Forall is_byte b → encode_bech32 prefix b = Ok s →
  decode_any s = Ok b ∧ before_char "1" s = prefix.
Proof using BL.
  intros Hp Hb He. pose proof (decode_encode_bech32 _ _ _ Hb He) as Hd.
  assert (before_char "1" s = prefix) as Hs.
  { unfold encode_bech32 in He. destruct (bech32_encode _ _) as [s'|?|] eqn:E; simpl in He; simplify_eq.
    destruct (bech32_encode_shape _ _ _ E) as [t ->]. by apply before_char_append. }
  split; [|done]. unfold decode_any. rewrite Hs.
  destruct (decide (prefix = DEFAULT_BECH32_PREFIX)) as [->|Hne]; [by rewrite Hd|].
  unfold decode_bech32 at 1. unfold encode_bech32 in He.
  destruct (bech32_encode _ _) as [s'|?|] eqn:E; simpl in He; simplify_eq.
  rewrite (bech32_decode_encode _ _ _ E). simpl. by rewrite bool_decide_true.
Qed.

(** Hex to bech32 and back is the identity on lower-case hex, for every prefix
    without a separator. *)
Theorem hex_bech32_roundtrip prefix hex s :
  before_char "1" prefix = prefix → hex_to_bech32 prefix hex = Ok s →
  bech32_to_hex s = Ok (to_ascii_lowercase (trim_start_0x hex)).
Proof using BL.
  intros Hp. unfold hex_to_bech32, bech32_to_hex.
  destruct (hex_decode (trim_start_0x hex)) as [b|?|] eqn:Hh; simpl; try done. intros He.
  destruct (hex_encode_decode _ _ Hh) as [Hb Hx].
  destruct (decode_any_encode _ _ _ Hp Hb He) as [-> _]. simpl. by rewrite Hx.
Qed.

(** A 32-byte address does not survive the round trip through bech32: the encoder
    takes its first 20 bytes and the decoder puts them last, after twelve zeros. *)
Theorem bech32_address_shifts prefix address s :
  before_char "1" prefix = prefix → length address = 32%nat → Forall is_byte address →
  address_to_bech32 prefix address = Ok s →
  bech32_to_address s = Ok (replicate 12 0 ++ take 20 address)%list.
Proof using BL.
  intros Hp Hl Hb He. unfold address_to_bech32, ACCOUNT_ADDRESS_LEN in He. unfold bech32_to_address.
  destruct (decode_any_encode _ _ _ Hp (Forall_take _ 20 _ Hb) He) as [-> _]. simpl.
  rewrite length_take, Hl. done.
Qed.
End AddressProofs.

(** ** A toy codec: two letters per byte, no checksum *)

Definition toy_letters (data : list Z) : string := string_of_bytes ((λ n, n + 97) <$> data).

Fixpoint toy_join (data : list Z) : bytes :=
  match data with
  | hi :: lo :: data => 16 * hi + lo :: toy_join data
  | _ => []
  end.

Definition toy_bech32 : Bech32 := {|
  bech32_encode prefix data :=
    if bool_decide (before_char "1" prefix = prefix) && forallb (λ n, (0 <=? n) && (n <? 16)) data
    then Ok (prefix +:+ "1" +:+ toy_letters data) else Err "invalid";
  bech32_decode s :=
    let prefix := before_char "1" s in
    Ok (prefix, (λ x, x - 97) <$> drop (S (String.length prefix)) (string_bytes s));
  to_base32 b := b ≫= λ x, [x / 16; x mod 16];
  from_base32 data := Ok (toy_join data);
  hex_decode s := if Nat.even (String.length s)
    then map_err (λ _, "invalid") (decode_pairs "" 0 (string_bytes s)) else Err "odd length";
  hex_encode_str := hex_32;
|}.

#[local] Ltac Zify.zify_post_hook ::= Z.div_mod_to_equations.

Lemma toy_encode_ok prefix data s :
  bech32_encode (Bech32:=toy_bech32) prefix data = Ok s →
  before_char "1" prefix = prefix ∧ Forall (λ n, 0 <= n < 16) data ∧
  s = prefix +:+ String "1" (toy_letters data).
Proof.
  simpl. case_bool_decide as Hp; simpl; [|done].
  destruct (forallb _ data) eqn:Hd; [|done]. intros [= <-]. split_and!; [done| |done].
  rewrite Forall_forall. rewrite forallb_forall in Hd. intros n Hn%list_elem_of_In.
  specialize (Hd n Hn). lia.
Qed.

#[export] Instance toy_bech32_laws : Bech32Laws (H:=toy_bech32).
Proof.
  split.
  - intros prefix data s (Hp & Hd & ->)%toy_encode_ok. cbn [bech32_decode toy_bech32].
    rewrite before_char_append by done. f_equal. f_equal.
    rewrite string_bytes_app, <- string_bytes_length, string_bytes_cons.
    replace (S (length (string_bytes prefix))) with (length (string_bytes prefix) + 1)%nat by lia.
    rewrite <- drop_drop, drop_app_length. cbn [drop]. unfold toy_letters.
    rewrite string_bytes_of_bytes.
    + rewrite drop_0. clear. induction data as [|n data IH]; [done|]. rewrite !fmap_cons, IH. f_equal. lia.
    + apply Forall_fmap. eapply Forall_impl; [exact Hd|]. intros n Hn. unfold compose, is_byte. cbv beta in *. lia.
  - intros prefix data s (Hp & Hd & ->)%toy_encode_ok. by exists (toy_letters data).
  - intros b Hb. cbn [from_base32 to_base32 toy_bech32]. f_equal.
    induction Hb as [|x b Hx _ IH]; [done|]. rewrite bind_cons. simpl. rewrite IH. f_equal. lia.
  - intros s b. cbn [hex_decode hex_encode_str toy_bech32].
    destruct (Nat.even (String.length s)) eqn:Hev; [|done].
    destruct (decode_pairs _ _ _) as [b'|?|] eqn:Hd; simpl; try done. intros [= <-].
    apply decode_pairs_ok in Hd as [Hb Hd]; [|rewrite string_bytes_length; by apply Nat.even_spec].
    split; [done|]. apply string_bytes_inj. rewrite string_bytes_lower, Hd. by apply hex_32_bytes.
Qed.

Lemma hex_bech32_roundtrip_witness :
  hex_to_bech32 (BC:=toy_bech32) "pole" "0xA1ff" = Ok "pole1kbpp" ∧
  bech32_to_hex (BC:=toy_bech32) "pole1kbpp" = Ok "a1ff".
Proof.
  split; [vm_compute; reflexivity|].
  exact (hex_bech32_roundtrip (BC:=toy_bech32) "pole" "0xA1ff" "pole1kbpp" eq_refl eq_refl).
Defined.

Lemma bech32_address_shifts_witness :
  ∃ s, address_to_bech32 (BC:=toy_bech32) "cosmos" (replicate 20 7 ++ replicate 12 0)%list = Ok s ∧
    bech32_to_address (BC:=toy_bech32) s = Ok (replicate 12 0 ++ replicate 20 7)%list.
Proof.
  eexists. split; [vm_compute; reflexivity|].
  refine (bech32_address_shifts (BC:=toy_bech32) "cosmos" (replicate 20 7 ++ replicate 12 0)%list _
    eq_refl eq_refl _ _); [|vm_compute; reflexivity].
  repeat constructor; vm_compute; done.
Defined.
