(* ===== verification/Verifier.v ===== *)
(** * The local verifier: src/src/node_verifier.rs, and the credentials of
    src/src/node_daemon.rs

    [verify_local_epoch] re-reads the batch artifacts and payloads of an epoch and checks
    hashes, roots, counts, retention and signatures; [build_verification_credentials]
    signs an attestation for every batch of another node. The directory listing is the
    list of parsed artifacts, in path order; payload files are a function of the
    content id; Borsh and JSON are the class [VerifierEncoding]. *)
From S2P Require Import Prelude Primitives Params Records Crypto Tokenomics Rewards StorageBook Pipeline MutualProof Text NodeConfig CosmosAddress.
Local Open Scope pole_scope.

Record CollectTickArtifact := {
  ct_epoch_id : EpochId;
  ct_slot_id : SlotId;
  ct_payload_cid : ContentId;
  ct_payload_hash_hex : string;
  ct_batch_root_hex : string;
  ct_obs_count : Z;
  ct_collector_address : string;
  ct_player_reward_block_count : Z;
  ct_player_reward_total : Amount;
  ct_reward_process_name : option string;
  ct_stored_payload_cid : option string;
  ct_retention_until_epoch : option EpochId;
}.

Record BatchVerificationReport := {
  br_epoch_id : EpochId;
  br_slot_id : SlotId;
  br_payload_cid : ContentId;
  payload_hash_matches : bool;
  batch_root_matches : bool;
  obs_count_matches : bool;
  retention_record_present : bool;
  retention_hash_matches : bool;
  signature_status : string;
  signatures_present : Z;
  signatures_verified : Z;
  own_batch : bool;
  signatures_audit_valid : bool;
  collector_id_hex : string;
}.

Record EpochVerificationReport := {
  vr_epoch_id : EpochId;
  vr_batch_count : Z;
  vr_stored_payload_count : Z;
  all_valid : bool;
  reports : list BatchVerificationReport;
}.

Inductive NodeVerificationError :=
| VerUpstream (e : string)
| VerStorage (e : StorageBookError)
| VerIo (e : string)
| VerJson (e : string)
| VerBorsh (e : string)
| VerInvalidHexLength (expected actual : Z)
| VerInvalidHexCharacter (index byte : Z).

Record VerificationCredential := {
  vc_epoch_id : EpochId;
  target_batch_root_hex : string;
  target_collector_hex : string;
  verifier_id_hex : string;
  verifier_address : string;
  target_collector_address : string;
  is_player : bool;
  verified : bool;
  verified_at_millis : UnixMillis;
  signature_hex : string;
}.

Class VerifierEncoding := {
  (** [borsh::from_slice::<Vec<ObservationRecord>>] *)
  borsh_decode_observations : bytes → outcome string (list ObservationRecord);
  (** [serde_json::to_vec], which the caller [expect]s *)
  json_credential : VerificationCredential → option bytes;
}.

(** [decode_hex_32] of node_verifier.rs is the one of node_config.rs with errors that do
    not name the field. *)
Definition hex_error (e : NodeConfigError) : NodeVerificationError :=
  match e with
  | InvalidHexLength _ expected actual => VerInvalidHexLength expected actual
  | InvalidHexCharacter _ index byte => VerInvalidHexCharacter index byte
  | ConfigIo e | ConfigJson e | ConfigWallet e | InvalidValue e _ => VerUpstream e
  end.
Definition verifier_decode_hex_32 (input : string) : outcome NodeVerificationError Hash32 :=
  map_err hex_error (decode_hex_32 input "").

Arguments verifier_decode_hex_32 : simpl never.
#[local] Arguments stable_hash32 : simpl never.
#[local] Arguments hex_32 : simpl never.

#[export] Instance SignatureStatus_eq_dec : EqDecision SignatureStatus.
Proof. solve_decision. Defined.

(** The counters of the signature audit, which count elements of a vector. *)
Record SignatureTally := {
  ta_statuses : list string;
  ta_present : Z;
  ta_verified : Z;
  ta_audit_ok : bool;
}.

Definition tally (own : bool) (t : SignatureTally) (status : SignatureStatus) : SignatureTally :=
  let ok := ta_audit_ok t && negb (own && negb (bool_decide (status = SigValid))) in
  let push s n v := {| ta_statuses := ta_statuses t ++ [s]; ta_present := ta_present t + n;
                       ta_verified := ta_verified t + v; ta_audit_ok := ok |} in
  match status with
  | SigEmpty => {| ta_statuses := ta_statuses t; ta_present := ta_present t;
                   ta_verified := ta_verified t; ta_audit_ok := ok |}
  | SigDevPlaceholder => push "dev"%string 1 0
  | SigValid => push "ed25519"%string 1 1
  | SigInvalid => push "invalid"%string 0 0
  | SigUnverifiable => push "unverifiable"%string 1 0
  end.

Section Verifier.
Context `{X : External} `{PE : PipelineEncoding} `{VE : VerifierEncoding}.
Context (debug_assertions : bool) (config : NodeConfig).
(** [config.identity_keypair().ok()]: its public key. *)
Context (identity_public : option bytes).
(** [fs::read(payload_path(cid))] *)
Context (read_payload : string → outcome string bytes).

(** [config.node_id().ok()] *)
Definition own_node_id : option NodeId := match node_id config with Ok n => Some n | _ => None end.

Definition verify_batch (book : LocalRetentionBook) (a : CollectTickArtifact)
    : outcome NodeVerificationError BatchVerificationReport :=
  do? payload <- map_err VerIo (read_payload (ct_payload_cid a));
  do? observations <- map_err VerBorsh (borsh_decode_observations payload);
  let hash := stable_hash32 payload in
  do? expected_payload_hash <- verifier_decode_hex_32 (ct_payload_hash_hex a);
  do? observation_hashes <- or_panic (mapM observation_leaf observations);
  let batch_root := merkle_root observation_hashes in
  do? expected_batch_root <- verifier_decode_hex_32 (ct_batch_root_hex a);
  let retention_record := payloads book !! ct_payload_cid a in
  let collector := obs_collector_id <$> head observations in
  let is_own_batch := match collector with
    | Some c => bool_decide (own_node_id = Some c)
    | None => false
    end in
  let local_pubkey := if is_own_batch then identity_public else None in
  do? statuses <- or_panic (mapM (λ o, verify_collector_signature debug_assertions o local_pubkey)
                                 observations);
  let t := foldl (tally is_own_batch)
    {| ta_statuses := []; ta_present := 0; ta_verified := 0; ta_audit_ok := true |} statuses in
  let signature_statuses := dedup (sort_by leb (ta_statuses t)) in
  Ok {| br_epoch_id := ct_epoch_id a; br_slot_id := ct_slot_id a;
        br_payload_cid := ct_payload_cid a;
        payload_hash_matches := bool_decide (hash = expected_payload_hash);
        batch_root_matches := bool_decide (batch_root = expected_batch_root);
        obs_count_matches := Z.of_nat (length observations) mod 2 ^ 32 =? ct_obs_count a;
        retention_record_present := match retention_record with Some _ => true | None => false end;
        retention_hash_matches := match retention_record with
          | Some record => bool_decide (payload_hash record = hash)
          | None => false
          end;
        signature_status := match signature_statuses with
          | [] => "empty"
          | _ => String.concat "+" signature_statuses
          end;
        signatures_present := ta_present t; signatures_verified := ta_verified t;
        own_batch := is_own_batch; signatures_audit_valid := ta_audit_ok t;
        collector_id_hex := match collector with Some c => hex_32 c | None => "" end |}.

(** The loop over the files of the batch directory: a file that does not parse ends it. *)
Fixpoint verify_batches (book : LocalRetentionBook) (epoch_id : EpochId)
    (files : list (outcome string CollectTickArtifact))
    : outcome NodeVerificationError (list BatchVerificationReport) :=
  match files with
  | [] => Ok []
  | file :: files =>
      do? a <- map_err VerUpstream file;
      if negb (ct_epoch_id a =? epoch_id) then verify_batches book epoch_id files else
      do? r <- verify_batch book a;
      do? rs <- verify_batches book epoch_id files;
      Ok (r :: rs)
  end.

Definition report_valid (r : BatchVerificationReport) : bool :=
  payload_hash_matches r && batch_root_matches r && obs_count_matches r
  && retention_record_present r && retention_hash_matches r && signatures_audit_valid r.

(** [files] is empty when the directory does not exist. *)
Definition verify_local_epoch (book : outcome StorageBookError LocalRetentionBook)
    (files : list (outcome string CollectTickArtifact)) (epoch_id : EpochId)
    : outcome NodeVerificationError EpochVerificationReport :=
  do? book <- map_err VerStorage book;
  do? rs <- verify_batches book epoch_id files;
  Ok {| vr_epoch_id := epoch_id; vr_batch_count := Z.of_nat (length rs);
        vr_stored_payload_count := Z.of_nat (length
          (filter (λ r, sp_epoch_id r = epoch_id) (bt_values (payloads book))));
        all_valid := negb (bool_decide (length rs = 0%nat)) && forallb report_valid rs;
        reports := rs |}.
End Verifier.

(** ** Verification credentials *)

(** [str::contains] *)
Fixpoint contains (s p : string) : bool :=
  String.prefix p s || match s with EmptyString => false | String _ s => contains s p end.

Section Credentials.
Context `{B : BuildMode} `{X : External} `{PX : ProofExternal} `{VE : VerifierEncoding} `{BC : Bech32}.

(** Files that do not parse are skipped. *)
Definition parsed_artifacts (files : list (outcome string CollectTickArtifact))
    : list CollectTickArtifact :=
  omap (λ f, match f with Ok a => Some a | _ => None end) files.

Definition player_activity_blocks_for_epoch (files : list (outcome string CollectTickArtifact))
    (epoch_id : EpochId) : option Z :=
  sum_checked 64 (ct_player_reward_block_count <$>
    filter (λ a, ct_epoch_id a = epoch_id) (parsed_artifacts files)).

Definition is_player_verifier (files : list (outcome string CollectTickArtifact))
    (epoch_id : EpochId) : option bool :=
  blocks ← player_activity_blocks_for_epoch files (saturating_sub epoch_id 1); Some (0 <? blocks).

Definition credential_signing_payload (c : VerificationCredential) : option bytes :=
  json_credential {| vc_epoch_id := vc_epoch_id c; target_batch_root_hex := target_batch_root_hex c;
    target_collector_hex := target_collector_hex c; verifier_id_hex := verifier_id_hex c;
    verifier_address := verifier_address c; target_collector_address := target_collector_address c;
    is_player := is_player c; verified := verified c; verified_at_millis := verified_at_millis c;
    signature_hex := "" |}.

(** What [verified] is computed from. *)
Definition attests (r : BatchVerificationReport) : bool :=
  payload_hash_matches r && batch_root_matches r && obs_count_matches r
  && retention_hash_matches r && negb (contains (signature_status r) "invalid")
  && signatures_audit_valid r.

Definition credential_for (report : EpochVerificationReport) (verifier_hex address : string)
    (player : bool) (now : UnixMillis) (identity : KeyPair) (epoch_id : EpochId)
    (a : CollectTickArtifact) : option (option VerificationCredential) :=
  if negb (ct_epoch_id a =? epoch_id) then Some None else
  match snd <$> list_find (λ r, br_payload_cid r = ct_payload_cid a) (reports report) with
  | None => Some None
  | Some r =>
      if str_is_empty (collector_id_hex r) then Some None else
      if bool_decide (collector_id_hex r = verifier_hex) then Some None else
      if str_is_empty (ct_collector_address a) then Some None else
      let c sig := {| vc_epoch_id := epoch_id; target_batch_root_hex := ct_batch_root_hex a;
        target_collector_hex := collector_id_hex r; verifier_id_hex := verifier_hex;
        verifier_address := address; target_collector_address := ct_collector_address a;
        is_player := player; verified := attests r; verified_at_millis := now;
        signature_hex := sig |} in
      payload ← credential_signing_payload (c ""%string);
      Some (Some (c (hex_encode_str (sign identity payload))))
  end.

Inductive CredentialError :=
| CredVerification (e : NodeVerificationError)
| CredAddress (e : CosmosError)
| CredClock (e : string).

(** [report]: what [verify_local_epoch] returned; [now]: the clock. *)
Definition build_verification_credentials (node_id_hex : string) (identity : KeyPair)
    (report : outcome NodeVerificationError EpochVerificationReport)
    (files : list (outcome string CollectTickArtifact)) (now : outcome string UnixMillis)
    (epoch_id : EpochId) : outcome CredentialError (list VerificationCredential) :=
  do? report <- map_err CredVerification report;
  do? player <- or_panic (is_player_verifier files epoch_id);
  do? address <- map_err CredAddress (encode_bech32 "cosmos" (cosmos_account_from_pubkey (public identity)));
  do? now <- map_err CredClock now;
  do? cs <- or_panic (mapM (credential_for report node_id_hex address player now identity epoch_id)
                           (parsed_artifacts files));
  Ok (omap id cs).

(** [local_witness_attestation_count] of node_rewards.rs, on the stored credentials. *)
Definition local_witness_attestation_count (c : NodeConfig)
    (credentials : list VerificationCredential) (epoch_id : EpochId) : Z :=
  match node_id c with
  | Ok local_id => Z.of_nat (length (filter (λ cr, vc_epoch_id cr = epoch_id ∧ verified cr = true
      ∧ target_collector_hex cr ≠ hex_32 local_id) credentials))
  | _ => 0
  end.
End Credentials.

(** * Properties *)

(** Borsh decodes what it encoded, encodes observations injectively, and SHA-256 digests
    are bytes. *)
Class VerifierLaws `{External, PipelineEncoding, VerifierEncoding} : Prop := {
  decode_encode_observations : ∀ os payload,
    borsh_observations os = Some payload → borsh_decode_observations payload = Ok os;
  borsh_observation_inj : ∀ o o' e,
    borsh_observation o = Some e → borsh_observation o' = Some e → o = o';
  sha256_bytes : ∀ m, Forall is_byte (sha256 m);
}.

Lemma stable_hash32_bytes m : Forall is_byte (stable_hash32 m).
Proof.
  unfold stable_hash32. generalize HASH_SEEDS. intros seeds.
  assert (∀ f : nat → Z → bytes, (∀ i s, Forall is_byte (f i s)) → Forall is_byte (concat (imap f seeds)))
    as Hc.
  { induction seeds as [|x seeds IH]; intros f Hf; simpl; [constructor|].
    apply Forall_app. split; [apply Hf|]. apply IH. intros; apply Hf. }
  apply Hc. intros i s. apply le_bytes_range.
Qed.

(** A hash printed in an artifact is read back. *)
Lemma verifier_decode_hex_hash h :
  length h = 32%nat → Forall is_byte h → verifier_decode_hex_32 (hex_32 h) = Ok h.
Proof.
  intros Hl Hb. unfold verifier_decode_hex_32.
  rewrite (decode_hex_32_hex h "") by done. done.
Qed.

Section Audit.
Context `{X : External} `{PE : PipelineEncoding} `{VE : VerifierEncoding}.
Context `{T : !EncodingTotal} `{XL : !ExternalLaws} `{VL : !VerifierLaws}.
Context (debug_assertions : bool) (config : NodeConfig) (identity_public : option bytes).
Context (read_payload : string → outcome string bytes).

Notation verify := (verify_batch debug_assertions config identity_public read_payload).

Lemma merkle_reduce_digests fuel l :
  Forall (λ h, length h = 32%nat ∧ Forall is_byte h) l →
  Forall (λ h, length h = 32%nat ∧ Forall is_byte h) (merkle_reduce fuel l).
Proof using XL VL.
  assert (∀ l, Forall (λ h, length h = 32%nat ∧ Forall is_byte h) (merkle_level l)) as Hlevel.
  { assert (∀ m, length (sha256 m) = 32%nat ∧ Forall is_byte (sha256 m)) as Hd
      by (split; [apply sha256_length|apply sha256_bytes]).
    fix IH 1. intros [|a [|b l']]; simpl; [constructor| |]; (constructor; [apply Hd|]);
      [constructor|apply IH]. }
  revert l. induction fuel as [|fuel IH]; intros l Hl; simpl; [done|].
  destruct (1 <? _)%nat; [|done]. by apply IH, Hlevel.
Qed.

Lemma observation_leaves_digests os leaves :
  mapM observation_leaf os = Some leaves → Forall (λ h, length h = 32%nat ∧ Forall is_byte h) leaves.
Proof using XL VL.
  intros Hm. eapply mapM_Some_1 in Hm. induction Hm as [|o h os leaves Ho _ IH]; constructor; [|done].
  unfold observation_leaf in Ho. destruct (borsh_observation o); simplify_eq/=.
  unfold merkle_leaf_sha256. split; [apply sha256_length|apply sha256_bytes].
Qed.

Lemma merkle_root_digest leaves :
  Forall (λ h, length h = 32%nat ∧ Forall is_byte h) leaves →
  length (merkle_root leaves) = 32%nat ∧ Forall is_byte (merkle_root leaves).
Proof using XL VL.
  assert (length ZERO_HASH = 32%nat ∧ Forall is_byte ZERO_HASH) as Hz.
  { split; [done|]. repeat constructor; vm_compute; done. }
  intros Hl. unfold merkle_root. destruct leaves as [|h leaves]; [done|].
  pose proof (merkle_reduce_digests (length (h :: leaves)) _ Hl) as Hr.
  destruct (merkle_reduce _ _); [done|]. by apply Forall_cons in Hr as [? _].
Qed.

(** The artifact of a sealed batch, as the collector writes it. *)
Record artifact_of (s : AssembledBatch) (a : CollectTickArtifact) : Prop := {
  ao_cid : ct_payload_cid a = ab_payload_cid s;
  ao_hash : ct_payload_hash_hex a = hex_32 (ab_payload_hash s);
  ao_root : ct_batch_root_hex a = hex_32 (root (batch (ab_batch_commit s)));
  ao_count : ct_obs_count a = obs_count (ab_batch_commit s);
}.

Lemma finalize_inv b h s :
  finalize b h = Ok s →
  borsh_observations (ab_observations s) = Some (payload_bytes s) ∧
  ab_payload_hash s = stable_hash32 (payload_bytes s) ∧
  obs_count (ab_batch_commit s) = Z.of_nat (length (ab_observations s)) mod 2 ^ 32 ∧
  ab_observations s ≡ₚ bb_observations b ∧
  ∃ leaves, mapM observation_leaf (ab_observations s) = Some leaves ∧
    root (batch (ab_batch_commit s)) = merkle_root leaves.
Proof.
  unfold finalize. destruct (bb_observations b) as [|x xs] eqn:E; [done|].
  set (os := sort_by_key observation_order (x :: xs)).
  destruct (borsh_observations os) as [payload|] eqn:Hp; [|done]. simpl.
  destruct (mapM observation_leaf os) as [leaves|] eqn:Hl; [|done]. simpl.
  intros [= <-]. simpl. split_and!; try done; [apply sort_by_key_perm|]. by exists leaves.
Qed.

Lemma finalize_cid b h s :
  finalize b h = Ok s → ab_payload_cid s = cid_from_hash (stable_hash32 (payload_bytes s)) "batch-payload".
Proof.
  unfold finalize. destruct (bb_observations b) as [|x xs]; [done|].
  destruct (borsh_observations _) as [payload|]; [|done]. simpl.
  destruct (mapM observation_leaf _) as [leaves|]; [|done]. simpl. by intros [= <-].
Qed.

Lemma tally_ok own statuses t :
  ta_audit_ok (foldl (tally own) t statuses) = true ↔
  ta_audit_ok t = true ∧ (own = true → Forall (λ s, s = SigValid) statuses).
Proof.
  revert t. induction statuses as [|s statuses IH]; intros t; simpl.
  { split; [naive_solver|tauto]. }
  rewrite IH. assert (ta_audit_ok (tally own t s) = true ↔
    ta_audit_ok t = true ∧ (own = true → s = SigValid)) as ->.
  { destruct s, own; simpl; rewrite ?andb_true_r, ?andb_false_r; naive_solver. }
  rewrite Forall_cons. naive_solver.
Qed.

(** What a successful check of a batch has read. *)
Lemma verify_inv book a r :
  verify book a = Ok r →
  ∃ payload os leaves expected_hash expected_root,
    read_payload (ct_payload_cid a) = Ok payload ∧ borsh_decode_observations payload = Ok os ∧
    mapM observation_leaf os = Some leaves ∧
    verifier_decode_hex_32 (ct_payload_hash_hex a) = Ok expected_hash ∧
    verifier_decode_hex_32 (ct_batch_root_hex a) = Ok expected_root ∧
    batch_root_matches r = bool_decide (merkle_root leaves = expected_root) ∧
    payload_hash_matches r = bool_decide (stable_hash32 payload = expected_hash) ∧
    obs_count_matches r = (Z.of_nat (length os) mod 2 ^ 32 =? ct_obs_count a) ∧
    collector_id_hex r = match obs_collector_id <$> head os with Some c => hex_32 c | None => "" end.
Proof.
  unfold verify_batch. destruct (read_payload _) as [payload|?|] eqn:E1; simpl; try done.
  destruct (borsh_decode_observations payload) as [os|?|] eqn:E2; simpl; try done.
  destruct (verifier_decode_hex_32 (ct_payload_hash_hex a)) as [eh|?|] eqn:E3; simpl; try done.
  destruct (mapM observation_leaf os) as [leaves|] eqn:E4; simpl; [|done].
  destruct (verifier_decode_hex_32 (ct_batch_root_hex a)) as [er|?|] eqn:E5; simpl; try done.
  destruct (mapM (λ o, verify_collector_signature _ o _) os); simpl; [|done].
  intros [= <-]. by exists payload, os, leaves, eh, er.
Qed.

(** What the leaves of observations hash, and what the whole root of a batch hashes. *)
Definition leaf_inputs (os : list ObservationRecord) : list bytes :=
  omap (λ o, (λ e, 0 :: e) <$> borsh_observation o) os.
Definition batch_root_inputs (os : list ObservationRecord) : list bytes :=
  (leaf_inputs os ++ root_inputs (default [] (mapM observation_leaf os)))%list.

(** Leaves determine the observations. *)
Lemma observation_leaves_inj os os' leaves :
  mapM observation_leaf os = Some leaves → mapM observation_leaf os' = Some leaves →
  os = os' ∨ collide (leaf_inputs os) (leaf_inputs os').
Proof using VL.
  clear T XL. intros Hl Hl'. apply mapM_Some_1 in Hl, Hl'. revert os' Hl'.
  induction Hl as [|o l os ls Ho _ IH]; intros os' Hl'.
  { apply Forall2_nil_inv_r in Hl'. by left. }
  apply Forall2_cons_inv_r in Hl' as (o' & os2 & Ho' & Hl' & ->).
  unfold observation_leaf, merkle_leaf_sha256 in Ho, Ho'.
  destruct (borsh_observation o) as [e|] eqn:He; simplify_eq/=.
  destruct (borsh_observation o') as [e'|] eqn:He'; simplify_eq/=.
  destruct (IH _ Hl') as [->|Hc].
  2: { right. revert Hc. unfold leaf_inputs. simpl. rewrite ?He, ?He'. simpl. apply collide_mono; set_solver. }
  destruct (decide (e = e')) as [->|Hne].
  - left. f_equal. by eapply borsh_observation_inj.
  - right. exists (0 :: e), (0 :: e'). unfold leaf_inputs. simpl. rewrite ?He, ?He'. simpl.
    split_and!; [by left|by left|congruence|done].
Qed.

(** The signatures of a sealed batch, as its audit reads them. *)
Definition signatures_pass (b : BatchBuilder) (s : AssembledBatch) (statuses : list SignatureStatus) : Prop :=
  let own := bool_decide (own_node_id config = Some (bb_collector_id b)) in
  Forall (λ o, obs_collector_id o = bb_collector_id b) (bb_observations b) ∧
  mapM (λ o, verify_collector_signature debug_assertions o (if own then identity_public else None))
    (ab_observations s) = Some statuses ∧
  (own = true → Forall (λ st, st = SigValid) statuses).

Lemma sealed_report_valid b h s a book record statuses :
  finalize b h = Ok s → artifact_of s a →
  read_payload (ab_payload_cid s) = Ok (payload_bytes s) →
  payloads book !! ab_payload_cid s = Some record → payload_hash record = ab_payload_hash s →
  signatures_pass b s statuses →
  ∃ r, verify book a = Ok r ∧ report_valid r = true.
Proof using T XL VL.
  intros Hf [Hcid Hhash Hroot Hcount] Hread Hrec Hrh (Hcol & Hst & Hown).
  destruct (finalize_inv _ _ _ Hf) as (Hpay & Hph & Hoc & Hperm & leaves & Hleaves & Hrt).
  set (own := bool_decide (own_node_id config = Some (bb_collector_id b))) in *.
  assert (obs_collector_id <$> head (ab_observations s) = Some (bb_collector_id b)) as Hhead.
  { destruct (ab_observations s) as [|o os] eqn:E.
    - apply Permutation_nil_l in Hperm. unfold finalize in Hf. by rewrite <- Hperm in Hf.
    - simpl. f_equal. rewrite <- Hperm, Forall_cons in Hcol. tauto. }
  pose proof (observation_leaves_digests _ _ Hleaves) as Hdig.
  destruct (merkle_root_digest _ Hdig) as [Hrl Hrb].
  unfold verify_batch. rewrite Hcid, Hread, Hhash, Hroot, Hph. simpl.
  rewrite (decode_encode_observations _ _ Hpay). simpl.
  rewrite (verifier_decode_hex_hash (stable_hash32 (payload_bytes s)))
    by (apply stable_hash32_length || apply stable_hash32_bytes).
  rewrite Hleaves, Hrt. simpl. rewrite (verifier_decode_hex_hash (merkle_root leaves)) by done. simpl.
  rewrite Hhead. fold own. rewrite Hst. simpl. eexists. split; [reflexivity|].
  unfold report_valid. simpl. rewrite Hrec, !bool_decide_true by congruence.
  rewrite Hcount, Hoc, Z.eqb_refl. simpl. apply tally_ok. done.
Qed.

(** A directory whose artifacts of the epoch all pass: the audit reports them all. *)
Lemma epoch_reports_valid book e arts :
  Forall (λ a, ct_epoch_id a = e → ∃ r, verify book a = Ok r ∧ report_valid r = true) arts →
  ∃ report, verify_local_epoch debug_assertions config identity_public read_payload (Ok book) (Ok <$> arts) e
      = Ok report ∧
    Forall (λ r, report_valid r = true) (reports report) ∧
    vr_batch_count report = Z.of_nat (length (filter (λ a, ct_epoch_id a = e) arts)) ∧
    all_valid report = negb (bool_decide (filter (λ a, ct_epoch_id a = e) arts = [])).
Proof using.
  clear T XL VL. intros Ha. enough (∃ rs, verify_batches debug_assertions config identity_public read_payload book e
    (Ok <$> arts) = Ok rs ∧ Forall (λ r, report_valid r = true) rs ∧
    length rs = length (filter (λ a, ct_epoch_id a = e) arts)) as (rs & Hrs & Hv & Hl).
  { unfold verify_local_epoch. simpl. rewrite Hrs. simpl. eexists. split; [reflexivity|]. simpl.
    split_and!; [done|by rewrite Hl|]. rewrite Hl.
    assert (forallb report_valid rs = true) as ->
      by (apply forallb_forall; intros r Hr%list_elem_of_In; rewrite Forall_forall in Hv; auto).
    rewrite andb_true_r. f_equal. apply bool_decide_ext. split; [apply nil_length_inv|by intros ->]. }
  induction Ha as [|a arts Ha _ IH]; [by exists []|]. destruct IH as (rs & Hrs & Hv & Hl).
  rewrite fmap_cons. cbn [verify_batches map_err outcome_bind].
  destruct (Z.eqb_spec (ct_epoch_id a) e) as [He|He]; cbn [negb].
  - rewrite filter_cons_True by done. destruct (Ha He) as (r & Hr & Hrv). rewrite Hr. cbn [outcome_bind]. rewrite Hrs.
    exists (r :: rs). split_and!; [done|by constructor|simpl; by rewrite Hl].
  - rewrite filter_cons_False by done. by exists rs.
Qed.

(** C18: A passed audit fixes the observations: if the stored payload of a batch passes the
    root and the count checks of [verify_local_epoch], the observations it decodes to are
    those the batch was sealed with, unless a message hashed for the root of the one list
    and a different message hashed for the root of the other have the same SHA-256 digest. *)
Theorem audit_binds_observations b h s a book r :
  finalize b h = Ok s → artifact_of s a → verify book a = Ok r →
  batch_root_matches r = true → obs_count_matches r = true →
  ∃ payload os, read_payload (ct_payload_cid a) = Ok payload ∧
    borsh_decode_observations payload = Ok os ∧
    (Z.of_nat (length os) < 2 ^ 32 → Z.of_nat (length (ab_observations s)) < 2 ^ 32 →
     os = ab_observations s ∨ collide (batch_root_inputs os) (batch_root_inputs (ab_observations s))).
Proof using XL VL.
  clear T. intros Hf [Hcid Hhash Hroot Hcount] Hv Hbr Hoc.
  destruct (finalize_inv _ _ _ Hf) as (_ & _ & Hc & _ & leaves & Hleaves & Hrt).
  destruct (verify_inv _ _ _ Hv) as (payload & os & leaves' & eh & er & Hp & Hd & Hl' & _ & Her & E1 & _ & E2 & _).
  exists payload, os. split_and!; [done..|]. intros Hlt Hlt'.
  pose proof (observation_leaves_digests _ _ Hleaves) as Hdig.
  pose proof (observation_leaves_digests _ _ Hl') as Hdig'.
  destruct (merkle_root_digest _ Hdig) as [Hrl Hrb].
  rewrite Hroot, Hrt, verifier_decode_hex_hash in Her by done. injection Her as <-.
  rewrite E1 in Hbr. apply bool_decide_eq_true in Hbr.
  rewrite E2, Hcount, Hc, Z.eqb_eq, !Z.mod_small in Hoc by lia.
  pose proof (length_mapM _ _ _ Hleaves). pose proof (length_mapM _ _ _ Hl').
  unfold batch_root_inputs. rewrite Hleaves, Hl'. cbn [default].
  destruct (merkle_root_binding leaves' leaves) as [->|Hcl]; [lia| | |done| |].
  1, 2: eapply Forall_impl; [eassumption|]; simpl; tauto.
  - destruct (observation_leaves_inj os (ab_observations s) leaves) as [?|Hcl]; [done..|by left|right].
    revert Hcl. apply collide_mono; set_solver.
  - right. revert Hcl. apply collide_mono; set_solver.
Qed.
End Audit.

(** ** Credentials *)

Section CredentialProofs.
Context `{B : BuildMode} `{X : External} `{PX : ProofExternal} `{VE : VerifierEncoding} `{BC : Bech32}.

(** What a credential states, and about which batch. *)
Record credential_about (nid : string) (identity : KeyPair) (report : EpochVerificationReport)
    (files : list (outcome string CollectTickArtifact)) (epoch_id : EpochId)
    (c : VerificationCredential) (a : CollectTickArtifact) (r : BatchVerificationReport) : Prop := {
  ca_file : Ok a ∈ files;
  ca_report : r ∈ reports report ∧ br_payload_cid r = ct_payload_cid a;
  ca_epoch : ct_epoch_id a = epoch_id ∧ vc_epoch_id c = epoch_id;
  ca_root : target_batch_root_hex c = ct_batch_root_hex a;
  ca_collector : target_collector_hex c = collector_id_hex r ∧ collector_id_hex r ≠ ""%string;
  ca_not_self : target_collector_hex c ≠ nid;
  ca_address : target_collector_address c = ct_collector_address a ∧ ct_collector_address a ≠ ""%string;
  ca_verified : verified c = attests r;
  ca_signed : ∃ payload, credential_signing_payload c = Some payload ∧
    signature_hex c = hex_encode_str (sign identity payload);
}.

Lemma parsed_artifacts_elem a files : a ∈ parsed_artifacts files → Ok a ∈ files.
Proof.
  unfold parsed_artifacts. intros (f & Hf & Ha)%list_elem_of_omap. destruct f; by simplify_eq.
Qed.

Lemma credential_for_some report nid address player now identity epoch_id files a c :
  Ok a ∈ files →
  credential_for report nid address player now identity epoch_id a = Some (Some c) →
  ∃ r, credential_about nid identity report files epoch_id c a r.
Proof.
  intros Ha. unfold credential_for. destruct (Z.eqb_spec (ct_epoch_id a) epoch_id) as [He|]; [|done].
  simpl. destruct (list_find _ (reports report)) as [[i r]|] eqn:Hr; [|done]. simpl.
  destruct (str_is_empty (collector_id_hex r)) eqn:H1; [done|]. case_bool_decide as H2; [done|].
  destruct (str_is_empty (ct_collector_address a)) eqn:H3; [done|].
  destruct (credential_signing_payload _) as [payload|] eqn:Hp; [|done]. simpl.
  intros [= <-]. exists r. apply list_find_Some in Hr as (Hi & Hcid & _).
  apply str_is_empty_false in H1, H3.
  split; simpl; try done; [split; [by eapply list_elem_of_lookup_2|done]|]. by exists payload.
Qed.

(** Every credential a node signs is about a batch of another node that is stored and
    was audited: it names the collector, address and root of that batch, never the
    node's own id, is marked verified exactly when the audit of the batch passed, and
    carries a signature over its other fields. *)
Theorem credentials_sound nid identity report files now epoch_id cs c :
  build_verification_credentials nid identity report files now epoch_id = Ok cs → c ∈ cs →
  ∃ rep a r, report = Ok rep ∧ credential_about nid identity rep files epoch_id c a r.
Proof.
  unfold build_verification_credentials. destruct report as [rep|?|]; simpl; try done.
  destruct (is_player_verifier files epoch_id) as [player|]; simpl; [|done].
  destruct (encode_bech32 _ _) as [address|?|]; simpl; try done.
  destruct now as [now|?|]; simpl; try done.
  destruct (mapM _ _) as [ocs|] eqn:Hm; simpl; [|done]. intros [= <-].
  intros (oc & Hoc & Hid)%list_elem_of_omap. destruct oc as [c'|]; [|done].
  unfold id in Hid. simplify_eq. apply mapM_Some_1 in Hm.
  apply list_elem_of_lookup in Hoc as [i Hi].
  destruct (Forall2_lookup_r _ _ _ _ _ Hm Hi) as (a & Ha & Hc).
  apply list_elem_of_lookup_2, parsed_artifacts_elem in Ha.
  destruct (credential_for_some _ _ _ _ _ _ _ _ _ _ Ha Hc) as [r Hr]. by exists rep, a, r.
Qed.
End CredentialProofs.

(** ** A toy encoding that satisfies the laws *)

(** One integer per field; byte arrays and strings through their [Countable] codes. *)
Definition toy_code (o : ObservationRecord) : list Z :=
  [obs_epoch_id o; obs_slot_id o; obs_app_id o; source_kind_index (obs_source_kind o);
   obs_source_confidence_ppm o; observed_players o; observed_at_millis o;
   Z.pos (encode (obs_collector_id o)); Z.pos (encode (raw_body_cid o));
   Z.pos (encode (raw_body_hash o)); Z.pos (encode (collector_signature o))].

Definition source_kind_of_index (i : Z) : ActivitySourceKind :=
  if i =? 0 then Steam else if i =? 1 then Epic else if i =? 2 then Ea else
  if i =? 3 then Gog else Community.

Fixpoint toy_decode (l : list Z) : outcome string (list ObservationRecord) :=
  match l with
  | e :: s :: a :: k :: c :: p :: m :: Z.pos n :: Z.pos cid :: Z.pos h :: Z.pos sg :: l =>
      match decode n, decode cid, decode h, decode sg, toy_decode l with
      | Some n, Some cid, Some h, Some sg, Ok os =>
          Ok ({| obs_epoch_id := e; obs_slot_id := s; obs_app_id := a;
                 obs_source_kind := source_kind_of_index k; obs_source_confidence_ppm := c;
                 observed_players := p; observed_at_millis := m; obs_collector_id := n;
                 raw_body_cid := cid; raw_body_hash := h; collector_signature := sg |} :: os)
      | _, _, _, _, _ => Err "invalid"%string
      end
  | _ => Ok []
  end.

Definition toy_pipeline_encoding : PipelineEncoding := {|
  borsh_observation := λ o, Some (toy_code o);
  borsh_observations := λ os, Some (os ≫= toy_code);
  borsh_batch_commit := λ b, Ok [bc_epoch_id b];
  json_reward := λ r, Ok [cr_net_reward r];
  json_aggregate := λ r, Ok [ca_player_count r];
|}.

Definition toy_verifier_encoding : VerifierEncoding := {|
  borsh_decode_observations := toy_decode;
  json_credential := λ c, Some (string_bytes (target_batch_root_hex c));
|}.

Lemma toy_decode_code o l os : toy_decode l = Ok os → toy_decode (toy_code o ++ l) = Ok (o :: os).
Proof.
  intros Hl. unfold toy_code. cbn [app toy_decode]. rewrite !decode_encode, Hl.
  destruct o as [? ? ? k ? ? ? ? ? ? ?]. by destruct k.
Qed.

Lemma toy_encoding_total : @EncodingTotal toy_pipeline_encoding.
Proof. split; done. Qed.

Lemma toy_verifier_laws : @VerifierLaws demo_external toy_pipeline_encoding toy_verifier_encoding.
Proof.
  split.
  - intros os payload [= <-]. cbn [borsh_decode_observations toy_verifier_encoding].
    induction os as [|o os IH]; [done|]. rewrite bind_cons. by apply toy_decode_code.
  - intros o o' e Ho Ho'. pose proof (toy_decode_code o [] [] eq_refl) as D.
    pose proof (toy_decode_code o' [] [] eq_refl) as D'.
    assert (toy_code o = toy_code o') as He by (cbn in Ho, Ho'; congruence).
    rewrite He, D' in D. congruence.
  - intros m. apply stable_hash32_bytes.
Qed.

(** ** A batch on disk *)

Definition demo_builder : BatchBuilder := {|
  bb_epoch_id := 4; bb_collector_id := [7];
  bb_observations := [demo_observation 3 20; demo_observation 1 30] |}.

Definition demo_artifact (s : AssembledBatch) : CollectTickArtifact := {|
  ct_epoch_id := 4; ct_slot_id := 3; ct_payload_cid := ab_payload_cid s;
  ct_payload_hash_hex := hex_32 (ab_payload_hash s);
  ct_batch_root_hex := hex_32 (root (batch (ab_batch_commit s)));
  ct_obs_count := obs_count (ab_batch_commit s); ct_collector_address := "cosmos1peer";
  ct_player_reward_block_count := 1; ct_player_reward_total := 0; ct_reward_process_name := None;
  ct_stored_payload_cid := None; ct_retention_until_epoch := None |}.

Definition demo_stored (s : AssembledBatch) : StoredPayloadRecord := {|
  sp_epoch_id := 4; sp_payload_cid := ab_payload_cid s; payload_hash := ab_payload_hash s;
  size_bytes := 1; sp_retention_until_epoch := 6;
  receipt := {| rr_epoch_id := 4; rr_payload_cid := ab_payload_cid s; storer_id := [9];
                rr_retention_until_epoch := 6; receipt_signature := [] |} |}.

Definition demo_batch_book (s : AssembledBatch) : LocalRetentionBook := {|
  quota_bytes := 100; used_bytes := 1; payloads := {[ ab_payload_cid s := demo_stored s ]} |}.

#[local] Existing Instances demo_external toy_pipeline_encoding toy_verifier_encoding.

Lemma audit_binds_observations_witness :
  ∃ s r, finalize demo_builder 9 = Ok s ∧
    verify_batch false NodeConfig_default None (λ _, Ok (payload_bytes s)) (demo_batch_book s)
      (demo_artifact s) = Ok r ∧
    ∃ payload os, Ok payload = Ok (E:=string) (payload_bytes s) ∧
      borsh_decode_observations payload = Ok os ∧
      (os = ab_observations s ∨ collide (batch_root_inputs os) (batch_root_inputs (ab_observations s))).
Proof.
  destruct (finalize demo_builder 9) as [s|?|] eqn:Hf; [|vm_compute in Hf; discriminate..].
  destruct (verify_batch false NodeConfig_default None (λ _, Ok (payload_bytes s)) (demo_batch_book s)
    (demo_artifact s)) as [r|?|] eqn:Hv;
    [|vm_compute in Hf; injection Hf as <-; vm_compute in Hv; discriminate..].
  exists s, r. split; [reflexivity|]. split; [exact Hv|].
  destruct (audit_binds_observations (XL:=demo_external_laws) (VL:=toy_verifier_laws) false
    NodeConfig_default None (λ _, Ok (payload_bytes s)) demo_builder 9 s (demo_artifact s)
    (demo_batch_book s) r) as (payload & os & Hp & Hd & Hor).
  - exact Hf.
  - split; reflexivity.
  - exact Hv.
  - vm_compute in Hf; injection Hf as <-; vm_compute in Hv; injection Hv as <-; reflexivity.
  - vm_compute in Hf; injection Hf as <-; vm_compute in Hv; injection Hv as <-; reflexivity.
  - exists payload, os. split_and!; [by symmetry|exact Hd|].
    apply Hor; vm_compute in Hf; injection Hf as <-; vm_compute in Hd; simplify_eq; vm_compute; done.
Defined.

#[local] Existing Instances demo_proof_external toy_bech32.

Definition demo_identity : KeyPair := {| secret := []; public := replicate 32 1; kp_address := [] |}.

Definition demo_report (collector : string) : BatchVerificationReport := {|
  br_epoch_id := 4; br_slot_id := 3; br_payload_cid := "cid"; payload_hash_matches := true;
  batch_root_matches := true; obs_count_matches := true; retention_record_present := true;
  retention_hash_matches := true; signature_status := "unverifiable"; signatures_present := 1;
  signatures_verified := 0; own_batch := false; signatures_audit_valid := true;
  collector_id_hex := collector |}.

Definition demo_epoch_report (collector : string) : EpochVerificationReport := {|
  vr_epoch_id := 4; vr_batch_count := 1; vr_stored_payload_count := 1; all_valid := true;
  reports := [demo_report collector] |}.

Definition demo_peer_artifact : CollectTickArtifact := {|
  ct_epoch_id := 4; ct_slot_id := 3; ct_payload_cid := "cid"; ct_payload_hash_hex := "";
  ct_batch_root_hex := "00"; ct_obs_count := 1; ct_collector_address := "cosmos1peer";
  ct_player_reward_block_count := 1; ct_player_reward_total := 0; ct_reward_process_name := None;
  ct_stored_payload_cid := None; ct_retention_until_epoch := None |}.

Definition demo_credentials (nid collector : string)
    : outcome CredentialError (list VerificationCredential) :=
  build_verification_credentials (B:=true) nid demo_identity (Ok (demo_epoch_report collector))
    [Ok demo_peer_artifact] (Ok 5) 4.

Lemma credentials_sound_witness :
  ∃ cs c, demo_credentials "me" "peer" = Ok cs ∧ c ∈ cs ∧
    ∃ rep a r, Ok (demo_epoch_report "peer") = Ok (E:=NodeVerificationError) rep ∧
      credential_about "me" demo_identity rep [Ok demo_peer_artifact] 4 c a r.
Proof.
  destruct (demo_credentials "me" "peer") as [cs|?|] eqn:Hcs; [|vm_compute in Hcs; discriminate..].
  destruct cs as [|c cs]; [vm_compute in Hcs; discriminate|].
  exists (c :: cs), c. split_and!; [reflexivity|by left|].
  apply (credentials_sound (B:=true) "me" demo_identity (Ok (demo_epoch_report "peer"))
    [Ok demo_peer_artifact] (Ok 5) 4 (c :: cs) c).
  - exact Hcs.
  - by left.
Defined.

(** The test against self-attestation compares the configured spelling of the node id with
    a lower-case one. A configuration that spells the id in upper case is valid, and its
    node attests its own batches. *)
Example uppercase_id_attests_itself :
  let id := replicate 32 0xAB in
  let nid := string_of_bytes ((λ x, if 97 <=? x then x - 32 else x) <$> string_bytes (hex_32 id)) in
  decode_hex_32 nid "node_id_hex" = Ok id ∧
  match demo_credentials nid (hex_32 id) with
  | Ok [c] => target_collector_hex c = hex_32 id
  | _ => False
  end.
Proof. vm_compute. split; reflexivity. Qed.
