(* ===== verification/EpochRewards.v ===== *)
(** * The rewards of an epoch: [compute_local_epoch_rewards] of src/src/node_rewards.rs

    The player rewards of verified sessions, the service pools and their allocation, the
    witness split, the reward records in the order of the chain and their Merkle root.
    Files and chain queries enter as what they returned: the aggregation, the retention
    book, the tick artifacts of the epoch (normalized and filtered by epoch when they
    are loaded), play sessions, attestations, the settlement of each session and the
    witness credits recorded on the chain. *)
From S2P Require Import Prelude Primitives Params Records Crypto Store Tokenomics Rewards StorageBook Pipeline Gvs Aggregator MutualProof Text NodeConfig ActiveParams PlayerTicks CosmosAddress Verifier.
Local Open Scope pole_scope.

Record EpochRewardEntry := {
  re_node_id_hex : string;
  re_player_block_count : Z;
  re_player_weight_units : Amount;
  re_player_reward_units : Amount;
  re_collect_score_units : Amount;
  re_storage_score_units : Amount;
  re_reward : RewardRecord;
}.

Record EpochRewardArtifact := {
  ra_epoch_id : EpochId;
  ra_reward_block_secs : Z;
  ra_player_block_reward : Amount;
  ra_reward_adjustment_period_blocks : Z;
  ra_target_network_weight_units : Amount;
  ra_reward_adjustment_cap_bps : Z;
  ra_player_reward_block_count : Z;
  ra_player_reward_pool : Amount;
  ra_local_player_weight_units : Amount;
  ra_total_network_weight_units : Amount;
  ra_local_player_reward_total : Amount;
  ra_pending_player_reward_total : Amount;
  ra_total_gvs_units : Amount;
  ra_collect_pool : Amount;
  ra_store_pool : Amount;
  ra_verify_pool : Amount;
  ra_propose_pool : Amount;
  ra_total_distributed : Amount;
  ra_reward_count : Z;
  ra_reward_root_hex : string;
  ra_records : list EpochRewardEntry;
}.

Record EpochRewardComputation := {
  rc_artifact : EpochRewardArtifact;
  rc_records : list RewardRecord;
}.

Inductive NodeRewardError :=
| RewardConfigError (e : NodeConfigError)
| RewardAggregation (e : NodeAggregationError)
| RewardStorage (e : StorageBookError)
| RewardIo (e : CosmosError)
| RewardJson (e : string)
| RewardBorsh (e : string).

(** ** Sessions and credits *)

Section Sessions.
Context (sessions : list PlaySession) (attestations : list WitnessAttestation).

(** [settled h]: the chain answered that the session with hex id [h] settled as valid. *)
Definition session_verified (settled : string → bool) (local_account : option Address)
    (session : PlaySession) : bool :=
  settled (hex_32 (ps_session_id session)) ||
  bool_decide (Exists (λ a, wa_session_id a = ps_session_id session
    ∧ local_account ≠ Some (witness_address a)) attestations).

Definition verified_session_ids_for_epoch (settled : string → bool)
    (local_account : option Address) (epoch_id : EpochId) : gset string :=
  list_to_set ((λ s, hex_32 (ps_session_id s)) <$>
    filter (λ s, ps_epoch_id s = epoch_id ∧ session_verified settled local_account s = true) sessions).

(** [*credits.entry(bech32).or_default() += 1] for every attestation of a session of
    the epoch whose witness address encodes. *)
Definition add_credit `{BuildMode} `{Bech32} (a : WitnessAttestation)
    (credits : option (gmap string Z)) : option (gmap string Z) :=
  credits ← credits;
  match encode_bech32 DEFAULT_BECH32_PREFIX (take 20 (witness_address a)) with
  | Ok address =>
      n ← add 64 (default 0 (credits !! address)) 1; Some (<[address := n]> credits)
  | _ => Some credits
  end.

Definition local_credits `{BuildMode} `{Bech32} (epoch_id : EpochId) : option (gmap string Z) :=
  foldl (λ credits a,
    foldl (λ credits s,
      if bool_decide (ps_session_id s = wa_session_id a) && (ps_epoch_id s =? epoch_id)
      then add_credit a credits else credits) credits sessions) (Some ∅) attestations.

(** [chain_credits]: empty when the query failed. *)
Definition load_witness_credits `{BuildMode} `{Bech32} (chain_credits : gmap string Z)
    (epoch_id : EpochId) : option (gmap string Z) :=
  if bool_decide (chain_credits = ∅) then local_credits epoch_id else Some chain_credits.
End Sessions.

(** ** Player totals *)

(** One record: its reward is added to the verified or to the pending total. *)
Definition record_totals (verified_sessions : gset string) (t : Amount * Amount)
    (record : PlayerRewardBlockRecord) : Amount * Amount :=
  if negb (str_is_empty (pb_session_id record)) && bool_decide (pb_session_id record ∈ verified_sessions)
  then (saturating_add 128 t.1 (pb_player_reward record), t.2)
  else (t.1, saturating_add 128 t.2 (pb_player_reward record)).

(** One tick of the loop over the tick artifacts. *)
Definition tick_totals (verified_sessions : gset string) (t : Amount * Amount)
    (tick : PlayerRewardTickArtifact) : Amount * Amount :=
  let t := foldl (record_totals verified_sessions) t (pt_records tick) in
  if bool_decide (pt_records tick = []) && (0 <? pt_total_player_reward tick) then
    if bool_decide (verified_sessions ≠ ∅)
    then (saturating_add 128 t.1 (pt_total_player_reward tick), t.2)
    else (t.1, saturating_add 128 t.2 (pt_total_player_reward tick))
  else t.

Definition player_totals (verified_sessions : gset string) (ticks : list PlayerRewardTickArtifact)
    : Amount * Amount := foldl (tick_totals verified_sessions) (0, 0) ticks.

(** ** Scores *)

Definition add_score `{BuildMode} (scores : option (gmap NodeId Z)) (n : NodeId) (x : Z)
    : option (gmap NodeId Z) :=
  scores ← scores; y ← add 128 (default 0 (scores !! n)) x; Some (<[n := y]> scores).

Definition collect_collect_scores `{BuildMode} (groups : list EpochAggregationGroup)
    : option (gmap NodeId Z) :=
  foldl (λ scores group,
    let observations := eg_accepted_observations group in
    if bool_decide (observations = []) then scores else
    let group_units := reward_units_from_gvs (gvs_microunits (eg_aggregate group)) in
    if group_units =? 0 then scores else
    let weight := Z.max (group_units / Z.of_nat (length observations)) 1 in
    foldl (λ scores o, add_score scores (obs_collector_id o) weight) scores observations)
    (Some ∅) groups.

Definition storage_scores_of `{BuildMode} (book : LocalRetentionBook) (epoch_id : EpochId)
    : option (gmap NodeId Z) :=
  foldl (λ scores record, add_score scores (storer_id (receipt record)) (Z.max (size_bytes record) 1))
    (Some ∅) (filter (λ r, sp_epoch_id r = epoch_id) (bt_values (payloads book))).

(** ** Payments into the reward map *)

Definition set_recipient (r : RewardRecord) (address : string) : RewardRecord :=
  with_rewards r address (player_reward r) (collect_reward r) (store_reward r) (verify_reward r)
    (propose_reward r) (net_reward r).
Definition set_player_reward (r : RewardRecord) (x : Amount) : RewardRecord :=
  with_rewards r (recipient_address r) x (collect_reward r) (store_reward r) (verify_reward r)
    (propose_reward r) (net_reward r).
Definition set_verify_reward (r : RewardRecord) (x : Amount) : RewardRecord :=
  with_rewards r (recipient_address r) (player_reward r) (collect_reward r) (store_reward r) x
    (propose_reward r) (net_reward r).
Definition set_propose_reward (r : RewardRecord) (x : Amount) : RewardRecord :=
  with_rewards r (recipient_address r) (player_reward r) (collect_reward r) (store_reward r)
    (verify_reward r) x (net_reward r).

(** [values_mut()]: the local node's record gets its account address. *)
Definition stamp_local (local : NodeId) (address : option string) (m : gmap NodeId RewardRecord)
    : gmap NodeId RewardRecord :=
  match address with
  | Some address => (λ r, if bool_decide (rw_node_id r = local) then set_recipient r address else r) <$> m
  | None => m
  end.

Section Payments.
Context `{B : BuildMode} (epoch_id : EpochId) (local : NodeId) (local_recipient : option string).
Implicit Types m : gmap NodeId RewardRecord.

Definition pay_player m (amount : Amount) : option (gmap NodeId RewardRecord) :=
  if 0 <? amount then
    let r := reward_record_for_node m epoch_id local local_recipient in
    x ← add 128 (player_reward r) amount; Some (<[local := set_player_reward r x]> m)
  else Some m.

Definition pay_witness m (entry : string * Amount) : gmap NodeId RewardRecord :=
  let '(recipient, amount) := entry in
  let n := if bool_decide (local_recipient = Some recipient) then local else witness_node_id recipient in
  let r := reward_record_for_node m epoch_id n (Some recipient) in
  <[n := set_verify_reward r (saturating_add 128 (verify_reward r) amount)]> m.

Definition pay_verify m (credits : gmap string Z) (pool attestation_count : Z)
    : option (gmap NodeId RewardRecord) :=
  if negb (bool_decide (credits = ∅)) then
    allocation ← allocate_witness_rewards credits pool;
    Some (foldl pay_witness m (bt_iter allocation))
  else if (0 <? pool) && (0 <? attestation_count) then
    let r := reward_record_for_node m epoch_id local local_recipient in
    x ← add 128 (verify_reward r) pool; Some (<[local := set_verify_reward r x]> m)
  else Some m.

Definition pay_propose m (pool : Amount) : option (gmap NodeId RewardRecord) :=
  if 0 <? pool then
    let r := reward_record_for_node m epoch_id local local_recipient in
    x ← add 128 (propose_reward r) pool; Some (<[local := set_propose_reward r x]> m)
  else Some m.
End Payments.

(** ** The record root and the computation *)

Section Compute.
Context `{B : BuildMode} `{X : External} `{PE : PipelineEncoding} `{BC : Bech32}.
Context {DB : Type} `{PS : ProtocolStore DB}.

(** [collect::<Result<Vec<_>, _>>()] *)
Fixpoint collect_results {E A C} (f : A → outcome E C) (l : list A) : outcome E (list C) :=
  match l with
  | [] => Ok []
  | x :: l => do? y <- f x; do? ys <- collect_results f l; Ok (y :: ys)
  end.

Definition reward_record_root (records : list RewardRecord) : outcome NodeRewardError Hash32 :=
  do? with_recipient <- collect_results (λ r,
    do? recipient <- map_err RewardIo (chain_recipient r); Ok (rw_epoch_id r, recipient, r)) records;
  do? leaf_hashes <- collect_results (λ e : Z * string * RewardRecord,
    do? json <- map_err RewardJson (reward_record_to_chain_json e.2 e.1.2);
    Ok (merkle_leaf_sha256 json)) (sort_by_key (λ e : Z * string * RewardRecord, e.1) with_recipient);
  Ok (merkle_root leaf_hashes).

(** [(record.epoch_id, record.chain_recipient().unwrap_or_default())] *)
Definition record_key (r : RewardRecord) : Z * string :=
  (rw_epoch_id r, match chain_recipient r with Ok s => s | _ => ""%string end).

(** What the files and the chain returned. *)
Record EpochSources := {
  es_aggregation : outcome NodeAggregationError EpochAggregationComputation;
  es_book : outcome StorageBookError LocalRetentionBook;
  es_ticks : outcome NodeRewardError (list PlayerRewardTickArtifact);
  es_sessions : list PlaySession;
  es_attestations : list WitnessAttestation;
  es_settled : string → bool;
  es_chain_credits : gmap string Z;
  (** [identity_account_address] of the identity key *)
  es_local_account : option Address;
  (** [identity_account_bech32().ok()] *)
  es_local_recipient : option string;
  es_credentials : list VerificationCredential;
}.

(** The allocation of the collect and store pools. *)
Definition service_reward_map (epoch_id : EpochId) (collect_scores storage_scores : gmap NodeId Z)
    (pools : ServiceRewardPools) : option (gmap NodeId RewardRecord) :=
  collect_rewards ← allocate_proportional collect_scores (collect_pool pools);
  store_rewards ← allocate_proportional storage_scores (store_pool pools);
  m ← merge_reward_component ∅ epoch_id collect_rewards ComponentCollect;
  merge_reward_component m epoch_id store_rewards ComponentStore.

(** The player, verify and propose payments on top of it. *)
Definition pay_all (epoch_id : EpochId) (local : NodeId) (local_recipient : option string)
    (m : gmap NodeId RewardRecord) (pools : ServiceRewardPools) (verified_total : Amount)
    (credits : gmap string Z) (attestation_count : Z) : option (gmap NodeId RewardRecord) :=
  let m := stamp_local local local_recipient m in
  m ← pay_player epoch_id local local_recipient m verified_total;
  m ← pay_verify epoch_id local local_recipient m credits (verify_pool pools) attestation_count;
  pay_propose epoch_id local local_recipient m (propose_pool pools).

Definition final_records (m : gmap NodeId RewardRecord) : list RewardRecord :=
  settle_net_reward <$> sort_by_key record_key (bt_values m).

Definition compute_local_epoch_rewards (store : option DB) (config : NodeConfig) (src : EpochSources)
    (epoch_id : EpochId) : outcome NodeRewardError EpochRewardComputation :=
  do? aggregation <- map_err RewardAggregation (es_aggregation src);
  do? book <- map_err RewardStorage (es_book src);
  do? ticks <- es_ticks src;
  let tick_records := ticks ≫= pt_records in
  do? player_block_count <- or_panic (sum_checked 64 (pt_completed_reward_block_count <$> ticks));
  do? player_reward_pool <- or_panic (sum_checked 128 (pb_block_reward <$> tick_records));
  do? local_player_weight_units <- or_panic (sum_checked 128 (pb_player_weight_units <$> tick_records));
  do? total_network_weight_units <-
    or_panic (sum_checked 128 (pb_total_network_weight_units <$> tick_records));
  let verified_sessions := verified_session_ids_for_epoch (es_sessions src) (es_attestations src)
    (es_settled src) (es_local_account src) epoch_id in
  let '(verified_total, pending_total) := player_totals verified_sessions ticks in
  let verified_block_count := if bool_decide (verified_sessions ≠ ∅) then player_block_count else 0 in
  let groups := ec_groups aggregation in
  do? total_gvs_units <- or_panic (sum_checked 128
    ((λ g, reward_units_from_gvs (gvs_microunits (eg_aggregate g))) <$> groups));
  do? credits <- or_panic (load_witness_credits (es_sessions src) (es_attestations src)
    (es_chain_credits src) epoch_id);
  do? pools <- or_panic (service_reward_pools_for_epoch (nc_reward config) (nc_capabilities config)
    verified_block_count total_gvs_units
    (bool_decide (Exists (λ r, sp_epoch_id r = epoch_id) (bt_values (payloads book))))
    (bool_decide (groups ≠ [])) (bool_decide (credits ≠ ∅)));
  do? collect_scores <- or_panic (collect_collect_scores groups);
  do? storage_scores <- or_panic (storage_scores_of book epoch_id);
  do? m <- or_panic (service_reward_map epoch_id collect_scores storage_scores pools);
  do? local <- map_err RewardConfigError (node_id config);
  do? m <- or_panic (pay_all epoch_id local (es_local_recipient src) m pools verified_total credits
    (local_witness_attestation_count config (es_credentials src) epoch_id));
  let records := final_records m in
  do? reward_root <- reward_record_root records;
  do? total_distributed <- or_panic (sum_checked 128 (net_reward <$> records));
  let local_weight := if 0 <? verified_total then local_player_weight_units else 0 in
  let entry r := {|
    re_node_id_hex := hex_32 (rw_node_id r);
    re_player_block_count := if bool_decide (rw_node_id r = local) then verified_block_count else 0;
    re_player_weight_units := if bool_decide (rw_node_id r = local) then local_weight else 0;
    re_player_reward_units := if bool_decide (rw_node_id r = local) then verified_total else 0;
    re_collect_score_units := default 0 (collect_scores !! rw_node_id r);
    re_storage_score_units := default 0 (storage_scores !! rw_node_id r);
    re_reward := r |} in
  Ok {| rc_artifact := {|
          ra_epoch_id := epoch_id;
          ra_reward_block_secs := effective_reward_block_secs store config;
          ra_player_block_reward := effective_player_block_reward_of store config;
          ra_reward_adjustment_period_blocks := reward_adjustment_period_blocks (nc_reward config);
          ra_target_network_weight_units := effective_target_network_weight_units store config;
          ra_reward_adjustment_cap_bps := effective_reward_adjustment_cap_bps store config;
          ra_player_reward_block_count := verified_block_count;
          ra_player_reward_pool := player_reward_pool;
          ra_local_player_weight_units := local_weight;
          ra_total_network_weight_units := total_network_weight_units;
          ra_local_player_reward_total := verified_total;
          ra_pending_player_reward_total := pending_total;
          ra_total_gvs_units := total_gvs_units;
          ra_collect_pool := collect_pool pools; ra_store_pool := store_pool pools;
          ra_verify_pool := verify_pool pools; ra_propose_pool := propose_pool pools;
          ra_total_distributed := total_distributed;
          ra_reward_count := Z.of_nat (length records);
          ra_reward_root_hex := hex_32 reward_root;
          ra_records := entry <$> records |};
        rc_records := records |}.
End Compute.

(** * Properties *)

(** ** What a reward map pays *)

Definition gross (r : RewardRecord) : Z :=
  player_reward r + collect_reward r + store_reward r + verify_reward r + propose_reward r.

Definition components_ok (r : RewardRecord) : Prop :=
  0 <= player_reward r ∧ 0 <= collect_reward r ∧ 0 <= store_reward r ∧ 0 <= verify_reward r ∧
  0 <= propose_reward r ∧ slash_debit r = 0.

Definition map_ok (m : gmap NodeId RewardRecord) : Prop := ∀ n r, m !! n = Some r → components_ok r.
Definition map_total (m : gmap NodeId RewardRecord) : Z := msum (λ _ r, gross r) m.

Lemma gross_nonneg r : components_ok r → 0 <= gross r.
Proof. unfold components_ok, gross. lia. Qed.

Lemma map_total_nonneg m : map_ok m → 0 <= map_total m.
Proof. intros Hm. apply msum_nonneg. intros n r Hr. eapply gross_nonneg, Hm, Hr. Qed.

Lemma entry_ok m e n : map_ok m → components_ok (default (empty_reward_record e n) (m !! n)).
Proof.
  intros Hm. destruct (m !! n) as [r|] eqn:Hr; simpl; [by eapply Hm|]. unfold components_ok. simpl. lia.
Qed.

Lemma entry_le_total m e n : map_ok m → gross (default (empty_reward_record e n) (m !! n)) <= map_total m.
Proof.
  intros Hm. destruct (m !! n) as [r|] eqn:Hr; simpl.
  - apply (msum_lookup_le (λ _ r, gross r) m n r); [|done].
    intros k v Hk. eapply gross_nonneg, Hm, Hk.
  - unfold gross. simpl. by apply map_total_nonneg.
Qed.

(** An update that adds [x] to the record of [n], which is created if it is missing. *)
Lemma update_total m e n r x :
  map_ok m → components_ok r → gross r = gross (default (empty_reward_record e n) (m !! n)) + x →
  map_ok (<[n := r]> m) ∧ map_total (<[n := r]> m) = map_total m + x.
Proof.
  intros Hm Hr Hg. split.
  - intros k v. destruct (decide (n = k)) as [->|Hne].
    + rewrite lookup_insert_eq. by intros [= <-].
    + rewrite lookup_insert_ne by done. apply Hm.
  - unfold map_total in *. destruct (m !! n) as [r0|] eqn:Hn; simpl in Hg.
    + rewrite (msum_insert_Some _ _ _ _ _ Hn). lia.
    + rewrite msum_insert_None by done. unfold gross at 2 in Hg. simpl in Hg. lia.
Qed.

(** The record of a node, stamped with an address or not: its amounts are within the
    total, and adding [x] to one of them adds [x] to the total. *)
Lemma record_for_node_credit m e n recipient :
  map_ok m →
  let r := reward_record_for_node m e n recipient in
  components_ok r ∧ gross r <= map_total m ∧
  ∀ r' x, components_ok r' → gross r' = gross r + x →
    map_ok (<[n := r']> m) ∧ map_total (<[n := r']> m) = map_total m + x.
Proof.
  intros Hm r.
  assert (gross r = gross (default (empty_reward_record e n) (m !! n)) ∧
    (components_ok (default (empty_reward_record e n) (m !! n)) → components_ok r)) as [Hg Hok].
  { unfold r, reward_record_for_node. destruct recipient; [case_bool_decide|]; done. }
  split_and!.
  - apply Hok, entry_ok, Hm.
  - rewrite Hg. by apply entry_le_total.
  - intros r' x Hr' Hx. apply (update_total _ e); [done..|lia].
Qed.

Lemma stamp_local_total local address m :
  map_ok m → map_ok (stamp_local local address m) ∧ map_total (stamp_local local address m) = map_total m.
Proof.
  intros Hm. destruct address as [s|]; [|done]. simpl. split.
  - intros n r. rewrite lookup_fmap, fmap_Some. intros (r0 & Hr0 & ->).
    specialize (Hm n r0 Hr0). by case_bool_decide.
  - unfold map_total. rewrite msum_fmap. apply msum_ext. intros n r _. by case_bool_decide.
Qed.

Section PaymentProofs.
Context `{B : BuildMode} (epoch_id : EpochId) (local : NodeId) (local_recipient : option string).
Implicit Types m : gmap NodeId RewardRecord.

Lemma pay_player_total m x :
  map_ok m → 0 <= x → map_total m + x < 2 ^ 128 →
  ∃ m', pay_player epoch_id local local_recipient m x = Some m' ∧ map_ok m' ∧
    map_total m' = map_total m + x.
Proof.
  intros Hm Hx Hlt. unfold pay_player.
  destruct (Z.ltb_spec 0 x) as [Hpos|Hz]; [|exists m; split_and!; [done..|lia]].
  destruct (record_for_node_credit m epoch_id local local_recipient Hm) as (Hok & Hle & Hadd).
  rewrite add_exact by (unfold components_ok, gross in *; lia). simpl. eexists. split; [reflexivity|].
  apply Hadd; unfold components_ok, gross in *; simpl in *; lia.
Qed.

Lemma pay_propose_total m x :
  map_ok m → 0 <= x → map_total m + x < 2 ^ 128 →
  ∃ m', pay_propose epoch_id local local_recipient m x = Some m' ∧ map_ok m' ∧
    map_total m' = map_total m + x.
Proof.
  intros Hm Hx Hlt. unfold pay_propose.
  destruct (Z.ltb_spec 0 x) as [Hpos|Hz]; [|exists m; split_and!; [done..|lia]].
  destruct (record_for_node_credit m epoch_id local local_recipient Hm) as (Hok & Hle & Hadd).
  rewrite add_exact by (unfold components_ok, gross in *; lia). simpl. eexists. split; [reflexivity|].
  apply Hadd; unfold components_ok, gross in *; simpl in *; lia.
Qed.

Lemma pay_witness_total m s x :
  map_ok m → 0 <= x → map_total m + x < 2 ^ 128 →
  map_ok (pay_witness epoch_id local local_recipient m (s, x)) ∧
  map_total (pay_witness epoch_id local local_recipient m (s, x)) = map_total m + x.
Proof.
  intros Hm Hx Hlt. unfold pay_witness.
  set (n := if bool_decide (local_recipient = Some s) then local else witness_node_id s).
  destruct (record_for_node_credit m epoch_id n (Some s) Hm) as (Hok & Hle & Hadd).
  rewrite saturating_add_exact by (unfold components_ok, gross in *; lia).
  apply Hadd; unfold components_ok, gross in *; simpl in *; lia.
Qed.

#[local] Arguments pay_witness : simpl never.

Lemma pay_witnesses_total l m :
  map_ok m → Forall (λ e, 0 <= e.2) l → map_total m + lsum snd l < 2 ^ 128 →
  map_ok (foldl (pay_witness epoch_id local local_recipient) m l) ∧
  map_total (foldl (pay_witness epoch_id local local_recipient) m l) = map_total m + lsum snd l.
Proof.
  revert m. induction l as [|[s x] l IH]; intros m Hm Hl Hlt; simpl in *; [split; [done|lia]|].
  apply Forall_cons in Hl as [Hx Hl]. simpl in Hx.
  assert (0 <= lsum snd l).
  { apply lsum_nonneg. intros y Hy. rewrite Forall_forall in Hl. by apply Hl. }
  destruct (pay_witness_total m s x Hm Hx ltac:(lia)) as [Hok Ht].
  destruct (IH (pay_witness epoch_id local local_recipient m (s, x)) Hok Hl ltac:(lia)) as [Hok' Ht']. split; [done|]. lia.
Qed.

(** What the verify pool pays: the credited witnesses share it, or this node gets it for
    its own attestations. *)
Definition verify_paid (credits : gmap string Z) (pool attestation_count : Z) : Z :=
  if decide (credits = ∅) then if 0 <? attestation_count then pool else 0
  else if 0 <? msum (λ _ w, w) credits then pool else 0.

Definition credits_fit (credits : gmap string Z) (pool : Z) : Prop :=
  msum (λ _ w, w) credits < 2 ^ 64 ∧ ∀ k w, credits !! k = Some w → 0 <= w ∧ pool * w < 2 ^ 128.

Lemma lsum_bt_iter {K V} `{Countable K, Ord K} (f : K → V → Z) (m : gmap K V) :
  lsum (λ kv, f kv.1 kv.2) (bt_iter m) = msum f m.
Proof. by rewrite bt_iter_perm, msum_list. Qed.

Lemma msum_zero {K V} `{Countable K} (m : gmap K V) : msum (λ _ x, x) ((λ _, 0) <$> m) = 0.
Proof.
  rewrite msum_fmap, msum_list. induction (map_to_list m); simpl; lia.
Qed.

Lemma allocate_witness_paid credits pool :
  credits ≠ ∅ → 0 <= pool < 2 ^ 128 → credits_fit credits pool →
  ∃ a, allocate_witness_rewards credits pool = Some a ∧ (∀ k x, a !! k = Some x → 0 <= x) ∧
    msum (λ _ x, x) a = if 0 <? msum (λ _ w, w) credits then pool else 0.
Proof.
  intros Hne Hp [Hlt Hw].
  assert (0 <= msum (λ _ w, w) credits) as Hnn by (apply msum_nonneg; intros k w Hk; by destruct (Hw k w Hk)).
  destruct (Z.ltb_spec 0 (msum (λ _ w, w) credits)) as [Hpos|Hz]; [destruct (decide (pool = 0)) as [->|Hpn]|].
  2: { destruct (allocate_witness_rewards_shape credits pool) as (ws & Ha & Hs); [lia|lia|done|].
       rewrite Ha. eexists. split_and!; [done| |done]. intros k x Hx.
       assert (is_Some (credits !! k)) as [w Hk].
       { apply elem_of_dom. rewrite <- (allocation_dom pool (msum (λ _ w, w) credits) ws credits).
         by apply elem_of_dom_2 in Hx. }
       destruct (Hw k w Hk) as [Hw0 _].
       destruct (allocation_lookup pool (msum (λ _ w, w) credits) ws credits k w Hk) as (y & Hy & Hb).
       assert (0 <= pool * w / msum (λ _ w, w) credits) by (apply Z.div_pos; nia). simplify_eq. lia. }
  all: unfold allocate_witness_rewards; rewrite saturating_fold;
    [|done|intros w (kw & -> & Hkw)%list_elem_of_fmap; destruct kw as [k w];
       apply elem_of_bt_iter in Hkw; by destruct (Hw _ _ Hkw)
     |rewrite lsum_bt_values; unfold id; lia].
  all: rewrite lsum_bt_values; unfold id.
  2: rewrite (proj2 (Z.eqb_eq (0 + msum (λ _ v, v) credits) 0)) by lia; rewrite orb_true_r.
  all: exists ((λ _, 0) <$> credits); split_and!; [reflexivity| |apply msum_zero];
    intros k x; rewrite lookup_fmap, fmap_Some; by intros (? & _ & ->).
Qed.

Lemma pay_verify_total m credits pool count :
  map_ok m → 0 <= pool → credits_fit credits pool → map_total m + pool < 2 ^ 128 →
  ∃ m', pay_verify epoch_id local local_recipient m credits pool count = Some m' ∧ map_ok m' ∧
    map_total m' = map_total m + verify_paid credits pool count.
Proof.
  intros Hm Hp Hfit Hlt. pose proof (map_total_nonneg m Hm). unfold pay_verify, verify_paid.
  case_bool_decide as Hc; [rewrite decide_True by done|rewrite decide_False by done]; simpl.
  - destruct (Z.ltb_spec 0 pool), (Z.ltb_spec 0 count); simpl;
      try (exists m; split_and!; [done..|lia]).
    destruct (record_for_node_credit m epoch_id local local_recipient Hm) as (Hok & Hle & Hadd).
    rewrite add_exact by (unfold components_ok, gross in *; lia). simpl. eexists. split; [reflexivity|].
    apply Hadd; unfold components_ok, gross in *; simpl in *; lia.
  - destruct (allocate_witness_paid credits pool Hc ltac:(lia) Hfit) as (a & -> & Ha & Hs). simpl.
    assert (lsum snd (bt_iter a) = msum (λ _ x, x) a) as Hsum by apply (lsum_bt_iter (λ _ x, x)).
    destruct (pay_witnesses_total (bt_iter a) m Hm) as [Hok Ht].
    + rewrite Forall_forall. intros [k x] Hkx%elem_of_bt_iter. by apply (Ha k).
    + rewrite Hsum, Hs. destruct (0 <? _); lia.
    + eexists. split_and!; [reflexivity|exact Hok|].
      etransitivity; [exact Ht|]. by rewrite Hsum, Hs.
Qed.
End PaymentProofs.

Section ServiceProofs.
Context `{B : BuildMode}.
Implicit Types m : gmap NodeId RewardRecord.

Lemma add_component_credit (component : RewardComponent) r x :
  components_ok r → 0 <= x → gross r + x < 2 ^ 128 →
  ∃ r', add_component component r x = Some r' ∧ components_ok r' ∧ gross r' = gross r + x.
Proof.
  unfold components_ok, gross. intros Hr Hx Hlt.
  destruct component; simpl; rewrite add_exact by lia; simpl; eexists; (split; [reflexivity|]); simpl; lia.
Qed.

Lemma merge_components_total (e : EpochId) (component : RewardComponent) l m :
  map_ok m → Forall (λ kx, 0 <= kx.2) l → map_total m + lsum snd l < 2 ^ 128 →
  ∃ m', merge_components e component l m = Some m' ∧ map_ok m' ∧
    map_total m' = map_total m + lsum snd l.
Proof.
  revert m. induction l as [|[n x] l IH]; intros m Hm Hl Hlt.
  { exists m. simpl. split_and!; [done..|lia]. }
  apply Forall_cons in Hl as [Hx Hl]. simpl in Hx, Hlt. cbn [merge_components].
  assert (0 <= lsum snd l).
  { apply lsum_nonneg. intros y Hy. rewrite Forall_forall in Hl. by apply Hl. }
  pose proof (entry_le_total m e n Hm).
  destruct (add_component_credit component (default (empty_reward_record e n) (m !! n)) x)
    as (r' & -> & Hr' & Hg); [by apply entry_ok|done|lia|]. simpl.
  destruct (update_total m e n r' x Hm Hr' Hg) as [Hok Ht].
  destruct (IH (<[n := r']> m) Hok Hl ltac:(lia)) as (m' & Hm' & Hok' & Ht').
  exists m'. split_and!; [done..|lia].
Qed.

(** What the allocation of a pool pays: all of it, unless nobody has a score. *)
Definition pool_paid (scores : gmap NodeId Z) (pool : Z) : Z :=
  if 0 <? msum (λ _ w, w) scores then pool else 0.

Definition scores_fit (scores : gmap NodeId Z) (pool : Z) : Prop :=
  msum (λ _ w, w) scores < 2 ^ 128 ∧ ∀ k w, scores !! k = Some w → 0 <= w ∧ pool * w < 2 ^ 128.

Lemma allocate_paid scores pool :
  0 <= pool < 2 ^ 128 → scores_fit scores pool →
  ∃ a, allocate_proportional scores pool = Some a ∧ (∀ k x, a !! k = Some x → 0 <= x) ∧
    msum (λ _ x, x) a = pool_paid scores pool.
Proof.
  intros Hp [Hlt Hw]. unfold pool_paid.
  assert (0 <= msum (λ _ w, w) scores) as Hnn by (apply msum_nonneg; intros k w Hk; by destruct (Hw k w Hk)).
  destruct (decide (pool = 0)) as [->|Hpn].
  { exists ∅. split_and!; [done|by intros ? ?|]. rewrite msum_empty. by destruct (0 <? _). }
  destruct (Z.ltb_spec 0 (msum (λ _ w, w) scores)) as [Hpos|Hz].
  - destruct (allocate_proportional_shape scores pool) as (ws & Ha & Hs); [lia|lia|done|].
    rewrite Ha. eexists. split_and!; [done| |done]. intros k x Hx.
    assert (is_Some (scores !! k)) as [w Hk].
    { apply elem_of_dom. rewrite <- (allocation_dom pool (msum (λ _ w, w) scores) ws scores).
      by apply elem_of_dom_2 in Hx. }
    destruct (Hw k w Hk) as [Hw0 _].
    destruct (allocation_lookup pool (msum (λ _ w, w) scores) ws scores k w Hk) as (y & Hy & Hb).
    assert (0 <= pool * w / msum (λ _ w, w) scores) by (apply Z.div_pos; nia). simplify_eq. lia.
  - exists ∅. split_and!; [|by intros ? ?|apply msum_empty]. unfold allocate_proportional.
    rewrite (proj2 (Z.eqb_neq pool 0)) by done. simpl. case_bool_decide; [done|].
    assert (lsum id (bt_values scores) = msum (λ _ w, w) scores) as Hsum by apply lsum_bt_values.
    rewrite sum_exact; [|intros w (kw & -> & Hkw)%list_elem_of_fmap|rewrite Hsum; lia].
    + simpl. rewrite Hsum. by rewrite (proj2 (Z.eqb_eq _ 0)) by lia.
    + destruct kw as [k w]. apply elem_of_bt_iter in Hkw. by destruct (Hw _ _ Hkw).
Qed.

Lemma merge_total (e : EpochId) (component : RewardComponent) (a : gmap NodeId Z) m :
  map_ok m → (∀ k x, a !! k = Some x → 0 <= x) → map_total m + msum (λ _ x, x) a < 2 ^ 128 →
  ∃ m', merge_reward_component m e a component = Some m' ∧ map_ok m' ∧
    map_total m' = map_total m + msum (λ _ x, x) a.
Proof.
  intros Hm Ha Hlt. rewrite <- (lsum_bt_iter (λ _ x, x)) in Hlt |- *. unfold merge_reward_component.
  apply merge_components_total; [done| |done].
  rewrite Forall_forall. intros [k x] Hkx%elem_of_bt_iter. by apply (Ha k).
Qed.

(** The pools of an epoch are non-negative. *)
Definition pools_ok (pools : ServiceRewardPools) : Prop :=
  0 <= collect_pool pools ∧ 0 <= store_pool pools ∧ 0 <= verify_pool pools ∧ 0 <= propose_pool pools.

(** The amounts of an epoch fit their widths. *)
Record epoch_fits (collect_scores storage_scores : gmap NodeId Z) (credits : gmap string Z)
    (pools : ServiceRewardPools) (verified_total : Z) : Prop := {
  ef_pools : pools_ok pools;
  ef_player : 0 <= verified_total;
  ef_collect : scores_fit collect_scores (collect_pool pools);
  ef_store : scores_fit storage_scores (store_pool pools);
  ef_credits : credits_fit credits (verify_pool pools);
  ef_budget : verified_total + collect_pool pools + store_pool pools + verify_pool pools
              + propose_pool pools < 2 ^ 128;
}.

(** The amount an epoch pays out. *)
Definition epoch_paid (collect_scores storage_scores : gmap NodeId Z) (credits : gmap string Z)
    (pools : ServiceRewardPools) (verified_total attestation_count : Z) : Z :=
  verified_total + pool_paid collect_scores (collect_pool pools)
  + pool_paid storage_scores (store_pool pools)
  + verify_paid credits (verify_pool pools) attestation_count + propose_pool pools.

Lemma reward_map_total (e : EpochId) (local : NodeId) (recipient : option string) cs ss credits pools vt count :
  epoch_fits cs ss credits pools vt →
  ∃ m m', service_reward_map e cs ss pools = Some m ∧
    pay_all e local recipient m pools vt credits count = Some m' ∧ map_ok m' ∧
    map_total m' = epoch_paid cs ss credits pools vt count.
Proof.
  intros [(Hp1 & Hp2 & Hp3 & Hp4) Hvt Hc Hs Hcr Hb]. unfold service_reward_map, epoch_paid.
  assert (∀ scores pool, 0 <= pool → 0 <= pool_paid scores pool <= pool) as Hpaid
    by (intros; unfold pool_paid; destruct (0 <? _); lia).
  pose proof (Hpaid cs _ Hp1) as Hpc. pose proof (Hpaid ss _ Hp2) as Hps.
  assert (0 <= verify_paid credits (verify_pool pools) count <= verify_pool pools) as Hpv
    by (unfold verify_paid; repeat case_decide; destruct (0 <? _); lia).
  destruct (allocate_paid cs (collect_pool pools)) as (ac & -> & Hac & Sc); [lia|done|]. simpl.
  destruct (allocate_paid ss (store_pool pools)) as (ast & -> & Has & Ss); [lia|done|]. simpl.
  assert (map_ok ∅ ∧ map_total ∅ = 0) as [Hok0 Ht0] by (split; [by intros ? ?|apply msum_empty]).
  destruct (merge_total e ComponentCollect ac ∅ Hok0 Hac ltac:(lia)) as (m1 & -> & Hok1 & Ht1). simpl.
  destruct (merge_total e ComponentStore ast m1 Hok1 Has ltac:(lia)) as (m2 & Hm2 & Hok2 & Ht2).
  exists m2. destruct (stamp_local_total local recipient m2 Hok2) as [Hok3 Ht3]. unfold pay_all.
  destruct (pay_player_total e local recipient (stamp_local local recipient m2) vt Hok3 Hvt ltac:(lia))
    as (m4 & -> & Hok4 & Ht4). simpl.
  destruct (pay_verify_total e local recipient m4 credits (verify_pool pools) count Hok4 Hp3 Hcr ltac:(lia))
    as (m5 & -> & Hok5 & Ht5). simpl.
  destruct (pay_propose_total e local recipient m5 (propose_pool pools) Hok5 Hp4 ltac:(lia))
    as (m6 & Hm6 & Hok6 & Ht6).
  exists m6. split_and!; [done..|]. lia.
Qed.
End ServiceProofs.

(** ** The whole computation *)

(** A successful computation, taken apart. *)
Record epoch_parts `{BuildMode} `{External} `{PipelineEncoding} `{Bech32} (config : NodeConfig)
    (src : EpochSources) (e : EpochId) (comp : EpochRewardComputation)
    (agg : EpochAggregationComputation) (book : LocalRetentionBook)
    (ticks : list PlayerRewardTickArtifact) (cs ss : gmap NodeId Z) (credits : gmap string Z)
    (pools : ServiceRewardPools) (local : NodeId) (m m' : gmap NodeId RewardRecord) : Prop := {
  ep_agg : es_aggregation src = Ok agg;
  ep_book : es_book src = Ok book;
  ep_ticks : es_ticks src = Ok ticks;
  ep_local : node_id config = Ok local;
  ep_totals : player_totals (verified_session_ids_for_epoch (es_sessions src) (es_attestations src)
    (es_settled src) (es_local_account src) e) ticks
    = (ra_local_player_reward_total (rc_artifact comp), ra_pending_player_reward_total (rc_artifact comp));
  ep_collect : collect_collect_scores (ec_groups agg) = Some cs;
  ep_store : storage_scores_of book e = Some ss;
  ep_credits : load_witness_credits (es_sessions src) (es_attestations src) (es_chain_credits src) e
    = Some credits;
  ep_pools : pools = {| collect_pool := ra_collect_pool (rc_artifact comp);
    store_pool := ra_store_pool (rc_artifact comp); verify_pool := ra_verify_pool (rc_artifact comp);
    propose_pool := ra_propose_pool (rc_artifact comp) |};
  ep_service : service_reward_map e cs ss pools = Some m;
  ep_pay : pay_all e local (es_local_recipient src) m pools
    (ra_local_player_reward_total (rc_artifact comp)) credits
    (local_witness_attestation_count config (es_credentials src) e) = Some m';
  ep_records : rc_records comp = final_records m';
  ep_sum : sum_checked 128 (net_reward <$> final_records m')
    = Some (ra_total_distributed (rc_artifact comp));
  ep_blocks : verified_session_ids_for_epoch (es_sessions src) (es_attestations src)
    (es_settled src) (es_local_account src) e = ∅ → ra_player_reward_block_count (rc_artifact comp) = 0;
}.

Lemma or_panic_ok {E A} (o : option A) (a : A) : or_panic (E:=E) o = Ok a ↔ o = Some a.
Proof. destruct o; simpl; naive_solver. Qed.

Lemma outcome_bind_ok {E A C} (r : outcome E A) (k : A → outcome E C) c :
  outcome_bind r k = Ok c ↔ ∃ a, r = Ok a ∧ k a = Ok c.
Proof. destruct r; simpl; naive_solver. Qed.

Lemma map_err_ok {E F A} (f : E → F) (r : outcome E A) a : map_err f r = Ok a ↔ r = Ok a.
Proof. destruct r; simpl; naive_solver. Qed.

Section WholeEpoch.
Context `{B : BuildMode} `{X : External} `{PE : PipelineEncoding} `{BC : Bech32}.
Context {DB : Type} `{PS : ProtocolStore DB}.
Implicit Types (store : option DB) (config : NodeConfig) (src : EpochSources) (e : EpochId).

Lemma compute_parts store config src e comp :
  compute_local_epoch_rewards store config src e = Ok comp →
  ∃ agg book ticks cs ss credits pools local m m',
    epoch_parts config src e comp agg book ticks cs ss credits pools local m m'.
Proof.
  unfold compute_local_epoch_rewards. intros (agg & Hagg & H)%outcome_bind_ok.
  apply outcome_bind_ok in H as (book & Hbook & H). apply outcome_bind_ok in H as (ticks & Hticks & H).
  do 4 apply outcome_bind_ok in H as (? & _ & H).
  destruct (player_totals _ ticks) as [vt pt] eqn:Htot.
  apply outcome_bind_ok in H as (gvs & _ & H). apply outcome_bind_ok in H as (credits & Hcr & H).
  apply outcome_bind_ok in H as (pools & _ & H). apply outcome_bind_ok in H as (cs & Hcs & H).
  apply outcome_bind_ok in H as (ss & Hss & H). apply outcome_bind_ok in H as (m & Hm & H).
  apply outcome_bind_ok in H as (local & Hlocal & H). apply outcome_bind_ok in H as (m' & Hm' & H).
  apply outcome_bind_ok in H as (rt & _ & H). apply outcome_bind_ok in H as (sum & Hsum & H).
  apply map_err_ok in Hagg, Hbook, Hlocal. apply or_panic_ok in Hcr, Hcs, Hss, Hm, Hm', Hsum.
  injection H as <-. exists agg, book, ticks, cs, ss, credits, pools, local, m, m'.
  split; simpl; try done; [by destruct pools|]. intros Hempty. by rewrite bool_decide_false by tauto.
Qed.

Lemma settle_net_exact r :
  components_ok r → gross r < 2 ^ 128 → net_reward (settle_net_reward r) = gross r.
Proof.
  unfold components_ok, gross, settle_net_reward. intros Hr Hlt. simpl.
  unfold saturating_add, saturating_sub, umax. lia.
Qed.

Lemma final_records_total m :
  map_ok m → map_total m < 2 ^ 128 →
  Forall (λ r, 0 <= net_reward r) (final_records m) ∧
  lsum net_reward (final_records m) = map_total m.
Proof.
  intros Hm Hlt.
  assert (∀ r, r ∈ bt_values m → components_ok r ∧ gross r <= map_total m) as Hr.
  { intros r ([n r'] & -> & Hin%elem_of_bt_iter)%list_elem_of_fmap. simpl.
    pose proof (entry_le_total m 0 n Hm) as Hle. rewrite Hin in Hle. split; [by eapply Hm|done]. }
  unfold final_records. split.
  - apply Forall_fmap. rewrite sort_by_key_perm. rewrite Forall_forall. intros r Hin.
    destruct (Hr r Hin) as [Hok Hle]. unfold compose. rewrite settle_net_exact by (done || lia).
    by apply gross_nonneg.
  - rewrite lsum_fmap, sort_by_key_perm. unfold compose, map_total. rewrite <- lsum_bt_values.
    apply lsum_ext. intros r Hin. destruct (Hr r Hin) as [Hok Hle]. apply settle_net_exact; [done|lia].
Qed.

(** C16: An epoch pays out its budget exactly. When the amounts fit 128 bits, the net rewards of
    the records sum to the player rewards of verified sessions plus the collect, store
    and verify pools (each only if somebody earned it) plus the propose pool: nothing
    is lost in the allocations, nothing is paid twice, and the total the artifact states
    is that sum. *)
Theorem epoch_pays_budget store config src e comp :
  compute_local_epoch_rewards store config src e = Ok comp →
  ∃ agg book ticks cs ss credits pools local m m',
    epoch_parts config src e comp agg book ticks cs ss credits pools local m m' ∧
    (epoch_fits cs ss credits pools (ra_local_player_reward_total (rc_artifact comp)) →
     let count := local_witness_attestation_count config (es_credentials src) e in
     let total := ra_local_player_reward_total (rc_artifact comp) in
     lsum net_reward (rc_records comp) = epoch_paid cs ss credits pools total count ∧
     ra_total_distributed (rc_artifact comp) = epoch_paid cs ss credits pools total count).
Proof.
  intros (agg & book & ticks & cs & ss & credits & pools & local & m & m' & Hp)%compute_parts.
  exists agg, book, ticks, cs, ss, credits, pools, local, m, m'. split; [done|]. intros Hfit. cbv zeta.
  destruct (reward_map_total e local (es_local_recipient src) cs ss credits pools
    (ra_local_player_reward_total (rc_artifact comp))
    (local_witness_attestation_count config (es_credentials src) e) Hfit) as (m1 & m2 & H1 & H2 & Hok & Ht).
  rewrite (ep_service _ _ _ _ _ _ _ _ _ _ _ _ _ _ Hp) in H1. injection H1 as <-.
  rewrite (ep_pay _ _ _ _ _ _ _ _ _ _ _ _ _ _ Hp) in H2. injection H2 as <-.
  rewrite (ep_records _ _ _ _ _ _ _ _ _ _ _ _ _ _ Hp).
  assert (map_total m' < 2 ^ 128) as Hlt.
  { rewrite Ht. destruct Hfit as [(? & ? & ? & ?) ? _ _ _ Hb]. unfold epoch_paid, pool_paid, verify_paid.
    repeat case_decide; repeat (destruct (0 <? _)); lia. }
  destruct (final_records_total m' Hok Hlt) as [Hnn Hs]. rewrite Hs. split; [done|].
  pose proof (ep_sum _ _ _ _ _ _ _ _ _ _ _ _ _ _ Hp) as Hsum.
  assert (lsum id (net_reward <$> final_records m') = map_total m') as Hid
    by (rewrite lsum_fmap; exact Hs).
  rewrite sum_exact in Hsum; [|intros x (r & -> & Hr)%list_elem_of_fmap|lia].
  - injection Hsum as <-. by rewrite Hid.
  - rewrite Forall_forall in Hnn. by apply Hnn.
Qed.

(** *** Play without a witness *)

(** No session of the epoch has settled on the chain or has an attestation that another
    account signed. *)
Definition isolated src e : Prop :=
  ∀ s, s ∈ es_sessions src → ps_epoch_id s = e →
    es_settled src (hex_32 (ps_session_id s)) = false ∧
    ∀ a, a ∈ es_attestations src → wa_session_id a = ps_session_id s →
      es_local_account src = Some (witness_address a).

Lemma isolated_unverified src e :
  isolated src e →
  verified_session_ids_for_epoch (es_sessions src) (es_attestations src) (es_settled src)
    (es_local_account src) e = ∅.
Proof.
  intros Hi. unfold verified_session_ids_for_epoch.
  assert (filter (λ s, ps_epoch_id s = e ∧ session_verified (es_attestations src) (es_settled src)
    (es_local_account src) s = true) (es_sessions src) = []) as ->; [|done].
  match goal with |- ?l = [] => destruct l as [|s l'] eqn:Hl; [done|] end.
  assert (s ∈ s :: l') as Hs by by left. rewrite <- Hl in Hs.
  apply list_elem_of_filter in Hs as [[He Hv] Hs]. destruct (Hi s Hs He) as [Hset Hatt].
  unfold session_verified in Hv. rewrite Hset in Hv. simpl in Hv.
  apply bool_decide_eq_true, Exists_exists in Hv as (a & Ha & Hid & Hne).
  destruct Hne. by apply Hatt.
Qed.

Lemma player_totals_unverified ticks : (player_totals ∅ ticks).1 = 0.
Proof.
  unfold player_totals. assert (∀ t, t.1 = 0 → (foldl (tick_totals ∅) t ticks).1 = 0) as H; [|by apply H].
  induction ticks as [|tick ticks IH]; intros t Ht; simpl; [done|]. apply IH. clear IH.
  unfold tick_totals.
  assert (∀ t, t.1 = 0 → (foldl (record_totals ∅) t (pt_records tick)).1 = 0) as Hf.
  { induction (pt_records tick) as [|r l IH]; intros t' Ht'; simpl; [done|]. apply IH. unfold record_totals.
    rewrite bool_decide_false by set_solver. by rewrite andb_false_r. }
  specialize (Hf t Ht). case_match; [|done]. by rewrite bool_decide_false by tauto.
Qed.

Definition no_player (m : gmap NodeId RewardRecord) : Prop :=
  ∀ n r, m !! n = Some r → player_reward r = 0.

Lemma no_player_insert m n r : no_player m → player_reward r = 0 → no_player (<[n := r]> m).
Proof.
  intros Hm Hr k v. destruct (decide (n = k)) as [->|Hne]; [rewrite lookup_insert_eq; naive_solver|].
  rewrite lookup_insert_ne by done. apply Hm.
Qed.

Lemma no_player_entry m e n recipient :
  no_player m → player_reward (reward_record_for_node m e n recipient) = 0.
Proof.
  intros Hm. assert (player_reward (default (empty_reward_record e n) (m !! n)) = 0) as H0.
  { destruct (m !! n) eqn:E; [by eapply Hm|done]. }
  unfold reward_record_for_node. destruct recipient; [case_bool_decide|]; done.
Qed.

Lemma no_player_merge e component (l : list (NodeId * Z)) m m' :
  no_player m → merge_components e component l m = Some m' → no_player m'.
Proof.
  revert m. induction l as [|[n x] l IH]; intros m Hm; simpl; [naive_solver|].
  intros (r & Hr & H)%bind_Some. eapply IH; [|exact H]. apply no_player_insert; [done|].
  pose proof (no_player_entry m e n None Hm) as H0. unfold reward_record_for_node in H0.
  destruct component; simpl in Hr; apply bind_Some in Hr as (? & _ & [= <-]); done.
Qed.

Lemma no_player_pay e local recipient m pools credits count m' :
  no_player m → pay_all e local recipient m pools 0 credits count = Some m' → no_player m'.
Proof.
  intros Hm. unfold pay_all. set (m1 := stamp_local local recipient m).
  assert (no_player m1) as Hm1.
  { unfold m1, stamp_local. destruct recipient; [|done]. intros n r.
    rewrite lookup_fmap, fmap_Some. intros (r0 & Hr0 & ->). case_bool_decide; exact (Hm n r0 Hr0). }
  clearbody m1. simpl. intros (m2 & H2 & H3)%bind_Some.
  assert (no_player m2) as Hm2.
  { unfold pay_verify in H2. destruct (negb _).
    - apply bind_Some in H2 as (a & _ & [= <-]). clear H3. generalize (bt_iter a). intros l.
      clear -Hm1. revert m1 Hm1. induction l as [|[s x] l IH]; intros m1 Hm1; [done|]. cbn [foldl]. apply IH.
      unfold pay_witness. apply no_player_insert; [done|]. by apply no_player_entry.
    - destruct (_ && _); [|by simplify_eq]. apply bind_Some in H2 as (x & _ & [= <-]).
      apply no_player_insert; [done|]. by apply no_player_entry. }
  unfold pay_propose in H3. destruct (0 <? _); [|by simplify_eq].
  apply bind_Some in H3 as (x & _ & [= <-]). apply no_player_insert; [done|]. by apply no_player_entry.
Qed.

(** An isolated node cannot pay itself for play: when no session of the epoch settled on
    the chain or was attested by another account, the epoch's rewards contain no player
    reward and count no player block, whatever the reward ticks recorded. *)
Theorem isolated_play_unpaid store config src e comp :
  compute_local_epoch_rewards store config src e = Ok comp → isolated src e →
  ra_local_player_reward_total (rc_artifact comp) = 0 ∧
  ra_player_reward_block_count (rc_artifact comp) = 0 ∧
  Forall (λ r, player_reward r = 0) (rc_records comp).
Proof.
  intros (agg & book & ticks & cs & ss & credits & pools & local & m & m' & Hp)%compute_parts Hi.
  pose proof (isolated_unverified src e Hi) as Hv.
  pose proof (ep_totals _ _ _ _ _ _ _ _ _ _ _ _ _ _ Hp) as Ht. rewrite Hv in Ht.
  pose proof (player_totals_unverified ticks) as H0. rewrite Ht in H0. simpl in H0.
  split_and!; [done|by apply (ep_blocks _ _ _ _ _ _ _ _ _ _ _ _ _ _ Hp)|].
  rewrite (ep_records _ _ _ _ _ _ _ _ _ _ _ _ _ _ Hp).
  pose proof (ep_pay _ _ _ _ _ _ _ _ _ _ _ _ _ _ Hp) as Hpay. rewrite H0 in Hpay.
  apply no_player_pay in Hpay.
  - unfold final_records. apply Forall_fmap. rewrite sort_by_key_perm. rewrite Forall_forall.
    intros r ([n r'] & -> & Hin%elem_of_bt_iter)%list_elem_of_fmap. exact (Hpay n r' Hin).
  - pose proof (ep_service _ _ _ _ _ _ _ _ _ _ _ _ _ _ Hp) as Hs. unfold service_reward_map in Hs.
    apply bind_Some in Hs as (ca & _ & Hs). apply bind_Some in Hs as (sa & _ & Hs).
    apply bind_Some in Hs as (m1 & Hm1 & Hm2). unfold merge_reward_component in *.
    eapply no_player_merge; [|exact Hm2]. eapply no_player_merge; [|exact Hm1]. by intros ? ?.
Qed.

(** *** The order of the records *)

Lemma sort_by_key_id {A K} `{OrdLaws K} (key : A → K) (l : list A) :
  StronglySorted (λ a b, leb (key a) (key b) = true) l → sort_by_key key l = l.
Proof.
  unfold sort_by_key, sort_by. induction 1 as [|x l Hs IH Hx]; [done|]. cbn [foldr]. rewrite IH.
  destruct l as [|y l]; [done|]. simpl. apply Forall_cons in Hx as [Hxy _]. by rewrite Hxy.
Qed.

Lemma collect_results_ok {E A C} (f : A → outcome E C) l l' :
  collect_results f l = Ok l' ↔ Forall2 (λ x y, f x = Ok y) l l'.
Proof.
  revert l'. induction l as [|x l IH]; intros l'; simpl.
  - split; [intros [= <-]; constructor|]. intros H. by apply Forall2_nil_inv_l in H as ->.
  - rewrite outcome_bind_ok. split.
    + intros (y & Hy & H). apply outcome_bind_ok in H as (ys & Hys & [= <-]). constructor; [done|].
      by apply IH.
    + intros H. apply Forall2_cons_inv_l in H as (y & ys & Hy & Hys & ->). exists y. split; [done|].
      apply outcome_bind_ok. exists ys. split; [by apply IH|done].
Qed.

(** The leaf of a record: the hash of its chain encoding for its recipient. *)
Definition record_leaf (r : RewardRecord) (leaf : Hash32) : Prop :=
  ∃ recipient json, chain_recipient r = Ok recipient ∧
    reward_record_to_chain_json r recipient = Ok json ∧ leaf = merkle_leaf_sha256 json.

Lemma reward_record_root_sorted records h :
  StronglySorted (λ a b, leb (record_key a) (record_key b) = true) records →
  reward_record_root records = Ok h →
  ∃ leaves, Forall2 record_leaf records leaves ∧ h = merkle_root leaves.
Proof.
  intros Hs. unfold reward_record_root. intros (wr & Hwr & H)%outcome_bind_ok.
  apply outcome_bind_ok in H as (leaves & Hl & [= <-]). apply collect_results_ok in Hwr.
  assert (Forall2 (λ r p, p.2 = r ∧ p.1 = record_key r ∧ chain_recipient r = Ok p.1.2) records wr) as Hwr'.
  { eapply Forall2_impl; [exact Hwr|]. intros r [[ep s] r'] Hr.
    apply outcome_bind_ok in Hr as (rec & Hrec & [= <- <- <-]). apply map_err_ok in Hrec.
    simpl. unfold record_key. by rewrite Hrec. }
  rewrite sort_by_key_id in Hl.
  - exists leaves. split; [|done]. apply collect_results_ok in Hl. clear -Hwr' Hl.
    revert leaves Hl. induction Hwr' as [|r e records wr (He & _ & Hrec) _ IH]; intros leaves Hl.
    { apply Forall2_nil_inv_l in Hl as ->. constructor. }
    apply Forall2_cons_inv_l in Hl as (leaf & ls & Hleaf & Hls & ->). constructor; [|by apply IH].
    apply outcome_bind_ok in Hleaf as (json & Hj & [= <-]). apply map_err_ok in Hj. subst r.
    by exists e.1.2, json.
  - clear -Hs Hwr'. induction Hwr' as [|r e records wr (He & Hk & _) Hf IH]; [constructor|].
    apply StronglySorted_inv in Hs as [Hs Hr]. constructor; [by apply IH|]. clear IH Hs.
    induction Hf as [|r' e' records wr (He' & Hk' & _) _ IH]; constructor.
    + apply Forall_cons in Hr as [Hr _]. by rewrite Hk, Hk'.
    + apply IH. by apply Forall_cons in Hr as [_ Hr].
Qed.

Lemma final_records_sorted m :
  StronglySorted (λ a b, leb (record_key a) (record_key b) = true) (final_records m).
Proof.
  unfold final_records. pose proof (sort_by_key_sorted record_key (bt_values m)) as Hs.
  induction Hs as [|r l _ IH Hr]; [constructor|]. simpl. constructor; [exact IH|].
  apply Forall_fmap. eapply Forall_impl; [exact Hr|]. done.
Qed.

(** The reward root commits to the records in the order they are returned: the
    records of an epoch are sorted by epoch and recipient, the key of the chain's index,
    and the root is the Merkle root of the hashes of their chain encodings in that very
    order. *)
Theorem reward_root_in_record_order store config src e comp :
  compute_local_epoch_rewards store config src e = Ok comp →
  StronglySorted (λ a b, leb (record_key a) (record_key b) = true) (rc_records comp) ∧
  ∃ leaves, Forall2 record_leaf (rc_records comp) leaves ∧
    ra_reward_root_hex (rc_artifact comp) = hex_32 (merkle_root leaves).
Proof.
  unfold compute_local_epoch_rewards. intros (agg & _ & H)%outcome_bind_ok.
  do 6 apply outcome_bind_ok in H as (? & _ & H). destruct (player_totals _ _) as [vt pt].
  do 8 apply outcome_bind_ok in H as (? & _ & H). apply outcome_bind_ok in H as (rt & Hrt & H).
  apply outcome_bind_ok in H as (? & _ & [= <-]). simpl. split; [apply final_records_sorted|].
  apply reward_record_root_sorted in Hrt as (leaves & Hl & ->); [|apply final_records_sorted].
  by exists leaves.
Qed.
(** *** The records of an epoch *)

(** Each record is filed under its node, and is of the epoch. *)
Definition map_filed e (m : gmap NodeId RewardRecord) : Prop :=
  ∀ n r, m !! n = Some r → rw_node_id r = n ∧ rw_epoch_id r = e.

Lemma filed_insert e m n r :
  map_filed e m → rw_node_id r = n ∧ rw_epoch_id r = e → map_filed e (<[n := r]> m).
Proof.
  intros Hm Hr k v. destruct (decide (n = k)) as [->|Hne]; [rewrite lookup_insert_eq; naive_solver|].
  rewrite lookup_insert_ne by done. apply Hm.
Qed.

Lemma filed_entry e m n recipient :
  map_filed e m → let r := reward_record_for_node m e n recipient in rw_node_id r = n ∧ rw_epoch_id r = e.
Proof.
  intros Hm. assert (let r := default (empty_reward_record e n) (m !! n) in rw_node_id r = n ∧ rw_epoch_id r = e).
  { destruct (m !! n) eqn:E; [by apply Hm|done]. }
  unfold reward_record_for_node. destruct recipient; [case_bool_decide|]; done.
Qed.

Lemma filed_merge e component (l : list (NodeId * Z)) m m' :
  map_filed e m → merge_components e component l m = Some m' → map_filed e m'.
Proof.
  revert m. induction l as [|[n x] l IH]; intros m Hm; simpl; [naive_solver|].
  intros (r & Hr & H)%bind_Some. eapply IH; [|exact H]. apply filed_insert; [done|].
  pose proof (filed_entry e m n None Hm) as H0. unfold reward_record_for_node in H0.
  destruct component; simpl in Hr; apply bind_Some in Hr as (? & _ & [= <-]); done.
Qed.

Lemma filed_pay e local recipient m pools total credits count m' :
  map_filed e m → pay_all e local recipient m pools total credits count = Some m' → map_filed e m'.
Proof.
  intros Hm. unfold pay_all. set (m1 := stamp_local local recipient m).
  assert (map_filed e m1) as Hm1.
  { unfold m1, stamp_local. destruct recipient; [|done]. intros n r.
    rewrite lookup_fmap, fmap_Some. intros (r0 & Hr0 & ->). case_bool_decide; exact (Hm n r0 Hr0). }
  clearbody m1. intros (m2 & H2 & H3)%bind_Some. apply bind_Some in H3 as (m3 & H3 & H4).
  assert (map_filed e m2) as Hm2.
  { unfold pay_player in H2. destruct (0 <? _); [|by simplify_eq]. apply bind_Some in H2 as (x & _ & [= <-]).
    apply filed_insert; [done|]. by apply filed_entry. }
  assert (map_filed e m3) as Hm3.
  { unfold pay_verify in H3. destruct (negb _).
    - apply bind_Some in H3 as (a & _ & [= <-]). clear H4 H2. generalize (bt_iter a). intros l.
      clear -Hm2. revert m2 Hm2. induction l as [|[s x] l IH]; intros m1 Hm1; [done|]. cbn [foldl]. apply IH.
      unfold pay_witness. apply filed_insert; [done|]. by apply filed_entry.
    - destruct (_ && _); [|by simplify_eq]. apply bind_Some in H3 as (x & _ & [= <-]).
      apply filed_insert; [done|]. by apply filed_entry. }
  unfold pay_propose in H4. destruct (0 <? _); [|by simplify_eq].
  apply bind_Some in H4 as (x & _ & [= <-]). apply filed_insert; [done|]. by apply filed_entry.
Qed.

Lemma filed_records e m :
  map_filed e m →
  Forall (λ r, rw_epoch_id r = e ∧ 0 <= net_reward r) (final_records m) ∧ NoDup (rw_node_id <$> final_records m).
Proof.
  intros Hm. unfold final_records. split.
  - apply Forall_fmap. rewrite sort_by_key_perm. rewrite Forall_forall.
    intros r ([n r'] & -> & Hin%elem_of_bt_iter)%list_elem_of_fmap. split; [exact (proj2 (Hm n r' Hin))|].
    unfold settle_net_reward. simpl. unfold saturating_sub. lia.
  - rewrite <- list_fmap_compose, sort_by_key_perm. unfold bt_values. rewrite <- list_fmap_compose.
    match goal with |- NoDup (?f <$> _) => replace (f <$> bt_iter m) with (fst <$> bt_iter m) end.
    2: { apply list_fmap_ext. intros i [n r] Hi. apply list_elem_of_lookup_2, elem_of_bt_iter in Hi.
         symmetry. exact (proj1 (Hm n r Hi)). }
    rewrite bt_iter_perm. apply NoDup_fst_map_to_list.
Qed.

(** The records a computation returns: one per node, all of the epoch, none of them negative, and
    the artifact lists them under their root. *)
Lemma computed_records store config src e comp :
  compute_local_epoch_rewards store config src e = Ok comp →
  re_reward <$> ra_records (rc_artifact comp) = rc_records comp ∧
  Forall (λ r, rw_epoch_id r = e ∧ 0 <= net_reward r) (rc_records comp) ∧
  NoDup (rw_node_id <$> rc_records comp) ∧
  ∃ leaves, Forall2 record_leaf (rc_records comp) leaves ∧
    reward_record_root (rc_records comp) = Ok (merkle_root leaves) ∧
    ra_reward_root_hex (rc_artifact comp) = hex_32 (merkle_root leaves).
Proof.
  intros Hc. pose proof Hc as (agg & book & ticks & cs & ss & credits & pools & local & m & m' & Hp)%compute_parts.
  rewrite (ep_records _ _ _ _ _ _ _ _ _ _ _ _ _ _ Hp).
  assert (map_filed e m') as Hm'.
  { eapply filed_pay; [|exact (ep_pay _ _ _ _ _ _ _ _ _ _ _ _ _ _ Hp)].
    pose proof (ep_service _ _ _ _ _ _ _ _ _ _ _ _ _ _ Hp) as Hs. unfold service_reward_map in Hs.
    apply bind_Some in Hs as (ca & _ & Hs). apply bind_Some in Hs as (sa & _ & Hs).
    apply bind_Some in Hs as (m1 & Hm1 & Hm2). unfold merge_reward_component in *.
    eapply filed_merge; [|exact Hm2]. eapply filed_merge; [|exact Hm1]. by intros ? ?. }
  destruct (filed_records e m' Hm') as [Hf Hn]. split_and!; [|done|done|].
  all: rewrite <- (ep_records _ _ _ _ _ _ _ _ _ _ _ _ _ _ Hp); clear -Hc; revert Hc.
  all: unfold compute_local_epoch_rewards; intros (agg & _ & H)%outcome_bind_ok.
  all: do 6 apply outcome_bind_ok in H as (? & _ & H); destruct (player_totals _ _) as [vt pt].
  all: do 8 apply outcome_bind_ok in H as (? & _ & H); apply outcome_bind_ok in H as (rt & Hrt & H).
  all: apply outcome_bind_ok in H as (? & _ & [= <-]); simpl.
  - rewrite <- list_fmap_compose. by apply list_fmap_id.
  - pose proof Hrt as (leaves & Hl & ->)%reward_record_root_sorted; [|apply final_records_sorted]. by exists leaves.
Qed.

End WholeEpoch.

(** ** An epoch with one rewarded block and two witnesses *)

Definition demo_aggregation : EpochAggregationComputation := {|
  ec_artifact := {| ea_epoch_id := 1; ea_aggregate_count := 0; ea_total_observation_count := 0;
    ea_deduped_observation_count := 0; ea_accepted_observation_count := 0;
    ea_aggregate_root_hex := ""; ea_records := [] |};
  ec_groups := [] |}.

Definition demo_session_id : Hash32 := replicate 32 5.

Definition demo_play_session : PlaySession := {|
  ps_session_id := demo_session_id; ps_node_address := []; ps_app_id := 730; ps_epoch_id := 1;
  ps_slot_id := 3; play_seconds := 3600; ps_collector_address := []; observation_cid := "cid";
  ps_observed_players := 3; ps_submitted_at_height := 0; session_signature := [] |}.

(** The artifacts of a 3600-second tick of the session, normalized as they are loaded. *)
Definition demo_ticks : list PlayerRewardTickArtifact :=
  match record_player_reward_tick (B:=true) (DB:=InMemoryStore) (λ _, None) None
    (demo_config [demo_game]) {[ 730 := hex_32 demo_session_id ]} (demo_tick_context 3600) None
    (Some "game"%string) ["game"%string] [demo_sample 730 2] with
  | Some r => [tk_artifact r]
  | None => []
  end.

Definition demo_sources (settled : bool) : EpochSources := {|
  es_aggregation := Ok demo_aggregation;
  es_book := Ok {| quota_bytes := 100; used_bytes := 0; payloads := ∅ |};
  es_ticks := Ok demo_ticks; es_sessions := [demo_play_session]; es_attestations := [];
  es_settled := λ _, settled;
  es_chain_credits := {[ "cosmos1w" := 2; "cosmos1x" := 1 ]}%string;
  es_local_account := None; es_local_recipient := Some "cosmos1me"%string; es_credentials := [] |}.

Definition demo_epoch (settled : bool) : outcome NodeRewardError EpochRewardComputation :=
  compute_local_epoch_rewards (B:=true) (X:=demo_external) (PE:=demo_pipeline_encoding)
    (BC:=toy_bech32) (DB:=InMemoryStore) None (demo_config [demo_game]) (demo_sources settled) 1.

(** The player gets half of the block reward of 1000, the witnesses share 100 as 67 and 33. *)
Example demo_epoch_rewards :
  match demo_epoch true with
  | Ok comp => (λ r, (recipient_address r, net_reward r)) <$> rc_records comp
      = [("cosmos1me", 500); ("cosmos1w", 67); ("cosmos1x", 33)]%string
  | _ => False
  end.
Proof. vm_compute. reflexivity. Qed.

Lemma epoch_pays_budget_witness :
  ∃ comp, demo_epoch true = Ok comp ∧ ∃ agg book ticks cs ss credits pools local m m',
    epoch_parts (demo_config [demo_game]) (demo_sources true) 1 comp agg book ticks cs ss credits pools
      local m m' (H:=true) (H0:=demo_external) (H1:=demo_pipeline_encoding) (H2:=toy_bech32).
Proof.
  destruct (demo_epoch true) as [comp|?|] eqn:Hc; [|vm_compute in Hc; discriminate..].
  exists comp. split; [reflexivity|]. unfold demo_epoch in Hc.
  destruct (epoch_pays_budget (B:=true) (X:=demo_external) (PE:=demo_pipeline_encoding)
    (BC:=toy_bech32) (DB:=InMemoryStore) None (demo_config [demo_game]) (demo_sources true) 1 comp Hc)
    as (agg & book & ticks & cs & ss & credits & pools & local & m & m' & Hp & _).
  exists agg, book, ticks, cs, ss, credits, pools, local, m, m'. exact Hp.
Defined.

Lemma isolated_play_unpaid_witness :
  ∃ comp, demo_epoch false = Ok comp ∧ ra_local_player_reward_total (rc_artifact comp) = 0 ∧
    ra_player_reward_block_count (rc_artifact comp) = 0 ∧
    Forall (λ r, player_reward r = 0) (rc_records comp).
Proof.
  destruct (demo_epoch false) as [comp|?|] eqn:Hc; [|vm_compute in Hc; discriminate..].
  exists comp. split; [reflexivity|]. unfold demo_epoch in Hc.
  apply (isolated_play_unpaid (B:=true) (X:=demo_external) (PE:=demo_pipeline_encoding)
    (BC:=toy_bech32) (DB:=InMemoryStore) None (demo_config [demo_game]) (demo_sources false) 1 comp Hc).
  intros s _ _. split; [reflexivity|]. intros a Ha. exfalso. exact (not_elem_of_nil a Ha).
Defined.

Lemma reward_root_in_record_order_witness :
  ∃ comp, demo_epoch true = Ok comp ∧
    ∃ leaves, Forall2 (record_leaf (PE:=demo_pipeline_encoding) (X:=demo_external) (BC:=toy_bech32))
      (rc_records comp) leaves ∧
    ra_reward_root_hex (rc_artifact comp) = hex_32 (merkle_root (H:=demo_external) leaves).
Proof.
  destruct (demo_epoch true) as [comp|?|] eqn:Hc; [|vm_compute in Hc; discriminate..].
  exists comp. split; [reflexivity|]. unfold demo_epoch in Hc.
  exact (proj2 (reward_root_in_record_order (B:=true) (X:=demo_external) (PE:=demo_pipeline_encoding)
    (BC:=toy_bech32) (DB:=InMemoryStore) None (demo_config [demo_game]) (demo_sources true) 1 comp Hc)).
Defined.
