(* ===== verification/StorageAudit.v ===== *)
(** * Retention audit and storage challenge: src/src/node_storage_audit.rs

    [audit_local_retention] checks that every payload still within its retention period
    is on disk with the recorded size and hash; [run_local_storage_challenge] combines
    it with the receipts. A payload file is [None] when it does not exist, otherwise the
    result of reading it; saving the artifacts is not modelled. *)
From S2P Require Import Prelude Primitives Params Records Crypto Tokenomics Rewards StorageBook Text NodeConfig EpochRewards.
Local Open Scope pole_scope.
#[local] Arguments stable_hash32 : simpl never.

Record RetentionAuditRecord := {
  au_payload_cid : ContentId;
  au_epoch_id : EpochId;
  au_retention_until_epoch : EpochId;
  expected_size_bytes : Z;
  file_present : bool;
  size_matches : bool;
  au_payload_hash_matches : bool;
}.

Record RetentionAuditArtifact := {
  au_current_epoch : EpochId;
  retained_payload_count : Z;
  retrievable_payload_count : Z;
  missing_payload_count : Z;
  corrupted_payload_count : Z;
  all_retrievable : bool;
  au_records : list RetentionAuditRecord;
}.

Record StorageChallengeRecord := {
  sr_payload_cid : ContentId;
  sr_epoch_id : EpochId;
  sr_retention_until_epoch : EpochId;
  payload_retrievable : bool;
  receipt_payload_matches : bool;
  receipt_epoch_matches : bool;
  receipt_storer_matches : bool;
  receipt_retention_matches : bool;
  receipt_signature_matches : bool;
}.

Record StorageChallengeArtifact := {
  sc_current_epoch : EpochId;
  checked_payload_count : Z;
  passed_payload_count : Z;
  failed_payload_count : Z;
  all_passed : bool;
  sc_records : list StorageChallengeRecord;
}.

Inductive NodeStorageAuditError :=
| AuditConfig (e : NodeConfigError)
| AuditStorage (e : StorageBookError)
| AuditIo (e : string)
| AuditJson (e : string).

(** [iter().filter(p).count()] *)
Definition count_if {A} (p : A → bool) (l : list A) : Z := Z.of_nat (length (filter (λ x, p x = true) l)).

Section Audit.
Context `{X : External} `{RE : ReceiptEncoding} (config : NodeConfig).
Context (payload_file : ContentId → option (outcome string bytes)).

Definition audit_record (r : StoredPayloadRecord) : outcome NodeStorageAuditError RetentionAuditRecord :=
  let report present size hash := {|
    au_payload_cid := sp_payload_cid r; au_epoch_id := sp_epoch_id r;
    au_retention_until_epoch := sp_retention_until_epoch r; expected_size_bytes := size_bytes r;
    file_present := present; size_matches := size; au_payload_hash_matches := hash |} in
  match payload_file (sp_payload_cid r) with
  | Some file =>
      do? payload <- map_err AuditIo file;
      Ok (report true (Z.of_nat (length payload) =? size_bytes r)
            (bool_decide (stable_hash32 payload = payload_hash r)))
  | None => Ok (report false false false)
  end.

Definition retrievable (a : RetentionAuditRecord) : bool :=
  file_present a && size_matches a && au_payload_hash_matches a.
Definition corrupted (a : RetentionAuditRecord) : bool :=
  file_present a && (negb (size_matches a) || negb (au_payload_hash_matches a)).

(** The records of the payloads still to be retained, in the order of the map. *)
Definition retained (book : LocalRetentionBook) (current_epoch : EpochId) : list StoredPayloadRecord :=
  filter (λ r, current_epoch <= sp_retention_until_epoch r) (bt_values (payloads book)).

Definition audit_local_retention (book : outcome StorageBookError LocalRetentionBook)
    (current_epoch : EpochId) : outcome NodeStorageAuditError RetentionAuditArtifact :=
  do? book <- map_err AuditStorage book;
  do? records <- collect_results audit_record (retained book current_epoch);
  let records := sort_by_key au_payload_cid records in
  let missing := count_if (λ a, negb (file_present a)) records in
  let corrupted := count_if corrupted records in
  Ok {| au_current_epoch := current_epoch; retained_payload_count := Z.of_nat (length records);
        retrievable_payload_count := count_if retrievable records;
        missing_payload_count := missing; corrupted_payload_count := corrupted;
        all_retrievable := (missing =? 0) && (corrupted =? 0); au_records := records |}.

Definition challenge_record (local_node_id : NodeId) (audit : RetentionAuditArtifact)
    (r : StoredPayloadRecord) : outcome NodeStorageAuditError StorageChallengeRecord :=
  let payload_retrievable :=
    match list_find (λ a, au_payload_cid a = sp_payload_cid r) (au_records audit) with
    | Some (_, a) => retrievable a
    | None => false
    end in
  do? v <- map_err AuditStorage (validate_stored_payload_record r);
  Ok {| sr_payload_cid := sp_payload_cid r; sr_epoch_id := sp_epoch_id r;
        sr_retention_until_epoch := sp_retention_until_epoch r;
        payload_retrievable := payload_retrievable;
        receipt_payload_matches := payload_matches v; receipt_epoch_matches := epoch_matches v;
        receipt_storer_matches := bool_decide (storer_id (receipt r) = local_node_id);
        receipt_retention_matches := retention_matches v;
        receipt_signature_matches := signature_matches v |}.

Definition challenge_passed (c : StorageChallengeRecord) : bool :=
  payload_retrievable c && receipt_payload_matches c && receipt_epoch_matches c
  && receipt_storer_matches c && receipt_retention_matches c && receipt_signature_matches c.

Definition run_local_storage_challenge (book : outcome StorageBookError LocalRetentionBook)
    (current_epoch : EpochId) (audit : RetentionAuditArtifact)
    : outcome NodeStorageAuditError StorageChallengeArtifact :=
  do? book <- map_err AuditStorage book;
  do? local_node_id <- map_err AuditConfig (node_id config);
  do? records <- collect_results (challenge_record local_node_id audit) (retained book current_epoch);
  let records := sort_by_key sr_payload_cid records in
  let checked := Z.of_nat (length records) in
  let passed := count_if challenge_passed records in
  let failed := saturating_sub checked passed in
  Ok {| sc_current_epoch := current_epoch; checked_payload_count := checked;
        passed_payload_count := passed; failed_payload_count := failed; all_passed := failed =? 0;
        sc_records := records |}.
End Audit.

(** * Properties *)

Section Counting.
Context {A : Type}.
Implicit Types (p q : A → bool) (l : list A).

Lemma count_if_cons p x l : count_if p (x :: l) = (if p x then 1 else 0) + count_if p l.
Proof.
  unfold count_if. rewrite filter_cons. destruct (p x) eqn:E; case_decide; simpl in *; try lia; congruence.
Qed.

Lemma count_if_bounds p l : 0 <= count_if p l <= Z.of_nat (length l).
Proof. induction l; rewrite ?count_if_cons; [done|]. simpl length. destruct (p _); lia. Qed.

Lemma count_if_zero p l : count_if p l = 0 ↔ Forall (λ x, p x = false) l.
Proof.
  induction l as [|x l IH]; [split; [constructor|done]|]. rewrite count_if_cons, Forall_cons, <- IH.
  pose proof (count_if_bounds p l). destruct (p x); naive_solver lia.
Qed.

Lemma count_if_all p l : count_if p l = Z.of_nat (length l) ↔ Forall (λ x, p x = true) l.
Proof.
  induction l as [|x l IH]; [split; [constructor|done]|]. rewrite count_if_cons, Forall_cons, <- IH.
  pose proof (count_if_bounds p l). simpl length. destruct (p x); naive_solver lia.
Qed.
End Counting.

(** The file of a payload holds what the book says. *)
Definition file_holds (payload_file : ContentId → option (outcome string bytes))
    (r : StoredPayloadRecord) : Prop :=
  ∃ payload, payload_file (sp_payload_cid r) = Some (Ok payload) ∧
    Z.of_nat (length payload) = size_bytes r ∧ stable_hash32 payload = payload_hash r.

Section AuditProofs.
Context `{X : External} `{RE : ReceiptEncoding} (config : NodeConfig).
Context (payload_file : ContentId → option (outcome string bytes)).

Lemma audit_record_spec r a :
  audit_record payload_file r = Ok a →
  au_payload_cid a = sp_payload_cid r ∧ (retrievable a = true ↔ file_holds payload_file r).
Proof.
  unfold audit_record, file_holds, retrievable.
  destruct (payload_file (sp_payload_cid r)) as [file|]; simpl; [|intros [= <-]; naive_solver].
  rewrite outcome_bind_ok. intros (payload & Hp%map_err_ok & [= <-]). simpl. split; [done|].
  rewrite andb_true_iff, Z.eqb_eq, bool_decide_eq_true. subst file. naive_solver.
Qed.

(** The audit classifies every retained payload: the retrievable, missing and corrupted
    counts add up to the retained ones, [all_retrievable] says that each of them is on
    disk with its recorded size and hash, and nothing else is counted. *)
Theorem retention_audit_partition book current_epoch audit :
  audit_local_retention payload_file (Ok book) current_epoch = Ok audit →
  retrievable_payload_count audit + missing_payload_count audit + corrupted_payload_count audit
    = retained_payload_count audit ∧
  retained_payload_count audit = Z.of_nat (length (retained book current_epoch)) ∧
  (all_retrievable audit = true ↔ Forall (file_holds payload_file) (retained book current_epoch)).
Proof.
  unfold audit_local_retention. simpl. rewrite outcome_bind_ok. intros (records & Hr & [= <-]). simpl.
  apply collect_results_ok in Hr. pose proof (Forall2_length _ _ _ Hr) as Hlen.
  set (sorted := sort_by_key au_payload_cid records).
  assert (sorted ≡ₚ records) as Hperm by apply sort_by_key_perm.
  assert (∀ l, count_if retrievable l + count_if (λ a, negb (file_present a)) l + count_if corrupted l
    = Z.of_nat (length l)) as Hsum.
  { induction l as [|a l IH]; [done|]. rewrite !count_if_cons. simpl length.
    assert (retrievable a = file_present a && size_matches a && au_payload_hash_matches a) as -> by done.
    assert (corrupted a = file_present a && (negb (size_matches a) || negb (au_payload_hash_matches a)))
      as -> by done.
    destruct (file_present a), (size_matches a), (au_payload_hash_matches a); simpl; lia. }
  split_and!; [apply Hsum|by rewrite Hperm, Hlen|].
  pose proof (Hsum sorted) as Hs. rewrite andb_true_iff, !Z.eqb_eq.
  pose proof (count_if_bounds (λ a, negb (file_present a)) sorted).
  pose proof (count_if_bounds corrupted sorted). pose proof (count_if_bounds retrievable sorted).
  transitivity (count_if retrievable sorted = Z.of_nat (length sorted)); [lia|].
  rewrite count_if_all, Hperm. clear -Hr. induction Hr as [|r a rs l Ha _ IH]; [split; constructor|].
  rewrite !Forall_cons, IH. by destruct (audit_record_spec _ _ Ha) as [_ ->].
Qed.

(** Content ids are the keys of the book, so the audit of a payload is found by its id. *)
Lemma retained_cids book current_epoch :
  map_Forall (λ cid r, sp_payload_cid r = cid) (payloads book) →
  NoDup (sp_payload_cid <$> retained book current_epoch).
Proof.
  intros Hk. unfold retained.
  assert (NoDup (sp_payload_cid <$> bt_values (payloads book))) as Hnd.
  { unfold bt_values. rewrite <- list_fmap_compose.
    rewrite (list_fmap_ext _ fst); [apply NoDup_bt_keys|]. intros i [k r] Hi. simpl.
    apply list_elem_of_lookup_2, elem_of_bt_iter in Hi. by apply (Hk k). }
  induction (bt_values (payloads book)) as [|r l IH]; [constructor|]. csimpl in Hnd.
  apply NoDup_cons in Hnd as [Hr Hnd]. rewrite filter_cons. case_decide; [|by apply IH].
  csimpl. apply NoDup_cons. split; [|by apply IH].
  intros (r' & Hcid & [_ Hin]%list_elem_of_filter)%list_elem_of_fmap. apply Hr.
  rewrite Hcid. by apply list_elem_of_fmap_2.
Qed.

Lemma find_audit records rs r :
  Forall2 (λ r a, audit_record payload_file r = Ok a) rs records →
  NoDup (sp_payload_cid <$> rs) → r ∈ rs →
  ∃ i a, list_find (λ a, au_payload_cid a = sp_payload_cid r) (sort_by_key au_payload_cid records)
           = Some (i, a) ∧ audit_record payload_file r = Ok a.
Proof.
  intros Hf Hnd Hin.
  assert (∀ a, a ∈ records → au_payload_cid a = sp_payload_cid r → audit_record payload_file r = Ok a) as Hu.
  { intros a Ha Hcid. apply list_elem_of_lookup in Ha as [i Hi].
    destruct (Forall2_lookup_r _ _ _ _ _ Hf Hi) as (r' & Hr' & Ha').
    destruct (audit_record_spec _ _ Ha') as [Hc _]. apply list_elem_of_lookup in Hin as [j Hj].
    assert (i = j) as ->.
    { eapply NoDup_lookup; [exact Hnd| |].
      - rewrite list_lookup_fmap, Hr'. simpl. reflexivity.
      - rewrite list_lookup_fmap, Hj. simpl. congruence. }
    by simplify_eq. }
  apply list_elem_of_lookup in Hin as [j Hj]. destruct (Forall2_lookup_l _ _ _ _ _ Hf Hj) as (a & Ha & Hra).
  destruct (list_find (λ a, au_payload_cid a = sp_payload_cid r) (sort_by_key au_payload_cid records))
    as [[i a']|] eqn:Hfind.
  - exists i, a'. split; [done|]. apply list_find_Some in Hfind as (Hi & Hcid & _).
    apply Hu; [|done]. apply list_elem_of_lookup_2 in Hi. by rewrite sort_by_key_perm in Hi.
  - exfalso. apply list_find_None in Hfind. rewrite Forall_forall in Hfind.
    apply (Hfind a); [rewrite sort_by_key_perm; by eapply list_elem_of_lookup_2|].
    by destruct (audit_record_spec _ _ Hra).
Qed.

(** C19: A storage challenge is passed exactly by an honest storer: after an audit of the same
    book and epoch, every payload passes if and only if each payload still to be retained
    is on disk as recorded, its receipt is valid, and the receipt names this node. *)
Theorem storage_challenge_passed_iff book current_epoch local audit challenge :
  map_Forall (λ cid r, sp_payload_cid r = cid) (payloads book) → node_id config = Ok local →
  audit_local_retention payload_file (Ok book) current_epoch = Ok audit →
  run_local_storage_challenge config (Ok book) current_epoch audit = Ok challenge →
  (all_passed challenge = true ↔
   Forall (λ r, file_holds payload_file r ∧ receipt_valid r ∧ storer_id (receipt r) = local)
     (retained book current_epoch)) ∧
  passed_payload_count challenge + failed_payload_count challenge
    = Z.of_nat (length (retained book current_epoch)).
Proof.
  intros Hkeys Hlocal Haudit. unfold audit_local_retention in Haudit. simpl in Haudit.
  apply outcome_bind_ok in Haudit as (arecs & Har%collect_results_ok & Heq).
  assert (au_records audit = sort_by_key au_payload_cid arecs) as Hau by by injection Heq as <-. clear Heq.
  unfold run_local_storage_challenge. rewrite Hlocal. simpl.
  intros (crecs & Hcr & [= <-])%outcome_bind_ok. apply collect_results_ok in Hcr. simpl.
  set (rs := retained book current_epoch) in *.
  pose proof (sort_by_key_perm sr_payload_cid crecs) as Hperm.
  pose proof (count_if_bounds challenge_passed (sort_by_key sr_payload_cid crecs)) as Hb.
  pose proof (Forall2_length _ _ _ Hcr) as Hlen.
  assert (length (sort_by_key sr_payload_cid crecs) = length rs) as Hl by (by rewrite Hperm).
  split; [|unfold saturating_sub; lia].
  transitivity (count_if challenge_passed (sort_by_key sr_payload_cid crecs)
    = Z.of_nat (length (sort_by_key sr_payload_cid crecs))).
  { unfold saturating_sub. rewrite Z.eqb_eq. lia. }
  rewrite count_if_all, Hperm. pose proof (retained_cids book current_epoch Hkeys) as Hnd. fold rs in Hnd.
  assert (∀ r c, r ∈ rs → challenge_record local audit r = Ok c →
    (challenge_passed c = true ↔ file_holds payload_file r ∧ receipt_valid r ∧ storer_id (receipt r) = local))
    as Hone.
  { intros r c Hr Hc. destruct (find_audit arecs rs r Har Hnd Hr) as (i & a & Hfind & Ha).
    unfold challenge_record in Hc. rewrite Hau, Hfind in Hc.
    apply outcome_bind_ok in Hc as (v & Hv%map_err_ok & [= <-]). unfold challenge_passed. simpl.
    destruct (audit_record_spec _ _ Ha) as [_ <-]. unfold receipt_valid. rewrite Hv.
    rewrite !andb_true_iff, bool_decide_eq_true. destruct v as [v1 v2 v3 v4]; simpl.
    destruct v1, v2, v3, v4; naive_solver. }
  clear -Hcr Hone. induction Hcr as [|r c rs l Hc _ IH]; [split; constructor|].
  rewrite !Forall_cons, IH by (intros; apply Hone; [by right|done]).
  rewrite (Hone r c); [done|by left|done].
Qed.
End AuditProofs.

(** ** A node that stored one payload *)

Definition demo_payload : bytes := [1; 2; 3].

Definition demo_stored_book : LocalRetentionBook :=
  (record_batch_payload (B:=true) (X:=demo_external) (RE:=demo_encoding) (replicate 32 0x11) 3 2
     demo_payload demo_book).2.

Definition demo_file (_ : ContentId) : option (outcome string bytes) := Some (Ok demo_payload).

Lemma retention_audit_partition_witness :
  ∃ audit, audit_local_retention demo_file (Ok demo_stored_book) 4 = Ok audit ∧
    retained_payload_count audit = 1 ∧ retrievable_payload_count audit + missing_payload_count audit
      + corrupted_payload_count audit = retained_payload_count audit.
Proof.
  destruct (audit_local_retention demo_file (Ok demo_stored_book) 4) as [audit|?|] eqn:Ha;
    [|vm_compute in Ha; discriminate..].
  exists audit. split; [reflexivity|].
  destruct (retention_audit_partition demo_file demo_stored_book 4 audit Ha) as (Hs & Hc & _).
  split; [rewrite Hc; vm_compute; reflexivity|exact Hs].
Defined.

Lemma storage_challenge_passed_iff_witness :
  ∃ audit challenge, audit_local_retention demo_file (Ok demo_stored_book) 4 = Ok audit ∧
    run_local_storage_challenge (RE:=demo_encoding) NodeConfig_default (Ok demo_stored_book) 4 audit
      = Ok challenge ∧
    (all_passed challenge = true ↔
     Forall (λ r, file_holds demo_file r ∧ receipt_valid (RE:=demo_encoding) r ∧
                  storer_id (receipt r) = replicate 32 0x11) (retained demo_stored_book 4)) ∧
    all_passed challenge = true.
Proof.
  destruct (audit_local_retention demo_file (Ok demo_stored_book) 4) as [audit|?|] eqn:Ha;
    [|vm_compute in Ha; discriminate..].
  destruct (run_local_storage_challenge (RE:=demo_encoding) NodeConfig_default (Ok demo_stored_book) 4 audit)
    as [challenge|?|] eqn:Hc;
    [|vm_compute in Ha; injection Ha as <-; vm_compute in Hc; discriminate..].
  exists audit, challenge. split; [reflexivity|]. split; [exact Hc|]. split.
  - refine (proj1 (storage_challenge_passed_iff (RE:=demo_encoding) NodeConfig_default demo_file
      demo_stored_book 4 (replicate 32 0x11) audit challenge _ _ Ha Hc)).
    + apply map_Forall_to_list. vm_compute. repeat constructor.
    + vm_compute. reflexivity.
  - vm_compute in Ha. injection Ha as <-. vm_compute in Hc. injection Hc as <-. reflexivity.
Defined.
