(* ===== verification/P2p.v ===== *)
(** * Peer-to-peer transport: src/src/p2p.rs

    Topics, messages and announcements, the trait [P2pNetwork] as a class of methods
    on the network's state, the in-memory network with its simulation topology, and
    what a network promises its users: who a published message reaches, and that
    payloads are served by registered providers. The UDP network is in P2pSocket. *)
From S2P Require Import Prelude Primitives Records Crypto StorageBook Pipeline NodeConfig.
Local Open Scope pole_scope.

Inductive P2pTopic := Observations | Batches | Receipts | Challenges | PlaySessions | Attestations.

Definition topic_index (t : P2pTopic) : Z :=
  match t with
  | Observations => 0 | Batches => 1 | Receipts => 2
  | Challenges => 3 | PlaySessions => 4 | Attestations => 5
  end.
Definition topic_of_index (n : Z) : option P2pTopic :=
  [Observations; Batches; Receipts; Challenges; PlaySessions; Attestations] !! Z.to_nat n.

#[export] Instance P2pTopic_eq_dec : EqDecision P2pTopic.
Proof. solve_decision. Defined.
#[export] Instance P2pTopic_countable : Countable P2pTopic.
Proof. refine (inj_countable topic_index topic_of_index _). by intros []. Defined.
#[export] Instance P2pTopic_ord : Ord P2pTopic := λ x y, cmp (topic_index x) (topic_index y).
#[export] Instance P2pTopic_ord_laws : OrdLaws P2pTopic.
Proof.
  split.
  - intros x y. unfold cmp, P2pTopic_ord, cmp, Z_ord. rewrite Z.compare_eq_iff.
    split; [|by intros ->]. by destruct x, y.
  - intros x y. apply Z.compare_antisym.
  - intros x y z. unfold cmp, P2pTopic_ord, cmp, Z_ord. rewrite !Z.compare_lt_iff. lia.
Qed.

(** An [ObservationAnnouncement], [PlaySessionAnnouncement] or
    [WitnessAttestationAnnouncement] holds one record. *)
Record BatchAnnouncement := {
  ba_epoch_id : EpochId;
  ba_collector_id : NodeId;
  ba_collector_address : string;
  ba_payload_cid : ContentId;
  ba_payload_hash : Hash32;
  ba_payload_size_bytes : Z;
  ba_batch_root : Hash32;
  ba_obs_count : Z;
}.

Record ReplicaReceiptAnnouncement := {
  ra_receipt : ReplicaReceipt;
  ra_payload_hash : Hash32;
  ra_payload_size_bytes : Z;
}.

Record ChallengeAnnouncement := {
  an_challenge_id : Hash32;
  an_epoch_id : EpochId;
  an_kind : ChallengeKind;
  an_target_node : option NodeId;
}.

Inductive P2pMessage :=
| MsgObservation (observation : ObservationRecord)
| MsgBatch (announcement : BatchAnnouncement)
| MsgReplicaReceipt (announcement : ReplicaReceiptAnnouncement)
| MsgChallenge (announcement : ChallengeAnnouncement)
| MsgPlaySession (session : PlaySession)
| MsgWitnessAttestation (attestation : WitnessAttestation).

Record P2pEnvelope := {
  from : NodeId;
  topic : P2pTopic;
  message : P2pMessage;
}.

(** [PayloadResponse] has the same fields. *)
Record PayloadProviderRecord := {
  provider : NodeId;
  pp_payload_cid : ContentId;
  pp_payload_hash : Hash32;
  pp_payload_bytes : bytes;
}.

Record InMemoryPeerProfile := {
  pf_peer_id : NodeId;
  pf_topics : list P2pTopic;
}.

Record P2pCoordinationStats := {
  sent_count : Z;
  hello_sent_count : Z;
  hint_sent_count : Z;
  goodbye_sent_count : Z;
  received_count : Z;
  hello_received_count : Z;
  hint_received_count : Z;
  goodbye_received_count : Z;
  dropped_spoofed_count : Z;
  dropped_peer_cap_count : Z;
}.

Definition P2pCoordinationStats_default : P2pCoordinationStats := {|
  sent_count := 0; hello_sent_count := 0; hint_sent_count := 0; goodbye_sent_count := 0;
  received_count := 0; hello_received_count := 0; hint_received_count := 0;
  goodbye_received_count := 0; dropped_spoofed_count := 0; dropped_peer_cap_count := 0 |}.

Inductive P2pError :=
| UnknownPeer (peer : NodeId)
| MissingPayload (cid : ContentId)
| NoSubscribers (t : P2pTopic)
| P2pIo (e : string)
| P2pJson (e : string).

(** The trait; a method on [&self] may change state behind a lock, so all are
    computations on the network. *)
Class P2pNetwork (N : Type) := {
  backend_kind : string;
  learned_remote_peer_count : M N P2pError Z;
  coordination_stats : M N P2pError P2pCoordinationStats;
  register_peer : NodeId → M N P2pError unit;
  bootstrap_peer : NodeId → list P2pTopic → M N P2pError unit;
  subscribe : NodeId → P2pTopic → M N P2pError unit;
  unsubscribe : NodeId → P2pTopic → M N P2pError bool;
  remove_peer : NodeId → M N P2pError unit;
  known_peers : M N P2pError (list NodeId);
  subscriptions_for : NodeId → M N P2pError (list P2pTopic);
  publish : NodeId → P2pMessage → M N P2pError Z;
  drain_inbox : NodeId → M N P2pError (list P2pEnvelope);
  advertise_payload : NodeId → ContentId → Hash32 → bytes → M N P2pError unit;
  request_payload : NodeId → ContentId → M N P2pError PayloadProviderRecord;
}.

Definition message_topic (m : P2pMessage) : P2pTopic :=
  match m with
  | MsgObservation _ => Observations
  | MsgBatch _ => Batches
  | MsgReplicaReceipt _ => Receipts
  | MsgChallenge _ => Challenges
  | MsgPlaySession _ => PlaySessions
  | MsgWitnessAttestation _ => Attestations
  end.

Definition envelope (sender : NodeId) (m : P2pMessage) : P2pEnvelope :=
  {| from := sender; topic := message_topic m; message := m |}.

(** ** The in-memory network *)

Record InMemoryP2pNetwork := {
  peers : gset NodeId;
  subscriptions : gmap NodeId (gset P2pTopic);
  inboxes : gmap NodeId (list P2pEnvelope);
  im_payloads : gmap ContentId (list PayloadProviderRecord);
}.

Definition InMemoryP2pNetwork_default : InMemoryP2pNetwork :=
  {| peers := ∅; subscriptions := ∅; inboxes := ∅; im_payloads := ∅ |}.

Definition set_subscriptions (n : InMemoryP2pNetwork) s : InMemoryP2pNetwork :=
  {| peers := peers n; subscriptions := s; inboxes := inboxes n; im_payloads := im_payloads n |}.
Definition set_inboxes (n : InMemoryP2pNetwork) i : InMemoryP2pNetwork :=
  {| peers := peers n; subscriptions := subscriptions n; inboxes := i; im_payloads := im_payloads n |}.
Definition set_payloads (n : InMemoryP2pNetwork) p : InMemoryP2pNetwork :=
  {| peers := peers n; subscriptions := subscriptions n; inboxes := inboxes n; im_payloads := p |}.

(** [map.entry(k).or_default()], before anything is done to the entry. *)
Definition or_default {K V} `{Countable K} (d : V) (k : K) (m : gmap K V) : gmap K V :=
  <[k := default d (m !! k)]> m.

Notation Net := (M InMemoryP2pNetwork P2pError).

Definition ensure_peer (p : NodeId) : Net unit :=
  n <- gets id;; ensure (bool_decide (p ∈ peers n)) (UnknownPeer p).

Definition mem_register_peer (p : NodeId) : Net unit :=
  modify (λ n, {| peers := {[p]} ∪ peers n; subscriptions := or_default ∅ p (subscriptions n);
                  inboxes := or_default [] p (inboxes n); im_payloads := im_payloads n |}).

Definition mem_subscribe (p : NodeId) (t : P2pTopic) : Net unit :=
  ensure_peer p;;;
  modify (λ n, set_subscriptions n
    (<[p := {[t]} ∪ default ∅ (subscriptions n !! p)]> (subscriptions n))).

Definition mem_bootstrap_peer (p : NodeId) (topics : list P2pTopic) : Net unit :=
  mem_register_peer p;;; for_each (mem_subscribe p) topics.

Definition mem_bootstrap_topology (profiles : list InMemoryPeerProfile) : Net unit :=
  for_each (λ profile, mem_bootstrap_peer (pf_peer_id profile) (pf_topics profile)) profiles.

Definition mem_unsubscribe (p : NodeId) (t : P2pTopic) : Net bool :=
  ensure_peer p;;;
  topics <- gets (λ n, default ∅ (subscriptions n !! p));;
  modify (λ n, set_subscriptions n (<[p := topics ∖ {[t]}]> (subscriptions n)));;;
  m_ret (bool_decide (t ∈ topics)).

(** [providers.retain(..)], and the entry only if any is left. *)
Definition retain_providers (p : NodeId) (providers : list PayloadProviderRecord)
    : option (list PayloadProviderRecord) :=
  match filter (λ r, provider r ≠ p) providers with
  | [] => None
  | rest => Some rest
  end.

Definition mem_remove_peer (p : NodeId) : Net unit :=
  ensure_peer p;;;
  modify (λ n, {| peers := peers n ∖ {[p]}; subscriptions := delete p (subscriptions n);
                  inboxes := delete p (inboxes n);
                  im_payloads := omap (retain_providers p) (im_payloads n) |}).

Definition mem_subscriptions_for (p : NodeId) : Net (list P2pTopic) :=
  ensure_peer p;;;
  gets (λ n, default [] (bts_iter <$> (subscriptions n !! p))).

(** The peers [publish] delivers to, in key order. *)
Definition recipients (n : InMemoryP2pNetwork) (sender : NodeId) (t : P2pTopic) : list NodeId :=
  (filter (λ kv : NodeId * gset P2pTopic, kv.1 ≠ sender ∧ t ∈ kv.2) (bt_iter (subscriptions n))).*1.

Definition deliver (e : P2pEnvelope) (boxes : gmap NodeId (list P2pEnvelope)) (p : NodeId)
    : gmap NodeId (list P2pEnvelope) :=
  <[p := default [] (boxes !! p) ++ [e]]> boxes.

Definition mem_publish (sender : NodeId) (m : P2pMessage) : Net Z :=
  ensure_peer sender;;;
  let t := message_topic m in
  rs <- gets (λ n, recipients n sender t);;
  ensure (negb (bool_decide (rs = []))) (NoSubscribers t);;;
  modify (λ n, set_inboxes n (foldl (deliver (envelope sender m)) (inboxes n) rs));;;
  m_ret (Z.of_nat (length rs)).

Definition mem_drain_inbox (p : NodeId) : Net (list P2pEnvelope) :=
  ensure_peer p;;;
  box <- gets (λ n, default [] (inboxes n !! p));;
  modify (λ n, set_inboxes n (<[p := []]> (inboxes n)));;;
  m_ret box.

(** The first record of the provider is updated in place, or a new one appended. *)
Fixpoint advertise_in (r : PayloadProviderRecord) (providers : list PayloadProviderRecord)
    : list PayloadProviderRecord :=
  match providers with
  | [] => [r]
  | existing :: providers =>
      if bool_decide (provider existing = provider r)
      then {| provider := provider existing; pp_payload_cid := pp_payload_cid existing;
              pp_payload_hash := pp_payload_hash r; pp_payload_bytes := pp_payload_bytes r |} :: providers
      else existing :: advertise_in r providers
  end.

Definition mem_advertise_payload (p : NodeId) (cid : ContentId) (hash : Hash32) (b : bytes) : Net unit :=
  ensure_peer p;;;
  modify (λ n, set_payloads n (<[cid := advertise_in
    {| provider := p; pp_payload_cid := cid; pp_payload_hash := hash; pp_payload_bytes := b |}
    (default [] (im_payloads n !! cid))]> (im_payloads n))).

Definition mem_request_payload (requester : NodeId) (cid : ContentId) : Net PayloadProviderRecord :=
  ensure_peer requester;;;
  n <- gets id;;
  ok_or (im_payloads n !! cid ≫= head) (MissingPayload cid).

#[export] Instance InMemoryP2pNetwork_network : P2pNetwork InMemoryP2pNetwork := {
  backend_kind := "inmemory-sim";
  learned_remote_peer_count := m_ret 0;
  coordination_stats := m_ret P2pCoordinationStats_default;
  register_peer := mem_register_peer;
  bootstrap_peer := mem_bootstrap_peer;
  subscribe := mem_subscribe;
  unsubscribe := mem_unsubscribe;
  remove_peer := mem_remove_peer;
  known_peers := gets (λ n, bts_iter (peers n));
  subscriptions_for := mem_subscriptions_for;
  publish := mem_publish;
  drain_inbox := mem_drain_inbox;
  advertise_payload := mem_advertise_payload;
  request_payload := mem_request_payload;
}.

(** ** The simulation topology *)

(** [topics.into_iter().collect::<BTreeSet<_>>()] *)
Definition InMemoryPeerProfile_new (p : NodeId) (topics : list P2pTopic) : InMemoryPeerProfile :=
  {| pf_peer_id := p; pf_topics := bts_iter (list_to_set topics : gset P2pTopic) |}.

Definition inmemory_simulation_peer_id (group_tag index : Z) : NodeId :=
  (replicate 30 group_tag ++ [Z.land (Z.shiftr index 8) 0xff; Z.land index 0xff])%list.

Definition simulation_group (tag count : Z) (topics : list P2pTopic) : list InMemoryPeerProfile :=
  (λ index, InMemoryPeerProfile_new (inmemory_simulation_peer_id tag (Z.of_nat index)) topics)
    <$> seq 0 (Z.to_nat count).

(** The capacity hint is a sum that may overflow. *)
Definition inmemory_simulation_topology_profiles `{BuildMode} (topology : P2pSimulationConfig)
    : option (list InMemoryPeerProfile) :=
  ab ← add 64 (batch_listener_count topology) (receipt_listener_count topology);
  _ ← add 64 ab (dual_listener_count topology);
  Some (simulation_group 0x91 (batch_listener_count topology) [Batches]
     ++ simulation_group 0x92 (receipt_listener_count topology) [Receipts]
     ++ simulation_group 0x93 (dual_listener_count topology) [Batches; Receipts])%list.

Definition build_inmemory_simulation_network `{BuildMode} (topology : P2pSimulationConfig)
    : option InMemoryP2pNetwork :=
  profiles ← inmemory_simulation_topology_profiles topology;
  match mem_bootstrap_topology profiles InMemoryP2pNetwork_default with
  | (Ok _, n) => Some n
  | _ => None
  end.

Definition inmemory_simulation_listener_peer_ids `{BuildMode} (topology : P2pSimulationConfig)
    : option (list NodeId) :=
  fmap (M := list) pf_peer_id <$> inmemory_simulation_topology_profiles topology.

Definition inmemory_simulation_retrieval_peer_id `{BuildMode} (topology : P2pSimulationConfig)
    : option NodeId :=
  ids ← inmemory_simulation_listener_peer_ids topology; head ids.

(** ** Announcements *)

Definition batch_announcement_from_assembled (batch : AssembledBatch) (collector_address : string)
    : BatchAnnouncement := {|
  ba_epoch_id := bc_epoch_id (ab_batch_commit batch);
  ba_collector_id := bc_collector_id (ab_batch_commit batch);
  ba_collector_address := collector_address;
  ba_payload_cid := ab_payload_cid batch;
  ba_payload_hash := ab_payload_hash batch;
  ba_payload_size_bytes := Z.of_nat (length (payload_bytes batch));
  ba_batch_root := root (Records.batch (ab_batch_commit batch));
  ba_obs_count := obs_count (ab_batch_commit batch) |}.

Definition replica_receipt_announcement_from_record (record : StoredPayloadRecord)
    : ReplicaReceiptAnnouncement :=
  {| ra_receipt := receipt record; ra_payload_hash := payload_hash record;
     ra_payload_size_bytes := size_bytes record |}.

Definition challenge_announcement_from_challenge (c : Challenge) : ChallengeAnnouncement :=
  {| an_challenge_id := ch_challenge_id c; an_epoch_id := ch_epoch_id c; an_kind := ch_kind c;
     an_target_node := target_node c |}.

(** * Theorems *)

(** What an in-memory network always satisfies: exactly the registered peers have
    subscriptions and an inbox, nobody is sent its own messages or a message under a
    foreign topic, and the providers of a payload are registered, distinct and serve
    that payload. *)
Record net_ok (n : InMemoryP2pNetwork) : Prop := {
  ok_subscriptions : dom (subscriptions n) = peers n;
  ok_inboxes : dom (inboxes n) = peers n;
  ok_envelopes : map_Forall (λ p box, Forall (λ e, from e ≠ p ∧ topic e = message_topic (message e)) box)
    (inboxes n);
  ok_providers : map_Forall (λ cid rs, rs ≠ [] ∧ NoDup (provider <$> rs) ∧
    Forall (λ r, provider r ∈ peers n ∧ pp_payload_cid r = cid) rs) (im_payloads n);
}.

(** The operations that change a network, errors included. *)
Inductive net_step (n : InMemoryP2pNetwork) : InMemoryP2pNetwork → Prop :=
| step_register p : net_step n (mem_register_peer p n).2
| step_bootstrap p topics : net_step n (mem_bootstrap_peer p topics n).2
| step_subscribe p t : net_step n (mem_subscribe p t n).2
| step_unsubscribe p t : net_step n (mem_unsubscribe p t n).2
| step_remove p : net_step n (mem_remove_peer p n).2
| step_publish p m : net_step n (mem_publish p m n).2
| step_drain p : net_step n (mem_drain_inbox p n).2
| step_advertise p cid hash b : net_step n (mem_advertise_payload p cid hash b n).2.

Lemma ensure_peer_cases p n :
  (p ∈ peers n ∧ ensure_peer p n = (Ok tt, n)) ∨ ((p ∉ peers n) ∧ ensure_peer p n = (Err (UnknownPeer p), n)).
Proof.
  unfold ensure_peer, m_bind, gets, ensure, lift, id. case_bool_decide; [left|right]; done.
Qed.

(** Runs a method up to its test of the peer; without the peer nothing changes. *)
Ltac peer_test p n :=
  let H := fresh "Hp" in
  unfold m_bind at 1; destruct (ensure_peer_cases p n) as [[H ->]|[H ->]]; simpl; [|try done].

Lemma dom_or_default {V} (d : V) (p : NodeId) (m : gmap NodeId V) :
  dom (or_default d p m) = {[p]} ∪ dom m.
Proof. apply dom_insert_L. Qed.

Lemma lookup_deliver e rs boxes p :
  NoDup rs → (∀ q, q ∈ rs → is_Some (boxes !! q)) →
  foldl (deliver e) boxes rs !! p =
    if bool_decide (p ∈ rs) then (λ box, (box ++ [e])%list) <$> boxes !! p else boxes !! p.
Proof.
  revert boxes. induction rs as [|r rs IH]; intros boxes Hnd Hin; [done|].
  apply NoDup_cons in Hnd as [Hr Hnd]. simpl. rewrite IH; [|done|].
  - unfold deliver at 1 2. destruct (decide (p = r)) as [->|Hne].
    + rewrite bool_decide_false by done. rewrite bool_decide_true by left.
      rewrite lookup_insert_eq. destruct (Hin r) as [box ->]; [left|]. done.
    + rewrite lookup_insert_ne by done.
      assert (bool_decide (p ∈ r :: rs) = bool_decide (p ∈ rs)) as ->; [|done].
      apply bool_decide_ext. rewrite elem_of_cons. naive_solver.
  - intros q Hq. unfold deliver. destruct (decide (q = r)) as [->|?];
      [rewrite lookup_insert_eq; by eexists|rewrite lookup_insert_ne by done].
    apply Hin. by right.
Qed.

Lemma elem_of_recipients n sender t p :
  p ∈ recipients n sender t ↔ p ≠ sender ∧ ∃ topics, subscriptions n !! p = Some topics ∧ t ∈ topics.
Proof.
  unfold recipients. rewrite list_elem_of_fmap. split.
  - intros ([k topics] & -> & Hin). apply list_elem_of_filter in Hin as [[H1 H2] H3%elem_of_bt_iter].
    eauto.
  - intros (Hne & topics & Hs & Ht). exists (p, topics). split; [done|].
    apply list_elem_of_filter. split; [done|]. by apply elem_of_bt_iter.
Qed.

Lemma NoDup_recipients n sender t : NoDup (recipients n sender t).
Proof.
  unfold recipients. eapply sublist_NoDup; [apply (NoDup_bt_keys (subscriptions n))|].
  apply fmap_sublist, sublist_filter.
Qed.

(** ** The invariant *)

Lemma net_ok_default : net_ok InMemoryP2pNetwork_default.
Proof. split; try done; by apply map_Forall_empty. Qed.

Lemma register_ok p n : net_ok n → net_ok (mem_register_peer p n).2.
Proof.
  intros [Hs Hi He Hp]. split; simpl.
  - rewrite dom_or_default. by rewrite Hs.
  - rewrite dom_or_default. by rewrite Hi.
  - apply map_Forall_insert_2; [|done].
    destruct (inboxes n !! p) as [box|] eqn:E; simpl; [by apply (He p)|constructor].
  - eapply map_Forall_impl; [exact Hp|]. intros cid rs (H1 & H2 & H3). split_and!; [done..|].
    eapply Forall_impl; [exact H3|]. set_solver.
Qed.

Lemma dom_insert_known {V} (p : NodeId) (v : V) (m : gmap NodeId V) (ps : gset NodeId) :
  dom m = ps → p ∈ ps → dom (<[p := v]> m) = ps.
Proof. intros <- Hp. rewrite dom_insert_L. set_solver. Qed.

Lemma subscribe_ok p t n : net_ok n → net_ok (mem_subscribe p t n).2.
Proof.
  intros [Hs Hi He Hp]. unfold mem_subscribe. peer_test p n. split; simpl; try done.
  by apply dom_insert_known.
Qed.

Lemma unsubscribe_ok p t n : net_ok n → net_ok (mem_unsubscribe p t n).2.
Proof.
  intros [Hs Hi He Hp]. unfold mem_unsubscribe. peer_test p n. split; simpl; try done.
  by apply dom_insert_known.
Qed.

Lemma bootstrap_ok p topics n : net_ok n → net_ok (mem_bootstrap_peer p topics n).2.
Proof.
  intros Hn. change (net_ok (for_each (mem_subscribe p) topics (mem_register_peer p n).2).2).
  apply (register_ok p) in Hn. revert Hn. generalize (mem_register_peer p n).2.
  induction topics as [|t topics IH]; intros n' Hn; [done|].
  simpl. unfold m_bind. pose proof (subscribe_ok p t n' Hn) as Hs.
  destruct (mem_subscribe p t n') as [[[]|e|] n1]; simpl in *; [by apply IH|exact Hs..].
Qed.

Lemma retain_providers_Some p rs rs' :
  retain_providers p rs = Some rs' → rs' ≠ [] ∧ rs' = filter (λ r, provider r ≠ p) rs.
Proof. unfold retain_providers. destruct (filter _ rs) eqn:E; intros; simplify_eq. done. Qed.

Lemma remove_ok p n : net_ok n → net_ok (mem_remove_peer p n).2.
Proof.
  intros [Hs Hi He Hp]. unfold mem_remove_peer. peer_test p n. split; simpl.
  - rewrite dom_delete_L. by rewrite Hs.
  - rewrite dom_delete_L. by rewrite Hi.
  - by apply map_Forall_delete.
  - intros cid rs' (rs & Hret & Hrs)%lookup_omap_Some.
    apply retain_providers_Some in Hret as [Hne ->].
    destruct (Hp cid rs Hrs) as (_ & Hnd & Hall). split_and!; [done|..].
    + eapply sublist_NoDup; [exact Hnd|]. apply fmap_sublist, sublist_filter.
    + rewrite Forall_forall in *. intros r [Hr Hin]%list_elem_of_filter.
      destruct (Hall r Hin). set_solver.
Qed.

Lemma publish_ok p m n : net_ok n → net_ok (mem_publish p m n).2.
Proof.
  intros [Hs Hi He Hp]. unfold mem_publish. peer_test p n.
  unfold m_bind, gets, ensure, lift, modify. case_bool_decide as Hr; simpl; [done|].
  set (rs := recipients n p (message_topic m)).
  assert (∀ q, foldl (deliver (envelope p m)) (inboxes n) rs !! q =
    if bool_decide (q ∈ rs) then (λ box, (box ++ [envelope p m])%list) <$> inboxes n !! q
    else inboxes n !! q) as Hl.
  { intros q. apply lookup_deliver; [apply NoDup_recipients|].
    intros q' (_ & topics & Hq & _)%elem_of_recipients. apply elem_of_dom. rewrite Hi, <- Hs.
    apply elem_of_dom. by eexists. }
  split; simpl; try done.
  - rewrite <- Hi. apply set_eq. intros q. rewrite !elem_of_dom, Hl.
    case_bool_decide; [by rewrite fmap_is_Some|done].
  - intros q box. rewrite Hl. case_bool_decide as Hq; [|apply He].
    rewrite fmap_Some. intros (box' & Hb & ->). apply Forall_app. split; [by apply (He q)|].
    apply Forall_singleton. split; [|done]. apply elem_of_recipients in Hq as [? _]. simpl. congruence.
Qed.

Lemma drain_ok p n : net_ok n → net_ok (mem_drain_inbox p n).2.
Proof.
  intros [Hs Hi He Hp]. unfold mem_drain_inbox. peer_test p n. split; simpl; try done.
  - by apply dom_insert_known.
  - by apply map_Forall_insert_2.
Qed.

Lemma advertise_in_provider r rs q :
  q ∈ (provider <$> advertise_in r rs) ↔ q = provider r ∨ q ∈ (provider <$> rs).
Proof.
  induction rs as [|x rs IH]; simpl; [set_solver|].
  case_bool_decide as Hx; simpl; [rewrite Hx; set_solver|]. rewrite !elem_of_cons, IH. tauto.
Qed.

Lemma advertise_in_NoDup r rs : NoDup (provider <$> rs) → NoDup (provider <$> advertise_in r rs).
Proof.
  induction rs as [|x rs IH]; simpl; [intros; apply NoDup_singleton|].
  intros [Hx Hnd]%NoDup_cons. case_bool_decide as Hr; simpl; [by constructor|].
  constructor; [|by apply IH]. rewrite advertise_in_provider. naive_solver.
Qed.

Lemma advertise_in_Forall (P : NodeId → ContentId → Prop) r rs :
  P (provider r) (pp_payload_cid r) → Forall (λ x, P (provider x) (pp_payload_cid x)) rs →
  Forall (λ x, P (provider x) (pp_payload_cid x)) (advertise_in r rs).
Proof.
  intros Hr. induction 1 as [|x rs Hx Hrs IH]; simpl; [by constructor|].
  case_bool_decide; by constructor.
Qed.

Lemma advertise_ok p cid hash b n : net_ok n → net_ok (mem_advertise_payload p cid hash b n).2.
Proof.
  intros [Hs Hi He Hp]. unfold mem_advertise_payload. peer_test p n. split; simpl; try done.
  apply map_Forall_insert_2; [|done].
  assert (NoDup (provider <$> default [] (im_payloads n !! cid)) ∧
    Forall (λ r, provider r ∈ peers n ∧ pp_payload_cid r = cid) (default [] (im_payloads n !! cid)))
    as [Hnd Hall].
  { destruct (im_payloads n !! cid) as [rs|] eqn:E; simpl; [by apply (Hp cid)|by split; constructor]. }
  split_and!.
  - destruct (default [] (im_payloads n !! cid)); simpl; [done|]. by case_bool_decide.
  - by apply advertise_in_NoDup.
  - by apply (advertise_in_Forall (λ q c, q ∈ peers n ∧ c = cid)).
Qed.

Lemma step_ok n n' : net_ok n → net_step n n' → net_ok n'.
Proof.
  intros Hn [p|p topics|p t|p t|p|p m|p|p cid hash b].
  - by apply register_ok.
  - by apply bootstrap_ok.
  - by apply subscribe_ok.
  - by apply unsubscribe_ok.
  - by apply remove_ok.
  - by apply publish_ok.
  - by apply drain_ok.
  - by apply advertise_ok.
Qed.

Lemma reachable_ok n : rtc net_step InMemoryP2pNetwork_default n → net_ok n.
Proof.
  intros Hr. pose proof net_ok_default as H0. induction Hr as [|n0 n1 n2 Hstep _ IH]; [done|].
  apply IH. by eapply step_ok.
Qed.

(** In every network reachable by its operations, errors included: the payload a
    request is answered with has the identifier that was asked for and comes from a
    peer that is still registered, and what a peer drains from its inbox was sent by
    other peers, each message under its own topic. *)
Theorem inmemory_network_sound n p :
  rtc net_step InMemoryP2pNetwork_default n →
  (∀ cid r n', mem_request_payload p cid n = (Ok r, n') →
     pp_payload_cid r = cid ∧ provider r ∈ peers n) ∧
  (∀ box n', mem_drain_inbox p n = (Ok box, n') →
     Forall (λ e, from e ≠ p ∧ topic e = message_topic (message e)) box ∧ inboxes n' !! p = Some []).
Proof.
  intros [Hs Hi He Hp]%reachable_ok. split.
  - intros cid r n'. unfold mem_request_payload. peer_test p n.
    unfold m_bind, gets, id, ok_or, lift. destruct (im_payloads n !! cid) as [rs|] eqn:E; [|done].
    simpl. destruct rs as [|x rs]; [done|]. simpl. intros [= <- <-].
    destruct (Hp cid _ E) as (_ & _ & [[? ?] _]%Forall_cons). done.
  - intros box n'. unfold mem_drain_inbox. peer_test p n. intros [= <- <-]. simpl.
    rewrite lookup_insert_eq. split; [|done].
    destruct (inboxes n !! p) as [box|] eqn:E; simpl; [by apply (He p)|constructor].
Qed.

Lemma publish_spec n sender m :
  net_ok n →
  let subscribed p := p ≠ sender ∧ ∃ topics, subscriptions n !! p = Some topics ∧ message_topic m ∈ topics in
  match mem_publish sender m n with
  | (Ok count, n') =>
      sender ∈ peers n ∧
      (∃ rs, NoDup rs ∧ (∀ p, p ∈ rs ↔ subscribed p) ∧ count = Z.of_nat (length rs) ∧ 0 < count) ∧
      (∀ p, subscribed p → ∃ box, inboxes n !! p = Some box ∧
         inboxes n' !! p = Some (box ++ [envelope sender m])%list) ∧
      (∀ p, ¬ subscribed p → inboxes n' !! p = inboxes n !! p) ∧
      peers n' = peers n ∧ subscriptions n' = subscriptions n ∧ im_payloads n' = im_payloads n
  | (Err e, n') =>
      n' = n ∧ (e = UnknownPeer sender ∧ sender ∉ peers n
        ∨ e = NoSubscribers (message_topic m) ∧ ∀ p, ¬ subscribed p)
  | (Panic, _) => False
  end.
Proof.
  intros [Hs Hi _ _] subscribed.
  assert (∀ p, p ∈ recipients n sender (message_topic m) ↔ subscribed p) as Hrec
    by (intros; apply elem_of_recipients).
  unfold mem_publish. peer_test sender n; [|split; [done|by left]].
  unfold m_bind, gets, ensure, lift, modify. simpl. set (rs := recipients n sender (message_topic m)) in *.
  case_bool_decide as Hr; simpl.
  { split; [done|]. right. split; [done|]. intros p Hin%Hrec. rewrite Hr in Hin. by apply not_elem_of_nil in Hin. }
  assert (∀ p, p ∈ rs → is_Some (inboxes n !! p)) as Hbox.
  { intros p (_ & topics & ? & _)%Hrec. apply elem_of_dom. rewrite Hi, <- Hs. apply elem_of_dom. by eexists. }
  assert (NoDup rs) as Hnd by apply NoDup_recipients.
  split_and!; try done.
  - exists rs. split_and!; try done. destruct rs; [done|]. simpl. lia.
  - intros p Hin%Hrec. rewrite lookup_deliver, bool_decide_true by done.
    destruct (Hbox p Hin) as [box ->]. by exists box.
  - intros p Hin. rewrite lookup_deliver by done. rewrite bool_decide_false; [done|]. by rewrite Hrec.
Qed.

(** Publishing reaches exactly the other subscribers of the message's topic: each gets
    the envelope at the end of its inbox, no other inbox and nothing else changes, and
    the count returned is theirs. Without a subscriber, or from an unregistered sender,
    the call fails and changes nothing. *)
Theorem publish_reaches_subscribers n sender m :
  rtc net_step InMemoryP2pNetwork_default n →
  let subscribed p := p ≠ sender ∧ ∃ topics, subscriptions n !! p = Some topics ∧ message_topic m ∈ topics in
  match mem_publish sender m n with
  | (Ok count, n') =>
      sender ∈ peers n ∧
      (∃ rs, NoDup rs ∧ (∀ p, p ∈ rs ↔ subscribed p) ∧ count = Z.of_nat (length rs) ∧ 0 < count) ∧
      (∀ p, subscribed p → ∃ box, inboxes n !! p = Some box ∧
         inboxes n' !! p = Some (box ++ [envelope sender m])%list) ∧
      (∀ p, ¬ subscribed p → inboxes n' !! p = inboxes n !! p) ∧
      peers n' = peers n ∧ subscriptions n' = subscriptions n ∧ im_payloads n' = im_payloads n
  | (Err e, n') =>
      n' = n ∧ (e = UnknownPeer sender ∧ sender ∉ peers n
        ∨ e = NoSubscribers (message_topic m) ∧ ∀ p, ¬ subscribed p)
  | (Panic, _) => False
  end.
Proof. intros Hn%reachable_ok. by apply publish_spec. Qed.

(** ** A payload that was advertised can be requested *)

(** The first provider keeps answering: a later advertisement by another peer does not
    displace it, one by the provider itself updates the bytes. *)
Lemma advertise_request n p q cid hash b :
  p ∈ peers n → q ∈ peers n →
  let n' := (mem_advertise_payload p cid hash b n).2 in
  ∃ r, (mem_request_payload q cid n').1 = Ok r ∧
    provider r = default p (provider <$> (im_payloads n !! cid ≫= head)) ∧
    (provider r = p → pp_payload_hash r = hash ∧ pp_payload_bytes r = b).
Proof.
  intros Hp Hq. cbv zeta. unfold mem_advertise_payload. peer_test p n.
  unfold mem_request_payload. peer_test q (set_payloads n
    (<[cid := advertise_in {| provider := p; pp_payload_cid := cid; pp_payload_hash := hash;
       pp_payload_bytes := b |} (default [] (im_payloads n !! cid))]> (im_payloads n))).
  unfold m_bind, gets, id, ok_or, lift. simpl. rewrite lookup_insert_eq. simpl.
  destruct (im_payloads n !! cid) as [[|x rs]|] eqn:E; simpl; eauto.
  case_bool_decide; eauto. eexists. split_and!; [done..|]. simpl. congruence.
Qed.

(** ** The simulation *)

Lemma simulation_peer_id_inj tag tag' i j :
  0 <= i < 2 ^ 16 → 0 <= j < 2 ^ 16 →
  inmemory_simulation_peer_id tag i = inmemory_simulation_peer_id tag' j → tag = tag' ∧ i = j.
Proof.
  intros Hi Hj. unfold inmemory_simulation_peer_id. simpl. intros H.
  assert (Z.land (Z.shiftr i 8) 255 = Z.land (Z.shiftr j 8) 255 ∧ Z.land i 255 = Z.land j 255 ∧ tag = tag')
    as (H1 & H2 & ->) by (by injection H).
  split; [done|]. change 255 with (Z.ones 8) in *.
  rewrite !Z.land_ones, !Z.shiftr_div_pow2 in * by lia.
  change (2 ^ 8) with 256 in *. change (2 ^ 16) with 65536 in *.
  rewrite (Z.mod_small (i / 256)), (Z.mod_small (j / 256)) in H1 by (split; [apply Z.div_pos|apply Z.div_lt_upper_bound]; lia).
  rewrite (Z.div_mod i 256), (Z.div_mod j 256) by lia. lia.
Qed.

Lemma subscribe_result p t n :
  p ∈ peers n → mem_subscribe p t n = (Ok tt, set_subscriptions n
    (<[p := {[t]} ∪ default ∅ (subscriptions n !! p)]> (subscriptions n))).
Proof. intros Hin. unfold mem_subscribe. by peer_test p n. Qed.

Lemma bootstrap_result p topics n :
  ∃ n', mem_bootstrap_peer p topics n = (Ok tt, n') ∧ peers n' = {[p]} ∪ peers n ∧
    subscriptions n' = <[p := list_to_set topics ∪ default ∅ (subscriptions n !! p)]> (subscriptions n).
Proof.
  change (mem_bootstrap_peer p topics n) with (for_each (mem_subscribe p) topics (mem_register_peer p n).2).
  assert (∀ n0 s, p ∈ peers n0 → subscriptions n0 !! p = Some s →
    ∃ n', for_each (mem_subscribe p) topics n0 = (Ok tt, n') ∧ peers n' = peers n0 ∧
      subscriptions n' = <[p := list_to_set topics ∪ s]> (subscriptions n0)) as Hall.
  { induction topics as [|t topics IH]; intros n0 s Hp Hs.
    { exists n0. split_and!; [done..|]. simpl. rewrite union_empty_l_L. symmetry. by apply insert_id. }
    cbn [for_each]. rewrite (m_bind_ok _ _ _ _ _ (subscribe_result p t n0 Hp)). rewrite Hs.
    change (default ∅ (Some s)) with s.
    edestruct (IH (set_subscriptions n0 (<[p:={[t]} ∪ s]> (subscriptions n0)))) as (n' & -> & H1 & H2);
      [done|apply lookup_insert_eq|].
    exists n'. split_and!; [done..|]. rewrite H2. simpl. rewrite insert_insert_eq. f_equal. set_solver. }
  destruct (Hall (mem_register_peer p n).2 (default ∅ (subscriptions n !! p))) as (n' & -> & H1 & H2);
    [simpl; set_solver|apply lookup_insert_eq|].
  exists n'. split_and!; [done..|]. rewrite H2. simpl. unfold or_default. by rewrite insert_insert_eq.
Qed.

Lemma bootstrap_topology_result profiles n :
  NoDup (pf_peer_id <$> profiles) → Forall (λ f, subscriptions n !! pf_peer_id f = None) profiles →
  ∃ n', mem_bootstrap_topology profiles n = (Ok tt, n') ∧
    peers n' = list_to_set (pf_peer_id <$> profiles) ∪ peers n ∧
    Forall (λ f, subscriptions n' !! pf_peer_id f = Some (list_to_set (pf_topics f))) profiles ∧
    (∀ p, p ∉ pf_peer_id <$> profiles → subscriptions n' !! p = subscriptions n !! p).
Proof.
  revert n. induction profiles as [|f profiles IH]; intros n Hnd Hnone.
  { exists n. split_and!; [done|set_solver|constructor|done]. }
  rewrite fmap_cons in Hnd. apply NoDup_cons in Hnd as [Hf Hnd].
  apply Forall_cons in Hnone as [Hfn Hnone].
  unfold mem_bootstrap_topology. cbn [for_each]. unfold m_bind.
  destruct (bootstrap_result (pf_peer_id f) (pf_topics f) n) as (n1 & -> & Hp1 & Hs1).
  assert (Forall (λ g, subscriptions n1 !! pf_peer_id g = None) profiles) as Hn1.
  { rewrite Forall_forall in *. intros g Hg. rewrite Hs1, lookup_insert_ne; [by apply Hnone|].
    intros Heq. apply Hf. rewrite Heq. by apply list_elem_of_fmap_2. }
  destruct (IH n1 Hnd Hn1) as (n' & Hrun & Hp' & Hs' & Hother). exists n'. split_and!; [done|..].
  - rewrite Hp', Hp1. set_solver.
  - constructor; [|done]. rewrite Hother by done. rewrite Hs1, lookup_insert_eq, Hfn. simpl.
    by rewrite union_empty_r_L.
  - intros p [Hne Hp]%not_elem_of_cons. rewrite Hother by done. rewrite Hs1. by rewrite lookup_insert_ne.
Qed.

Lemma simulation_group_ids tag count topics p :
  p ∈ pf_peer_id <$> simulation_group tag count topics ↔
  ∃ i, 0 <= i < count ∧ p = inmemory_simulation_peer_id tag i.
Proof.
  unfold simulation_group. rewrite <- list_fmap_compose, list_elem_of_fmap. split.
  - intros (k & -> & Hk%elem_of_seq). exists (Z.of_nat k). split; [lia|done].
  - intros (i & Hi & ->). exists (Z.to_nat i). rewrite elem_of_seq. simpl. rewrite Z2Nat.id by lia.
    split; [done|lia].
Qed.

Lemma NoDup_simulation_group tag count topics :
  count <= 2 ^ 16 → NoDup (pf_peer_id <$> simulation_group tag count topics).
Proof.
  intros Hc. unfold simulation_group. rewrite <- list_fmap_compose.
  apply NoDup_fmap_2_strong; [|apply NoDup_seq].
  intros x y Hx%elem_of_seq Hy%elem_of_seq H. simpl in H.
  apply simulation_peer_id_inj in H; lia.
Qed.

Definition topology_counts (t : P2pSimulationConfig) : list Z :=
  [batch_listener_count t; receipt_listener_count t; dual_listener_count t].

(** The simulation network is built for every topology of up to 65536 listeners per
    group: the listeners get distinct identities, they are the registered peers, one per
    listener, and each listens to exactly the topics of its group. *)
Theorem simulation_network_built `{BuildMode} (t : P2pSimulationConfig) :
  Forall (λ c, 0 <= c <= 2 ^ 16) (topology_counts t) →
  ∃ n profiles, build_inmemory_simulation_network t = Some n ∧
    inmemory_simulation_topology_profiles t = Some profiles ∧
    NoDup (pf_peer_id <$> profiles) ∧ peers n = list_to_set (pf_peer_id <$> profiles) ∧
    Z.of_nat (length profiles) = lsum id (topology_counts t) ∧
    Forall (λ f, subscriptions n !! pf_peer_id f = Some (list_to_set (pf_topics f))) profiles.
Proof.
  unfold topology_counts. rewrite !Forall_cons. intros (Ha & Hb & Hc & _).
  change (2 ^ 16) with 65536 in *.
  unfold build_inmemory_simulation_network.
  assert (∃ ps, inmemory_simulation_topology_profiles t = Some ps ∧
    ps = (simulation_group 0x91 (batch_listener_count t) [Batches]
       ++ simulation_group 0x92 (receipt_listener_count t) [Receipts]
       ++ simulation_group 0x93 (dual_listener_count t) [Batches; Receipts])%list) as (ps & Hps & Hdef).
  { unfold inmemory_simulation_topology_profiles. eexists. split; [|done].
    rewrite add_exact by (change (2 ^ 64) with 18446744073709551616; lia). simpl.
    rewrite add_exact by (change (2 ^ 64) with 18446744073709551616; lia). done. }
  assert (NoDup (pf_peer_id <$> ps)) as Hnd.
  { rewrite Hdef, !fmap_app. apply NoDup_app. split_and!; [by apply NoDup_simulation_group; lia|..].
    - intros p (i & Hi & ->)%simulation_group_ids. rewrite elem_of_app, !simulation_group_ids.
      intros [(j & Hj & E)|(j & Hj & E)]; apply simulation_peer_id_inj in E; lia.
    - apply NoDup_app. split_and!; [by apply NoDup_simulation_group; lia|..|by apply NoDup_simulation_group; lia].
      intros p (i & Hi & ->)%simulation_group_ids. rewrite simulation_group_ids.
      intros (j & Hj & E). apply simulation_peer_id_inj in E; lia. }
  rewrite Hps. simpl.
  destruct (bootstrap_topology_result ps InMemoryP2pNetwork_default Hnd) as (n & -> & Hp & Hs & _).
  { apply Forall_true. intros. apply lookup_empty. }
  exists n, ps. split_and!; [done|done|done| | |done].
  { rewrite Hp. simpl. by rewrite union_empty_r_L. }
  rewrite Hdef, !length_app. unfold simulation_group. rewrite !length_fmap, !length_seq. simpl. unfold id. lia.
Qed.

(** ** A small network *)

Definition demo_peer (i : Z) : NodeId := inmemory_simulation_peer_id 0x91 i.
Definition demo_receipt : ReplicaReceipt :=
  {| rr_epoch_id := 1; rr_payload_cid := "cid"; storer_id := demo_peer 0;
     rr_retention_until_epoch := 9; receipt_signature := [1] |}.
Definition demo_message : P2pMessage :=
  MsgReplicaReceipt {| ra_receipt := demo_receipt; ra_payload_hash := [7]; ra_payload_size_bytes := 3 |}.

Definition demo_network : InMemoryP2pNetwork :=
  (mem_advertise_payload (demo_peer 0) "cid" [7] [1; 2; 3]
    (mem_publish (demo_peer 0) demo_message
      (mem_bootstrap_peer (demo_peer 1) [Receipts; Batches]
        (mem_register_peer (demo_peer 0) InMemoryP2pNetwork_default).2).2).2).2.

Lemma demo_network_reachable : rtc net_step InMemoryP2pNetwork_default demo_network.
Proof.
  eapply rtc_l; [apply (step_register _ (demo_peer 0))|].
  eapply rtc_l; [apply (step_bootstrap _ (demo_peer 1) [Receipts; Batches])|].
  eapply rtc_l; [apply (step_publish _ (demo_peer 0) demo_message)|].
  eapply rtc_l; [apply (step_advertise _ (demo_peer 0) "cid" [7] [1; 2; 3])|]. apply rtc_refl.
Qed.

Lemma inmemory_network_sound_witness :
  (mem_drain_inbox (demo_peer 1) demo_network).1 = Ok [envelope (demo_peer 0) demo_message] ∧
  ∀ cid r n', mem_request_payload (demo_peer 1) cid demo_network = (Ok r, n') →
     pp_payload_cid r = cid ∧ provider r ∈ peers demo_network.
Proof.
  split; [by vm_compute|].
  exact (proj1 (inmemory_network_sound demo_network (demo_peer 1) demo_network_reachable)).
Defined.

Lemma publish_reaches_subscribers_witness :
  let n' := (mem_publish (demo_peer 0) demo_message demo_network).2 in
  (mem_publish (demo_peer 0) demo_message demo_network).1 = Ok 1 ∧
  ∃ box, inboxes n' !! demo_peer 1 = Some (box ++ [envelope (demo_peer 0) demo_message])%list.
Proof.
  assert ((mem_publish (demo_peer 0) demo_message demo_network).1 = Ok 1) as H1 by by vm_compute.
  split; [done|].
  pose proof (publish_reaches_subscribers demo_network (demo_peer 0) demo_message demo_network_reachable)
    as Hpub. cbv zeta in Hpub.
  destruct (mem_publish (demo_peer 0) demo_message demo_network) as [r n'] eqn:E. simpl in H1. subst r.
  destruct Hpub as (_ & _ & Hbox & _).
  destruct (Hbox (demo_peer 1)) as (box & _ & Hb).
  - split; [by vm_compute|]. exists {[Batches; Receipts]}. split; [by vm_compute|].
    apply elem_of_union_r, elem_of_singleton_2. done.
  - by exists box.
Defined.

Definition demo_topology : P2pSimulationConfig :=
  {| batch_listener_count := 2; receipt_listener_count := 0; dual_listener_count := 300 |}.

Lemma simulation_network_built_witness :
  ∃ n : InMemoryP2pNetwork, build_inmemory_simulation_network (H := true) demo_topology = Some n.
Proof.
  destruct (@simulation_network_built true demo_topology) as (n & ps & Hn & _).
  - unfold topology_counts. simpl. repeat constructor; lia.
  - by exists n.
Defined.

(** With more than 65536 listeners in a group two of them share an identity. *)
Example simulation_ids_wrap :
  inmemory_simulation_peer_id 0x91 65536 = inmemory_simulation_peer_id 0x91 0.
Proof. reflexivity. Qed.
