(* ===== verification/P2pSocket.v ===== *)
(** * The UDP network of src/src/p2p.rs

    [SocketP2pNetwork]: peers exchange datagrams, learn each other's addresses and
    topics, and drop what they cannot attribute. The socket is modelled by what it
    does: [incoming] lists the results of the [recv_from] calls to come, each datagram
    with the time it is handled at and its parsed content, an [Idle] entry standing for
    a call that would block after the deadline; [attempts] lists the datagrams handed
    to [send_to], and [send_error] says which of them fail. Socket addresses are only
    stored and compared, so their type is a parameter. *)
From S2P Require Import Prelude Primitives Records P2p.
Local Open Scope pole_scope.

Record SocketPeerProfile {Addr : Type} := {
  sk_peer_id : NodeId;
  sk_addr : Addr;
  sk_topics : list P2pTopic;
  last_seen_millis : Z;
}.
Arguments SocketPeerProfile : clear implicits.

Inductive SocketWireMessage {Addr : Type} :=
| PeerHello (profile : SocketPeerProfile Addr)
| PeerHint (profile : SocketPeerProfile Addr)
| PeerGoodbye (peer_id : NodeId)
| WirePublish (sender : NodeId) (t : P2pTopic) (m : P2pMessage)
| PayloadSync (record : PayloadProviderRecord).
Arguments SocketWireMessage : clear implicits.

(** A result of [recv_from]. *)
Inductive Incoming {Addr : Type} :=
| Datagram (at_millis : Z) (sender : Addr) (wire : outcome string (SocketWireMessage Addr))
| Idle
| RecvError (e : string).
Arguments Incoming : clear implicits.

Record SocketP2pNetwork {Addr : Type} := {
  local_peer_id : NodeId;
  local_topics : gset P2pTopic;
  configured_remote_peer_ids : gset NodeId;
  remote_peers : gmap NodeId (SocketPeerProfile Addr);
  inbox : list P2pEnvelope;
  sk_payloads : gmap ContentId PayloadProviderRecord;
  stats : P2pCoordinationStats;
  (** The socket and the clock. *)
  incoming : list (Incoming Addr);
  attempts : list (Addr * SocketWireMessage Addr);
  clock : Z;
}.
Arguments SocketP2pNetwork : clear implicits.

Definition STALE_PEER_MILLIS : Z := 250.
Definition MAX_REMOTE_PEERS : Z := 128.

(** The counters of [P2pCoordinationStats]. *)
Inductive Counter :=
| Sent | HelloSent | HintSent | GoodbyeSent
| Received | HelloReceived | HintReceived | GoodbyeReceived | DroppedSpoofed | DroppedPeerCap.

Definition counter (c : Counter) (s : P2pCoordinationStats) : Z :=
  match c with
  | Sent => sent_count s | HelloSent => hello_sent_count s | HintSent => hint_sent_count s
  | GoodbyeSent => goodbye_sent_count s | Received => received_count s
  | HelloReceived => hello_received_count s | HintReceived => hint_received_count s
  | GoodbyeReceived => goodbye_received_count s | DroppedSpoofed => dropped_spoofed_count s
  | DroppedPeerCap => dropped_peer_cap_count s
  end.

Definition set_counter (c : Counter) (v : Z) (s : P2pCoordinationStats) : P2pCoordinationStats :=
  let keep k x := match c, k with
    | Sent, Sent | HelloSent, HelloSent | HintSent, HintSent | GoodbyeSent, GoodbyeSent
    | Received, Received | HelloReceived, HelloReceived | HintReceived, HintReceived
    | GoodbyeReceived, GoodbyeReceived | DroppedSpoofed, DroppedSpoofed
    | DroppedPeerCap, DroppedPeerCap => v
    | _, _ => x
    end in {|
  sent_count := keep Sent (sent_count s); hello_sent_count := keep HelloSent (hello_sent_count s);
  hint_sent_count := keep HintSent (hint_sent_count s);
  goodbye_sent_count := keep GoodbyeSent (goodbye_sent_count s);
  received_count := keep Received (received_count s);
  hello_received_count := keep HelloReceived (hello_received_count s);
  hint_received_count := keep HintReceived (hint_received_count s);
  goodbye_received_count := keep GoodbyeReceived (goodbye_received_count s);
  dropped_spoofed_count := keep DroppedSpoofed (dropped_spoofed_count s);
  dropped_peer_cap_count := keep DroppedPeerCap (dropped_peer_cap_count s) |}.

(** [let _ = m;]: the error of [m] is dropped, what it did stays. *)
Definition ignore_err {S E} (m : M S E unit) : M S E unit := λ s,
  match m s with (Panic, s') => (Panic, s') | (_, s') => (Ok tt, s') end.

Section Socket.
Context {Addr : Type} `{EqDecision Addr} `{B : BuildMode}.
(** What [send_to] answers to the [n]-th datagram, and [local_addr()]. *)
Context (send_error : nat → Addr → SocketWireMessage Addr → option P2pError).
Context (local_addr : outcome P2pError Addr).
Implicit Types n : SocketP2pNetwork Addr.
Local Notation Sock := (M (SocketP2pNetwork Addr) P2pError).
Local Notation Profile := (SocketPeerProfile Addr).
Local Notation Wire := (SocketWireMessage Addr).

Definition set_local_topics n (x : gset P2pTopic) : SocketP2pNetwork Addr := {|
  local_peer_id := local_peer_id n; local_topics := x;
  configured_remote_peer_ids := configured_remote_peer_ids n; remote_peers := remote_peers n;
  inbox := inbox n; sk_payloads := sk_payloads n; stats := stats n;
  incoming := incoming n; attempts := attempts n; clock := clock n |}.
Definition set_remote_peers n (x : gmap NodeId Profile) : SocketP2pNetwork Addr := {|
  local_peer_id := local_peer_id n; local_topics := local_topics n;
  configured_remote_peer_ids := configured_remote_peer_ids n; remote_peers := x;
  inbox := inbox n; sk_payloads := sk_payloads n; stats := stats n;
  incoming := incoming n; attempts := attempts n; clock := clock n |}.
Definition set_inbox n (x : list P2pEnvelope) : SocketP2pNetwork Addr := {|
  local_peer_id := local_peer_id n; local_topics := local_topics n;
  configured_remote_peer_ids := configured_remote_peer_ids n; remote_peers := remote_peers n;
  inbox := x; sk_payloads := sk_payloads n; stats := stats n;
  incoming := incoming n; attempts := attempts n; clock := clock n |}.
Definition set_sk_payloads n (x : gmap ContentId PayloadProviderRecord) : SocketP2pNetwork Addr := {|
  local_peer_id := local_peer_id n; local_topics := local_topics n;
  configured_remote_peer_ids := configured_remote_peer_ids n; remote_peers := remote_peers n;
  inbox := inbox n; sk_payloads := x; stats := stats n;
  incoming := incoming n; attempts := attempts n; clock := clock n |}.
Definition set_stats n (x : P2pCoordinationStats) : SocketP2pNetwork Addr := {|
  local_peer_id := local_peer_id n; local_topics := local_topics n;
  configured_remote_peer_ids := configured_remote_peer_ids n; remote_peers := remote_peers n;
  inbox := inbox n; sk_payloads := sk_payloads n; stats := x;
  incoming := incoming n; attempts := attempts n; clock := clock n |}.
Definition set_socket n (i : list (Incoming Addr)) (a : list (Addr * Wire)) (c : Z)
    : SocketP2pNetwork Addr := {|
  local_peer_id := local_peer_id n; local_topics := local_topics n;
  configured_remote_peer_ids := configured_remote_peer_ids n; remote_peers := remote_peers n;
  inbox := inbox n; sk_payloads := sk_payloads n; stats := stats n;
  incoming := i; attempts := a; clock := c |}.

Definition set_profile (f : Profile) (addr : Addr) (topics : list P2pTopic) (seen : Z) : Profile :=
  {| sk_peer_id := sk_peer_id f; sk_addr := addr; sk_topics := topics; last_seen_millis := seen |}.

Definition SocketPeerProfile_new (p : NodeId) (addr : Addr) (topics : list P2pTopic) : Profile :=
  {| sk_peer_id := p; sk_addr := addr; sk_topics := bts_iter (list_to_set topics : gset P2pTopic);
     last_seen_millis := 0 |}.

(** Later profiles of the same peer win, as when collecting into a BTreeMap. *)
Definition bind (p : NodeId) (peers : list Profile) : SocketP2pNetwork Addr := {|
  local_peer_id := p; local_topics := ∅;
  configured_remote_peer_ids := list_to_set (sk_peer_id <$> peers);
  remote_peers := foldl (λ m f, <[sk_peer_id f := f]> m) ∅ peers;
  inbox := []; sk_payloads := ∅; stats := P2pCoordinationStats_default;
  incoming := []; attempts := []; clock := 0 |}.

Definition bump (c : Counter) : Sock unit :=
  v <- gets (λ n, counter c (stats n));; v <- chk (add 64 v 1);;
  modify (λ n, set_stats n (set_counter c v (stats n))).

Definition accept_remote_message n (p : NodeId) (sender_addr : Addr) : bool :=
  if bool_decide (p = local_peer_id n) then false else
  match remote_peers n !! p with
  | Some profile => bool_decide (sk_addr profile = sender_addr)
  | None => true
  end.

(** A peer that is neither known nor configured, while the table is full. *)
Definition table_full n (p : NodeId) : bool :=
  bool_decide (remote_peers n !! p = None) && bool_decide (p ∉ configured_remote_peer_ids n)
  && (MAX_REMOTE_PEERS <=? Z.of_nat (size (remote_peers n))).

Definition send_wire (addr : Addr) (wire : Wire) : Sock unit :=
  k <- gets (λ n, length (attempts n));;
  modify (λ n, set_socket n (incoming n) (attempts n ++ [(addr, wire)]) (clock n));;;
  lift (match send_error k addr wire with Some e => Err e | None => Ok tt end);;;
  match wire with
  | PeerHello _ => bump Sent;;; bump HelloSent
  | PeerHint _ => bump Sent;;; bump HintSent
  | PeerGoodbye _ => bump Sent;;; bump GoodbyeSent
  | _ => m_ret tt
  end.

Definition announce_local_profile : Sock unit :=
  addr <- lift local_addr;;
  n <- gets id;;
  let profile := SocketPeerProfile_new (local_peer_id n) addr (bts_iter (local_topics n)) in
  for_each (λ peer, send_wire (sk_addr peer) (PeerHello profile)) (bt_values (remote_peers n)).

Definition announce_goodbye : Sock unit :=
  n <- gets id;;
  for_each (λ peer, send_wire (sk_addr peer) (PeerGoodbye (local_peer_id n)))
    (bt_values (remote_peers n)).

Definition announce_peer_hint (profile : Profile) : Sock unit :=
  n <- gets id;;
  for_each (λ peer, send_wire (sk_addr peer) (PeerHint profile))
    (filter (λ peer, sk_peer_id peer ≠ sk_peer_id profile) (bt_values (remote_peers n))).

(** The loop that pushes the topics not yet there. *)
Fixpoint merge_topics (topics new : list P2pTopic) : list P2pTopic :=
  match new with
  | [] => topics
  | t :: new => merge_topics (if bool_decide (t ∈ topics) then topics else topics ++ [t])%list new
  end.

Definition sorted_topics (topics : list P2pTopic) : list P2pTopic := dedup (sort_by leb topics).

Definition insert_peer (p : NodeId) (f : Profile) : Sock unit :=
  modify (λ n, set_remote_peers n (<[p := f]> (remote_peers n))).

Definition learn_remote_profile (now : Z) (profile : Profile) : Sock unit :=
  n <- gets id;;
  let p := sk_peer_id profile in
  if bool_decide (p = local_peer_id n) then m_ret tt else
  if table_full n p then bump DroppedPeerCap else
  match remote_peers n !! p with
  | Some existing =>
      let changed := negb (forallb (λ t, bool_decide (t ∈ sk_topics existing)) (sk_topics profile)) in
      let topics := merge_topics (sk_topics existing) (sk_topics profile) in
      let learned := set_profile existing (sk_addr profile)
        (if changed then sorted_topics topics else topics) (last_seen_millis existing) in
      insert_peer p learned;;;
      if changed
      then ignore_err announce_local_profile;;; ignore_err (announce_peer_hint learned)
      else m_ret tt
  | None =>
      let learned := set_profile profile (sk_addr profile) (sk_topics profile) now in
      insert_peer p learned;;;
      ignore_err announce_local_profile;;; ignore_err (announce_peer_hint learned)
  end.

Definition prune_stale_remote_peers : Sock unit :=
  modify (λ n, set_remote_peers n (filter (λ kv : NodeId * Profile,
    kv.1 ∈ configured_remote_peer_ids n
    ∨ saturating_sub (clock n) (last_seen_millis kv.2) <= STALE_PEER_MILLIS) (remote_peers n))).

Definition learn_remote_peer (now : Z) (p : NodeId) (addr : Addr) : Sock unit :=
  n <- gets id;;
  if bool_decide (p = local_peer_id n) then m_ret tt else
  if table_full n p then bump DroppedPeerCap else
  match remote_peers n !! p with
  | Some existing => insert_peer p (set_profile existing addr (sk_topics existing) now)
  | None =>
      let f := SocketPeerProfile_new p addr [] in
      let learned := set_profile f (sk_addr f) (sk_topics f) now in
      insert_peer p learned;;;
      ignore_err announce_local_profile;;; ignore_err (announce_peer_hint learned)
  end.

Definition learn_remote_topic (now : Z) (p : NodeId) (addr : Addr) (t : P2pTopic) : Sock unit :=
  n <- gets id;;
  if bool_decide (p = local_peer_id n) then m_ret tt else
  if table_full n p then bump DroppedPeerCap else
  match remote_peers n !! p with
  | Some existing =>
      if bool_decide (t ∈ sk_topics existing)
      then insert_peer p (set_profile existing addr (sk_topics existing) now)
      else
        let learned := set_profile existing addr (sorted_topics (sk_topics existing ++ [t])) now in
        insert_peer p learned;;; ignore_err (announce_peer_hint learned)
  | None =>
      let f := SocketPeerProfile_new p addr [t] in
      let learned := set_profile f (sk_addr f) (sk_topics f) now in
      insert_peer p learned;;;
      ignore_err announce_local_profile;;; ignore_err (announce_peer_hint learned)
  end.

(** The body of the loop of [pump_incoming]. *)
Definition handle (now : Z) (sender_addr : Addr) (wire : Wire) : Sock unit :=
  match wire with
  | PeerHello profile =>
      bump Received;;; bump HelloReceived;;;
      n <- gets id;;
      let p := sk_peer_id profile in
      if table_full n p then bump DroppedPeerCap
      else insert_peer p (set_profile profile sender_addr (sk_topics profile) now)
  | PeerHint profile =>
      bump Received;;; bump HintReceived;;; learn_remote_profile now profile
  | PeerGoodbye p =>
      bump Received;;; bump GoodbyeReceived;;;
      modify (λ n, set_remote_peers n (delete p (remote_peers n)));;;
      modify (λ n, set_sk_payloads n (filter (λ kv, provider kv.2 ≠ p) (sk_payloads n)))
  | WirePublish sender t m =>
      n <- gets id;;
      if negb (accept_remote_message n sender sender_addr) then bump DroppedSpoofed else
      learn_remote_topic now sender sender_addr t;;;
      modify (λ n, if bool_decide (t ∈ local_topics n) && negb (bool_decide (sender = local_peer_id n))
        then set_inbox n (inbox n ++ [{| from := sender; topic := t; message := m |}]) else n)
  | PayloadSync record =>
      n <- gets id;;
      if negb (accept_remote_message n (provider record) sender_addr) then bump DroppedSpoofed else
      learn_remote_peer now (provider record) sender_addr;;;
      modify (λ n, set_sk_payloads n (<[pp_payload_cid record := record]> (sk_payloads n)))
  end.

Fixpoint pump (queue : list (Incoming Addr)) : Sock unit :=
  match queue with
  | [] => m_ret tt
  | entry :: queue =>
      modify (λ n, set_socket n queue (attempts n) (clock n));;;
      match entry with
      | Idle => m_ret tt
      | RecvError e => m_throw (P2pIo e)
      | Datagram now sender_addr wire =>
          wire <- lift (map_err P2pJson wire);;
          handle now sender_addr wire;;;
          pump queue
      end
  end.

Definition pump_incoming : Sock unit := queue <- gets incoming;; pump queue.

Definition ensure_local (p : NodeId) : Sock unit :=
  n <- gets id;; ensure (bool_decide (p = local_peer_id n)) (UnknownPeer p).

Definition known n (p : NodeId) : bool :=
  bool_decide (p = local_peer_id n) || bool_decide (is_Some (remote_peers n !! p)).

Definition sock_learned_remote_peer_count : Sock Z :=
  pump_incoming;;; prune_stale_remote_peers;;;
  gets (λ n, Z.of_nat (length
    (filter (λ p, p ∉ configured_remote_peer_ids n) (bt_keys (remote_peers n))))).

Definition sock_register_peer (p : NodeId) : Sock unit :=
  n <- gets id;; ensure (known n p) (UnknownPeer p).

Definition sock_bootstrap_peer (p : NodeId) (topics : list P2pTopic) : Sock unit :=
  ensure_local p;;; pump_incoming;;;
  modify (λ n, set_local_topics n (list_to_set topics));;; announce_local_profile.

Definition sock_subscribe (p : NodeId) (t : P2pTopic) : Sock unit :=
  ensure_local p;;; pump_incoming;;;
  modify (λ n, set_local_topics n ({[t]} ∪ local_topics n));;; announce_local_profile.

Definition sock_unsubscribe (p : NodeId) (t : P2pTopic) : Sock bool :=
  ensure_local p;;; pump_incoming;;;
  removed <- gets (λ n, bool_decide (t ∈ local_topics n));;
  modify (λ n, set_local_topics n (local_topics n ∖ {[t]}));;;
  (if removed : bool then announce_local_profile else m_ret tt);;;
  m_ret removed.

Definition sock_remove_peer (p : NodeId) : Sock unit :=
  n <- gets id;;
  if bool_decide (p = local_peer_id n) then
    announce_goodbye;;;
    modify (λ n, set_sk_payloads (set_inbox (set_local_topics n ∅) []) ∅)
  else
    modify (λ n, set_remote_peers n (delete p (remote_peers n)));;;
    ok_or (remote_peers n !! p) (UnknownPeer p);;; m_ret tt.

Definition sock_known_peers : Sock (list NodeId) :=
  pump_incoming;;; prune_stale_remote_peers;;;
  gets (λ n, sort_by leb (local_peer_id n :: bt_keys (remote_peers n))).

Definition sock_subscriptions_for (p : NodeId) : Sock (list P2pTopic) :=
  pump_incoming;;;
  n <- gets id;;
  if bool_decide (p = local_peer_id n) then m_ret (bts_iter (local_topics n))
  else ok_or (sk_topics <$> remote_peers n !! p) (UnknownPeer p).

(** The remote peers that listen to a topic, in the order of their identities. *)
Definition listeners n (t : P2pTopic) : list Profile :=
  filter (λ f, t ∈ sk_topics f) (bt_values (remote_peers n)).

Definition sock_publish (p : NodeId) (m : P2pMessage) : Sock Z :=
  ensure_local p;;; pump_incoming;;;
  let t := message_topic m in
  fs <- gets (λ n, listeners n t);;
  ensure (negb (bool_decide (length fs = 0%nat))) (NoSubscribers t);;;
  for_each (λ f, send_wire (sk_addr f) (WirePublish p t m)) fs;;;
  m_ret (Z.of_nat (length fs)).

Definition sock_drain_inbox (p : NodeId) : Sock (list P2pEnvelope) :=
  n <- gets id;;
  if negb (bool_decide (p = local_peer_id n)) then
    ensure (bool_decide (is_Some (remote_peers n !! p))) (UnknownPeer p);;;
    pump_incoming;;; m_ret []
  else
    pump_incoming;;;
    box <- gets inbox;; modify (λ n, set_inbox n []);;; m_ret box.

Definition sock_advertise_payload (p : NodeId) (cid : ContentId) (hash : Hash32) (b : bytes) : Sock unit :=
  ensure_local p;;;
  let record := {| provider := p; pp_payload_cid := cid; pp_payload_hash := hash; pp_payload_bytes := b |} in
  modify (λ n, set_sk_payloads n (<[cid := record]> (sk_payloads n)));;;
  n <- gets id;;
  for_each (λ f, send_wire (sk_addr f) (PayloadSync record)) (bt_values (remote_peers n)).

Definition sock_request_payload (requester : NodeId) (cid : ContentId) : Sock PayloadProviderRecord :=
  n <- gets id;;
  ensure (known n requester) (UnknownPeer requester);;;
  pump_incoming;;;
  n <- gets id;;
  ok_or (sk_payloads n !! cid) (MissingPayload cid).

Definition SocketP2pNetwork_network : P2pNetwork (SocketP2pNetwork Addr) := {|
  backend_kind := "socket";
  learned_remote_peer_count := sock_learned_remote_peer_count;
  coordination_stats := (pump_incoming;;; gets stats);
  register_peer := sock_register_peer;
  bootstrap_peer := sock_bootstrap_peer;
  subscribe := sock_subscribe;
  unsubscribe := sock_unsubscribe;
  remove_peer := sock_remove_peer;
  known_peers := sock_known_peers;
  subscriptions_for := sock_subscriptions_for;
  publish := sock_publish;
  drain_inbox := sock_drain_inbox;
  advertise_payload := sock_advertise_payload;
  request_payload := sock_request_payload |}.
End Socket.

(** * Theorems *)

Lemma wp_ignore_err {S E} (m : M S E unit) (Q : outcome E unit → S → Prop) s :
  wp m (λ _, Q (Ok tt)) s → wp (ignore_err m) Q s.
Proof. unfold wp, ignore_err. by destruct (m s) as [[] ?]. Qed.

Section SocketProofs.
Context {Addr : Type} `{EqDecision Addr} `{B : BuildMode}.
Context (send_error : nat → Addr → SocketWireMessage Addr → option P2pError).
Context (local_addr : outcome P2pError Addr).
Implicit Types n : SocketP2pNetwork Addr.
Local Notation Sock := (M (SocketP2pNetwork Addr) P2pError).
Local Notation announce := (announce_local_profile send_error local_addr).
Local Notation hint := (announce_peer_hint send_error).

(** What sending leaves alone. *)
Record same_tables n n' : Prop := {
  same_local : local_peer_id n' = local_peer_id n;
  same_topics : local_topics n' = local_topics n;
  same_configured : configured_remote_peer_ids n' = configured_remote_peer_ids n;
  same_peers : remote_peers n' = remote_peers n;
  same_inbox : inbox n' = inbox n;
  same_payloads : sk_payloads n' = sk_payloads n;
}.

#[export] Instance same_tables_preorder : PreOrder same_tables.
Proof. split; [done|]. intros n1 n2 n3 [] []. split; congruence. Qed.

Lemma bump_tables c n : wp (bump c) (λ _, same_tables n) n.
Proof. unfold bump. repeat wp_step. done. Qed.

Lemma bump2_tables c c' n : wp (m_bind (bump c) (λ _, bump c')) (λ _, same_tables n) n.
Proof.
  apply wp_bind. eapply wp_mono; [apply bump_tables|]. intros [[]|e|] n' _ Ht; [|done..].
  eapply wp_mono; [apply bump_tables|]. intros r n'' _ Ht'. by trans n'.
Qed.

Lemma send_wire_tables addr wire n : wp (send_wire send_error addr wire) (λ _, same_tables n) n.
Proof.
  unfold send_wire. do 6 wp_step; [|done].
  destruct wire; try (eapply wp_mono; [apply bump2_tables|]; intros ? ? ? []; by split); by apply wp_ret.
Qed.

Lemma for_each_tables {A} (body : A → Sock unit) xs n :
  (∀ x n, wp (body x) (λ _, same_tables n) n) → wp (for_each body xs) (λ _, same_tables n) n.
Proof.
  intros Hbody. apply (wp_for_each _ _ (same_tables n)); [done| |done].
  intros x n' _ Hn. eapply wp_mono; [apply Hbody|]. intros r n'' _ Hn'. by trans n'.
Qed.

Lemma announce_tables n : wp announce (λ _, same_tables n) n.
Proof.
  unfold announce_local_profile. do 2 wp_step; [|done]. do 2 wp_step.
  apply for_each_tables. intros. apply send_wire_tables.
Qed.

Lemma hint_tables f n : wp (hint f) (λ _, same_tables n) n.
Proof. unfold announce_peer_hint. do 2 wp_step. apply for_each_tables. intros. apply send_wire_tables. Qed.

Lemma goodbye_tables n : wp (announce_goodbye send_error) (λ _, same_tables n) n.
Proof. unfold announce_goodbye. do 2 wp_step. apply for_each_tables. intros. apply send_wire_tables. Qed.

(** Announcements after an update, and updates of the table. *)
Definition updated_peer n (p : NodeId) n' : Prop :=
  same_tables n n' ∨
  (table_full n p = false ∧ ∃ f, same_tables (set_remote_peers n (<[p := f]> (remote_peers n))) n').

Lemma insert_updated n p f (k : Sock unit) :
  table_full n p = false → (∀ n, wp k (λ _, same_tables n) n) →
  wp (m_bind (insert_peer p f) (λ _, k)) (λ _, updated_peer n p) n.
Proof.
  intros Hfull Hk. unfold insert_peer. do 2 wp_step. eapply wp_mono; [apply Hk|].
  intros r n' _ Hn. right. split; [done|]. by exists f.
Qed.

Lemma announce_hint_tables f n :
  wp (m_bind (ignore_err announce) (λ _, ignore_err (hint f))) (λ _, same_tables n) n.
Proof.
  apply wp_bind, wp_ignore_err. eapply wp_mono; [apply announce_tables|]. intros r n' _ Ht.
  apply wp_ignore_err. eapply wp_mono; [apply hint_tables|]. intros r' n'' _ Ht'. by trans n'.
Qed.

Lemma ret_tables n : wp (m_ret tt : Sock unit) (λ _, same_tables n) n.
Proof. by apply wp_ret. Qed.

Ltac learn_cases n p :=
  do 2 wp_step; cbn [id]; case_bool_decide; [by apply wp_ret; left|];
  destruct (table_full n p) eqn:?;
  [eapply wp_mono; [apply bump_tables|]; intros; by left|].

Lemma learn_profile_updated now f n :
  wp (learn_remote_profile send_error local_addr now f) (λ _, updated_peer n (sk_peer_id f)) n.
Proof.
  unfold learn_remote_profile. learn_cases n (sk_peer_id f).
  destruct (remote_peers n !! sk_peer_id f); (apply insert_updated; [done|]); intros n'.
  - case_match; [apply announce_hint_tables|apply ret_tables].
  - apply announce_hint_tables.
Qed.

Lemma insert_peer_updated n p f :
  table_full n p = false → wp (insert_peer p f) (λ _, updated_peer n p) n.
Proof. intros Hf. unfold insert_peer. wp_step. right. split; [done|]. by exists f. Qed.

Lemma learn_peer_updated now p a n :
  wp (learn_remote_peer send_error local_addr now p a) (λ _, updated_peer n p) n.
Proof.
  unfold learn_remote_peer. learn_cases n p.
  destruct (remote_peers n !! p); [by apply insert_peer_updated|].
  apply insert_updated; [done|]. intros. apply announce_hint_tables.
Qed.

Lemma learn_topic_updated now p a t n :
  wp (learn_remote_topic send_error local_addr now p a t) (λ _, updated_peer n p) n.
Proof.
  unfold learn_remote_topic. learn_cases n p. destruct (remote_peers n !! p).
  - case_bool_decide; [by apply insert_peer_updated|]. apply insert_updated; [done|].
    intros n'. apply wp_ignore_err. apply hint_tables.
  - apply insert_updated; [done|]. intros. apply announce_hint_tables.
Qed.

(** ** The table of learned peers is bounded *)

Definition learned n : gset NodeId := dom (remote_peers n) ∖ configured_remote_peer_ids n.
Definition capped n : Prop := Z.of_nat (size (learned n)) <= MAX_REMOTE_PEERS.

Lemma capped_mono n n' : learned n' ⊆ learned n → capped n → capped n'.
Proof. unfold capped. intros Hs%subseteq_size. lia. Qed.

Lemma capped_tables n n' : same_tables n n' → capped n → capped n'.
Proof. intros []. apply capped_mono. unfold learned. congruence. Qed.

Lemma capped_insert n p f :
  table_full n p = false → capped n → capped (set_remote_peers n (<[p := f]> (remote_peers n))).
Proof.
  unfold table_full. rewrite !andb_false_iff, !bool_decide_eq_false, Z.leb_gt. intros Hfull Hcap.
  destruct (decide (p ∈ dom (remote_peers n) ∨ p ∈ configured_remote_peer_ids n)) as [Hin|Hout].
  - eapply capped_mono; [|exact Hcap]. unfold learned. simpl. rewrite dom_insert_L. set_solver.
  - assert (Z.of_nat (size (remote_peers n)) < MAX_REMOTE_PEERS) as Hsize.
    { destruct Hfull as [[Hf|Hf]|?]; [|set_solver|done]. exfalso. apply Hf.
      apply not_elem_of_dom. set_solver. }
    unfold capped, learned. simpl.
    assert (size (dom (<[p:=f]> (remote_peers n)) ∖ configured_remote_peer_ids n)
      ≤ size (<[p:=f]> (remote_peers n)))%nat as H1.
    { rewrite <- size_dom. apply subseteq_size. set_solver. }
    rewrite map_size_insert in H1. case_match; unfold id in *; lia.
Qed.

Lemma capped_updated n p n' : updated_peer n p n' → capped n → capped n'.
Proof.
  intros [Ht|(Hf & f & Ht)] Hn; [exact (capped_tables _ _ Ht Hn)|].
  eapply capped_tables; [exact Ht|]. by apply capped_insert.
Qed.

Lemma wp_tables_capped {A} (m : Sock A) n :
  capped n → wp m (λ _, same_tables n) n → wp m (λ _, capped) n.
Proof. intros Hn Hm. eapply wp_mono; [exact Hm|]. intros r n' _ Ht. exact (capped_tables _ _ Ht Hn). Qed.

Lemma wp_updated_capped {A} (m : Sock A) p n :
  capped n → wp m (λ _, updated_peer n p) n → wp m (λ _, capped) n.
Proof. intros Hn Hm. eapply wp_mono; [exact Hm|]. intros r n' _ Ht. exact (capped_updated _ _ _ Ht Hn). Qed.

(** [wp_from L]: the rest of the method starts in a state related to this one by [L]. *)
Ltac wp_from L :=
  apply wp_bind; eapply wp_mono; [apply L|];
  let r := fresh "r" in let n1 := fresh "n" in let Ht := fresh "Ht" in
  intros r n1 _ Ht; destruct r as [[]|?e|]; [|eauto using capped_tables, capped_updated|done];
  cbn beta iota in *.

Lemma bump2_capped c c' (k : Sock unit) n :
  capped n → (∀ n', same_tables n n' → capped n' → wp k (λ _, capped) n') →
  wp (m_bind (bump c) (λ _, m_bind (bump c') (λ _, k))) (λ _, capped) n.
Proof.
  intros Hn Hk. wp_from bump_tables. wp_from bump_tables. apply Hk; [by trans n0|].
  eauto using capped_tables.
Qed.

Lemma handle_capped now a wire n :
  capped n → wp (handle send_error local_addr now a wire) (λ _, capped) n.
Proof.
  intros Hn. destruct wire as [f|f|p|p t m|record]; simpl.
  - apply bump2_capped; [done|]. intros n' _ Hn'. do 2 wp_step. cbn [id].
    destruct (table_full n' (sk_peer_id f)) eqn:Hf.
    + apply wp_tables_capped; [done|apply bump_tables].
    + unfold insert_peer. wp_step. by apply capped_insert.
  - apply bump2_capped; [done|]. intros n' _ Hn'.
    eapply wp_updated_capped; [done|apply learn_profile_updated].
  - apply bump2_capped; [done|]. intros n' _ Hn'. repeat wp_step.
    eapply capped_mono; [|exact Hn']. unfold learned. simpl. rewrite dom_delete_L. set_solver.
  - do 2 wp_step. cbn [id]. destruct (negb _).
    { apply wp_tables_capped; [done|apply bump_tables]. }
    wp_from learn_topic_updated. wp_step. apply (capped_mono n0); [by case_match|].
    eauto using capped_updated.
  - do 2 wp_step. cbn [id]. destruct (negb _).
    { apply wp_tables_capped; [done|apply bump_tables]. }
    wp_from learn_peer_updated. wp_step. apply (capped_mono n0); [done|]. eauto using capped_updated.
Qed.

Lemma pump_capped queue n : capped n → wp (pump send_error local_addr queue) (λ _, capped) n.
Proof.
  revert n. induction queue as [|entry queue IH]; intros n Hn; simpl; [by apply wp_ret|].
  do 2 wp_step. assert (capped (set_socket n queue (attempts n) (clock n))) as Hn' by done.
  destruct entry as [now a wire| |e]; [|by apply wp_ret|by apply wp_throw].
  do 2 wp_step; [|done]. wp_step. eapply wp_mono; [by apply handle_capped|].
  intros [[]|e|] n' _ Hc; [by apply IH|done..].
Qed.

Lemma pump_incoming_capped n : capped n → wp (pump_incoming send_error local_addr) (λ _, capped) n.
Proof. intros Hn. unfold pump_incoming. do 2 wp_step. by apply pump_capped. Qed.

(** A call that returned, with a value or an error. *)
Definition returned {A} (m : Sock A) n n' : Prop := ∃ r, m n = (r, n') ∧ r ≠ Panic.

(** The life of a network: its methods, datagrams arriving and time passing. *)
Inductive sock_step n n' : Prop :=
| sk_environment i c : n' = set_socket n i (attempts n) c → sock_step n n'
| sk_count : returned (sock_learned_remote_peer_count send_error local_addr) n n' → sock_step n n'
| sk_stats : returned (pump_incoming send_error local_addr;;; gets stats) n n' → sock_step n n'
| sk_bootstrap p ts : returned (sock_bootstrap_peer send_error local_addr p ts) n n' → sock_step n n'
| sk_subscribe p t : returned (sock_subscribe send_error local_addr p t) n n' → sock_step n n'
| sk_unsubscribe p t : returned (sock_unsubscribe send_error local_addr p t) n n' → sock_step n n'
| sk_remove p : returned (sock_remove_peer send_error p) n n' → sock_step n n'
| sk_known : returned (sock_known_peers send_error local_addr) n n' → sock_step n n'
| sk_topics_of p : returned (sock_subscriptions_for send_error local_addr p) n n' → sock_step n n'
| sk_publish p m : returned (sock_publish send_error local_addr p m) n n' → sock_step n n'
| sk_drain p : returned (sock_drain_inbox send_error local_addr p) n n' → sock_step n n'
| sk_advertise p cid h b : returned (sock_advertise_payload send_error p cid h b) n n' → sock_step n n'
| sk_request p cid : returned (sock_request_payload send_error local_addr p cid) n n' → sock_step n n'.

Lemma returned_wp {A} (m : Sock A) n n' :
  wp m (λ _, capped) n → returned m n n' → capped n'.
Proof. intros Hm (r & Hr & Hp). exact (wp_elim _ _ _ _ _ Hm Hr Hp). Qed.

Lemma pump_then {A} (k : Sock A) n :
  capped n → (∀ n', capped n' → wp k (λ _, capped) n') →
  wp (m_bind (pump_incoming send_error local_addr) (λ _, k)) (λ _, capped) n.
Proof.
  intros Hn Hk. apply wp_bind. eapply wp_mono; [by apply pump_incoming_capped|].
  intros [[]|e|] n' _ Hn'; [by apply Hk|done..].
Qed.

Lemma local_then {A} p (k : Sock A) n :
  capped n → wp k (λ _, capped) n → wp (m_bind (ensure_local p) (λ _, k)) (λ _, capped) n.
Proof. intros Hn Hk. apply wp_bind. unfold ensure_local. by repeat wp_step. Qed.

Lemma capped_announce n : capped n → wp announce (λ _, capped) n.
Proof. intros Hn. apply wp_tables_capped; [done|apply announce_tables]. Qed.

Lemma prune_then {A} (k : Sock A) n :
  capped n → (∀ n', capped n' → wp k (λ _, capped) n') →
  wp (m_bind prune_stale_remote_peers (λ _, k)) (λ _, capped) n.
Proof.
  intros Hn Hk. unfold prune_stale_remote_peers. do 2 wp_step. apply Hk.
  eapply capped_mono; [|exact Hn]. unfold learned. simpl.
  pose proof (dom_filter_subseteq (λ kv : NodeId * SocketPeerProfile Addr,
    kv.1 ∈ configured_remote_peer_ids n ∨
    saturating_sub (clock n) (last_seen_millis kv.2) <= STALE_PEER_MILLIS) (remote_peers n)). set_solver.
Qed.

Lemma sends_capped {A C} (body : A → Sock unit) xs (k : Sock C) n :
  capped n → (∀ x n, wp (body x) (λ _, same_tables n) n) → (∀ n', capped n' → wp k (λ _, capped) n') →
  wp (m_bind (for_each body xs) (λ _, k)) (λ _, capped) n.
Proof.
  intros Hn Hb Hk. apply wp_bind. eapply wp_mono; [by apply for_each_tables|].
  intros [[]|e|] n' _ Ht; [apply Hk|..|done]; exact (capped_tables _ _ Ht Hn).
Qed.

Lemma step_capped n n' : capped n → sock_step n n' → capped n'.
Proof.
  intros Hn [i c ->|Hr|Hr|p ts Hr|p t Hr|p t Hr|p Hr|Hr|p Hr|p m Hr|p Hr|p cid h b Hr|p cid Hr];
    [done|..]; (eapply returned_wp; [|exact Hr]).
  - apply pump_then; [done|]. intros n1 H1. apply prune_then; [done|]. intros. by wp_step.
  - apply pump_then; [done|]. intros n1 H1. by wp_step.
  - apply local_then, pump_then; [done..|]. intros n1 H1. do 2 wp_step. by apply capped_announce.
  - apply local_then, pump_then; [done..|]. intros n1 H1. do 2 wp_step. by apply capped_announce.
  - apply local_then, pump_then; [done..|]. intros n1 H1. do 4 wp_step. wp_step.
    eapply (wp_mono _ (λ _, capped)); [case_bool_decide; [by apply capped_announce|by apply wp_ret]|].
    intros [[]|e|] n2 _ H2; [by apply wp_ret|done..].
  - unfold sock_remove_peer. do 2 wp_step. cbn [id]. case_bool_decide.
    + unfold announce_goodbye. wp_step. do 2 wp_step. eapply wp_mono.
      { apply for_each_tables. intros. apply send_wire_tables. }
      intros [[]|e|] n1 _ Ht; [wp_step|..|done]; exact (capped_tables _ _ Ht Hn).
    + assert (capped (set_remote_peers n (delete p (remote_peers n)))).
      { eapply capped_mono; [|exact Hn]. unfold learned. simpl. rewrite dom_delete_L. set_solver. }
      do 4 wp_step; [|done]. by wp_step.
  - apply pump_then; [done|]. intros n1 H1. apply prune_then; [done|]. intros. by wp_step.
  - apply pump_then; [done|]. intros n1 H1. do 2 wp_step. case_bool_decide; by wp_step.
  - apply local_then, pump_then; [done..|]. intros n1 H1. cbv zeta. do 4 wp_step; [|done].
    apply sends_capped; [done| |]; [intros; apply send_wire_tables|intros; by wp_step].
  - unfold sock_drain_inbox. do 2 wp_step. cbn [id]. case_bool_decide; simpl.
    + apply pump_then; [done|]. intros n1 H1. by repeat wp_step.
    + do 2 wp_step; [|done]. apply pump_then; [done|]. intros n1 H1. by wp_step.
  - apply local_then; [done|]. cbv zeta. do 4 wp_step. eapply wp_mono.
    { apply for_each_tables. intros. apply send_wire_tables. }
    intros r n1 _ Ht. exact (capped_tables _ _ Ht Hn).
  - unfold sock_request_payload. do 4 wp_step; [|done]. apply pump_then; [done|].
    intros n1 H1. do 2 wp_step. by wp_step.
Qed.

Lemma bind_capped p profiles : capped (bind p profiles : SocketP2pNetwork Addr).
Proof.
  assert (∀ m : gmap NodeId (SocketPeerProfile Addr),
    dom (foldl (λ m f, <[sk_peer_id f := f]> m) m profiles)
      ⊆ list_to_set (sk_peer_id <$> profiles) ∪ dom m) as Hall.
  { induction profiles as [|f profiles IH]; intros m; simpl; [set_solver|].
    etrans; [apply IH|]. rewrite dom_insert_L. set_solver. }
  unfold capped, learned. simpl. specialize (Hall ∅).
  assert (∀ X Y : gset NodeId, X ⊆ Y → Z.of_nat (size (X ∖ Y)) <= MAX_REMOTE_PEERS) as Hsub.
  { intros X Y ?. assert (X ∖ Y = ∅) as -> by set_solver. by rewrite size_empty. }
  apply Hsub. set_solver.
Qed.

(** C21: However many peers announce themselves, the peer table stays bounded: starting from
    the configured peers, whatever datagrams arrive and whichever methods are called, at
    most 128 peers that were not configured are ever in the table. *)
Theorem learned_peers_bounded p profiles n :
  rtc sock_step (bind p profiles) n → Z.of_nat (size (learned n)) <= MAX_REMOTE_PEERS.
Proof.
  intros Hr. change (capped n). pose proof (bind_capped p profiles) as H0.
  induction Hr as [|n0 n1 n2 Hs _ IH]; [done|]. apply IH. by eapply step_capped.
Qed.

(** ** Spoofed messages are dropped *)

(** An entry of the socket that does not speak for [p] from address [a], nor names [p]
    in a hello, hint or goodbye. *)
Definition not_from (p : NodeId) (a : Addr) (entry : Incoming Addr) : Prop :=
  match entry with
  | Datagram _ _ (Ok (PeerHello f)) | Datagram _ _ (Ok (PeerHint f)) => sk_peer_id f ≠ p
  | Datagram _ _ (Ok (PeerGoodbye q)) => q ≠ p
  | Datagram _ s (Ok (WirePublish q _ _)) => q = p → s ≠ a
  | Datagram _ s (Ok (PayloadSync r)) => provider r = p → s ≠ a
  | _ => True
  end.

(** [p] is still known as [f], and nothing in its name was added since [n]. *)
Record nothing_new (p : NodeId) (f : SocketPeerProfile Addr) n n' : Prop := {
  nn_peer : remote_peers n' !! p = Some f;
  nn_inbox : filter (λ e, from e = p) (inbox n') = filter (λ e, from e = p) (inbox n);
  nn_payloads : ∀ cid r, sk_payloads n' !! cid = Some r → provider r = p → sk_payloads n !! cid = Some r;
}.

Lemma nothing_new_tables p f n n1 n2 :
  same_tables n1 n2 → nothing_new p f n n1 → nothing_new p f n n2.
Proof. intros [_ _ _ Hp Hi Hs] []. split; [by rewrite Hp|by rewrite Hi|by rewrite Hs]. Qed.

Lemma nothing_new_updated p q f n n1 n2 :
  updated_peer n1 q n2 → q ≠ p → nothing_new p f n n1 → nothing_new p f n n2.
Proof.
  intros [Ht|(_ & g & Ht)] Hne Hn; [exact (nothing_new_tables _ _ _ _ _ Ht Hn)|].
  eapply nothing_new_tables; [exact Ht|]. destruct Hn as [Hp Hi Hs].
  split; [|done..]. simpl. by rewrite lookup_insert_ne.
Qed.

Lemma bump_nothing_new p f n n1 c :
  nothing_new p f n n1 → wp (bump c) (λ _, nothing_new p f n) n1.
Proof.
  intros Hn. eapply wp_mono; [apply bump_tables|]. intros r n2 _ Ht. exact (nothing_new_tables _ _ _ _ _ Ht Hn).
Qed.

Lemma bump2_nothing_new p f n n1 c c' (k : Sock unit) :
  nothing_new p f n n1 → (∀ n2, nothing_new p f n n2 → wp k (λ _, nothing_new p f n) n2) →
  wp (m_bind (bump c) (λ _, m_bind (bump c') (λ _, k))) (λ _, nothing_new p f n) n1.
Proof.
  intros Hn Hk. apply wp_bind. eapply wp_mono; [by apply bump_nothing_new|].
  intros [[]|e|] n2 _ H2; [|done..]. apply wp_bind. eapply wp_mono; [by apply bump_nothing_new|].
  intros [[]|e|] n3 _ H3; [|done..]. by apply Hk.
Qed.

Lemma accept_not_from n1 p f q s :
  remote_peers n1 !! p = Some f → (q = p → s ≠ sk_addr f) →
  accept_remote_message n1 q s = true → q ≠ p.
Proof.
  unfold accept_remote_message. intros Hp Hs. case_bool_decide; [done|]. intros Ha ->.
  rewrite Hp in Ha. apply bool_decide_eq_true in Ha. by apply Hs.
Qed.

Lemma handle_nothing_new p f now s wire n n1 :
  not_from p (sk_addr f) (Datagram now s (Ok wire)) → nothing_new p f n n1 →
  wp (handle send_error local_addr now s wire) (λ _, nothing_new p f n) n1.
Proof.
  intros Hnot Hn. pose proof (nn_peer _ _ _ _ Hn) as Hp.
  destruct wire as [g|g|q|q t m|record]; simpl in *.
  - apply bump2_nothing_new; [done|]. intros n2 H2. do 2 wp_step. cbn [id].
    destruct (table_full n2 _); [by apply bump_nothing_new|]. unfold insert_peer. wp_step.
    destruct H2 as [? ? ?]. split; [|done..]. simpl. by rewrite lookup_insert_ne.
  - apply bump2_nothing_new; [done|]. intros n2 H2.
    eapply wp_mono; [apply learn_profile_updated|]. intros r n3 _ Hu. exact (nothing_new_updated _ _ _ _ _ _ Hu Hnot H2).
  - apply bump2_nothing_new; [done|]. intros n2 [H2 Hi Hs]. repeat wp_step.
    split; simpl; [by rewrite lookup_delete_ne|done|].
    intros cid r [Hr _]%map_lookup_filter_Some. by apply Hs.
  - do 2 wp_step. cbn [id]. destruct (accept_remote_message n1 q s) eqn:Ha; simpl;
      [|by apply bump_nothing_new].
    pose proof (accept_not_from _ _ _ _ _ Hp Hnot Ha) as Hne.
    wp_step. eapply wp_mono; [apply learn_topic_updated|].
    intros r n2 Hr Hu. assert (nothing_new p f n n2) as H2 by exact (nothing_new_updated _ _ _ _ _ _ Hu Hne Hn).
    destruct r as [[]|e|]; [|done..]. wp_step. case_match; [|done]. destruct H2 as [? Hi ?].
    split; [done| |done]. simpl. rewrite filter_app, Hi, filter_cons_False; [|done].
    by rewrite filter_nil, app_nil_r.
  - do 2 wp_step. cbn [id]. destruct (accept_remote_message n1 (provider record) s) eqn:Ha; simpl;
      [|by apply bump_nothing_new].
    pose proof (accept_not_from _ _ _ _ _ Hp Hnot Ha) as Hne.
    wp_step. eapply wp_mono; [apply learn_peer_updated|].
    intros r n2 Hr Hu. assert (nothing_new p f n n2) as H2 by exact (nothing_new_updated _ _ _ _ _ _ Hu Hne Hn).
    destruct r as [[]|e|]; [|done..]. wp_step. destruct H2 as [? ? Hs].
    split; [done|done|]. simpl. intros cid r. rewrite lookup_insert. case_decide as Hc; [|apply Hs].
    by intros [= ->] ?.
Qed.

Lemma pump_nothing_new p f queue n n1 :
  Forall (not_from p (sk_addr f)) queue → nothing_new p f n n1 →
  wp (pump send_error local_addr queue) (λ _, nothing_new p f n) n1.
Proof.
  intros Hq. revert n1. induction Hq as [|entry queue He Hq IH]; intros n1 Hn; simpl; [by apply wp_ret|].
  do 2 wp_step. assert (nothing_new p f n (set_socket n1 queue (attempts n1) (clock n1))) as Hn'.
  { by destruct Hn. }
  destruct entry as [now s wire| |e]; [|by apply wp_ret|by apply wp_throw].
  destruct wire as [wire|e|]; do 2 wp_step; try done. simplify_eq/=. wp_step.
  eapply wp_mono; [by apply handle_nothing_new|].
  intros [[]|e'|] n2 _ H2; [by apply IH|done..].
Qed.

(** Nobody speaks for a known peer from another address: as long as no hello, hint or
    goodbye names the peer, reading the socket delivers no message and stores no payload
    in its name unless it came from the address on record, and that record stays. *)
Theorem spoofed_messages_dropped p f n r n' :
  remote_peers n !! p = Some f → Forall (not_from p (sk_addr f)) (incoming n) →
  pump_incoming send_error local_addr n = (r, n') → r ≠ Panic →
  remote_peers n' !! p = Some f ∧
  filter (λ e, from e = p) (inbox n') = filter (λ e, from e = p) (inbox n) ∧
  (∀ cid x, sk_payloads n' !! cid = Some x → provider x = p → sk_payloads n !! cid = Some x).
Proof.
  intros Hp Hin Hrun Hr.
  destruct (wp_elim _ _ _ _ _ (pump_nothing_new p f (incoming n) n n Hin ltac:(by split)) Hrun Hr); auto.
Qed.

(** ** Published messages arrive *)

Lemma bump_no_err c n : wp (bump c) (λ r _, r = Ok tt) n.
Proof. unfold bump. by repeat wp_step. Qed.

Lemma ignore_err_no_err (m : Sock unit) n : wp (ignore_err m) (λ r _, r = Ok tt) n.
Proof. unfold wp, ignore_err. by destruct (m n) as [[] ?]. Qed.

Lemma learn_topic_no_err now p a t n :
  wp (learn_remote_topic send_error local_addr now p a t) (λ r _, r = Ok tt) n.
Proof.
  unfold learn_remote_topic. do 2 wp_step. cbn [id]. case_bool_decide; [by wp_step|].
  case_match; [apply bump_no_err|]. unfold insert_peer. case_match; [case_bool_decide|].
  - by wp_step.
  - do 2 wp_step. apply ignore_err_no_err.
  - do 3 wp_step. eapply wp_mono; [apply ignore_err_no_err|]. intros r n' _ ->. apply ignore_err_no_err.
Qed.

Lemma handle_publish_delivers now p a t m n r n' :
  accept_remote_message n p a = true → t ∈ local_topics n →
  handle send_error local_addr now a (WirePublish p t m) n = (r, n') → r ≠ Panic →
  r = Ok tt ∧ inbox n' = (inbox n ++ [{| from := p; topic := t; message := m |}])%list.
Proof.
  intros Ha Ht Hrun Hr. revert Hrun Hr. apply (wp_elim _ (λ r n', r = Ok tt ∧
    inbox n' = (inbox n ++ [{| from := p; topic := t; message := m |}])%list)).
  assert (p ≠ local_peer_id n) as Hne.
  { unfold accept_remote_message in Ha. by case_bool_decide. }
  simpl. do 2 wp_step. cbn [id]. rewrite Ha. simpl. wp_step.
  eapply wp_mono; [apply wp_and; [apply learn_topic_no_err|apply learn_topic_updated]|].
  intros r' n1 _ [-> Hu]. wp_step. split; [done|].
  assert (local_peer_id n1 = local_peer_id n ∧ local_topics n1 = local_topics n ∧ inbox n1 = inbox n)
    as (-> & -> & Hi) by (destruct Hu as [[]|(_ & f & [])]; auto).
  rewrite bool_decide_true, bool_decide_false by done. simpl. by rewrite Hi.
Qed.

Definition add_attempts n (ws : list (Addr * SocketWireMessage Addr)) : SocketP2pNetwork Addr :=
  set_socket n (incoming n) (attempts n ++ ws) (clock n).

Lemma sends_attempted p t m fs n :
  (∀ k a w, send_error k a w = None) →
  for_each (λ f : SocketPeerProfile Addr, send_wire send_error (sk_addr f) (WirePublish p t m)) fs n =
    (Ok tt, add_attempts n ((λ f, (sk_addr f, WirePublish p t m)) <$> fs)).
Proof.
  intros Hok. revert n. induction fs as [|f fs IH]; intros n; simpl.
  - unfold m_ret, add_attempts. rewrite app_nil_r. by destruct n.
  - unfold m_bind, send_wire, m_bind, gets, modify, lift. rewrite Hok. cbn [m_ret].
    rewrite IH. unfold add_attempts. simpl. by rewrite <- app_assoc.
Qed.

(** A published message reaches its listeners. When the socket has nothing to read and
    its sends succeed, [publish] hands one datagram to every known peer that listens to
    the topic, to no other, and returns their number; and a node with that topic that
    receives such a datagram from a sender it accepts, and returns, has the message at
    the end of its inbox. *)
Theorem published_message_delivered p m n :
  local_peer_id n = p → incoming n = [] → (∀ k a w, send_error k a w = None) →
  let t := message_topic m in
  sock_publish send_error local_addr p m n =
    match listeners n t with
    | [] => (Err (NoSubscribers t), n)
    | fs => (Ok (Z.of_nat (length fs)),
             add_attempts n ((λ f, (sk_addr f, WirePublish p t m)) <$> fs))
    end ∧
  (∀ q now a r q', accept_remote_message q p a = true → t ∈ local_topics q →
     handle send_error local_addr now a (WirePublish p t m) q = (r, q') → r ≠ Panic →
     r = Ok tt ∧ inbox q' = (inbox q ++ [envelope p m])%list).
Proof.
  intros Hp Hin Hok t. split.
  - unfold sock_publish, ensure_local, pump_incoming, m_bind, gets, ensure, lift, id.
    rewrite bool_decide_true by done. rewrite Hin. simpl. fold t.
    destruct (listeners n t) as [|f fs] eqn:E; [done|].
    change (negb (bool_decide (length (f :: fs) = 0%nat))) with true. cbn [m_ret].
    by rewrite sends_attempted.
  - intros q now a r q' Ha Ht Hrun Hr. by eapply handle_publish_delivers.
Qed.
End SocketProofs.

(** ** A node with one configured peer; addresses are port numbers *)

Definition demo_send (k : nat) (a : Z) (w : SocketWireMessage Z) : option P2pError := None.
Definition demo_profile (i : Z) : SocketPeerProfile Z :=
  SocketPeerProfile_new (demo_peer i) i [Receipts].
Definition demo_socket (queue : list (Incoming Z)) : SocketP2pNetwork Z :=
  set_socket (set_local_topics (bind (demo_peer 0) [demo_profile 1]) {[Receipts]}) queue [] 1000.
Definition demo_publish (i : Z) : SocketWireMessage Z :=
  WirePublish (demo_peer i) Receipts demo_message.

#[local] Instance demo_build : BuildMode := true.

Lemma learned_peers_bounded_witness :
  let n := (sock_subscribe demo_send (Ok 0) (demo_peer 0) Receipts
    (set_socket (bind (demo_peer 0) [demo_profile 1])
       [Datagram 990 2 (Ok (PeerHello (demo_profile 2)))] [] 1000)).2 in
  size (learned n) = 1%nat ∧ Z.of_nat (size (learned n)) <= MAX_REMOTE_PEERS.
Proof.
  cbv zeta. split; [by vm_compute|]. apply (learned_peers_bounded demo_send (Ok 0) (demo_peer 0) [demo_profile 1]).
  eapply rtc_l; [by apply (sk_environment _ _ _ _ [Datagram 990 2 (Ok (PeerHello (demo_profile 2)))] 1000)|].
  eapply rtc_l; [|apply rtc_refl]. apply (sk_subscribe _ _ _ _ (demo_peer 0) Receipts).
  eexists (Ok tt). split; [by vm_compute|done].
Defined.

Lemma spoofed_messages_dropped_witness :
  let n := demo_socket [Datagram 990 9 (Ok (demo_publish 1)); Idle] in
  ∃ n', pump_incoming demo_send (Ok 0) n = (Ok tt, n') ∧
    dropped_spoofed_count (stats n') = 1 ∧ filter (λ e, from e = demo_peer 1) (inbox n') = [].
Proof.
  cbv zeta. set (n := demo_socket _). exists (pump_incoming demo_send (Ok 0) n).2.
  assert (pump_incoming demo_send (Ok 0) n = (Ok tt, (pump_incoming demo_send (Ok 0) n).2)) as Hrun
    by by vm_compute.
  split; [done|]. split; [by vm_compute|].
  destruct (spoofed_messages_dropped demo_send (Ok 0) (demo_peer 1) (demo_profile 1) n _ _
    ltac:(by vm_compute) ltac:(by repeat constructor) Hrun ltac:(done)) as (_ & -> & _). done.
Defined.

Lemma published_message_delivered_witness :
  let n := demo_socket [] in
  (sock_publish demo_send (Ok 0) (demo_peer 0) demo_message n).1 = Ok 1.
Proof.
  cbv zeta. destruct (published_message_delivered demo_send (Ok 0) (demo_peer 0) demo_message
    (demo_socket []) ltac:(done) ltac:(done) ltac:(done)) as [-> _]. by vm_compute.
Defined.

(** A hello in the name of a known peer moves that peer to the sender's address, so the
    next message in its name is accepted. *)
Example hello_takes_over_identity :
  inbox (pump_incoming demo_send (Ok 0)
    (demo_socket [Datagram 980 9 (Ok (PeerHello (demo_profile 1)));
                  Datagram 990 9 (Ok (demo_publish 1))])).2 = [envelope (demo_peer 1) demo_message].
Proof. vm_compute. reflexivity. Qed.

(** One datagram that does not parse, from anyone, makes the next call fail. *)
Example malformed_datagram_fails_publish :
  (sock_publish demo_send (Ok 0) (demo_peer 0) demo_message
    (demo_socket [Datagram 980 9 (Err "expected value")])).1 = Err (P2pJson "expected value").
Proof. vm_compute. reflexivity. Qed.

(** With a full table, a message of an unknown sender is counted as dropped, and delivered. *)
Example full_table_still_delivers :
  let n := set_local_topics (set_socket
    (bind (demo_peer 0) ((λ i, demo_profile (Z.of_nat i)) <$> seq 1 128))
    [Datagram 980 9 (Ok (demo_publish 300))] [] 1000) {[Receipts]} in
  let n' := (pump_incoming demo_send (Ok 0) n).2 in
  dropped_peer_cap_count (stats n') = 1 ∧ inbox n' = [envelope (demo_peer 300) demo_message].
Proof. vm_compute. split; reflexivity. Qed.
