(* ===== verification/NodeRuntime.v ===== *)
(** * The node runtime: src/src/node_runtime.rs, and the batch loader of
    src/src/node_daemon.rs

    Samples become a signed, sealed batch, which is stored and announced; the stored
    batches of an epoch are read back and committed to. The configured identity is the
    argument [identity] ([None] when it cannot be loaded), the network is any instance of
    [P2pNetwork], and the state of a method is the retention book with the network. *)
From S2P Require Import Prelude Primitives Params Records Crypto Store Tokenomics Rewards StorageBook Pipeline MutualProof Text NodeConfig ActiveParams CosmosAddress Verifier Aggregator EpochRewards StorageAudit P2p.
Local Open Scope pole_scope.

Record CollectAndStoreOutcome := {
  assembled_batch : AssembledBatch;
  stored_payload : option StoredPayloadRecord;
  batch_recipients : Z;
  receipt_recipients : Z;
}.

Record EpochCommitInputs := {
  in_epoch_id : EpochId;
  in_current_height : Height;
  in_challenge_window_blocks : Z;
  in_batches : list AssembledBatch;
  in_stored_payloads : list StoredPayloadRecord;
  in_aggregates_root : Hash32;
  in_rewards_root : Hash32;
}.

Inductive NodeRuntimeError :=
| RtConfig (e : NodeConfigError)
| RtPipeline (e : NodePipelineError)
| RtStorage (e : StorageBookError)
| RtP2p (e : P2pError)
| RtMissingCapability (c : Capability)
| RtEmptyBatchSet.

(** [borsh::to_vec], which the callers [expect]. *)
Class RuntimeEncoding := {
  borsh_stored_payload : StoredPayloadRecord → option bytes;
  borsh_seed : EpochId → Hash32 → Hash32 → option bytes;
}.

(** The errors of a nested computation, and computations on a part of the state. *)
Definition m_map_err {S E F A} (f : E → F) (m : M S E A) : M S F A := λ s,
  let '(r, s') := m s in (map_err f r, s').
Definition on_fst {S T E A} (m : M S E A) : M (S * T) E A := λ s,
  let '(r, s') := m s.1 in (r, (s', s.2)).
Definition on_snd {S T E A} (m : M T E A) : M (S * T) E A := λ s,
  let '(r, s') := m s.2 in (r, (s.1, s')).


Definition development_signature_placeholder (epoch_id : EpochId) (slot_id : SlotId) (app_id : AppId)
    (players : Z) : bytes :=
  stable_hash32 (string_bytes ("dev-sig:" +:+ display epoch_id +:+ ":" +:+ display slot_id +:+ ":"
    +:+ display app_id +:+ ":" +:+ display players)).

Section Runtime.
Context `{B : BuildMode} `{X : External} `{PE : PipelineEncoding} `{PX : ProofExternal}.
Context `{RE : ReceiptEncoding} `{RT : RuntimeEncoding} `{BC : Bech32}.
Context {DB : Type} `{PS : ProtocolStore DB}.
Context (config : NodeConfig) (identity : option KeyPair) (store : option DB).

Definition ensure_collect_enabled : outcome NodeRuntimeError unit :=
  if negb (cap_collect (nc_capabilities config)) || negb (collect_enabled (nc_collect config))
  then Err (RtMissingCapability Collect) else Ok tt.

Definition ensure_propose_enabled : outcome NodeRuntimeError unit :=
  if negb (cap_propose (nc_capabilities config)) then Err (RtMissingCapability Propose) else Ok tt.

(** One round of the loop over the samples, up to the push. *)
Definition observe (epoch_id : EpochId) (slot_id : SlotId) (collector : NodeId) (sample : ActivitySample)
    : outcome NodeRuntimeError ObservationRecord :=
  let placeholder := development_signature_placeholder epoch_id slot_id (as_app_id sample)
    (as_observed_players sample) in
  do? o <- map_err RtPipeline (into_observation sample epoch_id slot_id collector placeholder);
  match identity with
  | None => Ok o
  | Some keypair =>
      do? payload <- or_panic (observation_signing_payload o);
      Ok (with_collector_signature o (sign keypair payload))
  end.

Fixpoint collect_loop (epoch_id : EpochId) (slot_id : SlotId) (collector : NodeId) (b : BatchBuilder)
    (samples : list ActivitySample) : outcome NodeRuntimeError BatchBuilder :=
  match samples with
  | [] => Ok b
  | sample :: samples =>
      do? o <- observe epoch_id slot_id collector sample;
      do? b <- map_err RtPipeline (push b o);
      collect_loop epoch_id slot_id collector b samples
  end.

Definition collect_batch_from_samples (epoch_id : EpochId) (slot_id : SlotId)
    (samples : list ActivitySample) : outcome NodeRuntimeError AssembledBatch :=
  do? _enabled <- ensure_collect_enabled;
  do? collector <- map_err RtConfig (node_id config);
  do? b <- collect_loop epoch_id slot_id collector (BatchBuilder_new epoch_id collector) samples;
  map_err RtPipeline (finalize b 0).

(** [if capabilities.store { Some(record_batch_payload(..)?) } else { None }] *)
Definition store_batch (id : NodeId) (epoch_id : EpochId) (s : AssembledBatch)
    : M LocalRetentionBook NodeRuntimeError (option StoredPayloadRecord) :=
  if cap_store (nc_capabilities config) then
    record <- m_map_err RtStorage (record_batch_payload id epoch_id
      (effective_min_retention_epochs store config) (payload_bytes s));;
    m_ret (Some record)
  else m_ret None.

Definition collect_and_store_samples (epoch_id : EpochId) (slot_id : SlotId)
    (samples : list ActivitySample) : M LocalRetentionBook NodeRuntimeError CollectAndStoreOutcome :=
  s <- lift (collect_batch_from_samples epoch_id slot_id samples);;
  id <- lift (map_err RtConfig (node_id config));;
  record <- store_batch id epoch_id s;;
  m_ret {| assembled_batch := s; stored_payload := record; batch_recipients := 0;
           receipt_recipients := 0 |}.

(** [config.identity_account_bech32().unwrap_or_default()] *)
Definition advertised_address : outcome NodeRuntimeError string :=
  match identity with
  | None => Ok ""
  | Some keypair => match encode_bech32 DEFAULT_BECH32_PREFIX
      (cosmos_account_from_pubkey (public keypair)) with
    | Ok address => Ok address | Err _ => Ok "" | Panic => Panic end
  end.

Section Network.
Context {N : Type} `{NW : P2pNetwork N}.
Local Notation Run := (M (LocalRetentionBook * N) NodeRuntimeError).

Definition publish_best_effort (sender : NodeId) (m : P2pMessage) : M N NodeRuntimeError Z := λ n,
  match publish sender m n with
  | (Ok count, n') => (Ok count, n')
  | (Err (NoSubscribers _), n') => (Ok 0, n')
  | (Err e, n') => (Err (RtP2p e), n')
  | (Panic, n') => (Panic, n')
  end.

Definition collect_store_and_publish_samples (epoch_id : EpochId) (slot_id : SlotId)
    (samples : list ActivitySample) : Run CollectAndStoreOutcome :=
  s <- lift (collect_batch_from_samples epoch_id slot_id samples);;
  id <- lift (map_err RtConfig (node_id config));;
  on_snd (m_map_err RtP2p
    (advertise_payload id (ab_payload_cid s) (ab_payload_hash s) (payload_bytes s)));;;
  address <- lift advertised_address;;
  batch_count <- on_snd (publish_best_effort id (MsgBatch (batch_announcement_from_assembled s address)));;
  record <- on_fst (store_batch id epoch_id s);;
  receipt_count <- match record with
    | Some record => on_snd (publish_best_effort id
        (MsgReplicaReceipt (replica_receipt_announcement_from_record record)))
    | None => m_ret 0
    end;;
  m_ret {| assembled_batch := s; stored_payload := record; batch_recipients := batch_count;
           receipt_recipients := receipt_count |}.

Definition collect_store_and_publish (epoch_id : EpochId) (slot_id : SlotId)
    (sample : ActivitySample) : Run CollectAndStoreOutcome :=
  collect_store_and_publish_samples epoch_id slot_id [sample].
End Network.

Definition batch_leaf (s : AssembledBatch) : option Hash32 :=
  match borsh_batch_commit (ab_batch_commit s) with
  | Ok encoded => Some (merkle_leaf_sha256 encoded)
  | _ => None
  end.

Definition payload_leaf (r : StoredPayloadRecord) : option Hash32 :=
  encoded ← borsh_stored_payload r; Some (merkle_leaf_sha256 encoded).

(** [u32::from(root != [0u8; 32])] *)
Definition optional_commitment (r : Hash32) : MerkleCommitment :=
  {| root := r; leaf_count := if bool_decide (r = replicate 32 0) then 0 else 1 |}.

Definition build_epoch_commit (inputs : EpochCommitInputs) : outcome NodeRuntimeError EpochCommit :=
  do? _enabled <- ensure_propose_enabled;
  if bool_decide (length (in_batches inputs) = 0%nat) then Err RtEmptyBatchSet else
  do? proposer <- map_err RtConfig (node_id config);
  do? batch_hashes <- or_panic (mapM batch_leaf (in_batches inputs));
  let accepted_batches_root := merkle_root batch_hashes in
  do? observation_hashes <- or_panic (mapM observation_leaf (in_batches inputs ≫= ab_observations));
  let observations_root := merkle_root observation_hashes in
  do? payload_hashes <- or_panic (mapM payload_leaf (in_stored_payloads inputs));
  do? seed <- or_panic (borsh_seed (in_epoch_id inputs) accepted_batches_root observations_root);
  do? deadline <- or_panic (add 64 (in_current_height inputs) (in_challenge_window_blocks inputs));
  let count {A} (l : list A) := Z.of_nat (length l) mod 2 ^ 32 in
  Ok {| ec_epoch_id := in_epoch_id inputs;
        accepted_batches := {| root := accepted_batches_root; leaf_count := count (in_batches inputs) |};
        observations := {| root := observations_root; leaf_count := count observation_hashes |};
        aggregates := optional_commitment (in_aggregates_root inputs);
        ec_rewards := optional_commitment (in_rewards_root inputs);
        availability := {| root := merkle_root payload_hashes; leaf_count := count (in_stored_payloads inputs) |};
        randomness_seed := stable_hash32 seed;
        proposer_id := proposer;
        challenge_open_height := in_current_height inputs;
        challenge_deadline_height := deadline |}.
End Runtime.

(** ** Reading the batches of an epoch back *)

Inductive SteamCollectorError :=
| SteamHttp (e : string)
| SteamInvalidJson (e : string)
| SteamMissingResult
| SteamMissingPlayerCount
| SteamClock (e : string).

Inductive NodeDaemonError :=
| DaemonConfig (e : NodeConfigError)
| DaemonRuntime (e : NodeRuntimeError)
| DaemonStorage (e : StorageBookError)
| DaemonAggregation (e : NodeAggregationError)
| DaemonReward (e : NodeRewardError)
| DaemonVerification (e : NodeVerificationError)
| DaemonSettlement (e : string)
| DaemonStorageAudit (e : NodeStorageAuditError)
| DaemonMutualProof (e : MutualProofError)
| DaemonSteam (e : SteamCollectorError)
| DaemonIo (e : string)
| DaemonJson (e : string)
| DaemonNoTargetApps
| DaemonInvalidHexLength (expected actual : Z)
| DaemonInvalidHexCharacter (index byte : Z).

(** [decode_hex_32] of node_daemon.rs: the one of node_config.rs, with its own errors. *)
Definition daemon_hex_error (e : NodeConfigError) : NodeDaemonError :=
  match e with
  | InvalidHexLength _ expected actual => DaemonInvalidHexLength expected actual
  | InvalidHexCharacter _ index byte => DaemonInvalidHexCharacter index byte
  | e => DaemonConfig e
  end.
Definition daemon_decode_hex_32 (input : string) : outcome NodeDaemonError Hash32 :=
  map_err daemon_hex_error (decode_hex_32 input "").

Section Loading.
Context `{VE : VerifierEncoding} (config : NodeConfig) (read_payload : string → outcome string bytes).

Definition load_batch (local_node_id : NodeId) (a : CollectTickArtifact)
    : outcome NodeDaemonError AssembledBatch :=
  do? payload <- map_err DaemonIo (read_payload (ct_payload_cid a));
  do? os <- map_err (λ e, DaemonStorage (BookBorsh e)) (borsh_decode_observations payload);
  do? hash <- daemon_decode_hex_32 (ct_payload_hash_hex a);
  do? batch_root <- daemon_decode_hex_32 (ct_batch_root_hex a);
  Ok {| ab_batch_commit := {|
          bc_epoch_id := ct_epoch_id a;
          bc_collector_id := default local_node_id (obs_collector_id <$> head os);
          slot_start := ct_slot_id a; slot_end := ct_slot_id a;
          batch := {| root := batch_root; leaf_count := ct_obs_count a |};
          bc_payload_cid := ct_payload_cid a; obs_count := ct_obs_count a;
          submitted_at_height := 0 |};
        ab_payload_hash := hash; ab_payload_cid := ct_payload_cid a;
        payload_bytes := payload; ab_observations := os |}.

Fixpoint load_files (local_node_id : NodeId) (epoch_id : EpochId)
    (files : list (outcome NodeDaemonError CollectTickArtifact))
    : outcome NodeDaemonError (list AssembledBatch) :=
  match files with
  | [] => Ok []
  | file :: files =>
      do? a <- file;
      if negb (ct_epoch_id a =? epoch_id) then load_files local_node_id epoch_id files else
      do? s <- load_batch local_node_id a;
      do? rest <- load_files local_node_id epoch_id files;
      Ok (s :: rest)
  end.

(** [files]: the parsed files of the directory in path order, [None] if there is none. *)
Definition load_batches_for_epoch (files : option (list (outcome NodeDaemonError CollectTickArtifact)))
    (epoch_id : EpochId) : outcome NodeDaemonError (list AssembledBatch) :=
  match files with
  | None => Ok []
  | Some files =>
      do? local_node_id <- map_err DaemonConfig (node_id config);
      load_files local_node_id epoch_id files
  end.
End Loading.

(** * Theorems *)

(** Ed25519 signatures have 64 bytes. *)
Class SignatureSize `{ProofExternal} : Prop :=
  signature_size : ∀ seed m, length (ed25519_sign seed m) = 64%nat.

Section Collecting.
Context `{B : BuildMode} `{X : External} `{PE : PipelineEncoding} `{PX : ProofExternal}.
Context (config : NodeConfig) (identity : option KeyPair).

Lemma observe_ok e slot c sample o :
  observe identity e slot c sample = Ok o →
  obs_epoch_id o = e ∧ obs_slot_id o = slot ∧ obs_collector_id o = c ∧
  obs_app_id o = as_app_id sample ∧ observed_players o = as_observed_players sample ∧
  match identity with
  | None => True
  | Some k => ∃ payload, observation_signing_payload o = Some payload ∧
                collector_signature o = sign k payload
  end.
Proof.
  unfold observe, into_observation. do 2 (case_bool_decide; [done|]). simpl.
  destruct identity as [k|]; simpl; [|by intros [= <-]].
  destruct (observation_signing_payload _) as [payload|] eqn:E; simpl; [|done].
  intros [= <-]. split_and!; try done. by exists payload.
Qed.

Lemma collect_loop_ok e slot c b samples b' :
  collect_loop identity e slot c b samples = Ok b' →
  ∃ os, Forall2 (λ sample o, observe identity e slot c sample = Ok o) samples os ∧
    b' = {| bb_epoch_id := bb_epoch_id b; bb_collector_id := bb_collector_id b;
            bb_observations := bb_observations b ++ os |}.
Proof.
  revert b. induction samples as [|sample samples IH]; intros b; simpl.
  - intros [= <-]. exists []. split; [constructor|]. rewrite app_nil_r. by destruct b.
  - destruct (observe identity e slot c sample) as [o|?|] eqn:Ho; simpl; [|done..].
    unfold push. case_match; [done|]. case_match; [done|]. simpl.
    intros (os & Hos & ->)%IH. exists (o :: os). split; [by constructor|]. simpl. by rewrite <- app_assoc.
Qed.

(** A collected batch: the observations of the samples in the slot, sealed. *)
Record collected (e : EpochId) (slot : SlotId) (c : NodeId) (samples : list ActivitySample)
    (b : BatchBuilder) (s : AssembledBatch) : Prop := {
  cl_builder : bb_epoch_id b = e ∧ bb_collector_id b = c;
  cl_observed : Forall2 (λ sample o, observe identity e slot c sample = Ok o) samples (bb_observations b);
  cl_sealed : finalize b 0 = Ok s;
}.

Lemma collect_batch_inv e slot samples s :
  collect_batch_from_samples config identity e slot samples = Ok s →
  ∃ c b, node_id config = Ok c ∧ collected e slot c samples b s.
Proof.
  unfold collect_batch_from_samples. destruct (ensure_collect_enabled config); simpl; [|done..].
  destruct (node_id config) as [c|?|]; simpl; [|done..].
  destruct (collect_loop _ _ _ _ _ _) as [b|?|] eqn:Hl; simpl; [|done..].
  apply collect_loop_ok in Hl as (os & Hos & ->). simpl in *. intros Hf.
  exists c, {| bb_epoch_id := e; bb_collector_id := c; bb_observations := os |}.
  split; [done|]. split; [done|exact Hos|]. destruct (finalize _ 0); by simplify_eq/=.
Qed.

Lemma collected_observation e slot c samples b s o :
  collected e slot c samples b s → o ∈ bb_observations b → ∃ sample, observe identity e slot c sample = Ok o.
Proof.
  intros [_ Hobs _] [i Hi]%list_elem_of_lookup.
  destruct (Forall2_lookup_r _ _ _ _ _ Hobs Hi) as (sample & _ & Ho). by exists sample.
Qed.

(** With an identity every collected observation carries a valid signature. *)
Lemma observed_signature_valid `{SL : !SigningLaws} `{SZ : !SignatureSize} debug seed e slot sample o :
  identity = Some (from_seed seed) →
  observe identity e slot (stable_hash32 (public_of_seed seed)) sample = Ok o →
  verify_collector_signature debug o (Some (public_of_seed seed)) = Some SigValid.
Proof.
  intros Hid Ho. apply observe_ok in Ho as (_ & _ & Hc & _ & _ & Hsig). rewrite Hid in Hsig.
  destruct Hsig as (payload & Hp & Hs). unfold verify_collector_signature.
  assert (length (collector_signature o) = 64%nat) as Hlen by (rewrite Hs; apply signature_size).
  rewrite bool_decide_false by (by intros E; rewrite E in Hlen).
  rewrite (bool_decide_false (length _ = 32%nat)) by lia. rewrite andb_false_r.
  rewrite Hc, bool_decide_true by done. cbn [negb]. rewrite Hp, Hs.
  change (sign (from_seed seed) payload) with (ed25519_sign seed payload).
  cbn [mbind option_bind]. by rewrite (signature_verifies seed payload).
Qed.
End Collecting.

Section Storing.
Context `{B : BuildMode} `{X : External} `{PE : PipelineEncoding} `{PX : ProofExternal}.
Context `{RE : ReceiptEncoding} `{VE : VerifierEncoding}.
Context `{T : !EncodingTotal} `{XL : !ExternalLaws} `{VL : !VerifierLaws} `{SL : !SigningLaws} `{SZ : !SignatureSize}.
Context {DB : Type} `{PS : ProtocolStore DB}.
Context (config : NodeConfig) (store : option DB).

(** Recording a payload: it has a record already, or a new one for its epoch is added. *)
Lemma recorded_cases id e k payload book out book' :
  let cid := cid_from_hash (stable_hash32 payload) "batch-payload" in
  record_batch_payload id e k payload book = (out, book') →
  (book' = book ∧ ∀ r, out ≠ Ok r) ∨
  (∃ r, out = Ok r ∧ payloads book !! cid = Some r ∧ book' = book) ∨
  (∃ r, out = Ok r ∧ payloads book !! cid = None ∧ payloads book' = <[cid := r]> (payloads book) ∧
    payload_hash r = stable_hash32 payload ∧ sp_epoch_id r = e).
Proof.
  intros cid. unfold record_batch_payload, record_payload. fold cid.
  unfold m_bind, gets, ensure, chk, lift, modify, m_ret, m_throw, or_panic. simpl.
  destruct (payloads book !! cid) as [r|] eqn:E; [intros [= <- <-]; right; left; by exists r|].
  intros Hx. repeat (case_match; simplify_eq/=; try (left; by split)).
  right. right. eexists. split_and!; done.
Qed.

(** A tick of the collector that succeeded: its epoch and slot, the samples it saw, the batch
    it sealed and the artifact it wrote. *)
Record CollectedTick := {
  ctk_epoch : EpochId;
  ctk_slot : SlotId;
  ctk_samples : list ActivitySample;
  ctk_batch : AssembledBatch;
  ctk_artifact : CollectTickArtifact;
}.
Local Notation cid t := (ab_payload_cid (ctk_batch t)).

(** The ticks of a node with an identity, one after the other, on its retention book; some fail. *)
Inductive collects (seed : bytes) : LocalRetentionBook → list CollectedTick → LocalRetentionBook → Prop :=
| collects_done book : collects seed book [] book
| collects_failed e slot samples out book b1 ts b2 :
    collect_and_store_samples config (Some (from_seed seed)) store e slot samples book = (out, b1) →
    (∀ o, out ≠ Ok o) → collects seed b1 ts b2 → collects seed book ts b2
| collects_tick t record book b1 ts b2 :
    collect_and_store_samples config (Some (from_seed seed)) store (ctk_epoch t) (ctk_slot t)
      (ctk_samples t) book =
      (Ok {| assembled_batch := ctk_batch t; stored_payload := record; batch_recipients := 0;
             receipt_recipients := 0 |}, b1) →
    artifact_of (ctk_batch t) (ctk_artifact t) →
    ct_epoch_id (ctk_artifact t) = ctk_epoch t → ct_slot_id (ctk_artifact t) = ctk_slot t →
    collects seed b1 ts b2 → collects seed book (t :: ts) b2.

(** What such a tick has sealed and written. *)
Record sealed_tick (seed : bytes) (t : CollectedTick) : Prop := {
  st_batch : collect_batch_from_samples config (Some (from_seed seed)) (ctk_epoch t) (ctk_slot t) (ctk_samples t)
    = Ok (ctk_batch t);
  st_artifact : artifact_of (ctk_batch t) (ctk_artifact t);
  st_epoch : ct_epoch_id (ctk_artifact t) = ctk_epoch t;
  st_slot : ct_slot_id (ctk_artifact t) = ctk_slot t;
}.

(** The record of a tick's payload. *)
Definition stored_for (t : CollectedTick) (r : StoredPayloadRecord) : Prop :=
  payload_hash r = ab_payload_hash (ctk_batch t) ∧ sp_epoch_id r = ctk_epoch t.

Lemma collect_store_cases identity e slot samples book out book' :
  cap_store (nc_capabilities config) = true →
  collect_and_store_samples config identity store e slot samples book = (out, book') →
  (book' = book ∧ ∀ o, out ≠ Ok o) ∨
  ∃ s r, out = Ok {| assembled_batch := s; stored_payload := Some r; batch_recipients := 0; receipt_recipients := 0 |} ∧
    collect_batch_from_samples config identity e slot samples = Ok s ∧
    (payloads book !! ab_payload_cid s = Some r ∧ book' = book ∨
     payloads book !! ab_payload_cid s = None ∧ payloads book' = <[ab_payload_cid s := r]> (payloads book) ∧
     payload_hash r = ab_payload_hash s ∧ sp_epoch_id r = e).
Proof.
  intros Hcap. unfold collect_and_store_samples, store_batch, m_bind, lift, m_map_err. rewrite Hcap.
  destruct (collect_batch_from_samples _ _ _ _ _) as [s|?|] eqn:Hc; [|intros [= <- <-]; by left..].
  destruct (map_err RtConfig (node_id config)) as [id|?|]; [|intros [= <- <-]; by left..].
  pose proof Hc as (c & b & _ & Hcol)%collect_batch_inv. pose proof (cl_sealed _ _ _ _ _ _ _ Hcol) as Hf.
  pose proof (finalize_cid _ _ _ Hf) as Hcid. destruct (finalize_inv _ _ _ Hf) as (_ & Hh & _).
  destruct (record_batch_payload _ _ _ _ _) as [o b1] eqn:Hr. apply recorded_cases in Hr.
  rewrite <- Hcid, <- Hh in Hr.
  destruct Hr as [[-> Ho]|[(r & -> & Hl & ->)|(r & -> & Hl & Hp & ? & ?)]].
  - destruct o as [r|?|]; [by destruct (Ho r)|..]; intros [= <- <-]; by left.
  - intros [= <- <-]. right. exists s, r. split_and!; [done..|]. by left.
  - intros [= <- <-]. right. exists s, r. split_and!; [done..|]. by right.
Qed.

Lemma sealed_observations seed t :
  sealed_tick seed t →
  ∃ c b, node_id config = Ok c ∧ collected (Some (from_seed seed)) (ctk_epoch t) (ctk_slot t) c (ctk_samples t) b (ctk_batch t) ∧
    borsh_observations (ab_observations (ctk_batch t)) = Some (payload_bytes (ctk_batch t)) ∧
    ab_observations (ctk_batch t) ≠ [] ∧
    Forall (λ o, ∃ sample, observe (Some (from_seed seed)) (ctk_epoch t) (ctk_slot t) c sample = Ok o)
      (ab_observations (ctk_batch t)).
Proof.
  intros [Hc _ _ _]. apply collect_batch_inv in Hc as (c & b & Hid & Hcol).
  pose proof (cl_sealed _ _ _ _ _ _ _ Hcol) as Hf. destruct (finalize_inv _ _ _ Hf) as (Hpay & _ & _ & Hperm & _).
  exists c, b. split_and!; try done.
  - intros E. rewrite E in Hperm. apply Permutation_nil_l in Hperm. unfold finalize in Hf. by rewrite <- Hperm in Hf.
  - rewrite Hperm. apply Forall_forall. intros o. by apply collected_observation with (1 := Hcol).
Qed.

(** Payloads that are the same are of the same epoch and have the same hash. *)
Lemma same_payload seed t t' :
  sealed_tick seed t → sealed_tick seed t' → payload_bytes (ctk_batch t) = payload_bytes (ctk_batch t') →
  ∀ r, stored_for t r → stored_for t' r.
Proof.
  intros Ht Ht' Hp r [Hh He]. pose proof (sealed_observations _ _ Ht) as (c & b & _ & Hcol & Hb & Hne & Ho).
  pose proof (sealed_observations _ _ Ht') as (c' & b' & _ & Hcol' & Hb' & _ & Ho').
  destruct (finalize_inv _ _ _ (cl_sealed _ _ _ _ _ _ _ Hcol)) as (_ & Hh1 & _).
  destruct (finalize_inv _ _ _ (cl_sealed _ _ _ _ _ _ _ Hcol')) as (_ & Hh2 & _).
  split; [congruence|]. apply decode_encode_observations in Hb, Hb'. rewrite Hp, Hb' in Hb. injection Hb as Hos.
  destruct (ab_observations (ctk_batch t)) as [|o os]; [done|]. rewrite Hos in Ho'.
  apply Forall_cons in Ho as [(x & Hx) _], Ho' as [(x' & Hx') _].
  apply observe_ok in Hx as (? & _), Hx' as (? & _). congruence.
Qed.

Lemma collects_sealed seed book ts book' :
  cap_store (nc_capabilities config) = true → collects seed book ts book' → Forall (sealed_tick seed) ts.
Proof.
  intros Hcap. induction 1 as [|?????????? IH|t record book b1 ts b2 Hrun Ha He Hs _ IH]; [constructor|done|].
  apply collect_store_cases in Hrun as [[_ Hno]|(s & r & [= <- _] & Hc & _)]; [by edestruct Hno| |done].
  constructor; [by split|done].
Qed.

(** After the run every tick's payload is recorded for its epoch. *)
Lemma collects_stored seed read_payload book ts book' :
  cap_store (nc_capabilities config) = true → collects seed book ts book' →
  (∀ t, t ∈ ts → read_payload (cid t) = Ok (E:=string) (payload_bytes (ctk_batch t))) →
  (∀ t r, t ∈ ts → payloads book !! cid t = Some r → stored_for t r) →
  payloads book ⊆ payloads book' ∧
  (size (payloads book') <= size (payloads book) + length ts)%nat ∧
  ∀ t, t ∈ ts → ∃ r, payloads book' !! cid t = Some r ∧ stored_for t r.
Proof.
  intros Hcap. induction 1 as [book|e slot samples out book b1 ts b2 Hrun Hno _ IH
    |t record book b1 ts b2 Hrun Ha He Hs Hrest IH]; intros Hread Hold.
  - split_and!; [done|lia|]. intros t Ht. by apply not_elem_of_nil in Ht.
  - apply collect_store_cases in Hrun as [[-> _]|(s & r & -> & _)]; [by apply IH|by edestruct Hno|done].
  - apply collect_store_cases in Hrun as [[_ Hno]|(s & r & [= <- ->] & Hc & Hb)]; [by edestruct Hno| |done].
    assert (sealed_tick seed t) as Ht by (by split).
    assert (payloads b1 !! cid t = Some r ∧ stored_for t r ∧ payloads book ⊆ payloads b1 ∧
      (size (payloads b1) <= size (payloads book) + 1)%nat ∧
      ∀ k r', payloads b1 !! k = Some r' → k = cid t ∧ r' = r ∨ payloads book !! k = Some r')
      as (Hl & Hst & Hsub & Hsize & Hinv).
    { destruct Hb as [[Hl ->]|(Hl & Hp & ? & ?)].
      - split_and!; [done|apply Hold; [left|done]|done|lia|by right].
      - rewrite Hp. split_and!; [apply lookup_insert_eq|done|by apply insert_subseteq
          |rewrite map_size_insert, Hl; lia|].
        intros k r' [[<- <-]|[_ ?]]%lookup_insert_Some; [by left|by right]. }
    apply (collects_sealed _ _ _ _ Hcap) in Hrest. rewrite Forall_forall in Hrest.
    destruct IH as (IH1 & IH2 & IH3).
    + intros t' Ht'. apply Hread. by right.
    + intros t' r' Ht' [[Hk ->]|Hl']%Hinv; [|apply Hold; [by right|done]].
      apply (same_payload seed t); [done|by apply Hrest| |done].
      pose proof (Hread t ltac:(left)) as H1. pose proof (Hread t' ltac:(by right)) as H2. congruence.
    + split_and!; [by etrans|simpl; lia|]. intros t' [->|Ht']%elem_of_cons; [|by apply IH3].
      exists r. split; [by eapply lookup_weaken|done].
Qed.

(** The signatures of a node's own tick pass its audit. *)
Lemma sealed_signatures seed debug t :
  node_id config = Ok (stable_hash32 (public_of_seed seed)) → sealed_tick seed t →
  ∃ b statuses, finalize b 0 = Ok (ctk_batch t) ∧
    signatures_pass debug config (Some (public_of_seed seed)) b (ctk_batch t) statuses.
Proof.
  intros Hid Ht. pose proof (sealed_observations _ _ Ht) as (c & b & Hc & Hcol & _ & _ & Hos).
  assert (c = stable_hash32 (public_of_seed seed)) as -> by congruence.
  destruct (cl_builder _ _ _ _ _ _ _ Hcol) as [_ Hbc].
  exists b, (replicate (length (ab_observations (ctk_batch t))) SigValid). split; [apply (cl_sealed _ _ _ _ _ _ _ Hcol)|].
  unfold signatures_pass, own_node_id. rewrite Hid, Hbc, bool_decide_true by done. split_and!.
  - apply Forall_forall. intros o (sample & Ho)%(collected_observation _ _ _ _ _ _ _ _ Hcol).
    by apply observe_ok in Ho as (_ & _ & ? & _).
  - apply mapM_Some_2. clear -Hos SL SZ. induction Hos as [|o os (sample & Ho) _ IH]; simpl; [constructor|].
    constructor; [by eapply observed_signature_valid|done].
  - intros _. by apply Forall_replicate.
Qed.

Lemma collected_verifies seed debug e book ts book' others arts read_payload :
  let public := public_of_seed seed in
  node_id config = Ok (stable_hash32 public) → cap_store (nc_capabilities config) = true →
  collects seed book ts book' →
  (∀ t, t ∈ ts → read_payload (cid t) = Ok (payload_bytes (ctk_batch t))) →
  (∀ t r, t ∈ ts → payloads book !! cid t = Some r → stored_for t r) →
  arts ≡ₚ ((ctk_artifact <$> ts) ++ others)%list → Forall (λ a, ct_epoch_id a ≠ e) others →
  ∃ report, verify_local_epoch debug config (Some public) read_payload (Ok book') (Ok <$> arts) e = Ok report ∧
    Forall (λ r, report_valid r = true) (reports report) ∧
    vr_batch_count report = Z.of_nat (length (filter (λ t, ctk_epoch t = e) ts)) ∧
    all_valid report = negb (bool_decide (filter (λ t, ctk_epoch t = e) ts = [])).
Proof.
  intros public Hid Hcap Hrun Hread Hold Hperm Hoth.
  destruct (collects_stored seed read_payload book ts book' Hcap Hrun Hread Hold) as (_ & _ & Hst).
  apply (collects_sealed _ _ _ _ Hcap) in Hrun.
  assert (length (filter (λ a, ct_epoch_id a = e) arts) = length (filter (λ t, ctk_epoch t = e) ts)) as Hlen.
  { rewrite Hperm, filter_app, (filter_none _ others) by done. rewrite app_nil_r. clear -Hrun.
    induction Hrun as [|t ts Ht _ IH]; [done|]. rewrite fmap_cons, !filter_cons, (st_epoch _ _ Ht).
    destruct (decide _); simpl; lia. }
  destruct (epoch_reports_valid debug config (Some public) read_payload book' e arts) as (report & Hr & Hv & Hn & Hall).
  { rewrite Hperm. apply Forall_app. split; [|by eapply Forall_impl; [exact Hoth|]; intros ? ? ?].
    apply Forall_fmap, Forall_forall. intros t Ht _. destruct (Hst t Ht) as (r & Hl & Hh & _).
    rewrite Forall_forall in Hrun. pose proof (Hrun t Ht) as Hsealed.
    destruct (sealed_signatures seed debug t Hid Hsealed) as (b & statuses & Hf & Hsig).
    eapply sealed_report_valid; [done|apply (st_artifact _ _ Hsealed)|by apply Hread|done|done|done]. }
  exists report. rewrite Hn, Hall, Hlen. split_and!; [done..|]. f_equal. apply bool_decide_ext.
  split; intros E; apply nil_length_inv; [rewrite <- Hlen|rewrite Hlen]; by rewrite E.
Qed.

(** C20: What a node with an identity collects passes its own audit, from the samples to the
    report. The conditions: the node's identity is loaded, its node id is the hash of its public
    key, it stores payloads, and any record its book held under the identifiers of the batches was
    of the same payload and epoch. After any ticks, of this and of other epochs and some of them
    failing, with the payloads and artifacts of the successful ones on disk besides artifacts of
    other epochs, [verify_local_epoch] succeeds, reports every batch of the epoch and finds each
    valid; the epoch as a whole is valid exactly when there was a tick in it. *)
Theorem collected_batch_verifies seed debug e book ts book' others arts read_payload :
  let public := public_of_seed seed in
  node_id config = Ok (stable_hash32 public) → cap_store (nc_capabilities config) = true →
  collects seed book ts book' →
  (∀ t, t ∈ ts → read_payload (cid t) = Ok (payload_bytes (ctk_batch t))) →
  (∀ t r, t ∈ ts → payloads book !! cid t = Some r → stored_for t r) →
  arts ≡ₚ ((ctk_artifact <$> ts) ++ others)%list → Forall (λ a, ct_epoch_id a ≠ e) others →
  ∃ report, verify_local_epoch debug config (Some public) read_payload (Ok book') (Ok <$> arts) e = Ok report ∧
    Forall (λ r, report_valid r = true) (reports report) ∧
    vr_batch_count report = Z.of_nat (length (filter (λ t, ctk_epoch t = e) ts)) ∧
    all_valid report = negb (bool_decide (filter (λ t, ctk_epoch t = e) ts = [])).
Proof. exact (collected_verifies seed debug e book ts book' others arts read_payload). Qed.

Lemma daemon_decode_hex_hash h :
  length h = 32%nat → Forall is_byte h → daemon_decode_hex_32 (hex_32 h) = Ok h.
Proof. intros Hl Hb. unfold daemon_decode_hex_32. by rewrite (decode_hex_32_hex h "") by done. Qed.

(** A sealed batch is determined by its payload, root and count when all its observations
    are of one slot. *)
Lemma finalize_one_slot b s slot :
  finalize b 0 = Ok s → Forall (λ o, obs_slot_id o = slot) (bb_observations b) →
  ab_batch_commit s = {|
    bc_epoch_id := bb_epoch_id b; bc_collector_id := bb_collector_id b;
    slot_start := slot; slot_end := slot;
    batch := {| root := root (batch (ab_batch_commit s)); leaf_count := obs_count (ab_batch_commit s) |};
    bc_payload_cid := ab_payload_cid s; obs_count := obs_count (ab_batch_commit s);
    submitted_at_height := 0 |} ∧ ab_observations s ≠ [].
Proof.
  intros Hf Hslot. pose proof (finalize_inv _ _ _ Hf) as (_ & _ & _ & Hperm & _).
  revert Hf. unfold finalize. destruct (bb_observations b) as [|x xs] eqn:E; [done|].
  set (os := sort_by_key observation_order (x :: xs)).
  destruct (borsh_observations os) as [payload|]; [|done]. simpl.
  destruct (mapM observation_leaf os) as [leaves|]; [|done]. simpl.
  intros [= <-]. simpl in *. rewrite <- Hperm in Hslot.
  assert (os ≠ []) as Hne by (intros ->; by apply Permutation_nil_l in Hperm).
  split; [|done]. rewrite Forall_forall in Hslot.
  assert (default 0 (obs_slot_id <$> head os) = slot ∧ default 0 (obs_slot_id <$> last os) = slot)
    as [-> ->]; [|done].
  destruct os as [|o os'] eqn:Eos; [done|]. split; [apply Hslot; by left|].
  destruct (last (o :: os')) as [l|] eqn:El; [|by apply last_None in El].
  simpl. apply Hslot. by apply last_Some_elem_of.
Qed.

Lemma batch_reloads identity e slot samples s a c read_payload :
  collect_batch_from_samples config identity e slot samples = Ok s → node_id config = Ok c →
  artifact_of s a → ct_epoch_id a = e → ct_slot_id a = slot →
  read_payload (ab_payload_cid s) = Ok (payload_bytes s) → load_batch read_payload c a = Ok s.
Proof.
  intros Hc Hidc [Hcid Hhash Hroot Hcount] He Hsl Hread.
  apply collect_batch_inv in Hc as (c' & b & Hid & Hcol). assert (c' = c) as -> by congruence.
  pose proof (cl_sealed _ _ _ _ _ _ _ Hcol) as Hf. destruct (cl_builder _ _ _ _ _ _ _ Hcol) as [Hbe Hbc].
  destruct (finalize_inv _ _ _ Hf) as (Hpay & Hph & Hoc & Hperm & leaves & Hleaves & Hrt).
  assert (∀ o, o ∈ bb_observations b → obs_slot_id o = slot ∧ obs_collector_id o = c) as Hobs.
  { intros o Ho. destruct (collected_observation _ _ _ _ _ _ _ _ Hcol Ho) as [sample Hs].
    by apply observe_ok in Hs as (_ & ? & ? & _). }
  destruct (finalize_one_slot b s slot Hf) as [Hcommit Hne].
  { apply Forall_forall. intros o Ho. by apply Hobs. }
  unfold load_batch. rewrite Hcid, Hread. simpl. rewrite (decode_encode_observations _ _ Hpay). simpl.
  rewrite Hhash, daemon_decode_hex_hash; [|rewrite Hph; apply stable_hash32_length
    |rewrite Hph; apply stable_hash32_bytes]. simpl.
  destruct (merkle_root_digest _ (observation_leaves_digests _ _ Hleaves)) as [Hrl Hrb].
  rewrite Hroot, daemon_decode_hex_hash by (by rewrite Hrt). simpl.
  destruct (ab_observations s) as [|o os] eqn:Eo; [done|]. simpl.
  assert (obs_collector_id o = bb_collector_id b) as ->.
  { rewrite Hbc. apply Hobs. rewrite <- Hperm. by left. }
  rewrite Hsl, Hcount, He, <- Hbe, <- Hcommit, <- Eo. f_equal. by destruct s.
Qed.

Lemma load_files_ok read_payload c e arts bs :
  load_files read_payload c e (Ok <$> arts) = Ok bs ↔
  Forall2 (λ a s, load_batch read_payload c a = Ok s) (filter (λ a, ct_epoch_id a = e) arts) bs.
Proof.
  revert bs. induction arts as [|a arts IH]; intros bs.
  { split; [intros [= <-]; constructor|]. by inversion_clear 1. }
  rewrite fmap_cons. cbn [load_files outcome_bind].
  destruct (Z.eqb_spec (ct_epoch_id a) e); cbn [negb].
  2: { rewrite filter_cons_False by done. apply IH. }
  rewrite filter_cons_True by done. split.
  - destruct (load_batch _ _ a) as [s|?|] eqn:Ea; [|done..]. cbn [outcome_bind].
    destruct (load_files _ _ _ _) as [rest|?|] eqn:Er; [|done..]. intros [= <-]. constructor; [done|]. by apply IH.
  - intros H. inversion H as [|? s ? rest Hs Hr]; subst. rewrite Hs. cbn [outcome_bind].
    by rewrite (proj2 (IH rest) Hr).
Qed.

(** The batches of an epoch survive the disk together, whatever else lies in the directory. *)
Lemma run_reloads seed e ts c others arts read_payload :
  Forall (sealed_tick seed) ts → node_id config = Ok c →
  (∀ t, t ∈ ts → read_payload (cid t) = Ok (payload_bytes (ctk_batch t))) →
  arts ≡ₚ ((ctk_artifact <$> ts) ++ others)%list → Forall (λ a, ct_epoch_id a ≠ e) others →
  ∃ loaded, load_batches_for_epoch config read_payload (Some (Ok <$> arts)) e = Ok loaded ∧
    loaded ≡ₚ (ctk_batch <$> filter (λ t, ctk_epoch t = e) ts).
Proof.
  intros Hts Hid Hread Hperm Hoth.
  assert (filter (λ a, ct_epoch_id a = e) arts ≡ₚ (ctk_artifact <$> filter (λ t, ctk_epoch t = e) ts)) as Hf.
  { rewrite Hperm, filter_app, (filter_none _ others), app_nil_r by done. apply reflexive_eq. clear -Hts.
    induction Hts as [|t ts Ht _ IH]; [done|]. rewrite fmap_cons, !filter_cons, (st_epoch _ _ Ht), IH.
    by destruct (decide _). }
  assert (Forall2 (λ a s, load_batch read_payload c a = Ok s) (ctk_artifact <$> filter (λ t, ctk_epoch t = e) ts)
    (ctk_batch <$> filter (λ t, ctk_epoch t = e) ts)) as H2.
  { apply Forall2_fmap, Forall_Forall2_diag, Forall_forall. intros t [_ Ht]%list_elem_of_filter.
    rewrite Forall_forall in Hts. destruct (Hts t Ht). eapply batch_reloads; [done..|by apply Hread]. }
  destruct (Permutation_Forall2 (symmetry Hf) H2) as (loaded & Hl & H3). exists loaded. split; [|by symmetry].
  unfold load_batches_for_epoch. rewrite Hid. cbn [map_err outcome_bind]. by apply load_files_ok.
Qed.

(** A batch survives the disk: reading back the artifact and the payload that the
    collector wrote for a slot yields the sealed batch itself, with its commitment,
    hashes, payload and observations. *)
Theorem stored_batch_reloads identity e slot samples s a read_payload :
  collect_batch_from_samples config identity e slot samples = Ok s →
  artifact_of s a → ct_epoch_id a = e → ct_slot_id a = slot →
  read_payload (ab_payload_cid s) = Ok (payload_bytes s) →
  load_batches_for_epoch config read_payload (Some [Ok a]) e = Ok [s].
Proof.
  intros Hc Ha He Hsl Hread. pose proof Hc as (c & b & Hid & _)%collect_batch_inv.
  unfold load_batches_for_epoch. rewrite Hid. cbn [map_err outcome_bind]. apply (load_files_ok _ _ _ [a]).
  rewrite filter_cons_True by done. rewrite filter_nil. constructor; [|constructor]. by eapply batch_reloads.
Qed.
End Storing.

Section Announcing.
Context `{B : BuildMode} `{X : External} `{PE : PipelineEncoding} `{PX : ProofExternal}.
Context `{RE : ReceiptEncoding} `{BC : Bech32} {DB : Type} `{PS : ProtocolStore DB}.
Context (config : NodeConfig) (identity : option KeyPair) (store : option DB).

(** What publishing best-effort on the in-memory network does when it succeeds. *)
Lemma best_effort_ok sender m n count n' :
  net_ok n → publish_best_effort sender m n = (Ok count, n') →
  peers n' = peers n ∧ subscriptions n' = subscriptions n ∧ im_payloads n' = im_payloads n ∧
  (∀ q box, inboxes n !! q = Some box → ∃ more, inboxes n' !! q = Some (box ++ more)%list) ∧
  (∀ q topics, subscriptions n !! q = Some topics → message_topic m ∈ topics → q ≠ sender →
     ∃ box, inboxes n' !! q = Some box ∧ envelope sender m ∈ box).
Proof.
  intros Hn. pose proof (publish_spec n sender m Hn) as Hs. cbv zeta in Hs.
  unfold publish_best_effort. cbn [publish InMemoryP2pNetwork_network].
  destruct (mem_publish sender m n) as [[c|e|] n1] eqn:Ep.
  - intros [= <- <-]. destruct Hs as (_ & _ & Hin & Hout & Hp & Hsub & Hpay). split_and!; [done..| |].
    + intros q box Hq. destruct (decide (q ∈ recipients n sender (message_topic m))) as [Hr|Hr];
        rewrite elem_of_recipients in Hr.
      * destruct (Hin q Hr) as (box' & Hb & ->). rewrite Hq in Hb. injection Hb as <-. by eexists.
      * rewrite Hout by done. exists []. by rewrite app_nil_r.
    + intros q topics Hq Ht Hne. destruct (Hin q) as (box & _ & ->); [eauto|].
      eexists. split; [done|]. apply elem_of_app. right. by apply list_elem_of_singleton.
  - destruct Hs as [-> He]. destruct e; intros H; simplify_eq/=.
    split_and!; [done..| |]; [intros q box Hq; exists []; by rewrite app_nil_r|].
    destruct He as [[He _]|[_ Hno]]; [done|]. intros q topics Hq Ht Hne. exfalso. apply (Hno q). eauto.
  - done.
Qed.

Lemma best_effort_net_ok sender m n : net_ok n → net_ok (publish_best_effort sender m n).2.
Proof.
  intros Hn. pose proof (publish_ok sender m n Hn) as H1. unfold publish_best_effort.
  cbn [publish InMemoryP2pNetwork_network]. destruct (mem_publish sender m n) as [[c|[]|] n1]; exact H1.
Qed.

Lemma advertise_fields c cid hash p net net1 :
  mem_advertise_payload c cid hash p net = (Ok tt, net1) →
  c ∈ peers net ∧ peers net1 = peers net ∧ subscriptions net1 = subscriptions net.
Proof.
  unfold mem_advertise_payload, m_bind.
  destruct (ensure_peer_cases c net) as [[Hp ->]|[Hp ->]]; intros [= <-]. done.
Qed.

Lemma store_batch_network {N} (m : M LocalRetentionBook NodeRuntimeError (option StoredPayloadRecord))
    (book book' : LocalRetentionBook) (n n' : N) r :
  on_fst m (book, n) = (r, (book', n')) → n' = n.
Proof. unfold on_fst. simpl. destruct (m book). by intros [= _ _ <-]. Qed.

(** What a successful run leaves on the network. *)
Lemma publish_run_inv e slot samples book net out book' net' :
  net_ok net →
  collect_store_and_publish_samples config identity store e slot samples (book, net)
    = (Ok out, (book', net')) →
  let s := assembled_batch out in
  ∃ c b address net1, node_id config = Ok c ∧ collected identity e slot c samples b s ∧ c ∈ peers net ∧
    mem_advertise_payload c (ab_payload_cid s) (ab_payload_hash s) (payload_bytes s) net = (Ok tt, net1) ∧
    peers net' = peers net ∧ im_payloads net' = im_payloads net1 ∧
    (∀ q topics, subscriptions net !! q = Some topics → Batches ∈ topics → q ≠ c →
       ∃ box, inboxes net' !! q = Some box ∧
         envelope c (MsgBatch (batch_announcement_from_assembled s address)) ∈ box).
Proof.
  intros Hnet Hrun s. subst s. unfold collect_store_and_publish_samples in Hrun.
  apply m_bind_ok_inv in Hrun as (s & st1 & [Hc ->]%lift_inv & Hrun).
  apply m_bind_ok_inv in Hrun as (id & st2 & [Hid ->]%lift_inv & Hrun).
  apply m_bind_ok_inv in Hrun as ([] & [book1 net1] & Hadv & Hrun).
  apply m_bind_ok_inv in Hrun as (address & st3 & [_ ->]%lift_inv & Hrun).
  apply m_bind_ok_inv in Hrun as (count & [book2 net2] & Hpub & Hrun).
  apply m_bind_ok_inv in Hrun as (record & [book3 net3] & Hst%store_batch_network & Hrun).
  apply m_bind_ok_inv in Hrun as (rcount & [book4 net4] & Hrec & Hrun).
  apply m_ret_inv in Hrun as [[= ->] [= -> ->]]. simpl in *. subst net3.
  apply collect_batch_inv in Hc as (c & b & Hc & Hcol). rewrite Hc in Hid. injection Hid as <-.
  exists c, b, address, net1. unfold on_snd, m_map_err in Hadv, Hpub. simpl in Hadv, Hpub.
  pose proof (advertise_ok c (ab_payload_cid s) (ab_payload_hash s) (payload_bytes s) net Hnet) as Hn1.
  destruct (mem_advertise_payload c _ _ _ net) as [ra n1] eqn:Ea. destruct ra as [[]|?|]; simplify_eq/=.
  destruct (advertise_fields _ _ _ _ _ _ Ea) as (Hpeer & Hp1 & Hs1).
  pose proof (best_effort_net_ok c (MsgBatch (batch_announcement_from_assembled s address)) net1 Hn1) as Hn2.
  destruct (publish_best_effort c _ net1) as [rp n2] eqn:Ep. simplify_eq/=.
  apply best_effort_ok in Ep as (Hp2 & Hs2 & Hpay2 & _ & Hdel); [|done].
  assert (peers net4 = peers net2 ∧ im_payloads net4 = im_payloads net2 ∧
    ∀ q box, inboxes net2 !! q = Some box → ∃ more, inboxes net4 !! q = Some (box ++ more)%list)
    as (Hp4 & Hpay4 & Hext).
  { destruct record as [record|].
    - unfold on_snd in Hrec. simpl in Hrec. destruct (publish_best_effort c _ net2) as [r4 n4] eqn:E4.
      simplify_eq/=. apply best_effort_ok in E4 as (? & _ & ? & ? & _); done.
    - apply m_ret_inv in Hrec as [_ [= <- <-]]. split_and!; [done..|].
      intros q box Hq. exists []. by rewrite app_nil_r. }
  split_and!; try done; [congruence..|]. intros q topics Hq Ht Hne.
  destruct (Hdel q topics) as (box & Hbox & Hin); [congruence|done..|].
  destruct (Hext q box Hbox) as [more Hm]. exists (box ++ more)%list.
  split; [done|]. apply elem_of_app. by left.
Qed.

(** A collected batch can be fetched by the peers it is announced to: on the in-memory
    network, when collecting, storing and publishing succeeds for a payload nobody
    provided yet, every registered peer that asks for it gets the sealed bytes under
    their hash, and every other subscriber of the batch topic has the announcement of
    that payload, with the root of the batch, in its inbox. *)
Theorem published_batch_retrievable e slot samples book net out book' net' :
  rtc net_step InMemoryP2pNetwork_default net →
  collect_store_and_publish_samples config identity store e slot samples (book, net)
    = (Ok out, (book', net')) →
  let s := assembled_batch out in
  im_payloads net !! ab_payload_cid s = None →
  (∀ q, q ∈ peers net → ∃ r, (mem_request_payload q (ab_payload_cid s) net').1 = Ok r ∧
     pp_payload_bytes r = payload_bytes s ∧ pp_payload_hash r = stable_hash32 (payload_bytes s)) ∧
  (∀ q topics, subscriptions net !! q = Some topics → Batches ∈ topics → node_id config ≠ Ok q →
     ∃ box sender address, inboxes net' !! q = Some box ∧
       envelope sender (MsgBatch (batch_announcement_from_assembled s address)) ∈ box).
Proof.
  intros Hnet%reachable_ok Hrun s Hfresh.
  destruct (publish_run_inv _ _ _ _ _ _ _ _ Hnet Hrun)
    as (c & b & address & net1 & Hc & Hcol & Hpeer & Ha & Hp & Hpay & Hdel). fold s in Hcol, Ha, Hdel.
  destruct (finalize_inv _ _ _ (cl_sealed _ _ _ _ _ _ _ Hcol)) as (_ & Hh & _).
  destruct (advertise_fields _ _ _ _ _ _ Ha) as (_ & Hp1 & _). split.
  - intros q Hq. pose proof (advertise_request net c q (ab_payload_cid s) (ab_payload_hash s)
      (payload_bytes s) Hpeer Hq) as Hreq. rewrite Ha, Hfresh in Hreq. cbv zeta in Hreq. cbn [snd] in Hreq.
    destruct Hreq as (r & Hr & Hprov & Hbytes). destruct (Hbytes Hprov) as [Hhash Hb].
    exists r. rewrite Hhash, Hb, Hh. split; [|done].
    revert Hr. unfold mem_request_payload, m_bind, gets, Datatypes.id.
    destruct (ensure_peer_cases q net1) as [[? ->]|[Hbad ->]]; [|set_solver].
    destruct (ensure_peer_cases q net') as [[? ->]|[Hbad ->]]; [|set_solver].
    by rewrite Hpay.
  - intros q topics Hq Ht Hne. destruct (Hdel q topics Hq Ht) as (box & Hbox & Hin); [congruence|].
    by exists box, c, address.
Qed.
End Announcing.

(** ** A node that collects, stores and publishes one sample *)

Definition demo_seed : bytes := replicate 32 5.
Definition demo_public : bytes := @public_of_seed demo_proof_external demo_seed.

Definition runtime_config : NodeConfig :=
  let c := NodeConfig_default in {|
  nc_chain_id := nc_chain_id c; node_id_hex := hex_32 (stable_hash32 demo_public);
  reward_address_hex := reward_address_hex c;
  nc_capabilities := {| cap_collect := true; cap_store := true; cap_verify := true; cap_propose := true;
                        cap_archive := false |};
  nc_collect := {| collect_enabled := true; default_epoch_id := 1; default_slot_id := 1 |};
  runtime := runtime c; nc_storage := nc_storage c; nc_reward := nc_reward c |}.

Definition runtime_sample : ActivitySample := steam_current_players 570 120 10 "{}".
Definition empty_book : LocalRetentionBook := {| quota_bytes := 1000000; used_bytes := 0; payloads := ∅ |}.

#[local] Existing Instances demo_external toy_pipeline_encoding toy_verifier_encoding demo_proof_external
  toy_bech32 demo_encoding.
#[local] Instance runtime_build : BuildMode := true.

Lemma demo_signature_size : @SignatureSize demo_proof_external.
Proof. done. Qed.

Definition demo_collected : outcome NodeRuntimeError AssembledBatch :=
  collect_batch_from_samples runtime_config (Some (from_seed demo_seed)) 4 3 [runtime_sample].

Definition demo_stored_run : outcome NodeRuntimeError CollectAndStoreOutcome * LocalRetentionBook :=
  collect_and_store_samples (DB := InMemoryStore) runtime_config (Some (from_seed demo_seed)) None 4 3
    [runtime_sample] empty_book.

Definition demo_collected_tick (s : AssembledBatch) : CollectedTick := {|
  ctk_epoch := 4; ctk_slot := 3; ctk_samples := [runtime_sample]; ctk_batch := s; ctk_artifact := demo_artifact s |}.

(** The artifact of another epoch. *)
Definition demo_old_artifact (s : AssembledBatch) : CollectTickArtifact := {|
  ct_epoch_id := 3; ct_slot_id := 3; ct_payload_cid := ab_payload_cid s;
  ct_payload_hash_hex := "zz"; ct_batch_root_hex := "zz";
  ct_obs_count := 7; ct_collector_address := "cosmos1peer";
  ct_player_reward_block_count := 1; ct_player_reward_total := 0; ct_reward_process_name := None;
  ct_stored_payload_cid := None; ct_retention_until_epoch := None |}.

(** A tick without samples fails, the next one stores a batch. *)
Lemma demo_collects s record book' :
  demo_stored_run = (Ok {| assembled_batch := s; stored_payload := record; batch_recipients := 0;
                           receipt_recipients := 0 |}, book') →
  collects (DB := InMemoryStore) runtime_config None demo_seed empty_book [demo_collected_tick s] book'.
Proof.
  intros Hrun. assert (collect_and_store_samples (DB := InMemoryStore) runtime_config (Some (from_seed demo_seed)) None
    4 2 [] empty_book = (Err (RtPipeline PipelineEmptyBatch), empty_book)) as Hfail by (vm_compute; reflexivity).
  eapply collects_failed; [exact Hfail|done|].
  eapply (collects_tick _ _ _ (demo_collected_tick s)); [exact Hrun|split; reflexivity|reflexivity|reflexivity|constructor].
Qed.

Lemma collected_batch_verifies_witness :
  ∃ s record book' report,
    demo_stored_run = (Ok {| assembled_batch := s; stored_payload := Some record; batch_recipients := 0;
                             receipt_recipients := 0 |}, book') ∧
    verify_local_epoch true runtime_config (Some demo_public) (λ _, Ok (payload_bytes s)) (Ok book')
      [Ok (demo_old_artifact s); Ok (demo_artifact s)] 4 = Ok report ∧
    all_valid report = true ∧ vr_batch_count report = 1.
Proof.
  assert (match demo_stored_run.1 with
    | Ok {| stored_payload := Some _; batch_recipients := 0; receipt_recipients := 0 |} => true
    | _ => false end = true) as Hok by (vm_compute; reflexivity).
  destruct demo_stored_run as [[[s [record|] [] []]|?|] book'] eqn:Hrun; try discriminate Hok.
  exists s, record, book'.
  destruct (collected_batch_verifies (T:=toy_encoding_total) (XL:=demo_external_laws)
    (VL:=toy_verifier_laws) (SL:=demo_signing_laws) (SZ:=demo_signature_size) (DB := InMemoryStore)
    runtime_config None demo_seed true 4 empty_book [demo_collected_tick s] book' [demo_old_artifact s]
    [demo_old_artifact s; demo_artifact s] (λ _, Ok (payload_bytes s))) as (report & Hr & _ & Hn & Hv).
  - vm_compute. reflexivity.
  - reflexivity.
  - exact (demo_collects s _ book' Hrun).
  - intros t ->%list_elem_of_singleton. reflexivity.
  - intros t r _ Hr. unfold empty_book in Hr. cbn [payloads] in Hr. by rewrite lookup_empty in Hr.
  - apply Permutation_swap.
  - repeat constructor. discriminate.
  - exists report. split_and!; [reflexivity|exact Hr|exact Hv|exact Hn].
Defined.

(** Without an identity the node still collects and stores, and its audit then fails. *)
Example unsigned_epoch_fails :
  match collect_and_store_samples (DB := InMemoryStore) runtime_config None None 4 3 [runtime_sample] empty_book with
  | (Ok out, book') =>
      let s := assembled_batch out in
      match verify_local_epoch true runtime_config (Some demo_public) (λ _, Ok (payload_bytes s)) (Ok book')
        [Ok (demo_artifact s)] 4 with
      | Ok report => all_valid report = false ∧ vr_batch_count report = 1
      | _ => False
      end
  | _ => False
  end.
Proof. vm_compute. done. Qed.

Lemma stored_batch_reloads_witness :
  ∃ s, demo_collected = Ok s ∧
    load_batches_for_epoch runtime_config (λ _, Ok (payload_bytes s)) (Some [Ok (demo_artifact s)]) 4 = Ok [s].
Proof.
  assert (is_ok demo_collected = true) as Hok by (vm_compute; reflexivity).
  destruct demo_collected as [s|?|] eqn:Hc; try discriminate Hok.
  exists s. split; [reflexivity|].
  apply (stored_batch_reloads (XL:=demo_external_laws) (VL:=toy_verifier_laws)
    runtime_config (Some (from_seed demo_seed)) 4 3 [runtime_sample] s (demo_artifact s)).
  - exact Hc.
  - split; reflexivity.
  - reflexivity.
  - reflexivity.
  - reflexivity.
Defined.

(** The node and a listener, both registered. *)
Definition runtime_network : InMemoryP2pNetwork :=
  (mem_bootstrap_peer (demo_peer 1) [Batches]
    (mem_register_peer (stable_hash32 demo_public) InMemoryP2pNetwork_default).2).2.

Definition demo_published_run
    : outcome NodeRuntimeError CollectAndStoreOutcome * (LocalRetentionBook * InMemoryP2pNetwork) :=
  collect_store_and_publish_samples (DB := InMemoryStore) runtime_config (Some (from_seed demo_seed)) None
    4 3 [runtime_sample] (empty_book, runtime_network).

Lemma published_batch_retrievable_witness :
  ∃ out book' net', demo_published_run = (Ok out, (book', net')) ∧ batch_recipients out = 1 ∧
    ∃ r, (mem_request_payload (demo_peer 1) (ab_payload_cid (assembled_batch out)) net').1 = Ok r ∧
      pp_payload_bytes r = payload_bytes (assembled_batch out).
Proof.
  assert (match demo_published_run.1 with Ok out => batch_recipients out | _ => 0 end = 1) as Hok
    by (vm_compute; reflexivity).
  destruct demo_published_run as [[out|?|] [book' net']] eqn:Hrun; try discriminate Hok.
  exists out, book', net'. split; [reflexivity|]. split; [exact Hok|].
  destruct (published_batch_retrievable (DB := InMemoryStore) runtime_config (Some (from_seed demo_seed))
    None 4 3 [runtime_sample] empty_book runtime_network out book' net') as [Hreq _].
  - eapply rtc_l; [apply (step_register _ (stable_hash32 demo_public))|].
    eapply rtc_l; [apply (step_bootstrap _ (demo_peer 1) [Batches])|]. apply rtc_refl.
  - exact Hrun.
  - assert (im_payloads runtime_network = ∅) as Hnone by (vm_compute; reflexivity).
    rewrite Hnone. apply lookup_empty.
  - destruct (Hreq (demo_peer 1)) as (r & Hr & Hb & _); [apply (bool_decide_eq_true_1 _); vm_compute; reflexivity|].
    exists r. split; [exact Hr|exact Hb].
Defined.
