(* ===== verification/Preparation.v ===== *)
(** * Epoch preparation: src/src/node_prepare.rs, and the epoch commit of
    src/src/node_daemon.rs

    Aggregation, rewards and verification of an epoch are combined into an epoch commit
    and a report that says whether the epoch is ready to be submitted. The results of the
    components are arguments: what they return and how they are computed is in
    Aggregator, EpochRewards and Verifier; saving an artifact is the result of a write. *)
From S2P Require Import Prelude Primitives Params Records Crypto Store Rewards StorageBook Pipeline MutualProof Text NodeConfig ActiveParams CosmosAddress Verifier Aggregator EpochRewards StorageAudit P2p NodeRuntime.
Local Open Scope pole_scope.

Record EpochCommitArtifact := {
  ek_epoch_id : EpochId;
  ek_current_height : Height;
  ek_challenge_deadline_height : Height;
  ek_batch_count : Z;
  ek_payload_count : Z;
  ek_accepted_batches_root_hex : string;
  ek_observations_root_hex : string;
  ek_availability_root_hex : string;
  ek_aggregates_root_hex : string;
  ek_rewards_root_hex : string;
  ek_randomness_seed_hex : string;
}.

Record EpochPreparationArtifact := {
  pr_epoch_id : EpochId;
  pr_current_height : Height;
  pr_challenge_window_blocks : Z;
  pr_challenge_deadline_height : Height;
  pr_batch_count : Z;
  pr_payload_count : Z;
  pr_verification_batch_count : Z;
  pr_stored_payload_count : Z;
  pr_aggregate_count : Z;
  pr_reward_count : Z;
  pr_player_reward_block_count : Z;
  pr_total_observation_count : Z;
  pr_deduped_observation_count : Z;
  pr_accepted_observation_count : Z;
  pr_local_player_reward_total : Amount;
  pr_total_gvs_units : Amount;
  pr_total_distributed : Amount;
  pr_verification_all_valid : bool;
  pr_accepted_batches_root_hex : string;
  pr_observations_root_hex : string;
  pr_availability_root_hex : string;
  pr_aggregates_root_hex : string;
  pr_rewards_root_hex : string;
  pr_randomness_seed_hex : string;
  ready_for_submission : bool;
}.

Record EpochPreparationComputation := {
  pc_artifact : EpochPreparationArtifact;
  pc_aggregation_artifact : EpochAggregationArtifact;
  pc_reward_artifact : EpochRewardArtifact;
  pc_verification_report : EpochVerificationReport;
  pc_epoch_commit : EpochCommit;
  pc_epoch_commit_artifact : EpochCommitArtifact;
}.

Inductive NodePreparationError :=
| PrepAggregation (e : NodeAggregationError)
| PrepReward (e : NodeRewardError)
| PrepVerification (e : NodeVerificationError)
| PrepDaemon (e : NodeDaemonError)
| PrepIo (e : string)
| PrepJson (e : string).

(** [[0u8; 32]] *)
Definition zero_root : Hash32 := replicate 32 0.

(** What a preparation reads: the batch files and payloads, the retention book, and the
    results of the other components for the epoch ([aggregate_local_epoch],
    [reward_local_epoch], [verify_local_epoch]), and whether the artifacts were saved. *)
Record LocalEpoch := {
  le_files : option (list (outcome NodeDaemonError CollectTickArtifact));
  le_read_payload : string → outcome string bytes;
  le_book : outcome StorageBookError LocalRetentionBook;
  le_aggregation : outcome NodeAggregationError EpochAggregationArtifact;
  le_rewards : outcome NodeRewardError EpochRewardArtifact;
  le_verification : outcome NodeVerificationError EpochVerificationReport;
  le_save_commit : outcome NodeDaemonError unit;
  le_save_verification : outcome NodeVerificationError unit;
}.

Section Preparation.
Context `{B : BuildMode} `{X : External} `{PE : PipelineEncoding} `{VE : VerifierEncoding}.
Context `{RT : RuntimeEncoding} `{BC : Bech32}.
Context (config : NodeConfig) (src : LocalEpoch).

Definition build_epoch_commit_from_local_data (epoch_id : EpochId) (current_height : Height)
    (challenge_window_blocks : Z) (aggregates_root rewards_root : Hash32)
    : outcome NodeDaemonError (EpochCommit * EpochCommitArtifact) :=
  do? batches <- load_batches_for_epoch config (le_read_payload src) (le_files src) epoch_id;
  do? resolved_aggregates_root <-
    (if bool_decide (aggregates_root = zero_root) then
       do? artifact <- map_err DaemonAggregation (le_aggregation src);
       map_err DaemonAggregation (aggregate_record_root (en_aggregate <$> ea_records artifact))
     else Ok aggregates_root);
  do? resolved_rewards_root <-
    (if bool_decide (rewards_root = zero_root) then
       do? artifact <- map_err DaemonReward (le_rewards src);
       daemon_decode_hex_32 (ra_reward_root_hex artifact)
     else Ok rewards_root);
  do? book <- map_err DaemonStorage (le_book src);
  let stored_payloads := filter (λ r, sp_epoch_id r = epoch_id) (bt_values (payloads book)) in
  do? commit <- map_err DaemonRuntime (build_epoch_commit config {|
    in_epoch_id := epoch_id; in_current_height := current_height;
    in_challenge_window_blocks := challenge_window_blocks;
    in_batches := batches; in_stored_payloads := stored_payloads;
    in_aggregates_root := resolved_aggregates_root; in_rewards_root := resolved_rewards_root |});
  let artifact := {|
    ek_epoch_id := epoch_id; ek_current_height := current_height;
    ek_challenge_deadline_height := challenge_deadline_height commit;
    ek_batch_count := leaf_count (accepted_batches commit);
    ek_payload_count := leaf_count (availability commit);
    ek_accepted_batches_root_hex := hex_32 (root (accepted_batches commit));
    ek_observations_root_hex := hex_32 (root (observations commit));
    ek_availability_root_hex := hex_32 (root (availability commit));
    ek_aggregates_root_hex := hex_32 (root (aggregates commit));
    ek_rewards_root_hex := hex_32 (root (ec_rewards commit));
    ek_randomness_seed_hex := hex_32 (randomness_seed commit) |} in
  do? _saved <- le_save_commit src;
  Ok (commit, artifact).

Definition compute_local_epoch_preparation (epoch_id : EpochId) (current_height : Height)
    (challenge_window_blocks : Z) : outcome NodePreparationError EpochPreparationComputation :=
  do? aggregation <- map_err PrepAggregation (le_aggregation src);
  do? aggregates_root <- map_err PrepAggregation
    (aggregate_record_root (en_aggregate <$> ea_records aggregation));
  do? rewards <- map_err PrepReward (le_rewards src);
  do? rewards_root <- map_err PrepReward (reward_record_root (re_reward <$> ra_records rewards));
  do? report <- map_err PrepVerification (le_verification src);
  do? _saved <- map_err PrepVerification (le_save_verification src);
  do? ca <- map_err PrepDaemon (build_epoch_commit_from_local_data epoch_id current_height
    challenge_window_blocks aggregates_root rewards_root);
  let '(commit, artifact) := ca in
  let ready := all_valid report && (0 <? ek_batch_count artifact) && (0 <? ek_payload_count artifact)
    && (current_height <=? ek_challenge_deadline_height artifact) in
  Ok {| pc_artifact := {|
          pr_epoch_id := epoch_id; pr_current_height := current_height;
          pr_challenge_window_blocks := challenge_window_blocks;
          pr_challenge_deadline_height := ek_challenge_deadline_height artifact;
          pr_batch_count := ek_batch_count artifact; pr_payload_count := ek_payload_count artifact;
          pr_verification_batch_count := vr_batch_count report;
          pr_stored_payload_count := vr_stored_payload_count report;
          pr_aggregate_count := ea_aggregate_count aggregation;
          pr_reward_count := ra_reward_count rewards;
          pr_player_reward_block_count := ra_player_reward_block_count rewards;
          pr_total_observation_count := ea_total_observation_count aggregation;
          pr_deduped_observation_count := ea_deduped_observation_count aggregation;
          pr_accepted_observation_count := ea_accepted_observation_count aggregation;
          pr_local_player_reward_total := ra_local_player_reward_total rewards;
          pr_total_gvs_units := ra_total_gvs_units rewards;
          pr_total_distributed := ra_total_distributed rewards;
          pr_verification_all_valid := all_valid report;
          pr_accepted_batches_root_hex := ek_accepted_batches_root_hex artifact;
          pr_observations_root_hex := ek_observations_root_hex artifact;
          pr_availability_root_hex := ek_availability_root_hex artifact;
          pr_aggregates_root_hex := ek_aggregates_root_hex artifact;
          pr_rewards_root_hex := ek_rewards_root_hex artifact;
          pr_randomness_seed_hex := ek_randomness_seed_hex artifact;
          ready_for_submission := ready |};
        pc_aggregation_artifact := aggregation; pc_reward_artifact := rewards;
        pc_verification_report := report; pc_epoch_commit := commit;
        pc_epoch_commit_artifact := artifact |}.
End Preparation.

(** * Theorems *)

(** What a successful preparation computed. *)
Lemma preparation_inv `{BuildMode, External, PipelineEncoding, VerifierEncoding, RuntimeEncoding, Bech32}
    config src e h w prep :
  compute_local_epoch_preparation config src e h w = Ok prep →
  le_rewards src = Ok (pc_reward_artifact prep) ∧
  pr_challenge_deadline_height (pc_artifact prep)
    = ek_challenge_deadline_height (pc_epoch_commit_artifact prep) ∧
  ∃ ar rr, build_epoch_commit_from_local_data config src e h w ar rr =
    Ok (pc_epoch_commit prep, pc_epoch_commit_artifact prep).
Proof.
  unfold compute_local_epoch_preparation. intros Hp.
  destruct (le_aggregation src) as [agg| |]; simpl in Hp; [|done|done].
  destruct (aggregate_record_root _) as [ar| |]; simpl in Hp; [|done|done].
  destruct (le_rewards src) as [rew| |]; simpl in Hp; [|done|done].
  destruct (reward_record_root _) as [rr| |]; simpl in Hp; [|done|done].
  destruct (le_verification src) as [rep| |]; simpl in Hp; [|done|done].
  destruct (le_save_verification src) as [u| |]; simpl in Hp; [|done|done].
  destruct (build_epoch_commit_from_local_data _ _ _ _ _ _ _) as [[commit art]| |] eqn:E; simpl in Hp; [|done|done].
  injection Hp as <-. simpl. eauto.
Qed.

(** What a successful commit was built from. *)
Lemma local_commit_inv `{BuildMode, External, PipelineEncoding, VerifierEncoding, RuntimeEncoding, Bech32}
    config src e h w ar rr commit art :
  build_epoch_commit_from_local_data config src e h w ar rr = Ok (commit, art) →
  ek_challenge_deadline_height art = challenge_deadline_height commit ∧
  ∃ batches inputs, load_batches_for_epoch config (le_read_payload src) (le_files src) e = Ok batches ∧
    batches ≠ [] ∧ in_batches inputs = batches ∧ in_epoch_id inputs = e ∧ in_current_height inputs = h ∧
    in_challenge_window_blocks inputs = w ∧ build_epoch_commit config inputs = Ok commit.
Proof.
  unfold build_epoch_commit_from_local_data. intros E.
  destruct (load_batches_for_epoch _ _ _ _) as [batches| |]; simpl in E; [|done|done]. revert E.
  match goal with |- outcome_bind ?m _ = _ → _ => destruct m as [ar'| |]; [|done|done] end. simpl.
  match goal with |- outcome_bind ?m _ = _ → _ => destruct m as [rr'| |]; [|done|done] end. simpl.
  destruct (le_book src) as [book| |]; simpl; [|done|done].
  destruct (build_epoch_commit config _) as [c| |] eqn:Ec; simpl; [|done|done].
  destruct (le_save_commit src); simpl; [|done|done]. intros [= <- <-]. split; [done|].
  match type of Ec with build_epoch_commit config ?i = _ => exists batches, i end.
  split; [done|]. split; [|by repeat (split; [done|])].
  intros ->. unfold build_epoch_commit in Ec. by destruct (ensure_propose_enabled config).
Qed.

Lemma build_epoch_commit_fields `{BuildMode, External, PipelineEncoding, RuntimeEncoding, Bech32} config inputs commit :
  build_epoch_commit config inputs = Ok commit →
  ec_epoch_id commit = in_epoch_id inputs ∧ node_id config = Ok (proposer_id commit).
Proof.
  unfold build_epoch_commit. destruct (ensure_propose_enabled config); simpl; [|done|done].
  case_bool_decide; [done|]. destruct (node_id config) as [c|?|]; simpl; [|done|done].
  destruct (mapM batch_leaf _); simpl; [|done]. destruct (mapM observation_leaf _); simpl; [|done].
  destruct (mapM payload_leaf _); simpl; [|done]. destruct (borsh_seed _ _ _); simpl; [|done].
  destruct (add _ _ _); simpl; [|done]. by intros [= <-].
Qed.

(** Borsh serialization into a vector succeeds. *)
Class RuntimeTotal `{PipelineEncoding, RuntimeEncoding} : Prop := {
  borsh_batch_commit_total : ∀ b, ∃ e, borsh_batch_commit b = Ok e;
  borsh_stored_payload_total : ∀ r, is_Some (borsh_stored_payload r);
  borsh_seed_total : ∀ e a o, is_Some (borsh_seed e a o);
}.

Section Ready.
Context `{B : BuildMode} `{X : External} `{PE : PipelineEncoding} `{PX : ProofExternal}.
Context `{RE : ReceiptEncoding} `{VE : VerifierEncoding} `{RT : RuntimeEncoding} `{BC : Bech32}.
Context `{T : !EncodingTotal} `{XL : !ExternalLaws} `{VL : !VerifierLaws} `{SL : !SigningLaws}.
Context `{SZ : !SignatureSize} `{TT : !RuntimeTotal}.
Context {DB : Type} `{PS : ProtocolStore DB}.
Context (config : NodeConfig) (store : option DB).

(** A commit is built whenever there is a batch, a proposer and a deadline in range. *)
Lemma build_epoch_commit_total inputs c :
  cap_propose (nc_capabilities config) = true → in_batches inputs ≠ [] → node_id config = Ok c →
  0 <= in_current_height inputs → 0 <= in_challenge_window_blocks inputs →
  in_current_height inputs + in_challenge_window_blocks inputs < 2 ^ 64 →
  ∃ commit, build_epoch_commit config inputs = Ok commit ∧
    leaf_count (accepted_batches commit) = Z.of_nat (length (in_batches inputs)) mod 2 ^ 32 ∧
    leaf_count (availability commit) = Z.of_nat (length (in_stored_payloads inputs)) mod 2 ^ 32 ∧
    challenge_deadline_height commit = in_current_height inputs + in_challenge_window_blocks inputs ∧
    aggregates commit = optional_commitment (in_aggregates_root inputs) ∧
    ec_rewards commit = optional_commitment (in_rewards_root inputs).
Proof.
  intros Hcap Hne Hid Hh Hw Hfit. unfold build_epoch_commit, ensure_propose_enabled.
  rewrite Hcap. simpl. rewrite bool_decide_false by (by intros E%nil_length_inv).
  rewrite Hid. simpl.
  destruct (mapM_is_Some_2 batch_leaf (in_batches inputs)) as [bl ->].
  { apply Forall_true. intros s. unfold compose, batch_leaf.
    destruct (borsh_batch_commit_total (ab_batch_commit s)) as [e ->]. by eexists. }
  simpl. destruct (observation_leaf_total (in_batches inputs ≫= ab_observations)) as [ol ->]. simpl.
  destruct (mapM_is_Some_2 payload_leaf (in_stored_payloads inputs)) as [pl ->].
  { apply Forall_true. intros r. unfold compose, payload_leaf.
    destruct (borsh_stored_payload_total r) as [e ->]. by eexists. }
  simpl. destruct (borsh_seed_total (in_epoch_id inputs) (merkle_root bl) (merkle_root ol)) as [sd ->].
  simpl. rewrite add_exact by lia. simpl. eexists. split; [reflexivity|]. done.
Qed.

(** An epoch in which a node collected: the ticks of the node's run, with their artifacts and
    payloads on disk and nothing of another node's in the epoch; the audit, the aggregation and
    the rewards computed from that; and every artifact saved. *)
Record collected_epoch (seed : bytes) (debug : bool) (e : EpochId) (book : LocalRetentionBook)
    (ts : list CollectedTick) (book' : LocalRetentionBook) (src : LocalEpoch) (rsrc : EpochSources)
    (comp : EpochRewardComputation) : Prop := {
  ce_id : node_id config = Ok (stable_hash32 (public_of_seed seed));
  ce_store : cap_store (nc_capabilities config) = true;
  ce_propose : cap_propose (nc_capabilities config) = true;
  ce_run : collects config store seed book ts book';
  ce_tick : ∃ t, t ∈ ts ∧ ctk_epoch t = e;
  ce_old : ∀ t r, t ∈ ts → payloads book !! ab_payload_cid (ctk_batch t) = Some r → stored_for t r;
  ce_size : Z.of_nat (size (payloads book) + length ts) < 2 ^ 32;
  ce_payload : ∀ t, t ∈ ts →
    le_read_payload src (ab_payload_cid (ctk_batch t)) = Ok (payload_bytes (ctk_batch t));
  ce_files : ∃ arts others, le_files src = Some (Ok <$> arts) ∧
    arts ≡ₚ ((ctk_artifact <$> ts) ++ others)%list ∧ Forall (λ a, ct_epoch_id a ≠ e) others ∧
    le_verification src = verify_local_epoch debug config (Some (public_of_seed seed)) (le_read_payload src)
      (le_book src) (Ok <$> arts) e;
  ce_book : le_book src = Ok book';
  ce_aggregation : ∀ loaded,
    load_batches_for_epoch config (le_read_payload src) (le_files src) e = Ok loaded →
    ∃ activated slots, es_aggregation rsrc = compute_local_epoch_aggregation activated slots e
      (Ok ((λ s, (ab_batch_commit s, ab_observations s)) <$> loaded));
  ce_aggregated : ∀ agg, es_aggregation rsrc = Ok agg → le_aggregation src = Ok (ec_artifact agg);
  ce_reward_book : es_book rsrc = le_book src;
  ce_rewards : compute_local_epoch_rewards store config rsrc e = Ok comp;
  ce_rewarded : le_rewards src = Ok (rc_artifact comp);
  ce_saved : le_save_commit src = Ok tt ∧ le_save_verification src = Ok tt;
}.

Section Collected.
Context (seed : bytes) (debug : bool) (e : EpochId) (book : LocalRetentionBook).
Context (ts : list CollectedTick) (book' : LocalRetentionBook) (src : LocalEpoch) (rsrc : EpochSources).
Context (comp : EpochRewardComputation).
Context (Hce : collected_epoch seed debug e book ts book' src rsrc comp).
Local Notation own := (filter (λ t, ctk_epoch t = e) ts).

Lemma collected_epoch_book :
  0 < Z.of_nat (length (filter (λ r, sp_epoch_id r = e) (bt_values (payloads book')))) < 2 ^ 32.
Proof using All.
  destruct Hce as [_ Hst _ Hrun (t & Ht & Hte) Hold Hsize Hread _ _ _ _ _ _ _ _].
  destruct (collects_stored config store seed (le_read_payload src) book ts book' Hst Hrun Hread Hold)
    as (_ & Hs & Hin). destruct (Hin t Ht) as (r & Hl & _ & Hr). split.
  - assert (r ∈ filter (λ r, sp_epoch_id r = e) (bt_values (payloads book'))) as Hrin.
    { apply list_elem_of_filter. split; [congruence|]. apply list_elem_of_fmap.
      eexists (_, r). split; [done|]. by apply elem_of_bt_iter. }
    destruct (filter _ _); [by apply not_elem_of_nil in Hrin|]. simpl. lia.
  - match goal with |- Z.of_nat (length (filter ?P ?l)) < _ => pose proof (length_filter P l) as Hlen end.
    revert Hlen. unfold bt_values. rewrite length_fmap, bt_iter_perm, length_map_to_list. lia.
Qed.

Lemma collected_own_ticks : own ≠ [] ∧ Z.of_nat (length own) < 2 ^ 32.
Proof using All.
  destruct (ce_tick _ _ _ _ _ _ _ _ _ Hce) as (t & Ht & Hte). split.
  - intros E. assert (t ∈ own) as Hin by (by apply list_elem_of_filter). rewrite E in Hin.
    by apply not_elem_of_nil in Hin.
  - pose proof (length_filter (λ t, ctk_epoch t = e) ts). pose proof (ce_size _ _ _ _ _ _ _ _ _ Hce). lia.
Qed.

Lemma collected_loaded :
  ∃ loaded, load_batches_for_epoch config (le_read_payload src) (le_files src) e = Ok loaded ∧
    loaded ≡ₚ (ctk_batch <$> own).
Proof using All.
  destruct (ce_files _ _ _ _ _ _ _ _ _ Hce) as (arts & others & -> & Hp & Ho & _).
  eapply run_reloads; [|apply (ce_id _ _ _ _ _ _ _ _ _ Hce)|apply (ce_payload _ _ _ _ _ _ _ _ _ Hce)|done|done].
  eapply collects_sealed; [apply (ce_store _ _ _ _ _ _ _ _ _ Hce)|apply (ce_run _ _ _ _ _ _ _ _ _ Hce)].
Qed.

Lemma collected_report :
  ∃ report, le_verification src = Ok report ∧ all_valid report = true ∧
    vr_batch_count report = Z.of_nat (length own).
Proof using All.
  destruct (ce_files _ _ _ _ _ _ _ _ _ Hce) as (arts & others & _ & Hp & Ho & ->).
  destruct Hce as [Hid Hst _ Hrun _ Hold _ Hread _ Hbook _ _ _ _ _ _]. rewrite Hbook.
  destruct (collected_verifies config store seed debug e book ts book' others arts (le_read_payload src)
    Hid Hst Hrun Hread Hold Hp Ho) as (report & Hr & _ & Hn & Hall).
  exists report. rewrite Hall, bool_decide_false by apply collected_own_ticks. done.
Qed.

(** The roots that the preparation commits to are those of the computed records. *)
Lemma collected_roots :
  ∃ agg ar rr, le_aggregation src = Ok agg ∧ aggregate_record_root (en_aggregate <$> ea_records agg) = Ok ar ∧
    reward_record_root (re_reward <$> ra_records (rc_artifact comp)) = Ok rr ∧
    daemon_decode_hex_32 (ra_reward_root_hex (rc_artifact comp)) = Ok rr.
Proof using All.
  pose proof (ce_rewards _ _ _ _ _ _ _ _ _ Hce) as Hrew.
  destruct (computed_records _ _ _ _ _ Hrew) as (Hre & _ & _ & leaves & Hleaves & Hrt & Hhex).
  pose proof Hrew as (agg & ? & ? & ? & ? & ? & ? & ? & ? & ? & Hp)%compute_parts.
  pose proof (ep_agg _ _ _ _ _ _ _ _ _ _ _ _ _ _ Hp) as Hagg.
  destruct collected_loaded as (loaded & Hload & _).
  destruct (ce_aggregation _ _ _ _ _ _ _ _ _ Hce loaded Hload) as (act & slots & Hcomp).
  rewrite Hagg in Hcomp. symmetry in Hcomp. unfold compute_local_epoch_aggregation in Hcomp.
  apply outcome_bind_ok in Hcomp as (bs & _ & Hcomp). apply outcome_bind_ok in Hcomp as (gt & _ & Hcomp).
  apply outcome_bind_ok in Hcomp as (r & _ & Hcomp). apply outcome_bind_ok in Hcomp as (ar & Har & [= Hcomp]).
  exists (ec_artifact agg), ar, (merkle_root leaves). split_and!.
  - by apply (ce_aggregated _ _ _ _ _ _ _ _ _ Hce).
  - rewrite <- Hcomp. simpl. rewrite <- list_fmap_compose. exact Har.
  - by rewrite Hre.
  - rewrite Hhex. assert (Forall (λ h, length h = 32%nat ∧ Forall is_byte h) leaves) as Hd.
    { clear -Hleaves XL VL. induction Hleaves as [|r l rs ls (? & json & _ & _ & ->) _ IH]; constructor; [|done].
      unfold merkle_leaf_sha256. split; [apply sha256_length|apply sha256_bytes]. }
    destruct (merkle_root_digest _ Hd) as [Hl Hb]. by apply daemon_decode_hex_hash.
Qed.
End Collected.

(** An epoch a node collected is ready to be submitted: the preparation succeeds, finds everything
    valid and reports the epoch ready, with a commit to the batches of exactly the epoch's ticks
    and to the roots of the computed aggregates and rewards. *)
Theorem collected_epoch_ready seed debug e book ts book' src rsrc comp height window :
  collected_epoch seed debug e book ts book' src rsrc comp →
  0 <= height → 0 <= window → height + window < 2 ^ 64 →
  ∃ c, compute_local_epoch_preparation config src e height window = Ok c ∧
    ready_for_submission (pc_artifact c) = true ∧
    leaf_count (accepted_batches (pc_epoch_commit c)) = Z.of_nat (length (filter (λ t, ctk_epoch t = e) ts)) ∧
    Ok (root (aggregates (pc_epoch_commit c)))
      = aggregate_record_root (en_aggregate <$> ea_records (pc_aggregation_artifact c)) ∧
    Ok (root (ec_rewards (pc_epoch_commit c))) = reward_record_root (rc_records comp) ∧
    challenge_deadline_height (pc_epoch_commit c) = height + window.
Proof.
  intros Hce Hh Hw Hfit. pose proof (collected_epoch_book _ _ _ _ _ _ _ _ _ Hce) as Hpay.
  destruct (collected_own_ticks _ _ _ _ _ _ _ _ _ Hce) as [Hne Hlen].
  destruct (collected_loaded _ _ _ _ _ _ _ _ _ Hce) as (loaded & Hload & Hperm).
  destruct (collected_report _ _ _ _ _ _ _ _ _ Hce) as (report & Hr & Hvalid & _).
  destruct (collected_roots _ _ _ _ _ _ _ _ _ Hce) as (agg & ar & rr & Hagg & Har & Hrr & Hdec).
  destruct (computed_records _ _ _ _ _ (ce_rewards _ _ _ _ _ _ _ _ _ Hce)) as (Hre & _ & _ & _).
  destruct Hce as [Hid _ Hprop _ _ _ _ _ _ Hbook _ _ _ _ Hrew [Hs1 Hs2]].
  unfold compute_local_epoch_preparation. rewrite Hagg. cbn [map_err outcome_bind]. rewrite Har, Hrew.
  cbn [map_err outcome_bind]. rewrite Hrr, Hr, Hs2. cbn [map_err outcome_bind].
  unfold build_epoch_commit_from_local_data. rewrite Hload, Hbook, Hs1, Hagg, Hrew.
  cbn [map_err outcome_bind]. rewrite Har, Hdec. cbn [map_err outcome_bind].
  assert (∀ (P : Prop) `{Decision P} (h : Hash32), (if bool_decide P then Ok h else Ok h) = Ok (E:=NodeDaemonError) h) as Hif
    by (intros P HP h; by destruct (bool_decide P)).
  rewrite !Hif. cbn [map_err outcome_bind].
  match goal with |- context [build_epoch_commit config ?i] => set (inputs := i) end.
  assert (Z.of_nat (length (in_batches inputs)) = Z.of_nat (length (filter (λ t, ctk_epoch t = e) ts))) as Hlb
    by (simpl; by rewrite Hperm, length_fmap).
  destruct (build_epoch_commit_total inputs (stable_hash32 (public_of_seed seed)) Hprop) as (commit & Hcommit & Hn1 & Hn2 & Hd & Hra & Hrb); [|done..|].
  { intros E. rewrite E in Hlb. simpl in Hlb. destruct (filter _ ts); [done|simpl in Hlb; lia]. }
  rewrite Hcommit. cbn [map_err outcome_bind].
  eexists. split; [reflexivity|]. cbn -[Z.pow Z.modulo length]. rewrite Hvalid, Hn1, Hn2, Hd, Hra, Hrb, Hlb.
  rewrite !Z.mod_small by (simpl; lia).
  split_and!; [|done|simpl; congruence|simpl; by rewrite <- Hre|done].
  assert (0 < Z.of_nat (length (filter (λ t, ctk_epoch t = e) ts))) by (destruct (filter _ ts); [done|simpl; lia]).
  apply andb_true_iff. split; [apply andb_true_iff; split|]; [by apply Z.ltb_lt|apply Z.ltb_lt; simpl; lia|].
  apply Z.leb_le. simpl. lia.
Qed.
End Ready.

(** ** The epoch of the demo node *)

#[local] Existing Instances demo_external toy_pipeline_encoding toy_verifier_encoding demo_proof_external
  toy_bech32 demo_encoding.
#[local] Instance preparation_build : BuildMode := true.

Definition toy_runtime_encoding : RuntimeEncoding := {|
  borsh_stored_payload := λ r, Some (payload_hash r);
  borsh_seed := λ e a o, Some (e :: a ++ o);
|}.
#[local] Existing Instance toy_runtime_encoding.

Lemma toy_runtime_total : @RuntimeTotal toy_pipeline_encoding toy_runtime_encoding.
Proof. split; [by eexists|done..]. Qed.

(** What the rewards of the demo node's epoch are computed from: its batch, its book, no play. *)
Definition prep_sources (s : AssembledBatch) (book : LocalRetentionBook) : EpochSources := {|
  es_aggregation := compute_local_epoch_aggregation None 288 4 (Ok [(ab_batch_commit s, ab_observations s)]);
  es_book := Ok book; es_ticks := Ok []; es_sessions := []; es_attestations := []; es_settled := λ _, false;
  es_chain_credits := ∅; es_local_account := None; es_local_recipient := Some "cosmos1node"; es_credentials := [] |}.
Definition prep_computed (s : AssembledBatch) (book : LocalRetentionBook)
    : outcome NodeRewardError EpochRewardComputation :=
  compute_local_epoch_rewards (DB := InMemoryStore) None runtime_config (prep_sources s book) 4.

Definition on_ok {E A C} (f : A → C) (r : outcome E A) : outcome E C :=
  match r with Ok a => Ok (f a) | Err e => Err e | Panic => Panic end.

(** The sources of an epoch for which [s] was collected and stored in [book]. *)
Definition prep_epoch (s : AssembledBatch) (book : LocalRetentionBook) : LocalEpoch :=
  let files := [demo_old_artifact s; demo_artifact s] in {|
  le_files := Some (Ok <$> files);
  le_read_payload := λ _, Ok (payload_bytes s);
  le_book := Ok book;
  le_aggregation := on_ok ec_artifact (es_aggregation (prep_sources s book));
  le_rewards := on_ok rc_artifact (prep_computed s book);
  le_verification := verify_local_epoch true runtime_config (Some demo_public) (λ _, Ok (payload_bytes s))
    (Ok book) (Ok <$> files) 4;
  le_save_commit := Ok tt;
  le_save_verification := Ok tt |}.

Lemma demo_collected_epoch s record book' comp :
  demo_stored_run = (Ok {| assembled_batch := s; stored_payload := record; batch_recipients := 0;
                           receipt_recipients := 0 |}, book') →
  prep_computed s book' = Ok comp →
  collected_epoch (DB := InMemoryStore) runtime_config None demo_seed true 4 empty_book [demo_collected_tick s]
    book' (prep_epoch s book') (prep_sources s book') comp.
Proof.
  intros Hrun Hcomp. pose proof (demo_collects s record book' Hrun) as Hcol. split; [..|split; reflexivity].
  - vm_compute. reflexivity.
  - reflexivity.
  - reflexivity.
  - exact Hcol.
  - exists (demo_collected_tick s). split; [left|reflexivity].
  - intros t r _ Hr. unfold empty_book in Hr. cbn [payloads] in Hr. by rewrite lookup_empty in Hr.
  - reflexivity.
  - intros t ->%list_elem_of_singleton. reflexivity.
  - exists [demo_old_artifact s; demo_artifact s], [demo_old_artifact s].
    split_and!; [reflexivity|apply Permutation_swap|by repeat constructor|reflexivity].
  - reflexivity.
  - intros loaded Hl. exists None, 288. assert (loaded = [s]) as ->; [|reflexivity].
    destruct (run_reloads (XL := demo_external_laws) (VL := toy_verifier_laws)
      runtime_config demo_seed 4 [demo_collected_tick s] (stable_hash32 demo_public) [demo_old_artifact s]
      [demo_old_artifact s; demo_artifact s] (λ _, Ok (payload_bytes s))) as (l & Hl' & Hp).
    + exact (collects_sealed (DB := InMemoryStore) runtime_config None demo_seed _ _ _ eq_refl Hcol).
    + vm_compute. reflexivity.
    + intros t ->%list_elem_of_singleton. reflexivity.
    + apply Permutation_swap.
    + by repeat constructor.
    + pose proof (eq_trans (eq_sym Hl') Hl) as E. injection E as ->.
      rewrite filter_cons_True in Hp by done. by apply Permutation_singleton_r in Hp.
  - intros agg Hagg. cbn [le_aggregation prep_epoch]. by rewrite Hagg.
  - reflexivity.
  - exact Hcomp.
  - cbn [le_rewards prep_epoch]. by rewrite Hcomp.
Qed.

Lemma collected_epoch_ready_witness :
  ∃ s record book' c,
    demo_stored_run = (Ok {| assembled_batch := s; stored_payload := record; batch_recipients := 0;
                             receipt_recipients := 0 |}, book') ∧
    compute_local_epoch_preparation runtime_config (prep_epoch s book') 4 100 20 = Ok c ∧
    ready_for_submission (pc_artifact c) = true.
Proof.
  assert (match demo_stored_run with
    | (Ok {| assembled_batch := s; batch_recipients := 0; receipt_recipients := 0 |}, book) => is_ok (prep_computed s book)
    | _ => false end = true) as Hok by (vm_compute; reflexivity).
  destruct demo_stored_run as [[[s record [] []]|?|] book'] eqn:Hrun; try discriminate Hok.
  destruct (prep_computed s book') as [comp|?|] eqn:Hcomp; try discriminate Hok.
  exists s, record, book'.
  destruct (collected_epoch_ready (T:=toy_encoding_total) (XL:=demo_external_laws) (VL:=toy_verifier_laws)
    (SL:=demo_signing_laws) (SZ:=demo_signature_size) (TT:=toy_runtime_total) (DB := InMemoryStore)
    runtime_config None demo_seed true 4 empty_book [demo_collected_tick s] book' (prep_epoch s book')
    (prep_sources s book') comp 100 20 (demo_collected_epoch s record book' comp Hrun Hcomp))
    as (c & Hc & Hr & _); [lia..|].
  exists c. exact (conj eq_refl (conj Hc Hr)).
Defined.
