(* ===== verification/Settlement.v ===== *)
(** * Settling an epoch on the local chain: src/src/node_settlement.rs

    [settle_local_epoch] prepares an epoch, runs it through the ledger (the node is
    registered, its batches are submitted, the epoch is committed and finalized, the
    node's reward is claimed) and writes the chain's files; the governance artifacts are
    exported beside them. The files are the record [Disk]; whether a read or write fails
    is given by [io]. A failed write leaves the file as it was, which no theorem uses
    but for the store, whose write is a rename. Paths are arguments. *)
From S2P Require Import Prelude Primitives Params Records Crypto Store Transitions Executor Refinement.
From S2P Require Import Tokenomics Rewards StorageBook Pipeline MutualProof Text NodeConfig ActiveParams CosmosAddress Verifier Aggregator EpochRewards StorageAudit P2p NodeRuntime Preparation.
Local Open Scope pole_scope.

Record LocalChainRuntimeState := {
  lr_height : Height;
  lr_current_epoch : EpochId;
}.

Record EpochSettlementArtifact := {
  es_epoch_id : EpochId;
  es_submission_height : Height;
  es_challenge_window_blocks : Z;
  es_challenge_deadline_height : Height;
  es_finalization_height : Height;
  es_prepared_ready_for_submission : bool;
  es_batch_count : Z;
  es_payload_count : Z;
  es_batch_submission_count : Z;
  es_batch_already_present_count : Z;
  es_reward_record_count : Z;
  es_accepted_batches_root_hex : string;
  es_observations_root_hex : string;
  es_availability_root_hex : string;
  es_aggregates_root_hex : string;
  es_rewards_root_hex : string;
  es_randomness_seed_hex : string;
  es_commit_applied : bool;
  es_commit_already_present : bool;
  es_epoch_finalized : bool;
  es_epoch_already_finalized : bool;
  es_local_node_id_hex : string;
  es_local_reward_available : Amount;
  es_local_reward_claimed : bool;
  es_local_reward_already_claimed : bool;
  es_local_reward_balance : Amount;
  es_current_epoch_after : EpochId;
  es_local_chain_runtime_path : string;
  es_local_chain_store_path : string;
  es_prepared_epoch_path : string;
}.

Record GovernanceProposalArtifact := {
  ga_proposal_id_hex : string;
  ga_proposer_hex : string;
  ga_effective_epoch : EpochId;
  ga_submitted_height : Height;
  ga_bond_amount : Amount;
  ga_params_hash_hex : string;
  ga_proposal_state : string;
  ga_vote_record_count : Z;
  ga_yes_voting_power : Amount;
  ga_no_voting_power : Amount;
  ga_abstain_voting_power : Amount;
  ga_params : ProtocolParams;
}.

Record GovernanceScheduledParamsArtifact := {
  gs_epoch_id : EpochId;
  gs_current_epoch : EpochId;
  gs_scheduled : bool;
  gs_params : option ProtocolParams;
}.

Record GovernanceProposalIndexEntry := {
  pe_proposal_id_hex : string;
  pe_proposal_state : string;
  pe_effective_epoch : EpochId;
  pe_artifact_path : string;
}.

Record GovernanceScheduledIndexEntry := {
  se_epoch_id : EpochId;
  se_scheduled : bool;
  se_artifact_path : string;
}.

Record GovernanceArtifactIndex := {
  proposal_artifacts : list GovernanceProposalIndexEntry;
  scheduled_artifacts : list GovernanceScheduledIndexEntry;
}.
Definition GovernanceArtifactIndex_default : GovernanceArtifactIndex :=
  {| proposal_artifacts := []; scheduled_artifacts := [] |}.

Record GovernanceArtifactSummary := {
  pending_proposal_count : Z;
  scheduled_proposal_count : Z;
  activated_proposal_count : Z;
  expired_proposal_count : Z;
  proposal_artifact_count : Z;
  scheduled_artifact_count : Z;
  latest_effective_epoch : option EpochId;
  artifact_index_path : string;
}.

Inductive NodeSettlementError :=
| SeConfig (e : NodeConfigError)
| SePreparation (e : NodePreparationError)
| SeTransition (e : TransitionError)
| SeIo (e : string)
| SeJson (e : string)
| SubmissionHeightRegression (requested current : Height).

(** ** The governance index *)

(** [iter_mut().find(..)] and update, or [push]. *)
Fixpoint upsert_by {A} (same : A → bool) (x : A) (l : list A) : list A :=
  match l with
  | [] => [x]
  | y :: l => if same y then x :: l else y :: upsert_by same x l
  end.

Definition upsert_proposal_artifact (index : GovernanceArtifactIndex) (id_hex state : string)
    (epoch : EpochId) (artifact_path : string) : GovernanceArtifactIndex :=
  let entry := {| pe_proposal_id_hex := id_hex; pe_proposal_state := state;
                  pe_effective_epoch := epoch; pe_artifact_path := artifact_path |} in
  {| proposal_artifacts := sort_by_key pe_proposal_id_hex
       (upsert_by (λ e, bool_decide (pe_proposal_id_hex e = id_hex)) entry (proposal_artifacts index));
     scheduled_artifacts := scheduled_artifacts index |}.

Definition upsert_scheduled_artifact (index : GovernanceArtifactIndex) (epoch_id : EpochId)
    (scheduled : bool) (artifact_path : string) : GovernanceArtifactIndex :=
  let entry := {| se_epoch_id := epoch_id; se_scheduled := scheduled;
                  se_artifact_path := artifact_path |} in
  {| proposal_artifacts := proposal_artifacts index;
     scheduled_artifacts := sort_by_key se_epoch_id
       (upsert_by (λ e, se_epoch_id e =? epoch_id) entry (scheduled_artifacts index)) |}.

(** [format!("{:?}", state)] *)
Definition debug_state (s : GovernanceProposalState) : string :=
  match s with
  | Pending => "Pending" | Scheduled => "Scheduled" | Activated => "Activated"
  | ProposalExpired => "Expired"
  end.

(** The loop over the votes; [None] is the overflow panic. *)
Fixpoint summarize_loop `{BuildMode} (yes no abstain : Z) (votes : list GovernanceVoteRecord)
    : option (Z * Z * Z) :=
  match votes with
  | [] => Some (yes, no, abstain)
  | vote :: votes =>
      match gv_choice vote with
      | Yes => yes ← add 128 yes (gv_voting_power vote); summarize_loop yes no abstain votes
      | No => no ← add 128 no (gv_voting_power vote); summarize_loop yes no abstain votes
      | Abstain => abstain ← add 128 abstain (gv_voting_power vote); summarize_loop yes no abstain votes
      end
  end.
Definition summarize_governance_votes `{BuildMode} (votes : list GovernanceVoteRecord)
    : option (Z * Z * Z) := summarize_loop 0 0 0 votes.

Definition index_summary (index : GovernanceArtifactIndex) (index_path : string)
    : GovernanceArtifactSummary :=
  let in_state s := Z.of_nat (length (filter (λ e, pe_proposal_state e = s) (proposal_artifacts index))) in
  {| pending_proposal_count := in_state "Pending"%string;
     scheduled_proposal_count := in_state "Scheduled"%string;
     activated_proposal_count := in_state "Activated"%string;
     expired_proposal_count := in_state "Expired"%string;
     proposal_artifact_count := Z.of_nat (length (proposal_artifacts index));
     scheduled_artifact_count := Z.of_nat (length (scheduled_artifacts index));
     latest_effective_epoch := iter_max (pe_effective_epoch <$> proposal_artifacts index);
     artifact_index_path := index_path |}.

(** ** The parameters of the local chain *)

Definition config_capabilities (config : NodeConfig) : list Capability :=
  let c := nc_capabilities config in
  (if cap_collect c then [Collect] else []) ++ (if cap_store c then [Store] else [])
  ++ (if cap_verify c then [Verify] else []) ++ (if cap_propose c then [Propose] else [])
  ++ (if cap_archive c then [Archive] else []).

(** [x.clamp(1, u64::from(u32::MAX)) as u32] *)
Definition clamp_u32 (x : Z) : Z := Z.max 1 (Z.min x (2 ^ 32 - 1)).

Definition local_protocol_params {DB} `{ProtocolStore DB} (chain : option DB) (config : NodeConfig)
    (window : Z) : ProtocolParams :=
  let r := nc_reward config in {|
  slot_seconds := clamp_u32 (poll_interval_secs (runtime config));
  epoch_slots := clamp_u32 (slots_per_epoch (runtime config));
  committee_size := 21;
  unbonding_blocks := 5;
  min_verify_bond := 100;
  min_propose_bond := 10000;
  challenge_window_blocks := window;
  max_emergency_brake_blocks := 100;
  min_retention_epochs := effective_min_retention_epochs chain config;
  fee := {| base_gas_price_nano := 100; max_gas_price_nano := 1000; gas_adjustment_ppm := 1150000;
            congestion_threshold_ppm := 500000; fee_burn_bps := 2500 |};
  rewards := {|
    reward_source_is_tokenomics := match reward_source r with Tokenomics => true | Static => false end;
    emission_year := rc_emission_year r;
    reward_block_secs := effective_reward_block_secs chain config;
    initial_emission_rate_bps := INITIAL_EMISSION_RATE_BPS;
    tail_emission_start_year := rc_tail_emission_start_year r;
    tail_emission_rate_bps := rc_tail_emission_rate_bps r;
    player_reward_allocation_bps := PLAYER_REWARD_ALLOCATION_BPS;
    service_reward_allocation_bps := SERVICE_REWARD_ALLOCATION_BPS;
    collect_reward_bps := rc_collect_reward_bps r;
    store_reward_bps := rc_store_reward_bps r;
    verify_reward_bps := rc_verify_reward_bps r;
    propose_reward_bps := rc_propose_reward_bps r;
    configured_player_block_reward := player_block_reward r;
    effective_player_block_reward := effective_player_block_reward_of chain config;
    target_network_weight_units := effective_target_network_weight_units chain config;
    reward_adjustment_cap_bps := effective_reward_adjustment_cap_bps chain config;
    tier1_weight_ppm := 1000000;
    tier2_weight_min_ppm := 300000;
    tier2_weight_max_ppm := 600000;
    tier3_weight_min_ppm := 50000;
    tier3_weight_max_ppm := 150000;
    app_weight_overrides := (λ m, {| awo_app_id := gm_app_id m;
      awo_game_coefficient_ppm := game_coefficient_ppm m |}) <$> game_mappings r;
    reward_burn_threshold := 10000;
    reward_burn_bps := 1000;
    governance_burn_bps := 100;
  |};
  governance := {| params_update_bond := 10000; params_update_quorum_bps := 2500;
    params_update_approval_bps := 6000; slow_params_update_bond := 20000;
    slow_params_update_quorum_bps := 3300; slow_params_update_approval_bps := 7500 |};
  slashing := {| double_sign_bps := 5000; offline_bps := 100; medium_deviation_bps := 500;
                 severe_deviation_bps := 2000 |};
  mutual_proof := MutualProofParams_default;
|}.

(** ** The ledger side of a settlement *)

(** What a settlement reports of its run on the ledger. *)
Record ChainSettlement := {
  cs_batch_submission_count : Z;
  cs_batch_already_present_count : Z;
  cs_commit : bool * bool;
  cs_finalized : bool * bool;
  cs_finalization_height : Height;
  cs_local_node_id : NodeId;
  cs_local_reward_available : Amount;
  cs_claim : bool * bool;
}.

Section OnChain.
Context `{B : BuildMode} `{X : External} `{PE : PipelineEncoding} `{VE : VerifierEncoding}.
Context `{RT : RuntimeEncoding} `{PX : ProofExternal} {S : Type} `{PS : ProtocolStore S}.
Local Notation Chain := (M (ProtocolState S) NodeSettlementError).

Definition ensure_account_exists (a : Address) : method S unit :=
  existing <- from_store (λ s, account s a);;
  match existing with
  | None => upsert_account {| address := a; balance := 0; staked := 0; locked := 0; nonce := 0 |}
  | Some _ => m_ret tt
  end.

(** The entry a node gets when it is not registered yet. *)
Definition local_registry (config : NodeConfig) (identity : KeyPair) (id : NodeId) (p : ProtocolParams)
    : NodeRegistry := {|
  Records.node_id := id; nr_pubkey := public identity; Records.reward_address := kp_address identity;
  bond := Z.max (min_propose_bond p) (min_verify_bond p); status := NodeActive;
  enabled_capabilities := config_capabilities config;
  reputation := {| score_ppm := 1000000; successful_challenges := 0; failed_challenges := 0;
    challengeable_faults := 0; collection_successes := 0; collection_failures := 0;
    storage_proofs_passed := 0; storage_proofs_failed := 0;
    last_updated_epoch := default_epoch_id (nc_collect config) |};
  joined_at_height := 1 |}.

Definition bootstrap_local_chain_state (config : NodeConfig) (identity : KeyPair) : Chain unit :=
  id <- lift (map_err SeConfig (node_id config));;
  m_map_err SeTransition (
    p <- gets params;;
    existing <- from_store (λ s, node s id);;
    match existing with
    | None => upsert_node (local_registry config identity id p)
    | Some _ => m_ret tt
    end;;;
    ensure_account_exists (kp_address identity)).

(** [match m { Ok(_) => .., Err(already) => .., Err(err) => return Err(err.into()) }]:
    [true] when the transition was applied, [false] for the tolerated error. *)
Definition tolerate {A} (already : TransitionError → bool) (m : method S A) : Chain bool := λ st,
  match m st with
  | (Ok _, st') => (Ok true, st')
  | (Err e, st') => (if already e then Ok false else Err (SeTransition e), st')
  | (Panic, st') => (Panic, st')
  end.

(** The transactions of a settlement, signed with the node's key. *)
Definition signed_batch (identity : KeyPair) (b : BatchCommit) : option SubmitBatchTx :=
  let tx sg := {| sb_batch_commit := b; sb_pubkey := public identity; sb_signature := sg |} in
  payload ← signing_payload (SubmitBatch (tx []));
  Some (tx (sign identity payload)).

Definition signed_commit (identity : KeyPair) (c : EpochCommit) : option CommitEpochTx :=
  let tx sg := {| ce_epoch_commit := c; ce_pubkey := public identity; ce_signature := sg |} in
  payload ← signing_payload (CommitEpoch (tx []));
  Some (tx (sign identity payload)).

Definition signed_claim (identity : KeyPair) (epoch_id : EpochId) (id : NodeId) (amount : Amount)
    (n : Z) : option ClaimRewardTx :=
  let tx sg := {| cl_claimer := kp_address identity; cl_epoch_id := epoch_id; cl_node_id := id;
    cl_amount := amount; cl_merkle_proof := []; cl_nonce := n; cl_pubkey := public identity;
    cl_signature := sg |} in
  payload ← signing_payload (ClaimReward (tx []));
  Some (tx (sign identity payload)).

Fixpoint submit_batches (identity : KeyPair) (batches : list AssembledBatch) (submitted present : Z)
    : Chain (Z * Z) :=
  match batches with
  | [] => m_ret (submitted, present)
  | b :: batches =>
      tx <- chk (signed_batch identity (ab_batch_commit b));;
      accepted <- tolerate (λ e, match e with DuplicateBatch _ => true | _ => false end)
        (apply_submit_batch tx);;
      if (accepted : bool) then submit_batches identity batches (submitted + 1) present
      else submit_batches identity batches submitted (present + 1)
  end.

Definition apply_epoch_commit (identity : KeyPair) (c : EpochCommit) : Chain (bool * bool) :=
  tx <- chk (signed_commit identity c);;
  applied <- tolerate (λ e, match e with DuplicateEpochCommit _ => true | _ => false end)
    (apply_commit_epoch tx);;
  m_ret (applied, negb applied).

(** [reward_artifact.records.iter().find(..).map(|e| e.reward.net_reward).unwrap_or(0)] *)
Definition local_reward (records : list EpochRewardEntry) (id : NodeId) : Amount :=
  default 0 ((λ e, net_reward (re_reward e.2)) <$>
    list_find (λ e, rw_node_id (re_reward e) = id) records).

Definition claim_local_reward (identity : KeyPair) (epoch_id : EpochId) (id : NodeId) (amount : Amount)
    : Chain (bool * bool) :=
  if 0 <? amount then
    account <- gets (λ st, account (store st) (kp_address identity));;
    tx <- chk (signed_claim identity epoch_id id amount (default 0 (nonce <$> account)));;
    claimed <- tolerate (λ e, match e with RewardAlreadyClaimed _ => true | _ => false end)
      (apply_claim_reward tx);;
    m_ret (claimed, negb claimed)
  else m_ret (false, false).

(** From [bootstrap_local_chain_state] to the claim. *)
Definition settle_on_chain (config : NodeConfig) (src : LocalEpoch) (identity : KeyPair)
    (preparation : EpochPreparationComputation) (epoch_id : EpochId) (submission_height : Height)
    : Chain ChainSettlement :=
  bootstrap_local_chain_state config identity;;;
  modify (λ st, set_height st submission_height);;;
  batches <- lift (map_err (λ e, SePreparation (PrepDaemon e))
    (load_batches_for_epoch config (le_read_payload src) (le_files src) epoch_id));;
  counts <- submit_batches identity batches 0 0;;
  committed <- apply_epoch_commit identity (pc_epoch_commit preparation);;
  m_map_err SeTransition (for_each (λ entry, upsert_reward_record (re_reward entry))
    (ra_records (pc_reward_artifact preparation)));;;
  let finalization_height :=
    saturating_add 64 (pr_challenge_deadline_height (pc_artifact preparation)) 1 in
  modify (λ st, set_height st (Z.max (height st) finalization_height));;;
  finalized <- tolerate (λ e, match e with EpochAlreadyFinalized _ => true | _ => false end)
    (finalize_epoch epoch_id);;
  id <- lift (map_err SeConfig (node_id config));;
  let available := local_reward (ra_records (pc_reward_artifact preparation)) id in
  claim <- claim_local_reward identity epoch_id id available;;
  m_ret {| cs_batch_submission_count := counts.1; cs_batch_already_present_count := counts.2;
           cs_commit := committed; cs_finalized := (finalized, negb finalized);
           cs_finalization_height := finalization_height; cs_local_node_id := id;
           cs_local_reward_available := available; cs_claim := claim |}.
End OnChain.

(** ** The chain's files *)

Record Disk := {
  dk_runtime : option LocalChainRuntimeState;
  dk_store : option InMemoryStore;
  dk_preparations : gmap EpochId EpochPreparationArtifact;
  dk_settlements : gmap EpochId EpochSettlementArtifact;
  dk_proposals : gmap string GovernanceProposalArtifact;
  dk_scheduled : gmap EpochId GovernanceScheduledParamsArtifact;
  dk_index : option GovernanceArtifactIndex;
  dk_summary : option GovernanceArtifactSummary;
}.
Definition empty_disk : Disk := {|
  dk_runtime := None; dk_store := None; dk_preparations := ∅; dk_settlements := ∅;
  dk_proposals := ∅; dk_scheduled := ∅; dk_index := None; dk_summary := None |}.

(** The file operations that can fail. *)
Inductive IoPoint :=
| SavePreparation | LoadRuntime | OpenStore | SaveRuntime | FlushStore
| SaveProposal (id_hex : string) | SaveScheduled (epoch : EpochId)
| LoadIndex | SaveIndex | SaveSummary | SaveSettlement.

(** The files' names, as the artifacts record them. *)
Record DiskPaths := {
  runtime_path : string;
  store_path : string;
  prepared_path : EpochId → string;
  index_path : string;
  proposal_path : string → string;
  scheduled_path : EpochId → string;
}.

Definition set_dk_runtime (d : Disk) x : Disk := {|
  dk_runtime := Some x; dk_store := dk_store d; dk_preparations := dk_preparations d;
  dk_settlements := dk_settlements d; dk_proposals := dk_proposals d; dk_scheduled := dk_scheduled d;
  dk_index := dk_index d; dk_summary := dk_summary d |}.
Definition set_dk_store (d : Disk) x : Disk := {|
  dk_runtime := dk_runtime d; dk_store := Some x; dk_preparations := dk_preparations d;
  dk_settlements := dk_settlements d; dk_proposals := dk_proposals d; dk_scheduled := dk_scheduled d;
  dk_index := dk_index d; dk_summary := dk_summary d |}.
Definition set_dk_preparations (d : Disk) x : Disk := {|
  dk_runtime := dk_runtime d; dk_store := dk_store d; dk_preparations := x;
  dk_settlements := dk_settlements d; dk_proposals := dk_proposals d; dk_scheduled := dk_scheduled d;
  dk_index := dk_index d; dk_summary := dk_summary d |}.
Definition set_dk_settlements (d : Disk) x : Disk := {|
  dk_runtime := dk_runtime d; dk_store := dk_store d; dk_preparations := dk_preparations d;
  dk_settlements := x; dk_proposals := dk_proposals d; dk_scheduled := dk_scheduled d;
  dk_index := dk_index d; dk_summary := dk_summary d |}.
Definition set_governance (d : Disk) proposals scheduled index summary : Disk := {|
  dk_runtime := dk_runtime d; dk_store := dk_store d; dk_preparations := dk_preparations d;
  dk_settlements := dk_settlements d; dk_proposals := proposals; dk_scheduled := scheduled;
  dk_index := index; dk_summary := summary |}.

Section OnDisk.
Context `{B : BuildMode} `{X : External} `{PE : PipelineEncoding} `{VE : VerifierEncoding}.
Context `{RT : RuntimeEncoding} `{PX : ProofExternal} `{BC : Bech32}.
Context (config : NodeConfig) (identity : outcome NodeConfigError KeyPair) (paths : DiskPaths).
Context (io : IoPoint → option NodeSettlementError).
Local Notation Files := (M Disk NodeSettlementError).
Local Notation Chain := (ProtocolState PersistentStoreStub).

(** A file operation: it fails, or has its effect. *)
Definition guard_io (p : IoPoint) : Files unit :=
  match io p with Some e => m_throw e | None => m_ret tt end.

Definition load_runtime (default_height : Height) (default_epoch : EpochId)
    : Files LocalChainRuntimeState :=
  guard_io LoadRuntime;;;
  gets (λ d, default {| lr_height := default_height; lr_current_epoch := default_epoch |} (dk_runtime d)).

Definition save_runtime (r : LocalChainRuntimeState) : Files unit :=
  guard_io SaveRuntime;;; modify (λ d, set_dk_runtime d r).

(** [PersistentStoreStub::open] *)
Definition opened (d : Disk) : PersistentStoreStub :=
  {| path := store_path paths; inner := default InMemoryStore_default (dk_store d) |}.
Definition open_store : Files PersistentStoreStub := guard_io OpenStore;;; gets opened.

(** [PersistentStoreStub::open(..).ok()] of the [effective_*] accessors. *)
Definition readable_store (d : Disk) : option PersistentStoreStub :=
  match io OpenStore with Some _ => None | None => Some (opened d) end.

(** [flush] *)
Definition flush (s : PersistentStoreStub) : Files unit :=
  guard_io FlushStore;;; modify (λ d, set_dk_store d (inner s)).

Definition suggested_settlement_height : Files Height :=
  r <- load_runtime 0 (default_epoch_id (nc_collect config));;
  m_ret (Z.max (saturating_add 64 (lr_height r) 1) 1).

(** A run on the chain that starts from [st]. *)
Definition run_chain {A} (m : M Chain NodeSettlementError A) (st : Chain) : Files (A * Chain) := λ d,
  match m st with
  | (Ok a, st') => (Ok (a, st'), d)
  | (Err e, _) => (Err e, d)
  | (Panic, _) => (Panic, d)
  end.

Definition latest_activated_protocol_params_from_store (s : PersistentStoreStub) : option ProtocolParams :=
  latest_activated (params_update_proposals_iter s).

Definition open_local_protocol_state (window : Z) : Files (LocalChainRuntimeState * Chain) :=
  r <- load_runtime 0 (default_epoch_id (nc_collect config));;
  s <- open_store;;
  fallback <- gets (λ d, local_protocol_params (readable_store d) config window);;
  let p := default fallback (latest_activated_protocol_params_from_store s) in
  let epoch := Z.max (lr_current_epoch r) (default_epoch_id (nc_collect config)) in
  st <- chk (with_store p (lr_height r) epoch s);;
  key <- lift (map_err SeConfig identity);;
  booted <- run_chain (bootstrap_local_chain_state config key) st;;
  m_ret (r, booted.2).

(** ** Exporting the governance artifacts *)

Definition build_governance_proposal_artifact (s : PersistentStoreStub)
    (p : GovernanceParamsUpdateProposalRecord) : Files (GovernanceProposalArtifact * string) :=
  let votes := vote_records_for_proposal s (gp_proposal_id p) in
  t <- chk (summarize_governance_votes votes);;
  let '(yes, no, abstain) := t in
  let id_hex := hex_32 (gp_proposal_id p) in
  let artifact := {|
    ga_proposal_id_hex := id_hex; ga_proposer_hex := hex_32 (gp_proposer p);
    ga_effective_epoch := gp_effective_epoch p; ga_submitted_height := submitted_height p;
    ga_bond_amount := bond_amount p; ga_params_hash_hex := hex_32 (params_hash p);
    ga_proposal_state := debug_state (gp_state p);
    ga_vote_record_count := Z.of_nat (length votes); ga_yes_voting_power := yes;
    ga_no_voting_power := no; ga_abstain_voting_power := abstain; ga_params := gp_params p |} in
  guard_io (SaveProposal id_hex);;;
  modify (λ d, set_governance d (<[id_hex := artifact]> (dk_proposals d)) (dk_scheduled d)
    (dk_index d) (dk_summary d));;;
  m_ret (artifact, proposal_path paths id_hex).

Definition save_scheduled (artifact : GovernanceScheduledParamsArtifact) : Files unit :=
  guard_io (SaveScheduled (gs_epoch_id artifact));;;
  modify (λ d, set_governance d (dk_proposals d)
    (<[gs_epoch_id artifact := artifact]> (dk_scheduled d)) (dk_index d) (dk_summary d)).

Definition load_index : Files GovernanceArtifactIndex :=
  guard_io LoadIndex;;; gets (λ d, default GovernanceArtifactIndex_default (dk_index d)).
Definition save_index (index : GovernanceArtifactIndex) : Files unit :=
  guard_io SaveIndex;;;
  modify (λ d, set_governance d (dk_proposals d) (dk_scheduled d) (Some index) (dk_summary d)).
Definition save_summary (summary : GovernanceArtifactSummary) : Files unit :=
  guard_io SaveSummary;;;
  modify (λ d, set_governance d (dk_proposals d) (dk_scheduled d) (dk_index d) (Some summary)).

(** The two loops of [export_governance_artifacts]. *)
Fixpoint export_proposals (s : PersistentStoreStub) (index : GovernanceArtifactIndex)
    (proposals : list GovernanceParamsUpdateProposalRecord) : Files GovernanceArtifactIndex :=
  match proposals with
  | [] => m_ret index
  | p :: proposals =>
      built <- build_governance_proposal_artifact s p;;
      let '(artifact, artifact_path) := built in
      export_proposals s (upsert_proposal_artifact index (ga_proposal_id_hex artifact)
        (ga_proposal_state artifact) (ga_effective_epoch artifact) artifact_path) proposals
  end.

Fixpoint export_scheduled (current_epoch : EpochId) (index : GovernanceArtifactIndex)
    (scheduled : list (EpochId * ProtocolParams)) : Files GovernanceArtifactIndex :=
  match scheduled with
  | [] => m_ret index
  | (epoch_id, p) :: scheduled =>
      save_scheduled {| gs_epoch_id := epoch_id; gs_current_epoch := current_epoch;
                        gs_scheduled := true; gs_params := Some p |};;;
      export_scheduled current_epoch
        (upsert_scheduled_artifact index epoch_id true (scheduled_path paths epoch_id)) scheduled
  end.

Definition export_governance_artifacts (s : PersistentStoreStub) (current_epoch : EpochId)
    : Files GovernanceArtifactIndex :=
  index <- export_proposals s GovernanceArtifactIndex_default (params_update_proposals_iter s);;
  index <- export_scheduled current_epoch index (bt_iter (scheduled_params (inner s)));;
  save_index index;;;
  save_summary (index_summary index (index_path paths));;;
  m_ret index.

Definition export_governance_proposal_artifact (s : PersistentStoreStub) (proposal_id : Hash32)
    : Files (option (GovernanceProposalArtifact * string * string)) :=
  match params_update_proposal s proposal_id with
  | None => m_ret None
  | Some p =>
      built <- build_governance_proposal_artifact s p;;
      let '(artifact, artifact_path) := built in
      index <- load_index;;
      save_index (upsert_proposal_artifact index (ga_proposal_id_hex artifact)
        (ga_proposal_state artifact) (ga_effective_epoch artifact) artifact_path);;;
      m_ret (Some (artifact, artifact_path, index_path paths))
  end.

Definition export_governance_scheduled_artifact (current_epoch epoch_id : EpochId)
    (p : option ProtocolParams) : Files (GovernanceScheduledParamsArtifact * string * string) :=
  let artifact := {| gs_epoch_id := epoch_id; gs_current_epoch := current_epoch;
    gs_scheduled := match p with Some _ => true | None => false end; gs_params := p |} in
  save_scheduled artifact;;;
  index <- load_index;;
  save_index (upsert_scheduled_artifact index epoch_id (gs_scheduled artifact)
    (scheduled_path paths epoch_id));;;
  m_ret (artifact, scheduled_path paths epoch_id, index_path paths).

(** ** Settling an epoch *)

(** The runtime file, then the store, then the governance artifacts. *)
Definition save_chain (st : Chain) : Files unit :=
  save_runtime {| lr_height := height st; lr_current_epoch := current_epoch st |};;;
  flush (store st);;;
  export_governance_artifacts (store st) (current_epoch st);;;
  m_ret tt.

Definition settle_local_epoch (src : LocalEpoch) (epoch_id : EpochId) (submission_height : Height)
    (window : Z) : Files EpochSettlementArtifact :=
  key <- lift (map_err SeConfig identity);;
  preparation <- lift (map_err SePreparation
    (compute_local_epoch_preparation config src epoch_id submission_height window));;
  guard_io SavePreparation;;;
  modify (λ d, set_dk_preparations d (<[epoch_id := pc_artifact preparation]> (dk_preparations d)));;;
  r <- load_runtime (saturating_sub submission_height 1) epoch_id;;
  ensure (negb (submission_height <=? lr_height r))
    (SubmissionHeightRegression submission_height (lr_height r));;;
  s <- open_store;;
  p <- gets (λ d, local_protocol_params (readable_store d) config window);;
  st <- chk (with_store p (lr_height r) (Z.max (lr_current_epoch r) epoch_id) s);;
  run <- run_chain (settle_on_chain config src key preparation epoch_id submission_height) st;;
  let '(c, st) := run in
  save_chain st;;;
  let commit := pc_epoch_commit_artifact preparation in
  let artifact := {|
    es_epoch_id := epoch_id; es_submission_height := submission_height;
    es_challenge_window_blocks := window;
    es_challenge_deadline_height := pr_challenge_deadline_height (pc_artifact preparation);
    es_finalization_height := cs_finalization_height c;
    es_prepared_ready_for_submission := ready_for_submission (pc_artifact preparation);
    es_batch_count := ek_batch_count commit; es_payload_count := ek_payload_count commit;
    es_batch_submission_count := cs_batch_submission_count c;
    es_batch_already_present_count := cs_batch_already_present_count c;
    es_reward_record_count := ra_reward_count (pc_reward_artifact preparation);
    es_accepted_batches_root_hex := ek_accepted_batches_root_hex commit;
    es_observations_root_hex := ek_observations_root_hex commit;
    es_availability_root_hex := ek_availability_root_hex commit;
    es_aggregates_root_hex := ek_aggregates_root_hex commit;
    es_rewards_root_hex := ek_rewards_root_hex commit;
    es_randomness_seed_hex := ek_randomness_seed_hex commit;
    es_commit_applied := (cs_commit c).1; es_commit_already_present := (cs_commit c).2;
    es_epoch_finalized := (cs_finalized c).1; es_epoch_already_finalized := (cs_finalized c).2;
    es_local_node_id_hex := hex_32 (cs_local_node_id c);
    es_local_reward_available := cs_local_reward_available c;
    es_local_reward_claimed := (cs_claim c).1; es_local_reward_already_claimed := (cs_claim c).2;
    es_local_reward_balance := default 0 (balance <$> account (store st) (kp_address key));
    es_current_epoch_after := current_epoch st;
    es_local_chain_runtime_path := runtime_path paths;
    es_local_chain_store_path := store_path paths;
    es_prepared_epoch_path := prepared_path paths epoch_id |} in
  guard_io SaveSettlement;;;
  modify (λ d, set_dk_settlements d (<[epoch_id := artifact]> (dk_settlements d)));;;
  m_ret artifact.
End OnDisk.

(** * Every lawful store settles the same way *)

Section Refines.
Context `{B : BuildMode} `{X : External} `{PE : PipelineEncoding} `{VE : VerifierEncoding}.
Context `{RT : RuntimeEncoding} `{PX : ProofExternal} {S : Type} `{PS : ProtocolStore S} `{R : !StoreRefines S}.

Lemma refines_map_err {E F A} (f : E → F) (m : M _ E A) m' :
  refines (S := S) m m' → refines (S := S) (m_map_err f m) (m_map_err f m').
Proof. intros Hm st. unfold m_map_err. rewrite Hm. by destruct (m st) as [[a|e|] st1]. Qed.

Lemma refines_tolerate {A} already (m : method S A) m' :
  refines m m' → refines (tolerate already m) (tolerate already m').
Proof.
  intros Hm st. unfold tolerate. rewrite Hm. destruct (m st) as [[a|e|] st1]; simpl; [done| |done].
  by destruct (already e).
Qed.

Lemma finalize_refines e : refines (S := S) (finalize_epoch e) (finalize_epoch e).
Proof. intros st. apply (settlement_refines [] ResRejected e st). Qed.

Lemma upsert_rewards_refines (entries : list EpochRewardEntry) :
  refines (S := S) (for_each (λ entry, upsert_reward_record (re_reward entry)) entries)
    (for_each (λ entry, upsert_reward_record (re_reward entry)) entries).
Proof. unfold upsert_reward_record. refine_method. Qed.

Lemma bootstrap_refines config key :
  refines (S := S) (bootstrap_local_chain_state config key) (bootstrap_local_chain_state config key).
Proof.
  apply refines_bind; [apply refines_lift|intros id]. apply refines_map_err.
  unfold ensure_account_exists, upsert_account, upsert_node. refine_method.
Qed.

Lemma submit_batches_refines key l x y :
  refines (S := S) (submit_batches key l x y) (submit_batches key l x y).
Proof.
  revert x y. induction l as [|b l IH]; intros x y; simpl; [apply refines_ret|].
  apply refines_bind; [apply refines_lift|intros tx]. apply refines_bind.
  - apply refines_tolerate, (apply_transaction_refines (SubmitBatch tx)).
  - intros []; apply IH.
Qed.

Lemma epoch_commit_refines key c :
  refines (S := S) (apply_epoch_commit key c) (apply_epoch_commit key c).
Proof.
  apply refines_bind; [apply refines_lift|intros tx]. apply refines_bind; [|intros []; apply refines_ret].
  apply refines_tolerate, (apply_transaction_refines (CommitEpoch tx)).
Qed.

Lemma claim_refines key e id amount :
  refines (S := S) (claim_local_reward key e id amount) (claim_local_reward key e id amount).
Proof.
  unfold claim_local_reward. destruct (0 <? amount); [|apply refines_ret].
  apply refines_bind; [apply refines_gets; intros; simpl; by rewrite view_account|intros o].
  apply refines_bind; [apply refines_lift|intros tx]. apply refines_bind; [|intros []; apply refines_ret].
  apply refines_tolerate, (apply_transaction_refines (ClaimReward tx)).
Qed.

Lemma settle_on_chain_refines config src key prep e h :
  refines (S := S) (settle_on_chain config src key prep e h) (settle_on_chain config src key prep e h).
Proof.
  apply refines_bind; [apply bootstrap_refines|intros _].
  apply refines_bind; [by apply refines_modify|intros _].
  apply refines_bind; [apply refines_lift|intros batches].
  apply refines_bind; [apply submit_batches_refines|intros counts].
  apply refines_bind; [apply epoch_commit_refines|intros c].
  apply refines_bind; [apply refines_map_err, upsert_rewards_refines|intros _].
  apply refines_bind; [by apply refines_modify|intros _].
  apply refines_bind; [apply refines_tolerate, finalize_refines|intros f].
  apply refines_bind; [apply refines_lift|intros id].
  apply refines_bind; [apply claim_refines|intros cl]. apply refines_ret.
Qed.
End Refines.
