(* ===== verification/GovernanceRuntime.v ===== *)
(** * Voting and proposing on the local chain: src/src/governance_runtime.rs

    The two governance commands of a node, each one block on the local chain, and what
    every operation on the chain's files (these two and [settle_local_epoch] of
    Settlement) keeps: the stored ledger stays solvent, and an epoch that was settled is
    never settled again, across any restarts. *)
From S2P Require Import Prelude Primitives Params Records Crypto Store Transitions Executor Refinement.
From S2P Require Import Ledger Governance Solvency Finality.
From S2P Require Import Rewards StorageBook Pipeline MutualProof Text NodeConfig ActiveParams CosmosAddress Verifier Aggregator EpochRewards P2p NodeRuntime Preparation Settlement.
Local Open Scope pole_scope.

(** The [Box<dyn Error>] of the two commands. *)
Inductive GovernanceError :=
| GovConfig (e : NodeConfigError)
| GovSettlement (e : NodeSettlementError)
| GovVoteFailed (e : BlockExecutionError)
| GovProposalFailed (e : BlockExecutionError)
| GovInvalidParams (e : ProtocolParamsError).

Section Commands.
Context `{B : BuildMode} `{X : External} `{PX : ProofExternal}.
Context (config : NodeConfig) (identity : outcome NodeConfigError KeyPair) (paths : DiskPaths).
Context (io : IoPoint → option NodeSettlementError).
Local Notation Files := (M Disk GovernanceError).
Local Notation Chain := (ProtocolState PersistentStoreStub).

(** [execute_block(&mut state, ..).map_err(..)?] *)
Definition run_block (wrap : BlockExecutionError → GovernanceError) (b : Block) (st : Chain)
    : Files (list TransitionEffect * Chain) :=
  match execute_block b st with
  | (Ok effects, st') => m_ret (effects, st')
  | (Err e, _) => m_throw (wrap e)
  | (Panic, _) => chk None
  end.

(** [state.height.saturating_add(1).max(1)] *)
Definition next_height (st : Chain) : Height := Z.max (saturating_add 64 (height st) 1) 1.
Definition next_nonce (st : Chain) (a : Address) : Z := default 0 (nonce <$> account (store st) a).

Definition execute_governance_vote (proposal_id : Hash32) (choice : VoteChoice) (voting_power : Amount)
    : Files (list TransitionEffect * bool) :=
  key <- lift (map_err GovConfig identity);;
  opened <- m_map_err GovSettlement
    (open_local_protocol_state config identity paths io (rt_challenge_window_blocks (runtime config)));;
  let st := opened.2 in
  let voter := kp_address key in
  let tx sg := {| vt_proposal_id := proposal_id; vt_voter := voter; vt_choice := choice;
    vt_voting_power := voting_power; vt_nonce := next_nonce st voter; vt_pubkey := public key;
    vt_signature := sg |} in
  payload <- chk (signing_payload (Vote (tx [])));;
  ran <- run_block GovVoteFailed {| block_height := next_height st;
    transactions := [Vote (tx (sign key payload))] |} st;;
  let '(effects, st) := ran in
  let scheduled := bool_decide (is_Some
    (scheduled_protocol_params (store st) (saturating_add 64 (current_epoch st) 1))) in
  m_map_err GovSettlement (save_chain paths io st);;;
  m_ret (effects, scheduled).

Definition submit_protocol_params_update_proposal (proposal_id : Hash32) (effective_epoch : EpochId)
    (p : ProtocolParams) : Files (list TransitionEffect) :=
  lift (map_err GovInvalidParams (validate p));;;
  key <- lift (map_err GovConfig identity);;
  opened <- m_map_err GovSettlement
    (open_local_protocol_state config identity paths io (rt_challenge_window_blocks (runtime config)));;
  let st := opened.2 in
  let proposer := kp_address key in
  let tx sg := {| pp_proposal_id := proposal_id; pp_proposer := proposer;
    pp_effective_epoch := effective_epoch; pp_params := p; pp_nonce := next_nonce st proposer;
    pp_pubkey := public key; pp_signature := sg |} in
  payload <- chk (signing_payload (ProposeProtocolParamsUpdate (tx [])));;
  ran <- run_block GovProposalFailed {| block_height := next_height st;
    transactions := [ProposeProtocolParamsUpdate (tx (sign key payload))] |} st;;
  let '(effects, st) := ran in
  m_map_err GovSettlement (save_chain paths io st);;;
  m_ret effects.
End Commands.

(** * Theorems *)

(** ** Runs of the ledger behind a command

    A command takes steps of the ledger and the writes of its bootstrap: a registry
    entry or an empty account that was missing, and a greater height. *)

Inductive chain_move `{BuildMode} `{External} : pstate → pstate → Prop :=
| move_step st st' : step st st' → chain_move st st'
| move_register st n :
    nodes (store st) !! Records.node_id n = None →
    chain_move st (set_store st (insert_node (store st) n))
| move_account st a v :
    v = {| address := a; balance := 0; staked := 0; locked := 0; nonce := 0 |} →
    accounts (store st) !! a = None → chain_move st (set_store st (insert_account (store st) v))
| move_height st h : height st <= h → chain_move st (set_height st h).

Section Moves.
Context `{B : BuildMode} `{X : External} (checked : overflow_checks = true).

Lemma move_grows st st' : chain_move st st' → grows st st'.
Proof using checked.
  intros [s s' Hs|s n Hn|s a v Hv Ha|s h Hh]; [by apply step_grows|..].
  - split; simpl; try done; try lia; [apply accounts_grow_refl|].
    intros k m Hk. exists m. split; [|done]. rewrite lookup_insert_ne; [done|]. intros <-. congruence.
  - split; simpl; try done; try lia; [|apply nodes_grow_refl]. subst v. simpl.
    intros k m Hk. exists m. split; [|lia]. rewrite lookup_insert_ne; [done|]. intros <-. congruence.
  - split; simpl; try done; try lia; [apply accounts_grow_refl|apply nodes_grow_refl].
Qed.

Lemma moves_grow st st' : rtc chain_move st st' → grows st st'.
Proof using checked. induction 1 as [|s1 s2 s3 Hs _ IH]; [done|]. etrans; [by apply move_grows|done]. Qed.

Lemma locked_of_fresh accs (a b : Address) v :
  accs !! a = None → locked v = 0 → locked_of (<[a := v]> accs) b = locked_of accs b.
Proof.
  intros Ha Hv. rewrite locked_of_insert. unfold locked_of. case_decide as Hab; [|done].
  subst b. by rewrite Ha.
Qed.

Lemma move_wf st st' : wf st → chain_move st st' → wf st'.
Proof using checked.
  intros Hwf Hm. revert Hwf. destruct Hm as [s s' Hs|s n Hn|s a v -> Ha|s h Hh]; intros Hwf.
  - by apply (step_wf checked s).
  - destruct Hwf. by split.
  - destruct Hwf as [H1 H2 H3 H4 H5 H6 H7 H8]. split; simpl; try done.
    + apply map_Forall_insert_2; [|done]. unfold account_ok, u128. simpl. lia.
    + intros k p Hp. destruct (H5 k p Hp) as (? & ? & ?). split_and!; [done..|].
      destruct (decide (a = gp_proposer p)) as [->|]; [rewrite lookup_insert_eq; by eexists|].
      by rewrite lookup_insert_ne.
    + intros b. rewrite locked_of_fresh by done. apply H8.
  - by apply set_height_wf.
Qed.

Lemma moves_wf st st' : wf st → rtc chain_move st st' → wf st'.
Proof using checked. intros Hwf Hr. induction Hr; [done|]. eauto using move_wf. Qed.

(** ** The operations of a settlement as moves *)

Context `{PE : PipelineEncoding} `{VE : VerifierEncoding} `{RT : RuntimeEncoding} `{PX : ProofExternal}.
Local Notation moves st := (λ _ st', rtc chain_move st st').

Lemma wp_map_err {S E F A} (f : E → F) (m : M S E A) (Q : S → Prop) s :
  wp m (λ _, Q) s → wp (m_map_err f m) (λ _, Q) s.
Proof. unfold wp, m_map_err. by destruct (m s) as [[a|e|] s']. Qed.

Lemma wp_tolerate {A} already (m : method InMemoryStore A) (Q : pstate → Prop) st :
  wp m (λ _, Q) st → wp (tolerate already m) (λ _, Q) st.
Proof. unfold wp, tolerate. destruct (m st) as [[a|e|] s']; try done. by destruct (already e). Qed.

(** Continuing a run that got from [st0] to [st]. *)
Lemma wp_moves_bind {E A C} (m : M pstate E A) (k : A → M pstate E C) st0 st :
  rtc chain_move st0 st → wp m (λ _ st', rtc chain_move st st') st →
  (∀ a st', rtc chain_move st0 st' → wp (k a) (λ _ st'', rtc chain_move st0 st'') st') →
  wp (m_bind m k) (λ _ st', rtc chain_move st0 st') st.
Proof.
  intros H0 Hm Hk. apply wp_bind. eapply wp_mono; [exact Hm|]. intros [a|e|] st' _ Hs; [|by etrans|done].
  apply Hk. by etrans.
Qed.

Lemma transaction_moves tx st : tx_typed tx → wp (apply_transaction tx) (moves st) st.
Proof.
  intros Ht. apply wp_intro. intros r st' Hr Hp. apply rtc_once, move_step. by eapply step_transaction.
Qed.

Lemma ensure_account_moves a st : wp (ensure_account_exists a) (moves st) st.
Proof.
  unfold ensure_account_exists, from_store. apply wp_bind, wp_gets.
  destruct (account (store st) a) as [v|] eqn:E; [by apply wp_ret|].
  unfold upsert_account, update_store. apply wp_modify, rtc_once. by apply (move_account _ a).
Qed.

Lemma bootstrap_moves config key st : wp (bootstrap_local_chain_state config key) (moves st) st.
Proof.
  unfold bootstrap_local_chain_state. apply wp_bind, wp_lift; [intros id _|done].
  apply wp_map_err.
  apply wp_bind, wp_gets. apply wp_bind, wp_gets.
  apply (wp_moves_bind _ _ st st); [done| |].
  - destruct (node (store st) id) as [n|] eqn:E; [by apply wp_ret|].
    unfold upsert_node, update_store. apply wp_modify, rtc_once. by apply move_register.
  - intros _ st' Hs. eapply wp_mono; [apply ensure_account_moves|]. intros r st2 _ H2. by etrans.
Qed.

Lemma submit_moves key l x y st : wp (submit_batches key l x y) (moves st) st.
Proof.
  revert x y st. induction l as [|b l IH]; intros x y st; [by apply wp_ret|]. cbn [submit_batches].
  apply wp_bind, wp_chk. intros tx _. apply (wp_moves_bind _ _ st st); [done| |].
  - by apply wp_tolerate, (transaction_moves (SubmitBatch tx)).
  - intros [] st' Hs; (eapply wp_mono; [apply IH|]; intros r st2 _ H2; by etrans).
Qed.

Lemma commit_moves key c st : wp (apply_epoch_commit key c) (moves st) st.
Proof.
  unfold apply_epoch_commit. apply wp_bind, wp_chk. intros tx _.
  apply (wp_moves_bind _ _ st st); [done|by apply wp_tolerate, (transaction_moves (CommitEpoch tx))|].
  intros a st' Hs. by apply wp_ret.
Qed.

Lemma rewards_moves (entries : list EpochRewardEntry) st :
  wp (for_each (λ entry, upsert_reward_record (S := InMemoryStore) (re_reward entry)) entries) (moves st) st.
Proof.
  apply (wp_for_each _ _ (rtc chain_move st)); [done| |by intros].
  intros x s _ Hs. unfold upsert_reward_record, update_store. apply wp_modify.
  eapply rtc_r; [exact Hs|]. apply move_step. eapply (step_reward_record (re_reward x) (Ok tt)). done.
Qed.

Lemma finalize_moves e st : wp (finalize_epoch e) (moves st) st.
Proof. apply wp_intro. intros r st' Hr Hp. apply rtc_once, move_step. by eapply step_finalize. Qed.

Lemma claim_moves key e id amount st : u128 amount → wp (claim_local_reward key e id amount) (moves st) st.
Proof.
  intros Ha. unfold claim_local_reward. destruct (0 <? amount); [|by apply wp_ret].
  apply wp_bind, wp_gets, wp_bind, wp_chk. intros tx Htx.
  apply (wp_moves_bind _ _ st st); [done| |intros a st' Hs; by apply wp_ret].
  apply wp_tolerate, (transaction_moves (ClaimReward tx)). unfold signed_claim in Htx.
  destruct (signing_payload _) as [payload|]; simplify_eq/=. done.
Qed.

(** The rewards of an epoch are 128-bit values. *)
Definition rewards_typed (records : list EpochRewardEntry) : Prop :=
  Forall (λ e, u128 (net_reward (re_reward e))) records.

Lemma local_reward_typed records id : rewards_typed records → u128 (local_reward records id).
Proof.
  intros Hr. unfold local_reward. destruct (list_find _ _) as [[i e]|] eqn:E; simpl; [|unfold u128; lia].
  apply list_find_Some in E as (Hi & _ & _). by eapply Forall_lookup_1 in Hr.
Qed.

Lemma bootstrap_clock config key st :
  wp (bootstrap_local_chain_state config key)
    (λ _ st', height st' = height (st : pstate) ∧ current_epoch st' = current_epoch st) st.
Proof.
  unfold bootstrap_local_chain_state. apply wp_bind, wp_lift; [intros id _|done]. apply wp_map_err.
  unfold ensure_account_exists, upsert_account, upsert_node. wp_run; done.
Qed.

Lemma settle_moves config src key prep e h st :
  rewards_typed (ra_records (pc_reward_artifact prep)) → height st <= h →
  wp (settle_on_chain config src key prep e h) (moves st) st.
Proof using checked.
  intros Hty Hh. unfold settle_on_chain.
  apply wp_bind. eapply wp_mono; [apply wp_and; [apply bootstrap_moves|apply (bootstrap_clock config key)]|].
  intros [[]|er|] st1 _ [H1 [Hh1 _]]; [|done|done].
  apply wp_bind, wp_modify.
  assert (rtc chain_move st (set_height st1 h)) as H2.
  { eapply rtc_r; [exact H1|]. apply move_height. lia. }
  apply wp_bind, wp_lift; [intros batches _|done].
  apply (wp_moves_bind _ _ st); [done|apply submit_moves|intros counts st3 H3].
  apply (wp_moves_bind _ _ st); [done|apply commit_moves|intros committed st4 H4].
  apply (wp_moves_bind _ _ st); [done|apply wp_map_err, rewards_moves|intros _ st5 H5]. cbv zeta.
  apply wp_bind, wp_modify.
  match goal with |- wp _ _ ?s => assert (rtc chain_move st s) as H6 end.
  { eapply rtc_r; [exact H5|]. apply move_height. lia. }
  apply (wp_moves_bind _ _ st); [done|apply wp_tolerate, finalize_moves|intros f st7 H7].
  apply wp_bind, wp_lift; [intros id _|done].
  apply (wp_moves_bind _ _ st); [done|apply claim_moves, local_reward_typed, Hty|intros cl st8 H8].
  by apply wp_ret.
Qed.
End Moves.

Section Blocks.
Context `{B : BuildMode} `{X : External}.

Lemma wp_transition {A} (m : method InMemoryStore A) (Q : pstate → Prop) st :
  wp m (λ _, Q) st → wp (transition m) (λ _, Q) st.
Proof. unfold wp, transition. by destruct (m st) as [[a|e|] s']. Qed.

Lemma block_moves b st :
  Forall tx_typed (transactions b) → wp (execute_block b) (λ _ st', rtc chain_move st st') st.
Proof.
  intros Hty. unfold execute_block. apply wp_bind, wp_gets, wp_bind, wp_ensure; [|done].
  intros Hh%negb_true_iff%Z.leb_gt. apply wp_bind, wp_modify.
  apply wp_bind. eapply wp_mono.
  - apply wp_transition, (wp_intro _ (λ _ st', rtc chain_move st st')). intros r st' Hr Hp.
    apply rtc_once, move_step. by eapply (step_block_start (block_height b)).
  - intros [matured|e|] st1 _ H1; [|done|done]. apply wp_bind.
    apply (wp_map_m _ _ (rtc chain_move st)); [done| |intros [effects|e|] s Hs; [by apply wp_ret|done|done]].
    intros tx s Hin Hs. apply wp_transition. eapply wp_mono.
    + apply transaction_moves. by eapply Forall_forall in Hty.
    + intros r st2 _ H2. by etrans.
Qed.
End Blocks.

(** ** What a command does to the chain's files *)

Definition untouched (d d' : Disk) : Prop := dk_runtime d' = dk_runtime d ∧ dk_store d' = dk_store d.

(** The runtime file has the state's height and epoch, the store file its store, unless
    that write failed. *)
Definition wrote (st : pstate) (d d' : Disk) : Prop :=
  dk_runtime d' = Some {| lr_height := height st; lr_current_epoch := current_epoch st |} ∧
  (dk_store d' = dk_store d ∨ dk_store d' = Some (store st)).

Definition keeps {E A} (m : M Disk E A) : Prop := ∀ d, untouched d (m d).2.

Lemma keeps_ret {E A} (a : A) : keeps (E := E) (m_ret a).
Proof. done. Qed.
Lemma keeps_lift {E A} (r : outcome E A) : keeps (lift r).
Proof. done. Qed.
Lemma keeps_gets {E A} (f : Disk → A) : keeps (E := E) (gets f).
Proof. done. Qed.
Lemma keeps_guard io p : keeps (guard_io io p).
Proof. intros d. unfold guard_io. by destruct (io p). Qed.
Lemma keeps_bind {E A C} (m : M Disk E A) (k : A → M Disk E C) :
  keeps m → (∀ a, keeps (k a)) → keeps (m_bind m k).
Proof.
  intros Hm Hk d. specialize (Hm d). unfold m_bind. destruct (m d) as [[a|e|] d1]; simpl in *; [|done|done].
  destruct (Hk a d1), Hm. split; congruence.
Qed.

(** The cases of a sequence, panics included. *)
Lemma bind_cases {S E A C} (m : M S E A) (k : A → M S E C) s r s' :
  m_bind m k s = (r, s') →
  (∃ a s1, m s = (Ok a, s1) ∧ k a s1 = (r, s')) ∨ (is_ok r = false ∧ (m s).2 = s').
Proof.
  unfold m_bind. destruct (m s) as [[a|e|] s1]; intros Hk; [left; eauto|right..]; by simplify_eq/=.
Qed.

Create HintDb keeps discriminated.
#[export] Hint Resolve keeps_ret keeps_lift keeps_gets keeps_guard : keeps.

Section Exporting.
Context `{B : BuildMode} (paths : DiskPaths) (io : IoPoint → option NodeSettlementError).

Lemma build_proposal_keeps s p : keeps (build_governance_proposal_artifact paths io s p).
Proof.
  unfold build_governance_proposal_artifact. apply keeps_bind; [apply keeps_lift|intros [[yes no] abs]].
  apply keeps_bind; [auto with keeps|intros _]. by apply keeps_bind.
Qed.

Lemma export_proposals_keeps s index l : keeps (export_proposals paths io s index l).
Proof.
  revert index. induction l as [|p l IH]; intros index; simpl; [apply keeps_ret|].
  apply keeps_bind; [apply build_proposal_keeps|]. intros [a pa]. apply IH.
Qed.

Lemma export_scheduled_keeps e index l : keeps (export_scheduled paths io e index l).
Proof.
  revert index. induction l as [|[e' p] l IH]; intros index; simpl; [apply keeps_ret|].
  apply keeps_bind; [apply keeps_bind; [auto with keeps|by intros _ d]|]. intros _. apply IH.
Qed.

Lemma export_keeps s e : keeps (export_governance_artifacts paths io s e).
Proof.
  unfold export_governance_artifacts.
  apply keeps_bind; [apply export_proposals_keeps|intros i1].
  apply keeps_bind; [apply export_scheduled_keeps|intros i2].
  apply keeps_bind; [apply keeps_bind; [auto with keeps|by intros _ d]|intros _].
  apply keeps_bind; [apply keeps_bind; [auto with keeps|by intros _ d]|intros _]. apply keeps_ret.
Qed.

Lemma save_chain_effect (st : ProtocolState PersistentStoreStub) d r d' :
  save_chain paths io st d = (r, d') →
  (is_ok r = false ∧ untouched d d') ∨
  (wrote (lift_state st) d d' ∧ (is_ok r = true → dk_store d' = Some (inner (store st)))).
Proof.
  unfold save_chain, save_runtime, flush, guard_io. unfold m_bind.
  destruct (io SaveRuntime) as [er|]; simpl; [intros [= <- <-]; by left|].
  destruct (io FlushStore) as [er|]; simpl.
  { intros [= <- <-]. right. split; [|done]. split; [done|by left]. }
  match goal with |- context [export_governance_artifacts paths io ?s ?e ?dd] =>
    pose proof (export_keeps s e dd) as [Hr Hs]; destruct (export_governance_artifacts paths io s e dd) as [ro d2] end.
  simpl in *. intros Heq. assert (d2 = d') as -> by (unfold m_ret in Heq; destruct ro; congruence). right. split.
  - split; [done|by right].
  - by intros _.
Qed.
End Exporting.

Definition stored (d : Disk) : InMemoryStore := default InMemoryStore_default (dk_store d).

Section Effects.
Context `{B : BuildMode} `{X : External} `{PE : PipelineEncoding} `{VE : VerifierEncoding}.
Context `{RT : RuntimeEncoding} `{PX : ProofExternal} `{BC : Bech32}.
Context (config : NodeConfig) (identity : outcome NodeConfigError KeyPair) (paths : DiskPaths).
Context (io : IoPoint → option NodeSettlementError).

(** The state a settlement of [e] at height [h] starts from. *)
Definition settlement_start (d : Disk) (e : EpochId) (h : Height) (w : Z) : pstate :=
  let r := default {| lr_height := saturating_sub h 1; lr_current_epoch := e |} (dk_runtime d) in
  {| height := lr_height r; current_epoch := Z.max (lr_current_epoch r) e;
     params := local_protocol_params (readable_store paths io d) config w; store := stored d |}.

(** A settlement leaves the chain's files alone, or it wrote the result of a run on the
    ledger that succeeded. *)
Lemma settle_effect src e h w d r d' :
  settle_local_epoch config identity paths io src e h w d = (r, d') →
  (is_ok r = false ∧ untouched d d') ∨
  ∃ key prep c st',
    identity = Ok key ∧ compute_local_epoch_preparation config src e h w = Ok prep ∧
    let st := settlement_start d e h w in
    validate (params st) = Ok tt ∧ height st < h ∧
    settle_on_chain config src key prep e h st = (Ok c, st') ∧ wrote st' d d' ∧
    (∀ a, r = Ok a → dk_store d' = Some (store st') ∧ es_epoch_finalized a = (cs_finalized c).1).
Proof.
  unfold settle_local_epoch. intros Hrun.
  apply bind_cases in Hrun as [(key & d1 & [= Hid <-] & Hrun)|[? <-]]; [|by left].
  apply bind_cases in Hrun as [(prep & d1 & [= Hprep <-] & Hrun)|[? <-]]; [|by left].
  apply bind_cases in Hrun as [(u & d1 & Hg & Hrun)|[? <-]]; [|left; split; [done|apply keeps_guard]].
  assert (d1 = d) as -> by (unfold guard_io in Hg; destruct (io SavePreparation); by inversion Hg).
  apply bind_cases in Hrun as [(? & d1 & [= <- <-] & Hrun)|[? <-]]; [|by left].
  set (d1 := set_dk_preparations _ _) in Hrun. assert (untouched d d1) as Hd1 by done.
  apply bind_cases in Hrun as [(rt & d2 & Hrt & Hrun)|[? <-]].
  2: { left. split; [done|]. unfold load_runtime, m_bind, guard_io. by destruct (io LoadRuntime). }
  unfold load_runtime, m_bind, guard_io in Hrt. destruct (io LoadRuntime); [done|].
  injection Hrt as Hrt <-. cbn [d1 set_dk_preparations dk_runtime] in Hrt.
  apply bind_cases in Hrun as [(? & d2 & Hen & Hrun)|[? <-]]; [|by left].
  unfold ensure, lift in Hen. destruct (negb _) eqn:Hh; [|done]. injection Hen as _ <-.
  apply negb_true_iff, Z.leb_gt in Hh.
  apply bind_cases in Hrun as [(s & d2 & Hs & Hrun)|[? <-]].
  2: { left. split; [done|]. unfold open_store, m_bind, guard_io. by destruct (io OpenStore). }
  unfold open_store, m_bind, guard_io in Hs. destruct (io OpenStore) eqn:Hopen; [done|]. injection Hs as <- <-.
  apply bind_cases in Hrun as [(p & d2 & [= <- <-] & Hrun)|[? <-]]; [|by left].
  apply bind_cases in Hrun as [(st & d2 & Hst & Hrun)|[? <-]]; [|by left].
  unfold chk, lift, or_panic, with_store in Hst. destruct (validate _) as [[]| |] eqn:Hval; [|done|done].
  injection Hst as <- <-.
  apply bind_cases in Hrun as [([c st'] & d2 & Hc & Hrun)|[? <-]].
  2: { left. split; [done|]. unfold run_chain. by destruct (settle_on_chain _ _ _ _ _ _ _) as [[]]. }
  unfold run_chain in Hc.
  pose proof (settle_on_chain_refines (S := PersistentStoreStub) config src key prep e h) as Href.
  match type of Hc with (match ?m ?s with _ => _ end = _) => specialize (Href s); destruct (m s) as [[c0|er|] st0] end;
    [|done|done]. injection Hc as -> -> <-.
  assert (identity = Ok key) as Hid' by (by destruct identity; inversion Hid).
  assert (compute_local_epoch_preparation config src e h w = Ok prep) as Hprep'
    by (by destruct (compute_local_epoch_preparation config src e h w); inversion Hprep).
  enough ((is_ok r = false ∧ untouched d d') ∨ (wrote (lift_state st') d d' ∧ ∀ a, r = Ok a →
    dk_store d' = Some (store (lift_state st')) ∧ es_epoch_finalized a = (cs_finalized c).1)) as [?|[Hw Ha]];
    [by left| |].
  { right. exists key, prep, c, (lift_state st'). unfold settlement_start, readable_store in *. subst rt.
    rewrite Hopen in *. do 2 (split; [done|]). cbv zeta.
    split; [first [exact Hval|done]|]. split; [exact Hh|]. split; [exact Href|]. by split. }
  clear Href Hval Hopen Hprep Hid.
  apply bind_cases in Hrun as [([] & d3 & Hsave & Hrun)|[Hok Hsave]].
  - apply save_chain_effect in Hsave as [[? _]|[Hw Hsto]]; [done|]. right.
    apply bind_cases in Hrun as [(? & d4 & Hg4 & Hrun)|[? Hg4]].
    + assert (d4 = d3) as -> by (unfold guard_io in Hg4; destruct (io SaveSettlement); by inversion Hg4).
      injection Hrun as <- <-. split; [exact Hw|]. intros a [= <-]. split; [by apply Hsto|done].
    + assert (d' = d3) as -> by (unfold guard_io in Hg4; by destruct (io SaveSettlement)).
      split; [exact Hw|]. intros a ->. done.
  - destruct (save_chain paths io st' d1) as [rs ds] eqn:E. simpl in Hsave. subst ds.
    apply save_chain_effect in E as [[_ ?]|[Hw _]]; [by left|]. right. split; [exact Hw|]. intros a ->. done.
Qed.

(** What a command on the chain starts from: the stored ledger under valid parameters,
    not before the epoch of the runtime file. *)
Record starts (d : Disk) (st : pstate) : Prop := {
  start_store : store st = stored d;
  start_valid : validate (params st) = Ok tt;
  start_params : params_typed (params st) ∨
    latest_activated (params_update_proposals_iter (stored d)) = Some (params st);
  start_epoch : ∀ r, dk_runtime d = Some r → lr_current_epoch r <= current_epoch st;
}.

Lemma local_params_typed {DB} `{ProtocolStore DB} (s : option DB) w :
  params_typed (local_protocol_params s config w).
Proof. split; unfold u128; simpl; lia. Qed.

Lemma open_effect w d r d' :
  open_local_protocol_state config identity paths io w d = (r, d') →
  d' = d ∧ ∀ rt st, r = Ok (rt, st) → ∃ st0, starts d st0 ∧ rtc chain_move st0 (lift_state st).
Proof.
  unfold open_local_protocol_state, load_runtime, open_store, guard_io, m_bind, chk, or_panic, lift, gets.
  destruct (io LoadRuntime); simpl; [by intros [= <- <-]|].
  destruct (io OpenStore) eqn:Hopen; simpl; [by intros [= <- <-]|].
  unfold with_store. destruct (validate _) as [[]| |] eqn:Hval; [|by intros [= <- <-]..].
  destruct identity as [key|er|]; simpl; [|by intros [= <- <-]..]. unfold run_chain.
  pose proof (bootstrap_refines (S := PersistentStoreStub) config key) as Href.
  match goal with |- context [match ?m ?s with _ => _ end] => specialize (Href s); destruct (m s) as [[u|er|] st1] end;
    simpl; [|by intros [= <- <-]..].
  intros [= <- <-]. split; [done|]. intros rt st [= <- <-]. simpl in Href.
  match type of Href with ?m ?s = _ => exists s; pose proof (bootstrap_moves config key s) as Hm end.
  split; [|exact (wp_elim _ _ _ _ _ Hm Href ltac:(done))].
  split; simpl; [done|done| |].
  - unfold latest_activated_protocol_params_from_store. simpl.
    change (default InMemoryStore_default (dk_store d)) with (stored d).
    destruct (latest_activated _) as [p|] eqn:E; simpl; [by right|]. left. apply local_params_typed.
  - intros r0 ->. simpl. lia.
Qed.

(** One block on the chain that was opened. *)
Lemma run_block_effect wrap b st d effects st' d' :
  run_block wrap b st d = (Ok (effects, st'), d') → Forall tx_typed (transactions b) →
  d' = d ∧ rtc chain_move (lift_state st) (lift_state st').
Proof.
  unfold run_block. intros Hrun Hty.
  pose proof (block_refines (S := PersistentStoreStub) b st) as Href.
  destruct (execute_block b st) as [[ef|er|] st1]; [|done|done]. injection Hrun as -> -> ->. split; [done|].
  exact (wp_elim _ _ _ _ _ (block_moves b _ Hty) Href ltac:(done)).
Qed.

(** A command that saved the chain, or left its files alone. *)
Definition command_effect {A} (d : Disk) (r : outcome GovernanceError A) (d' : Disk) : Prop :=
  (is_ok r = false ∧ untouched d d') ∨ ∃ st st', starts d st ∧ rtc chain_move st st' ∧ wrote st' d d'.

Lemma opened_then {A} w (k : _ → M Disk GovernanceError A) d r d' :
  m_bind (m_map_err GovSettlement (open_local_protocol_state config identity paths io w)) k d = (r, d') →
  command_effect d r d' ∨
  ∃ rt st st0, starts d st0 ∧ rtc chain_move st0 (lift_state st) ∧ k (rt, st) d = (r, d').
Proof.
  unfold m_bind, m_map_err. destruct (open_local_protocol_state _ _ _ _ _ d) as [ro do] eqn:Eo.
  apply open_effect in Eo as [-> Hst]. destruct ro as [[rt st]|er|]; simpl; intros Hrun.
  - destruct (Hst rt st eq_refl) as (st0 & ? & ?). right. by exists rt, st, st0.
  - injection Hrun as <- <-. by left; left.
  - injection Hrun as <- <-. by left; left.
Qed.

Lemma block_saved {A} wrap b st st0 (f : list TransitionEffect → ProtocolState PersistentStoreStub → A) d r d' :
  starts d st0 → rtc chain_move st0 (lift_state st) → Forall tx_typed (transactions b) →
  m_bind (run_block wrap b st) (λ ran, let '(effects, st) := ran in
    m_bind (m_map_err GovSettlement (save_chain paths io st)) (λ _, m_ret (f effects st))) d = (r, d') →
  command_effect d r d'.
Proof.
  intros Hs Hm Hty Hrun. apply bind_cases in Hrun as [([effects st1] & d1 & Hb & Hrun)|[? Hb]].
  - apply run_block_effect in Hb as [-> Hm1]; [|done].
    destruct (save_chain paths io st1 d) as [rs ds] eqn:E.
    assert (ds = d' ∧ is_ok rs = is_ok r) as [-> Hrs].
    { unfold m_map_err, m_bind, m_ret in Hrun. rewrite E in Hrun. by destruct rs; inversion Hrun. }
    apply save_chain_effect in E as [[? ?]|[Hw _]]; [left; split; [congruence|done]|].
    right. exists st0, (lift_state st1). split; [done|]. split; [by etrans|done].
  - left. split; [done|]. subst d'. unfold run_block. by destruct (execute_block _ _) as [[]].
Qed.

Lemma vote_effect id choice power d r d' :
  u128 power → execute_governance_vote config identity paths io id choice power d = (r, d') →
  command_effect d r d'.
Proof.
  intros Hp. unfold execute_governance_vote. intros Hrun.
  apply bind_cases in Hrun as [(key & d1 & [= Hid <-] & Hrun)|[? <-]]; [|by left].
  apply opened_then in Hrun as [?|(rt & st & st0 & Hs & Hm & Hrun)]; [done|].
  apply bind_cases in Hrun as [(payload & d1 & [= _ <-] & Hrun)|[? <-]]; [|by left].
  eapply (block_saved _ _ _ st0 (λ effects st, (effects, bool_decide (is_Some
    (scheduled_protocol_params (store st) (saturating_add 64 (current_epoch st) 1)))))); [done..| |exact Hrun].
  constructor; [exact Hp|constructor].
Qed.

Lemma propose_effect id epoch p d r d' :
  params_typed p → submit_protocol_params_update_proposal config identity paths io id epoch p d = (r, d') →
  command_effect d r d'.
Proof.
  intros Hp. unfold submit_protocol_params_update_proposal. intros Hrun.
  apply bind_cases in Hrun as [(u & d1 & [= _ <-] & Hrun)|[? <-]]; [|by left].
  apply bind_cases in Hrun as [(key & d1 & [= Hid <-] & Hrun)|[? <-]]; [|by left].
  apply opened_then in Hrun as [?|(rt & st & st0 & Hs & Hm & Hrun)]; [done|].
  apply bind_cases in Hrun as [(payload & d1 & [= _ <-] & Hrun)|[? <-]]; [|by left].
  eapply (block_saved _ _ _ st0 (λ effects _, effects)); [done..| |exact Hrun].
  constructor; [exact Hp|constructor].
Qed.
End Effects.

(** ** Histories of the chain's files *)

Section Histories.
Context `{B : BuildMode} `{X : External} `{PE : PipelineEncoding} `{VE : VerifierEncoding}.
Context `{RT : RuntimeEncoding} `{PX : ProofExternal} `{BC : Bech32} (checked : overflow_checks = true).

(** The rewards a settlement reads are 128-bit values. *)
Definition source_typed (src : LocalEpoch) : Prop :=
  ∀ rewards, le_rewards src = Ok rewards → rewards_typed (ra_records rewards).

(** One run of the node against its files, whatever it returns: a settlement, a vote or
    a proposal, under any configuration, identity and file failures. *)
Inductive disk_step (d d' : Disk) : Prop :=
| disk_settle config identity paths io src e h w r :
    source_typed src → settle_local_epoch config identity paths io src e h w d = (r, d') → disk_step d d'
| disk_vote config identity paths io id choice power r :
    u128 power → execute_governance_vote config identity paths io id choice power d = (r, d') →
    disk_step d d'
| disk_propose config identity paths io id epoch p r :
    params_typed p →
    submit_protocol_params_update_proposal config identity paths io id epoch p d = (r, d') →
    disk_step d d'.

Lemma step_effect d d' :
  disk_step d d' → untouched d d' ∨ ∃ st st', starts d st ∧ rtc chain_move st st' ∧ wrote st' d d'.
Proof using checked.
  intros [config identity paths io src e h w r Hty Hrun|config identity paths io id choice power r Hp Hrun
    |config identity paths io id epoch p r Hp Hrun].
  - apply settle_effect in Hrun as [[_ ?]|(key & prep & c & st' & _ & Hprep & Hval & Hh & Hrun & Hw & _)]; [by left|].
    right. eexists _, st'. split; [|split; [|exact Hw]].
    2: exact (wp_elim _ _ _ _ _ (settle_moves checked config src key prep e h _
         (Hty _ (proj1 (preparation_inv _ _ _ _ _ _ Hprep))) (Z.lt_le_incl _ _ Hh)) Hrun ltac:(done)).
    split; [done|exact Hval|left; apply local_params_typed|]. intros r0 Hr0. simpl. rewrite Hr0. simpl. lia.
  - apply vote_effect in Hrun as [[_ ?]|?]; [by left|by right|done].
  - apply propose_effect in Hrun as [[_ ?]|?]; [by left|by right|done].
Qed.

(** *** The stored ledger stays solvent *)

(** The stored ledger is well formed under any parameters. *)
Definition store_ok (s : InMemoryStore) : Prop :=
  ∀ h e p, params_ok p → wf {| height := h; current_epoch := e; params := p; store := s |}.

Lemma wf_store_ok st : wf st → store_ok (store st).
Proof. intros [] h e p Hp. by split. Qed.

Lemma default_store_ok : store_ok InMemoryStore_default.
Proof.
  intros h e p Hp. by split.
Qed.

Lemma max_by_key_elem {A K} `{Ord K} (key : A → K) l x : max_by_key key l = Some x → x ∈ l.
Proof.
  unfold max_by_key. assert (∀ o, foldl (λ best x, match best with
    | Some y => if leb (key y) (key x) then Some x else best | None => Some x end) o l = Some x →
    x ∈ l ∨ o = Some x) as Hgen.
  { induction l as [|y l IH]; intros o Ho; [by right|]. simpl in Ho.
    destruct (IH _ Ho) as [?|He]; [left; by apply list_elem_of_further|].
    destruct o as [z|]; [destruct (leb _ _)|]; simplify_eq; auto using list_elem_of_here. }
  intros Hx. by destruct (Hgen _ Hx).
Qed.

Lemma starts_wf d st : store_ok (stored d) → starts d st → wf st.
Proof.
  intros Hok [Hs Hv Hp _]. destruct st as [h e p s]. simpl in *. subst s. apply Hok. split; [done|].
  destruct Hp as [?|Hlatest]; [done|]. unfold latest_activated in Hlatest.
  destruct (max_by_key _ _) as [q|] eqn:E; [|done]. injection Hlatest as <-.
  apply max_by_key_elem, list_elem_of_filter in E as [_ Hq].
  pose proof (Hok 0 0 ProtocolParams_default ltac:(by split; [|split; unfold u128; simpl; lia])) as Hwf.
  apply list_elem_of_fmap in Hq as ([k q'] & -> & Hk%elem_of_bt_iter).
  by destruct (wf_proposals _ _ Hwf _ _ Hk) as (_ & ? & _).
Qed.

Lemma step_store_ok d d' : store_ok (stored d) → disk_step d d' → store_ok (stored d').
Proof using checked.
  intros Hok [[_ Hs]|(st & st' & Hst & Hm & _ & Hs)]%step_effect; [unfold stored in *; by rewrite Hs|].
  unfold stored in *. destruct Hs as [-> | ->]; [done|]. simpl.
  apply wf_store_ok, (moves_wf checked st); [|done]. by eapply starts_wf.
Qed.

(** C6: The chain file always holds a solvent ledger: after any number of settlements,
    votes and proposals, with restarts, errors, panics and failed writes between them,
    the locked funds of every account in the stored ledger cover the bonds of its open
    challenges, its queued unbonds and its pending proposals, and every parameter set
    scheduled in it is valid. *)
Theorem chain_file_solvent d a :
  rtc disk_step empty_disk d →
  owed (stored d) a <= locked_of (accounts (stored d)) a ∧
  map_Forall (λ _ p, validate p = Ok tt) (scheduled_params (stored d)).
Proof using checked.
  intros Hr. assert (store_ok (stored d)) as Hok.
  { remember empty_disk as d0 eqn:E. assert (store_ok (stored d0)) as H0 by (subst d0; apply default_store_ok).
    clear E. induction Hr; [done|]. eauto using step_store_ok. }
  pose proof (Hok 0 0 ProtocolParams_default ltac:(by split; [|split; unfold u128; simpl; lia])) as Hwf.
  split.
  - pose proof (wf_solvent _ _ Hwf a) as Hso. simpl in Hso. lia.
  - intros k p Hk. by destruct (wf_scheduled _ _ Hwf _ _ Hk).
Qed.

(** *** A settled epoch is not settled again *)

Lemma load_files_epoch read id e files batches :
  load_files read id e files = Ok batches → Forall (λ b, bc_epoch_id (ab_batch_commit b) = e) batches.
Proof.
  revert batches. induction files as [|f files IH]; intros batches; simpl; [by intros [= <-]|].
  destruct f as [a| |]; simpl; [|done|done]. destruct (Z.eqb_spec (ct_epoch_id a) e) as [He|]; simpl; [|apply IH].
  unfold load_batch. destruct (read _); simpl; [|done|done]. destruct (borsh_decode_observations _); simpl; [|done|done].
  destruct (daemon_decode_hex_32 _); simpl; [|done|done]. destruct (daemon_decode_hex_32 _); simpl; [|done|done].
  destruct (load_files _ _ _ _) as [rest| |]; simpl; [|done|done]. intros [= <-]. constructor; [done|]. by apply IH.
Qed.

Lemma load_batches_epoch config read files e batches :
  load_batches_for_epoch config read files e = Ok batches →
  Forall (λ b, bc_epoch_id (ab_batch_commit b) = e) batches.
Proof.
  unfold load_batches_for_epoch. destruct files; [|by intros [= <-]].
  destruct (map_err _ _); simpl; [|done|done]. apply load_files_epoch.
Qed.

(** A prepared epoch has batches. *)
Lemma prepared_batches config src e h w prep :
  compute_local_epoch_preparation config src e h w = Ok prep →
  ∃ b bs, load_batches_for_epoch config (le_read_payload src) (le_files src) e = Ok (b :: bs).
Proof.
  intros (_ & _ & ar & rr & (_ & [|b bs] & inputs & Hl & Hne & _)%local_commit_inv)%preparation_inv; [done|].
  eauto.
Qed.

Lemma stale_submission (key : KeyPair) b bs x y st :
  bc_epoch_id (ab_batch_commit b) < current_epoch st →
  is_ok (submit_batches (S := InMemoryStore) key (b :: bs) x y st).1 = false.
Proof.
  intros He. cbn [submit_batches]. unfold m_bind, chk, lift, or_panic.
  destruct (signed_batch key _) as [tx|] eqn:E; [|done].
  assert (sb_batch_commit tx = ab_batch_commit b) as Hb.
  { unfold signed_batch in E. destruct (signing_payload _); simplify_eq/=. done. }
  unfold tolerate, apply_submit_batch, check_signature, m_bind, chk, lift, or_panic, gets, ensure_epoch_not_stale.
  destruct (signing_payload _); [|done]. destruct (ensure_signature _ _ _ _) as [u|er|] eqn:Es; [| |done].
  - rewrite Hb. by rewrite (proj2 (Z.ltb_lt _ _) He).
  - unfold ensure_signature in Es. repeat case_match; simplify_eq; done.
Qed.

Lemma stale_settlement config src key prep e h w st :
  compute_local_epoch_preparation config src e h w = Ok prep → e < current_epoch st →
  is_ok (settle_on_chain (S := InMemoryStore) config src key prep e h st).1 = false.
Proof.
  intros (b & bs & Hl)%prepared_batches He. unfold settle_on_chain, m_bind at 1.
  destruct (bootstrap_local_chain_state config key st) as [[u|er|] st1] eqn:Eb; [|done|done].
  destruct (wp_elim _ _ _ _ _ (bootstrap_clock config key st) Eb ltac:(done)) as [_ Hc].
  unfold modify, m_bind at 1. unfold lift, m_bind at 1. rewrite Hl. cbn [map_err].
  unfold m_bind at 1. pose proof (load_batches_epoch _ _ _ _ _ Hl) as [Hb _]%Forall_cons.
  pose proof (stale_submission key b bs 0 0 (set_height st1 h) ltac:(simpl; lia)) as Hs.
  destruct (submit_batches key (b :: bs) 0 0 (set_height st1 h)) as [[]]; done.
Qed.

(** The epoch of the runtime file never goes back. *)
Definition epoch_past (d : Disk) (e : EpochId) : Prop :=
  ∃ r, dk_runtime d = Some r ∧ e < lr_current_epoch r.

Lemma step_epoch_past d d' e : disk_step d d' → epoch_past d e → epoch_past d' e.
Proof using checked.
  intros [[Hr _]|(st & st' & Hst & Hm & Hr & _)]%step_effect (r & Hd & He).
  - exists r. by rewrite Hr.
  - eexists. split; [exact Hr|]. simpl. pose proof (gr_epoch _ _ (moves_grow checked _ _ Hm)).
    pose proof (start_epoch _ _ Hst r Hd). lia.
Qed.

Lemma finalize_advances e st :
  wp (finalize_epoch e) (λ r st', is_ok r = true → e < current_epoch (st' : pstate)) st.
Proof using checked.
  unfold finalize_epoch, from_store, update_store. cbv zeta. repeat (wp_step; try done).
  - checked_facts checked. eapply wp_mono; [apply activate_grows|].
    intros [[]|er|] st1 _ Hg1; [|done|done].
    eapply wp_mono; [apply (expire_grows checked)|]. intros [[]|er|] st2 _ Hg2; [apply wp_ret|done|done].
    intros _. apply gr_epoch in Hg1, Hg2. simpl in *. lia.
  - intros _. simpl in *. by apply Z.leb_gt.
Qed.

Lemma finalized_epoch_past config src key prep e h st c st' :
  settle_on_chain config src key prep e h st = (Ok c, st') → (cs_finalized c).1 = true →
  rewards_typed (ra_records (pc_reward_artifact prep)) → e < current_epoch (st' : pstate).
Proof using checked.
  intros Hrun Hfin Hty. unfold settle_on_chain in Hrun.
  do 7 (apply bind_cases in Hrun as [(? & ? & _ & Hrun)|[? _]]; [|done]).
  apply bind_cases in Hrun as [(f & st1 & Hf & Hrun)|[? _]]; [|done].
  apply bind_cases in Hrun as [(id & st2 & [= _ <-] & Hrun)|[? _]]; [|done].
  apply bind_cases in Hrun as [(cl & st2 & Hcl & [= <- <-])|[? _]]; [|done]. simpl in Hfin. subst f.
  pose proof (wp_elim _ _ _ _ _ (claim_moves key e id _ st1 (local_reward_typed _ id Hty)) Hcl ltac:(done)) as Hm.
  pose proof (gr_epoch _ _ (moves_grow checked _ _ Hm)). enough (e < current_epoch st1) by lia.
  unfold tolerate in Hf. match type of Hf with (match finalize_epoch e ?s with _ => _ end = _) =>
    pose proof (finalize_advances e s) as Hadv; destruct (finalize_epoch e s) as [[eff|er|] s1] eqn:Ef end; [|by destruct er|done].
  injection Hf as <-. by apply (wp_elim _ _ _ _ _ Hadv Ef).
Qed.

(** C5: A settled epoch is never settled again, across restarts: after a settlement that
    finalized epoch [e] returned, and any number of further runs of the node, every
    settlement of [e] or an earlier epoch fails and leaves the chain's files as they
    are, so no batch is submitted and no reward is claimed a second time. *)
Theorem settled_epoch_stays_settled config identity paths io src e h w d a d1 d2
    config' identity' paths' io' src' e' h' w' r d3 :
  source_typed src →
  settle_local_epoch config identity paths io src e h w d = (Ok a, d1) → es_epoch_finalized a = true →
  rtc disk_step d1 d2 → e' <= e →
  settle_local_epoch config' identity' paths' io' src' e' h' w' d2 = (r, d3) →
  is_ok r = false ∧ untouched d2 d3.
Proof using checked.
  intros Hty H1 Hfin Hr He H2.
  assert (epoch_past d1 e) as Hpast.
  { apply settle_effect in H1 as [[? _]|(key & prep & c & st' & _ & Hprep & _ & _ & Hrun & [Hrt _] & Ha)]; [done|].
    destruct (Ha a eq_refl) as [_ Hc]. eexists. split; [exact Hrt|]. simpl.
    eapply finalized_epoch_past; [exact Hrun|congruence|]. by eapply Hty, preparation_inv. }
  assert (epoch_past d2 e) as (rt & Hrt & Hlt).
  { clear -Hr Hpast checked. induction Hr as [|x y z Hs _ IH]; [done|]. by eapply IH, step_epoch_past. }
  apply settle_effect in H2 as [?|(key & prep & c & st' & _ & Hprep & _ & _ & Hrun & _)]; [done|].
  exfalso. pose proof (stale_settlement config' src' key prep e' h' w' (settlement_start config' paths' io' d2 e' h' w') Hprep) as Hst.
  rewrite Hrun in Hst. simpl in Hst. rewrite Hrt in Hst. simpl in Hst. specialize (Hst ltac:(lia)). done.
Qed.
End Histories.
