(* ===== verification/SettlementRun.v ===== *)
(** * A collected epoch settles

    The whole path of an epoch, over the components it crosses: the batches a node
    sealed (Pipeline, NodeRuntime), prepared (Preparation), are submitted, committed,
    finalized and paid by the ledger (Transitions) when [settle_local_epoch] (Settlement)
    runs on chain files that have not seen the epoch. *)
From S2P Require Import Prelude Primitives Params Records Crypto Store Transitions Executor Refinement.
From S2P Require Import Ledger Governance Solvency Finality.
From S2P Require Import Rewards StorageBook Pipeline MutualProof Text NodeConfig ActiveParams CosmosAddress Verifier Aggregator EpochRewards P2p NodeRuntime Preparation Submission Settlement GovernanceRuntime.
Local Open Scope pole_scope.

Definition balance_at (s : InMemoryStore) (a : Address) : Z := default 0 (balance <$> accounts s !! a).

(** ** Finalization neither fails nor panics once its guards hold *)

Section Finalizing.
Context `{B : BuildMode} `{X : External} (checked : overflow_checks = true).



(** What finalizing leaves alone. *)
Record finalize_frame (st st' : pstate) : Prop := {
  ff_nodes : nodes (store st') = nodes (store st);
  ff_records : reward_records (store st') = reward_records (store st);
  ff_claimed : claimed_rewards (store st') = claimed_rewards (store st);
  ff_votes : votes (store st') = votes (store st);
  ff_height : height st' = height st;
  ff_accounts : ∀ a, is_Some (accounts (store st) !! a) → is_Some (accounts (store st') !! a);
  ff_balance : ∀ a, balance_at (store st') a = balance_at (store st) a;
}.

#[export] Instance finalize_frame_refl : Reflexive finalize_frame.
Proof. by split. Qed.
#[export] Instance finalize_frame_trans : Transitive finalize_frame.
Proof. intros x y z [] []. split; try congruence; auto. Qed.









End Finalizing.

(** ** The operations of a settlement on a ledger that has not seen the epoch *)

Section OwnEpoch.
Context `{B : BuildMode} `{X : External} `{PE : PipelineEncoding} `{VE : VerifierEncoding}.
Context `{RT : RuntimeEncoding} `{PX : ProofExternal} `{BC : Bech32}.
Context `{SL : !SigningLaws} (checked : overflow_checks = true).
Context (borsh_tx_total : ∀ t, is_Some (borsh_tx t)).
Context (config : NodeConfig) (seed : bytes) (e : EpochId) (vs : gmap VoteKey GovernanceVoteRecord).
Let id : NodeId := stable_hash32 (public_of_seed seed).
Context (own_id : node_id config = Ok id).
Context (collects : cap_collect (nc_capabilities config) = true).
Context (proposes : cap_propose (nc_capabilities config) = true).

















End OwnEpoch.

(** ** On disk *)

(** Every read and write succeeds. *)
Definition no_failure (p : IoPoint) : option NodeSettlementError := None.

Section Saving.
Context `{B : BuildMode} (paths : DiskPaths).





End Saving.

Section Collected.
Context `{B : BuildMode} `{X : External} `{PE : PipelineEncoding} `{PX : ProofExternal}.
Context `{RE : ReceiptEncoding} `{VE : VerifierEncoding} `{RT : RuntimeEncoding} `{BC : Bech32}.
Context `{T : !EncodingTotal} `{XL : !ExternalLaws} `{VL : !VerifierLaws} `{SL : !SigningLaws}.
Context `{SZ : !SignatureSize} `{TT : !RuntimeTotal} (checked : overflow_checks = true).
Context (borsh_tx_total : ∀ t, is_Some (borsh_tx t)).
Context {DB : Type} `{PS : ProtocolStore DB}.
Context (config : NodeConfig) (chain : option DB) (paths : DiskPaths).






Section Epoch.
Context (seed : bytes) (debug : bool) (e : EpochId) (book : LocalRetentionBook).
Context (ts : list CollectedTick) (book' : LocalRetentionBook) (src : LocalEpoch) (rsrc : EpochSources).
Context (comp : EpochRewardComputation).
Context (Hce : collected_epoch config chain seed debug e book ts book' src rsrc comp).
Let id : NodeId := stable_hash32 (public_of_seed seed).


End Epoch.

End Collected.

(** ** The demo node settles its epoch *)

#[local] Existing Instances demo_external toy_pipeline_encoding toy_verifier_encoding demo_proof_external
  toy_bech32 demo_encoding toy_runtime_encoding runtime_build.

Definition demo_paths : DiskPaths := {|
  runtime_path := "local-chain/runtime.json"; store_path := "local-chain/store.bin";
  prepared_path := λ e, "prepared-epochs/epoch-" +:+ display e +:+ ".json";
  index_path := "local-chain/governance/index.json";
  proposal_path := λ id, "local-chain/governance/proposals/" +:+ id +:+ ".json";
  scheduled_path := λ e, "local-chain/governance/scheduled/epoch-" +:+ display e +:+ ".json" |}.




(** The epoch of the demo node, and its settlement on the chain files [d]. *)
Definition demo_local_epoch : LocalEpoch :=
  match demo_stored_run with
  | (Ok out, book) => prep_epoch (assembled_batch out) book
  | (_, book) => prep_epoch {| ab_batch_commit := demo_commit; ab_payload_hash := []; ab_payload_cid := "";
                               payload_bytes := []; ab_observations := [] |} book
  end.
Definition demo_settle (config : NodeConfig) (io : IoPoint → option NodeSettlementError) (h : Height) (d : Disk)
    : outcome NodeSettlementError EpochSettlementArtifact * Disk :=
  settle_local_epoch config (Ok (from_seed demo_seed)) demo_paths io demo_local_epoch 4 h 20 d.
Definition demo_settled : Disk := (demo_settle runtime_config no_failure 100 empty_disk).2.

Lemma demo_source_typed : source_typed demo_local_epoch.
Proof.
  intros rewards Hr. unfold rewards_typed.
  assert (match le_rewards demo_local_epoch with
    | Ok r => forallb (λ x, (0 <=? net_reward (re_reward x)) && (net_reward (re_reward x) <? 2 ^ 128)) (ra_records r)
    | _ => true end = true) as Hok by (vm_compute; reflexivity).
  rewrite Hr in Hok. apply Forall_forall. intros x Hx%list_elem_of_In.
  apply (proj1 (forallb_forall _ _) Hok) in Hx. unfold is_true in Hx.
  apply andb_true_iff in Hx as [?%Z.leb_le ?%Z.ltb_lt]. unfold u128. split; assumption.
Qed.

Lemma chain_file_solvent_witness :
  let id := stable_hash32 demo_public in
  finalized_epochs (stored demo_settled) = {[ 4 ]} ∧
  owed (stored demo_settled) id <= locked_of (accounts (stored demo_settled)) id.
Proof.
  intros id. split; [vm_compute; reflexivity|].
  apply (chain_file_solvent eq_refl demo_settled id). apply rtc_once.
  eapply (disk_settle _ _ runtime_config (Ok (from_seed demo_seed)) demo_paths no_failure demo_local_epoch 4 100 20);
    [apply demo_source_typed|]. apply surjective_pairing.
Defined.

Lemma settled_epoch_stays_settled_witness :
  is_ok (demo_settle runtime_config no_failure 200 demo_settled).1 = false ∧
  untouched demo_settled (demo_settle runtime_config no_failure 200 demo_settled).2.
Proof.
  assert (match (demo_settle runtime_config no_failure 100 empty_disk).1 with
    | Ok a => es_epoch_finalized a | _ => false end = true) as Hok by (vm_compute; reflexivity).
  unfold demo_settled, demo_settle in *.
  destruct (settle_local_epoch _ _ _ _ _ _ _ _ empty_disk) as [[a|?|] d1] eqn:H1; try discriminate Hok.
  cbn [snd].
  apply (settled_epoch_stays_settled eq_refl runtime_config (Ok (from_seed demo_seed)) demo_paths no_failure
    demo_local_epoch 4 100 20 empty_disk a d1 d1
    runtime_config (Ok (from_seed demo_seed)) demo_paths no_failure demo_local_epoch 4 200 20).
  - apply demo_source_typed.
  - exact H1.
  - exact Hok.
  - apply rtc_refl.
  - lia.
  - apply surjective_pairing.
Defined.

(** ** What can go wrong *)

(** A failed write of the store leaves the runtime file ahead of it: the epoch is then
    past for the node although its ledger never saw it, and can never be settled. *)
Example failed_flush_loses_epoch :
  let io p := match p with FlushStore => Some (SeIo "disk full") | _ => None end in
  let d := (demo_settle runtime_config io 100 empty_disk).2 in
  dk_runtime d = Some {| lr_height := 121; lr_current_epoch := 5 |} ∧ dk_store d = None ∧
  (demo_settle runtime_config no_failure 200 d).1 = Err (SeTransition (StaleEpoch 4 5)).
Proof. vm_compute. split_and!; reflexivity. Qed.

Definition with_config (id_hex : string) (mappings : list RewardGameMapping) : NodeConfig :=
  let c := runtime_config in {|
  nc_chain_id := nc_chain_id c; node_id_hex := id_hex; reward_address_hex := reward_address_hex c;
  nc_capabilities := nc_capabilities c; nc_collect := nc_collect c; runtime := runtime c;
  nc_storage := nc_storage c; nc_reward := with_game_mappings (nc_reward c) mappings |}.

(** A configuration with mappings out of the order of their application ids passes
    validation, and settling under it panics. *)
Example unsorted_mappings_panic :
  let mapping a := {| process_name := "game.exe"; gm_app_id := a; game_coefficient_ppm := 1000000 |} in
  let config := with_config (node_id_hex runtime_config) [mapping 730; mapping 570] in
  is_ok (validate_node_config config) = true ∧ (demo_settle config no_failure 100 empty_disk).1 = Panic.
Proof. vm_compute. split_and!; reflexivity. Qed.

(** The demo epoch with the batch of a peer beside the node's own. *)
Definition peer_batch : outcome NodeRuntimeError AssembledBatch :=
  collect_batch_from_samples (with_config (hex_32 (replicate 32 7)) []) None 4 3
    [steam_current_players 730 90 10 "{}"].
Definition epoch_with_peer : LocalEpoch :=
  match peer_batch with
  | Ok s => {|
      le_files := (λ l, l ++ [Ok (demo_artifact s)]) <$> le_files demo_local_epoch;
      le_read_payload := λ cid, if bool_decide (cid = ab_payload_cid s) then Ok (payload_bytes s)
                                else le_read_payload demo_local_epoch cid;
      le_book := le_book demo_local_epoch; le_aggregation := le_aggregation demo_local_epoch;
      le_rewards := le_rewards demo_local_epoch; le_verification := le_verification demo_local_epoch;
      le_save_commit := Ok tt; le_save_verification := Ok tt |}
  | _ => demo_local_epoch
  end.

(** A node that ingested a batch of a peer cannot settle the epoch: the batch is signed
    with its own key and refused in the peer's name. *)
Example peer_batch_aborts_settlement :
  (settle_local_epoch runtime_config (Ok (from_seed demo_seed)) demo_paths no_failure epoch_with_peer 4 100 20
    empty_disk).1 = Err (SeTransition InvalidSigner).
Proof. vm_compute. reflexivity. Qed.

(** The flag [execute_governance_vote] returns says whether parameters are scheduled for
    the next epoch: the vote that schedules a proposal for a later one reports [false]. *)
Definition vote_disk : Disk :=
  let voter := stable_hash32 demo_public in
  let id := replicate 32 9 in
  let proposal := {| gp_proposal_id := id; gp_proposer := voter; gp_kind := FastParams;
    gp_effective_epoch := 8; submitted_height := 1; bond_amount := 10000; params_hash := [];
    gp_params := ProtocolParams_default; gp_state := Pending |} in
  let account := {| address := voter; balance := 1000; staked := 0; locked := 10000; nonce := 0 |} in
  {| dk_runtime := Some {| lr_height := 10; lr_current_epoch := 4 |};
     dk_store := Some (set_params_update_proposals (set_accounts InMemoryStore_default {[ voter := account ]})
       {[ id := proposal ]});
     dk_preparations := ∅; dk_settlements := ∅; dk_proposals := ∅; dk_scheduled := ∅; dk_index := None;
     dk_summary := None |}.

Example scheduling_vote_reports_unscheduled :
  let '(r, d) := execute_governance_vote runtime_config (Ok (from_seed demo_seed)) demo_paths no_failure
    (replicate 32 9) Yes 11000 vote_disk in
  match r with Ok (effects, scheduled) => (length effects, scheduled) | _ => (0%nat, true) end = (1%nat, false) ∧
  bool_decide (is_Some (scheduled_params (stored d) !! 8)) = true.
Proof. vm_compute. split; reflexivity. Qed.
