(* ===== verification/GovernanceIndex.v ===== *)
(** * The exported governance artifacts

    [export_governance_artifacts] (Settlement) writes an index and a summary of the
    proposals and scheduled parameters of the ledger: the index lists each of them once,
    in order, and the summary counts them by state. *)
From S2P Require Import Prelude Primitives Params Records Crypto Store Transitions.
From S2P Require Import Governance Text NodeConfig ActiveParams NodeRuntime Settlement.

Abbreviation sorted_by key l := (StronglySorted (λ x y, leb (key x) (key y) = true) l).

Section Index.
Context `{B : BuildMode} (paths : DiskPaths) (io : IoPoint → option NodeSettlementError).

(** The entries of a proposal and of scheduled parameters. *)
Definition proposal_entry (p : GovernanceParamsUpdateProposalRecord) : GovernanceProposalIndexEntry :=
  let id_hex := hex_32 (gp_proposal_id p) in {|
  pe_proposal_id_hex := id_hex; pe_proposal_state := debug_state (gp_state p);
  pe_effective_epoch := gp_effective_epoch p; pe_artifact_path := proposal_path paths id_hex |}.
Definition scheduled_entry (e : EpochId) : GovernanceScheduledIndexEntry :=
  {| se_epoch_id := e; se_scheduled := true; se_artifact_path := scheduled_path paths e |}.

Lemma upsert_by_fresh {A} (same : A → bool) x l :
  Forall (λ y, same y = false) l → upsert_by same x l = (l ++ [x])%list.
Proof. induction 1 as [|y l Hy _ IH]; simpl; [done|]. by rewrite Hy, IH. Qed.

Lemma build_proposal_ok s p d r d' :
  build_governance_proposal_artifact paths io s p d = (Ok r, d') →
  ga_proposal_id_hex r.1 = hex_32 (gp_proposal_id p) ∧ ga_proposal_state r.1 = debug_state (gp_state p) ∧
  ga_effective_epoch r.1 = gp_effective_epoch p ∧ r.2 = proposal_path paths (hex_32 (gp_proposal_id p)).
Proof.
  unfold build_governance_proposal_artifact, m_bind, chk, lift, guard_io.
  destruct (summarize_governance_votes _) as [[[yes no] abs]|]; simpl; [|done].
  destruct (io _); simpl; [done|]. by intros [= <- <-].
Qed.

Lemma export_proposals_index s l index d index' d' :
  export_proposals paths io s index l d = (Ok index', d') →
  NoDup ((pe_proposal_id_hex <$> proposal_artifacts index) ++ (pe_proposal_id_hex ∘ proposal_entry <$> l)) →
  sorted_by pe_proposal_id_hex (proposal_artifacts index) →
  proposal_artifacts index' ≡ₚ proposal_artifacts index ++ (proposal_entry <$> l) ∧
  sorted_by pe_proposal_id_hex (proposal_artifacts index') ∧
  scheduled_artifacts index' = scheduled_artifacts index.
Proof.
  revert index d. induction l as [|p l IH]; intros index d Hrun Hnd Hs; cbn [export_proposals] in Hrun.
  { injection Hrun as <- <-. by rewrite app_nil_r. }
  unfold m_bind in Hrun. destruct (build_governance_proposal_artifact paths io s p d) as [[[a pa]|er|] d1] eqn:Hb; [|done|done].
  apply build_proposal_ok in Hb as (Hid & Hst & Hep & Hpa). simpl in *. rewrite Hid, Hst, Hep, Hpa in Hrun.
  assert (proposal_artifacts (upsert_proposal_artifact index (hex_32 (gp_proposal_id p))
    (debug_state (gp_state p)) (gp_effective_epoch p) (proposal_path paths (hex_32 (gp_proposal_id p))))
    ≡ₚ proposal_artifacts index ++ [proposal_entry p]) as Hup.
  { simpl. rewrite sort_by_key_perm, upsert_by_fresh; [done|]. apply Forall_forall. intros y Hy.
    apply bool_decide_eq_false. intros Heq. apply NoDup_app in Hnd as (_ & Hd & _). apply (Hd (pe_proposal_id_hex y)).
    - apply list_elem_of_fmap. eauto.
    - rewrite Heq. apply list_elem_of_here. }
  apply IH in Hrun as (Hp & Hsort & Hsch).
  - split_and!; [|done|done]. rewrite Hp, Hup. simpl. by rewrite <- app_assoc.
  - rewrite Hup, fmap_app, <- app_assoc. exact Hnd.
  - apply sort_by_key_sorted.
Qed.

Lemma export_scheduled_index e l index d index' d' :
  export_scheduled paths io e index l d = (Ok index', d') →
  NoDup ((se_epoch_id <$> scheduled_artifacts index) ++ l.*1) →
  sorted_by se_epoch_id (scheduled_artifacts index) →
  scheduled_artifacts index' ≡ₚ scheduled_artifacts index ++ (scheduled_entry <$> l.*1) ∧
  sorted_by se_epoch_id (scheduled_artifacts index') ∧ proposal_artifacts index' = proposal_artifacts index.
Proof.
  revert index d. induction l as [|[e' p] l IH]; intros index d Hrun Hnd Hs; cbn [export_scheduled] in Hrun.
  { injection Hrun as <- <-. by rewrite app_nil_r. }
  unfold m_bind at 1, save_scheduled, m_bind at 1, guard_io in Hrun. simpl in Hrun.
  destruct (io (SaveScheduled e')); [done|]. simpl in Hrun.
  assert (scheduled_artifacts (upsert_scheduled_artifact index e' true (scheduled_path paths e'))
    ≡ₚ scheduled_artifacts index ++ [scheduled_entry e']) as Hup.
  { simpl. rewrite sort_by_key_perm, upsert_by_fresh; [done|]. apply Forall_forall. intros y Hy.
    apply Z.eqb_neq. intros Heq. apply NoDup_app in Hnd as (_ & Hd & _). apply (Hd (se_epoch_id y)).
    - apply list_elem_of_fmap. eauto.
    - rewrite Heq. apply list_elem_of_here. }
  apply IH in Hrun as (Hp & Hsort & Hsch).
  - split_and!; [|done|done]. rewrite Hp, Hup. simpl. by rewrite <- app_assoc.
  - rewrite Hup, fmap_app, <- app_assoc. exact Hnd.
  - apply sort_by_key_sorted.
Qed.

(** The proposals of a ledger, under 32-byte identifiers. *)
Definition proposals_typed (m : gmap Hash32 GovernanceParamsUpdateProposalRecord) : Prop :=
  map_Forall (λ k p, gp_proposal_id p = k ∧ length k = 32%nat ∧ Forall is_byte k) m.

Lemma hex_32_inj a b :
  length a = 32%nat → Forall is_byte a → length b = 32%nat → Forall is_byte b → hex_32 a = hex_32 b → a = b.
Proof.
  intros Ha1 Ha2 Hb1 Hb2 E. pose proof (daemon_decode_hex_hash a Ha1 Ha2) as H1.
  rewrite E, (daemon_decode_hex_hash b Hb1 Hb2) in H1. congruence.
Qed.

Lemma NoDup_fmap_on {A C} (f : A → C) l :
  (∀ x y, x ∈ l → y ∈ l → f x = f y → x = y) → NoDup l → NoDup (f <$> l).
Proof.
  intros Hinj. induction 1 as [|x l Hx Hl IH]; simpl; constructor.
  - intros (y & Hf & Hy)%list_elem_of_fmap. apply Hx.
    rewrite (Hinj x y); [done|apply list_elem_of_here|by apply list_elem_of_further|done].
  - apply IH. intros y z Hy Hz. apply Hinj; by apply list_elem_of_further.
Qed.

Lemma proposal_ids_distinct m :
  proposals_typed m → NoDup (pe_proposal_id_hex ∘ proposal_entry <$> bt_values m).
Proof.
  intros Hm. unfold bt_values. rewrite <- list_fmap_compose. apply NoDup_fmap_on.
  - intros [k p] [k' p'] H1%elem_of_bt_iter H2%elem_of_bt_iter E. unfold compose in E. simpl in E.
    destruct (Hm _ _ H1) as (Hk & ? & ?), (Hm _ _ H2) as (Hk' & ? & ?).
    assert (k = k') as ->; [|by simplify_eq]. apply hex_32_inj; congruence.
  - rewrite bt_iter_perm. apply NoDup_map_to_list.
Qed.

Lemma count_state st l :
  length (filter (λ e, pe_proposal_state e = debug_state st) (proposal_entry <$> l)) =
  length (filter (λ p, gp_state p = st) l).
Proof.
  induction l as [|p l IH]; [done|]. rewrite fmap_cons, !filter_cons. simpl.
  destruct (decide (gp_state p = st)) as [->|Hne].
  - rewrite decide_True by done. simpl. by rewrite IH.
  - rewrite decide_False; [done|]. by destruct (gp_state p), st.
Qed.

(** The exported governance index is complete: when the export succeeds, the index
    on disk lists every proposal of the ledger exactly once, with its state and effective
    epoch and in the order of the identifiers, and every epoch with scheduled parameters
    exactly once and in order; the summary counts the proposals in each state. *)
Theorem governance_index_complete (s : PersistentStoreStub) (e : EpochId) d index d' :
  let m := params_update_proposals (inner s) in
  proposals_typed m → export_governance_artifacts paths io s e d = (Ok index, d') →
  let in_state st := Z.of_nat (length (filter (λ p, gp_state p = st) (bt_values m))) in
  dk_index d' = Some index ∧
  proposal_artifacts index ≡ₚ proposal_entry <$> bt_values m ∧
  sorted_by pe_proposal_id_hex (proposal_artifacts index) ∧
  NoDup (pe_proposal_id_hex <$> proposal_artifacts index) ∧
  scheduled_artifacts index ≡ₚ scheduled_entry <$> bt_keys (scheduled_params (inner s)) ∧
  sorted_by se_epoch_id (scheduled_artifacts index) ∧
  ∃ summary, dk_summary d' = Some summary ∧
    pending_proposal_count summary = in_state Pending ∧
    scheduled_proposal_count summary = in_state Scheduled ∧
    activated_proposal_count summary = in_state Activated ∧
    expired_proposal_count summary = in_state ProposalExpired ∧
    proposal_artifact_count summary = Z.of_nat (size m).
Proof.
  intros m Hm Hrun in_state. pose proof (proposal_ids_distinct m Hm) as Hnd.
  unfold export_governance_artifacts, m_bind in Hrun.
  destruct (export_proposals _ _ _ _ _ _) as [[i1|er|] d1] eqn:H1; [|done|done].
  apply export_proposals_index in H1 as (Hp1 & Hs1 & Hsch1); [|exact Hnd|constructor].
  destruct (export_scheduled _ _ _ _ _ _) as [[i2|er|] d2] eqn:H2; [|done|done].
  apply export_scheduled_index in H2 as (Hp2 & Hs2 & Heq2).
  2: { rewrite Hsch1. simpl. rewrite bt_iter_perm. apply NoDup_fst_map_to_list. }
  2: { rewrite Hsch1. constructor. }
  unfold save_index, save_summary, m_bind, guard_io in Hrun.
  destruct (io SaveIndex); [done|]. destruct (io SaveSummary); [done|]. injection Hrun as <- <-. simpl.
  rewrite Hsch1 in Hp2. rewrite Heq2. simpl in Hp1, Hp2.
  assert (∀ st, Z.of_nat (length (filter (λ e, pe_proposal_state e = debug_state st) (proposal_artifacts i1)))
    = in_state st) as Hcount by (intros st; by rewrite Hp1, count_state).
  split_and!; try done.
  - by rewrite Hp1, <- list_fmap_compose.
  - eexists. split; [reflexivity|]. simpl. rewrite Heq2.
    rewrite <- !Hcount. split_and!; try done.
    rewrite Hp1. unfold bt_values. by rewrite !length_fmap, bt_iter_perm, length_map_to_list.
Qed.
End Index.

(** ** A ledger with two proposals *)

Definition index_proposal (id : Hash32) (st : GovernanceProposalState) (e : EpochId)
    : GovernanceParamsUpdateProposalRecord := {|
  gp_proposal_id := id; gp_proposer := []; gp_kind := FastParams; gp_effective_epoch := e;
  submitted_height := 1; bond_amount := 10000; params_hash := []; gp_params := ProtocolParams_default;
  gp_state := st |}.
Definition index_store : PersistentStoreStub := {|
  path := "store.bin";
  inner := set_params_update_proposals InMemoryStore_default
    (<[replicate 32 9 := index_proposal (replicate 32 9) Pending 7]>
    (<[replicate 32 2 := index_proposal (replicate 32 2) Activated 5]> ∅)) |}.
Definition index_paths : DiskPaths := {|
  runtime_path := ""; store_path := ""; prepared_path := λ _, ""%string; index_path := "index.json";
  proposal_path := λ id, (id +:+ ".json")%string; scheduled_path := λ _, ""%string |}.

Lemma governance_index_complete_witness :
  let run := @export_governance_artifacts true index_paths (λ _, None) index_store 4 empty_disk in
  ∃ index summary, run.1 = Ok index ∧ dk_summary run.2 = Some summary ∧
    sorted_by pe_proposal_id_hex (proposal_artifacts index) ∧
    pending_proposal_count summary = 1 ∧ proposal_artifact_count summary = 2.
Proof.
  intros run. assert (is_ok run.1 = true) as Hok by (vm_compute; reflexivity).
  destruct run as [[index|?|] d'] eqn:Hrun; try discriminate Hok.
  destruct (@governance_index_complete true index_paths (λ _, None) index_store 4 empty_disk index d')
    as (_ & _ & Hs & _ & _ & _ & summary & Hsum & Hp & _ & _ & _ & Hc).
  - apply map_Forall_insert_2; [|apply map_Forall_insert_2; [|apply map_Forall_empty]].
    + split; [reflexivity|]. split; [reflexivity|]. apply Forall_replicate. unfold is_byte. lia.
    + split; [reflexivity|]. split; [reflexivity|]. apply Forall_replicate. unfold is_byte. lia.
  - exact Hrun.
  - exists index, summary. split; [reflexivity|]. split; [exact Hsum|]. split; [exact Hs|].
    split; [rewrite Hp|rewrite Hc]; vm_compute; reflexivity.
Defined.
