(* ===== verification/ProtoWire.v ===== *)
(** * The proto3 wire format: the low-level encoders of src/src/cosmos/pole_msgs.rs

    Each encoder appends to a buffer. The reference is the wire format itself: a
    message is a sequence of fields, each a tag and a varint or a length-delimited
    string; [parse_fields] reads such a sequence and [decode_value] reads it against a
    message type of a [.proto] file. Values are trees ([PVal]); what the encoders emit
    for a tree of the right type is read back as that tree. *)
From S2P Require Import Prelude Primitives Text.
Local Open Scope Z_scope.

(** ** The encoders *)

(** [buf] after a call that writes to it. *)
Notation "x |> f" := (f x) (at level 68, left associativity, only parsing) : pole_scope.
Local Open Scope pole_scope.

(** [while value >= 0x80 { .. value >>= 7 }]; the fuel counts the rounds. *)
Fixpoint encode_varint_loop (fuel : nat) (value : Z) (buf : bytes) : bytes :=
  match fuel with
  | O => buf ++ [value mod 256]
  | S fuel =>
      if 0x80 <=? value then
        encode_varint_loop fuel (Z.shiftr value 7)
          (buf ++ [Z.lor (Z.land (value mod 256) 0x7F) 0x80])
      else buf ++ [value mod 256]
  end.
(** A u64 has at most nine groups of seven bits above the last one. *)
Definition encode_varint (value : Z) (buf : bytes) : bytes := encode_varint_loop 9 value buf.

Definition encode_tag (field_number wire_type : Z) (buf : bytes) : bytes :=
  encode_varint (Z.lor (Z.shiftl field_number 3 mod 2 ^ 32) (Z.land wire_type 0x7)) buf.

Definition encode_bytes (field_number : Z) (value : bytes) (buf : bytes) : bytes :=
  buf |> encode_tag field_number 2
      |> encode_varint (Z.of_nat (length value))
      |> (λ buf, buf ++ value).

Definition encode_string (field_number : Z) (value : string) (buf : bytes) : bytes :=
  encode_bytes field_number (string_bytes value) buf.

Definition encode_uint64 (field_number value : Z) (buf : bytes) : bytes :=
  buf |> encode_tag field_number 0 |> encode_varint value.

Definition encode_uint32 (field_number value : Z) (buf : bytes) : bytes :=
  buf |> encode_tag field_number 0 |> encode_varint value.

(** [value as u64] sign-extends an i32 or i64 to 64 bits. *)
Definition encode_int32 (field_number value : Z) (buf : bytes) : bytes :=
  buf |> encode_tag field_number 0 |> encode_varint (value mod 2 ^ 64).

Definition encode_int64 (field_number value : Z) (buf : bytes) : bytes :=
  buf |> encode_tag field_number 0 |> encode_varint (value mod 2 ^ 64).

Definition encode_bool (field_number : Z) (value : bool) (buf : bytes) : bytes :=
  encode_uint64 field_number (if value then 1 else 0) buf.

(** ** The reference: reading a wire message *)

Inductive WireField :=
| FVarint (number : Z) (value : Z)
| FBytes (number : Z) (value : bytes).

Definition number (w : WireField) : Z := match w with FVarint n _ | FBytes n _ => n end.

(** A varint: at most ten bytes, seven bits each, least significant first; the value
    is cut to 64 bits. *)
Fixpoint parse_varint_loop (rounds : nat) (l : bytes) : option (Z * bytes) :=
  match rounds, l with
  | S rounds, b :: l =>
      if b <? 0x80 then Some (b, l)
      else match parse_varint_loop rounds l with
           | Some (v, rest) => Some (b - 0x80 + 0x80 * v, rest)
           | None => None
           end
  | _, _ => None
  end.
Definition parse_varint (l : bytes) : option (Z * bytes) :=
  match parse_varint_loop 10 l with
  | Some (v, rest) => Some (v mod 2 ^ 64, rest)
  | None => None
  end.

Definition parse_field (l : bytes) : option (WireField * bytes) :=
  match parse_varint l with
  | None => None
  | Some (tag, l) =>
      match parse_varint l with
      | None => None
      | Some (v, l) =>
          if tag mod 8 =? 0 then Some (FVarint (tag / 8) v, l)
          else if tag mod 8 =? 2 then
            if v <=? Z.of_nat (length l)
            then Some (FBytes (tag / 8) (take (Z.to_nat v) l), drop (Z.to_nat v) l)
            else None
          else None
      end
  end.

(** Each field takes a byte at least, so the length of the input is fuel enough. *)
Fixpoint parse_fields_loop (fuel : nat) (l : bytes) : option (list WireField) :=
  match l, fuel with
  | [], _ => Some []
  | _, O => None
  | _, S fuel =>
      match parse_field l with
      | Some (w, rest) => match parse_fields_loop fuel rest with
                          | Some ws => Some (w :: ws)
                          | None => None
                          end
      | None => None
      end
  end.
Definition parse_fields (l : bytes) : option (list WireField) := parse_fields_loop (length l) l.

(** ** Message types and values *)

Inductive Label := Singular | Repeated.
#[export] Instance Label_eq_dec : EqDecision Label.
Proof. solve_decision. Defined.

Inductive PType :=
| TString
| TUint32
| TUint64
| TInt64
| TBool
| TEnum (largest : Z)
| TMsg (fields : list (Z * Label * PType)).

Definition Schema := list (Z * Label * PType).

Inductive PVal :=
| VStr (s : string)
| VInt (z : Z)
| VBool (b : bool)
| VMsg (fields : list (Z * PVal)).

Definition signed (w v : Z) : Z := if v <? 2 ^ (w - 1) then v else v - 2 ^ w.

Fixpoint lookup_field (k : Z) (s : Schema) : option PType :=
  match s with
  | [] => None
  | (n, _, t) :: s => if n =? k then Some t else lookup_field k s
  end.

(** A field of a known type; unknown fields are skipped, a wire type that does not
    fit is an error. *)
Fixpoint decode_value (t : PType) (w : WireField) {struct t} : option PVal :=
  match t, w with
  | TString, FBytes _ b => Some (VStr (string_of_bytes b))
  | TUint32, FVarint _ v => Some (VInt (v mod 2 ^ 32))
  | TUint64, FVarint _ v => Some (VInt v)
  | TInt64, FVarint _ v => Some (VInt (signed 64 v))
  | TBool, FVarint _ v => Some (VBool (negb (v =? 0)))
  | TEnum _, FVarint _ v => Some (VInt (signed 32 (v mod 2 ^ 32)))
  | TMsg s, FBytes _ b =>
      let fix known (s : Schema) (w : WireField) : option (list (Z * PVal)) :=
        match s with
        | [] => Some []
        | (n, _, t) :: s =>
            if n =? number w
            then match decode_value t w with Some v => Some [(n, v)] | None => None end
            else known s w
        end in
      match parse_fields b with
      | Some ws => match mapM (known s) ws with
                   | Some vs => Some (VMsg (concat vs))
                   | None => None
                   end
      | None => None
      end
  | _, _ => None
  end.

Definition decode_message (s : Schema) (b : bytes) : option (list (Z * PVal)) :=
  match decode_value (TMsg s) (FBytes 0 b) with
  | Some (VMsg vs) => Some vs
  | _ => None
  end.

(** ** The bytes of a value *)

Definition put_field (w : WireField) (buf : bytes) : bytes :=
  match w with
  | FVarint n v => buf |> encode_tag n 0 |> encode_varint v
  | FBytes n b => encode_bytes n b buf
  end.

Fixpoint wire (n : Z) (v : PVal) : WireField :=
  match v with
  | VStr s => FBytes n (string_bytes s)
  | VInt z => FVarint n (z mod 2 ^ 64)
  | VBool b => FVarint n (if b then 1 else 0)
  | VMsg fs => FBytes n (concat (map (λ kv, put_field (wire kv.1 kv.2) []) fs))
  end.

Definition message_bytes (fs : list (Z * PVal)) : bytes :=
  concat (map (λ kv, put_field (wire kv.1 kv.2) []) fs).

(** ** Typing *)

Fixpoint typed (t : PType) (v : PVal) {struct v} : bool :=
  match t, v with
  | TString, VStr _ => true
  | TUint32, VInt z => in_width 32 z
  | TUint64, VInt z => in_width 64 z
  | TInt64, VInt z => (- 2 ^ 63 <=? z) && (z <? 2 ^ 63)
  | TBool, VBool _ => true
  | TEnum m, VInt z => (0 <=? z) && (z <=? m) && (m <? 2 ^ 31)
  | TMsg s, VMsg vs =>
      forallb (λ kv, (1 <=? kv.1) && (kv.1 <? 2 ^ 29) &&
        match lookup_field kv.1 s with Some t => typed t kv.2 | None => false end) vs
  | _, _ => false
  end.
Definition well_typed (s : Schema) (vs : list (Z * PVal)) : bool := typed (TMsg s) (VMsg vs).

(** Every singular field of the type exactly once, in the order of the type; repeated
    fields any number of times, together, at their place. *)
Fixpoint complete (s : Schema) (ns : list Z) : bool :=
  match s with
  | [] => bool_decide (ns = [])
  | (n, Singular, _) :: s =>
      match ns with k :: ns => (k =? n) && complete s ns | [] => false end
  | (n, Repeated, _) :: s =>
      let fix skip ns :=
        match ns with
        | k :: ns' => if k =? n then skip ns' else complete s ns
        | [] => complete s []
        end in
      skip ns
  end.

(** The same for the messages inside. *)
Fixpoint complete_value (t : PType) (v : PVal) {struct v} : bool :=
  match t, v with
  | TMsg s, VMsg vs =>
      complete s (map fst vs) &&
      forallb (λ kv, match lookup_field kv.1 s with
                     | Some t => complete_value t kv.2
                     | None => false
                     end) vs
  | TMsg _, _ => false
  | _, _ => true
  end.

(** * Lemmas *)

(** ** Varints *)

Lemma low_byte_group v : 0 <= v → Z.lor (Z.land (v mod 256) 0x7F) 0x80 = v mod 128 + 128.
Proof.
  intros Hv. change 0x7F with (Z.ones 7). rewrite Z.land_ones by lia.
  change (2 ^ 7) with 128. change 256 with (128 * 2). rewrite Z.rem_mul_r by lia.
  rewrite (Z.mul_comm 128), Z.mod_add, Z.mod_mod by lia.
  assert (0 <= v mod 128 < 128) as Hb by (apply Z.mod_pos_bound; lia).
  assert (Z.land (v mod 128) 0x80 = 0) as H0.
  { apply Z.bits_inj'. intros i Hi. rewrite Z.land_spec, Z.bits_0.
    destruct (Z.testbit 0x80 i) eqn:E; [|by rewrite andb_false_r].
    change 0x80 with (2 ^ 7) in E. rewrite Z.pow2_bits_eqb in E by lia.
    apply Z.eqb_eq in E as <-. rewrite andb_true_r.
    destruct (decide (v mod 128 = 0)) as [->|]; [apply Z.bits_0|].
    apply Z.bits_above_log2; [lia|]. apply Z.log2_lt_pow2; [lia|]. change (2 ^ 7) with 128. lia. }
  rewrite <- Z.lxor_lor by done. rewrite <- Z.add_nocarry_lxor by done. lia.
Qed.

Lemma encode_varint_loop_app fuel v buf :
  encode_varint_loop fuel v buf = buf ++ encode_varint_loop fuel v [].
Proof.
  revert v buf. induction fuel as [|fuel IH]; intros v buf; simpl; [done|].
  destruct (0x80 <=? v); [|done].
  rewrite (IH _ (buf ++ _)), (IH _ [_]). by rewrite <- app_assoc.
Qed.

Lemma parse_varint_loop_cons rounds b l :
  parse_varint_loop (S rounds) (b :: l) =
    if b <? 0x80 then Some (b, l)
    else match parse_varint_loop rounds l with
         | Some (v, rest) => Some (b - 0x80 + 0x80 * v, rest)
         | None => None
         end.
Proof. done. Qed.

Lemma parse_varint_loop_encode fuel v rest :
  0 <= v < 2 ^ (7 * Z.of_nat (S fuel)) →
  parse_varint_loop (S fuel) (encode_varint_loop fuel v [] ++ rest) = Some (v, rest).
Proof.
  revert v. induction fuel as [|fuel IH]; intros v Hv.
  - change (7 * Z.of_nat 1) with 7 in Hv. change (2 ^ 7) with 128 in Hv. cbn -[Z.ltb Z.modulo].
    rewrite Z.mod_small by lia. by rewrite (proj2 (Z.ltb_lt _ _)) by lia.
  - cbn [encode_varint_loop]. destruct (Z.leb_spec 0x80 v) as [Hl|Hl].
    + rewrite encode_varint_loop_app, <- app_assoc. cbn [app].
      rewrite parse_varint_loop_cons, low_byte_group by lia.
      rewrite (proj2 (Z.ltb_ge _ _)) by (pose proof (Z.mod_pos_bound v 128); lia).
      rewrite IH.
      * rewrite Z.shiftr_div_pow2 by lia. change (2 ^ 7) with 128.
        do 2 f_equal. pose proof (Z.div_mod v 128). lia.
      * rewrite Z.shiftr_div_pow2 by lia. split; [apply Z.div_pos; lia|].
        apply Z.div_lt_upper_bound; [lia|]. rewrite <- Z.pow_add_r by lia.
        replace (7 + 7 * Z.of_nat (S fuel)) with (7 * Z.of_nat (S (S fuel))) by lia. lia.
    + rewrite Z.mod_small by lia. cbn [app parse_varint_loop].
      by rewrite (proj2 (Z.ltb_lt _ _)) by lia.
Qed.

Lemma parse_encode_varint v rest :
  0 <= v < 2 ^ 64 → parse_varint (encode_varint v [] ++ rest) = Some (v, rest).
Proof.
  intros Hv. unfold parse_varint, encode_varint. rewrite parse_varint_loop_encode.
  - by rewrite Z.mod_small by lia.
  - split; [lia|]. eapply Z.lt_trans; [apply Hv|]. by apply Z.pow_lt_mono_r.
Qed.

(** More fuel does not change what the loop writes: nine rounds leave it by its test. *)
Lemma encode_varint_fuel n v buf :
  0 <= v < 2 ^ 64 → encode_varint_loop (9 + n) v buf = encode_varint v buf.
Proof.
  assert (∀ f v buf, 0 <= v < 2 ^ (7 * Z.of_nat (S f)) →
    encode_varint_loop (f + n) v buf = encode_varint_loop f v buf) as Hgen.
  { clear. induction f as [|f IH]; intros v buf Hv.
    - change (2 ^ (7 * Z.of_nat 1)) with 128 in Hv. destruct n; [done|].
      cbn [Nat.add encode_varint_loop]. by rewrite (proj2 (Z.leb_gt _ _)) by lia.
    - cbn [Nat.add encode_varint_loop]. destruct (0x80 <=? v); [|done]. apply IH.
      rewrite Z.shiftr_div_pow2 by lia. split; [apply Z.div_pos; lia|].
      apply Z.div_lt_upper_bound; [lia|]. rewrite <- Z.pow_add_r by lia.
      replace (7 + 7 * Z.of_nat (S f)) with (7 * Z.of_nat (S (S f))) by lia. lia. }
  intros Hv. apply Hgen. split; [lia|]. eapply Z.lt_trans; [apply Hv|]. by apply Z.pow_lt_mono_r.
Qed.

(** ** Fields *)

Definition valid_field (w : WireField) : Prop :=
  1 <= number w < 2 ^ 29 ∧
  match w with FVarint _ v => 0 <= v < 2 ^ 64 | FBytes _ b => Z.of_nat (length b) < 2 ^ 64 end.

Lemma tag_value n t : 1 <= n < 2 ^ 29 → 0 <= t < 8 →
  Z.lor (Z.shiftl n 3 mod 2 ^ 32) (Z.land t 0x7) = 8 * n + t.
Proof.
  intros Hn Ht. rewrite Z.shiftl_mul_pow2 by lia. rewrite Z.mod_small by lia.
  change 0x7 with (Z.ones 3). rewrite Z.land_ones, Z.mod_small by lia.
  assert (Z.land (n * 2 ^ 3) t = 0) as H0.
  { apply Z.bits_inj'. intros i Hi. rewrite Z.land_spec, Z.bits_0.
    destruct (decide (i < 3)); [by rewrite Z.mul_pow2_bits_low|].
    destruct (decide (t = 0)) as [->|]; [by rewrite Z.bits_0, andb_false_r|].
    rewrite (Z.bits_above_log2 t), andb_false_r; [done|lia|].
    apply Z.log2_lt_pow2; [lia|]. apply Z.lt_le_trans with (2 ^ 3); [lia|].
    apply Z.pow_le_mono_r; lia. }
  rewrite <- Z.lxor_lor by done. rewrite <- Z.add_nocarry_lxor by done. lia.
Qed.

Lemma encode_tag_app n t buf : encode_tag n t buf = buf ++ encode_tag n t [].
Proof. apply encode_varint_loop_app. Qed.

Lemma put_field_app w buf : put_field w buf = buf ++ put_field w [].
Proof.
  destruct w as [n v|n b]; simpl; unfold encode_bytes, encode_varint; cbn beta;
    rewrite (encode_varint_loop_app _ _ (encode_tag _ _ buf)),
      (encode_varint_loop_app _ _ (encode_tag _ _ [])), (encode_tag_app _ _ buf);
    by rewrite <- !app_assoc.
Qed.

Lemma parse_put_field w rest :
  valid_field w → parse_field (put_field w [] ++ rest) = Some (w, rest).
Proof.
  intros [Hn Hv]. destruct w as [n v|n b]; cbn [number] in Hn; cbn [put_field];
    unfold encode_bytes, encode_tag; cbn beta; rewrite tag_value by lia;
    unfold parse_field, encode_varint at 1; rewrite encode_varint_loop_app, <- ?app_assoc;
    rewrite parse_encode_varint by lia.
  - rewrite parse_encode_varint by lia.
    rewrite (Z.add_comm (8 * n)), (Z.mul_comm 8), Z.mod_add, Z.div_add by lia. done.
  - rewrite parse_encode_varint by lia.
    rewrite (Z.add_comm (8 * n)), (Z.mul_comm 8), Z.mod_add, Z.div_add by lia.
    cbn [Z.modulo Z.eqb]. change (2 mod 8 =? 0) with false. change (2 mod 8 =? 2) with true.
    cbn match. rewrite (proj2 (Z.leb_le _ _)) by (rewrite length_app; lia).
    rewrite Nat2Z.id, take_app_length, drop_app_length. done.
Qed.

(** ** Messages *)

Lemma put_field_length w : (length (put_field w []) > 0)%nat ∧
  match w with FBytes _ b => (length b <= length (put_field w []))%nat | _ => True end.
Proof.
  assert (∀ f v, (length (encode_varint_loop f v []) > 0)%nat) as Hpos.
  { intros f v. destruct f; simpl; [lia|]. destruct (0x80 <=? v); [|simpl; lia].
    rewrite encode_varint_loop_app, length_app. simpl. lia. }
  destruct w as [n v|n b]; simpl; unfold encode_bytes, encode_tag, encode_varint; cbn beta;
    rewrite encode_varint_loop_app, !length_app; pose proof (Hpos 9%nat); split; try done.
  - specialize (H v). lia.
  - specialize (H (Z.of_nat (length b))). lia.
  - lia.
Qed.

Lemma parse_fields_put ws :
  Forall valid_field ws →
  parse_fields (concat (map (λ w, put_field w []) ws)) = Some ws.
Proof.
  intros Hws. unfold parse_fields. generalize (le_n (length (concat (map (λ w, put_field w []) ws)))).
  generalize (length (concat (map (λ w, put_field w []) ws))) at 2 3. intros fuel.
  revert fuel. induction Hws as [|w ws Hw Hws IH]; intros fuel Hf; [by destruct fuel|].
  cbn [map concat] in *. rewrite length_app in Hf. destruct (put_field_length w) as [Hp _].
  destruct fuel as [|fuel]; [lia|]. cbn [parse_fields_loop].
  rewrite parse_put_field by done. rewrite IH by lia.
  by destruct (put_field w []); simpl in Hp; [lia|].
Qed.

Definition known_field (s : Schema) (w : WireField) : option (list (Z * PVal)) :=
  match lookup_field (number w) s with
  | Some t => match decode_value t w with Some v => Some [(number w, v)] | None => None end
  | None => Some []
  end.

Lemma decode_value_msg s n b :
  decode_value (TMsg s) (FBytes n b) =
    match parse_fields b with
    | Some ws => match mapM (known_field s) ws with
                 | Some vs => Some (VMsg (concat vs))
                 | None => None
                 end
    | None => None
    end.
Proof.
  cbn [decode_value]. destruct (parse_fields b) as [ws|]; [|done].
  match goal with |- match mapM (?k s) ws with _ => _ end = _ => set (known := k) end.
  assert (∀ w, known s w = known_field s w) as Hk.
  { intros w. unfold known_field. induction s as [|[[n' l'] t'] s IH]; [done|]. simpl.
    destruct (Z.eqb_spec n' (number w)) as [->|]; [done|apply IH]. }
  by rewrite (mapM_ext _ _ ws Hk).
Qed.

(** Induction over values, through the fields of messages. *)
Lemma PVal_rect_fields (P : PVal → Prop) :
  (∀ s, P (VStr s)) → (∀ z, P (VInt z)) → (∀ b, P (VBool b)) →
  (∀ fs, Forall (λ kv, P kv.2) fs → P (VMsg fs)) → ∀ v, P v.
Proof.
  intros Hs Hz Hb Hm. fix IH 1. intros [s|z|b|fs]; [apply Hs|apply Hz|apply Hb|].
  apply Hm. induction fs as [|[k v] fs IHf]; constructor; [apply IH|apply IHf].
Qed.

Lemma signed_mod_64 z : - 2 ^ 63 <= z < 2 ^ 63 → signed 64 (z mod 2 ^ 64) = z.
Proof.
  intros Hz. unfold signed. destruct (decide (0 <= z)).
  - rewrite Z.mod_small by lia. by rewrite (proj2 (Z.ltb_lt _ _)) by lia.
  - replace (z mod 2 ^ 64) with (z + 2 ^ 64).
    + rewrite (proj2 (Z.ltb_ge _ _)) by lia. lia.
    + rewrite <- (Z.mod_add z 1) by lia. rewrite Z.mod_small; lia.
Qed.

Lemma wire_number n v : number (wire n v) = n.
Proof. by destruct v. Qed.

Lemma wire_valid n v :
  1 <= n < 2 ^ 29 → Z.of_nat (length (put_field (wire n v) [])) < 2 ^ 64 → valid_field (wire n v).
Proof.
  intros Hn Hl. destruct (put_field_length (wire n v)) as [_ Hb]. split; [by rewrite wire_number|].
  destruct v as [s|z|b|fs]; simpl in *; [lia|apply Z.mod_pos_bound; lia|by destruct b|lia].
Qed.

Lemma elem_of_concat_length {A B} (f : A → list B) l x :
  x ∈ l → (length (f x) <= length (concat (map f l)))%nat.
Proof.
  induction 1 as [x l|x y l _ IH]; simpl; rewrite length_app; lia.
Qed.

Definition payload (w : WireField) : nat := match w with FBytes _ b => length b | _ => 0 end.

(** What is written for a value of a type is read back as that value. *)
Lemma decode_wire v : ∀ t n,
  typed t v = true → Z.of_nat (payload (wire n v)) < 2 ^ 64 →
  decode_value t (wire n v) = Some v.
Proof.
  induction v as [s|z|b|fs IH] using PVal_rect_fields; intros t n Ht Hl.
  - destruct t; try done. simpl. by rewrite string_of_string_bytes.
  - destruct t as [| | | | |m|]; try done; cbn [typed wire decode_value] in *.
    + apply in_width_spec in Ht. rewrite (Z.mod_small z) by lia. by rewrite Z.mod_small by lia.
    + apply in_width_spec in Ht. by rewrite Z.mod_small by lia.
    + apply andb_true_iff in Ht as [H1%Z.leb_le H2%Z.ltb_lt]. by rewrite signed_mod_64 by lia.
    + rewrite !andb_true_iff, !Z.leb_le, Z.ltb_lt in Ht.
      rewrite (Z.mod_small z) by lia. rewrite Z.mod_small by lia.
      unfold signed. by rewrite (proj2 (Z.ltb_lt _ _)) by lia.
  - destruct t; try done. by destruct b.
  - destruct t as [| | | | | |s]; try done. cbn [wire payload typed] in *.
    rewrite decode_value_msg. set (ws := (λ kv : Z * PVal, wire kv.1 kv.2) <$> fs).
    rewrite forallb_forall in Ht.
    assert (∀ kv, kv ∈ fs → (1 <= kv.1 < 2 ^ 29 ∧
      Z.of_nat (length (put_field (wire kv.1 kv.2) [])) < 2 ^ 64) ∧
      ∃ t, lookup_field kv.1 s = Some t ∧ typed t kv.2 = true) as Hkv.
    { intros kv Hin. pose proof (elem_of_concat_length
        (λ kv : Z * PVal, put_field (wire kv.1 kv.2) []) _ _ Hin) as Hlen.
      specialize (Ht kv (proj1 (list_elem_of_In _ _) Hin)).
      rewrite !andb_true_iff, Z.leb_le, Z.ltb_lt in Ht. destruct Ht as [? Ht].
      unfold bytes in Hl, Hlen. split; [lia|]. destruct (lookup_field kv.1 s); naive_solver. }
    assert (concat (map (λ kv, put_field (wire kv.1 kv.2) []) fs) =
      concat (map (λ w, put_field w []) ws)) as ->.
    { unfold ws. clear. induction fs as [|kv fs IHf]; [done|]. simpl. by rewrite IHf. }
    rewrite parse_fields_put.
    2:{ unfold ws. rewrite Forall_fmap, Forall_forall. intros kv Hin.
        apply wire_valid; apply (Hkv kv Hin). }
    assert (mapM (known_field s) ws = Some ((λ kv, [kv]) <$> fs)) as ->.
    { unfold ws. apply mapM_Some.
      rewrite Forall2_fmap_l, Forall2_fmap_r. apply Forall_Forall2_diag. rewrite Forall_forall.
      intros kv Hin. destruct (Hkv kv Hin) as [[Hn Hlen] (t & Hlk & Hty)].
      change (known_field s (wire kv.1 kv.2) = Some [kv]). unfold known_field.
      rewrite wire_number, Hlk.
      rewrite Forall_forall in IH. rewrite (IH kv Hin t kv.1 Hty).
      + by destruct kv.
      + destruct (put_field_length (wire kv.1 kv.2)) as [_ Hp].
        destruct (wire kv.1 kv.2); simpl in *; lia. }
    do 2 f_equal. clear. induction fs as [|kv fs IHf]; [done|]. cbn. by f_equal.
Qed.

Lemma decode_message_bytes s vs :
  well_typed s vs = true → Z.of_nat (length (message_bytes vs)) < 2 ^ 64 →
  decode_message s (message_bytes vs) = Some vs.
Proof.
  intros Ht Hl. unfold decode_message.
  pose proof (decode_wire (VMsg vs) (TMsg s) 0 Ht Hl) as Hd. cbn [wire] in Hd.
  unfold message_bytes. by rewrite Hd.
Qed.
