(* ===== verification/PoleMsgs.v ===== *)
(** * The chain's messages: src/src/cosmos/wire_types.rs, pole_msgs.rs and the message
    enumeration of tx_builder.rs

    The wire records mirror the messages of chain/proto/pole/chain/pole/v1; an encoder
    per message writes its fields, in order, into an [Any]. [hex::encode] is an
    operation of the class [External]. *)
From S2P Require Import Prelude Primitives Params Records Crypto Text CosmosAddress ProtoWire.
Local Open Scope pole_scope.
Local Open Scope string_scope.
Local Open Scope Z_scope.

(** ** wire_types.rs *)

Inductive NodeRoleWire := RolePlayer | RoleService | RoleCoordinator.

Definition node_role_to_proto (role : NodeRoleWire) : Z :=
  match role with RolePlayer => 1 | RoleService => 2 | RoleCoordinator => 3 end.

Record MerkleCommitmentWire := {
  mcw_root : string;
  mcw_leaf_count : Z;
}.

Record NodeCapabilitySetWire := {
  ncw_collect : bool;
  ncw_store : bool;
  ncw_verify : bool;
  ncw_propose : bool;
}.

Record NodeRecordWire := {
  nrw_operator_address : string;
  nrw_reward_address : string;
  nrw_consensus_address : string;
  nrw_role : NodeRoleWire;
  nrw_capabilities : NodeCapabilitySetWire;
  nrw_active : bool;
  nrw_bonded_tokens : Z;
  nrw_last_updated_epoch : Z;
  nrw_is_player : bool;
}.

Record AggregateRecordWire := {
  agw_epoch_id : Z;
  agw_app_id : Z;
  agw_total_weight_units : Z;
  agw_player_count : Z;
}.

Record BatchCommitWire := {
  bcw_epoch_id : Z;
  bcw_collector_address : string;
  bcw_slot_start : Z;
  bcw_slot_end : Z;
  bcw_batch : MerkleCommitmentWire;
  bcw_payload_cid : string;
  bcw_observation_count : Z;
  bcw_submitted_at_height : Z;
}.

Record PlaySessionWire := {
  psw_session_id_hex : string;
  psw_node_address : string;
  psw_app_id : Z;
  psw_epoch_id : Z;
  psw_slot_id : Z;
  psw_play_seconds : Z;
  psw_collector_address : string;
  psw_observation_cid : string;
  psw_observed_players : Z;
  psw_submitted_at_height : Z;
  psw_session_signature : string;
}.

Record PlayHeartbeatWire := {
  phw_session_id_hex : string;
  phw_node_address : string;
  phw_bucket_index : Z;
  phw_signed_at_millis : Z;
  phw_heartbeat_signature : string;
}.

Record WitnessAttestationWire := {
  waw_session_id_hex : string;
  waw_witness_address : string;
  waw_observed_play_seconds : Z;
  waw_witness_observation_cid : string;
  waw_observed_players : Z;
  waw_attested_at_height : Z;
  waw_witness_signature : string;
}.

Record RewardRecordWire := {
  rww_epoch_id : Z;
  rww_recipient : string;
  rww_player_reward : Z;
  rww_collect_reward : Z;
  rww_store_reward : Z;
  rww_verify_reward : Z;
  rww_propose_reward : Z;
  rww_slash_debit : Z;
  rww_net_reward : Z;
}.

Record ReplicaReceiptWire := {
  rcw_epoch_id : Z;
  rcw_payload_cid : string;
  rcw_storer_address : string;
  rcw_retention_until_epoch : Z;
  rcw_receipt_signature : string;
  rcw_receipt_hash_hex : string;
}.

Record EpochCommitWire := {
  ecw_epoch_id : Z;
  ecw_accepted_batches : MerkleCommitmentWire;
  ecw_observations : MerkleCommitmentWire;
  ecw_aggregates : MerkleCommitmentWire;
  ecw_rewards : MerkleCommitmentWire;
  ecw_availability : MerkleCommitmentWire;
  ecw_randomness_seed_hex : string;
  ecw_proposer_address : string;
  ecw_challenge_open_height : Z;
  ecw_challenge_deadline_height : Z;
  ecw_finalized : bool;
  ecw_total_network_weight_units : Z;
}.

Record GameWeightEntryWire := {
  gww_app_id : Z;
  gww_game_weight_ppm : Z;
  gww_tier : string;
  gww_effective_from_epoch_id : Z;
}.

Record ParamsWire := {
  pmw_reward_block_duration_seconds : Z;
  pmw_base_hourly_reward : Z;
  pmw_target_network_weight_units : Z;
  pmw_reward_adjustment_cap_bps : Z;
  pmw_challenge_window_blocks : Z;
  pmw_min_retention_epochs : Z;
  pmw_player_reward_allocation_bps : Z;
  pmw_service_reward_allocation_bps : Z;
  pmw_collect_reward_bps : Z;
  pmw_store_reward_bps : Z;
  pmw_verify_reward_bps : Z;
  pmw_propose_reward_bps : Z;
  pmw_tier1_weight_ppm : Z;
  pmw_tier2_weight_min_ppm : Z;
  pmw_tier2_weight_max_ppm : Z;
  pmw_tier3_weight_min_ppm : Z;
  pmw_tier3_weight_max_ppm : Z;
  pmw_fee_burn_bps : Z;
  pmw_reward_burn_threshold : Z;
  pmw_reward_burn_bps : Z;
  pmw_governance_burn_bps : Z;
  pmw_min_verification_count : Z;
  pmw_min_player_verifier_share_bps : Z;
  pmw_min_witness_count : Z;
  pmw_min_witness_observation_tolerance_ppm : Z;
  pmw_min_distinct_observations : Z;
  pmw_session_slash_bps : Z;
  pmw_min_heartbeat_count : Z;
  pmw_heartbeat_bucket_seconds : Z;
  pmw_min_heartbeat_coverage_bps : Z;
  pmw_challenge_bond_burn_bps : Z;
}.

(** [ParamsWire::default()] *)
Definition ParamsWire_default : ParamsWire := {|
  pmw_reward_block_duration_seconds := 0;
  pmw_base_hourly_reward := 0;
  pmw_target_network_weight_units := 0;
  pmw_reward_adjustment_cap_bps := 0;
  pmw_challenge_window_blocks := 0;
  pmw_min_retention_epochs := 0;
  pmw_player_reward_allocation_bps := 0;
  pmw_service_reward_allocation_bps := 0;
  pmw_collect_reward_bps := 0;
  pmw_store_reward_bps := 0;
  pmw_verify_reward_bps := 0;
  pmw_propose_reward_bps := 0;
  pmw_tier1_weight_ppm := 0;
  pmw_tier2_weight_min_ppm := 0;
  pmw_tier2_weight_max_ppm := 0;
  pmw_tier3_weight_min_ppm := 0;
  pmw_tier3_weight_max_ppm := 0;
  pmw_fee_burn_bps := 0;
  pmw_reward_burn_threshold := 0;
  pmw_reward_burn_bps := 0;
  pmw_governance_burn_bps := 0;
  pmw_min_verification_count := 0;
  pmw_min_player_verifier_share_bps := 0;
  pmw_min_witness_count := 0;
  pmw_min_witness_observation_tolerance_ppm := 0;
  pmw_min_distinct_observations := 0;
  pmw_session_slash_bps := 0;
  pmw_min_heartbeat_count := 0;
  pmw_heartbeat_bucket_seconds := 0;
  pmw_min_heartbeat_coverage_bps := 0;
  pmw_challenge_bond_burn_bps := 0 |}.

(** ** pole_msgs.rs *)

(** [google.protobuf.Any] *)
Record Any := {
  type_url : string;
  value : bytes;
}.

(** The trait [MessageEncoder]. *)
Class MessageEncoder (A : Type) := {
  enc_type_url : A → string;
  enc_encode : A → bytes;
}.

Definition challenge_kind_to_proto (kind : ChallengeKind) : Z :=
  match kind with
  | BadBatch => 1 | Omission => 2 | BadAggregate => 3 | BadReward => 4 | BadStorage => 5
  end.

Definition challenge_state_to_proto (state : ChallengeState) : Z :=
  match state with
  | Open => 1 | Responded => 1 | Succeeded => 2 | Rejected => 3 | Expired => 3
  end.

Definition encode_msg_finalize_epoch (finalizer_bech32 : string) (epoch_id : Z) : Any := {|
  type_url := "/pole.chain.pole.v1.MsgFinalizeEpoch";
  value := [] |> encode_string 1 finalizer_bech32 |> encode_uint64 2 epoch_id |}.

Definition encode_msg_verify_batch (verifier_bech32 : string) (epoch_id : Z)
    (target_batch_root_hex target_collector_bech32 : string) (is_player verified : bool)
    (signature_hex : string) : Any := {|
  type_url := "/pole.chain.pole.v1.MsgVerifyBatch";
  value := []
    |> encode_string 1 verifier_bech32
    |> encode_uint64 2 epoch_id
    |> encode_string 3 target_batch_root_hex
    |> encode_string 4 target_collector_bech32
    |> encode_bool 5 is_player
    |> encode_bool 6 verified
    |> encode_string 7 signature_hex |}.

Definition encode_msg_claim_reward (claimer_bech32 : string) (epoch_id : Z)
    (recipient_bech32 : string) : Any := {|
  type_url := "/pole.chain.pole.v1.MsgClaimReward";
  value := []
    |> encode_string 1 claimer_bech32 |> encode_uint64 2 epoch_id
    |> encode_string 3 recipient_bech32 |}.

(** [.as_ref().map(hex::encode).unwrap_or_default()] *)
Definition hex_or_empty `{External} (h : option bytes) : string :=
  match h with Some h => hex_encode h | None => "" end.

Definition encode_evidence_inner `{External} (ev : ChallengeEvidenceRef) : bytes :=
  let buf := []
    |> encode_string 1 (hex_or_empty (ev_batch_root ev))
    |> encode_string 2 (hex_or_empty (aggregate_root ev))
    |> encode_string 3 (hex_or_empty (reward_root ev))
    |> encode_string 4 (default "" (ev_payload_cid ev)) in
  let buf := foldl (λ buf proof_hash, encode_string 5 (hex_encode proof_hash) buf) buf
    (ev_merkle_proof ev) in
  encode_uint32 6 0 buf.

Definition encode_challenge_inner `{External} (challenge : Challenge) (challenger_bech32 : string)
    : bytes :=
  []
  |> encode_string 1 (hex_encode (ch_challenge_id challenge))
  |> encode_int32 2 (challenge_kind_to_proto (ch_kind challenge))
  |> encode_uint64 3 (ch_epoch_id challenge)
  |> encode_string 4 (hex_or_empty (target_node challenge))
  |> encode_string 5 challenger_bech32
  |> encode_uint64 6 (ch_bond challenge mod 2 ^ 64)
  |> encode_int64 7 (signed 64 (opened_at_height challenge))
  |> encode_int64 8 (signed 64 (deadline_height challenge))
  |> encode_int32 9 (challenge_state_to_proto (ch_state challenge))
  |> encode_bytes 10 (encode_evidence_inner (evidence challenge))
  |> encode_uint64 11 0
  |> encode_uint64 12 0
  |> encode_string 13 ""
  |> encode_string 14 "".

Definition encode_msg_open_challenge `{External} (challenger_bech32 : string)
    (challenge : Challenge) : Any := {|
  type_url := "/pole.chain.pole.v1.MsgOpenChallenge";
  value := []
    |> encode_string 1 challenger_bech32
    |> encode_bytes 2 (encode_challenge_inner challenge challenger_bech32) |}.

Definition encode_merkle_commitment_inner (m : MerkleCommitmentWire) : bytes :=
  []
  |> encode_string 1 (mcw_root m)
  |> encode_uint32 2 (mcw_leaf_count m).

Definition encode_node_capability_set_inner (c : NodeCapabilitySetWire) : bytes :=
  []
  |> encode_bool 1 (ncw_collect c)
  |> encode_bool 2 (ncw_store c)
  |> encode_bool 3 (ncw_verify c)
  |> encode_bool 4 (ncw_propose c).

Definition encode_node_record_inner (node : NodeRecordWire) : bytes :=
  []
  |> encode_string 1 (nrw_operator_address node)
  |> encode_string 2 (nrw_reward_address node)
  |> encode_string 3 (nrw_consensus_address node)
  |> encode_int32 4 (node_role_to_proto (nrw_role node))
  |> encode_bytes 5 (encode_node_capability_set_inner (nrw_capabilities node))
  |> encode_bool 6 (nrw_active node)
  |> encode_uint64 7 (nrw_bonded_tokens node)
  |> encode_uint64 8 (nrw_last_updated_epoch node)
  |> encode_bool 9 (nrw_is_player node).

Definition encode_aggregate_record_inner (a : AggregateRecordWire) : bytes :=
  []
  |> encode_uint64 1 (agw_epoch_id a)
  |> encode_uint32 2 (agw_app_id a)
  |> encode_uint64 3 (agw_total_weight_units a)
  |> encode_uint64 4 (agw_player_count a).

Definition encode_batch_commit_inner (b : BatchCommitWire) : bytes :=
  []
  |> encode_uint64 1 (bcw_epoch_id b)
  |> encode_string 2 (bcw_collector_address b)
  |> encode_uint64 3 (bcw_slot_start b)
  |> encode_uint64 4 (bcw_slot_end b)
  |> encode_bytes 5 (encode_merkle_commitment_inner (bcw_batch b))
  |> encode_string 6 (bcw_payload_cid b)
  |> encode_uint32 7 (bcw_observation_count b)
  |> encode_int64 8 (bcw_submitted_at_height b).

Definition encode_replica_receipt_inner (r : ReplicaReceiptWire) : bytes :=
  []
  |> encode_uint64 1 (rcw_epoch_id r)
  |> encode_string 2 (rcw_payload_cid r)
  |> encode_string 3 (rcw_storer_address r)
  |> encode_uint64 4 (rcw_retention_until_epoch r)
  |> encode_string 5 (rcw_receipt_signature r)
  |> encode_string 6 (rcw_receipt_hash_hex r).

Definition encode_epoch_commit_inner (c : EpochCommitWire) : bytes :=
  []
  |> encode_uint64 1 (ecw_epoch_id c)
  |> encode_bytes 2 (encode_merkle_commitment_inner (ecw_accepted_batches c))
  |> encode_bytes 3 (encode_merkle_commitment_inner (ecw_observations c))
  |> encode_bytes 4 (encode_merkle_commitment_inner (ecw_aggregates c))
  |> encode_bytes 5 (encode_merkle_commitment_inner (ecw_rewards c))
  |> encode_bytes 6 (encode_merkle_commitment_inner (ecw_availability c))
  |> encode_string 7 (ecw_randomness_seed_hex c)
  |> encode_string 8 (ecw_proposer_address c)
  |> encode_int64 9 (ecw_challenge_open_height c)
  |> encode_int64 10 (ecw_challenge_deadline_height c)
  |> encode_bool 11 (ecw_finalized c)
  |> encode_uint64 12 (ecw_total_network_weight_units c).

Definition encode_game_weight_entry_inner (e : GameWeightEntryWire) : bytes :=
  []
  |> encode_uint32 1 (gww_app_id e)
  |> encode_uint32 2 (gww_game_weight_ppm e)
  |> encode_string 3 (gww_tier e)
  |> encode_uint64 4 (gww_effective_from_epoch_id e).

Definition encode_params_inner (p : ParamsWire) : bytes :=
  []
  |> encode_uint64 1 (pmw_reward_block_duration_seconds p)
  |> encode_uint64 2 (pmw_base_hourly_reward p)
  |> encode_uint64 3 (pmw_target_network_weight_units p)
  |> encode_uint32 4 (pmw_reward_adjustment_cap_bps p)
  |> encode_uint64 5 (pmw_challenge_window_blocks p)
  |> encode_uint64 6 (pmw_min_retention_epochs p)
  |> encode_uint32 7 (pmw_player_reward_allocation_bps p)
  |> encode_uint32 8 (pmw_service_reward_allocation_bps p)
  |> encode_uint32 9 (pmw_collect_reward_bps p)
  |> encode_uint32 10 (pmw_store_reward_bps p)
  |> encode_uint32 11 (pmw_verify_reward_bps p)
  |> encode_uint32 12 (pmw_propose_reward_bps p)
  |> encode_uint32 13 (pmw_tier1_weight_ppm p)
  |> encode_uint32 14 (pmw_tier2_weight_min_ppm p)
  |> encode_uint32 15 (pmw_tier2_weight_max_ppm p)
  |> encode_uint32 16 (pmw_tier3_weight_min_ppm p)
  |> encode_uint32 17 (pmw_tier3_weight_max_ppm p)
  |> encode_uint32 18 (pmw_fee_burn_bps p)
  |> encode_uint64 19 (pmw_reward_burn_threshold p)
  |> encode_uint32 20 (pmw_reward_burn_bps p)
  |> encode_uint32 21 (pmw_governance_burn_bps p)
  |> encode_uint64 22 (pmw_min_verification_count p)
  |> encode_uint32 23 (pmw_min_player_verifier_share_bps p)
  |> encode_uint64 24 (pmw_min_witness_count p)
  |> encode_uint32 25 (pmw_min_witness_observation_tolerance_ppm p)
  |> encode_uint64 26 (pmw_min_distinct_observations p)
  |> encode_uint32 27 (pmw_session_slash_bps p)
  |> encode_uint64 28 (pmw_min_heartbeat_count p)
  |> encode_uint64 29 (pmw_heartbeat_bucket_seconds p)
  |> encode_uint32 30 (pmw_min_heartbeat_coverage_bps p)
  |> encode_uint32 31 (pmw_challenge_bond_burn_bps p).

Definition encode_play_session_inner (s : PlaySessionWire) : bytes :=
  []
  |> encode_string 1 (psw_session_id_hex s)
  |> encode_string 2 (psw_node_address s)
  |> encode_uint32 3 (psw_app_id s)
  |> encode_uint64 4 (psw_epoch_id s)
  |> encode_uint64 5 (psw_slot_id s)
  |> encode_uint64 6 (psw_play_seconds s)
  |> encode_string 7 (psw_collector_address s)
  |> encode_string 8 (psw_observation_cid s)
  |> encode_uint64 9 (psw_observed_players s)
  |> encode_int64 10 (psw_submitted_at_height s)
  |> encode_string 11 (psw_session_signature s).

Definition encode_play_heartbeat_inner (h : PlayHeartbeatWire) : bytes :=
  []
  |> encode_string 1 (phw_session_id_hex h)
  |> encode_string 2 (phw_node_address h)
  |> encode_uint64 3 (phw_bucket_index h)
  |> encode_int64 4 (phw_signed_at_millis h)
  |> encode_string 5 (phw_heartbeat_signature h).

Definition encode_witness_attestation_inner (a : WitnessAttestationWire) : bytes :=
  []
  |> encode_string 1 (waw_session_id_hex a)
  |> encode_string 2 (waw_witness_address a)
  |> encode_uint64 3 (waw_observed_play_seconds a)
  |> encode_string 4 (waw_witness_observation_cid a)
  |> encode_uint64 5 (waw_observed_players a)
  |> encode_int64 6 (waw_attested_at_height a)
  |> encode_string 7 (waw_witness_signature a).

Definition encode_reward_record_inner (r : RewardRecordWire) : bytes :=
  []
  |> encode_uint64 1 (rww_epoch_id r)
  |> encode_string 2 (rww_recipient r)
  |> encode_uint64 3 (rww_player_reward r)
  |> encode_uint64 4 (rww_collect_reward r)
  |> encode_uint64 5 (rww_store_reward r)
  |> encode_uint64 6 (rww_verify_reward r)
  |> encode_uint64 7 (rww_propose_reward r)
  |> encode_uint64 8 (rww_slash_debit r)
  |> encode_uint64 9 (rww_net_reward r).

Definition encode_msg_upsert_node (operator_bech32 : string) (node : NodeRecordWire) : Any := {|
  type_url := "/pole.chain.pole.v1.MsgUpsertNode";
  value := [] |> encode_string 1 operator_bech32 |> encode_bytes 2 (encode_node_record_inner node) |}.

Definition encode_msg_upsert_aggregate_record (operator_bech32 : string) (aggregate_record : AggregateRecordWire) : Any := {|
  type_url := "/pole.chain.pole.v1.MsgUpsertAggregateRecord";
  value := [] |> encode_string 1 operator_bech32 |> encode_bytes 2 (encode_aggregate_record_inner aggregate_record) |}.

Definition encode_msg_submit_batch (collector_bech32 : string) (batch : BatchCommitWire) : Any := {|
  type_url := "/pole.chain.pole.v1.MsgSubmitBatch";
  value := [] |> encode_string 1 collector_bech32 |> encode_bytes 2 (encode_batch_commit_inner batch) |}.

Definition encode_msg_submit_replica_receipt (storer_bech32 : string) (receipt : ReplicaReceiptWire) : Any := {|
  type_url := "/pole.chain.pole.v1.MsgSubmitReplicaReceipt";
  value := [] |> encode_string 1 storer_bech32 |> encode_bytes 2 (encode_replica_receipt_inner receipt) |}.

Definition encode_msg_commit_epoch (proposer_bech32 : string) (commit : EpochCommitWire) : Any := {|
  type_url := "/pole.chain.pole.v1.MsgCommitEpoch";
  value := [] |> encode_string 1 proposer_bech32 |> encode_bytes 2 (encode_epoch_commit_inner commit) |}.

Definition encode_msg_upsert_game_weight (authority_bech32 : string) (entry : GameWeightEntryWire) : Any := {|
  type_url := "/pole.chain.pole.v1.MsgUpsertGameWeight";
  value := [] |> encode_string 1 authority_bech32 |> encode_bytes 2 (encode_game_weight_entry_inner entry) |}.

Definition encode_msg_update_params (authority_bech32 : string) (params : ParamsWire) : Any := {|
  type_url := "/pole.chain.pole.v1.MsgUpdateParams";
  value := [] |> encode_string 1 authority_bech32 |> encode_bytes 2 (encode_params_inner params) |}.

Definition encode_msg_submit_play_session (node_address_bech32 : string) (session : PlaySessionWire) : Any := {|
  type_url := "/pole.chain.pole.v1.MsgSubmitPlaySession";
  value := [] |> encode_string 1 node_address_bech32 |> encode_bytes 2 (encode_play_session_inner session) |}.

Definition encode_msg_submit_play_heartbeat (node_address_bech32 : string) (heartbeat : PlayHeartbeatWire) : Any := {|
  type_url := "/pole.chain.pole.v1.MsgSubmitPlayHeartbeat";
  value := [] |> encode_string 1 node_address_bech32 |> encode_bytes 2 (encode_play_heartbeat_inner heartbeat) |}.

Definition encode_msg_attest_session (witness_bech32 : string) (attestation : WitnessAttestationWire) : Any := {|
  type_url := "/pole.chain.pole.v1.MsgAttestSession";
  value := [] |> encode_string 1 witness_bech32 |> encode_bytes 2 (encode_witness_attestation_inner attestation) |}.

Definition encode_msg_resolve_challenge (resolver_bech32 challenge_id_hex : string)
    (slash_amount challenger_reward : Z) (resolution_summary : string)
    (final_state : ChallengeState) (slash_fraction_bps : Z) (jail_validator : bool) : Any := {|
  type_url := "/pole.chain.pole.v1.MsgResolveChallenge";
  value := []
    |> encode_string 1 resolver_bech32
    |> encode_string 2 challenge_id_hex
    |> encode_uint64 3 slash_amount
    |> encode_uint64 4 challenger_reward
    |> encode_string 5 resolution_summary
    |> encode_int32 6 (challenge_state_to_proto final_state)
    |> encode_uint32 7 slash_fraction_bps
    |> encode_bool 8 jail_validator |}.

Definition encode_msg_settle_session (settler_bech32 session_id_hex : string) : Any := {|
  type_url := "/pole.chain.pole.v1.MsgSettleSession";
  value := [] |> encode_string 1 settler_bech32 |> encode_string 2 session_id_hex |}.

Definition encode_msg_submit_reward_records (proposer_bech32 : string) (epoch_id : Z)
    (records : list RewardRecordWire) : Any :=
  let buf := [] |> encode_string 1 proposer_bech32 |> encode_uint64 2 epoch_id in
  {| type_url := "/pole.chain.pole.v1.MsgSubmitRewardRecords";
     value := foldl (λ buf record, encode_bytes 3 (encode_reward_record_inner record) buf)
       buf records |}.

Definition encode_msg_activity_burn (sender_bech32 : string) (amount : Z)
    (activity_id burn_type memo : string) : Any := {|
  type_url := "/pole.chain.pole.v1.MsgActivityBurn";
  value := []
    |> encode_string 1 sender_bech32
    |> encode_uint64 2 amount
    |> encode_string 3 activity_id
    |> encode_string 4 burn_type
    |> encode_string 5 memo |}.

Record MsgActivityBurn := {
  mab_sender : string;
  mab_amount : Z;
  mab_activity_id : string;
  mab_burn_type : string;
  mab_memo : string;
}.

#[export] Instance MsgActivityBurn_encoder : MessageEncoder MsgActivityBurn := {|
  enc_type_url _ := "/pole.chain.pole.v1.MsgActivityBurn";
  enc_encode m := value (encode_msg_activity_burn (mab_sender m) (mab_amount m)
    (mab_activity_id m) (mab_burn_type m) (mab_memo m)) |}.

(** ** The messages of tx_builder.rs *)

Inductive BridgeMessage :=
| BFinalizeEpoch (finalizer : CosmosAddress) (epoch_id : EpochId)
| BClaimReward (claimer : CosmosAddress) (epoch_id : EpochId) (recipient : CosmosAddress)
| BOpenChallenge (challenger : CosmosAddress) (challenge : Challenge)
| BUpsertNode (operator : CosmosAddress) (node : NodeRecordWire)
| BUpsertAggregateRecord (operator : CosmosAddress) (aggregate_record : AggregateRecordWire)
| BSubmitBatch (collector : CosmosAddress) (batch_commit : BatchCommitWire)
| BSubmitReplicaReceipt (storer : CosmosAddress) (replica_receipt : ReplicaReceiptWire)
| BCommitEpoch (proposer : CosmosAddress) (epoch_commit : EpochCommitWire)
| BResolveChallenge (resolver : CosmosAddress) (challenge_id_hex : string)
    (slash_amount challenger_reward : Z) (resolution_summary : string)
    (final_state : ChallengeState) (slash_fraction_bps : Z) (jail_validator : bool)
| BUpsertGameWeight (authority : CosmosAddress) (entry : GameWeightEntryWire)
| BUpdateParams (authority : CosmosAddress) (params : ParamsWire)
| BVerifyBatch (verifier : CosmosAddress) (epoch_id : EpochId) (target_batch_root_hex : string)
    (target_collector : CosmosAddress) (is_player verified : bool) (signature_hex : string)
| BUnsupported (url note : string)
| BSubmitPlaySession (node_address : CosmosAddress) (session : PlaySessionWire)
| BSubmitPlayHeartbeat (node_address : CosmosAddress) (heartbeat : PlayHeartbeatWire)
| BAttestSession (witness : CosmosAddress) (attestation : WitnessAttestationWire)
| BSettleSession (settler : CosmosAddress) (session_id_hex : string)
| BSubmitRewardRecords (proposer : CosmosAddress) (epoch_id : EpochId)
    (records : list RewardRecordWire).

Definition to_any `{External} (m : BridgeMessage) : Any :=
  match m with
  | BFinalizeEpoch finalizer epoch_id => encode_msg_finalize_epoch (ca_bech32 finalizer) epoch_id
  | BClaimReward claimer epoch_id recipient =>
      encode_msg_claim_reward (ca_bech32 claimer) epoch_id (ca_bech32 recipient)
  | BOpenChallenge challenger challenge =>
      encode_msg_open_challenge (ca_bech32 challenger) challenge
  | BUpsertNode operator node => encode_msg_upsert_node (ca_bech32 operator) node
  | BUpsertAggregateRecord operator aggregate_record =>
      encode_msg_upsert_aggregate_record (ca_bech32 operator) aggregate_record
  | BSubmitBatch collector batch_commit =>
      encode_msg_submit_batch (ca_bech32 collector) batch_commit
  | BSubmitReplicaReceipt storer replica_receipt =>
      encode_msg_submit_replica_receipt (ca_bech32 storer) replica_receipt
  | BCommitEpoch proposer epoch_commit => encode_msg_commit_epoch (ca_bech32 proposer) epoch_commit
  | BResolveChallenge resolver challenge_id_hex slash_amount challenger_reward
      resolution_summary final_state slash_fraction_bps jail_validator =>
      encode_msg_resolve_challenge (ca_bech32 resolver) challenge_id_hex slash_amount
        challenger_reward resolution_summary final_state slash_fraction_bps jail_validator
  | BUpsertGameWeight authority entry => encode_msg_upsert_game_weight (ca_bech32 authority) entry
  | BUpdateParams authority params => encode_msg_update_params (ca_bech32 authority) params
  | BVerifyBatch verifier epoch_id target_batch_root_hex target_collector is_player verified
      signature_hex =>
      encode_msg_verify_batch (ca_bech32 verifier) epoch_id target_batch_root_hex
        (ca_bech32 target_collector) is_player verified signature_hex
  | BUnsupported url note => {| type_url := url; value := string_bytes note |}
  | BSubmitPlaySession node_address session =>
      encode_msg_submit_play_session (ca_bech32 node_address) session
  | BSubmitPlayHeartbeat node_address heartbeat =>
      encode_msg_submit_play_heartbeat (ca_bech32 node_address) heartbeat
  | BAttestSession witness attestation =>
      encode_msg_attest_session (ca_bech32 witness) attestation
  | BSettleSession settler session_id_hex =>
      encode_msg_settle_session (ca_bech32 settler) session_id_hex
  | BSubmitRewardRecords proposer epoch_id records =>
      encode_msg_submit_reward_records (ca_bech32 proposer) epoch_id records
  end.
