(* ===== verification/PoleSchema.v ===== *)
(** * What the chain reads: the messages of chain/proto/pole/chain/pole/v1

    The message types of state.proto and tx.proto, the messages as the chain's handlers
    receive them ([ChainMsg], decoded by the types alone), and the proof that what
    pole_msgs.rs writes for a message is read back as that message, with every field of
    its type on the wire. *)
From S2P Require Import Prelude Primitives Params Records Crypto Text CosmosAddress ProtoWire PoleMsgs.
Local Open Scope pole_scope.
Local Open Scope string_scope.
Local Open Scope Z_scope.

(** ** The message types of state.proto and tx.proto *)

Definition MerkleCommitment_schema : Schema := [
  (1, Singular, TString);
  (2, Singular, TUint32)].

Definition NodeCapabilitySet_schema : Schema := [
  (1, Singular, TBool);
  (2, Singular, TBool);
  (3, Singular, TBool);
  (4, Singular, TBool)].

Definition NodeRecord_schema : Schema := [
  (1, Singular, TString);
  (2, Singular, TString);
  (3, Singular, TString);
  (4, Singular, TEnum 3);
  (5, Singular, TMsg NodeCapabilitySet_schema);
  (6, Singular, TBool);
  (7, Singular, TUint64);
  (8, Singular, TUint64);
  (9, Singular, TBool)].

Definition Params_schema : Schema := [
  (1, Singular, TUint64);
  (2, Singular, TUint64);
  (3, Singular, TUint64);
  (4, Singular, TUint32);
  (5, Singular, TUint64);
  (6, Singular, TUint64);
  (7, Singular, TUint32);
  (8, Singular, TUint32);
  (9, Singular, TUint32);
  (10, Singular, TUint32);
  (11, Singular, TUint32);
  (12, Singular, TUint32);
  (13, Singular, TUint32);
  (14, Singular, TUint32);
  (15, Singular, TUint32);
  (16, Singular, TUint32);
  (17, Singular, TUint32);
  (18, Singular, TUint32);
  (19, Singular, TUint64);
  (20, Singular, TUint32);
  (21, Singular, TUint32);
  (22, Singular, TUint64);
  (23, Singular, TUint32);
  (24, Singular, TUint64);
  (25, Singular, TUint32);
  (26, Singular, TUint64);
  (27, Singular, TUint32);
  (28, Singular, TUint64);
  (29, Singular, TUint64);
  (30, Singular, TUint32);
  (31, Singular, TUint32)].

Definition BatchCommit_schema : Schema := [
  (1, Singular, TUint64);
  (2, Singular, TString);
  (3, Singular, TUint64);
  (4, Singular, TUint64);
  (5, Singular, TMsg MerkleCommitment_schema);
  (6, Singular, TString);
  (7, Singular, TUint32);
  (8, Singular, TInt64)].

Definition RewardRecord_schema : Schema := [
  (1, Singular, TUint64);
  (2, Singular, TString);
  (3, Singular, TUint64);
  (4, Singular, TUint64);
  (5, Singular, TUint64);
  (6, Singular, TUint64);
  (7, Singular, TUint64);
  (8, Singular, TUint64);
  (9, Singular, TUint64)].

Definition AggregateRecord_schema : Schema := [
  (1, Singular, TUint64);
  (2, Singular, TUint32);
  (3, Singular, TUint64);
  (4, Singular, TUint64)].

Definition EpochCommit_schema : Schema := [
  (1, Singular, TUint64);
  (2, Singular, TMsg MerkleCommitment_schema);
  (3, Singular, TMsg MerkleCommitment_schema);
  (4, Singular, TMsg MerkleCommitment_schema);
  (5, Singular, TMsg MerkleCommitment_schema);
  (6, Singular, TMsg MerkleCommitment_schema);
  (7, Singular, TString);
  (8, Singular, TString);
  (9, Singular, TInt64);
  (10, Singular, TInt64);
  (11, Singular, TBool);
  (12, Singular, TUint64)].

Definition ChallengeEvidenceRef_schema : Schema := [
  (1, Singular, TString);
  (2, Singular, TString);
  (3, Singular, TString);
  (4, Singular, TString);
  (5, Repeated, TString);
  (6, Singular, TUint32)].

Definition Challenge_schema : Schema := [
  (1, Singular, TString);
  (2, Singular, TEnum 5);
  (3, Singular, TUint64);
  (4, Singular, TString);
  (5, Singular, TString);
  (6, Singular, TUint64);
  (7, Singular, TInt64);
  (8, Singular, TInt64);
  (9, Singular, TEnum 3);
  (10, Singular, TMsg ChallengeEvidenceRef_schema);
  (11, Singular, TUint64);
  (12, Singular, TUint64);
  (13, Singular, TString);
  (14, Singular, TString)].

Definition GameWeightEntry_schema : Schema := [
  (1, Singular, TUint32);
  (2, Singular, TUint32);
  (3, Singular, TString);
  (4, Singular, TUint64)].

Definition ReplicaReceipt_schema : Schema := [
  (1, Singular, TUint64);
  (2, Singular, TString);
  (3, Singular, TString);
  (4, Singular, TUint64);
  (5, Singular, TString);
  (6, Singular, TString)].

Definition PlaySession_schema : Schema := [
  (1, Singular, TString);
  (2, Singular, TString);
  (3, Singular, TUint32);
  (4, Singular, TUint64);
  (5, Singular, TUint64);
  (6, Singular, TUint64);
  (7, Singular, TString);
  (8, Singular, TString);
  (9, Singular, TUint64);
  (10, Singular, TInt64);
  (11, Singular, TString)].

Definition PlayHeartbeat_schema : Schema := [
  (1, Singular, TString);
  (2, Singular, TString);
  (3, Singular, TUint64);
  (4, Singular, TInt64);
  (5, Singular, TString)].

Definition WitnessAttestation_schema : Schema := [
  (1, Singular, TString);
  (2, Singular, TString);
  (3, Singular, TUint64);
  (4, Singular, TString);
  (5, Singular, TUint64);
  (6, Singular, TInt64);
  (7, Singular, TString)].

Definition MsgUpsertNode_schema : Schema := [
  (1, Singular, TString);
  (2, Singular, TMsg NodeRecord_schema)].

Definition MsgUpsertAggregateRecord_schema : Schema := [
  (1, Singular, TString);
  (2, Singular, TMsg AggregateRecord_schema)].

Definition MsgSubmitBatch_schema : Schema := [
  (1, Singular, TString);
  (2, Singular, TMsg BatchCommit_schema)].

Definition MsgSubmitReplicaReceipt_schema : Schema := [
  (1, Singular, TString);
  (2, Singular, TMsg ReplicaReceipt_schema)].

Definition MsgCommitEpoch_schema : Schema := [
  (1, Singular, TString);
  (2, Singular, TMsg EpochCommit_schema)].

Definition MsgOpenChallenge_schema : Schema := [
  (1, Singular, TString);
  (2, Singular, TMsg Challenge_schema)].

Definition MsgResolveChallenge_schema : Schema := [
  (1, Singular, TString);
  (2, Singular, TString);
  (3, Singular, TUint64);
  (4, Singular, TUint64);
  (5, Singular, TString);
  (6, Singular, TEnum 3);
  (7, Singular, TUint32);
  (8, Singular, TBool)].

Definition MsgFinalizeEpoch_schema : Schema := [
  (1, Singular, TString);
  (2, Singular, TUint64)].

Definition MsgVerifyBatch_schema : Schema := [
  (1, Singular, TString);
  (2, Singular, TUint64);
  (3, Singular, TString);
  (4, Singular, TString);
  (5, Singular, TBool);
  (6, Singular, TBool);
  (7, Singular, TString)].

Definition MsgClaimReward_schema : Schema := [
  (1, Singular, TString);
  (2, Singular, TUint64);
  (3, Singular, TString)].

Definition MsgUpsertGameWeight_schema : Schema := [
  (1, Singular, TString);
  (2, Singular, TMsg GameWeightEntry_schema)].

Definition MsgUpdateParams_schema : Schema := [
  (1, Singular, TString);
  (2, Singular, TMsg Params_schema)].

Definition MsgSubmitPlaySession_schema : Schema := [
  (1, Singular, TString);
  (2, Singular, TMsg PlaySession_schema)].

Definition MsgSubmitPlayHeartbeat_schema : Schema := [
  (1, Singular, TString);
  (2, Singular, TMsg PlayHeartbeat_schema)].

Definition MsgAttestSession_schema : Schema := [
  (1, Singular, TString);
  (2, Singular, TMsg WitnessAttestation_schema)].

Definition MsgSettleSession_schema : Schema := [
  (1, Singular, TString);
  (2, Singular, TString)].

Definition MsgSubmitRewardRecords_schema : Schema := [
  (1, Singular, TString);
  (2, Singular, TUint64);
  (3, Repeated, TMsg RewardRecord_schema)].

Definition MsgActivityBurn_schema : Schema := [
  (1, Singular, TString);
  (2, Singular, TUint64);
  (3, Singular, TString);
  (4, Singular, TString);
  (5, Singular, TString)].

(** The handlers of the service [Msg], by their routes. *)
Definition msg_schemas : list (string * Schema) := [
  ("/pole.chain.pole.v1.MsgUpsertNode", MsgUpsertNode_schema);
  ("/pole.chain.pole.v1.MsgUpsertAggregateRecord", MsgUpsertAggregateRecord_schema);
  ("/pole.chain.pole.v1.MsgSubmitBatch", MsgSubmitBatch_schema);
  ("/pole.chain.pole.v1.MsgSubmitReplicaReceipt", MsgSubmitReplicaReceipt_schema);
  ("/pole.chain.pole.v1.MsgCommitEpoch", MsgCommitEpoch_schema);
  ("/pole.chain.pole.v1.MsgOpenChallenge", MsgOpenChallenge_schema);
  ("/pole.chain.pole.v1.MsgResolveChallenge", MsgResolveChallenge_schema);
  ("/pole.chain.pole.v1.MsgFinalizeEpoch", MsgFinalizeEpoch_schema);
  ("/pole.chain.pole.v1.MsgVerifyBatch", MsgVerifyBatch_schema);
  ("/pole.chain.pole.v1.MsgClaimReward", MsgClaimReward_schema);
  ("/pole.chain.pole.v1.MsgUpsertGameWeight", MsgUpsertGameWeight_schema);
  ("/pole.chain.pole.v1.MsgUpdateParams", MsgUpdateParams_schema);
  ("/pole.chain.pole.v1.MsgSubmitPlaySession", MsgSubmitPlaySession_schema);
  ("/pole.chain.pole.v1.MsgSubmitPlayHeartbeat", MsgSubmitPlayHeartbeat_schema);
  ("/pole.chain.pole.v1.MsgAttestSession", MsgAttestSession_schema);
  ("/pole.chain.pole.v1.MsgSettleSession", MsgSettleSession_schema);
  ("/pole.chain.pole.v1.MsgSubmitRewardRecords", MsgSubmitRewardRecords_schema);
  ("/pole.chain.pole.v1.MsgActivityBurn", MsgActivityBurn_schema)].

Definition msg_schema (url : string) : option Schema :=
  (λ x, x.2.2) <$> list_find (λ us : string * Schema, us.1 = url) msg_schemas.

(** ** Reading fields: the last occurrence counts, an absent field is its default *)

Definition get (k : Z) (vs : list (Z * PVal)) : option PVal :=
  foldl (λ acc kv, if kv.1 =? k then Some kv.2 else acc) None vs.
Definition get_str (k : Z) (vs : list (Z * PVal)) : string :=
  match get k vs with Some (VStr s) => s | _ => "" end.
Definition get_int (k : Z) (vs : list (Z * PVal)) : Z :=
  match get k vs with Some (VInt z) => z | _ => 0 end.
Definition get_bool (k : Z) (vs : list (Z * PVal)) : bool :=
  match get k vs with Some (VBool b) => b | _ => false end.
Definition get_msg (k : Z) (vs : list (Z * PVal)) : list (Z * PVal) :=
  match get k vs with Some (VMsg fs) => fs | _ => [] end.
Definition get_all (k : Z) (vs : list (Z * PVal)) : list PVal :=
  concat (map (λ kv : Z * PVal, if kv.1 =? k then [kv.2] else []) vs).

Definition of_MerkleCommitment (vs : list (Z * PVal)) : MerkleCommitmentWire := {|
  mcw_root := get_str 1 vs;
  mcw_leaf_count := get_int 2 vs |}.

Definition of_NodeCapabilitySet (vs : list (Z * PVal)) : NodeCapabilitySetWire := {|
  ncw_collect := get_bool 1 vs;
  ncw_store := get_bool 2 vs;
  ncw_verify := get_bool 3 vs;
  ncw_propose := get_bool 4 vs |}.

Definition of_Params (vs : list (Z * PVal)) : ParamsWire := {|
  pmw_reward_block_duration_seconds := get_int 1 vs;
  pmw_base_hourly_reward := get_int 2 vs;
  pmw_target_network_weight_units := get_int 3 vs;
  pmw_reward_adjustment_cap_bps := get_int 4 vs;
  pmw_challenge_window_blocks := get_int 5 vs;
  pmw_min_retention_epochs := get_int 6 vs;
  pmw_player_reward_allocation_bps := get_int 7 vs;
  pmw_service_reward_allocation_bps := get_int 8 vs;
  pmw_collect_reward_bps := get_int 9 vs;
  pmw_store_reward_bps := get_int 10 vs;
  pmw_verify_reward_bps := get_int 11 vs;
  pmw_propose_reward_bps := get_int 12 vs;
  pmw_tier1_weight_ppm := get_int 13 vs;
  pmw_tier2_weight_min_ppm := get_int 14 vs;
  pmw_tier2_weight_max_ppm := get_int 15 vs;
  pmw_tier3_weight_min_ppm := get_int 16 vs;
  pmw_tier3_weight_max_ppm := get_int 17 vs;
  pmw_fee_burn_bps := get_int 18 vs;
  pmw_reward_burn_threshold := get_int 19 vs;
  pmw_reward_burn_bps := get_int 20 vs;
  pmw_governance_burn_bps := get_int 21 vs;
  pmw_min_verification_count := get_int 22 vs;
  pmw_min_player_verifier_share_bps := get_int 23 vs;
  pmw_min_witness_count := get_int 24 vs;
  pmw_min_witness_observation_tolerance_ppm := get_int 25 vs;
  pmw_min_distinct_observations := get_int 26 vs;
  pmw_session_slash_bps := get_int 27 vs;
  pmw_min_heartbeat_count := get_int 28 vs;
  pmw_heartbeat_bucket_seconds := get_int 29 vs;
  pmw_min_heartbeat_coverage_bps := get_int 30 vs;
  pmw_challenge_bond_burn_bps := get_int 31 vs |}.

Definition of_BatchCommit (vs : list (Z * PVal)) : BatchCommitWire := {|
  bcw_epoch_id := get_int 1 vs;
  bcw_collector_address := get_str 2 vs;
  bcw_slot_start := get_int 3 vs;
  bcw_slot_end := get_int 4 vs;
  bcw_batch := of_MerkleCommitment (get_msg 5 vs);
  bcw_payload_cid := get_str 6 vs;
  bcw_observation_count := get_int 7 vs;
  bcw_submitted_at_height := get_int 8 vs |}.

Definition of_RewardRecord (vs : list (Z * PVal)) : RewardRecordWire := {|
  rww_epoch_id := get_int 1 vs;
  rww_recipient := get_str 2 vs;
  rww_player_reward := get_int 3 vs;
  rww_collect_reward := get_int 4 vs;
  rww_store_reward := get_int 5 vs;
  rww_verify_reward := get_int 6 vs;
  rww_propose_reward := get_int 7 vs;
  rww_slash_debit := get_int 8 vs;
  rww_net_reward := get_int 9 vs |}.

Definition of_AggregateRecord (vs : list (Z * PVal)) : AggregateRecordWire := {|
  agw_epoch_id := get_int 1 vs;
  agw_app_id := get_int 2 vs;
  agw_total_weight_units := get_int 3 vs;
  agw_player_count := get_int 4 vs |}.

Definition of_EpochCommit (vs : list (Z * PVal)) : EpochCommitWire := {|
  ecw_epoch_id := get_int 1 vs;
  ecw_accepted_batches := of_MerkleCommitment (get_msg 2 vs);
  ecw_observations := of_MerkleCommitment (get_msg 3 vs);
  ecw_aggregates := of_MerkleCommitment (get_msg 4 vs);
  ecw_rewards := of_MerkleCommitment (get_msg 5 vs);
  ecw_availability := of_MerkleCommitment (get_msg 6 vs);
  ecw_randomness_seed_hex := get_str 7 vs;
  ecw_proposer_address := get_str 8 vs;
  ecw_challenge_open_height := get_int 9 vs;
  ecw_challenge_deadline_height := get_int 10 vs;
  ecw_finalized := get_bool 11 vs;
  ecw_total_network_weight_units := get_int 12 vs |}.

Definition of_GameWeightEntry (vs : list (Z * PVal)) : GameWeightEntryWire := {|
  gww_app_id := get_int 1 vs;
  gww_game_weight_ppm := get_int 2 vs;
  gww_tier := get_str 3 vs;
  gww_effective_from_epoch_id := get_int 4 vs |}.

Definition of_ReplicaReceipt (vs : list (Z * PVal)) : ReplicaReceiptWire := {|
  rcw_epoch_id := get_int 1 vs;
  rcw_payload_cid := get_str 2 vs;
  rcw_storer_address := get_str 3 vs;
  rcw_retention_until_epoch := get_int 4 vs;
  rcw_receipt_signature := get_str 5 vs;
  rcw_receipt_hash_hex := get_str 6 vs |}.

Definition of_PlaySession (vs : list (Z * PVal)) : PlaySessionWire := {|
  psw_session_id_hex := get_str 1 vs;
  psw_node_address := get_str 2 vs;
  psw_app_id := get_int 3 vs;
  psw_epoch_id := get_int 4 vs;
  psw_slot_id := get_int 5 vs;
  psw_play_seconds := get_int 6 vs;
  psw_collector_address := get_str 7 vs;
  psw_observation_cid := get_str 8 vs;
  psw_observed_players := get_int 9 vs;
  psw_submitted_at_height := get_int 10 vs;
  psw_session_signature := get_str 11 vs |}.

Definition of_PlayHeartbeat (vs : list (Z * PVal)) : PlayHeartbeatWire := {|
  phw_session_id_hex := get_str 1 vs;
  phw_node_address := get_str 2 vs;
  phw_bucket_index := get_int 3 vs;
  phw_signed_at_millis := get_int 4 vs;
  phw_heartbeat_signature := get_str 5 vs |}.

Definition of_WitnessAttestation (vs : list (Z * PVal)) : WitnessAttestationWire := {|
  waw_session_id_hex := get_str 1 vs;
  waw_witness_address := get_str 2 vs;
  waw_observed_play_seconds := get_int 3 vs;
  waw_witness_observation_cid := get_str 4 vs;
  waw_observed_players := get_int 5 vs;
  waw_attested_at_height := get_int 6 vs;
  waw_witness_signature := get_str 7 vs |}.

Definition role_of_proto (z : Z) : option NodeRoleWire :=
  if z =? 1 then Some RolePlayer else if z =? 2 then Some RoleService
  else if z =? 3 then Some RoleCoordinator else None.

Definition of_NodeRecord (vs : list (Z * PVal)) : option NodeRecordWire :=
  match role_of_proto (get_int 4 vs) with
  | Some role => Some {|
      nrw_operator_address := get_str 1 vs;
      nrw_reward_address := get_str 2 vs;
      nrw_consensus_address := get_str 3 vs;
      nrw_role := role;
      nrw_capabilities := of_NodeCapabilitySet (get_msg 5 vs);
      nrw_active := get_bool 6 vs;
      nrw_bonded_tokens := get_int 7 vs;
      nrw_last_updated_epoch := get_int 8 vs;
      nrw_is_player := get_bool 9 vs |}
  | None => None
  end.

(** [ChallengeEvidenceRef] and [Challenge] of state.proto *)
Record EvidenceProto := {
  ep_batch_root_hex : string;
  ep_aggregate_root_hex : string;
  ep_reward_root_hex : string;
  ep_payload_cid : string;
  ep_merkle_proof_hex : list string;
  ep_aggregate_app_id : Z;
}.

Record ChallengeProto := {
  cp_challenge_id_hex : string;
  cp_kind : Z;
  cp_epoch_id : Z;
  cp_target_address : string;
  cp_challenger : string;
  cp_bond_amount : Z;
  cp_opened_at_height : Z;
  cp_deadline_height : Z;
  cp_state : Z;
  cp_evidence : EvidenceProto;
  cp_slash_amount : Z;
  cp_challenger_reward : Z;
  cp_resolution_summary : string;
  cp_target_cons_address : string;
}.

Definition of_Evidence (vs : list (Z * PVal)) : EvidenceProto := {|
  ep_batch_root_hex := get_str 1 vs;
  ep_aggregate_root_hex := get_str 2 vs;
  ep_reward_root_hex := get_str 3 vs;
  ep_payload_cid := get_str 4 vs;
  ep_merkle_proof_hex := (λ v, match v with VStr s => s | _ => "" end) <$> get_all 5 vs;
  ep_aggregate_app_id := get_int 6 vs |}.

Definition of_Challenge (vs : list (Z * PVal)) : ChallengeProto := {|
  cp_challenge_id_hex := get_str 1 vs;
  cp_kind := get_int 2 vs;
  cp_epoch_id := get_int 3 vs;
  cp_target_address := get_str 4 vs;
  cp_challenger := get_str 5 vs;
  cp_bond_amount := get_int 6 vs;
  cp_opened_at_height := get_int 7 vs;
  cp_deadline_height := get_int 8 vs;
  cp_state := get_int 9 vs;
  cp_evidence := of_Evidence (get_msg 10 vs);
  cp_slash_amount := get_int 11 vs;
  cp_challenger_reward := get_int 12 vs;
  cp_resolution_summary := get_str 13 vs;
  cp_target_cons_address := get_str 14 vs |}.

(** ** The messages as the handlers receive them *)

Inductive ChainMsg :=
| CFinalizeEpoch (finalizer : string) (epoch_id : Z)
| CClaimReward (claimer : string) (epoch_id : Z) (recipient : string)
| COpenChallenge (challenger : string) (challenge : ChallengeProto)
| CUpsertNode (operator : string) (node : NodeRecordWire)
| CUpsertAggregateRecord (operator : string) (aggregate_record : AggregateRecordWire)
| CSubmitBatch (collector : string) (batch_commit : BatchCommitWire)
| CSubmitReplicaReceipt (storer : string) (replica_receipt : ReplicaReceiptWire)
| CCommitEpoch (proposer : string) (epoch_commit : EpochCommitWire)
| CResolveChallenge (resolver challenge_id_hex : string) (slash_amount challenger_reward : Z)
    (resolution_summary : string) (final_state slash_fraction_bps : Z) (jail_validator : bool)
| CUpsertGameWeight (authority : string) (entry : GameWeightEntryWire)
| CUpdateParams (authority : string) (params : ParamsWire)
| CVerifyBatch (verifier : string) (epoch_id : Z) (target_batch_root_hex target_collector : string)
    (is_player verified : bool) (signature_hex : string)
| CSubmitPlaySession (node_address : string) (session : PlaySessionWire)
| CSubmitPlayHeartbeat (node_address : string) (heartbeat : PlayHeartbeatWire)
| CAttestSession (witness : string) (attestation : WitnessAttestationWire)
| CSettleSession (settler session_id_hex : string)
| CSubmitRewardRecords (proposer : string) (epoch_id : Z) (records : list RewardRecordWire)
| CActivityBurn (sender : string) (amount : Z) (activity_id burn_type memo : string).

(** One reader per route. *)
Definition msg_readers : list (string * (list (Z * PVal) → option ChainMsg)) := [
  ("/pole.chain.pole.v1.MsgFinalizeEpoch", λ vs,
    Some (CFinalizeEpoch (get_str 1 vs) (get_int 2 vs)));
  ("/pole.chain.pole.v1.MsgClaimReward", λ vs,
    Some (CClaimReward (get_str 1 vs) (get_int 2 vs) (get_str 3 vs)));
  ("/pole.chain.pole.v1.MsgOpenChallenge", λ vs,
    Some (COpenChallenge (get_str 1 vs) (of_Challenge (get_msg 2 vs))));
  ("/pole.chain.pole.v1.MsgUpsertNode", λ vs,
    CUpsertNode (get_str 1 vs) <$> of_NodeRecord (get_msg 2 vs));
  ("/pole.chain.pole.v1.MsgUpsertAggregateRecord", λ vs,
    Some (CUpsertAggregateRecord (get_str 1 vs) (of_AggregateRecord (get_msg 2 vs))));
  ("/pole.chain.pole.v1.MsgSubmitBatch", λ vs,
    Some (CSubmitBatch (get_str 1 vs) (of_BatchCommit (get_msg 2 vs))));
  ("/pole.chain.pole.v1.MsgSubmitReplicaReceipt", λ vs,
    Some (CSubmitReplicaReceipt (get_str 1 vs) (of_ReplicaReceipt (get_msg 2 vs))));
  ("/pole.chain.pole.v1.MsgCommitEpoch", λ vs,
    Some (CCommitEpoch (get_str 1 vs) (of_EpochCommit (get_msg 2 vs))));
  ("/pole.chain.pole.v1.MsgResolveChallenge", λ vs,
    Some (CResolveChallenge (get_str 1 vs) (get_str 2 vs) (get_int 3 vs) (get_int 4 vs)
      (get_str 5 vs) (get_int 6 vs) (get_int 7 vs) (get_bool 8 vs)));
  ("/pole.chain.pole.v1.MsgUpsertGameWeight", λ vs,
    Some (CUpsertGameWeight (get_str 1 vs) (of_GameWeightEntry (get_msg 2 vs))));
  ("/pole.chain.pole.v1.MsgUpdateParams", λ vs,
    Some (CUpdateParams (get_str 1 vs) (of_Params (get_msg 2 vs))));
  ("/pole.chain.pole.v1.MsgVerifyBatch", λ vs,
    Some (CVerifyBatch (get_str 1 vs) (get_int 2 vs) (get_str 3 vs) (get_str 4 vs)
      (get_bool 5 vs) (get_bool 6 vs) (get_str 7 vs)));
  ("/pole.chain.pole.v1.MsgSubmitPlaySession", λ vs,
    Some (CSubmitPlaySession (get_str 1 vs) (of_PlaySession (get_msg 2 vs))));
  ("/pole.chain.pole.v1.MsgSubmitPlayHeartbeat", λ vs,
    Some (CSubmitPlayHeartbeat (get_str 1 vs) (of_PlayHeartbeat (get_msg 2 vs))));
  ("/pole.chain.pole.v1.MsgAttestSession", λ vs,
    Some (CAttestSession (get_str 1 vs) (of_WitnessAttestation (get_msg 2 vs))));
  ("/pole.chain.pole.v1.MsgSettleSession", λ vs,
    Some (CSettleSession (get_str 1 vs) (get_str 2 vs)));
  ("/pole.chain.pole.v1.MsgSubmitRewardRecords", λ vs,
    Some (CSubmitRewardRecords (get_str 1 vs) (get_int 2 vs)
      ((λ v, of_RewardRecord (match v with VMsg fs => fs | _ => [] end)) <$> get_all 3 vs)));
  ("/pole.chain.pole.v1.MsgActivityBurn", λ vs,
    Some (CActivityBurn (get_str 1 vs) (get_int 2 vs) (get_str 3 vs) (get_str 4 vs)
      (get_str 5 vs)))].

Definition msg_reader (url : string) : option (list (Z * PVal) → option ChainMsg) :=
  (λ x, x.2.2) <$>
    list_find (λ ur : string * (list (Z * PVal) → option ChainMsg), ur.1 = url) msg_readers.

Definition chain_decode (a : Any) : option ChainMsg :=
  match msg_schema (type_url a), msg_reader (type_url a) with
  | Some s, Some read =>
      match decode_message s (value a) with Some vs => read vs | None => None end
  | _, _ => None
  end.

(** ** Values of the messages *)

Definition fields_MerkleCommitment (r : MerkleCommitmentWire) : list (Z * PVal) := [
  (1, VStr (mcw_root r));
  (2, VInt (mcw_leaf_count r))].

Definition fields_NodeCapabilitySet (r : NodeCapabilitySetWire) : list (Z * PVal) := [
  (1, VBool (ncw_collect r));
  (2, VBool (ncw_store r));
  (3, VBool (ncw_verify r));
  (4, VBool (ncw_propose r))].

Definition fields_NodeRecord (r : NodeRecordWire) : list (Z * PVal) := [
  (1, VStr (nrw_operator_address r));
  (2, VStr (nrw_reward_address r));
  (3, VStr (nrw_consensus_address r));
  (4, VInt (node_role_to_proto (nrw_role r)));
  (5, VMsg (fields_NodeCapabilitySet (nrw_capabilities r)));
  (6, VBool (nrw_active r));
  (7, VInt (nrw_bonded_tokens r));
  (8, VInt (nrw_last_updated_epoch r));
  (9, VBool (nrw_is_player r))].

Definition fields_Params (r : ParamsWire) : list (Z * PVal) := [
  (1, VInt (pmw_reward_block_duration_seconds r));
  (2, VInt (pmw_base_hourly_reward r));
  (3, VInt (pmw_target_network_weight_units r));
  (4, VInt (pmw_reward_adjustment_cap_bps r));
  (5, VInt (pmw_challenge_window_blocks r));
  (6, VInt (pmw_min_retention_epochs r));
  (7, VInt (pmw_player_reward_allocation_bps r));
  (8, VInt (pmw_service_reward_allocation_bps r));
  (9, VInt (pmw_collect_reward_bps r));
  (10, VInt (pmw_store_reward_bps r));
  (11, VInt (pmw_verify_reward_bps r));
  (12, VInt (pmw_propose_reward_bps r));
  (13, VInt (pmw_tier1_weight_ppm r));
  (14, VInt (pmw_tier2_weight_min_ppm r));
  (15, VInt (pmw_tier2_weight_max_ppm r));
  (16, VInt (pmw_tier3_weight_min_ppm r));
  (17, VInt (pmw_tier3_weight_max_ppm r));
  (18, VInt (pmw_fee_burn_bps r));
  (19, VInt (pmw_reward_burn_threshold r));
  (20, VInt (pmw_reward_burn_bps r));
  (21, VInt (pmw_governance_burn_bps r));
  (22, VInt (pmw_min_verification_count r));
  (23, VInt (pmw_min_player_verifier_share_bps r));
  (24, VInt (pmw_min_witness_count r));
  (25, VInt (pmw_min_witness_observation_tolerance_ppm r));
  (26, VInt (pmw_min_distinct_observations r));
  (27, VInt (pmw_session_slash_bps r));
  (28, VInt (pmw_min_heartbeat_count r));
  (29, VInt (pmw_heartbeat_bucket_seconds r));
  (30, VInt (pmw_min_heartbeat_coverage_bps r));
  (31, VInt (pmw_challenge_bond_burn_bps r))].

Definition fields_BatchCommit (r : BatchCommitWire) : list (Z * PVal) := [
  (1, VInt (bcw_epoch_id r));
  (2, VStr (bcw_collector_address r));
  (3, VInt (bcw_slot_start r));
  (4, VInt (bcw_slot_end r));
  (5, VMsg (fields_MerkleCommitment (bcw_batch r)));
  (6, VStr (bcw_payload_cid r));
  (7, VInt (bcw_observation_count r));
  (8, VInt (bcw_submitted_at_height r))].

Definition fields_RewardRecord (r : RewardRecordWire) : list (Z * PVal) := [
  (1, VInt (rww_epoch_id r));
  (2, VStr (rww_recipient r));
  (3, VInt (rww_player_reward r));
  (4, VInt (rww_collect_reward r));
  (5, VInt (rww_store_reward r));
  (6, VInt (rww_verify_reward r));
  (7, VInt (rww_propose_reward r));
  (8, VInt (rww_slash_debit r));
  (9, VInt (rww_net_reward r))].

Definition fields_AggregateRecord (r : AggregateRecordWire) : list (Z * PVal) := [
  (1, VInt (agw_epoch_id r));
  (2, VInt (agw_app_id r));
  (3, VInt (agw_total_weight_units r));
  (4, VInt (agw_player_count r))].

Definition fields_EpochCommit (r : EpochCommitWire) : list (Z * PVal) := [
  (1, VInt (ecw_epoch_id r));
  (2, VMsg (fields_MerkleCommitment (ecw_accepted_batches r)));
  (3, VMsg (fields_MerkleCommitment (ecw_observations r)));
  (4, VMsg (fields_MerkleCommitment (ecw_aggregates r)));
  (5, VMsg (fields_MerkleCommitment (ecw_rewards r)));
  (6, VMsg (fields_MerkleCommitment (ecw_availability r)));
  (7, VStr (ecw_randomness_seed_hex r));
  (8, VStr (ecw_proposer_address r));
  (9, VInt (ecw_challenge_open_height r));
  (10, VInt (ecw_challenge_deadline_height r));
  (11, VBool (ecw_finalized r));
  (12, VInt (ecw_total_network_weight_units r))].

Definition fields_GameWeightEntry (r : GameWeightEntryWire) : list (Z * PVal) := [
  (1, VInt (gww_app_id r));
  (2, VInt (gww_game_weight_ppm r));
  (3, VStr (gww_tier r));
  (4, VInt (gww_effective_from_epoch_id r))].

Definition fields_ReplicaReceipt (r : ReplicaReceiptWire) : list (Z * PVal) := [
  (1, VInt (rcw_epoch_id r));
  (2, VStr (rcw_payload_cid r));
  (3, VStr (rcw_storer_address r));
  (4, VInt (rcw_retention_until_epoch r));
  (5, VStr (rcw_receipt_signature r));
  (6, VStr (rcw_receipt_hash_hex r))].

Definition fields_PlaySession (r : PlaySessionWire) : list (Z * PVal) := [
  (1, VStr (psw_session_id_hex r));
  (2, VStr (psw_node_address r));
  (3, VInt (psw_app_id r));
  (4, VInt (psw_epoch_id r));
  (5, VInt (psw_slot_id r));
  (6, VInt (psw_play_seconds r));
  (7, VStr (psw_collector_address r));
  (8, VStr (psw_observation_cid r));
  (9, VInt (psw_observed_players r));
  (10, VInt (psw_submitted_at_height r));
  (11, VStr (psw_session_signature r))].

Definition fields_PlayHeartbeat (r : PlayHeartbeatWire) : list (Z * PVal) := [
  (1, VStr (phw_session_id_hex r));
  (2, VStr (phw_node_address r));
  (3, VInt (phw_bucket_index r));
  (4, VInt (phw_signed_at_millis r));
  (5, VStr (phw_heartbeat_signature r))].

Definition fields_WitnessAttestation (r : WitnessAttestationWire) : list (Z * PVal) := [
  (1, VStr (waw_session_id_hex r));
  (2, VStr (waw_witness_address r));
  (3, VInt (waw_observed_play_seconds r));
  (4, VStr (waw_witness_observation_cid r));
  (5, VInt (waw_observed_players r));
  (6, VInt (waw_attested_at_height r));
  (7, VStr (waw_witness_signature r))].

