(* ===== verification/PoleCodec.v ===== *)
(** * The messages of the bridge reach the chain: pole_msgs.rs against the proto types

    [to_any_typed]: what is written is a message of the type its route names, with
    every declared field present exactly once. [chain_reads_message]: the chain reads
    the message that was meant, up to the two projections that the encoder makes of a
    challenge (its bond cut to 64 bits, its state to the three states of the chain). *)
From S2P Require Import Prelude Primitives Params Records Crypto Text CosmosAddress ProtoWire PoleMsgs PoleSchema.
Local Open Scope pole_scope.
Local Open Scope string_scope.
Local Open Scope Z_scope.

(** ** The ranges of the Rust types *)

Definition u32 (z : Z) : Prop := 0 <= z < 2 ^ 32.
Definition u64 (z : Z) : Prop := 0 <= z < 2 ^ 64.
Definition i64 (z : Z) : Prop := - 2 ^ 63 <= z < 2 ^ 63.

Definition in_range_MerkleCommitmentWire (r : MerkleCommitmentWire) : Prop :=
  u32 (mcw_leaf_count r).

Definition in_range_NodeRecordWire (r : NodeRecordWire) : Prop :=
  u64 (nrw_bonded_tokens r) ∧
  u64 (nrw_last_updated_epoch r).

Definition in_range_AggregateRecordWire (r : AggregateRecordWire) : Prop :=
  u64 (agw_epoch_id r) ∧
  u32 (agw_app_id r) ∧
  u64 (agw_total_weight_units r) ∧
  u64 (agw_player_count r).

Definition in_range_BatchCommitWire (r : BatchCommitWire) : Prop :=
  u64 (bcw_epoch_id r) ∧
  u64 (bcw_slot_start r) ∧
  u64 (bcw_slot_end r) ∧
  in_range_MerkleCommitmentWire (bcw_batch r) ∧
  u32 (bcw_observation_count r) ∧
  i64 (bcw_submitted_at_height r).

Definition in_range_PlaySessionWire (r : PlaySessionWire) : Prop :=
  u32 (psw_app_id r) ∧
  u64 (psw_epoch_id r) ∧
  u64 (psw_slot_id r) ∧
  u64 (psw_play_seconds r) ∧
  u64 (psw_observed_players r) ∧
  i64 (psw_submitted_at_height r).

Definition in_range_PlayHeartbeatWire (r : PlayHeartbeatWire) : Prop :=
  u64 (phw_bucket_index r) ∧
  i64 (phw_signed_at_millis r).

Definition in_range_WitnessAttestationWire (r : WitnessAttestationWire) : Prop :=
  u64 (waw_observed_play_seconds r) ∧
  u64 (waw_observed_players r) ∧
  i64 (waw_attested_at_height r).

Definition in_range_RewardRecordWire (r : RewardRecordWire) : Prop :=
  u64 (rww_epoch_id r) ∧
  u64 (rww_player_reward r) ∧
  u64 (rww_collect_reward r) ∧
  u64 (rww_store_reward r) ∧
  u64 (rww_verify_reward r) ∧
  u64 (rww_propose_reward r) ∧
  u64 (rww_slash_debit r) ∧
  u64 (rww_net_reward r).

Definition in_range_ReplicaReceiptWire (r : ReplicaReceiptWire) : Prop :=
  u64 (rcw_epoch_id r) ∧
  u64 (rcw_retention_until_epoch r).

Definition in_range_EpochCommitWire (r : EpochCommitWire) : Prop :=
  u64 (ecw_epoch_id r) ∧
  in_range_MerkleCommitmentWire (ecw_accepted_batches r) ∧
  in_range_MerkleCommitmentWire (ecw_observations r) ∧
  in_range_MerkleCommitmentWire (ecw_aggregates r) ∧
  in_range_MerkleCommitmentWire (ecw_rewards r) ∧
  in_range_MerkleCommitmentWire (ecw_availability r) ∧
  i64 (ecw_challenge_open_height r) ∧
  i64 (ecw_challenge_deadline_height r) ∧
  u64 (ecw_total_network_weight_units r).

Definition in_range_GameWeightEntryWire (r : GameWeightEntryWire) : Prop :=
  u32 (gww_app_id r) ∧
  u32 (gww_game_weight_ppm r) ∧
  u64 (gww_effective_from_epoch_id r).

Definition in_range_ParamsWire (r : ParamsWire) : Prop :=
  u64 (pmw_reward_block_duration_seconds r) ∧
  u64 (pmw_base_hourly_reward r) ∧
  u64 (pmw_target_network_weight_units r) ∧
  u32 (pmw_reward_adjustment_cap_bps r) ∧
  u64 (pmw_challenge_window_blocks r) ∧
  u64 (pmw_min_retention_epochs r) ∧
  u32 (pmw_player_reward_allocation_bps r) ∧
  u32 (pmw_service_reward_allocation_bps r) ∧
  u32 (pmw_collect_reward_bps r) ∧
  u32 (pmw_store_reward_bps r) ∧
  u32 (pmw_verify_reward_bps r) ∧
  u32 (pmw_propose_reward_bps r) ∧
  u32 (pmw_tier1_weight_ppm r) ∧
  u32 (pmw_tier2_weight_min_ppm r) ∧
  u32 (pmw_tier2_weight_max_ppm r) ∧
  u32 (pmw_tier3_weight_min_ppm r) ∧
  u32 (pmw_tier3_weight_max_ppm r) ∧
  u32 (pmw_fee_burn_bps r) ∧
  u64 (pmw_reward_burn_threshold r) ∧
  u32 (pmw_reward_burn_bps r) ∧
  u32 (pmw_governance_burn_bps r) ∧
  u64 (pmw_min_verification_count r) ∧
  u32 (pmw_min_player_verifier_share_bps r) ∧
  u64 (pmw_min_witness_count r) ∧
  u32 (pmw_min_witness_observation_tolerance_ppm r) ∧
  u64 (pmw_min_distinct_observations r) ∧
  u32 (pmw_session_slash_bps r) ∧
  u64 (pmw_min_heartbeat_count r) ∧
  u64 (pmw_heartbeat_bucket_seconds r) ∧
  u32 (pmw_min_heartbeat_coverage_bps r) ∧
  u32 (pmw_challenge_bond_burn_bps r).

Definition in_range_Challenge (c : Challenge) : Prop :=
  u64 (ch_epoch_id c) ∧ u64 (opened_at_height c) ∧ u64 (deadline_height c).

Definition message_in_range (m : BridgeMessage) : Prop :=
  match m with
  | BFinalizeEpoch _ epoch_id | BClaimReward _ epoch_id _ | BVerifyBatch _ epoch_id _ _ _ _ _ =>
      u64 epoch_id
  | BOpenChallenge _ c => in_range_Challenge c
  | BUpsertNode _ r => in_range_NodeRecordWire r
  | BUpsertAggregateRecord _ r => in_range_AggregateRecordWire r
  | BSubmitBatch _ r => in_range_BatchCommitWire r
  | BSubmitReplicaReceipt _ r => in_range_ReplicaReceiptWire r
  | BCommitEpoch _ r => in_range_EpochCommitWire r
  | BResolveChallenge _ _ slash reward _ _ bps _ => u64 slash ∧ u64 reward ∧ u32 bps
  | BUpsertGameWeight _ r => in_range_GameWeightEntryWire r
  | BUpdateParams _ r => in_range_ParamsWire r
  | BSubmitPlaySession _ r => in_range_PlaySessionWire r
  | BSubmitPlayHeartbeat _ r => in_range_PlayHeartbeatWire r
  | BAttestSession _ r => in_range_WitnessAttestationWire r
  | BSubmitRewardRecords _ epoch_id rs => u64 epoch_id ∧ Forall in_range_RewardRecordWire rs
  | BSettleSession _ _ | BUnsupported _ _ => True
  end.

(** ** The message the chain is meant to read *)

Section View.
Context `{External}.

Definition evidence_view (ev : ChallengeEvidenceRef) : EvidenceProto := {|
  ep_batch_root_hex := hex_or_empty (ev_batch_root ev);
  ep_aggregate_root_hex := hex_or_empty (aggregate_root ev);
  ep_reward_root_hex := hex_or_empty (reward_root ev);
  ep_payload_cid := default "" (ev_payload_cid ev);
  ep_merkle_proof_hex := hex_encode <$> ev_merkle_proof ev;
  ep_aggregate_app_id := 0 |}.

Definition challenge_view (who : string) (c : Challenge) : ChallengeProto := {|
  cp_challenge_id_hex := hex_encode (ch_challenge_id c);
  cp_kind := challenge_kind_to_proto (ch_kind c);
  cp_epoch_id := ch_epoch_id c;
  cp_target_address := hex_or_empty (target_node c);
  cp_challenger := who;
  cp_bond_amount := ch_bond c mod 2 ^ 64;
  cp_opened_at_height := signed 64 (opened_at_height c);
  cp_deadline_height := signed 64 (deadline_height c);
  cp_state := challenge_state_to_proto (ch_state c);
  cp_evidence := evidence_view (evidence c);
  cp_slash_amount := 0; cp_challenger_reward := 0;
  cp_resolution_summary := ""; cp_target_cons_address := "" |}.

Definition chain_view (m : BridgeMessage) : option ChainMsg :=
  match m with
  | BFinalizeEpoch a e => Some (CFinalizeEpoch (ca_bech32 a) e)
  | BClaimReward a e r => Some (CClaimReward (ca_bech32 a) e (ca_bech32 r))
  | BOpenChallenge a c => Some (COpenChallenge (ca_bech32 a) (challenge_view (ca_bech32 a) c))
  | BUpsertNode a r => Some (CUpsertNode (ca_bech32 a) r)
  | BUpsertAggregateRecord a r => Some (CUpsertAggregateRecord (ca_bech32 a) r)
  | BSubmitBatch a r => Some (CSubmitBatch (ca_bech32 a) r)
  | BSubmitReplicaReceipt a r => Some (CSubmitReplicaReceipt (ca_bech32 a) r)
  | BCommitEpoch a r => Some (CCommitEpoch (ca_bech32 a) r)
  | BResolveChallenge a id slash reward summary st bps jail =>
      Some (CResolveChallenge (ca_bech32 a) id slash reward summary
        (challenge_state_to_proto st) bps jail)
  | BUpsertGameWeight a r => Some (CUpsertGameWeight (ca_bech32 a) r)
  | BUpdateParams a r => Some (CUpdateParams (ca_bech32 a) r)
  | BVerifyBatch a e root c p v s => Some (CVerifyBatch (ca_bech32 a) e root (ca_bech32 c) p v s)
  | BUnsupported _ _ => None
  | BSubmitPlaySession a r => Some (CSubmitPlaySession (ca_bech32 a) r)
  | BSubmitPlayHeartbeat a r => Some (CSubmitPlayHeartbeat (ca_bech32 a) r)
  | BAttestSession a r => Some (CAttestSession (ca_bech32 a) r)
  | BSettleSession a id => Some (CSettleSession (ca_bech32 a) id)
  | BSubmitRewardRecords a e rs => Some (CSubmitRewardRecords (ca_bech32 a) e rs)
  end.

(** ** The values that are written *)

Definition fields_Evidence (ev : ChallengeEvidenceRef) : list (Z * PVal) :=
  [(1, VStr (hex_or_empty (ev_batch_root ev)));
   (2, VStr (hex_or_empty (aggregate_root ev)));
   (3, VStr (hex_or_empty (reward_root ev)));
   (4, VStr (default "" (ev_payload_cid ev)))]
  ++ ((λ h, (5, VStr (hex_encode h))) <$> ev_merkle_proof ev)
  ++ [(6, VInt 0)].

Definition fields_Challenge (who : string) (c : Challenge) : list (Z * PVal) := [
  (1, VStr (hex_encode (ch_challenge_id c)));
  (2, VInt (challenge_kind_to_proto (ch_kind c)));
  (3, VInt (ch_epoch_id c));
  (4, VStr (hex_or_empty (target_node c)));
  (5, VStr who);
  (6, VInt (ch_bond c mod 2 ^ 64));
  (7, VInt (signed 64 (opened_at_height c)));
  (8, VInt (signed 64 (deadline_height c)));
  (9, VInt (challenge_state_to_proto (ch_state c)));
  (10, VMsg (fields_Evidence (evidence c)));
  (11, VInt 0); (12, VInt 0); (13, VStr ""); (14, VStr "")].

Definition fields_of (m : BridgeMessage) : list (Z * PVal) :=
  match m with
  | BFinalizeEpoch a e => [(1, VStr (ca_bech32 a)); (2, VInt e)]
  | BClaimReward a e r => [(1, VStr (ca_bech32 a)); (2, VInt e); (3, VStr (ca_bech32 r))]
  | BOpenChallenge a c =>
      [(1, VStr (ca_bech32 a)); (2, VMsg (fields_Challenge (ca_bech32 a) c))]
  | BUpsertNode a r => [(1, VStr (ca_bech32 a)); (2, VMsg (fields_NodeRecord r))]
  | BUpsertAggregateRecord a r => [(1, VStr (ca_bech32 a)); (2, VMsg (fields_AggregateRecord r))]
  | BSubmitBatch a r => [(1, VStr (ca_bech32 a)); (2, VMsg (fields_BatchCommit r))]
  | BSubmitReplicaReceipt a r => [(1, VStr (ca_bech32 a)); (2, VMsg (fields_ReplicaReceipt r))]
  | BCommitEpoch a r => [(1, VStr (ca_bech32 a)); (2, VMsg (fields_EpochCommit r))]
  | BResolveChallenge a id slash reward summary st bps jail =>
      [(1, VStr (ca_bech32 a)); (2, VStr id); (3, VInt slash); (4, VInt reward);
       (5, VStr summary); (6, VInt (challenge_state_to_proto st)); (7, VInt bps); (8, VBool jail)]
  | BUpsertGameWeight a r => [(1, VStr (ca_bech32 a)); (2, VMsg (fields_GameWeightEntry r))]
  | BUpdateParams a r => [(1, VStr (ca_bech32 a)); (2, VMsg (fields_Params r))]
  | BVerifyBatch a e root c p v s =>
      [(1, VStr (ca_bech32 a)); (2, VInt e); (3, VStr root); (4, VStr (ca_bech32 c));
       (5, VBool p); (6, VBool v); (7, VStr s)]
  | BUnsupported _ _ => []
  | BSubmitPlaySession a r => [(1, VStr (ca_bech32 a)); (2, VMsg (fields_PlaySession r))]
  | BSubmitPlayHeartbeat a r => [(1, VStr (ca_bech32 a)); (2, VMsg (fields_PlayHeartbeat r))]
  | BAttestSession a r => [(1, VStr (ca_bech32 a)); (2, VMsg (fields_WitnessAttestation r))]
  | BSettleSession a id => [(1, VStr (ca_bech32 a)); (2, VStr id)]
  | BSubmitRewardRecords a e rs =>
      [(1, VStr (ca_bech32 a)); (2, VInt e)] ++ ((λ r, (3, VMsg (fields_RewardRecord r))) <$> rs)
  end.
End View.

(** * Lemmas *)

(** ** Each encoder writes one field *)

Section Emit.
Implicit Types (vs : list (Z * PVal)).

Lemma message_bytes_snoc vs n v :
  message_bytes (vs ++ [(n, v)]) = put_field (wire n v) (message_bytes vs).
Proof.
  unfold message_bytes. rewrite map_app, concat_app. cbn [map concat fst snd].
  by rewrite app_nil_r, <- put_field_app.
Qed.

Lemma emit_string vs n s :
  encode_string n s (message_bytes vs) = message_bytes (vs ++ [(n, VStr s)]).
Proof. by rewrite message_bytes_snoc. Qed.

Lemma emit_uint64 vs n z : u64 z →
  encode_uint64 n z (message_bytes vs) = message_bytes (vs ++ [(n, VInt z)]).
Proof.
  intros Hz. rewrite message_bytes_snoc. cbn [wire put_field].
  by rewrite Z.mod_small by done.
Qed.

Lemma emit_uint32 vs n z : u32 z →
  encode_uint32 n z (message_bytes vs) = message_bytes (vs ++ [(n, VInt z)]).
Proof. intros Hz. apply emit_uint64. unfold u32, u64 in *. lia. Qed.

Lemma emit_int32 vs n z :
  encode_int32 n z (message_bytes vs) = message_bytes (vs ++ [(n, VInt z)]).
Proof. by rewrite message_bytes_snoc. Qed.

Lemma emit_int64 vs n z :
  encode_int64 n z (message_bytes vs) = message_bytes (vs ++ [(n, VInt z)]).
Proof. by rewrite message_bytes_snoc. Qed.

Lemma emit_bool vs n b :
  encode_bool n b (message_bytes vs) = message_bytes (vs ++ [(n, VBool b)]).
Proof. by rewrite message_bytes_snoc. Qed.

Lemma emit_message vs n fs :
  encode_bytes n (message_bytes fs) (message_bytes vs) = message_bytes (vs ++ [(n, VMsg fs)]).
Proof. by rewrite message_bytes_snoc. Qed.
End Emit.

Ltac split_range H :=
  match type of H with ?f _ => unfold f in H end;
  repeat match type of H with
  | _ ∧ _ => let H' := fresh "Hr" in destruct H as [H' H]
  end.

Ltac emit :=
  match goal with
  | |- context [encode_string _ _ (message_bytes _)] => rewrite emit_string
  | |- context [encode_int32 _ _ (message_bytes _)] => rewrite emit_int32
  | |- context [encode_int64 _ _ (message_bytes _)] => rewrite emit_int64
  | |- context [encode_bool _ _ (message_bytes _)] => rewrite emit_bool
  | |- context [encode_bytes _ (message_bytes _) (message_bytes _)] => rewrite emit_message
  | |- context [encode_uint64 _ _ (message_bytes _)] => rewrite emit_uint64 by done
  | |- context [encode_uint32 _ _ (message_bytes _)] => rewrite emit_uint32 by done
  end.

(** A message of singular fields, written from the empty buffer. *)
Ltac emit_all :=
  match goal with
  | |- context [encode_string ?n ?s []] => change (encode_string n s []) with (encode_string n s (message_bytes []))
  | |- context [encode_uint64 ?n ?s []] => change (encode_uint64 n s []) with (encode_uint64 n s (message_bytes []))
  | |- context [encode_uint32 ?n ?s []] => change (encode_uint32 n s []) with (encode_uint32 n s (message_bytes []))
  | |- context [encode_bool ?n ?s []] => change (encode_bool n s []) with (encode_bool n s (message_bytes []))
  end; repeat emit; reflexivity.

Lemma emit_merkle m : in_range_MerkleCommitmentWire m →
  encode_merkle_commitment_inner m = message_bytes (fields_MerkleCommitment m).
Proof. intros Hr. unfold encode_merkle_commitment_inner. emit_all. Qed.

Lemma emit_capabilities c :
  encode_node_capability_set_inner c = message_bytes (fields_NodeCapabilitySet c).
Proof. unfold encode_node_capability_set_inner. emit_all. Qed.

Lemma emit_node r : in_range_NodeRecordWire r →
  encode_node_record_inner r = message_bytes (fields_NodeRecord r).
Proof.
  intros Hr. split_range Hr. unfold encode_node_record_inner. rewrite emit_capabilities. emit_all.
Qed.

Lemma emit_batch r : in_range_BatchCommitWire r →
  encode_batch_commit_inner r = message_bytes (fields_BatchCommit r).
Proof.
  intros Hr. split_range Hr. unfold encode_batch_commit_inner. rewrite emit_merkle by done. emit_all.
Qed.

Lemma emit_epoch r : in_range_EpochCommitWire r →
  encode_epoch_commit_inner r = message_bytes (fields_EpochCommit r).
Proof.
  intros Hr. split_range Hr. unfold encode_epoch_commit_inner. rewrite !emit_merkle by done. emit_all.
Qed.

Lemma emit_aggregate r : in_range_AggregateRecordWire r →
  encode_aggregate_record_inner r = message_bytes (fields_AggregateRecord r).
Proof. intros Hr. split_range Hr. unfold encode_aggregate_record_inner. emit_all. Qed.

Lemma emit_receipt r : in_range_ReplicaReceiptWire r →
  encode_replica_receipt_inner r = message_bytes (fields_ReplicaReceipt r).
Proof. intros Hr. split_range Hr. unfold encode_replica_receipt_inner. emit_all. Qed.

Lemma emit_game_weight r : in_range_GameWeightEntryWire r →
  encode_game_weight_entry_inner r = message_bytes (fields_GameWeightEntry r).
Proof. intros Hr. split_range Hr. unfold encode_game_weight_entry_inner. emit_all. Qed.

Lemma emit_params r : in_range_ParamsWire r →
  encode_params_inner r = message_bytes (fields_Params r).
Proof. intros Hr. split_range Hr. unfold encode_params_inner. emit_all. Qed.

Lemma emit_session r : in_range_PlaySessionWire r →
  encode_play_session_inner r = message_bytes (fields_PlaySession r).
Proof. intros Hr. split_range Hr. unfold encode_play_session_inner. emit_all. Qed.

Lemma emit_heartbeat r : in_range_PlayHeartbeatWire r →
  encode_play_heartbeat_inner r = message_bytes (fields_PlayHeartbeat r).
Proof. intros Hr. split_range Hr. unfold encode_play_heartbeat_inner. emit_all. Qed.

Lemma emit_attestation r : in_range_WitnessAttestationWire r →
  encode_witness_attestation_inner r = message_bytes (fields_WitnessAttestation r).
Proof. intros Hr. split_range Hr. unfold encode_witness_attestation_inner. emit_all. Qed.

Lemma emit_reward r : in_range_RewardRecordWire r →
  encode_reward_record_inner r = message_bytes (fields_RewardRecord r).
Proof. intros Hr. split_range Hr. unfold encode_reward_record_inner. emit_all. Qed.

Section Codec.
Context `{External}.

(** A loop that writes one field per element. *)
Lemma emit_repeated {A} (step : bytes → A → bytes) (f : A → Z * PVal) l vs :
  (∀ x vs, x ∈ l → step (message_bytes vs) x = message_bytes (vs ++ [f x])) →
  foldl step (message_bytes vs) l = message_bytes (vs ++ (f <$> l)).
Proof.
  revert vs. induction l as [|x l IH]; intros vs Hs; simpl; [by rewrite app_nil_r|].
  rewrite Hs by left. rewrite IH by (intros; apply Hs; by right).
  rewrite <- app_assoc. done.
Qed.

Lemma emit_evidence ev : encode_evidence_inner ev = message_bytes (fields_Evidence ev).
Proof.
  unfold encode_evidence_inner. change (encode_string 1 ?s []) with (encode_string 1 s (message_bytes [])).
  repeat emit. rewrite (emit_repeated _ (λ h, (5, VStr (hex_encode h)))) by (intros; by rewrite emit_string).
  rewrite emit_uint32 by done. by rewrite <- !app_assoc.
Qed.

Lemma signed_range v : u64 v → i64 (signed 64 v).
Proof. unfold signed, u64, i64. intros Hv. destruct (Z.ltb_spec v (2 ^ (64 - 1))); lia. Qed.

Lemma emit_challenge who c : in_range_Challenge c →
  encode_challenge_inner c who = message_bytes (fields_Challenge who c).
Proof.
  intros Hr. split_range Hr. unfold encode_challenge_inner. rewrite emit_evidence.
  assert (u64 (ch_bond c mod 2 ^ 64)) by (apply Z.mod_pos_bound; lia).
  assert (u64 0) by done. emit_all.
Qed.

Create Rewrite HintDb emit.
Hint Rewrite emit_aggregate emit_receipt emit_game_weight emit_params emit_session emit_heartbeat
  emit_attestation emit_node emit_batch emit_epoch emit_challenge using done : emit.

Lemma to_any_bytes m :
  message_in_range m → chain_view m ≠ None → value (to_any m) = message_bytes (fields_of m).
Proof.
  intros Hr Hs. destruct m; try done; cbn [message_in_range to_any value] in *;
    try (split_and?; cbv beta iota delta [value encode_msg_finalize_epoch encode_msg_claim_reward
      encode_msg_open_challenge encode_msg_upsert_node encode_msg_upsert_aggregate_record
      encode_msg_submit_batch encode_msg_submit_replica_receipt encode_msg_commit_epoch
      encode_msg_resolve_challenge encode_msg_upsert_game_weight encode_msg_update_params
      encode_msg_verify_batch encode_msg_submit_play_session encode_msg_submit_play_heartbeat
      encode_msg_attest_session encode_msg_settle_session];
      autorewrite with emit; emit_all).
  - destruct Hr as (? & ? & ?). unfold encode_msg_resolve_challenge, value. emit_all.
  - destruct Hr as [Hu Hr]. unfold encode_msg_submit_reward_records, value.
    change (encode_string 1 ?s []) with (encode_string 1 s (message_bytes [])). repeat emit.
    rewrite Forall_forall in Hr.
    rewrite (emit_repeated _ (λ r, (3, VMsg (fields_RewardRecord r)))); [done|].
    intros r vs Hin. by rewrite emit_reward, emit_message by auto.
Qed.

(** ** Each message has the type its route names *)

Definition fits (t : PType) (v : PVal) : Prop := typed t v = true ∧ complete_value t v = true.

Lemma typed_u32 z : u32 z → typed TUint32 (VInt z) = true.
Proof. apply in_width_spec. Qed.
Lemma typed_u64 z : u64 z → typed TUint64 (VInt z) = true.
Proof. apply in_width_spec. Qed.
Lemma typed_i64 z : i64 z → typed TInt64 (VInt z) = true.
Proof. intros Hz. cbn [typed]. apply andb_true_iff. rewrite Z.leb_le, Z.ltb_lt. apply Hz. Qed.

(** A message fits when its numbers are those of the type, and each value fits. *)
Definition fits_field (s : Schema) (kv : Z * PVal) : Prop :=
  (1 <= kv.1 < 2 ^ 29) ∧ ∃ t, lookup_field kv.1 s = Some t ∧ fits t kv.2.

Lemma fits_msg s vs :
  complete s (map fst vs) = true → Forall (fits_field s) vs → fits (TMsg s) (VMsg vs).
Proof.
  intros Hc Hvs. unfold fits. cbn [typed complete_value]. rewrite Hc. simpl.
  rewrite !forallb_forall. rewrite Forall_forall in Hvs.
  split; intros kv Hin%list_elem_of_In; destruct (Hvs kv Hin) as (Hk & t & Hl & Ht & Hcv);
    rewrite Hl; [|done].
  rewrite Ht, andb_true_r, andb_true_iff, Z.leb_le, Z.ltb_lt. done.
Qed.

Lemma fits_str s : fits TString (VStr s). Proof. done. Qed.
Lemma fits_bool b : fits TBool (VBool b). Proof. done. Qed.
Lemma fits_u32 z : u32 z → fits TUint32 (VInt z). Proof. split; [by apply typed_u32|done]. Qed.
Lemma fits_u64 z : u64 z → fits TUint64 (VInt z). Proof. split; [by apply typed_u64|done]. Qed.
Lemma fits_i64 z : i64 z → fits TInt64 (VInt z). Proof. split; [by apply typed_i64|done]. Qed.
Lemma fits_role r : fits (TEnum 3) (VInt (node_role_to_proto r)).
Proof. by destruct r. Qed.
Lemma fits_kind k : fits (TEnum 5) (VInt (challenge_kind_to_proto k)).
Proof. by destruct k. Qed.
Lemma fits_state s : fits (TEnum 3) (VInt (challenge_state_to_proto s)).
Proof. by destruct s. Qed.

Create HintDb fits discriminated.
Hint Resolve fits_str fits_bool fits_u32 fits_u64 fits_i64 fits_role fits_kind fits_state
  signed_range : fits.

Ltac fits_fields :=
  repeat (apply Forall_cons; split;
    [split; [done|]; eexists; split; [reflexivity|]; eauto with fits|]);
  try apply Forall_nil; try done.
Ltac fits_record := apply fits_msg; [reflexivity|]; fits_fields.

Lemma fits_merkle r : in_range_MerkleCommitmentWire r →
  fits (TMsg MerkleCommitment_schema) (VMsg (fields_MerkleCommitment r)).
Proof. intros Hr. unfold fields_MerkleCommitment. fits_record. Qed.
Hint Resolve fits_merkle : fits.

Lemma fits_caps r : 
  fits (TMsg NodeCapabilitySet_schema) (VMsg (fields_NodeCapabilitySet r)).
Proof. unfold fields_NodeCapabilitySet. fits_record. Qed.
Hint Resolve fits_caps : fits.

Lemma fits_node r : in_range_NodeRecordWire r →
  fits (TMsg NodeRecord_schema) (VMsg (fields_NodeRecord r)).
Proof. intros Hr. split_range Hr. unfold fields_NodeRecord. fits_record. Qed.

Lemma fits_params r : in_range_ParamsWire r →
  fits (TMsg Params_schema) (VMsg (fields_Params r)).
Proof. intros Hr. split_range Hr. unfold fields_Params. fits_record. Qed.

Lemma fits_batch r : in_range_BatchCommitWire r →
  fits (TMsg BatchCommit_schema) (VMsg (fields_BatchCommit r)).
Proof. intros Hr. split_range Hr. unfold fields_BatchCommit. fits_record. Qed.

Lemma fits_reward r : in_range_RewardRecordWire r →
  fits (TMsg RewardRecord_schema) (VMsg (fields_RewardRecord r)).
Proof. intros Hr. split_range Hr. unfold fields_RewardRecord. fits_record. Qed.

Lemma fits_aggregate r : in_range_AggregateRecordWire r →
  fits (TMsg AggregateRecord_schema) (VMsg (fields_AggregateRecord r)).
Proof. intros Hr. split_range Hr. unfold fields_AggregateRecord. fits_record. Qed.

Lemma fits_epoch r : in_range_EpochCommitWire r →
  fits (TMsg EpochCommit_schema) (VMsg (fields_EpochCommit r)).
Proof. intros Hr. split_range Hr. unfold fields_EpochCommit. fits_record. Qed.

Lemma fits_game_weight r : in_range_GameWeightEntryWire r →
  fits (TMsg GameWeightEntry_schema) (VMsg (fields_GameWeightEntry r)).
Proof. intros Hr. split_range Hr. unfold fields_GameWeightEntry. fits_record. Qed.

Lemma fits_receipt r : in_range_ReplicaReceiptWire r →
  fits (TMsg ReplicaReceipt_schema) (VMsg (fields_ReplicaReceipt r)).
Proof. intros Hr. split_range Hr. unfold fields_ReplicaReceipt. fits_record. Qed.

Lemma fits_session r : in_range_PlaySessionWire r →
  fits (TMsg PlaySession_schema) (VMsg (fields_PlaySession r)).
Proof. intros Hr. split_range Hr. unfold fields_PlaySession. fits_record. Qed.

Lemma fits_heartbeat r : in_range_PlayHeartbeatWire r →
  fits (TMsg PlayHeartbeat_schema) (VMsg (fields_PlayHeartbeat r)).
Proof. intros Hr. split_range Hr. unfold fields_PlayHeartbeat. fits_record. Qed.

Lemma fits_attestation r : in_range_WitnessAttestationWire r →
  fits (TMsg WitnessAttestation_schema) (VMsg (fields_WitnessAttestation r)).
Proof. intros Hr. split_range Hr. unfold fields_WitnessAttestation. fits_record. Qed.

Lemma complete_repeated n t s l ns :
  Forall (eq n) l → complete ((n, Repeated, t) :: s) (l ++ ns) = complete ((n, Repeated, t) :: s) ns.
Proof.
  induction 1 as [|k l <- _ IH]; [done|]. cbn [app]. rewrite <- IH. cbn [complete].
  by rewrite Z.eqb_refl.
Qed.

Lemma fits_evidence ev : fits (TMsg ChallengeEvidenceRef_schema) (VMsg (fields_Evidence ev)).
Proof.
  unfold fields_Evidence. apply fits_msg.
  - rewrite !map_app. cbn [map app fst]. unfold ChallengeEvidenceRef_schema.
    change (complete ((5, Repeated, TString) :: [(6, Singular, TUint32)])
      (map fst ((λ h, (5, VStr (hex_encode h))) <$> ev_merkle_proof ev) ++ [6]) = true).
    rewrite complete_repeated; [done|]. rewrite Forall_forall. intros k.
    rewrite list_elem_of_fmap. intros ([] & -> & (h & [= -> ->] & _)%list_elem_of_fmap). done.
  - rewrite !Forall_app. split_and!; [fits_fields| |fits_fields; by apply fits_u32].
    rewrite Forall_fmap, Forall_forall. intros h _. split; [done|]. eexists. split; [reflexivity|].
    apply fits_str.
Qed.
Hint Resolve fits_evidence : fits.

Lemma fits_challenge who c : in_range_Challenge c →
  fits (TMsg Challenge_schema) (VMsg (fields_Challenge who c)).
Proof.
  intros Hr. split_range Hr. unfold fields_Challenge.
  assert (u64 (ch_bond c mod 2 ^ 64)) by (apply Z.mod_pos_bound; lia).
  assert (u64 0) by done. fits_record.
Qed.

Hint Resolve fits_node fits_params fits_batch fits_reward fits_aggregate fits_epoch
  fits_game_weight fits_receipt fits_session fits_heartbeat fits_attestation fits_challenge : fits.

Lemma fields_fit m :
  message_in_range m → chain_view m ≠ None →
  ∃ s, msg_schema (type_url (to_any m)) = Some s ∧ fits (TMsg s) (VMsg (fields_of m)).
Proof.
  intros Hr Hs. destruct m; try done; cbn [message_in_range] in Hr;
    (eexists; split; [vm_compute; reflexivity|]); cbn [fields_of]; try by fits_record.
  - destruct Hr as (? & ? & ?). fits_record.
  - destruct Hr as [Hu Hr]. apply fits_msg.
    + rewrite map_app. cbn [map app fst].
      match goal with |- complete (_ :: _ :: (?n, Repeated, ?t) :: ?s) (_ :: _ :: ?l) = true =>
        change (complete ((n, Repeated, t) :: s) l = true) end.
      rewrite <- (app_nil_r (map fst _)), complete_repeated; [done|].
      rewrite Forall_forall. intros k. rewrite list_elem_of_fmap.
      intros ([] & -> & (r & [= -> ->] & _)%list_elem_of_fmap). done.
    + rewrite Forall_app. split; [fits_fields|].
      rewrite Forall_fmap. eapply Forall_impl; [apply Hr|]. intros r Hrr.
      split; [done|]. eexists. split; [reflexivity|]. by apply fits_reward.
Qed.

(** ** Reading the values back *)

Lemma of_node_fields r : of_NodeRecord (fields_NodeRecord r) = Some r.
Proof. destruct r as [? ? ? [] [] ? ? ? ?]; reflexivity. Qed.

Lemma get_skip k vs ms vs' :
  Forall (λ kv : Z * PVal, kv.1 ≠ k) ms → get k (vs ++ ms ++ vs')%list = get k (vs ++ vs')%list.
Proof.
  intros Hms. unfold get. rewrite !foldl_app. f_equal. generalize (foldl
    (λ (acc : option PVal) (kv : Z * PVal), if kv.1 =? k then Some kv.2 else acc) None vs).
  induction Hms as [|kv ms Hk _ IH]; intros acc; [done|]. simpl.
  by rewrite (proj2 (Z.eqb_neq _ _) Hk).
Qed.

Lemma get_all_app k vs vs' : get_all k (vs ++ vs')%list = (get_all k vs ++ get_all k vs')%list.
Proof. unfold get_all. by rewrite map_app, concat_app. Qed.

Lemma get_all_fmap {A} k (f : A → PVal) l : get_all k ((λ x, (k, f x)) <$> l) = f <$> l.
Proof.
  unfold get_all. induction l as [|x l IH]; [done|]. cbn [fmap list_fmap map concat fst snd].
  rewrite Z.eqb_refl. cbn [app]. by f_equal.
Qed.

Lemma of_evidence_fields ev : of_Evidence (fields_Evidence ev) = evidence_view ev.
Proof.
  unfold of_Evidence, evidence_view, get_str, get_int, fields_Evidence.
  assert (∀ k, k ≠ 5 → Forall (λ kv : Z * PVal, kv.1 ≠ k)
    ((λ h, (5, VStr (hex_encode h))) <$> ev_merkle_proof ev)) as Hm.
  { intros k Hk. rewrite Forall_fmap, Forall_forall. intros h _ Heq. by apply Hk. }
  rewrite !get_skip by (by apply Hm).
  rewrite !get_all_app, get_all_fmap. cbn. rewrite app_nil_r, <- list_fmap_compose. done.
Qed.

Lemma of_challenge_fields who c : of_Challenge (fields_Challenge who c) = challenge_view who c.
Proof.
  unfold of_Challenge, challenge_view. cbn [get_msg get_str get_int get fields_Challenge foldl
    fst snd Z.eqb Pos.eqb]. by rewrite of_evidence_fields.
Qed.

Lemma of_reward_fields r : of_RewardRecord (fields_RewardRecord r) = r.
Proof. by destruct r. Qed.

(** The reader of a route gives back the message. *)
Lemma read_fields m v :
  chain_view m = Some v →
  ∃ read, msg_reader (type_url (to_any m)) = Some read ∧ read (fields_of m) = Some v.
Proof.
  intros Hv. destruct m; simplify_eq/=; (eexists; split; [reflexivity|]); cbv beta;
    try match goal with |- _ = Some (_ _ ?r) => by destruct r end; try reflexivity.
  - by rewrite <- of_challenge_fields.
  - change (CUpsertNode (ca_bech32 operator) <$> of_NodeRecord (fields_NodeRecord node) =
      Some (CUpsertNode (ca_bech32 operator) node)). by rewrite of_node_fields.
  - by destruct batch_commit as [? ? ? ? []].
  - by destruct epoch_commit as [? [] [] [] [] []].
  - set (rs := (λ r, (3, VMsg (fields_RewardRecord r))) <$> records).
    set (hd := [(1, VStr (ca_bech32 proposer)); (2, VInt epoch_id)]).
    change (Some (CSubmitRewardRecords (get_str 1 (hd ++ rs)) (get_int 2 (hd ++ rs))
      ((λ v, of_RewardRecord (match v with VMsg fs => fs | _ => [] end)) <$>
        get_all 3 (hd ++ rs)%list)) = Some (CSubmitRewardRecords (ca_bech32 proposer) epoch_id records)).
    assert (∀ k, k ≠ 3 → Forall (λ kv : Z * PVal, kv.1 ≠ k) rs) as Hm.
    { intros k Hk. unfold rs. rewrite Forall_fmap, Forall_forall. intros r _ Heq. by apply Hk. }
    rewrite get_all_app. unfold get_str, get_int. rewrite <- (app_nil_r rs).
    rewrite !get_skip by (by apply Hm). rewrite !app_nil_r. unfold rs.
    rewrite (get_all_fmap 3 (λ r, VMsg (fields_RewardRecord r))).
    cbn [hd app get_all map concat fst snd Z.eqb Pos.eqb]. do 2 f_equal.
    rewrite <- list_fmap_compose. rewrite <- (list_fmap_id records) at 2.
    apply list_fmap_ext. intros _ r _. apply of_reward_fields.
Qed.

(** ** What the chain receives *)

(** C23: What is written for a message is a value of the message type its route names: the
    bytes decode by the type in tx.proto, every field has the type it declares, and every
    declared singular field is present exactly once, in the messages inside too. *)
Theorem to_any_typed (m : BridgeMessage) :
  message_in_range m → chain_view m ≠ None → Z.of_nat (length (value (to_any m))) < 2 ^ 64 →
  ∃ s vs, msg_schema (type_url (to_any m)) = Some s ∧
    decode_message s (value (to_any m)) = Some vs ∧
    well_typed s vs = true ∧ complete_value (TMsg s) (VMsg vs) = true.
Proof.
  intros Hr Hs Hl. destruct (fields_fit m Hr Hs) as (s & Hsch & Ht & Hc).
  exists s, (fields_of m). split_and!; [done| |done|done].
  rewrite to_any_bytes in * by done. by apply decode_message_bytes.
Qed.

(** C24: What the chain decodes from the bytes of a message is that message, field by field
    (the bond of a challenge cut to 64 bits, its state to those the chain has). *)
Theorem chain_reads_message (m : BridgeMessage) (v : ChainMsg) :
  message_in_range m → chain_view m = Some v → Z.of_nat (length (value (to_any m))) < 2 ^ 64 →
  chain_decode (to_any m) = Some v.
Proof.
  intros Hr Hv Hl. assert (chain_view m ≠ None) as Hs by by rewrite Hv.
  destruct (fields_fit m Hr Hs) as (s & Hsch & Ht & _).
  destruct (read_fields m v Hv) as (read & Hrd & Hrv).
  unfold chain_decode. rewrite Hsch, Hrd. rewrite to_any_bytes in * by done.
  by rewrite decode_message_bytes.
Qed.
End Codec.

(** ** A concrete message *)

Definition demo_root : MerkleCommitmentWire := {| mcw_root := "ab12"; mcw_leaf_count := 300 |}.
Definition demo_commit : BridgeMessage := BCommitEpoch {| ca_account := []; ca_bech32 := "cosmos1abc" |}
  {| ecw_epoch_id := 42; ecw_accepted_batches := demo_root; ecw_observations := demo_root;
     ecw_aggregates := demo_root; ecw_rewards := demo_root; ecw_availability := demo_root;
     ecw_randomness_seed_hex := "00ff"; ecw_proposer_address := "cosmos1abc";
     ecw_challenge_open_height := -1; ecw_challenge_deadline_height := 2 ^ 62;
     ecw_finalized := true; ecw_total_network_weight_units := 2 ^ 64 - 1 |}.

Lemma to_any_typed_witness :
  message_in_range demo_commit ∧ ∃ s vs,
  msg_schema (type_url (@to_any demo_external demo_commit)) = Some s ∧
  decode_message s (value (@to_any demo_external demo_commit)) = Some vs ∧
  well_typed s vs = true ∧ complete_value (TMsg s) (VMsg vs) = true.
Proof.
  assert (message_in_range demo_commit) as Hr.
  { unfold message_in_range, demo_commit, in_range_EpochCommitWire, in_range_MerkleCommitmentWire,
      u64, u32, i64. cbn. lia. }
  split; [exact Hr|]. apply (@to_any_typed demo_external demo_commit Hr); [discriminate|].
  vm_compute. reflexivity.
Defined.

Lemma chain_reads_message_witness :
  chain_decode (@to_any demo_external demo_commit) = @chain_view demo_external demo_commit.
Proof.
  apply (@chain_reads_message demo_external demo_commit).
  - unfold message_in_range, demo_commit, in_range_EpochCommitWire, in_range_MerkleCommitmentWire,
      u64, u32, i64. cbn. lia.
  - reflexivity.
  - vm_compute. reflexivity.
Defined.

(** The bytes of the tests of pole_msgs.rs. *)
Example varint_300 : encode_varint 300 [0x01] = [0x01; 0xAC; 0x02].
Proof. reflexivity. Qed.

Example finalize_epoch_bytes : value (encode_msg_finalize_epoch "cosmos1abc" 42) =
  [0x0A; 0x0A; 99; 111; 115; 109; 111; 115; 49; 97; 98; 99; 0x10; 0x2A].
Proof. reflexivity. Qed.

(** A negative i32 takes ten bytes: it is sign-extended to 64 bits, not to 32. *)
Example negative_int32_ten_bytes : encode_int32 1 (-1) [] =
  [0x08; 0xFF; 0xFF; 0xFF; 0xFF; 0xFF; 0xFF; 0xFF; 0xFF; 0xFF; 0x01].
Proof. reflexivity. Qed.

(** The bytes that the chain's own library produced for the same parameters. *)
Definition golden_params : ParamsWire := {|
  pmw_reward_block_duration_seconds := 3600;
  pmw_base_hourly_reward := 100;
  pmw_target_network_weight_units := 1000000;
  pmw_reward_adjustment_cap_bps := 2000;
  pmw_challenge_window_blocks := 100;
  pmw_min_retention_epochs := 5;
  pmw_player_reward_allocation_bps := 7000;
  pmw_service_reward_allocation_bps := 2000;
  pmw_collect_reward_bps := 2500;
  pmw_store_reward_bps := 2500;
  pmw_verify_reward_bps := 2500;
  pmw_propose_reward_bps := 2500;
  pmw_tier1_weight_ppm := 500000;
  pmw_tier2_weight_min_ppm := 200000;
  pmw_tier2_weight_max_ppm := 800000;
  pmw_tier3_weight_min_ppm := 100000;
  pmw_tier3_weight_max_ppm := 900000;
  pmw_fee_burn_bps := 500;
  pmw_reward_burn_threshold := 1000000;
  pmw_reward_burn_bps := 100;
  pmw_governance_burn_bps := 100;
  pmw_min_verification_count := 3;
  pmw_min_player_verifier_share_bps := 5000;
  pmw_min_witness_count := 2;
  pmw_min_witness_observation_tolerance_ppm := 500000;
  pmw_min_distinct_observations := 2;
  pmw_session_slash_bps := 5000;
  pmw_min_heartbeat_count := 2;
  pmw_heartbeat_bucket_seconds := 300;
  pmw_min_heartbeat_coverage_bps := 5000;
  pmw_challenge_bond_burn_bps := 2500 |}.

Example params_golden : hex_32 (encode_params_inner golden_params) =
  ("08901c106418c0843d20d00f2864300538d83640d00f48c41350c41358c41360c41368a0c21e70c0" +:+
   "9a0c7880ea308001a08d068801a0f7369001f4039801c0843da00164a80164b00103b8018827c001" +:+
   "02c801a0c21ed00102d8018827e00102e801ac02f0018827f801c413").
Proof. vm_compute. reflexivity. Qed.
