(* ===== verification/CosmosClient.v ===== *)
(** * Transactions of the chain: src/src/cosmos/tx_builder.rs, tx_signer.rs, proto.rs,
    rpc_client.rs, query_client.rs and mod.rs

    A bridge message becomes the body of a transaction, signed with the node's key over
    the chain id, account number and sequence; it is broadcast with retries, and re-signed
    when the chain reports a stale sequence. The prost and base64 crates are the class
    [TxProto]; the chain is an oracle: the answer to the [n]-th request of each kind, and
    the reading of the clock at the [n]-th look at it. *)
From S2P Require Import Prelude Primitives Params Records Crypto Text NodeConfig CosmosAddress MutualProof ProtoWire PoleMsgs.
From Stdlib Require Import Ascii.
Local Open Scope pole_scope.
Local Open Scope string_scope.
Local Open Scope Z_scope.

(** ** The messages of cosmos-sdk-proto that the code fills in *)

Record Coin := { coin_denom : string; coin_amount : string }.

Record Fee := {
  fee_amount : list Coin;
  fee_gas : Z;
  fee_payer : string;
  fee_granter : string;
}.

Record SignerInfo := {
  si_public_key : option Any;
  (** [ModeInfo { sum: Some(Single { mode }) }] *)
  si_mode : option Z;
  si_sequence : Z;
}.

Record AuthInfo := { ai_signer_infos : list SignerInfo; ai_fee : option Fee }.

Record TxBody := {
  tb_messages : list Any;
  tb_memo : string;
  tb_timeout_height : Z;
}.

(** [SignDoc], which [SignDocInputs] mirrors. *)
Record SignDocInputs := {
  sd_body_bytes : bytes;
  sd_auth_info_bytes : bytes;
  sd_chain_id : string;
  sd_account_number : Z;
}.

(** [TxRaw], which [SignedTx] mirrors. *)
Record SignedTx := {
  stx_body_bytes : bytes;
  stx_auth_info_bytes : bytes;
  stx_signatures : list bytes;
}.

(** [encode] of proto.rs for each message, and the decoders of the crates. *)
Class TxProto := {
  encode_body : TxBody → outcome string bytes;
  encode_auth_info : AuthInfo → outcome string bytes;
  encode_sign_doc : SignDocInputs → outcome string bytes;
  encode_tx_raw : SignedTx → outcome string bytes;
  decode_body : bytes → option TxBody;
  decode_auth_info : bytes → option AuthInfo;
  decode_tx_raw : bytes → option SignedTx;
  base64_encode : bytes → string;
  base64_decode : string → outcome string bytes;
}.

(** prost writes into a growing buffer, which does not fail, and reads what it wrote;
    base64 decodes what it encoded. *)
Class TxProtoLaws `{TxProto} : Prop := {
  encode_body_ok : ∀ m, ∃ b, encode_body m = Ok b ∧ decode_body b = Some m;
  encode_auth_info_ok : ∀ m, ∃ b, encode_auth_info m = Ok b ∧ decode_auth_info b = Some m;
  encode_sign_doc_ok : ∀ m, ∃ b, encode_sign_doc m = Ok b;
  encode_tx_raw_ok : ∀ m, ∃ b, encode_tx_raw m = Ok b ∧ decode_tx_raw b = Some m;
  base64_roundtrip : ∀ b, base64_decode (base64_encode b) = Ok b;
}.

(** ** Fees and builders *)

Record FeeConfig := {
  denom : string;
  gas_limit : Z;
  gas_price : Amount;
}.

Definition FeeConfig_default : FeeConfig :=
  {| denom := "upole"; gas_limit := 200000; gas_price := 1000 |}.

Record TxBuilder := {
  txb_chain_id : string;
  txb_account_number : Z;
  txb_sequence : Z;
  txb_fee : FeeConfig;
  txb_memo : string;
  txb_timeout_height : Z;
}.

Definition TxBuilder_new (chain_id : string) : TxBuilder := {|
  txb_chain_id := chain_id; txb_account_number := 0; txb_sequence := 0;
  txb_fee := FeeConfig_default; txb_memo := ""; txb_timeout_height := 0 |}.

Definition with_sequence (b : TxBuilder) (account_number sequence : Z) : TxBuilder := {|
  txb_chain_id := txb_chain_id b; txb_account_number := account_number; txb_sequence := sequence;
  txb_fee := txb_fee b; txb_memo := txb_memo b; txb_timeout_height := txb_timeout_height b |}.

Section Build.
Context `{B : BuildMode} `{X : External} `{PX : ProofExternal} `{BC : Bech32} `{TP : TxProto}.

Definition estimated_fee (f : FeeConfig) : option Amount := mul 128 (gas_limit f) (gas_price f).

Definition fee_to_proto (f : FeeConfig) : option Fee :=
  match estimated_fee f with
  | Some amount => Some {|
      fee_amount := [{| coin_denom := denom f; coin_amount := display amount |}];
      fee_gas := gas_limit f; fee_payer := ""; fee_granter := "" |}
  | None => None
  end.

Definition build_body (b : TxBuilder) (msg : BridgeMessage) : TxBody := {|
  tb_messages := [to_any msg]; tb_memo := txb_memo b; tb_timeout_height := txb_timeout_height b |}.

(** Field 1, length-delimited, 32 bytes. *)
Definition pubkey_pubkey_to_proto_bytes (pubkey : bytes) : bytes :=
  ([0x0A; 32] ++ pubkey)%list.

(** [None] is the panic of the fee's multiplication. *)
Definition build_auth_info (b : TxBuilder) (signer_pubkey : bytes) : option AuthInfo :=
  match fee_to_proto (txb_fee b) with
  | Some fee => Some {|
      ai_signer_infos := [{|
        si_public_key := Some {| type_url := "/cosmos.crypto.ed25519.PubKey";
                                 value := pubkey_pubkey_to_proto_bytes signer_pubkey |};
        si_mode := Some 1; si_sequence := txb_sequence b |}];
      ai_fee := Some fee |}
  | None => None
  end.

(** ** Signing *)

Definition signing_bytes (doc : SignDocInputs) : outcome CosmosError bytes :=
  map_err (λ e, CosmosEncode ("SignDoc: " +:+ e)) (encode_sign_doc doc).

Definition sign_sign_doc (keypair : KeyPair) (doc : SignDocInputs) : outcome CosmosError bytes :=
  do? b <- signing_bytes doc;
  let sig := sign keypair b in
  if bool_decide (length sig ≠ 64%nat) then Err (InvalidSignatureLength (Z.of_nat (length sig)))
  else Ok sig.

Definition sign_with_keypair (keypair : KeyPair) (body_bytes auth_info_bytes : bytes)
    (chain_id : string) (account_number : Z) : outcome CosmosError SignedTx :=
  let doc := {| sd_body_bytes := body_bytes; sd_auth_info_bytes := auth_info_bytes;
                sd_chain_id := chain_id; sd_account_number := account_number |} in
  do? signature <- sign_sign_doc keypair doc;
  Ok {| stx_body_bytes := body_bytes; stx_auth_info_bytes := auth_info_bytes;
        stx_signatures := [signature] |}.

Definition build (b : TxBuilder) (msg : BridgeMessage) (signer : CosmosAddress)
    (keypair : KeyPair) : outcome CosmosError SignedTx :=
  do? expected <- encode_bech32 (address_prefix signer)
    (cosmos_account_from_pubkey (public keypair));
  if bool_decide (expected ≠ ca_bech32 signer) then
    Err (CosmosEncode ("signer mismatch: keypair derives '" +:+ expected +:+
      "', caller passed '" +:+ ca_bech32 signer +:+ "'"))
  else
  do? auth_info <- or_panic (build_auth_info b (public keypair));
  do? body_bytes <- map_err (λ e, CosmosEncode ("TxBody: " +:+ e)) (encode_body (build_body b msg));
  do? auth_info_bytes <- map_err (λ e, CosmosEncode ("AuthInfo: " +:+ e))
    (encode_auth_info auth_info);
  sign_with_keypair keypair body_bytes auth_info_bytes (txb_chain_id b) (txb_account_number b).

Definition to_base64 (tx : SignedTx) : outcome CosmosError string :=
  do? b <- map_err (λ e, CosmosEncode ("TxRaw: " +:+ e)) (encode_tx_raw tx);
  Ok (base64_encode b).
End Build.

(** ** Broadcasting: rpc_client.rs *)

Record BroadcastOptions := {
  max_retries : Z;
  retry_delay : Z;
  request_timeout : Z;
  commit : bool;
}.

(** Durations in milliseconds. *)
Definition BroadcastOptions_default : BroadcastOptions :=
  {| max_retries := 3; retry_delay := 2000; request_timeout := 15000; commit := false |}.
Definition BroadcastOptions_commit : BroadcastOptions :=
  {| max_retries := 3; retry_delay := 2000; request_timeout := 30000; commit := true |}.

Record BroadcastTxResponse := {
  tx_hash : string;
  code : Z;
  data : string;
  log : string;
  codespace : string;
}.

Definition resp_is_ok (r : BroadcastTxResponse) : bool := code r =? 0.

Record ResponseCheckTx := { ct_code : Z; ct_log : string; ct_codespace : string }.
Record ResponseDeliverTx := {
  dt_code : Z;
  dt_data : option string;
  dt_log : string;
  dt_codespace : string;
}.
Record BroadcastTxCommitResult := {
  cmt_check_tx : ResponseCheckTx;
  cmt_tx_result : ResponseDeliverTx;
  cmt_hash : string;
}.

(** An answer to a JSON-RPC request: the HTTP status, the [error] member with its code,
    and what the [result] member parses to. *)
Record RpcReply (R : Type) := {
  rp_status : Z;
  rp_text : string;
  rp_error : option (option Z * string);
  rp_parsed : outcome string R;
}.
Arguments rp_status {R} _.
Arguments rp_text {R} _.
Arguments rp_error {R} _.
Arguments rp_parsed {R} _.

Definition is_success (status : Z) : bool := (200 <=? status) && (status <=? 299).

(** The checks both calls make on the answer; [Err] outside is a transport failure. *)
Definition rpc_result {R} (reply : outcome string (RpcReply R)) : outcome CosmosError R :=
  do? r <- map_err CosmosHttp reply;
  if negb (is_success (rp_status r)) then Err (CosmosRest (rp_status r) (rp_text r)) else
  match rp_error r with
  | Some (c, message) => Err (CosmosRpc (signed 32 (default (-1) c mod 2 ^ 32)) message)
  | None => map_err CosmosDecode (rp_parsed r)
  end.

Definition broadcast_tx_sync_once (reply : outcome string (RpcReply BroadcastTxResponse))
    : outcome CosmosError BroadcastTxResponse := rpc_result reply.

Definition broadcast_tx_commit_once (reply : outcome string (RpcReply BroadcastTxCommitResult))
    : outcome CosmosError BroadcastTxResponse :=
  do? c <- rpc_result reply;
  let '(code, log, codespace) :=
    if bool_decide (ct_code (cmt_check_tx c) ≠ 0)
    then (ct_code (cmt_check_tx c), ct_log (cmt_check_tx c), ct_codespace (cmt_check_tx c))
    else (dt_code (cmt_tx_result c), dt_log (cmt_tx_result c), dt_codespace (cmt_tx_result c)) in
  Ok {| tx_hash := cmt_hash c; code := code; data := default "" (dt_data (cmt_tx_result c));
        log := log; codespace := codespace |}.

Definition is_retriable_code (c : Z) : bool :=
  (c =? 11) || (c =? 19) || (c =? 20) || (c =? 25).

Definition is_sequence_race (c : Z) : bool := (c =? 19) || (c =? 32).

(** [AccountInfo], and the account types of the auth module. *)
Record AccountInfo := { account_number : string; sequence : string }.
Record BaseAccount := { ba_account_number : string; ba_sequence : string; ba_address : string }.
Inductive AuthAccountInner := AuthBase (b : BaseAccount) | AuthOther.

Definition into_info (a : AuthAccountInner) : outcome CosmosError AccountInfo :=
  match a with
  | AuthBase b => Ok {| account_number := ba_account_number b; sequence := ba_sequence b |}
  | AuthOther => Err (Unimplemented
      "non-base account type; module account support not yet implemented")
  end.

(** An HTTP answer of the REST gateway: status, body, and what the body parses to. *)
Record RestReply (R : Type) := { rs_status : Z; rs_body : string; rs_parsed : outcome string R }.
Arguments rs_status {R} _.
Arguments rs_body {R} _.
Arguments rs_parsed {R} _.

(** [get_account]; a body that does not parse is a reqwest error. *)
Definition get_account (reply : outcome string (RestReply AuthAccountInner))
    : outcome CosmosError AccountInfo :=
  do? r <- map_err CosmosHttp reply;
  if rs_status r =? 404 then Err (MissingField "account not found on chain") else
  if negb (is_success (rs_status r)) then Err (CosmosRest (rs_status r) (rs_body r)) else
  do? a <- map_err CosmosHttp (rs_parsed r);
  into_info a.

(** [post_query] and the parsers of the two queries, which fail with [Decode]. *)
Definition post_query {R} (reply : outcome string (RestReply R)) : outcome CosmosError R :=
  do? r <- map_err CosmosHttp reply;
  if negb (is_success (rs_status r)) then Err (CosmosRest (rs_status r) (rs_body r)) else
  map_err CosmosDecode (rs_parsed r).

Record WitnessCreditEntry := { wc_address : string; wc_credits : Z }.

(** [parse_witness_credits], on the parsed rows: rows without an address are skipped,
    the credits of an address add up. *)
Definition parse_witness_credits `{BuildMode} (parsed : outcome string (list WitnessCreditEntry))
    : outcome CosmosError (gmap string Z) :=
  do? rows <- map_err CosmosDecode parsed;
  foldl (λ acc entry,
    do? credits <- acc;
    if str_is_empty (wc_address entry) then Ok credits else
    do? sum <- or_panic (add 64 (default 0 (credits !! wc_address entry)) (wc_credits entry));
    Ok (<[wc_address entry := sum]> credits)) (Ok ∅) rows.

(** The display texts of error.rs. *)
Definition cosmos_error_text (e : CosmosError) : string :=
  match e with
  | InvalidHex s => "invalid hex address: " +:+ s
  | InvalidBech32 s => "invalid bech32 address: " +:+ s
  | Bech32PrefixMismatch expected actual =>
      "bech32 prefix mismatch: expected " +:+ expected +:+ ", got " +:+ actual
  | InvalidPubKeyLength n => "invalid public key length: expected 32, got " +:+ display n
  | InvalidSignatureLength n => "invalid signature length: expected 64, got " +:+ display n
  | CosmosHttp s => "HTTP request failed: " +:+ s
  | CosmosRpc c m => "RPC error (code=" +:+ display c +:+ "): " +:+ m
  | CosmosRest st body => "REST error (status=" +:+ display st +:+ "): " +:+ body
  | CosmosDecode s => "failed to decode response: " +:+ s
  | CosmosEncode s => "failed to encode transaction: " +:+ s
  | BroadcastExhausted n last =>
      "broadcast failed after " +:+ display n +:+ " attempts: " +:+ last
  | MissingField s => "missing field: " +:+ s
  | Unimplemented s => "not implemented: " +:+ s
  end.

(** ** The client: mod.rs *)

(** What the node has asked of the chain and of the clock so far. *)
Record Net := {
  lookups : nat;
  sent : list bytes;
  reads : nat;
}.

Record CosmosEndpoint := {
  rpc_url : string;
  rest_url : string;
  ce_chain_id : string;
  ce_address_prefix : string;
}.

Definition local_pole (chain_id : string) : CosmosEndpoint := {|
  rpc_url := "http://localhost:26657"; rest_url := "http://localhost:1317";
  ce_chain_id := chain_id; ce_address_prefix := DEFAULT_BECH32_PREFIX |}.

Definition with_prefix (e : CosmosEndpoint) (prefix : string) : CosmosEndpoint := {|
  rpc_url := rpc_url e; rest_url := rest_url e; ce_chain_id := ce_chain_id e;
  ce_address_prefix := prefix |}.

Section Client.
Context `{B : BuildMode} `{X : External} `{PX : ProofExternal} `{BC : Bech32} `{TP : TxProto}.
Context (endpoint : CosmosEndpoint).
(** The answers of the chain to the [n]-th request of each kind, and the clock. *)
Context (on_account : nat → outcome string (RestReply AuthAccountInner)).
Context (on_sync : nat → bytes → outcome string (RpcReply BroadcastTxResponse)).
Context (on_commit : nat → bytes → outcome string (RpcReply BroadcastTxCommitResult)).
Context (clock : nat → Z).

Definition Client (A : Type) : Type := M Net CosmosError A.

Definition builder (account_number sequence : Z) : TxBuilder :=
  with_sequence (TxBuilder_new (ce_chain_id endpoint)) account_number sequence.

(** One request; the answer is a value, which the caller may handle. *)
Definition account : Client (outcome CosmosError AccountInfo) := λ n,
  (Ok (get_account (on_account (lookups n))),
   {| lookups := S (lookups n); sent := sent n; reads := reads n |}).

Definition send_once (commit : bool) (tx : bytes) : Client (outcome CosmosError BroadcastTxResponse) :=
  λ n, (Ok (if commit then broadcast_tx_commit_once (on_commit (length (sent n)) tx)
            else broadcast_tx_sync_once (on_sync (length (sent n)) tx)),
        {| lookups := lookups n; sent := (sent n ++ [tx])%list; reads := reads n |}).

Definition now : Client Z := λ n,
  (Ok (clock (reads n)), {| lookups := lookups n; sent := sent n; reads := S (reads n) |}).

(** The loop of [broadcast_tx_sync] and of [broadcast_tx_commit]: [todo] attempts to go. *)
Fixpoint broadcast_attempts (todo : nat) (opts : BroadcastOptions) (tx : bytes) (last_err : string)
    : Client BroadcastTxResponse :=
  match todo with
  | O => m_throw (BroadcastExhausted (max_retries opts) last_err)
  | S todo =>
      r <- send_once (commit opts) tx;;
      match r with
      | Ok resp =>
          if resp_is_ok resp then m_ret resp
          else if negb (is_retriable_code (code resp)) then m_ret resp
          else broadcast_attempts todo opts tx
                 ("code=" +:+ display (code resp) +:+ " log=" +:+ log resp)
      | Err e => broadcast_attempts todo opts tx (cosmos_error_text e)
      | Panic => lift Panic
      end
  end.

Definition attempts (opts : BroadcastOptions) : nat := Z.to_nat (Z.max (max_retries opts) 1).

Definition broadcast (signed : SignedTx) (opts : BroadcastOptions) : Client BroadcastTxResponse :=
  b64 <- lift (to_base64 signed);;
  tx <- lift (map_err (λ e, CosmosDecode ("base64: " +:+ e)) (base64_decode b64));;
  broadcast_attempts (attempts opts) opts tx "".

(** Polls until the sequence changes or the deadline passes; the fuel counts the polls,
    which are at least [poll] apart. *)
Fixpoint wait_loop (fuel : nat) (stale deadline : Z) : Client unit :=
  match fuel with
  | O => m_ret tt
  | S fuel =>
      t <- now;;
      if deadline <=? t then m_ret tt else
      info <- account;;
      match info with
      | Ok info =>
          match parse_uint 64 (sequence info) with
          | Ok seq => if bool_decide (seq ≠ stale) then m_ret tt else wait_loop fuel stale deadline
          | _ => wait_loop fuel stale deadline
          end
      | _ => wait_loop fuel stale deadline
      end
  end.

Definition poll (timeout : Z) : Z := Z.min 250 timeout.

Definition wait_for_sequence_above (stale timeout : Z) : Client unit :=
  start <- now;;
  wait_loop (S (Z.to_nat (timeout / poll timeout))) stale (start + timeout).

(** [info.account_number.parse()], a failure being a [Decode] error. *)
Definition parse_field_u64 (s : string) : outcome CosmosError Z :=
  map_err CosmosDecode (parse_uint 64 s).

Fixpoint submit_attempts (todo : nat) (msg : BridgeMessage) (signer : CosmosAddress)
    (keypair : KeyPair) (opts : BroadcastOptions) (last : option BroadcastTxResponse)
    : Client BroadcastTxResponse :=
  match todo with
  | O => chk last
  | S todo =>
      info <- account;;
      info <- lift info;;
      account_number <- lift (parse_field_u64 (account_number info));;
      seq <- lift (parse_field_u64 (sequence info));;
      signed <- lift (build (builder account_number seq) msg signer keypair);;
      resp <- broadcast signed opts;;
      if resp_is_ok resp || negb (is_sequence_race (code resp)) then m_ret resp else
      match todo with
      | O => m_ret tt
      | S _ => wait_for_sequence_above seq (request_timeout opts)
      end;;;
      submit_attempts todo msg signer keypair opts (Some resp)
  end.

Definition submit (msg : BridgeMessage) (signer : CosmosAddress) (keypair : KeyPair)
    (opts : BroadcastOptions) : Client BroadcastTxResponse :=
  submit_attempts (attempts opts) msg signer keypair opts None.
End Client.

(** * Properties *)

Section Signed.
Context `{B : BuildMode} `{X : External} `{PX : ProofExternal} `{BC : Bech32} `{TP : TxProto}.
Context `{SL : !SigningLaws} `{TL : !TxProtoLaws}.


End Signed.

Section Submitting.
Context `{B : BuildMode} `{X : External} `{PX : ProofExternal} `{BC : Bech32} `{TP : TxProto}.
Context `{TL : !TxProtoLaws}.
Context (endpoint : CosmosEndpoint).
Context (on_account : nat → outcome string (RestReply AuthAccountInner)).
Context (on_sync : nat → bytes → outcome string (RpcReply BroadcastTxResponse)).
Context (on_commit : nat → bytes → outcome string (RpcReply BroadcastTxCommitResult)).
Context (clock : nat → Z).

Local Notation attempts_of := (broadcast_attempts on_sync on_commit).

(** The same bytes each time, at most as often as allowed; a code that is worth a retry
    is never returned. *)
Definition broadcast_post (todo : nat) (opts : BroadcastOptions) (tx : bytes) (n : Net)
    (r : outcome CosmosError BroadcastTxResponse) (n' : Net) : Prop :=
  (∃ k, (k <= todo)%nat ∧ ((todo > 0)%nat → (k > 0)%nat) ∧
    sent n' = (sent n ++ replicate k tx)%list) ∧
  lookups n' = lookups n ∧
  match r with
  | Ok resp => is_retriable_code (code resp) = false
  | Err e => ∃ l, e = BroadcastExhausted (max_retries opts) l
  | Panic => True
  end.

Lemma broadcast_attempts_spec todo opts tx last n r n' :
  attempts_of todo opts tx last n = (r, n') → broadcast_post todo opts tx n r n'.
Proof.
  revert last n. induction todo as [|todo IH]; intros last n He.
  - simpl in He. unfold m_throw in He. simplify_eq. split_and!; [|done|by eexists].
    exists 0%nat. split_and!; [lia|lia|by rewrite app_nil_r].
  - simpl in He. unfold m_bind, send_once in He. simpl in He.
    set (n1 := {| lookups := lookups n; sent := (sent n ++ [tx])%list; reads := reads n |}) in He.
    assert (∀ last', attempts_of todo opts tx last' n1 = (r, n') →
      broadcast_post (S todo) opts tx n r n') as Hrec.
    { intros last' Hr. destruct (IH last' _ Hr) as ((k & Hk & _ & Hs) & Hl & Hc). simpl in *.
      split_and!; [|done..]. exists (S k). split_and!; [lia|lia|]. by rewrite Hs, <- app_assoc. }
    assert (∀ c, (c, n1) = (r, n') → match c with Ok resp => is_retriable_code (code resp) = false
      | Err _ => False | Panic => True end → broadcast_post (S todo) opts tx n r n') as Hone.
    { intros c [= -> <-] Hc. simpl. split_and!; [|done|by destruct r].
      exists 1%nat. split_and!; [lia|lia|done]. }
    destruct (if commit opts then _ else _) as [resp|e|]; [|by eapply Hrec|by eapply (Hone Panic)].
    destruct (resp_is_ok resp) eqn:Ho.
    + eapply (Hone (Ok resp)); [done|]. unfold resp_is_ok in Ho. apply Z.eqb_eq in Ho. by rewrite Ho.
    + destruct (is_retriable_code (code resp)) eqn:Hc; [exact (Hrec _ He)|by eapply (Hone (Ok resp))].
Qed.

Lemma broadcast_spec signed opts n r n' :
  broadcast on_sync on_commit signed opts n = (r, n') →
  ∃ tx, encode_tx_raw signed = Ok tx ∧
  (∃ k, (0 < k <= attempts opts)%nat ∧ sent n' = (sent n ++ replicate k tx)%list) ∧
  lookups n' = lookups n ∧ match r with Ok resp => is_retriable_code (code resp) = false | _ => True end.
Proof using TL.
  unfold broadcast, to_base64. destruct (encode_tx_raw_ok signed) as (tx & -> & _). simpl.
  unfold m_bind, lift. rewrite base64_roundtrip. simpl. intros He.
  apply broadcast_attempts_spec in He as ((k & Hk & Hk0 & Hs) & Hl & Hc). exists tx. split_and!; [done| |done|].
  - exists k. split; [|done]. unfold attempts in *. lia.
  - by destruct r.
Qed.

Lemma wait_loop_spec fuel stale deadline n r n' :
  wait_loop on_account clock fuel stale deadline n = (r, n') →
  sent n' = sent n ∧ (lookups n <= lookups n')%nat ∧ r = Ok tt.
Proof.
  revert n. induction fuel as [|fuel IH]; intros n He; [by simpl in He; unfold m_ret in He; simplify_eq|].
  simpl in He. unfold m_bind, now in He. simpl in He.
  destruct (deadline <=? _); [unfold m_ret in He; by simplify_eq|].
  unfold account in He. simpl in He.
  assert (∀ m, wait_loop on_account clock fuel stale deadline m = (r, n') →
    sent m = sent n → lookups m = S (lookups n) →
    sent n' = sent n ∧ (lookups n <= lookups n')%nat ∧ r = Ok tt) as Hrec.
  { intros m Hr Hs Hl. apply IH in Hr as (? & ? & ?). split_and!; [congruence|lia|done]. }
  repeat case_match; simplify_eq; try (by eapply Hrec); unfold m_ret in He; simplify_eq; simpl;
    split_and!; try done; lia.
Qed.

(** A transaction that the client may send: it carries the message, signed for an
    account number and sequence the chain reported at one of the lookups [from .. upto). *)
Definition signed_for (msg : BridgeMessage) (signer : CosmosAddress) (k : KeyPair)
    (from upto : nat) (tx : bytes) : Prop :=
  ∃ i info acc seq signed, (from <= i < upto)%nat ∧
    get_account (on_account i) = Ok info ∧
    parse_uint 64 (account_number info) = Ok acc ∧ parse_uint 64 (sequence info) = Ok seq ∧
    build (builder endpoint acc seq) msg signer k = Ok signed ∧ encode_tx_raw signed = Ok tx.

Lemma signed_for_widen msg signer k from from' upto upto' tx :
  (from' <= from)%nat → (upto <= upto')%nat →
  signed_for msg signer k from upto tx → signed_for msg signer k from' upto' tx.
Proof. intros Hf Hu (i & info & acc & seq & signed & Hi & H). exists i, info, acc, seq, signed. split; [lia|done]. Qed.

(** What [todo] more rounds may send and return. *)
Definition submit_post (todo : nat) msg signer k opts (last : option BroadcastTxResponse)
    (n : Net) (r : outcome CosmosError BroadcastTxResponse) (n' : Net) : Prop :=
  ∃ txs, sent n' = (sent n ++ txs)%list ∧ (lookups n <= lookups n')%nat ∧
    (length txs <= todo * attempts opts)%nat ∧
    Forall (signed_for msg signer k (lookups n) (lookups n')) txs ∧
    ∀ resp, r = Ok resp → Some resp = last ∧ todo = 0%nat ∨
      is_retriable_code (code resp) = false ∧ (code resp = 32 → (todo <= length txs)%nat).

(** A round that broadcasts [k0] copies of a transaction it signed, then goes on. *)
Lemma submit_round todo msg signer k opts last resp n n1 r n' k0 tx :
  (0 < k0 <= attempts opts)%nat → sent n1 = (sent n ++ replicate k0 tx)%list →
  (S (lookups n) <= lookups n1)%nat → signed_for msg signer k (lookups n) (S (lookups n)) tx →
  is_retriable_code (code resp) = false →
  submit_post todo msg signer k opts (Some resp) n1 r n' →
  submit_post (S todo) msg signer k opts last n r n'.
Proof.
  intros Hk Hs Hl Hsf Hc (txs & Hs' & Hl' & Hlen & Hall & Hres).
  exists (replicate k0 tx ++ txs)%list. rewrite length_app, length_replicate. split_and!.
  - by rewrite Hs', Hs, <- app_assoc.
  - lia.
  - nia.
  - apply Forall_app. split.
    + apply Forall_replicate. eapply signed_for_widen; [| |exact Hsf]; lia.
    + eapply Forall_impl; [exact Hall|]. intros t. apply signed_for_widen; lia.
  - intros resp' Hr. right. destruct (Hres _ Hr) as [[[= ->] ->]|[Hc' H32]].
    + split; [done|]. intros _. lia.
    + split; [done|]. intros H'. specialize (H32 H'). lia.
Qed.

(** The last round. *)
Lemma submit_stop todo msg signer k opts last n n' r k0 tx :
  (k0 <= attempts opts)%nat → sent n' = (sent n ++ replicate k0 tx)%list →
  (S (lookups n) <= lookups n')%nat →
  ((k0 > 0)%nat → signed_for msg signer k (lookups n) (S (lookups n)) tx) →
  match r with
  | Ok resp => is_retriable_code (code resp) = false ∧ code resp ≠ 32
  | _ => True
  end →
  submit_post (S todo) msg signer k opts last n r n'.
Proof.
  intros Hk Hs Hl Hsf Hr. exists (replicate k0 tx). rewrite length_replicate.
  split_and!; [done|lia|nia| |].
  - destruct k0 as [|k0]; [constructor|]. apply Forall_replicate.
    eapply signed_for_widen; [| |apply Hsf]; lia.
  - intros resp ->. right. destruct Hr as [? ?]. by split.
Qed.

Lemma submit_attempts_spec todo msg signer k opts last n r n' :
  submit_attempts endpoint on_account on_sync on_commit clock todo msg signer k opts last n = (r, n') →
  submit_post todo msg signer k opts last n r n'.
Proof using TL.
  revert last n. induction todo as [|todo IH]; intros last n He.
  - simpl in He. unfold chk, lift in He. exists []. destruct last; simplify_eq/=;
      (split_and!; [by rewrite app_nil_r|lia|lia|constructor|]); intros; simplify_eq; by left.
  - simpl in He. unfold m_bind, account, lift in He. simpl in He.
    assert (∀ c, (c, {| lookups := S (lookups n); sent := sent n; reads := reads n |}) = (r, n') →
      (∀ x, c ≠ Ok x) → submit_post (S todo) msg signer k opts last n r n') as Hfail.
    { intros c [= -> <-] Hc. apply (submit_stop _ _ _ _ _ _ _ _ _ 0 []); simpl; [lia| |lia|by intros ?%Nat.lt_irrefl|].
      - by rewrite app_nil_r.
      - destruct r; naive_solver. }
    destruct (get_account (on_account (lookups n))) as [info|e|] eqn:Hi; [|by eapply Hfail..].
    unfold parse_field_u64 in He.
    destruct (parse_uint 64 (account_number info)) as [acc|e|] eqn:Hacc; simpl in He; [|by eapply Hfail..].
    destruct (parse_uint 64 (sequence info)) as [seq|e|] eqn:Hseq; simpl in He; [|by eapply Hfail..].
    destruct (build (builder endpoint acc seq) msg signer k) as [signed|e|] eqn:Hb; [|by eapply Hfail..].
    destruct (broadcast on_sync on_commit signed opts _) as [rb nb] eqn:Hbr.
    apply broadcast_spec in Hbr as (tx & Htx & (k0 & Hk0 & Hs) & Hl & Hc). simpl in Hs, Hl.
    assert (signed_for msg signer k (lookups n) (S (lookups n)) tx) as Hsf.
    { exists (lookups n), info, acc, seq, signed. split_and!; [lia..|done|done|done|done|done]. }
    destruct rb as [resp|e|]; [|injection He as <- <-; by eapply submit_stop; [|exact Hs|rewrite Hl|..]; try lia..].
    destruct (resp_is_ok resp || negb (is_sequence_race (code resp))) eqn:Hdone.
    + injection He as <- <-. eapply submit_stop; [|exact Hs|rewrite Hl|..]; [lia|lia|done|].
      split; [done|].
      intros H32. unfold resp_is_ok, is_sequence_race in Hdone. by rewrite H32 in Hdone.
    + destruct todo as [|todo'].
      { eapply submit_round; [exact Hk0|exact Hs|lia|done|done|by apply IH]. }
      destruct (wait_for_sequence_above on_account clock seq (request_timeout opts) nb) as [rw nw] eqn:Hw.
      unfold wait_for_sequence_above, m_bind, now in Hw.
      apply wait_loop_spec in Hw as (Hs' & Hl' & ->). simpl in Hs', Hl'.
      eapply submit_round; [exact Hk0|by rewrite Hs', Hs|lia|done|done|by apply IH].
Qed.

(** C26: Submitting a message broadcasts nothing but transactions of that message, each signed
    for an account number and a sequence that the chain reported during the call, at most
    the square of the allowed attempts; a code that calls for a retry is never returned, and
    a stale sequence only when every attempt was used. *)
Theorem submit_spec msg signer k opts n r n' :
  submit endpoint on_account on_sync on_commit clock msg signer k opts n = (r, n') →
  ∃ txs, sent n' = (sent n ++ txs)%list ∧
    (length txs <= attempts opts * attempts opts)%nat ∧
    Forall (signed_for msg signer k (lookups n) (lookups n')) txs ∧
    ∀ resp, r = Ok resp → is_retriable_code (code resp) = false ∧
      (code resp = 32 → (attempts opts <= length txs)%nat).
Proof using TL.
  intros He. apply submit_attempts_spec in He as (txs & Hs & _ & Hl & Hall & Hr).
  exists txs. split_and!; try done. intros resp Hresp. destruct (Hr _ Hresp) as [[? H0]|?]; [|done].
  unfold attempts in H0. lia.
Qed.
End Submitting.

(** ** The rows of a credits query add up per address *)

Lemma witness_credits_loop `{B : BuildMode} rows (acc : outcome CosmosError (gmap string Z))
    (m : gmap string Z) :
  overflow_checks = true →
  foldl (λ acc entry,
    do? credits <- acc;
    if str_is_empty (wc_address entry) then Ok credits else
    do? sum <- or_panic (add 64 (default 0 (credits !! wc_address entry)) (wc_credits entry));
    Ok (<[wc_address entry := sum]> credits)) acc rows = (Ok m : outcome CosmosError _) →
  ∃ m0, acc = Ok m0 ∧ ∀ a, default 0 (m !! a) = default 0 (m0 !! a) +
    lsum wc_credits (filter (λ e, wc_address e = a ∧ wc_address e ≠ "") rows).
Proof.
  intros Hdbg. revert acc. induction rows as [|e rows IH]; intros acc He; simpl in He.
  - exists m. split; [done|]. intros a. simpl. lia.
  - destruct (IH _ He) as (m1 & Hm1 & Hsum). destruct acc as [m0|?|]; try done. exists m0.
    split; [done|]. intros a. rewrite Hsum. simpl in Hm1. rewrite filter_cons.
    destruct (wc_address e) as [|c s] eqn:Ea; simpl in Hm1.
    { injection Hm1 as ->. rewrite decide_False by naive_solver. done. }
    destruct (add 64 _ _) as [z|] eqn:Eadd; [|done]. injection Hm1 as <-.
    assert (z = default 0 (m0 !! String c s) + wc_credits e) as ->.
    { unfold add, arith in Eadd. rewrite Hdbg in Eadd. by case_match; simplify_eq. }
    destruct (decide (a = String c s)) as [->|Hne].
    + rewrite lookup_insert_eq, decide_True by naive_solver. simpl. lia.
    + rewrite lookup_insert_ne, decide_False by naive_solver. done.
Qed.

Theorem witness_credits_sum `{B : BuildMode} rows m a :
  overflow_checks = true → parse_witness_credits (Ok rows) = Ok m →
  default 0 (m !! a) = lsum wc_credits (filter (λ e, wc_address e = a ∧ wc_address e ≠ "") rows).
Proof.
  intros Hdbg Hp. destruct (witness_credits_loop rows _ m Hdbg Hp) as (m0 & [= <-] & Hs).
  rewrite Hs. by rewrite lookup_empty.
Qed.

(** ** A toy instance of the crates *)

#[local] Instance Any_eq_dec : EqDecision Any.
Proof. solve_decision. Defined.
#[local] Instance Any_countable : Countable Any.
Proof.
  refine (inj_countable' (λ a, (type_url a, value a)) (λ t, {| type_url := t.1; value := t.2 |}) _).
  by intros [].
Defined.
#[local] Instance TxBody_eq_dec : EqDecision TxBody.
Proof. solve_decision. Defined.
#[local] Instance TxBody_countable : Countable TxBody.
Proof.
  refine (inj_countable' (λ b, (tb_messages b, tb_memo b, tb_timeout_height b))
    (λ t, {| tb_messages := t.1.1; tb_memo := t.1.2; tb_timeout_height := t.2 |}) _).
  by intros [].
Defined.
#[local] Instance Coin_eq_dec : EqDecision Coin.
Proof. solve_decision. Defined.
#[local] Instance Coin_countable : Countable Coin.
Proof.
  refine (inj_countable' (λ c, (coin_denom c, coin_amount c))
    (λ t, {| coin_denom := t.1; coin_amount := t.2 |}) _). by intros [].
Defined.
#[local] Instance Fee_eq_dec : EqDecision Fee.
Proof. solve_decision. Defined.
#[local] Instance Fee_countable : Countable Fee.
Proof.
  refine (inj_countable' (λ f, (fee_amount f, fee_gas f, fee_payer f, fee_granter f))
    (λ t, {| fee_amount := t.1.1.1; fee_gas := t.1.1.2; fee_payer := t.1.2; fee_granter := t.2 |}) _).
  by intros [].
Defined.
#[local] Instance SignerInfo_eq_dec : EqDecision SignerInfo.
Proof. solve_decision. Defined.
#[local] Instance SignerInfo_countable : Countable SignerInfo.
Proof.
  refine (inj_countable' (λ s, (si_public_key s, si_mode s, si_sequence s))
    (λ t, {| si_public_key := t.1.1; si_mode := t.1.2; si_sequence := t.2 |}) _). by intros [].
Defined.
#[local] Instance AuthInfo_eq_dec : EqDecision AuthInfo.
Proof. solve_decision. Defined.
#[local] Instance AuthInfo_countable : Countable AuthInfo.
Proof.
  refine (inj_countable' (λ a, (ai_signer_infos a, ai_fee a))
    (λ t, {| ai_signer_infos := t.1; ai_fee := t.2 |}) _). by intros [].
Defined.
#[local] Instance SignedTx_eq_dec : EqDecision SignedTx.
Proof. solve_decision. Defined.
#[local] Instance SignedTx_countable : Countable SignedTx.
Proof.
  refine (inj_countable' (λ s, (stx_body_bytes s, stx_auth_info_bytes s, stx_signatures s))
    (λ t, {| stx_body_bytes := t.1.1; stx_auth_info_bytes := t.1.2; stx_signatures := t.2 |}) _).
  by intros [].
Defined.

Definition toy_encode {A} `{Countable A} (x : A) : bytes := [Zpos (encode x)].
Definition toy_decode {A} `{Countable A} (b : bytes) : option A :=
  match b with [Zpos p] => decode p | _ => None end.

Fixpoint pos_string (p : positive) : string :=
  match p with xH => "" | xO p => String "0"%char (pos_string p) | xI p => String "1"%char (pos_string p) end.
Fixpoint string_pos (s : string) : positive :=
  match s with
  | EmptyString => xH
  | String a s => if bool_decide (a = "1"%char) then xI (string_pos s) else xO (string_pos s)
  end.

Lemma string_pos_string p : string_pos (pos_string p) = p.
Proof. induction p as [p IH|p IH|]; simpl; by rewrite ?IH. Qed.

(** Each message is one number; base64 is its binary notation. *)
Definition toy_tx_proto : TxProto := {|
  encode_body := λ m, Ok (toy_encode m);
  encode_auth_info := λ m, Ok (toy_encode m);
  encode_sign_doc := λ _, Ok [];
  encode_tx_raw := λ m, Ok (toy_encode m);
  decode_body := toy_decode;
  decode_auth_info := toy_decode;
  decode_tx_raw := toy_decode;
  base64_encode := λ b, pos_string (encode b);
  base64_decode := λ s, match decode (string_pos s) with Some b => Ok b | None => Err "" end;
|}.

Lemma toy_decode_encode {A} `{Countable A} (x : A) : toy_decode (toy_encode x) = Some x.
Proof. simpl. apply decode_encode. Qed.

Lemma toy_tx_proto_laws : @TxProtoLaws toy_tx_proto.
Proof.
  split; intros x.
  - exists (toy_encode x). by rewrite <- toy_decode_encode.
  - exists (toy_encode x). by rewrite <- toy_decode_encode.
  - by exists [].
  - exists (toy_encode x). by rewrite <- toy_decode_encode.
  - simpl. by rewrite string_pos_string, decode_encode.
Qed.

(** ** Runs *)

(** A readable instance for runs: a transaction is its message and its sequence. *)
Definition plain_tx_proto : TxProto := {|
  encode_body := λ m, Ok (concat (map value (tb_messages m)));
  encode_auth_info := λ a, Ok (map si_sequence (ai_signer_infos a));
  encode_sign_doc := λ _, Ok [];
  encode_tx_raw := λ t, Ok (stx_body_bytes t ++ stx_auth_info_bytes t)%list;
  decode_body := λ _, None;
  decode_auth_info := λ _, None;
  decode_tx_raw := λ _, None;
  base64_encode := string_of_bytes;
  base64_decode := λ s, Ok (string_bytes s);
|}.

Section Runs.
#[local] Existing Instance demo_external.
#[local] Existing Instance demo_proof_external.
#[local] Existing Instance toy_bech32.
#[local] Existing Instance plain_tx_proto.
#[local] Instance demo_debug : BuildMode := true.

Definition demo_key : KeyPair := from_seed (replicate 32 7).
Definition demo_signer : CosmosAddress :=
  let a := cosmos_account_from_pubkey (public demo_key) in
  match encode_bech32 "cosmos" a with
  | Ok s => {| ca_account := a; ca_bech32 := s |}
  | _ => {| ca_account := a; ca_bech32 := "" |}
  end.
Definition demo_msg : BridgeMessage := BFinalizeEpoch demo_signer 7.

(** The account advances its sequence with every lookup. *)
Definition demo_account (n : nat) : outcome string (RestReply AuthAccountInner) :=
  Ok {| rs_status := 200; rs_body := ""; rs_parsed := Ok (AuthBase {|
    ba_account_number := "1"; ba_sequence := display (Z.of_nat n); ba_address := "" |}) |}.
Definition answer (c : Z) : outcome string (RpcReply BroadcastTxResponse) :=
  Ok {| rp_status := 200; rp_text := ""; rp_error := None; rp_parsed := Ok {|
    tx_hash := "AB"; code := c; data := ""; log := ""; codespace := "sdk" |} |}.
Definition no_commit (n : nat) (tx : bytes) : outcome string (RpcReply BroadcastTxCommitResult) :=
  Err "unreachable".
Definition demo_net : Net := {| lookups := 0; sent := []; reads := 0 |}.
Definition demo_submit (answers : nat → Z) :=
  submit (local_pole "pole-1") demo_account (λ n _, answer (answers n)) no_commit
    (λ n, 1000 * Z.of_nat n) demo_msg demo_signer demo_key BroadcastOptions_default demo_net.

(** A stale sequence (code 32) is re-signed. *)
Example stale_sequence_resigned :
  match demo_submit (λ n, if (n =? 0)%nat then 32 else 0) with
  | (Ok resp, n') => code resp = 0 ∧ length (sent n') = 2%nat ∧ NoDup (sent n')
  | _ => False
  end.
Proof.
  vm_compute. split_and!; [done|done|]. apply NoDup_cons. split; [|apply NoDup_singleton].
  rewrite list_elem_of_singleton. discriminate.
Qed.

(** Code 19 is in the set that [submit] would re-sign, but [broadcast] spends its own
    retries on the same bytes and fails: [submit] never re-signs after it. *)
Example pending_tx_not_resigned :
  ∃ tx l, (λ rn, (rn.1, sent rn.2, lookups rn.2)) (demo_submit (λ n, if (n <? 3)%nat then 19 else 0)) =
    (Err (BroadcastExhausted 3 l), [tx; tx; tx], 1%nat).
Proof. vm_compute. by do 2 eexists. Qed.
End Runs.


Lemma submit_spec_witness :
  let run := @submit true demo_external demo_proof_external toy_bech32 toy_tx_proto
    (local_pole "pole-1") demo_account (λ _ _, answer 0) no_commit (λ n, 1000 * Z.of_nat n)
    demo_msg demo_signer demo_key BroadcastOptions_default demo_net in
  ∃ txs, sent run.2 = txs ∧ (length txs <= 9)%nat.
Proof.
  intros run.
  destruct (submit_spec (TL:=toy_tx_proto_laws) _ _ _ _ _ _ _ _ _ _ _ _ (surjective_pairing run))
    as (txs & Hs & Hl & _). exists txs. split; [exact Hs|exact Hl].
Defined.
