(* ===== verification/Progress.v ===== *)
(** * Bookkeeping of the daemon: src/src/node_daemon.rs

    The cursor over epochs and slots, the adjustment cycles of the fixed player reward,
    the health of activity sources, heartbeat buckets and the summaries of a run. A file
    that is loaded is the parsed content, [None] when it does not exist; the store of the
    local chain is the argument [store], as in ActiveParams. *)
From S2P Require Import Prelude Primitives Params Records Store Tokenomics Rewards Text NodeConfig Pipeline ActiveParams PlayerTicks Settlement.
Local Open Scope pole_scope.
Local Open Scope string_scope.
Local Open Scope Z_scope.

(** ** [LocalNodeProgress] *)

(** The six values of an adjustment cycle. The struct has each of them twice, under its
    old name and under its new one: the field named in the comment and the one after it. *)
Record CycleFields := {
  (** [current_reward_adjustment_period_index], [current_adjustment_cycle_index] *)
  cy_index : Z;
  (** [current_fixed_block_reward], [current_fixed_player_reward] *)
  cy_reward : Amount;
  (** [current_fixed_block_reward_basis_period_index],
      [current_fixed_player_reward_basis_cycle_index] *)
  cy_basis_index : Z;
  (** [current_fixed_block_reward_basis_network_weight_units],
      [current_fixed_player_reward_basis_total_network_weight_units] *)
  cy_basis_weight : Amount;
  (** [previous_reward_adjustment_period_network_weight_units],
      [previous_adjustment_cycle_total_network_weight_units] *)
  cy_previous_weight : Amount;
  (** [current_reward_adjustment_period_network_weight_units],
      [current_adjustment_cycle_total_network_weight_units] *)
  cy_current_weight : Amount;
}.

Record LocalNodeProgress := {
  next_epoch_id : EpochId;
  next_slot_id : SlotId;
  ticks_completed : Z;
  reward_blocks_completed : Z;
  (** the fields under their old and under their new names *)
  legacy : CycleFields;
  cycle : CycleFields;
  pending_reward_block : option PendingPlayerRewardBlockState;
}.

Definition with_fields (p : LocalNodeProgress) (old new : CycleFields) : LocalNodeProgress := {|
  next_epoch_id := next_epoch_id p; next_slot_id := next_slot_id p;
  ticks_completed := ticks_completed p; reward_blocks_completed := reward_blocks_completed p;
  legacy := old; cycle := new; pending_reward_block := pending_reward_block p |}.
(** An update of a value writes both of its names. *)
Definition set_both (f : CycleFields → CycleFields) (p : LocalNodeProgress) : LocalNodeProgress :=
  with_fields p (f (legacy p)) (f (cycle p)).
Definition with_pending (p : LocalNodeProgress) (b : option PendingPlayerRewardBlockState)
    : LocalNodeProgress := {|
  next_epoch_id := next_epoch_id p; next_slot_id := next_slot_id p;
  ticks_completed := ticks_completed p; reward_blocks_completed := reward_blocks_completed p;
  legacy := legacy p; cycle := cycle p; pending_reward_block := b |}.
Definition with_blocks (p : LocalNodeProgress) (n : Z) : LocalNodeProgress := {|
  next_epoch_id := next_epoch_id p; next_slot_id := next_slot_id p;
  ticks_completed := ticks_completed p; reward_blocks_completed := n;
  legacy := legacy p; cycle := cycle p; pending_reward_block := pending_reward_block p |}.

Definition set_current_adjustment_cycle_index (cycle_index : Z) : LocalNodeProgress → LocalNodeProgress :=
  set_both (λ c, {| cy_index := cycle_index; cy_reward := cy_reward c;
    cy_basis_index := cy_basis_index c; cy_basis_weight := cy_basis_weight c;
    cy_previous_weight := cy_previous_weight c; cy_current_weight := cy_current_weight c |}).
Definition set_current_fixed_player_reward (reward : Amount) : LocalNodeProgress → LocalNodeProgress :=
  set_both (λ c, {| cy_index := cy_index c; cy_reward := reward;
    cy_basis_index := cy_basis_index c; cy_basis_weight := cy_basis_weight c;
    cy_previous_weight := cy_previous_weight c; cy_current_weight := cy_current_weight c |}).
Definition set_fixed_player_reward_basis (basis_cycle_index : Z) (basis_weight : Amount)
    : LocalNodeProgress → LocalNodeProgress :=
  set_both (λ c, {| cy_index := cy_index c; cy_reward := cy_reward c;
    cy_basis_index := basis_cycle_index; cy_basis_weight := basis_weight;
    cy_previous_weight := cy_previous_weight c; cy_current_weight := cy_current_weight c |}).
Definition set_previous_adjustment_cycle_total_network_weight_units (weight : Amount)
    : LocalNodeProgress → LocalNodeProgress :=
  set_both (λ c, {| cy_index := cy_index c; cy_reward := cy_reward c;
    cy_basis_index := cy_basis_index c; cy_basis_weight := cy_basis_weight c;
    cy_previous_weight := weight; cy_current_weight := cy_current_weight c |}).
Definition set_current_adjustment_cycle_total_network_weight_units (weight : Amount)
    : LocalNodeProgress → LocalNodeProgress :=
  set_both (λ c, {| cy_index := cy_index c; cy_reward := cy_reward c;
    cy_basis_index := cy_basis_index c; cy_basis_weight := cy_basis_weight c;
    cy_previous_weight := cy_previous_weight c; cy_current_weight := weight |}).

(** [sync_legacy_adjustment_fields] *)
Definition sync_legacy_adjustment_fields (p : LocalNodeProgress) : LocalNodeProgress :=
  with_fields p (cycle p) (cycle p).

(** [normalize_adjustment_cycle_fields]: a new field that is zero takes the old value. *)
Definition normalize_progress (p : LocalNodeProgress) : LocalNodeProgress :=
  let old := legacy p in let new := cycle p in
  let p := with_fields p old {|
    cy_index := or_if_zero (cy_index new) (cy_index old);
    cy_reward := or_if_zero (cy_reward new) (cy_reward old);
    cy_basis_index := or_if_zero (cy_basis_index new) (cy_basis_index old);
    cy_basis_weight := or_if_zero (cy_basis_weight new) (cy_basis_weight old);
    cy_previous_weight := or_if_zero (cy_previous_weight new) (cy_previous_weight old);
    cy_current_weight := or_if_zero (cy_current_weight new) (cy_current_weight old) |} in
  let p := with_pending p (normalize_pending <$> pending_reward_block p) in
  sync_legacy_adjustment_fields p.

Definition advance `{BuildMode} (p : LocalNodeProgress) (slots : Z) : option LocalNodeProgress :=
  ticks ← add 64 (ticks_completed p) 1;
  cursor ← (if slots <=? next_slot_id p
            then e ← add 64 (next_epoch_id p) 1; Some (e, 1)
            else s ← add 64 (next_slot_id p) 1; Some (next_epoch_id p, s));
  Some {| next_epoch_id := cursor.1; next_slot_id := cursor.2; ticks_completed := ticks;
          reward_blocks_completed := reward_blocks_completed p;
          legacy := legacy p; cycle := cycle p; pending_reward_block := pending_reward_block p |}.

(** The method [current_reward_adjustment_period_index(blocks_per_period)]. *)
Definition adjustment_period_index (p : LocalNodeProgress) (blocks_per_period : Z) : Z :=
  reward_blocks_completed p / Z.max blocks_per_period 1.

Section Cycles.
Context `{B : BuildMode} {DB : Type} `{PS : ProtocolStore DB}.
Context (store : option DB) (config : NodeConfig).

Definition default_from_config : LocalNodeProgress :=
  let zero := {| cy_index := 0; cy_reward := effective_player_block_reward_of store config;
    cy_basis_index := 0; cy_basis_weight := 0; cy_previous_weight := 0; cy_current_weight := 0 |} in
  normalize_progress {|
    next_epoch_id := default_epoch_id (nc_collect config);
    next_slot_id := default_slot_id (nc_collect config);
    ticks_completed := 0; reward_blocks_completed := 0; legacy := zero; cycle := zero;
    pending_reward_block := None |}.

(** [load_or_default], on the parsed file. *)
Definition load_progress {E} (file : option (outcome E LocalNodeProgress))
    : outcome E LocalNodeProgress :=
  match file with
  | None => Ok default_from_config
  | Some r => do? p <- r; Ok (normalize_progress p)
  end.

(** The content that [save_json] writes. *)
Definition saved_progress (p : LocalNodeProgress) : LocalNodeProgress := normalize_progress p.

(** [samples] is only named in the function. *)
Definition current_fixed_block_reward_step (p : LocalNodeProgress) (period_index : Z)
    : option (Amount * LocalNodeProgress) :=
  let base := Z.max (effective_player_block_reward_of store config) 1 in
  let p := if cy_reward (cycle p) =? 0 then set_current_fixed_player_reward base p else p in
  if reward_blocks_completed p =? 0 then
    let p := set_current_adjustment_cycle_index period_index p in
    let p := set_current_fixed_player_reward base p in
    let p := set_fixed_player_reward_basis period_index 0 p in
    Some (base, p)
  else if negb (period_index =? cy_index (cycle p)) then
    let previous_weight := cy_current_weight (cycle p) in
    let previous_index := cy_index (cycle p) in
    reward ← (if previous_weight =? 0 then Some base
              else adjusted_player_block_reward base
                     (effective_target_network_weight_units store config) previous_weight
                     (effective_reward_adjustment_cap_bps store config));
    let p := set_previous_adjustment_cycle_total_network_weight_units previous_weight p in
    let p := set_current_adjustment_cycle_total_network_weight_units 0 p in
    let p := set_current_adjustment_cycle_index period_index p in
    let p := set_current_fixed_player_reward (Z.max reward 1) p in
    let p := set_fixed_player_reward_basis previous_index previous_weight p in
    Some (cy_reward (cycle p), p)
  else Some (Z.max (cy_reward (cycle p)) 1, p).

(** The first record of each block counts. *)
Fixpoint first_of_blocks (seen : gset Z) (records : list PlayerRewardBlockRecord)
    : list PlayerRewardBlockRecord :=
  match records with
  | [] => []
  | r :: records =>
      if bool_decide (pb_block_index r ∈ seen) then first_of_blocks seen records
      else r :: first_of_blocks ({[pb_block_index r]} ∪ seen) records
  end.

Definition completed_fixed_player_reward_cycle_total_network_weight_units
    (artifact : PlayerRewardTickArtifact) : option Amount :=
  sum_checked 128 (pb_total_network_weight_units <$> first_of_blocks ∅ (pt_records artifact)).

(** What the tick adds to the cycle once its artifacts are written. *)
Definition account_tick (p : LocalNodeProgress) (artifact : PlayerRewardTickArtifact)
    : option LocalNodeProgress :=
  weight ← completed_fixed_player_reward_cycle_total_network_weight_units artifact;
  let p := set_current_adjustment_cycle_total_network_weight_units
    (saturating_add 128 (cy_current_weight (cycle p)) weight) p in
  Some (with_blocks p (saturating_add 64 (reward_blocks_completed p)
    (pt_completed_reward_block_count artifact))).
End Cycles.

(** ** The artifacts of adjustment cycles *)

Record RewardAdjustmentArtifact := {
  ra_adjustment_cycle_index : Z;
  ra_basis_cycle_index : Z;
  ra_basis_total_network_weight_units : Amount;
  ra_target_total_network_weight_units : Amount;
  ra_reward_adjustment_cap_bps : Z;
  ra_adjustment_cycle_blocks : Z;
  ra_reward_block_secs : Z;
  ra_base_fixed_player_reward : Amount;
  ra_fixed_player_reward : Amount;
}.

Record RewardAdjustmentIndexEntry := {
  re_adjustment_cycle_index : Z;
  re_basis_cycle_index : Z;
  re_fixed_player_reward : Amount;
  re_artifact_path : string;
}.

Record RewardAdjustmentArtifactSummary := {
  rm_adjustment_artifact_count : Z;
  rm_latest_adjustment_cycle_index : option Z;
  rm_latest_basis_cycle_index : option Z;
  rm_latest_fixed_player_reward : option Amount;
  rm_artifact_index_path : string;
}.

Definition upsert_adjustment_artifact (index : list RewardAdjustmentIndexEntry)
    (adjustment_cycle_index basis_cycle_index : Z) (fixed_player_reward : Amount)
    (artifact_path : string) : list RewardAdjustmentIndexEntry :=
  sort_by_key re_adjustment_cycle_index
    (upsert_by (λ e, re_adjustment_cycle_index e =? adjustment_cycle_index)
      {| re_adjustment_cycle_index := adjustment_cycle_index;
         re_basis_cycle_index := basis_cycle_index;
         re_fixed_player_reward := fixed_player_reward; re_artifact_path := artifact_path |} index).

Definition current_adjustment_cycle_artifact {DB} `{ProtocolStore DB} (store : option DB)
    (config : NodeConfig) (p : LocalNodeProgress) : RewardAdjustmentArtifact := {|
  ra_adjustment_cycle_index := cy_index (legacy p);
  ra_basis_cycle_index := cy_basis_index (legacy p);
  ra_basis_total_network_weight_units := cy_basis_weight (legacy p);
  ra_target_total_network_weight_units := effective_target_network_weight_units store config;
  ra_reward_adjustment_cap_bps := effective_reward_adjustment_cap_bps store config;
  ra_adjustment_cycle_blocks := reward_adjustment_period_blocks (nc_reward config);
  ra_reward_block_secs := effective_reward_block_secs store config;
  ra_base_fixed_player_reward := effective_player_block_reward_of store config;
  ra_fixed_player_reward := cy_reward (legacy p) |}.

(** The summary of the index; the fields with the old names repeat these. *)
Definition adjustment_summary (index : list RewardAdjustmentIndexEntry) (index_path : string)
    : RewardAdjustmentArtifactSummary := {|
  rm_adjustment_artifact_count := Z.of_nat (length index);
  rm_latest_adjustment_cycle_index := re_adjustment_cycle_index <$> last index;
  rm_latest_basis_cycle_index := re_basis_cycle_index <$> last index;
  rm_latest_fixed_player_reward := re_fixed_player_reward <$> last index;
  rm_artifact_index_path := index_path |}.

(** [persist_adjustment_cycle_artifact]: the three files it writes, from the index file. *)
Definition persist_adjustment_cycle_artifact {DB} `{ProtocolStore DB} (store : option DB)
    (config : NodeConfig) (path_of : Z → string) (index_path : string)
    (index : list RewardAdjustmentIndexEntry) (p : LocalNodeProgress)
    : RewardAdjustmentArtifact * list RewardAdjustmentIndexEntry * RewardAdjustmentArtifactSummary :=
  let artifact := current_adjustment_cycle_artifact store config p in
  let index := upsert_adjustment_artifact index (ra_adjustment_cycle_index artifact)
    (ra_basis_cycle_index artifact) (ra_fixed_player_reward artifact)
    (path_of (cy_index (legacy p))) in
  (artifact, index, adjustment_summary index index_path).

(** ** The progress through a tick *)

(** What a tick reads from outside: the samples of the sources, the running processes,
    and the play sessions stored for the slot. *)
Record TickInputs := {
  ti_samples : list ActivitySample;
  ti_active_game_processes : list string;
  ti_foreground_process : option string;
  ti_sessions : gmap AppId string;
}.

(** What a tick leaves: the cycle it fell in, its fixed reward and its artifact. *)
Record TickRecord := {
  tr_index : Z;
  tr_reward : Amount;
  tr_artifact : PlayerRewardTickArtifact;
}.

Definition effective_collect_interval_secs (config : NodeConfig) (active_game_processes : list string)
    : Z :=
  if low_impact_mode (runtime config) && bool_decide (active_game_processes ≠ [])
  then Z.max (poll_interval_secs (runtime config)) (game_active_poll_interval_secs (runtime config))
  else poll_interval_secs (runtime config).

Section TickProgress.
Context `{B : BuildMode} {DB : Type} `{PS : ProtocolStore DB}.
Context (infer_reward_game_mapping : string → option RewardGameMapping).
Context (store : option DB) (config : NodeConfig).

Definition tick_context (p : LocalNodeProgress) (interval index : Z) (reward : Amount)
    : RewardTickContext := {|
  tc_epoch_id := next_epoch_id p; tc_slot_id := next_slot_id p; tc_session_id := "";
  tc_sampled_interval_secs := interval;
  tc_fixed_block_reward := reward; tc_fixed_player_reward := reward;
  tc_reward_adjustment_period_index := index; tc_adjustment_cycle_index := index;
  tc_fixed_block_reward_basis_period_index := cy_basis_index (legacy p);
  tc_fixed_player_reward_basis_cycle_index := cy_basis_index (legacy p);
  tc_fixed_block_reward_basis_network_weight_units := cy_basis_weight (legacy p);
  tc_fixed_player_reward_basis_total_network_weight_units := cy_basis_weight (legacy p) |}.

(** The progress and the artifact of [collect_tick_context]; the files it writes besides
    are those of [persist_adjustment_cycle_artifact] and of the activity sources. *)
Definition collect_tick_context (p : LocalNodeProgress) (ti : TickInputs)
    : option (TickRecord * LocalNodeProgress) :=
  let interval := Z.max (effective_collect_interval_secs config (ti_active_game_processes ti)) 1 in
  let index := adjustment_period_index p (reward_adjustment_period_blocks (nc_reward config)) in
  '(reward, p) ← current_fixed_block_reward_step store config p index;
  tick ← record_player_reward_tick infer_reward_game_mapping store config (ti_sessions ti)
    (tick_context p interval index reward) (pending_reward_block p) (ti_foreground_process ti)
    (ti_active_game_processes ti) (ti_samples ti);
  Some ({| tr_index := index; tr_reward := reward; tr_artifact := tk_artifact tick |},
        with_pending p (tk_pending_state tick)).

(** The progress of [run_collect_tick_with_client_inner], up to the advanced cursor it
    saves; the steps between do not touch it. *)
Definition tick_progress (p : LocalNodeProgress) (ti : TickInputs)
    : option (TickRecord * LocalNodeProgress) :=
  '(t, p) ← collect_tick_context p ti;
  p ← account_tick p (tr_artifact t);
  p ← advance p (slots_per_epoch (runtime config));
  Some (t, p).

(** The ticks of a loop, oldest first. *)
Fixpoint run_ticks (p : LocalNodeProgress) (tis : list TickInputs)
    : option (list TickRecord * LocalNodeProgress) :=
  match tis with
  | [] => Some ([], p)
  | ti :: tis =>
      '(t, p) ← tick_progress p ti;
      '(ts, p) ← run_ticks p tis;
      Some (t :: ts, p)
  end.
End TickProgress.

(** * Properties *)

(** ** The fields under two names *)

(** The two names of every value agree. *)
Definition synced (p : LocalNodeProgress) : Prop := legacy p = cycle p.

Lemma normalize_synced p : synced (normalize_progress p).
Proof. done. Qed.

Lemma normalize_id p :
  synced p → pending_reward_block p = normalize_pending <$> pending_reward_block p →
  normalize_progress p = p.
Proof.
  destruct p as [ne ns tc rb [] [] pe]. unfold synced. cbn. intros [= -> -> -> -> -> ->] Hp.
  unfold normalize_progress, or_if_zero, sync_legacy_adjustment_fields, with_fields, with_pending. cbn.
  rewrite <- Hp. repeat case_match; done.
Qed.

(** What is saved is read back unchanged. *)
Lemma normalize_idempotent p : normalize_progress (normalize_progress p) = normalize_progress p.
Proof.
  apply normalize_id; [done|]. cbn. destruct (pending_reward_block p); [|done]. cbn.
  by rewrite normalize_pending_idempotent.
Qed.

Section Spec.
Context `{B : BuildMode} {DB : Type} `{PS : ProtocolStore DB}.
Context (infer : string → option RewardGameMapping).
Context (store : option DB) (config : NodeConfig).

Notation base := (Z.max (effective_player_block_reward_of store config) 1).
Notation target := (effective_target_network_weight_units store config).
Notation cap := (effective_reward_adjustment_cap_bps store config).
Notation blocks := (reward_adjustment_period_blocks (nc_reward config)).
Notation slots := (slots_per_epoch (runtime config)).
Notation step := (current_fixed_block_reward_step store config).

(** ** The cursor *)

(** The position of the slot the cursor names in the sequence of all slots. *)
Definition cursor_position (p : LocalNodeProgress) (n : Z) : Z :=
  next_epoch_id p * n + (next_slot_id p - 1).

Lemma advance_position p n p' :
  advance p n = Some p' → n < 2 ^ 64 → 1 <= next_slot_id p <= n →
  0 <= next_epoch_id p < 2 ^ 64 - 1 → 0 <= ticks_completed p < 2 ^ 64 - 1 →
  cursor_position p' n = cursor_position p n + 1 ∧
  ticks_completed p' = ticks_completed p + 1 ∧ 1 <= next_slot_id p' <= n ∧
  next_epoch_id p <= next_epoch_id p' <= next_epoch_id p + 1.
Proof.
  unfold advance, cursor_position. intros Hr Hsl Hs He Ht. rewrite (add_exact 64 (ticks_completed p)) in Hr by lia.
  cbn in Hr. destruct (Z.leb_spec n (next_slot_id p)) as [Hle|Hlt].
  - rewrite add_exact in Hr by lia. injection Hr as <-. cbn. nia.
  - rewrite add_exact in Hr by lia. injection Hr as <-. cbn. nia.
Qed.

(** ** The fixed reward of a cycle *)

(** The reference: from the cycle and the weight of every earlier tick, oldest first. *)
Definition cycle_weight (h : list (Z * Z)) (i : Z) : Z :=
  Z.min (lsum snd (filter (λ x, x.1 = i) h)) (umax 128).
Definition reward_spec (h : list (Z * Z)) (i : Z) : option Amount :=
  match last (filter (λ x, x.1 ≠ i) h) with
  | None => Some base
  | Some (j, _) =>
      if cycle_weight h j =? 0 then Some base
      else r ← adjusted_player_block_reward base target (cycle_weight h j) cap; Some (Z.max r 1)
  end.

Definition tick_weight (t : TickRecord) : Z :=
  default 0 (completed_fixed_player_reward_cycle_total_network_weight_units (tr_artifact t)).
Definition history (ts : list TickRecord) : list (Z * Z) := (λ t, (tr_index t, tick_weight t)) <$> ts.

Lemma cycle_weight_other h i w j : i ≠ j → cycle_weight (h ++ [(i, w)]) j = cycle_weight h j.
Proof.
  intros Hn. unfold cycle_weight. rewrite filter_app, filter_cons_False by (cbn; congruence).
  by rewrite filter_nil, app_nil_r.
Qed.

Lemma cycle_weight_same h i w :
  0 <= w → cycle_weight (h ++ [(i, w)]) i = saturating_add 128 (cycle_weight h i) w.
Proof.
  intros Hw. unfold cycle_weight, saturating_add.
  rewrite filter_app, filter_cons_True, filter_nil, lsum_app by done. cbn. unfold umax. lia.
Qed.

Lemma cycle_weight_fresh h i : Forall (λ x, x.1 ≠ i) h → cycle_weight h i = 0.
Proof.
  intros Hf. unfold cycle_weight.
  assert (filter (λ x : Z * Z, x.1 = i) h = []) as ->; [|done].
  induction Hf; [done|]. by rewrite filter_cons_False.
Qed.

(** The reward of a cycle depends on the cycles before it only. *)
Lemma reward_spec_snoc h i w : reward_spec (h ++ [(i, w)]) i = reward_spec h i.
Proof.
  unfold reward_spec. rewrite filter_app, (filter_cons_False _ (i, w)), filter_nil, app_nil_r
    by (cbn; congruence).
  destruct (last _) as [[j v]|] eqn:Hl; [|done].
  apply last_Some in Hl as (l' & Hl). assert ((j, v) ∈ filter (λ x : Z * Z, x.1 ≠ i) h) as Hin
    by (rewrite Hl; set_solver).
  apply list_elem_of_filter in Hin as [Hji _]. by rewrite cycle_weight_other.
Qed.

Lemma weight_nonneg art :
  0 <= default 0 (completed_fixed_player_reward_cycle_total_network_weight_units art).
Proof.
  destruct (completed_fixed_player_reward_cycle_total_network_weight_units art) eqn:Hw; [|done].
  eapply (sum_from_nonneg 128 0); [lia..|exact Hw].
Qed.

(** The progress after the ticks with history [h]. *)
Record cycle_inv (h : list (Z * Z)) (p : LocalNodeProgress) : Prop := {
  ci_blocks : 0 <= reward_blocks_completed p <= umax 64;
  ci_order : Forall (λ x, 0 <= x.1 <= cy_index (cycle p)) h;
  ci_index : 0 <= cy_index (cycle p) <= adjustment_period_index p blocks;
  ci_last : ∀ x, last h = Some x → x.1 = cy_index (cycle p);
  ci_weight : cy_current_weight (cycle p) = cycle_weight h (cy_index (cycle p));
  ci_paid : reward_blocks_completed p ≠ 0 →
    h ≠ [] ∧ reward_spec h (cy_index (cycle p)) = Some (cy_reward (cycle p)) ∧
    1 <= cy_reward (cycle p);
}.

Lemma period_index_0 p : reward_blocks_completed p = 0 → adjustment_period_index p blocks = 0.
Proof. unfold adjustment_period_index. intros ->. by rewrite Z.div_0_l by lia. Qed.

Lemma spec_first_cycle h : Forall (λ x, 0 <= x.1 <= 0) h → reward_spec h 0 = Some base.
Proof.
  intros Hh. unfold reward_spec. assert (filter (λ x : Z * Z, x.1 ≠ 0) h = []) as ->; [|done].
  induction Hh; [done|]. rewrite filter_cons_False by lia. done.
Qed.

(** The invariant between the reward step and the accounting of a tick. *)
Record mid_inv (h : list (Z * Z)) (i : Z) (p : LocalNodeProgress) : Prop := {
  mi_order : Forall (λ x, 0 <= x.1 <= i) h;
  mi_index : cy_index (cycle p) = i;
  mi_weight : cy_current_weight (cycle p) = cycle_weight h i;
  mi_paid : reward_spec h i = Some (cy_reward (cycle p)) ∧ 1 <= cy_reward (cycle p);
}.

Lemma spec_next_cycle h j i :
  h ≠ [] → Forall (λ x, 0 <= x.1 <= j) h → (∀ x, last h = Some x → x.1 = j) → j < i →
  reward_spec h i =
    if cycle_weight h j =? 0 then Some base
    else r ← adjusted_player_block_reward base target (cycle_weight h j) cap; Some (Z.max r 1).
Proof.
  intros Hne Hh Hl Hji. unfold reward_spec. rewrite filter_all; last first.
  { eapply Forall_impl; [exact Hh|]. cbn. intros x ?. lia. }
  destruct (last h) as [[k w]|] eqn:Hlast; [|by apply last_None in Hlast].
  by rewrite <- (Hl _ eq_refl).
Qed.

Lemma step_inv h p r p' :
  cycle_inv h p → step p (adjustment_period_index p blocks) = Some (r, p') →
  reward_spec h (adjustment_period_index p blocks) = Some r ∧
  mid_inv h (adjustment_period_index p blocks) p' ∧
  reward_blocks_completed p' = reward_blocks_completed p.
Proof.
  intros [Hb Ho Hi Hl Hw Hp]. unfold current_fixed_block_reward_step.
  set (i := adjustment_period_index p blocks) in *.
  set (p0 := if cy_reward (cycle p) =? 0 then _ else p).
  assert (cy_index (cycle p0) = cy_index (cycle p) ∧
    cy_current_weight (cycle p0) = cy_current_weight (cycle p) ∧
    reward_blocks_completed p0 = reward_blocks_completed p) as (Ei & Ew & Eb)
    by (unfold p0; destruct (_ =? 0); done).
  rewrite Ei, Ew, Eb. destruct (Z.eqb_spec (reward_blocks_completed p) 0) as [H0|H0].
  - intros [= <- <-]. assert (i = 0) as Hi0 by (by apply period_index_0).
    assert (Forall (λ x, 0 <= x.1 <= 0) h) as Hh.
    { eapply Forall_impl; [exact Ho|]. cbn. lia. }
    assert (reward_spec h i = Some base) as Hs by (rewrite Hi0; by apply spec_first_cycle).
    split_and!; [done| |done]. split; cbn.
    + by rewrite Hi0.
    + done.
    + rewrite Ew, Hw. f_equal. lia.
    + split; [done|lia].
  - destruct (Hp H0) as (Hne & Hs & Hr). destruct (Z.eqb_spec i (cy_index (cycle p))) as [He|He]; cbn.
    + assert (p0 = p) as -> by (unfold p0; by rewrite (proj2 (Z.eqb_neq _ 0)) by lia).
      intros [= <- <-]. rewrite Z.max_l by lia. rewrite He. by split_and!; [|split|].
    + rewrite Hw.
      assert (Forall (λ x, x.1 ≠ i) h) as Hf by (eapply Forall_impl; [exact Ho|]; cbn; lia).
      intros (r0 & Hr0 & [= <- <-])%bind_Some. cbn.
      assert (reward_spec h i = Some (Z.max r0 1)) as Hspec.
      { rewrite (spec_next_cycle h (cy_index (cycle p)) i) by (done || lia).
        destruct (cycle_weight h _ =? 0); [injection Hr0 as <-; f_equal; lia|]. by rewrite Hr0. }
      split_and!; [exact Hspec| |unfold p0; by destruct (_ =? 0)].
      split; cbn; [|done|by rewrite cycle_weight_fresh|split; [done|lia]].
      eapply Forall_impl; [exact Ho|]. cbn. lia.
Qed.

Lemma account_inv h p t p' :
  let i := tr_index t in
  0 <= reward_blocks_completed p <= umax 64 → i = adjustment_period_index p blocks → 0 <= i →
  0 <= pt_completed_reward_block_count (tr_artifact t) →
  mid_inv h i p → account_tick p (tr_artifact t) = Some p' →
  cycle_inv (h ++ [(i, tick_weight t)]) p'.
Proof.
  intros i Hb Hi Hi0 Hc [Ho Hx Hw [Hs Hr]] (w & Hwt & [= <-])%bind_Some.
  assert (tick_weight t = w) as Htw by (unfold tick_weight; by rewrite Hwt).
  assert (0 <= w) by (rewrite <- Htw; apply weight_nonneg).
  split; cbn; rewrite ?Hx, ?Hw, ?Htw.
  - unfold saturating_add. lia.
  - rewrite Forall_app, Forall_singleton. cbn. split; [done|lia].
  - split; [done|]. rewrite Hi. unfold adjustment_period_index. cbn. unfold saturating_add.
    apply Z.div_le_mono; lia.
  - intros x. rewrite last_snoc. by intros [= <-].
  - by rewrite cycle_weight_same.
  - intros _. rewrite reward_spec_snoc. split_and!; [by destruct h|done|done].
Qed.

(** ** Runs *)

Lemma tick_loop_count ctx block_secs game ids samples fuel st st' :
  0 <= ts_count st → tick_loop store config ctx block_secs game ids samples fuel st = Some st' →
  0 <= ts_count st'.
Proof.
  revert st. induction fuel as [|fuel IH]; intros st H0; cbn; [by intros [= <-]|].
  destruct (0 <? ts_remaining st); [|by intros [= <-]].
  intros (st1 & Hs & Hl)%bind_Some. refine (IH st1 _ Hl).
  unfold tick_step in Hs. apply bind_Some in Hs as (p & _ & Hs).
  destruct (_ <? block_secs); [by injection Hs as <-|].
  apply bind_Some in Hs as (c & Hc & (i & _ & [= <-])%bind_Some). cbn.
  eapply arith_range in Hc; lia.
Qed.

Lemma tick_count_nonneg sessions ctx pending fg names samples r :
  record_player_reward_tick infer store config sessions ctx pending fg names samples = Some r →
  0 <= pt_completed_reward_block_count (tk_artifact r) ∧
  pt_epoch_id (tk_artifact r) = tc_epoch_id ctx ∧ pt_slot_id (tk_artifact r) = tc_slot_id ctx.
Proof.
  unfold record_player_reward_tick. cbv zeta.
  intros (g & _ & (st & Hl & (tot & _ & [= <-])%bind_Some)%bind_Some)%bind_Some. cbn.
  split_and!; [|done..]. by eapply tick_loop_count in Hl.
Qed.

(** What a tick does to the progress, in the three parts of its record. *)
Lemma tick_progress_inv h p ti t p' :
  cycle_inv h p → tick_progress infer store config p ti = Some (t, p') →
  tr_index t = adjustment_period_index p blocks ∧
  reward_spec h (tr_index t) = Some (tr_reward t) ∧
  cycle_inv (h ++ [(tr_index t, tick_weight t)]) p'.
Proof.
  intros Hinv ([t0 p2] & Hc & (p3 & Ha & (p4 & Hd & [= <- <-])%bind_Some)%bind_Some)%bind_Some.
  unfold collect_tick_context in Hc. cbv zeta in Hc.
  apply bind_Some in Hc as ([r p1] & Hs & (k & Hk & [= <- <-])%bind_Some). cbn in *.
  destruct (step_inv h p r p1 Hinv Hs) as (Hspec & Hmid & Hb).
  destruct (tick_count_nonneg _ _ _ _ _ _ _ Hk) as [Hn _].
  assert (cycle_inv (h ++ [(adjustment_period_index p blocks,
    tick_weight {| tr_index := adjustment_period_index p blocks; tr_reward := r; tr_artifact := tk_artifact k |})]) p3)
    as Hinv3.
  { eapply (account_inv h (with_pending p1 (tk_pending_state k))
      {| tr_index := adjustment_period_index p blocks; tr_reward := r; tr_artifact := tk_artifact k |});
      [cbn; rewrite Hb; apply Hinv|cbn; unfold adjustment_period_index; cbn; by rewrite Hb
      |apply Z.le_trans with (cy_index (cycle p)); apply Hinv|done| |exact Ha].
    destruct Hmid. by split. }
  split_and!; [done|done|].
  assert (cycle p4 = cycle p3 ∧ reward_blocks_completed p4 = reward_blocks_completed p3) as [E1 E2].
  { unfold advance in Hd. by apply bind_Some in Hd as (? & _ & (? & _ & [= <-])%bind_Some). }
  destruct Hinv3. split; unfold adjustment_period_index in *; rewrite ?E1, ?E2; done.
Qed.

Lemma default_cycle_inv : cycle_inv [] (default_from_config store config).
Proof.
  unfold default_from_config, normalize_progress. split; cbn; done.
Qed.

Lemma run_ticks_inv ts0 p tis ts p' :
  cycle_inv (history ts0) p → run_ticks infer store config p tis = Some (ts, p') →
  cycle_inv (history (ts0 ++ ts)) p' ∧
  ∀ k t, ts !! k = Some t →
    reward_spec (history (ts0 ++ take k ts)) (tr_index t) = Some (tr_reward t).
Proof.
  revert ts0 p ts. induction tis as [|ti tis IH]; intros ts0 p ts Hinv; cbn.
  { intros [= <- <-]. rewrite app_nil_r. split; [done|]. by intros k t. }
  intros ([t p1] & Ht & ([ts1 p2] & Hrun & [= <- <-])%bind_Some)%bind_Some.
  destruct (tick_progress_inv _ _ _ _ _ Hinv Ht) as (_ & Hspec & Hinv1).
  assert (history ts0 ++ [(tr_index t, tick_weight t)] = history (ts0 ++ [t]))%list as Heq
    by (unfold history; by rewrite fmap_app).
  rewrite Heq in Hinv1. destruct (IH _ _ _ Hinv1 Hrun) as [Hend Hall]. rewrite <- app_assoc in Hend.
  split; [exact Hend|]. intros [|k] t'; cbn.
  - intros [= <-]. by rewrite app_nil_r.
  - intros Hk. specialize (Hall k t' Hk). by rewrite <- app_assoc in Hall.
Qed.

Section Cap.
Context (Hcap : 0 <= cap) (Hbase : base * 20000 < 2 ^ 128).
Context (Ht0 : 0 <= target) (Ht : target * 1000000000000 < 2 ^ 128 - 1).

Lemma adjusted_total w : 0 < w →
  ∃ r, adjusted_player_block_reward base target w cap = Some r ∧ 1 <= r ∧
    base * (10000 - Z.min cap 10000) / 10000 <= r <= Z.max 1 (base * (10000 + Z.min cap 10000) / 10000).
Proof using Hbase Hcap Ht Ht0.
  intros Hw. destruct (adjusted_player_block_reward base target w cap) as [r|] eqn:Hr.
  { exists r. pose proof (adjusted_reward_within_cap base target w cap r ltac:(lia) Hbase Hcap Hr).
    split; [done|lia]. }
  exfalso. unfold adjusted_player_block_reward in Hr. rewrite (proj2 (Z.eqb_neq base 0)) in Hr by lia.
  destruct ((target =? 0) || _); [done|]. cbv zeta in Hr.
  rewrite (saturating_mul_exact 128 target) in Hr by (clear Hr; lia).
  assert (target * 1000000000000 / w <= target * 1000000000000) by (apply Z.div_le_upper_bound; nia).
  rewrite integer_sqrt_ok in Hr; [done|]. split; [apply Z.div_pos; lia|lia].
Qed.

Lemma cycle_weight_nonneg h j : Forall (λ x, 0 <= x.2) h → 0 <= cycle_weight h j.
Proof.
  intros Hh. unfold cycle_weight.
  assert (0 <= lsum snd (filter (λ x : Z * Z, x.1 = j) h)); [|unfold umax; lia].
  apply lsum_nonneg. intros x [_ Hx]%list_elem_of_filter. rewrite Forall_forall in Hh. by apply Hh.
Qed.

Lemma reward_spec_total h i : Forall (λ x, 0 <= x.2) h →
  ∃ r, reward_spec h i = Some r ∧ 1 <= r ∧
    base * (10000 - Z.min cap 10000) / 10000 <= r <= Z.max 1 (base * (10000 + Z.min cap 10000) / 10000).
Proof using Hbase Hcap Ht Ht0.
  intros Hh. unfold reward_spec.
  assert (base * (10000 - Z.min cap 10000) / 10000 <= base
    <= base * (10000 + Z.min cap 10000) / 10000) as Hbb.
  { split; [apply Z.div_le_upper_bound|apply Z.div_le_lower_bound]; nia. }
  assert (∃ r, Some base = Some r ∧ 1 <= r ∧ base * (10000 - Z.min cap 10000) / 10000 <= r
    <= Z.max 1 (base * (10000 + Z.min cap 10000) / 10000)) as Hbase' by (exists base; split; [done|lia]).
  destruct (last _) as [[j w]|]; [|exact Hbase'].
  destruct (Z.eqb_spec (cycle_weight h j) 0) as [|Hn]; [exact Hbase'|].
  pose proof (cycle_weight_nonneg h j Hh).
  destruct (adjusted_total (cycle_weight h j) ltac:(lia)) as (r & -> & Hr). exists r.
  cbn. split; [f_equal; lia|lia].
Qed.

Lemma step_total h p : cycle_inv h p → Forall (λ x, 0 <= x.2) h →
  is_Some (step p (adjustment_period_index p blocks)).
Proof using Hbase Hcap Ht Ht0.
  intros Hinv Hh. unfold current_fixed_block_reward_step. set (p0 := if cy_reward (cycle p) =? 0 then _ else p).
  destruct (reward_blocks_completed p0 =? 0); [done|]. destruct (negb _); [|done].
  assert (cy_current_weight (cycle p0) = cycle_weight h (cy_index (cycle p))) as ->
    by (rewrite <- (ci_weight _ _ Hinv); unfold p0; by destruct (_ =? 0)).
  pose proof (cycle_weight_nonneg h (cy_index (cycle p)) Hh).
  destruct (Z.eqb_spec (cycle_weight h (cy_index (cycle p))) 0); [done|].
  destruct (adjusted_total (cycle_weight h (cy_index (cycle p))) ltac:(lia)) as (r & -> & _). done.
Qed.
End Cap.

Lemma run_ticks_length p tis ts p' :
  run_ticks infer store config p tis = Some (ts, p') → length ts = length tis.
Proof.
  revert p ts. induction tis as [|ti tis IH]; intros p ts; cbn; [by intros [= <- <-]|].
  intros ([t p1] & _ & ([ts1 p2] & Hrun & [= <- <-])%bind_Some)%bind_Some. cbn. f_equal. by eapply IH.
Qed.

(** C30: The fixed reward follows the adjustment cycles: after any run of ticks from the
    initial progress, every tick and the next one use the reward that the reference
    computes from the weights of the cycle before theirs, the whole of that cycle and
    nothing else; the next reward is always defined, at least one unit and within the
    cap around the base reward. *)
Theorem fixed_reward_follows_cycles tis ts p :
  0 <= cap → base * 20000 < 2 ^ 128 → 0 <= target → target * 1000000000000 < 2 ^ 128 - 1 →
  run_ticks infer store config (default_from_config store config) tis = Some (ts, p) →
  (∀ k t, ts !! k = Some t → reward_spec (history (take k ts)) (tr_index t) = Some (tr_reward t)) ∧
  ∃ r p', step p (adjustment_period_index p blocks) = Some (r, p') ∧
    reward_spec (history ts) (adjustment_period_index p blocks) = Some r ∧ 1 <= r ∧
    base * (10000 - Z.min cap 10000) / 10000 <= r <= Z.max 1 (base * (10000 + Z.min cap 10000) / 10000).
Proof.
  intros Hcap Hbase Ht0 Ht Hrun.
  destruct (run_ticks_inv [] _ _ _ _ default_cycle_inv Hrun) as [Hinv Hall]. split; [exact Hall|].
  change ([] ++ ts)%list with ts in Hinv. assert (Forall (λ x, 0 <= x.2) (history ts)) as Hh.
  { unfold history. apply Forall_fmap, Forall_true. intros t. apply weight_nonneg. }
  destruct (reward_spec_total Hcap Hbase Ht0 Ht (history ts) (adjustment_period_index p blocks) Hh)
    as (r & Hr & Hb). exists r.
  assert (is_Some (step p (adjustment_period_index p blocks))) as [[r' p'] Hs].
  { by apply (step_total Hcap Hbase Ht0 Ht (history ts)). }
  exists p'. destruct (step_inv _ _ _ _ Hinv Hs) as [Hspec _]. rewrite Hr in Hspec.
  injection Hspec as <-. done.
Qed.

(** ** The slots of a run *)

Lemma tick_progress_cursor p ti t p' :
  tick_progress infer store config p ti = Some (t, p') →
  pt_epoch_id (tr_artifact t) = next_epoch_id p ∧ pt_slot_id (tr_artifact t) = next_slot_id p ∧
  ∃ p0, advance p0 (slots_per_epoch (runtime config)) = Some p' ∧
    next_epoch_id p0 = next_epoch_id p ∧ next_slot_id p0 = next_slot_id p ∧
    ticks_completed p0 = ticks_completed p.
Proof.
  intros ([t0 p2] & Hc & (p3 & Ha & (p4 & Hd & [= <- <-])%bind_Some)%bind_Some)%bind_Some.
  unfold collect_tick_context in Hc. cbv zeta in Hc.
  apply bind_Some in Hc as ([r p1] & Hs & (k & Hk & [= <- <-])%bind_Some). cbn in *.
  assert (next_epoch_id p1 = next_epoch_id p ∧ next_slot_id p1 = next_slot_id p ∧
    ticks_completed p1 = ticks_completed p) as (E1 & E2 & E3).
  { clear Hk. unfold current_fixed_block_reward_step in Hs.
    set (p0 := if cy_reward (cycle p) =? 0 then _ else p) in Hs.
    assert (next_epoch_id p0 = next_epoch_id p ∧ next_slot_id p0 = next_slot_id p ∧
      ticks_completed p0 = ticks_completed p) as Hp0 by (unfold p0; by destruct (_ =? 0)).
    destruct (reward_blocks_completed p0 =? 0); [by injection Hs as _ <-|].
    destruct (negb _); [|by injection Hs as _ <-].
    by apply bind_Some in Hs as (? & _ & [= _ <-]). }
  destruct (tick_count_nonneg _ _ _ _ _ _ _ Hk) as (_ & -> & ->). cbn. split_and!; [done..|].
  exists p3. split; [done|]. apply bind_Some in Ha as (w & _ & [= <-]). done.
Qed.

(** C31: A run collects every slot once and in order: from a slot of the epoch, the [k]-th
    tick of a run is the one of the [k]-th slot after it, counting through the epochs, and
    the cursor it leaves names the slot after the last. *)
Theorem ticks_visit_slots_in_order p tis ts p' :
  slots < 2 ^ 64 → 1 <= next_slot_id p <= slots →
  0 <= next_epoch_id p → next_epoch_id p + Z.of_nat (length tis) < 2 ^ 64 →
  0 <= ticks_completed p → ticks_completed p + Z.of_nat (length tis) < 2 ^ 64 →
  run_ticks infer store config p tis = Some (ts, p') →
  (∀ k t, ts !! k = Some t →
     pt_epoch_id (tr_artifact t) * slots + (pt_slot_id (tr_artifact t) - 1)
       = cursor_position p slots + Z.of_nat k ∧ 1 <= pt_slot_id (tr_artifact t) <= slots) ∧
  length ts = length tis ∧
  cursor_position p' slots = cursor_position p slots + Z.of_nat (length tis) ∧
  1 <= next_slot_id p' <= slots ∧
  ticks_completed p' = ticks_completed p + Z.of_nat (length tis).
Proof.
  intros Hslots. revert p ts. induction tis as [|ti tis IH]; intros p ts Hs He0 He Ht0 Ht; cbn.
  { intros [= <- <-]. split_and!; [done|done|lia..]. }
  intros ([t p1] & Hp & ([ts1 p2] & Hrun & [= <- <-])%bind_Some)%bind_Some. cbn [length] in *.
  destruct (tick_progress_cursor _ _ _ _ Hp) as (Et & Es & p0 & Ha & E1 & E2 & E3).
  rewrite <- E1, <- E2, <- E3 in *.
  destruct (advance_position _ _ _ Ha Hslots) as (Hpos & Htk & Hs1 & He1); [lia..|].
  destruct (IH p1 ts1 Hs1) as (Hall & Hlen & Hend & Hs2 & Ht2); [lia..|exact Hrun|].
  assert (cursor_position p0 slots = cursor_position p slots) as Hpp
    by (unfold cursor_position; by rewrite E1, E2).
  split_and!; [|cbn; lia|lia..].
  intros [|k] t'; cbn; [intros [= <-]; rewrite Et, Es; unfold cursor_position in *; lia|].
  intros Hk. destruct (Hall k t' Hk). lia.
Qed.
End Spec.

(** ** Six ticks of a quarter of an hour, with blocks of half an hour and one block a cycle *)

Definition cycle_demo_config : NodeConfig :=
  let c := demo_config [demo_game] in {|
  nc_chain_id := nc_chain_id c; node_id_hex := node_id_hex c;
  reward_address_hex := reward_address_hex c; nc_capabilities := nc_capabilities c;
  nc_collect := {| collect_enabled := true; default_epoch_id := 1; default_slot_id := 1 |};
  runtime := {|
    data_dir := data_dir (runtime c); poll_interval_secs := 300; slots_per_epoch := 4;
    rt_challenge_window_blocks := 20; low_impact_mode := true; os_background_priority := true;
    game_active_poll_interval_secs := 900; game_process_names := []; target_app_ids := [730];
    p2p_simulation := P2pSimulationConfig_default; p2p_socket := P2pSocketConfig_default;
    activity_sources := [] |};
  nc_storage := nc_storage c;
  nc_reward := {|
    reward_source := Static; rc_emission_year := 1; rc_reward_block_secs := 1800;
    player_block_reward := 1000; reward_adjustment_period_blocks := 1;
    rc_target_network_weight_units := 6500000000; rc_reward_adjustment_cap_bps := 2000;
    rc_collect_reward_bps := 5000; rc_store_reward_bps := 2500; rc_verify_reward_bps := 1500;
    rc_propose_reward_bps := 1000; rc_tail_emission_start_year := LONG_TERM_TAIL_START_YEAR;
    rc_tail_emission_rate_bps := LONG_TERM_TAIL_EMISSION_RATE_BPS; game_mappings := [demo_game] |} |}.

Definition demo_inputs (players : Z) : TickInputs := {|
  ti_samples := [demo_sample 730 players]; ti_active_game_processes := ["game"];
  ti_foreground_process := Some "game"; ti_sessions := ∅ |}.

Definition demo_run : option (list TickRecord * LocalNodeProgress) :=
  run_ticks (B:=true) (DB:=InMemoryStore) (λ _, None) None cycle_demo_config
    (default_from_config (DB:=InMemoryStore) None cycle_demo_config)
    (demo_inputs <$> [3; 3; 4; 4; 1; 1]).

Example demo_run_rewards :
  (λ r : list TickRecord * LocalNodeProgress, ((λ t, (tr_index t, tr_reward t, pt_epoch_id (tr_artifact t), pt_slot_id (tr_artifact t))) <$> r.1,
    (next_epoch_id r.2, next_slot_id r.2))) <$> demo_run
  = Some ([(0, 1000, 1, 1); (0, 1000, 1, 2); (1, 1097, 1, 3); (1, 1097, 1, 4); (2, 950, 2, 1);
    (2, 950, 2, 2)], (2, 3)).
Proof. vm_compute. reflexivity. Qed.

Lemma demo_run_ok :
  ∃ ts p, run_ticks (B:=true) (DB:=InMemoryStore) (λ _, None) None cycle_demo_config
    (default_from_config (DB:=InMemoryStore) None cycle_demo_config)
    (demo_inputs <$> [3; 3; 4; 4; 1; 1]) = Some (ts, p) ∧
    adjustment_period_index p (reward_adjustment_period_blocks (nc_reward cycle_demo_config)) = 3.
Proof. eexists _, _. split; [vm_compute; reflexivity|vm_compute; reflexivity]. Qed.

Lemma fixed_reward_follows_cycles_witness :
  ∃ ts p r p', length ts = 6%nat ∧
    reward_spec (B:=true) (DB:=InMemoryStore) None cycle_demo_config (history (B:=true) ts) 3 = Some r ∧
    current_fixed_block_reward_step (B:=true) (DB:=InMemoryStore) None cycle_demo_config p 3
      = Some (r, p').
Proof.
  destruct demo_run_ok as (ts & p & Hr & Hi).
  destruct (fixed_reward_follows_cycles (B:=true) (DB:=InMemoryStore) (λ _, None) None
    cycle_demo_config (demo_inputs <$> [3; 3; 4; 4; 1; 1]) ts p)
    as (_ & r & p' & Hs & Hspec & _); [vm_compute; done..|exact Hr|].
  rewrite Hi in Hs, Hspec. exists ts, p, r, p'.
  split_and!; [|exact Hspec|exact Hs]. exact (run_ticks_length _ _ _ _ _ _ _ Hr).
Defined.

Lemma ticks_visit_slots_in_order_witness :
  ∃ ts p, cursor_position p 4 = 4 + 6 ∧ length ts = 6%nat ∧
    ∀ k t, ts !! k = Some t →
      pt_epoch_id (tr_artifact t) * 4 + (pt_slot_id (tr_artifact t) - 1) = 4 + Z.of_nat k.
Proof.
  destruct demo_run_ok as (ts & p & Hr & _).
  destruct (ticks_visit_slots_in_order (B:=true) (DB:=InMemoryStore) (λ _, None) None
    cycle_demo_config (default_from_config (DB:=InMemoryStore) None cycle_demo_config)
    (demo_inputs <$> [3; 3; 4; 4; 1; 1]) ts p)
    as (Hall & Hlen & Hpos & _); [vm_compute; first [reflexivity|split; discriminate|discriminate]..|exact Hr|].
  exists ts, p. split_and!; [exact Hpos|exact Hlen|]. intros k t Hk. exact (proj1 (Hall k t Hk)).
Defined.
