(* ===== verification/ActivitySources.v ===== *)
(** * Activity sources: src/src/activity_collector.rs, src/src/steam_collector.rs and the
    collection of node_daemon.rs

    The collectors of the official platforms and of the community, the whitelist of their
    endpoints, the retries, the health of every source and the cross-validation of
    samples. The HTTP client is the argument [get_text], a method on a world of type [W];
    the JSON bodies are read by the class [ActivityJson], one method for each struct the
    code derives [Deserialize] for. The back-off sleeps are left out. *)
From S2P Require Import Prelude Primitives Params Records Tokenomics Rewards Pipeline Text NodeConfig NodeRuntime.
Local Open Scope pole_scope.
Local Open Scope string_scope.
Local Open Scope Z_scope.

(** ** steam_collector.rs, whose errors are in NodeRuntime *)

Definition steam_error_text (e : SteamCollectorError) : string :=
  match e with
  | SteamHttp err => "steam http error: " +:+ err
  | SteamInvalidJson err => "invalid steam response json: " +:+ err
  | SteamMissingResult => "steam response indicates failure"
  | SteamMissingPlayerCount => "steam response missing player_count"
  | SteamClock err => "clock error: " +:+ err
  end.

Record SteamCurrentPlayersBody := {
  sb_result : option Z;
  sb_player_count : option Z;
}.

(** [serde_json::from_str] into the structs of the responses; the error is its message. *)
Class ActivityJson := {
  (** [SteamCurrentPlayersEnvelope], whose one field is the body *)
  steam_json : string → outcome string SteamCurrentPlayersBody;
  (** [ThirdPartyActivityEnvelope]: [player_count] and [confidence_ppm] *)
  third_party_json : string → outcome string (option Z * option Z);
  (** [CommunityActivityEnvelope]: [estimated_players] and [confidence_ppm] *)
  community_json : string → outcome string (option Z * option Z);
}.

(** The integers serde accepts are those of the fields' types, u64 and u32. *)
Definition envelope_in_range (e : option Z * option Z) : Prop :=
  (∀ n, e.1 = Some n → 0 <= n < 2 ^ 64) ∧ (∀ n, e.2 = Some n → 0 <= n < 2 ^ 32).
Class ActivityJsonLaws `{ActivityJson} : Prop := {
  steam_json_range s b : steam_json s = Ok b → ∀ n, sb_player_count b = Some n → 0 <= n < 2 ^ 64;
  third_party_json_range s e : third_party_json s = Ok e → envelope_in_range e;
  community_json_range s e : community_json s = Ok e → envelope_in_range e;
}.

Definition current_players_url (app_id : AppId) : string :=
  "https://api.steampowered.com/ISteamUserStats/GetNumberOfCurrentPlayers/v1/?appid="
    +:+ display app_id.

Definition parse_current_players_response `{ActivityJson} (app_id : AppId)
    (observed_at_millis : UnixMillis) (body : string) : outcome SteamCollectorError ActivitySample :=
  do? response <- map_err SteamInvalidJson (steam_json body);
  if bool_decide (sb_result response = Some 0) then Err SteamMissingResult else
  match sb_player_count response with
  | None => Err SteamMissingPlayerCount
  | Some observed_players =>
      Ok (ActivitySample_new app_id observed_players observed_at_millis body Steam 1000000)
  end.

(** ** activity_collector.rs *)

Inductive ActivityCollectorError :=
| ActivityHttp (err : string)
| ActivityInvalidJson (err : string)
| MissingPlayerCount
| MissingConfidence
| MissingEndpoint
| MissingInlineJson
| UntrustedEndpoint (url : string).

Definition activity_error_text (e : ActivityCollectorError) : string :=
  match e with
  | ActivityHttp err => "activity http error: " +:+ err
  | ActivityInvalidJson err => "invalid activity response json: " +:+ err
  | MissingPlayerCount => "activity response missing player count"
  | MissingConfidence => "activity response missing confidence ppm"
  | MissingEndpoint => "activity source missing endpoint url"
  | MissingInlineJson => "community activity source missing inline json"
  | UntrustedEndpoint url =>
      "activity source endpoint url is not trusted for this source kind: " +:+ url
  end.

Definition from_steam_error (e : SteamCollectorError) : ActivityCollectorError :=
  ActivityHttp (steam_error_text e).

(** The two [ok_or(..)?] of the parsers, the player count first. *)
Definition envelope_values (e : option Z * option Z) : outcome ActivityCollectorError (Z * Z) :=
  match e with
  | (None, _) => Err MissingPlayerCount
  | (Some _, None) => Err MissingConfidence
  | (Some players, Some confidence) => Ok (players, confidence)
  end.

Definition parse_third_party_activity_response `{ActivityJson} (app_id : AppId)
    (observed_at_millis : UnixMillis) (body : string) (source_kind : ActivitySourceKind)
    : outcome ActivityCollectorError ActivitySample :=
  do? envelope <- map_err ActivityInvalidJson (third_party_json body);
  do? v <- envelope_values envelope;
  Ok (ActivitySample_new app_id v.1 observed_at_millis body source_kind v.2).

Definition parse_community_activity_response `{ActivityJson} (app_id : AppId)
    (observed_at_millis : UnixMillis) (body : string) : outcome ActivityCollectorError ActivitySample :=
  do? envelope <- map_err ActivityInvalidJson (community_json body);
  do? v <- envelope_values envelope;
  Ok (ActivitySample_new app_id v.1 observed_at_millis body Community (Z.min v.2 500000)).

Definition starts_with (s p : string) : bool := bool_decide (is_Some (strip_prefix s p)).

(** The prefixes that the match of the function lists for the official kinds. *)
Definition trusted_prefixes (source_kind : ActivitySourceKind) : list string :=
  match source_kind with
  | Steam => ["https://api.steampowered.com/"]
  | Epic => ["https://api.epicgames.dev/"; "https://store.epicgames.com/"; "https://api.epicgames.com/"]
  | Ea => ["https://api.ea.com/"]
  | Gog => ["https://api.gog.com/"]
  | Community => []
  end.

(** [debug_assertions]: whether the build is a test or has debug assertions. *)
Definition is_trusted_source_endpoint (debug_assertions : bool) (source_kind : ActivitySourceKind)
    (url : string) : bool :=
  let lower := to_ascii_lowercase (trim url) in
  if debug_assertions
     && (starts_with lower "http://127.0.0.1" || starts_with lower "http://localhost") then true
  else match source_kind with
  | Community => true
  | _ => existsb (starts_with lower) (trusted_prefixes source_kind)
  end.

Section Collect.
Context {W : Type} `{ActivityJson} (debug_assertions : bool).
Context (get_text : string → M W SteamCollectorError string).

(** A call that ends in [?], its error converted by [From]. *)
Definition into_err {S E F A} (f : E → F) (m : M S E A) : M S F A := λ s,
  let '(r, s) := m s in (map_err f r, s).

(** [EpicLiveCollector], [EaLiveCollector] and [GogLiveCollector]: they differ in their kind. *)
Definition live_fetch (source_kind : ActivitySourceKind) (app_id : AppId)
    (observed_at_millis : UnixMillis) (endpoint : string) : M W ActivityCollectorError ActivitySample :=
  body <- into_err from_steam_error (get_text endpoint) ;;
  lift (parse_third_party_activity_response app_id observed_at_millis body source_kind).

Definition collect_configured_activity_source (source_kind : ActivitySourceKind) (app_id : AppId)
    (observed_at_millis : UnixMillis) (endpoint_url inline_json : option string)
    : M W ActivityCollectorError ActivitySample :=
  match endpoint_url with
  | Some endpoint =>
      if is_trusted_source_endpoint debug_assertions source_kind endpoint then m_ret tt
      else m_throw (UntrustedEndpoint endpoint)
  | None => m_ret tt
  end ;;;
  match source_kind with
  | Steam =>
      endpoint <- ok_or endpoint_url MissingEndpoint ;;
      body <- into_err from_steam_error (get_text endpoint) ;;
      lift (map_err from_steam_error (parse_current_players_response app_id observed_at_millis body))
  | Epic | Ea | Gog =>
      endpoint <- ok_or endpoint_url MissingEndpoint ;;
      live_fetch source_kind app_id observed_at_millis endpoint
  | Community =>
      json <- ok_or inline_json MissingInlineJson ;;
      lift (parse_community_activity_response app_id observed_at_millis json)
  end.

(** [attempt] counts up to [retries]; the argument is what is left. *)
Fixpoint collect_source_attempts (more : nat) (source_kind : ActivitySourceKind) (app_id : AppId)
    (observed_at_millis : UnixMillis) (endpoint_url inline_json : option string)
    : M W ActivityCollectorError ActivitySample := λ w,
  match collect_configured_activity_source source_kind app_id observed_at_millis endpoint_url
          inline_json w with
  | (Err err, w) =>
      match more with
      | O => (Err err, w)
      | S more => collect_source_attempts more source_kind app_id observed_at_millis endpoint_url
                    inline_json w
      end
  | r => r
  end.

Definition collect_source_with_retry (source_kind : ActivitySourceKind) (app_id : AppId)
    (observed_at_millis : UnixMillis) (endpoint_url inline_json : option string) (retries : Z)
    : M W ActivityCollectorError ActivitySample :=
  collect_source_attempts (Z.to_nat retries) source_kind app_id observed_at_millis endpoint_url
    inline_json.
End Collect.

(** ** The health of the sources *)

Record ActivitySourceHealthState := {
  consecutive_failures : gmap string Z;
  degraded : gset string;
}.
Definition ActivitySourceHealthState_default : ActivitySourceHealthState :=
  {| consecutive_failures := ∅; degraded := ∅ |}.

Definition DEGRADE_THRESHOLD : Z := 3.

Definition record_success (h : ActivitySourceHealthState) (key : string) : ActivitySourceHealthState :=
  {| consecutive_failures := delete key (consecutive_failures h); degraded := degraded h ∖ {[key]} |}.

Definition record_failure `{BuildMode} (h : ActivitySourceHealthState) (key : string)
    : option ActivitySourceHealthState :=
  count ← add 32 (default 0 (consecutive_failures h !! key)) 1;
  Some {| consecutive_failures := <[key := count]> (consecutive_failures h);
          degraded := if DEGRADE_THRESHOLD <=? count then degraded h ∪ {[key]} else degraded h |}.

Definition is_degraded (h : ActivitySourceHealthState) (key : string) : bool :=
  bool_decide (key ∈ degraded h).

Definition summarize_health (h : ActivitySourceHealthState) : list string :=
  (λ key,
    let failures := display (default 0 (consecutive_failures h !! key)) in
    if bool_decide (key ∈ degraded h)
    then key +:+ ": degraded (" +:+ failures +:+ " consecutive failures)"
    else key +:+ ": " +:+ failures +:+ " consecutive failures")
  <$> bts_iter (dom (consecutive_failures h) ∪ degraded h).

(** ** Cross-validation *)

Definition CROSS_VALIDATION_DISAGREEMENT_THRESHOLD_PPM : Z := 250000.
Definition CROSS_VALIDATION_CONFIDENCE_DOWNSCALE_PPM : Z := 500000.

Definition with_confidence (s : ActivitySample) (ppm : Z) : ActivitySample := {|
  as_app_id := as_app_id s; as_observed_players := as_observed_players s;
  as_observed_at_millis := as_observed_at_millis s; as_source_kind := as_source_kind s;
  as_source_confidence_ppm := ppm; raw_body := raw_body s |}.

(** The indexes of the samples of every app. *)
Fixpoint samples_by_app (index : nat) (samples : list ActivitySample) (by_app : gmap AppId (list nat))
    : gmap AppId (list nat) :=
  match samples with
  | [] => by_app
  | s :: samples =>
      samples_by_app (S index) samples
        (<[as_app_id s := (default [] (by_app !! as_app_id s) ++ [index])%list]> by_app)
  end.

(** [difference_ppm], whose cast to u64 keeps every quotient of two u64 counts. *)
Definition difference_ppm (players strongest : Z) : Z :=
  (Z.abs (players - strongest) * 1000000 / strongest) mod 2 ^ 64.

(** What an outlier's confidence becomes. *)
Definition downscaled (confidence : Z) : Z :=
  Z.max ((confidence * CROSS_VALIDATION_CONFIDENCE_DOWNSCALE_PPM / 1000000) mod 2 ^ 32) 100000.

(** The body of the inner loop, on the count of adjusted samples and the samples. *)
Definition adjust_sample (strongest : Z) (st : nat * list ActivitySample) (index : nat)
    : nat * list ActivitySample :=
  match st.2 !! index with
  | None => st
  | Some sample =>
      if CROSS_VALIDATION_DISAGREEMENT_THRESHOLD_PPM
           <? difference_ppm (as_observed_players sample) strongest
      then (S st.1, <[index := with_confidence sample (downscaled (as_source_confidence_ppm sample))]> st.2)
      else st
  end.

Definition strongest_at (samples : list ActivitySample) (indexes : list nat) : Z :=
  Z.max (foldr Z.max 0 (omap (λ i, as_observed_players <$> samples !! i) indexes)) 1.

Definition adjust_app (st : nat * list ActivitySample) (indexes : list nat)
    : nat * list ActivitySample :=
  if (length indexes <? 2)%nat then st
  else foldl (adjust_sample (strongest_at st.2 indexes)) st indexes.

Definition cross_validate_samples (samples : list ActivitySample) : nat * list ActivitySample :=
  foldl adjust_app (0%nat, samples) (bt_values (samples_by_app 0 samples ∅)).

(** ** A tick's collection: node_daemon.rs *)

(** [{:?}] of a kind *)
Definition debug_kind (k : ActivitySourceKind) : string :=
  match k with
  | Steam => "Steam" | Epic => "Epic" | Ea => "Ea" | Gog => "Gog" | Community => "Community"
  end.

(** What the two loops pass to [collect_source_with_retry], and how they name a failure. *)
Record SourceCall := {
  sl_key : string;
  sl_kind : ActivitySourceKind;
  sl_app_id : AppId;
  sl_endpoint : option string;
  sl_inline_json : option string;
  sl_retries : Z;
  sl_label : string;
}.

(** The fallback: a target app is polled through the Steam API. *)
Definition target_call (app_id : AppId) : SourceCall := {|
  sl_key := display app_id +:+ ":Steam"; sl_kind := Steam; sl_app_id := app_id;
  sl_endpoint := Some (current_players_url app_id); sl_inline_json := None; sl_retries := 0;
  sl_label := "app_id=" +:+ display app_id +:+ " steam: " |}.

Definition configured_call (source : ActivitySourceConfig) : SourceCall := {|
  sl_key := display (asc_app_id source) +:+ ":" +:+ debug_kind (asc_source_kind source);
  sl_kind := asc_source_kind source; sl_app_id := asc_app_id source;
  sl_endpoint := match endpoint_url source, asc_source_kind source with
    | Some template, _ => Some (str_replace template "{app_id}" (display (asc_app_id source)))
    | None, Steam => Some (current_players_url (asc_app_id source))
    | None, _ => None
    end;
  sl_inline_json := inline_json source; sl_retries := retries source;
  sl_label := "app_id=" +:+ display (asc_app_id source) +:+ " kind="
    +:+ debug_kind (asc_source_kind source) +:+ ": " |}.

Definition source_calls (config : NodeConfig) : list SourceCall :=
  match activity_sources (runtime config) with
  | [] => target_call <$> target_app_ids (runtime config)
  | sources => configured_call <$> sources
  end.

Record ActivityCollectionReport := {
  cr_samples : list ActivitySample;
  cr_failed_sources : list string;
  cr_cross_validated_samples : nat;
}.

(** The variables of the loop. *)
Record CollectState (W : Type) := {
  cs_world : W;
  cs_health : ActivitySourceHealthState;
  cs_samples : list ActivitySample;
  cs_failed : list string;
}.
Arguments cs_world {W}.
Arguments cs_health {W}.
Arguments cs_samples {W}.
Arguments cs_failed {W}.

Section Tick.
Context {W : Type} `{BuildMode} `{ActivityJson} (debug_assertions : bool).
Context (get_text : string → M W SteamCollectorError string) (observed_at_millis : UnixMillis).

(** One iteration of either loop; [None] is a panic. *)
Definition collect_source (st : CollectState W) (c : SourceCall) : option (CollectState W) :=
  match collect_source_with_retry debug_assertions get_text (sl_kind c) (sl_app_id c)
          observed_at_millis (sl_endpoint c) (sl_inline_json c) (sl_retries c) (cs_world st) with
  | (Ok sample, w) =>
      Some {| cs_world := w; cs_health := record_success (cs_health st) (sl_key c);
              cs_samples := (cs_samples st ++ [sample])%list; cs_failed := cs_failed st |}
  | (Err err, w) =>
      health ← record_failure (cs_health st) (sl_key c);
      let suffix := if is_degraded health (sl_key c) then " (degraded)" else "" in
      Some {| cs_world := w; cs_health := health; cs_samples := cs_samples st;
              cs_failed := (cs_failed st ++ [sl_label c +:+ activity_error_text err +:+ suffix])%list |}
  | (Panic, _) => None
  end.

Fixpoint collect_sources (st : CollectState W) (calls : list SourceCall) : option (CollectState W) :=
  match calls with
  | [] => Some st
  | c :: calls => st ← collect_source st c; collect_sources st calls
  end.

(** The error is [NodeDaemonError::Steam(SteamCollectorError::Http(..))], as its text. *)
Definition collect_activity_samples (config : NodeConfig) (health : ActivitySourceHealthState) (w : W)
    : outcome string ActivityCollectionReport * (ActivitySourceHealthState * W) :=
  match collect_sources {| cs_world := w; cs_health := health; cs_samples := []; cs_failed := [] |}
          (source_calls config) with
  | None => (Panic, (health, w))
  | Some st =>
      (match cs_samples st, cs_failed st with
       | [], _ :: _ => Err ("all activity sources failed: " +:+ String.concat "; " (cs_failed st))
       | samples, failed =>
           let '(adjusted, samples) := cross_validate_samples samples in
           Ok {| cr_samples := samples; cr_failed_sources := failed;
                 cr_cross_validated_samples := adjusted |}
       end, (cs_health st, cs_world st))
  end.

(** The first lines of [collect_tick_context], on the content of the health file: what
    it is afterwards, when reading and writing it succeed. *)
Definition collect_and_save_health (config : NodeConfig) (file : option ActivitySourceHealthState) (w : W)
    : outcome string ActivityCollectionReport * (option ActivitySourceHealthState * W) :=
  match collect_activity_samples config (default ActivitySourceHealthState_default file) w with
  | (Ok report, (health, w)) => (Ok report, (Some health, w))
  | (r, (_, w)) => (r, (file, w))
  end.
End Tick.

(** * Properties *)

(** ** Endpoints *)

(** The endpoint of an official source is on one of its domains. *)
Definition on_official_domain (kind : ActivitySourceKind) (url : string) : Prop :=
  ∃ p, p ∈ trusted_prefixes kind ∧ is_Some (strip_prefix (to_ascii_lowercase (trim url)) p).

Section Collection.
Context {W : Type} `{B : BuildMode} `{J : ActivityJson} (debug_assertions : bool).
Context (get_text : string → M W SteamCollectorError string).

Lemma trusted_official kind url :
  kind ≠ Community → is_trusted_source_endpoint false kind url = true → on_official_domain kind url.
Proof.
  unfold is_trusted_source_endpoint. cbn. intros Hk Ht.
  assert (existsb (starts_with (to_ascii_lowercase (trim url))) (trusted_prefixes kind) = true) as He
    by (by destruct kind).
  apply existsb_exists in He as (p & Hp & Hs). exists p. split; [by apply list_elem_of_In|].
  by apply bool_decide_eq_true in Hs.
Qed.

(** Without debug assertions a request goes to an official domain of the source's kind, or
    there is none: a source whose endpoint is elsewhere fails before it is contacted, and
    community sources never contact anything, whatever the number of retries. *)
Theorem only_official_endpoints_contacted kind app at_ endpoint json n w r w' :
  (∀ url, endpoint = Some url → kind ≠ Community → ¬ on_official_domain kind url) →
  collect_source_with_retry false get_text kind app at_ endpoint json n w = (r, w') →
  w' = w ∧ (kind ≠ Community → ∃ e, r = Err e ∧
    (e = MissingEndpoint ∨ ∃ url, endpoint = Some url ∧ e = UntrustedEndpoint url)).
Proof.
  intros Hoff. unfold collect_source_with_retry.
  assert (∀ w, ∃ r, collect_configured_activity_source false get_text kind app at_ endpoint json w = (r, w) ∧
    (kind ≠ Community → ∃ e, r = Err e ∧
      (e = MissingEndpoint ∨ ∃ url, endpoint = Some url ∧ e = UntrustedEndpoint url))) as Hone.
  { clear w w' r. intros w. unfold collect_configured_activity_source.
    destruct endpoint as [url|].
    - destruct (decide (kind = Community)) as [->|Hk].
      + cbn. unfold m_bind, m_ret, is_trusted_source_endpoint. cbn.
        destruct json; cbn; unfold ok_or, lift; cbn; eexists; (split; [reflexivity|done]).
      + destruct (is_trusted_source_endpoint false kind url) eqn:Ht.
        { exfalso. apply (Hoff url eq_refl Hk). by apply trusted_official. }
        cbn. exists (Err (UntrustedEndpoint url)). split; [done|]. intros _. eauto 10.
    - destruct kind; cbn; unfold m_bind, ok_or, lift, m_ret; cbn;
        try (eexists; split; [reflexivity|intros _; eauto 10]).
      destruct json; cbn; eexists; (split; [reflexivity|done]). }
  revert w r w'. induction (Z.to_nat n) as [|k IH]; intros w r w'; cbn;
    destruct (Hone w) as (r0 & -> & Hr0); destruct r0; try (intros [= <- <-]; by split).
  intros Hrec. by apply IH in Hrec.
Qed.
End Collection.

(** ** The health of a source is what its log says *)

(** What happened to the sources, oldest first: a key, and whether it succeeded. *)
Definition record_event `{BuildMode} (h : ActivitySourceHealthState) (e : string * bool)
    : option ActivitySourceHealthState :=
  if e.2 then Some (record_success h e.1) else record_failure h e.1.
Fixpoint record_events `{BuildMode} (h : ActivitySourceHealthState) (es : list (string * bool))
    : option ActivitySourceHealthState :=
  match es with
  | [] => Some h
  | e :: es => h ← record_event h e; record_events h es
  end.

(** The failures of a key since its last success. *)
Definition failures_after (n : Z) (es : list (string * bool)) (key : string) : Z :=
  foldl (λ n e, if bool_decide (e.1 = key) then if e.2 : bool then 0 else n + 1 else n) n es.

Definition health_ok (h : ActivitySourceHealthState) (count : string → Z) : Prop :=
  ∀ key, default 0 (consecutive_failures h !! key) = count key ∧
    (key ∈ degraded h ↔ DEGRADE_THRESHOLD <= count key) ∧ 0 <= count key.

Lemma record_event_ok `{BuildMode} h count e :
  health_ok h count → (∀ key, count key < 2 ^ 32 - 1) →
  ∃ h', record_event h e = Some h' ∧
    health_ok h' (λ key, if bool_decide (e.1 = key) then if e.2 : bool then 0 else count key + 1 else count key).
Proof.
  intros Hok Hb. destruct e as [k [|]]; unfold record_event; cbn.
  - eexists. split; [reflexivity|]. intros key. cbn. case_bool_decide as Hk.
    + subst. rewrite lookup_delete_eq. unfold DEGRADE_THRESHOLD. set_solver by lia.
    + rewrite lookup_delete_ne by done. destruct (Hok key) as (? & ? & ?). set_solver.
  - unfold record_failure. destruct (Hok k) as (Hk & Hd & H0). rewrite Hk.
    rewrite add_exact by (specialize (Hb k); lia). cbn. eexists. split; [reflexivity|].
    intros key. cbn. case_bool_decide as Hkey.
    + subst key. rewrite lookup_insert_eq. cbn. split; [done|]. split; [|lia].
      unfold DEGRADE_THRESHOLD in *. destruct (Z.leb_spec 3 (count k + 1)); set_solver by lia.
    + rewrite lookup_insert_ne by done. destruct (Hok key) as (? & ? & ?).
      destruct (_ <=? _); set_solver.
Qed.

Lemma failures_after_bound n es key :
  0 <= n → 0 <= failures_after n es key <= n + Z.of_nat (length es).
Proof.
  revert n. induction es as [|[k b] es IH]; intros n Hn; [cbn; lia|].
  unfold failures_after in *. cbn [foldl fst snd length].
  case_bool_decide; [destruct b|].
  - specialize (IH 0 ltac:(lia)). lia.
  - specialize (IH (n + 1) ltac:(lia)). lia.
  - specialize (IH n Hn). lia.
Qed.

(** A source is degraded exactly when its last three events or more are failures, and the
    counter kept for it is the number of failures since its last success. *)
Theorem degraded_iff_three_failures `{BuildMode} es :
  Z.of_nat (length es) < 2 ^ 32 →
  ∃ h, record_events ActivitySourceHealthState_default es = Some h ∧
    ∀ key, default 0 (consecutive_failures h !! key) = failures_after 0 es key ∧
      is_degraded h key = (DEGRADE_THRESHOLD <=? failures_after 0 es key).
Proof.
  intros Hlen.
  assert (∀ h count, health_ok h count → (∀ key, count key + Z.of_nat (length es) < 2 ^ 32) →
    ∃ h', record_events h es = Some h' ∧ health_ok h' (λ key, failures_after (count key) es key)) as Hgen.
  { clear Hlen. induction es as [|e es IH]; intros h count Hok Hb.
    { exists h. split; [done|]. exact Hok. }
    cbn [record_events length] in *.
    destruct (record_event_ok h count e Hok) as (h1 & -> & Hok1).
    { intros key. specialize (Hb key). lia. }
    cbn [mbind option_bind].
    destruct (IH h1 _ Hok1) as (h2 & Hr & Hok2).
    { intros key. cbn. specialize (Hb key). destruct (Hok key) as (_ & _ & ?).
      case_bool_decide; [destruct e.2|]; lia. }
    exists h2. split; [exact Hr|]. exact Hok2. }
  destruct (Hgen ActivitySourceHealthState_default (λ _, 0)) as (h & Hr & Hok).
  { intros key. cbn. rewrite lookup_empty. unfold DEGRADE_THRESHOLD. set_solver by lia. }
  { intros _. lia. }
  exists h. split; [exact Hr|]. intros key. destruct (Hok key) as (Hc & Hd & _). split; [exact Hc|].
  unfold is_degraded. apply eq_true_iff_eq. rewrite bool_decide_eq_true, Z.leb_le. exact Hd.
Qed.

Lemma degraded_iff_three_failures_witness :
  ∃ h, record_events (H:=true) ActivitySourceHealthState_default
      [("730:Steam", false); ("730:Steam", true); ("730:Steam", false); ("570:Epic", true);
       ("730:Steam", false); ("730:Steam", false)] = Some h ∧
    is_degraded h "730:Steam" = true ∧ is_degraded h "570:Epic" = false.
Proof.
  destruct (degraded_iff_three_failures (H:=true)
    [("730:Steam", false); ("730:Steam", true); ("730:Steam", false); ("570:Epic", true);
     ("730:Steam", false); ("730:Steam", false)]) as (h & Hr & Hk); [vm_compute; reflexivity|].
  exists h. split_and!; [exact Hr|rewrite (proj2 (Hk "730:Steam")); vm_compute; reflexivity
    |rewrite (proj2 (Hk "570:Epic")); vm_compute; reflexivity].
Defined.

Definition no_json : ActivityJson := {|
  steam_json := λ _, Err ""; third_party_json := λ _, Err ""; community_json := λ _, Err "" |}.

Lemma only_official_endpoints_contacted_witness :
  ∃ r, collect_source_with_retry (H:=no_json) false (λ _ (n : nat), (Err (SteamHttp "down"), S n)) Steam 730 0
    (Some "https://api.steampowered.com.example.org/?appid=730") None 2 0%nat = (r, 0%nat).
Proof.
  destruct (collect_source_with_retry (H:=no_json) false (λ _ (n : nat), (Err (SteamHttp "down"), S n)) Steam 730 0
    (Some "https://api.steampowered.com.example.org/?appid=730") None 2 0%nat) as [r w'] eqn:Hr.
  exists r. f_equal.
  apply (only_official_endpoints_contacted (J:=no_json) (λ _ (n : nat), (Err (SteamHttp "down"), S n)) Steam 730 0
    (Some "https://api.steampowered.com.example.org/?appid=730") None 2 0%nat r w'); [|exact Hr].
  intros url [= <-] _ (p & Hp & Hs). cbn in Hp. apply list_elem_of_singleton in Hp. subst p.
  vm_compute in Hs. by destruct Hs.
Defined.

(** ** The report of a tick *)

Section Report.
Context {W : Type} `{B : BuildMode} `{J : ActivityJson} (debug_assertions : bool).
Context (get_text : string → M W SteamCollectorError string) (at_ : UnixMillis).

(** The loop records one event for each call, in order. *)
Lemma collect_sources_log calls st st' :
  collect_sources debug_assertions get_text at_ st calls = Some st' →
  ∃ es, es.*1 = sl_key <$> calls ∧ record_events (cs_health st) es = Some (cs_health st') ∧
    (∃ xs, cs_samples st' = cs_samples st ++ xs ∧ length xs = length (filter (λ e, e.2 = true) es))%list ∧
    (∃ ys, cs_failed st' = cs_failed st ++ ys ∧ length ys = length (filter (λ e, e.2 = false) es))%list.
Proof.
  revert st. induction calls as [|c calls IH]; intros st; cbn.
  { intros [= <-]. exists []. split_and!; [done..|exists []; by rewrite app_nil_r|exists []; by rewrite app_nil_r]. }
  intros (st1 & H1 & Hrest)%bind_Some. unfold collect_source in H1.
  destruct (IH st1 Hrest) as (es & Hk & Hr & (xs & Hxs & Hlx) & (ys & Hys & Hly)). clear IH Hrest.
  destruct (collect_source_with_retry _ _ _ _ _ _ _ _ _) as [[sample|err|] w]; [| |done].
  - injection H1 as <-. exists ((sl_key c, true) :: es). split_and!; [cbn; by rewrite Hk|done| |].
    + exists (sample :: xs). rewrite Hxs, filter_cons_True by done. cbn [cs_samples]. rewrite <- app_assoc. cbn [length]. auto.
    + exists ys. rewrite filter_cons_False by done. auto.
  - apply bind_Some in H1 as (h & Hf & [= <-]). exists ((sl_key c, false) :: es).
    split_and!; [cbn; by rewrite Hk|unfold record_events, record_event; cbn; by rewrite Hf| |].
    + exists xs. rewrite filter_cons_False by done. auto.
    + eexists (_ :: ys). rewrite Hys, filter_cons_True by done. cbn [cs_failed]. rewrite <- app_assoc. cbn [length]. auto.
Qed.

Lemma filter_bool_split (es : list (string * bool)) :
  (length (filter (λ e, e.2 = true) es) + length (filter (λ e, e.2 = false) es) = length es)%nat.
Proof.
  induction es as [|[k b] es IH]; [done|]. destruct b.
  - rewrite filter_cons_True, filter_cons_False by done. cbn. lia.
  - rewrite filter_cons_False, filter_cons_True by done. cbn. lia.
Qed.
End Report.

(** ** Cross-validation against a reference *)

(** The reference works sample by sample: those of the same app, and the strongest. *)
Definition same_app (samples : list ActivitySample) (s : ActivitySample) : list ActivitySample :=
  filter (λ x, as_app_id x = as_app_id s) samples.
Definition strongest_of (samples : list ActivitySample) (s : ActivitySample) : Z :=
  Z.max (foldr Z.max 0 (as_observed_players <$> same_app samples s)) 1.
Definition outlier (samples : list ActivitySample) (s : ActivitySample) : bool :=
  (2 <=? length (same_app samples s))%nat
  && (CROSS_VALIDATION_DISAGREEMENT_THRESHOLD_PPM
        <? difference_ppm (as_observed_players s) (strongest_of samples s)).
Definition validated (samples : list ActivitySample) (s : ActivitySample) : ActivitySample :=
  if outlier samples s then with_confidence s (downscaled (as_source_confidence_ppm s)) else s.

Fixpoint indexes_of (index : nat) (samples : list ActivitySample) (app : AppId) : list nat :=
  match samples with
  | [] => []
  | s :: samples =>
      if decide (as_app_id s = app) then index :: indexes_of (S index) samples app
      else indexes_of (S index) samples app
  end.

Lemma samples_by_app_lookup i l m a :
  default [] (samples_by_app i l m !! a) = (default [] (m !! a) ++ indexes_of i l a)%list ∧
  (samples_by_app i l m !! a = None ↔ m !! a = None ∧ indexes_of i l a = []).
Proof.
  revert i m. induction l as [|s l IH]; intros i m; cbn.
  { rewrite app_nil_r. naive_solver. }
  destruct (IH (S i) (<[as_app_id s := (default [] (m !! as_app_id s) ++ [i])%list]> m)) as [-> ->].
  case_decide as Ha.
  - rewrite Ha, lookup_insert_eq. cbn. rewrite <- app_assoc. naive_solver.
  - rewrite lookup_insert_ne by done. done.
Qed.

Lemma join_insert_app (m : gmap AppId (list nat)) k i :
  mjoin (bt_values (<[k := (default [] (m !! k) ++ [i])%list]> m)) ≡ₚ i :: mjoin (bt_values m).
Proof.
  assert (∀ m : gmap AppId (list nat), mjoin (bt_values m) ≡ₚ mjoin (map_to_list m).*2) as Hbt.
  { intros m'. unfold bt_values. by rewrite bt_iter_perm. }
  rewrite !Hbt. destruct (m !! k) as [l|] eqn:Hm; cbn.
  - rewrite <- (insert_delete_id m k l Hm) at 2. rewrite <- (insert_delete_eq m).
    rewrite !map_to_list_insert by apply lookup_delete_eq. cbn.
    change (l ++ mjoin (map_to_list (delete k m)).*2)%list with ([] ++ l ++ mjoin (map_to_list (delete k m)).*2)%list.
    rewrite <- app_assoc. cbn. by rewrite Permutation_middle.
  - rewrite map_to_list_insert by done. done.
Qed.

Lemma samples_by_app_indexes i l m :
  mjoin (bt_values (samples_by_app i l m)) ≡ₚ (mjoin (bt_values m) ++ seq i (length l))%list.
Proof.
  revert i m. induction l as [|s l IH]; intros i m; cbn; [by rewrite app_nil_r|].
  rewrite IH, join_insert_app. cbn. by rewrite Permutation_middle.
Qed.

Lemma indexes_of_samples pre l a :
  omap (λ i, (pre ++ l)%list !! i) (indexes_of (length pre) l a) = filter (λ x, as_app_id x = a) l.
Proof.
  revert pre. induction l as [|s l IH]; intros pre; cbn [indexes_of]; [done|].
  specialize (IH (pre ++ [s])%list). rewrite <- app_assoc, length_app, Nat.add_comm in IH. cbn in IH.
  case_decide as Ha.
  - rewrite filter_cons_True by done. cbn. rewrite list_lookup_middle by done. by f_equal.
  - rewrite filter_cons_False by done. exact IH.
Qed.

Lemma indexes_of_elem pre l a i :
  i ∈ indexes_of (length pre) l a → ∃ s, (pre ++ l)%list !! i = Some s ∧ as_app_id s = a.
Proof.
  revert pre. induction l as [|s l IH]; intros pre; cbn [indexes_of]; [by intros ?%elem_of_nil|].
  specialize (IH (pre ++ [s])%list). rewrite <- app_assoc, length_app, Nat.add_comm in IH. cbn in IH.
  case_decide as Ha; [|exact IH].
  intros [->|Hi]%elem_of_cons; [|by apply IH]. exists s. by rewrite list_lookup_middle.
Qed.

Lemma length_indexes_of (pre : list ActivitySample) l a :
  length (indexes_of (length pre) l a) = length (filter (λ x, as_app_id x = a) l).
Proof.
  revert pre. induction l as [|s l IH]; intros pre; cbn [indexes_of]; [done|].
  specialize (IH (pre ++ [s])%list). rewrite length_app, Nat.add_comm in IH. cbn in IH.
  case_decide as Ha; [rewrite filter_cons_True by done; cbn; by f_equal|by rewrite filter_cons_False].
Qed.

Section Reference.
Context (samples : list ActivitySample).

Definition outlier_at (i : nat) : bool :=
  match samples !! i with Some s => outlier samples s | None => false end.

(** The state of the loops once the indexes of [P] are done. *)
Definition validated_upto (P : list nat) (st : nat * list ActivitySample) : Prop :=
  st.1 = length (filter (λ i, outlier_at i = true) P) ∧
  ∀ i, st.2 !! i = (λ s, if decide (i ∈ P) then validated samples s else s) <$> samples !! i.

Lemma validated_fields s :
  as_app_id (validated samples s) = as_app_id s ∧
  as_observed_players (validated samples s) = as_observed_players s.
Proof. unfold validated. by destruct (outlier samples s). Qed.

Lemma adjust_sample_upto P st i s strongest :
  validated_upto P st → i ∉ P → samples !! i = Some s →
  (2 <= length (same_app samples s))%nat → strongest_of samples s = strongest →
  validated_upto (P ++ [i]) (adjust_sample strongest st i).
Proof.
  intros [Hc Hl] Hi Hs H2 Hst. unfold adjust_sample. rewrite Hl, Hs. cbn.
  rewrite decide_False by done.
  assert (outlier samples s = (CROSS_VALIDATION_DISAGREEMENT_THRESHOLD_PPM
    <? difference_ppm (as_observed_players s) strongest)) as Ho.
  { unfold outlier. rewrite Hst. by rewrite (proj2 (Nat.leb_le _ _) H2). }
  rewrite <- Ho. assert (outlier_at i = outlier samples s) as Hoi by (unfold outlier_at; by rewrite Hs).
  split.
  - rewrite filter_app, length_app. destruct (outlier samples s) eqn:E; cbn; rewrite Hc.
    + rewrite decide_True by done. cbn. lia.
    + rewrite decide_False by congruence. cbn. lia.
  - intros j. destruct (decide (j = i)) as [->|Hne].
    + rewrite Hs. cbn. rewrite decide_True by set_solver. unfold validated.
      destruct (outlier samples s) eqn:E; cbn.
      * rewrite list_lookup_insert_eq; [done|]. apply lookup_lt_is_Some. rewrite Hl, Hs. done.
      * rewrite Hl, Hs. cbn. by rewrite decide_False.
    + transitivity (st.2 !! j).
      { destruct (outlier samples s); [cbn; by rewrite list_lookup_insert_ne|done]. }
      rewrite Hl. destruct (samples !! j); [|done]. cbn. f_equal.
      destruct (decide (j ∈ P)); [rewrite decide_True by set_solver|rewrite decide_False by set_solver]; done.
Qed.

Lemma adjust_list_upto strongest g P st :
  validated_upto P st → NoDup g → (∀ i, i ∈ g → i ∉ P) →
  (∀ i, i ∈ g → ∃ s, samples !! i = Some s ∧ (2 <= length (same_app samples s))%nat ∧
     strongest_of samples s = strongest) →
  validated_upto (P ++ g) (foldl (adjust_sample strongest) st g).
Proof.
  revert P st. induction g as [|i g IH]; intros P st Hv Hnd Hdis Hs; cbn [foldl].
  { by rewrite app_nil_r. }
  apply NoDup_cons in Hnd as [Hi Hnd]. destruct (Hs i) as (s & H1 & H2 & H3); [set_solver|].
  rewrite (app_assoc P [i] g : (P ++ i :: g = (P ++ [i]) ++ g)%list).
  apply IH; [|done|set_solver|set_solver].
  by apply (adjust_sample_upto P st i s); [|set_solver|..].
Qed.

Lemma players_upto P st (g : list nat) :
  validated_upto P st →
  omap (λ i, as_observed_players <$> st.2 !! i) g
    = as_observed_players <$> omap (λ i, samples !! i) g.
Proof.
  intros [_ Hl]. induction g as [|j g IH]; [done|]. cbn. rewrite Hl.
  destruct (samples !! j) as [s|]; cbn; rewrite IH; [|done]. f_equal.
  case_decide; [apply validated_fields|done].
Qed.

Lemma adjust_app_upto a P st :
  let g := indexes_of 0 samples a in
  validated_upto P st → NoDup g → (∀ i, i ∈ g → i ∉ P) →
  validated_upto (P ++ g) (adjust_app st g).
Proof.
  intros g Hv Hnd Hdis.
  assert (length g = length (filter (λ x, as_app_id x = a) samples)) as Hlen
    by apply (length_indexes_of []).
  assert (∀ i, i ∈ g → ∃ s, samples !! i = Some s ∧ as_app_id s = a) as Hg
    by (intros i; apply (indexes_of_elem [])).
  unfold adjust_app. destruct (Nat.ltb_spec (length g) 2) as [Hlt|Hge].
  - destruct Hv as [Hc Hl]. split.
    + rewrite filter_app, length_app, Hc.
      assert (filter (λ i, outlier_at i = true) g = []) as ->; [|cbn; lia].
      destruct (filter _ g) as [|i l] eqn:Hf; [done|exfalso].
      assert (i ∈ filter (λ i, outlier_at i = true) g) as [Ho Hi]%list_elem_of_filter
        by (rewrite Hf; set_solver).
      destruct (Hg i Hi) as (s & Hs & Ha). unfold outlier_at in Ho. rewrite Hs in Ho.
      unfold outlier in Ho. apply andb_true_iff in Ho as [H2%Nat.leb_le _].
      unfold same_app in H2. rewrite Ha in H2. lia.
    + intros i. rewrite Hl. destruct (samples !! i) as [s|] eqn:Hs; [|done]. cbn. f_equal.
      destruct (decide (i ∈ g)) as [Hi|Hi].
      * rewrite decide_False by (by apply Hdis). rewrite decide_True by set_solver.
        destruct (Hg i Hi) as (s' & Hs' & Ha). assert (s' = s) as -> by congruence.
        unfold validated, outlier, same_app. rewrite Ha, (proj2 (Nat.leb_gt _ _)) by lia. done.
      * destruct (decide (i ∈ P)); [rewrite decide_True by set_solver|rewrite decide_False by set_solver]; done.
  - apply adjust_list_upto; [done..|]. intros i Hi. destruct (Hg i Hi) as (s & Hs & Ha). exists s.
    unfold strongest_of, same_app. rewrite Ha. split_and!; [done|lia|].
    unfold strongest_at. rewrite <- (indexes_of_samples [] samples a). fold g.
    do 2 f_equal. by rewrite (players_upto P).
Qed.

Lemma adjust_apps_upto gs P st :
  validated_upto P st → NoDup (P ++ mjoin gs) → (∀ g, g ∈ gs → ∃ a, g = indexes_of 0 samples a) →
  validated_upto (P ++ mjoin gs) (foldl adjust_app st gs).
Proof.
  revert P st. induction gs as [|g gs IH]; intros P st Hv Hnd Hg; cbn [foldl mjoin list_join].
  { cbn. by rewrite app_nil_r. }
  cbn in Hnd. change (mjoin (g :: gs)) with (g ++ mjoin gs)%list. rewrite app_assoc in *.
  destruct (Hg g) as [a Ha]; [set_solver|]. apply IH; [|done|set_solver].
  apply NoDup_app in Hnd as (Hnd & _). apply NoDup_app in Hnd as (_ & Hdis & Hndg).
  subst g. apply adjust_app_upto; [done|done|]. intros i Hi HP. by apply (Hdis i HP).
Qed.
End Reference.

Lemma count_outliers samples :
  length (filter (λ i, outlier_at samples i = true) (seq 0 (length samples)))
  = length (filter (λ s, outlier samples s = true) samples).
Proof.
  unfold outlier_at.
  assert (∀ pre l, length (filter (λ i, match (pre ++ l)%list !! i with
      | Some s => outlier samples s | None => false end = true) (seq (length pre) (length l)))
    = length (filter (λ s, outlier samples s = true) l)) as Hgen; [|exact (Hgen [] samples)].
  intros pre l. revert pre. induction l as [|s l IH]; intros pre; [done|].
  specialize (IH (pre ++ [s])%list). rewrite <- app_assoc, length_app, Nat.add_comm in IH. cbn in IH.
  cbn [length seq]. rewrite !filter_cons, list_lookup_middle by done.
  destruct (decide (outlier samples s = true)); cbn [length]; by rewrite IH.
Qed.

(** The loops by app, taken together, visit every index once. *)
Lemma cross_validate_by_sample samples :
  cross_validate_samples samples =
    (length (filter (λ s, outlier samples s = true) samples), validated samples <$> samples).
Proof.
  unfold cross_validate_samples.
  set (gs := bt_values (samples_by_app 0 samples ∅)).
  assert (mjoin gs ≡ₚ seq 0 (length samples)) as Hp by (unfold gs; by rewrite samples_by_app_indexes).
  destruct (adjust_apps_upto samples gs [] (0%nat, samples)) as [Hc Hl].
  - split; [done|]. intros i. cbn. by destruct (samples !! i).
  - cbn. rewrite Hp. apply NoDup_seq.
  - intros g (kv & -> & Hin)%list_elem_of_fmap. exists kv.1. destruct kv as [a g].
    rewrite bt_iter_perm in Hin. apply elem_of_map_to_list in Hin.
    destruct (samples_by_app_lookup 0 samples ∅ a) as [He _]. rewrite Hin, lookup_empty in He. done.
  - cbn in Hc, Hl. destruct (foldl adjust_app (0%nat, samples) gs) as [c l]. cbn in Hc, Hl. f_equal.
    + rewrite Hc. transitivity (length (filter (λ i, outlier_at samples i = true) (seq 0 (length samples)))).
      { by rewrite Hp. }
      apply count_outliers.
    + apply list_eq. intros i. rewrite Hl, list_lookup_fmap.
      destruct (samples !! i) as [s|] eqn:Hs; [|done]. cbn. rewrite decide_True; [done|].
      rewrite Hp. apply elem_of_seq. apply lookup_lt_Some in Hs. lia.
Qed.

(** The cross-validation, which works by app on a vector it updates in place, is the
    reference: a sample whose app has another one, and which is more than a quarter below
    the largest count of its app (or below one player), has its confidence halved but not
    below a tenth; nothing else of the samples changes, nor their order, and the result
    counts the outliers. *)
Theorem cross_validate_reference samples :
  cross_validate_samples samples =
    (length (filter (λ s, outlier samples s = true) samples), validated samples <$> samples).
Proof. apply cross_validate_by_sample. Qed.

(** What the reference says of a confidence: an outlier's is not raised from a tenth up. *)
Lemma validated_confidence samples s :
  100000 <= as_source_confidence_ppm s < 2 ^ 32 →
  as_source_confidence_ppm (validated samples s) <= as_source_confidence_ppm s.
Proof.
  intros Hc. unfold validated. destruct (outlier samples s); [|lia]. cbn.
  unfold downscaled, CROSS_VALIDATION_CONFIDENCE_DOWNSCALE_PPM.
  assert (as_source_confidence_ppm s * 500000 / 1000000 <= as_source_confidence_ppm s)
    by (apply Z.div_le_upper_bound; lia).
  rewrite Z.mod_small; [lia|]. split; [apply Z.div_pos; lia|lia].
Qed.

Definition sample_of (app players confidence : Z) : ActivitySample :=
  ActivitySample_new app players 0 "" Epic confidence.

(** A source that claims less than a tenth gains confidence by disagreeing, and sources
    that agree on an empty game are all outliers. *)
Example outlier_confidence_raised :
  cross_validate_samples [sample_of 42 1000 1000000; sample_of 42 1 50000]
  = (1%nat, [sample_of 42 1000 1000000; sample_of 42 1 100000]).
Proof. vm_compute. reflexivity. Qed.
Example agreeing_on_zero_are_outliers :
  cross_validate_samples [sample_of 42 0 1000000; sample_of 42 0 1000000]
  = (2%nat, [sample_of 42 0 500000; sample_of 42 0 500000]).
Proof. vm_compute. reflexivity. Qed.

(** ** The sources of a tick *)

Section Tolerance.
Context {W : Type} `{B : BuildMode} `{J : ActivityJson} (debug_assertions : bool).
Context (get_text : string → M W SteamCollectorError string) (at_ : UnixMillis) (config : NodeConfig).

Notation collect := (collect_and_save_health debug_assertions get_text at_ config).

(** A source that fails does not abort the tick. Every source is asked once, in the order
    of the configuration, and leaves one entry in the log of its key. When one of them
    answers, or there is none, the report has a sample for each that succeeded and a line
    for each that failed, and the health file is brought up to date with the log; when all
    fail the tick fails and the health file is not written. *)
Theorem failing_sources_tolerated file w r file' w' :
  collect file w = (r, (file', w')) → r ≠ Panic →
  ∃ es h, es.*1 = sl_key <$> source_calls config ∧
    record_events (default ActivitySourceHealthState_default file) es = Some h ∧
    match r with
    | Ok report => file' = Some h ∧
        length (cr_samples report) = length (filter (λ e, e.2 = true) es) ∧
        length (cr_failed_sources report) = length (filter (λ e, e.2 = false) es) ∧
        (source_calls config ≠ [] → cr_samples report ≠ [])
    | _ => file' = file ∧ source_calls config ≠ [] ∧ Forall (λ e, e.2 = false) es
    end.
Proof.
  unfold collect_and_save_health, collect_activity_samples.
  destruct (collect_sources _ _ _ _ _) as [st|] eqn:Hrun; [|by intros [= <- _ _]].
  destruct (collect_sources_log _ _ _ _ _ _ Hrun) as (es & Hk & Hr & (xs & Hxs & Hlx) & (ys & Hys & Hly)).
  cbn in Hr, Hxs, Hys. rewrite Hxs, Hys. pose proof (filter_bool_split es) as Hsplit.
  assert (length es = length (source_calls config)) as Hlen
    by (rewrite <- (length_fmap fst es), Hk; apply length_fmap).
  destruct (decide (xs = [] ∧ ys ≠ [])) as [[-> Hy]|Hno].
  - destruct ys as [|y ys]; [done|]. intros [= <- <- <-] _. exists es, (cs_health st).
    split_and!; [done..| |].
    + intros Hz. rewrite Hz in Hlen. cbn in *. lia.
    + apply Forall_forall. intros [k [|]] He; [|done]. exfalso.
      assert ((k, true) ∈ filter (λ e : string * bool, e.2 = true) es) as Hf
        by (by apply list_elem_of_filter).
      cbn in Hlx. destruct (filter _ es); [by apply elem_of_nil in Hf|done].
  - intros Heq _. exists es, (cs_health st).
    assert (r = Ok {| cr_samples := validated xs <$> xs; cr_failed_sources := ys;
      cr_cross_validated_samples := length (filter (λ s, outlier xs s = true) xs) |} ∧
      file' = Some (cs_health st)) as [-> ->].
    { destruct xs as [|x xs]; [destruct ys; [|exfalso; by apply Hno]|];
        rewrite cross_validate_by_sample in Heq; by injection Heq as <- <- _. }
    cbn [cr_samples cr_failed_sources]. split_and!; [done..|by rewrite length_fmap|done|].
    intros Hne Hx. apply fmap_nil_inv in Hx. apply Hno. split; [exact Hx|]. intros Hy0.
    apply Hne, length_zero_iff_nil. by rewrite <- Hlen, <- Hsplit, <- Hlx, <- Hly, Hx, Hy0.
Qed.
End Tolerance.

Definition five_players : ActivityJson := {|
  steam_json := λ _, Ok {| sb_result := Some 1; sb_player_count := Some 5 |};
  third_party_json := λ _, Err ""; community_json := λ _, Err "" |}.
#[export] Instance five_players_laws : @ActivityJsonLaws five_players.
Proof. split; [intros s b [= <-] n [= <-]; lia|done..]. Qed.

(** The first request fails, the second succeeds. *)
Definition recovering (url : string) : M bool SteamCollectorError string := λ up,
  (if up then Ok "{}" else Err (SteamHttp "down"), true).

Definition two_apps : NodeConfig :=
  let c := NodeConfig_default in {|
  nc_chain_id := nc_chain_id c; node_id_hex := node_id_hex c; reward_address_hex := reward_address_hex c;
  nc_capabilities := nc_capabilities c; nc_collect := nc_collect c;
  runtime := {|
    data_dir := "d"; poll_interval_secs := 300; slots_per_epoch := 288;
    rt_challenge_window_blocks := 20; low_impact_mode := true; os_background_priority := true;
    game_active_poll_interval_secs := 900; game_process_names := []; target_app_ids := [730; 570];
    p2p_simulation := P2pSimulationConfig_default; p2p_socket := P2pSocketConfig_default;
    activity_sources := [] |};
  nc_storage := nc_storage c; nc_reward := nc_reward c |}.

Lemma failing_sources_tolerated_witness :
  ∃ report h, collect_and_save_health (H:=true) (H0:=five_players) false recovering 7 two_apps None false
      = (Ok report, (Some h, true)) ∧
    length (cr_samples report) = 1%nat ∧ length (cr_failed_sources report) = 1%nat.
Proof.
  destruct (collect_and_save_health (H:=true) (H0:=five_players) false recovering 7 two_apps None false)
    as [r [file w]] eqn:Hr.
  destruct (failing_sources_tolerated (B:=true) (J:=five_players) false recovering 7 two_apps None false
    r file w Hr) as (es & h & Hk & Hes & Hm); [vm_compute in Hr; by injection Hr as <-|].
  vm_compute in Hr. injection Hr as <- <- <-. eexists _, _. split_and!; reflexivity.
Defined.

(** During an outage no source is ever marked as degraded in the file, however long it
    lasts: the tick that fails does not write it. *)
Lemma outage_not_recorded {W} `{BuildMode} `{ActivityJson} dbg get_text at_ config file (w : W) e file' w' :
  collect_and_save_health dbg get_text at_ config file w = (Err e, (file', w')) → file' = file.
Proof.
  unfold collect_and_save_health. destruct (collect_activity_samples _ _ _ _ _ _) as [[] []];
    by intros [= ].
Qed.
Example outage_never_degrades :
  let tick file := (collect_and_save_health (H:=true) (H0:=no_json) false
    (λ _ (w : unit), (Err (SteamHttp "down"), w)) 0 NodeConfig_default file tt).2.1 in
  tick (tick (tick (tick None))) = None.
Proof. vm_compute. reflexivity. Qed.
