(* ===== verification/Daemon.v ===== *)
(** * The loop of the daemon: src/src/node_daemon.rs

    Heartbeat buckets, automatic settlement of completed epochs over the files of
    Settlement, the record of challenges in the heartbeat file, the summaries of a run and
    the two collect loops. *)
From S2P Require Import Prelude Primitives Params Records Crypto Store Transitions Executor Refinement.
From S2P Require Import Tokenomics Rewards StorageBook Pipeline MutualProof Text NodeConfig ActiveParams CosmosAddress Verifier Aggregator EpochRewards PlayerTicks StorageAudit P2p NodeRuntime Preparation Settlement GovernanceRuntime SettlementRun Progress.
Local Open Scope pole_scope.
Local Open Scope string_scope.
Local Open Scope Z_scope.

(** ** Heartbeat buckets *)

Definition heartbeat_bucket_for_slot (slot_id block_secs bucket_seconds tick_interval_secs : Z) : Z * Z :=
  let slots_per_block := Z.max (block_secs / Z.max tick_interval_secs 1) 1 in
  let zero_based_slot := saturating_sub slot_id 1 in
  let block_index := zero_based_slot / slots_per_block in
  let block_offset := zero_based_slot mod slots_per_block in
  let elapsed_in_block_secs := saturating_mul 64 block_offset tick_interval_secs in
  (block_index, elapsed_in_block_secs / Z.max bucket_seconds 1).

(** ** Automatic settlement *)

Definition auto_settlement_enabled (config : NodeConfig) : bool := cap_propose (nc_capabilities config).

(** [first..=last], for [first <= last] *)
Definition epoch_range (first last : EpochId) : list EpochId :=
  (λ i, first + Z.of_nat i) <$> seq 0 (Z.to_nat (last - first + 1)).

(** [settled]: the epochs whose settlement artifact exists. *)
Definition pending_auto_settlement_epochs (config : NodeConfig) (settled : gset EpochId)
    (p : LocalNodeProgress) : list EpochId :=
  let latest_completed_epoch := saturating_sub (next_epoch_id p) 1 in
  let first := default_epoch_id (nc_collect config) in
  if latest_completed_epoch <? first then []
  else filter (λ e, e ∉ settled) (epoch_range first latest_completed_epoch).

(** The same on the files of a node. *)
Definition pending_on_disk (config : NodeConfig) (d : Disk) (p : LocalNodeProgress) : list EpochId :=
  pending_auto_settlement_epochs config (dom (dk_settlements d)) p.

(** The error is the epoch and the cause, which the code formats. *)
Record AutoSettlementOutcome := {
  ao_artifacts : list EpochSettlementArtifact;
  ao_error : option (EpochId * NodeSettlementError);
}.

Section AutoSettle.
Context `{B : BuildMode} `{X : External} `{PE : PipelineEncoding} `{VE : VerifierEncoding}.
Context `{RT : RuntimeEncoding} `{PX : ProofExternal} `{BC : Bech32}.
Context (config : NodeConfig) (identity : outcome NodeConfigError KeyPair) (paths : DiskPaths).
Context (io : IoPoint → option NodeSettlementError) (local : EpochId → LocalEpoch).

(** One round of the loop: the height, then the settlement. *)
Definition settle_next (epoch_id : EpochId) : M Disk NodeSettlementError EpochSettlementArtifact :=
  submission_height <- suggested_settlement_height config io ;;
  window <- gets (λ d, effective_challenge_window_blocks (readable_store paths io d) config) ;;
  settle_local_epoch config identity paths io (local epoch_id) epoch_id submission_height window.

(** [None] is a panic. *)
Fixpoint auto_settle_pending_epochs (artifacts : list EpochSettlementArtifact) (epoch_ids : list EpochId)
    (d : Disk) : option AutoSettlementOutcome * Disk :=
  match epoch_ids with
  | [] => (Some {| ao_artifacts := artifacts; ao_error := None |}, d)
  | epoch_id :: epoch_ids =>
      match settle_next epoch_id d with
      | (Ok artifact, d) => auto_settle_pending_epochs (artifacts ++ [artifact]) epoch_ids d
      | (Err err, d) => (Some {| ao_artifacts := artifacts; ao_error := Some (epoch_id, err) |}, d)
      | (Panic, d) => (None, d)
      end
  end.
End AutoSettle.

(** ** The challenges in the heartbeat file *)

Definition challenge_kind_name (kind : ChallengeKind) : string :=
  match kind with
  | BadBatch => "BadBatch" | Omission => "Omission" | BadAggregate => "BadAggregate"
  | BadReward => "BadReward" | BadStorage => "BadStorage"
  end.
Definition challenge_kind_matches_name (name : string) (kind : ChallengeKind) : bool :=
  bool_decide (name = challenge_kind_name kind).

Record P2pChallengeActivity := {
  pa_recipients : Z;
  pa_kind : ChallengeKind;
  pa_epoch_id : EpochId;
  pa_payload_cid : option string;
}.

Record P2pChallengeHistoryEntry := {
  he_kind : string;
  he_epoch_id : EpochId;
  he_payload_cid : option string;
  he_recipients : Z;
  he_recorded_at_millis : UnixMillis;
}.

(** The fields of [NodeHeartbeat] that a tick derives from those of the tick before. *)
Record ChallengeCounters := {
  cc_events_total : Z;
  cc_bad_batch : Z;
  cc_omission : Z;
  cc_bad_aggregate : Z;
  cc_bad_reward : Z;
  cc_bad_storage : Z;
  cc_delivered_total : Z;
  cc_zero_recipient_total : Z;
  cc_history : list P2pChallengeHistoryEntry;
}.
Definition ChallengeCounters_zero : ChallengeCounters := {|
  cc_events_total := 0; cc_bad_batch := 0; cc_omission := 0; cc_bad_aggregate := 0;
  cc_bad_reward := 0; cc_bad_storage := 0; cc_delivered_total := 0; cc_zero_recipient_total := 0;
  cc_history := [] |}.

Definition RECENT_P2P_CHALLENGE_HISTORY_LIMIT : nat := 10.

(** [u64::from(b)] *)
Definition of_bool (b : bool) : Z := if b then 1 else 0.
Definition kind_is (activity : option P2pChallengeActivity) (kind : ChallengeKind) : bool :=
  match activity with Some a => bool_decide (pa_kind a = kind) | None => false end.

(** The counters of the tick, from those of the last heartbeat file. *)
Definition count_challenges `{BuildMode} (c : ChallengeCounters)
    (activity : option P2pChallengeActivity) (updated_at_millis : UnixMillis)
    : option ChallengeCounters :=
  events ← add 64 (cc_events_total c) (of_bool (match activity with Some _ => true | None => false end));
  bad_batch ← add 64 (cc_bad_batch c) (of_bool (kind_is activity BadBatch));
  omission ← add 64 (cc_omission c) (of_bool (kind_is activity Omission));
  bad_aggregate ← add 64 (cc_bad_aggregate c) (of_bool (kind_is activity BadAggregate));
  bad_reward ← add 64 (cc_bad_reward c) (of_bool (kind_is activity BadReward));
  bad_storage ← add 64 (cc_bad_storage c) (of_bool (kind_is activity BadStorage));
  delivered ← add 64 (cc_delivered_total c)
    (of_bool (match activity with Some a => 0 <? pa_recipients a | None => false end));
  zero_recipient ← add 64 (cc_zero_recipient_total c)
    (of_bool (match activity with Some a => pa_recipients a =? 0 | None => false end));
  let history := match activity with
    | None => cc_history c
    | Some a =>
        let history := (cc_history c ++ [{|
          he_kind := challenge_kind_name (pa_kind a); he_epoch_id := pa_epoch_id a;
          he_payload_cid := pa_payload_cid a; he_recipients := pa_recipients a;
          he_recorded_at_millis := updated_at_millis |}])%list in
        drop (length history - RECENT_P2P_CHALLENGE_HISTORY_LIMIT) history
    end in
  Some {| cc_events_total := events; cc_bad_batch := bad_batch; cc_omission := omission;
          cc_bad_aggregate := bad_aggregate; cc_bad_reward := bad_reward;
          cc_bad_storage := bad_storage; cc_delivered_total := delivered;
          cc_zero_recipient_total := zero_recipient; cc_history := history |}.

(** ** The result of a tick and the summaries of a run *)

Record PruneOutcome := {
  po_current_epoch : EpochId;
  po_removed_payloads : list ContentId;
}.

Record PeerBatchIngestionOutcome := {
  pi_announced : Z;
  pi_accepted : Z;
  pi_duplicates : Z;
  pi_rejected : Z;
}.
Definition PeerBatchIngestionOutcome_default : PeerBatchIngestionOutcome :=
  {| pi_announced := 0; pi_accepted := 0; pi_duplicates := 0; pi_rejected := 0 |}.

Record CollectTickResult := {
  cr_progress : LocalNodeProgress;
  cr_artifact : CollectTickArtifact;
  cr_outcome : CollectAndStoreOutcome;
  cr_player_reward_tick_artifact : PlayerRewardTickArtifact;
  cr_aggregation_artifact : option EpochAggregationArtifact;
  cr_reward_artifact : option EpochRewardArtifact;
  cr_verification_report : option EpochVerificationReport;
  cr_epoch_commit_artifact : option EpochCommitArtifact;
  cr_settlement_artifacts : list EpochSettlementArtifact;
  cr_auto_settlement_pending_epochs : list EpochId;
  cr_auto_settlement_enabled : bool;
  cr_auto_settlement_error : option string;
  cr_p2p_challenge_recipients : option Z;
  cr_p2p_challenge_kind : option string;
  cr_p2p_challenge_epoch_id : option EpochId;
  cr_p2p_challenge_payload_cid : option string;
  cr_retention_audit_artifact : RetentionAuditArtifact;
  cr_storage_challenge_artifact : option StorageChallengeArtifact;
  cr_storage_challenge_error : option string;
  cr_retention_prune_outcome : PruneOutcome;
  cr_peer_batch_ingestion : PeerBatchIngestionOutcome;
}.

Record AutoSettlementSummary := {
  am_enabled : bool;
  am_pending_epochs : list EpochId;
  am_settled_epoch_count : Z;
  am_last_settlement_artifact : option EpochSettlementArtifact;
  am_last_error : option string;
}.

Definition unresolved_auto_settlement_epochs (r : CollectTickResult) : list EpochId :=
  filter (λ e, e ∉ es_epoch_id <$> cr_settlement_artifacts r) (cr_auto_settlement_pending_epochs r).
Definition auto_settlement_skipped (r : CollectTickResult) : bool :=
  negb (cr_auto_settlement_enabled r) && bool_decide (unresolved_auto_settlement_epochs r ≠ []).
Definition pruned_payload_count (r : CollectTickResult) : Z :=
  Z.of_nat (length (po_removed_payloads (cr_retention_prune_outcome r))).
Definition storage_challenge_healthy (r : CollectTickResult) : bool :=
  default false (all_passed <$> cr_storage_challenge_artifact r)
  && bool_decide (cr_storage_challenge_error r = None).

(** The body of the loop over the artifacts, on the pending epochs, the last artifact and
    the last error. *)
Definition settle_artifact (st : gset EpochId * option EpochSettlementArtifact * option string)
    (artifact : EpochSettlementArtifact) : gset EpochId * option EpochSettlementArtifact * option string :=
  (st.1.1 ∖ {[es_epoch_id artifact]}, Some artifact, None).

Definition update_auto_settlement_summary `{BuildMode} (s : AutoSettlementSummary)
    (r : CollectTickResult) : option AutoSettlementSummary :=
  let pending : gset EpochId := list_to_set (am_pending_epochs s)
    ∪ list_to_set (cr_auto_settlement_pending_epochs r) in
  count ← add 64 (am_settled_epoch_count s) (Z.of_nat (length (cr_settlement_artifacts r)));
  let last_error := match cr_auto_settlement_error r with
    | Some e => Some e | None => am_last_error s end in
  let '(pending, last_artifact, last_error) :=
    foldl settle_artifact (pending, am_last_settlement_artifact s, last_error)
      (cr_settlement_artifacts r) in
  Some {| am_enabled := am_enabled s; am_pending_epochs := bts_iter pending;
          am_settled_epoch_count := count; am_last_settlement_artifact := last_artifact;
          am_last_error := last_error |}.

Definition AutoSettlementSummary_new (config : NodeConfig) : AutoSettlementSummary := {|
  am_enabled := auto_settlement_enabled config; am_pending_epochs := []; am_settled_epoch_count := 0;
  am_last_settlement_artifact := None; am_last_error := None |}.

Fixpoint update_summaries `{BuildMode} (s : AutoSettlementSummary) (rs : list CollectTickResult)
    : option AutoSettlementSummary :=
  match rs with
  | [] => Some s
  | r :: rs => s ← update_auto_settlement_summary s r; update_summaries s rs
  end.
Definition summarize_auto_settlement `{BuildMode} (config : NodeConfig) (rs : list CollectTickResult)
    : option AutoSettlementSummary :=
  update_summaries (AutoSettlementSummary_new config) rs.

Record CollectLoopSummary := {
  ls_ticks_completed : Z;
  ls_last_result : option CollectTickResult;
  ls_auto_settlement_summary : AutoSettlementSummary;
  ls_total_batch_recipients : Z;
  ls_total_receipt_recipients : Z;
  ls_total_ingested_peer_batches : Z;
  ls_total_pruned_payloads : Z;
  ls_last_retention_audit_artifact : option RetentionAuditArtifact;
  ls_last_storage_challenge_artifact : option StorageChallengeArtifact;
  ls_last_storage_challenge_error : option string;
  ls_last_prune_epoch : EpochId;
}.

Definition CollectLoopSummary_new (config : NodeConfig) : CollectLoopSummary := {|
  ls_ticks_completed := 0; ls_last_result := None;
  ls_auto_settlement_summary := AutoSettlementSummary_new config;
  ls_total_batch_recipients := 0; ls_total_receipt_recipients := 0;
  ls_total_ingested_peer_batches := 0; ls_total_pruned_payloads := 0;
  ls_last_retention_audit_artifact := None; ls_last_storage_challenge_artifact := None;
  ls_last_storage_challenge_error := None; ls_last_prune_epoch := 0 |}.

(** [x.or(y)] *)
Definition or_else {A} (x y : option A) : option A := match x with Some _ => x | None => y end.

Definition record_result `{BuildMode} (s : CollectLoopSummary) (r : CollectTickResult)
    : option CollectLoopSummary :=
  ticks ← add 64 (ls_ticks_completed s) 1;
  batches ← add 64 (ls_total_batch_recipients s) (batch_recipients (cr_outcome r));
  receipts ← add 64 (ls_total_receipt_recipients s) (receipt_recipients (cr_outcome r));
  ingested ← add 64 (ls_total_ingested_peer_batches s) (pi_accepted (cr_peer_batch_ingestion r));
  pruned ← add 64 (ls_total_pruned_payloads s) (pruned_payload_count r);
  auto ← update_auto_settlement_summary (ls_auto_settlement_summary s) r;
  Some {|
    ls_ticks_completed := ticks; ls_last_result := Some r; ls_auto_settlement_summary := auto;
    ls_total_batch_recipients := batches; ls_total_receipt_recipients := receipts;
    ls_total_ingested_peer_batches := ingested; ls_total_pruned_payloads := pruned;
    ls_last_retention_audit_artifact := Some (cr_retention_audit_artifact r);
    ls_last_storage_challenge_artifact :=
      or_else (cr_storage_challenge_artifact r) (ls_last_storage_challenge_artifact s);
    ls_last_storage_challenge_error :=
      or_else (cr_storage_challenge_error r) (ls_last_storage_challenge_error s);
    ls_last_prune_epoch := po_current_epoch (cr_retention_prune_outcome r) |}.

(** ** The collect loops *)

Section Loops.
Context `{B : BuildMode} {T E : Type} (tick : M T E CollectTickResult) (config : NodeConfig).

(** [ticks_run] after the tick, and whether the loop ends there. *)
Definition reached (max_ticks : option Z) (ticks_run : Z) : bool :=
  match max_ticks with Some limit => limit <=? ticks_run | None => false end.

(** [run_collect_loop_with_client_inner]; [None] when the fuel runs out. *)
Fixpoint run_collect_loop (fuel : nat) (max_ticks : option Z) (ticks_run : Z)
    (results : list CollectTickResult) (t : T) : option (outcome E (list CollectTickResult) * T) :=
  match fuel with
  | O => None
  | S fuel =>
      match tick t with
      | (Err e, t) => Some (Err e, t)
      | (Panic, t) => Some (Panic, t)
      | (Ok r, t) =>
          let results := (results ++ [r])%list in
          match add 64 ticks_run 1 with
          | None => Some (Panic, t)
          | Some ticks_run =>
              if reached max_ticks ticks_run then Some (Ok results, t)
              else run_collect_loop fuel max_ticks ticks_run results t
          end
      end
  end.

(** [run_collect_loop_summary_with_client_inner] *)
Fixpoint run_collect_loop_summary (fuel : nat) (max_ticks : option Z) (ticks_run : Z)
    (summary : CollectLoopSummary) (t : T) : option (outcome E CollectLoopSummary * T) :=
  match fuel with
  | O => None
  | S fuel =>
      match tick t with
      | (Err e, t) => Some (Err e, t)
      | (Panic, t) => Some (Panic, t)
      | (Ok r, t) =>
          match record_result summary r with
          | None => Some (Panic, t)
          | Some summary =>
              match add 64 ticks_run 1 with
              | None => Some (Panic, t)
              | Some ticks_run =>
                  if reached max_ticks ticks_run then Some (Ok summary, t)
                  else run_collect_loop_summary fuel max_ticks ticks_run summary t
              end
          end
      end
  end.
End Loops.

(** * Properties *)

(** ** Heartbeat buckets *)

Section Buckets.
Context (block_secs bucket_seconds tick : Z).
Context (Hblock : 0 < block_secs < 2 ^ 64) (Hbucket : 0 < bucket_seconds) (Htick : 0 < tick).

Notation bucket slot := (heartbeat_bucket_for_slot slot block_secs bucket_seconds tick).
Definition slots_per_block : Z := Z.max (block_secs / Z.max tick 1) 1.

Lemma slots_per_block_pos : 0 < slots_per_block.
Proof using. clear. unfold slots_per_block. lia. Qed.

(** The slots of a block start within it. *)
Lemma block_offset_bound k : 0 <= k < slots_per_block → 0 <= k * tick < block_secs.
Proof using Hblock Htick.
  unfold slots_per_block. rewrite (Z.max_l tick 1) by lia. intros Hk.
  pose proof (Z.mul_div_le block_secs tick Htick). destruct (Z.le_gt_cases (block_secs / tick) 0); nia.
Qed.

Lemma bucket_of_slot slot : 1 <= slot →
  bucket slot = ((slot - 1) / slots_per_block, (slot - 1) mod slots_per_block * tick / bucket_seconds).
Proof using Hblock Hbucket Htick.
  intros Hs. unfold heartbeat_bucket_for_slot. rewrite (Z.max_l bucket_seconds 1) by lia.
  unfold saturating_sub. rewrite (Z.max_r 0) by lia. fold slots_per_block.
  pose proof (Z.mod_pos_bound (slot - 1) slots_per_block slots_per_block_pos) as Hm.
  pose proof (block_offset_bound _ Hm). rewrite saturating_mul_exact by lia. done.
Qed.

(** A slot's bucket is one of those the block is divided in; slots that share a block
    share a bucket only when a tick is shorter than a bucket, so that the heartbeats of a
    block are as many as its slots otherwise. *)
Theorem heartbeat_buckets_distinct slot slot' :
  1 <= slot → 1 <= slot' →
  0 <= (bucket slot).2 < (block_secs + bucket_seconds - 1) / bucket_seconds ∧
  (bucket_seconds <= tick → bucket slot = bucket slot' → slot = slot').
Proof using Hblock Hbucket Htick.
  intros Hs Hs'. rewrite !bucket_of_slot by done. cbn [snd].
  pose proof slots_per_block_pos as Hn.
  pose proof (Z.mod_pos_bound (slot - 1) slots_per_block Hn) as Hm.
  pose proof (Z.mod_pos_bound (slot' - 1) slots_per_block Hn) as Hm'.
  pose proof (block_offset_bound _ Hm) as Ho. split.
  - split; [apply Z.div_pos; lia|].
    apply Z.lt_le_trans with ((block_secs - 1) / bucket_seconds + 1).
    + assert ((slot - 1) mod slots_per_block * tick / bucket_seconds <= (block_secs - 1) / bucket_seconds)
        by (apply Z.div_le_mono; lia). lia.
    + replace (block_secs + bucket_seconds - 1) with (block_secs - 1 + 1 * bucket_seconds) by lia.
      rewrite Z.div_add by lia. lia.
  - intros Hle [= Hq Hb].
    pose proof (Z.div_mod (slot - 1) slots_per_block ltac:(lia)).
    pose proof (Z.div_mod (slot' - 1) slots_per_block ltac:(lia)).
    enough ((slot - 1) mod slots_per_block = (slot' - 1) mod slots_per_block) by nia.
    set (x := (slot - 1) mod slots_per_block) in *. set (y := (slot' - 1) mod slots_per_block) in *.
    pose proof (Z.div_mod (x * tick) bucket_seconds ltac:(lia)).
    pose proof (Z.div_mod (y * tick) bucket_seconds ltac:(lia)).
    pose proof (Z.mod_pos_bound (x * tick) bucket_seconds Hbucket).
    pose proof (Z.mod_pos_bound (y * tick) bucket_seconds Hbucket).
    destruct (Z.lt_trichotomy x y) as [|[|]]; [exfalso; nia|done|exfalso; nia].
Qed.
End Buckets.

Lemma heartbeat_buckets_distinct_witness :
  0 <= (heartbeat_bucket_for_slot 16 3600 300 900).2 < (3600 + 300 - 1) / 300 ∧
  (heartbeat_bucket_for_slot 16 3600 300 900 = heartbeat_bucket_for_slot 15 3600 300 900 → 16 = 15).
Proof.
  destruct (heartbeat_buckets_distinct 3600 300 900 ltac:(lia) ltac:(lia) ltac:(lia) 16 15
    ltac:(lia) ltac:(lia)) as [H1 H2].
  split; [exact H1|apply H2; lia].
Defined.

(** With the default configuration a node whose game is running ticks every 900 seconds,
    so a block of an hour gets four heartbeats of the twelve that cover it: a third, below
    the half that the default [min_heartbeat_coverage_bps] asks for. *)
Definition block_buckets (config : NodeConfig) (active : list string) (block : Z) : gset Z :=
  let block_secs := rc_reward_block_secs (nc_reward config) in
  let tick := Z.max (effective_collect_interval_secs config active) 1 in
  list_to_set (omap (λ slot,
    let '(b, i) := heartbeat_bucket_for_slot slot block_secs
      (heartbeat_bucket_seconds MutualProofParams_default) tick in
    if b =? block then Some i else None) ((λ n, Z.of_nat n) <$> seq 1 288)).
Example default_heartbeats_cover_a_third :
  let covered := Z.of_nat (size (block_buckets NodeConfig_default ["game"] 0)) in
  let expected := (rc_reward_block_secs (nc_reward NodeConfig_default)
    + heartbeat_bucket_seconds MutualProofParams_default - 1)
    / heartbeat_bucket_seconds MutualProofParams_default in
  (covered, expected, covered * 10000 / expected, min_heartbeat_coverage_bps MutualProofParams_default)
  = (4, 12, 3333, 5000).
Proof. vm_compute. reflexivity. Qed.

(** ** The counters of challenges *)

Fixpoint count_ticks `{BuildMode} (c : ChallengeCounters) (log : list (option P2pChallengeActivity * Z))
    : option ChallengeCounters :=
  match log with
  | [] => Some c
  | (a, at_) :: log => c ← count_challenges c a at_; count_ticks c log
  end.

Definition history_entry (x : P2pChallengeActivity * Z) : P2pChallengeHistoryEntry := {|
  he_kind := challenge_kind_name (pa_kind x.1); he_epoch_id := pa_epoch_id x.1;
  he_payload_cid := pa_payload_cid x.1; he_recipients := pa_recipients x.1;
  he_recorded_at_millis := x.2 |}.

(** The challenges of a log, and how many of them satisfy [f]. *)
Definition challenges_of (log : list (option P2pChallengeActivity * Z)) : list (P2pChallengeActivity * Z) :=
  omap (λ x, (λ a, (a, x.2)) <$> x.1) log.
Definition count_of (f : P2pChallengeActivity → bool) (xs : list (P2pChallengeActivity * Z)) : Z :=
  lsum (λ x, of_bool (f x.1)) xs.
Definition of_kind (k : ChallengeKind) (a : P2pChallengeActivity) : bool := bool_decide (pa_kind a = k).

(** The counters of a list of challenges. *)
Definition counters_of (xs : list (P2pChallengeActivity * Z)) : ChallengeCounters := {|
  cc_events_total := Z.of_nat (length xs); cc_bad_batch := count_of (of_kind BadBatch) xs;
  cc_omission := count_of (of_kind Omission) xs; cc_bad_aggregate := count_of (of_kind BadAggregate) xs;
  cc_bad_reward := count_of (of_kind BadReward) xs; cc_bad_storage := count_of (of_kind BadStorage) xs;
  cc_delivered_total := count_of (λ a, 0 <? pa_recipients a) xs;
  cc_zero_recipient_total := count_of (λ a, pa_recipients a =? 0) xs;
  cc_history := history_entry <$> drop (length xs - RECENT_P2P_CHALLENGE_HISTORY_LIMIT) xs |}.

Lemma count_of_snoc f xs x : count_of f (xs ++ [x]) = count_of f xs + of_bool (f x.1).
Proof. unfold count_of. rewrite lsum_app. cbn. lia. Qed.

Lemma count_of_bound f xs : 0 <= count_of f xs <= Z.of_nat (length xs).
Proof.
  induction xs as [|x xs IH]; [done|]. unfold count_of in *. cbn [lsum foldr length].
  change (foldr (λ x acc, of_bool (f x.1) + acc) 0 xs) with (lsum (λ x, of_bool (f x.1)) xs).
  unfold of_bool at 1 3. destruct (f x.1); lia.
Qed.

(** The history keeps the last ten of a longer list. *)
Lemma drop_drop_last {A} (xs : list A) (x : A) (n : nat) :
  drop (length (drop (length xs - n) xs ++ [x]) - n) (drop (length xs - n) xs ++ [x])
  = drop (length (xs ++ [x]) - n) (xs ++ [x]).
Proof.
  rewrite !length_app, length_drop. cbn [length].
  destruct (Nat.le_gt_cases (length xs) n) as [Hle|Hgt].
  - replace (length xs - n)%nat with 0%nat by lia. rewrite drop_0. f_equal. lia.
  - rewrite <- (drop_app_le xs [x] (length xs - n)) by lia. rewrite drop_drop. f_equal. lia.
Qed.

(** The heartbeat file counts the challenges of all ticks: each counter is the number of
    the challenges it names, and the history holds the last ten, in order. *)
Theorem challenge_counters_match_log `{BuildMode} log :
  Z.of_nat (length log) < 2 ^ 64 →
  count_ticks ChallengeCounters_zero log = Some (counters_of (challenges_of log)).
Proof.
  assert (∀ xs, Z.of_nat (length xs) + Z.of_nat (length log) < 2 ^ 64 →
    count_ticks (counters_of xs) log = Some (counters_of (xs ++ challenges_of log))) as Hgen.
  2:{ intros Hlen. specialize (Hgen [] ltac:(cbn; lia)). exact Hgen. }
  induction log as [|[a at_] log IH]; intros xs Hlen; cbn [count_ticks challenges_of omap list_omap].
  { by rewrite app_nil_r. }
  cbn [length] in Hlen.
  assert (count_challenges (counters_of xs) a at_
    = Some (counters_of (match a with Some a => xs ++ [(a, at_)] | None => xs end))) as ->.
  { unfold count_challenges. cbn [counters_of cc_events_total cc_bad_batch cc_omission cc_bad_aggregate
      cc_bad_reward cc_bad_storage cc_delivered_total cc_zero_recipient_total cc_history].
    assert (∀ f b, 0 <= count_of f xs + of_bool b < 2 ^ 64) as Hfit.
    { intros f b. pose proof (count_of_bound f xs). unfold of_bool. destruct b; lia. }
    assert (∀ b, 0 <= Z.of_nat (length xs) + of_bool b < 2 ^ 64) as Hall
      by (intros []; unfold of_bool; lia).
    rewrite !add_exact by first [apply Hall|apply Hfit]. cbn [mbind option_bind].
    f_equal. destruct a as [a|]; [|unfold counters_of, of_bool; cbn; f_equal; lia].
    unfold counters_of. rewrite !count_of_snoc. f_equal; [rewrite length_app; cbn; lia|].
    rewrite <- (drop_drop_last xs (a, at_)).
    rewrite (fmap_drop _ _ (drop _ xs ++ [(a, at_)])%list), fmap_app.
    rewrite !length_app, !length_fmap. done. }
  cbn [mbind option_bind]. destruct a as [a|]; cbn [fmap option_fmap option_map].
  - rewrite IH by (rewrite length_app; cbn; lia). rewrite <- app_assoc. done.
  - apply IH. lia.
Qed.

(** ** The loops *)

Section LoopProperties.
Context `{B : BuildMode} {T E : Type} (tick : M T E CollectTickResult).

Fixpoint record_results (s : CollectLoopSummary) (rs : list CollectTickResult)
    : option CollectLoopSummary :=
  match rs with
  | [] => Some s
  | r :: rs => s ← record_result s r; record_results s rs
  end.

Lemma record_results_snoc s rs r :
  record_results s (rs ++ [r]) = (s ← record_results s rs; record_result s r).
Proof.
  revert s. induction rs as [|r0 rs IH]; intros s; cbn.
  - by destruct (record_result s r).
  - destruct (record_result s r0); [|done]. apply IH.
Qed.

(** The loop that only keeps a summary does what the loop that keeps every result does:
    when it returns a summary, the other returns in the same state results whose summary
    this is, and when it returns an error so does the other. *)
Theorem summary_loop_refines fuel limit n s0 rs0 s t r t' :
  record_results s0 rs0 = Some s →
  run_collect_loop_summary tick fuel limit n s t = Some (r, t') → r ≠ Panic →
  match r with
  | Ok s' => ∃ rs, run_collect_loop tick fuel limit n rs0 t = Some (Ok rs, t') ∧
      record_results s0 rs = Some s'
  | Err e => run_collect_loop tick fuel limit n rs0 t = Some (Err e, t')
  | Panic => False
  end.
Proof.
  revert n rs0 s t. induction fuel as [|fuel IH]; intros n rs0 s t Hs; cbn; [done|].
  destruct (tick t) as [[r0|e|] t1]; [|by intros [= <- <-] _|by intros [= <- <-]].
  destruct (record_result s r0) as [s1|] eqn:Hr; [|by intros [= <- <-]].
  assert (record_results s0 (rs0 ++ [r0]) = Some s1) as Hs1 by (rewrite record_results_snoc, Hs; exact Hr).
  destruct (add 64 n 1) as [n1|]; [|by intros [= <- <-]].
  destruct (reached limit n1); [|by apply IH].
  intros [= <- <-] _. eauto.
Qed.

(** With a limit the loop ends after that many ticks, and one at least: as many results,
    and the fuel of that number is enough. *)
Theorem limited_loop_terminates fuel limit n rs t :
  0 <= n < Z.max limit (n + 1) → limit < 2 ^ 64 → n + 1 < 2 ^ 64 →
  (Z.to_nat (Z.max limit (n + 1) - n) ≤ fuel)%nat →
  ∃ r t', run_collect_loop tick fuel (Some limit) n rs t = Some (r, t') ∧
    ∀ rs', r = Ok rs' → Z.of_nat (length rs') = Z.of_nat (length rs) + (Z.max limit (n + 1) - n).
Proof.
  revert n rs t. induction fuel as [|fuel IH]; intros n rs t Hn Hl H64 Hf; [lia|]. cbn.
  destruct (tick t) as [[r0|e|] t1]; [|by eexists _, _..].
  rewrite add_exact by lia. destruct (Z.leb_spec limit (n + 1)) as [Hle|Hgt].
  - eexists _, _. split; [reflexivity|]. intros rs' [= <-]. rewrite length_app. cbn. lia.
  - destruct (IH (n + 1) (rs ++ [r0])%list t1) as (r & t' & Hr & Hlen); [lia..|].
    exists r, t'. split; [exact Hr|]. intros rs' ->. rewrite (Hlen rs' eq_refl), length_app. cbn. lia.
Qed.
End LoopProperties.

(** ** Unsettled epochs in the summary *)

(** The epochs a result leaves settled. *)
Definition settled_by (r : CollectTickResult) : list EpochId := es_epoch_id <$> cr_settlement_artifacts r.

Lemma settle_artifacts_pending arts st e :
  e ∈ (foldl settle_artifact st arts).1.1 ↔ e ∈ st.1.1 ∧ e ∉ es_epoch_id <$> arts.
Proof.
  revert st. induction arts as [|a arts IH]; intros st; cbn.
  - set_solver.
  - rewrite IH. cbn. set_solver.
Qed.

Lemma elem_of_bts_iter (s : gset Z) e : e ∈ bts_iter s ↔ e ∈ s.
Proof. unfold bts_iter. by rewrite sort_by_key_perm, elem_of_elements. Qed.

Lemma update_pending `{BuildMode} s r s' e :
  update_auto_settlement_summary s r = Some s' →
  e ∈ am_pending_epochs s' ↔
    (e ∈ am_pending_epochs s ∨ e ∈ cr_auto_settlement_pending_epochs r) ∧ e ∉ settled_by r.
Proof.
  unfold update_auto_settlement_summary. cbv zeta. intros (c & _ & Hr)%bind_Some.
  destruct (foldl settle_artifact _ _) as [[p a] le] eqn:Hf. injection Hr as <-. cbn.
  rewrite elem_of_bts_iter. pose proof (settle_artifacts_pending (cr_settlement_artifacts r)
    (list_to_set (am_pending_epochs s) ∪ list_to_set (cr_auto_settlement_pending_epochs r) : gset EpochId,
     am_last_settlement_artifact s,
     match cr_auto_settlement_error r with Some e => Some e | None => am_last_error s end) e) as He.
  rewrite Hf in He. cbn in He. rewrite He, elem_of_union, !elem_of_list_to_set. done.
Qed.

(** The pending epochs of a run's summary are those that some tick found completed and
    unsettled and that neither it nor a later tick settled. *)
Theorem summary_pending_epochs `{BuildMode} config rs s :
  summarize_auto_settlement config rs = Some s →
  ∀ e, e ∈ am_pending_epochs s ↔
    ∃ i r, rs !! i = Some r ∧ e ∈ cr_auto_settlement_pending_epochs r ∧
      ∀ j r', (i ≤ j)%nat → rs !! j = Some r' → e ∉ settled_by r'.
Proof.
  unfold summarize_auto_settlement.
  assert (∀ s0, update_summaries s0 rs = Some s → ∀ e, e ∈ am_pending_epochs s ↔
    (e ∈ am_pending_epochs s0 ∧ ∀ j r', rs !! j = Some r' → e ∉ settled_by r') ∨
    ∃ i r, rs !! i = Some r ∧ e ∈ cr_auto_settlement_pending_epochs r ∧
      ∀ j r', (i ≤ j)%nat → rs !! j = Some r' → e ∉ settled_by r') as Hgen.
  2:{ intros Hr e. rewrite (Hgen _ Hr). cbn. set_solver. }
  induction rs as [|r rs IH]; intros s0; cbn [update_summaries].
  { intros [= <-] e. split; [|intros [[? _]|(? & ? & ? & _)]; done]. intros He. left. done. }
  intros (s1 & Hu & Hrest)%bind_Some e. rewrite (IH _ Hrest e), (update_pending _ _ _ e Hu). split.
  - intros [[[Hor Hn] Hall]|(i & r' & Hi & Hp & Hall)].
    + destruct Hor as [H0|Hr]; [left|right; exists 0%nat, r].
      * split; [done|]. intros [|j] r'; cbn; [by intros [= <-]|apply Hall].
      * split_and!; [done..|]. intros [|j] r' _; cbn; [by intros [= <-]|apply Hall].
    + right. exists (S i), r'. split_and!; [done..|]. intros [|j] r'' Hij; cbn; [lia|apply Hall; lia].
  - intros [[H0 Hall]|([|i] & r' & Hi & Hp & Hall)].
    + left. split; [split; [by left|by apply (Hall 0%nat)]|]. intros j r' Hj. by apply (Hall (S j)).
    + cbn in Hi. injection Hi as ->. left. split; [split; [by right|by apply (Hall 0%nat); [lia|]]|].
      intros j r'' Hj. apply (Hall (S j)); [lia|done].
    + right. exists i, r'. split_and!; [done..|]. intros j r'' Hij Hj. apply (Hall (S j)); [lia|done].
Qed.

(** ** Automatic settlement settles a prefix *)

(** [m] leaves [f] of the state as it is. *)
Definition preserves {S E A X} (f : S → X) (m : M S E A) : Prop := ∀ s, f (m s).2 = f s.

Lemma preserves_ret {S E A X} (f : S → X) (a : A) : preserves f (m_ret a : M S E A).
Proof. done. Qed.
Lemma preserves_lift {S E A X} (f : S → X) (r : outcome E A) : preserves f (lift r : M S E A).
Proof. done. Qed.
Lemma preserves_gets {S E A X} (f : S → X) (g : S → A) : preserves f (gets g : M S E A).
Proof. done. Qed.
Lemma preserves_modify {S E X} (f : S → X) (g : S → S) : (∀ s, f (g s) = f s) → preserves f (modify g : M S E unit).
Proof. intros Hg s. apply Hg. Qed.
Lemma preserves_bind {S E A C X} (f : S → X) (m : M S E A) (k : A → M S E C) :
  preserves f m → (∀ a, preserves f (k a)) → preserves f (m_bind m k).
Proof.
  intros Hm Hk s. unfold m_bind. specialize (Hm s). destruct (m s) as [[a|e|] s']; [|exact Hm..].
  cbn in Hm. rewrite <- Hm. apply Hk.
Qed.

Create HintDb preserves.
#[export] Hint Resolve preserves_ret preserves_lift preserves_gets : preserves.
#[export] Hint Extern 3 (preserves _ (m_bind _ _)) => apply preserves_bind; [|intros ?] : preserves.
#[export] Hint Extern 3 (preserves _ (modify _)) => apply preserves_modify; reflexivity : preserves.
#[export] Hint Extern 3 (preserves _ (chk _)) => apply preserves_lift : preserves.
#[export] Hint Extern 3 (preserves _ (ensure _ _)) => apply preserves_lift : preserves.

Section Prefix.
Context `{B : BuildMode} `{X : External} `{PE : PipelineEncoding} `{VE : VerifierEncoding}.
Context `{RT : RuntimeEncoding} `{PX : ProofExternal} `{BC : Bech32}.
Context (config : NodeConfig) (identity : outcome NodeConfigError KeyPair) (paths : DiskPaths).
Context (io : IoPoint → option NodeSettlementError) (local : EpochId → LocalEpoch).

Notation preserves_settlements := (preserves dk_settlements).

Lemma preserves_guard p : preserves_settlements (guard_io io p).
Proof. unfold guard_io. by destruct (io p). Qed.
Hint Resolve preserves_guard : preserves.

Lemma preserves_export_proposals s index ps : preserves_settlements (export_proposals paths io s index ps).
Proof.
  revert index. induction ps as [|p ps IH]; intros index; cbn [export_proposals]; [done|].
  apply preserves_bind.
  { unfold build_governance_proposal_artifact. apply preserves_bind; [auto with preserves|].
    intros [[yes no] abstain]. auto 10 with preserves. }
  intros [artifact path_]. apply IH.
Qed.

Lemma preserves_export_scheduled e index ps : preserves_settlements (export_scheduled paths io e index ps).
Proof.
  revert index. induction ps as [|[e' p] ps IH]; intros index; cbn [export_scheduled]; [done|].
  apply preserves_bind; [unfold save_scheduled; auto 10 with preserves|]. intros _. apply IH.
Qed.

Lemma preserves_save_chain st : preserves_settlements (save_chain paths io st).
Proof.
  unfold save_chain, export_governance_artifacts, save_runtime, flush, save_index, save_summary.
  pose proof preserves_export_proposals. pose proof preserves_export_scheduled. auto 30 with preserves.
Qed.

Lemma preserves_run_chain {A} (m : M (ProtocolState PersistentStoreStub) NodeSettlementError A) st :
  preserves_settlements (run_chain m st).
Proof. intros d. unfold run_chain. by destruct (m st) as [[] ?]. Qed.

(** [m] settles [e] and writes its artifact, or changes no settlement. *)
Definition settles (e : EpochId) (m : M Disk NodeSettlementError EpochSettlementArtifact) : Prop :=
  ∀ d, match m d with
  | (Ok a, d') => es_epoch_id a = e ∧ dk_settlements d' = <[e := a]> (dk_settlements d)
  | (_, d') => dk_settlements d' = dk_settlements d
  end.

Lemma settles_bind {A} e (m : M Disk NodeSettlementError A) k :
  preserves_settlements m → (∀ a, settles e (k a)) → settles e (m_bind m k).
Proof.
  intros Hm Hk d. unfold m_bind. specialize (Hm d). destruct (m d) as [[a|err|] d1]; [|exact Hm..].
  cbn in Hm. specialize (Hk a d1). rewrite Hm in Hk. exact Hk.
Qed.

Lemma settle_next_settles e : settles e (settle_next config identity paths io local e).
Proof.
  pose proof preserves_save_chain as Hsave. pose proof @preserves_run_chain as Hrun.
  unfold settle_next, suggested_settlement_height, settle_local_epoch, load_runtime, open_store.
  do 3 (apply settles_bind; [auto 10 with preserves|intros ?]).
  repeat (apply settles_bind; [solve [auto 10 with preserves]|intros ?]).
  case_match. repeat (apply settles_bind; [solve [auto 10 with preserves]|intros ?]).
  intros d. cbn. done.
Qed.

Lemma auto_settle_prefix arts es d o d' :
  auto_settle_pending_epochs config identity paths io local arts es d = (Some o, d') →
  ∃ k, es_epoch_id <$> ao_artifacts o = ((es_epoch_id <$> arts) ++ take k es)%list ∧
    dom (dk_settlements d') = dom (dk_settlements d) ∪ list_to_set (take k es) ∧
    match ao_error o with
    | None => k = length es
    | Some (e, _) => es !! k = Some e
    end.
Proof.
  revert arts d. induction es as [|e es IH]; intros arts d; cbn [auto_settle_pending_epochs].
  { intros [= <- <-]. exists 0%nat. cbn. rewrite app_nil_r. set_solver. }
  pose proof (settle_next_settles e d) as Hs. destruct (settle_next _ _ _ _ _ e d) as [[a|err|] d1].
  - destruct Hs as [He Hd]. intros Hrest.
    destruct (IH _ _ Hrest) as (k & Hk & Hdom & Hend). exists (S k). cbn. split_and!.
    + rewrite Hk, fmap_app, <- app_assoc. cbn. by rewrite He.
    + rewrite Hdom, Hd, dom_insert_L. set_solver.
    + destruct (ao_error o) as [[? ?]|]; [exact Hend|by f_equal].
  - intros [= <- <-]. exists 0%nat. cbn. rewrite app_nil_r, Hs. split_and!; [done|set_solver|done].
  - done.
Qed.

Lemma epoch_range_NoDup first last_ : NoDup (epoch_range first last_).
Proof. unfold epoch_range. apply NoDup_fmap_2; [|apply NoDup_seq]. intros i j Hij. lia. Qed.

Lemma filter_not_taken (l : list Z) k :
  NoDup l → filter (λ e, e ∉ (list_to_set (take k l) : gset Z)) l = drop k l.
Proof.
  intros Hnd.
  transitivity (filter (λ e, e ∉ (list_to_set (take k l) : gset Z)) (take k l ++ drop k l)%list);
    [by rewrite take_drop|]. rewrite filter_app.
  rewrite <- (take_drop k l) in Hnd. apply NoDup_app in Hnd as (_ & Hdis & _).
  assert (filter (λ e, e ∉ (list_to_set (take k l) : gset Z)) (take k l) = []) as ->.
  { destruct (filter _ _) as [|x xs] eqn:Hf; [done|exfalso].
    assert (x ∈ filter (λ e, e ∉ (list_to_set (take k l) : gset Z)) (take k l)) as Hx
      by (rewrite Hf; set_solver).
    apply list_elem_of_filter in Hx. set_solver. }
  apply filter_all, Forall_forall. intros x Hx. rewrite elem_of_list_to_set. intros Ht.
  by apply (Hdis x Ht).
Qed.

Lemma pending_after_settling p (settled : gset EpochId) k :
  let es := pending_auto_settlement_epochs config settled p in
  pending_auto_settlement_epochs config (settled ∪ list_to_set (take k es)) p = drop k es.
Proof.
  unfold pending_auto_settlement_epochs. cbv zeta. destruct (_ <? _); [by rewrite drop_nil|].
  set (range := epoch_range _ _).
  rewrite <- (filter_not_taken (filter (λ e, e ∉ settled) range) k)
    by apply NoDup_filter, epoch_range_NoDup.
  rewrite list_filter_filter. apply list_filter_iff. set_solver.
Qed.

(** C32: Automatic settlement works through the pending epochs in order: it settles a prefix
    of them, one artifact for each, and stops with the error of the first that fails; the
    epochs pending afterwards are exactly the rest, none of them when there was no error. *)
Theorem auto_settlement_settles_prefix p d o d' :
  auto_settle_pending_epochs config identity paths io local [] (pending_on_disk config d p) d
    = (Some o, d') →
  pending_on_disk config d p = ((es_epoch_id <$> ao_artifacts o) ++ pending_on_disk config d' p)%list ∧
  (ao_error o = None → pending_on_disk config d' p = []) ∧
  (∀ e err, ao_error o = Some (e, err) → head (pending_on_disk config d' p) = Some e).
Proof.
  intros Hrun. destruct (auto_settle_prefix _ _ _ _ _ Hrun) as (k & Hk & Hdom & Hend).
  assert (pending_on_disk config d' p = drop k (pending_on_disk config d p)) as Hp.
  { unfold pending_on_disk. rewrite Hdom. apply pending_after_settling. }
  rewrite Hp, Hk. cbn. split_and!.
  - by rewrite take_drop.
  - intros Hn. rewrite Hn in Hend. subst k. apply drop_all.
  - intros e err He. rewrite He in Hend. by rewrite (drop_S _ _ _ Hend).
Qed.
End Prefix.

(** ** A node with two completed epochs, of which one was collected *)

Section DemoRun.
#[local] Existing Instances demo_external toy_pipeline_encoding toy_verifier_encoding demo_proof_external
  toy_bech32 demo_encoding toy_runtime_encoding runtime_build.

Definition from_epoch_4 : NodeConfig :=
  let c := runtime_config in {|
  nc_chain_id := nc_chain_id c; node_id_hex := node_id_hex c; reward_address_hex := reward_address_hex c;
  nc_capabilities := nc_capabilities c;
  nc_collect := {| collect_enabled := true; default_epoch_id := 4; default_slot_id := 1 |};
  runtime := runtime c; nc_storage := nc_storage c; nc_reward := nc_reward c |}.

Definition at_epoch_6 : LocalNodeProgress :=
  let zero := {| cy_index := 0; cy_reward := 1000; cy_basis_index := 0; cy_basis_weight := 0;
    cy_previous_weight := 0; cy_current_weight := 0 |} in
  {| next_epoch_id := 6; next_slot_id := 1; ticks_completed := 576; reward_blocks_completed := 48;
     legacy := zero; cycle := zero; pending_reward_block := None |}.

Definition demo_auto_settle : option AutoSettlementOutcome * Disk :=
  auto_settle_pending_epochs from_epoch_4 (Ok (from_seed demo_seed)) demo_paths no_failure
    (λ _, demo_local_epoch) [] (pending_on_disk from_epoch_4 empty_disk at_epoch_6) empty_disk.

Lemma auto_settlement_settles_prefix_witness :
  ∃ o d', demo_auto_settle = (Some o, d') ∧ (es_epoch_id <$> ao_artifacts o) = [4] ∧
    head (pending_on_disk from_epoch_4 d' at_epoch_6) = Some 5.
Proof.
  assert (match demo_auto_settle.1 with
    | Some {| ao_artifacts := [a]; ao_error := Some (e, _) |} => (e =? 5) && (es_epoch_id a =? 4)
    | _ => false end = true) as Hok by (vm_compute; reflexivity).
  destruct demo_auto_settle as [[o|] d'] eqn:Hrun; [|discriminate Hok]. exists o, d'.
  destruct (auto_settlement_settles_prefix from_epoch_4 (Ok (from_seed demo_seed)) demo_paths no_failure
    (λ _, demo_local_epoch) at_epoch_6 empty_disk o d') as (_ & _ & Herr);
    [unfold demo_auto_settle in Hrun; exact Hrun|].
  destruct o as [arts err]. cbn in Hok, Herr |- *.
  destruct arts as [|a [|? ?]]; try discriminate Hok. destruct err as [[e err]|]; [|discriminate Hok].
  assert (e = 5 ∧ es_epoch_id a = 4) as [-> Ha]
    by (apply andb_true_iff in Hok as [?%Z.eqb_eq ?%Z.eqb_eq]; by split).
  split_and!; [reflexivity|by rewrite <- Ha|by apply (Herr 5 err)].
Defined.
End DemoRun.

(** A tick that settles an epoch and fails at the next reports the failure, but the
    summary of the run drops it. *)
Definition failed_after_settling (a : EpochSettlementArtifact) (r : CollectTickResult)
    : CollectTickResult := {|
  cr_progress := cr_progress r; cr_artifact := cr_artifact r; cr_outcome := cr_outcome r;
  cr_player_reward_tick_artifact := cr_player_reward_tick_artifact r;
  cr_aggregation_artifact := cr_aggregation_artifact r; cr_reward_artifact := cr_reward_artifact r;
  cr_verification_report := cr_verification_report r;
  cr_epoch_commit_artifact := cr_epoch_commit_artifact r;
  cr_settlement_artifacts := [a]; cr_auto_settlement_pending_epochs := [4; 5];
  cr_auto_settlement_enabled := true; cr_auto_settlement_error := Some "epoch 5: empty batch set";
  cr_p2p_challenge_recipients := None; cr_p2p_challenge_kind := None;
  cr_p2p_challenge_epoch_id := None; cr_p2p_challenge_payload_cid := None;
  cr_retention_audit_artifact := cr_retention_audit_artifact r;
  cr_storage_challenge_artifact := cr_storage_challenge_artifact r;
  cr_storage_challenge_error := cr_storage_challenge_error r;
  cr_retention_prune_outcome := cr_retention_prune_outcome r;
  cr_peer_batch_ingestion := cr_peer_batch_ingestion r |}.
Lemma summary_drops_error `{BuildMode} config a r :
  es_epoch_id a = 4 →
  (λ s, (am_pending_epochs s, am_last_error s))
    <$> summarize_auto_settlement config [failed_after_settling a r] = Some ([5], None).
Proof.
  intros Ha. unfold summarize_auto_settlement. cbn [update_summaries].
  unfold update_auto_settlement_summary. cbn -[add bts_iter]. rewrite add_exact by (cbn; lia).
  cbn -[bts_iter]. rewrite Ha. vm_compute. reflexivity.
Qed.
