(* ===== verification/Ingestion.v ===== *)
(** * What the daemon takes from its peers: src/src/node_daemon.rs

    The play proofs a node records for itself, the announcements it drains from its inbox,
    and the pruning of what it kept. The files of the data directory are the record
    [DataDir]: payloads by file name, batch artifacts by file name, play sessions,
    heartbeats and witness attestations by session id. Reading and writing them succeeds;
    the network is any [P2pNetwork], the local chain's store is the argument [store]. *)
From S2P Require Import Prelude Primitives Params Records Crypto Store Tokenomics Rewards StorageBook Pipeline MutualProof Text NodeConfig ActiveParams CosmosAddress Verifier Aggregator EpochRewards PlayerTicks StorageAudit P2p NodeRuntime Preparation Settlement GovernanceRuntime SettlementRun Progress Daemon.
Local Open Scope pole_scope.
Local Open Scope string_scope.
Local Open Scope Z_scope.

(** ** The data directory *)

Record DataDir := {
  dd_payloads : gmap string bytes;
  dd_batches : gmap string CollectTickArtifact;
  dd_sessions : gmap string PlaySession;
  dd_heartbeats : gmap string (list PlayHeartbeat);
  dd_attestations : gmap string WitnessAttestation;
}.
Definition empty_dir : DataDir := {|
  dd_payloads := ∅; dd_batches := ∅; dd_sessions := ∅; dd_heartbeats := ∅; dd_attestations := ∅ |}.

Definition set_payload (d : DataDir) (name : string) (content : bytes) : DataDir := {|
  dd_payloads := <[name := content]> (dd_payloads d); dd_batches := dd_batches d;
  dd_sessions := dd_sessions d; dd_heartbeats := dd_heartbeats d; dd_attestations := dd_attestations d |}.
Definition set_batch (d : DataDir) (name : string) (a : CollectTickArtifact) : DataDir := {|
  dd_payloads := dd_payloads d; dd_batches := <[name := a]> (dd_batches d);
  dd_sessions := dd_sessions d; dd_heartbeats := dd_heartbeats d; dd_attestations := dd_attestations d |}.
Definition with_payloads (d : DataDir) (m : gmap string bytes) : DataDir := {|
  dd_payloads := m; dd_batches := dd_batches d;
  dd_sessions := dd_sessions d; dd_heartbeats := dd_heartbeats d; dd_attestations := dd_attestations d |}.
Definition with_batches (d : DataDir) (m : gmap string CollectTickArtifact) : DataDir := {|
  dd_payloads := dd_payloads d; dd_batches := m;
  dd_sessions := dd_sessions d; dd_heartbeats := dd_heartbeats d; dd_attestations := dd_attestations d |}.

(** [payload_filename_stub], [payload_artifact_stub] and the names of the files. *)
Definition payload_filename_stub (cid : ContentId) : string := str_replace (str_replace cid "cid://" "") "/" "_".
Definition payload_artifact_stub (cid : ContentId) : string := str_replace (payload_filename_stub cid) ":" "_".
Definition payload_file (cid : ContentId) : string := payload_filename_stub cid +:+ ".bin".

(** [{n:06}] *)
Definition pad6 (n : Z) : string :=
  let s := display n in string_of_bytes (replicate (6 - String.length s) 48) +:+ s.
Definition batch_artifact_file (epoch_id : EpochId) (slot_id : SlotId) (cid : ContentId) : string :=
  "epoch-" +:+ pad6 epoch_id +:+ "-slot-" +:+ pad6 slot_id +:+ "-" +:+ payload_artifact_stub cid +:+ ".json".

Definition write_payload_file (d : DataDir) (cid : ContentId) (content : bytes) : DataDir :=
  set_payload d (payload_file cid) content.
Definition read_payload_file (d : DataDir) (cid : ContentId) : option bytes := dd_payloads d !! payload_file cid.

(** mutual_proof.rs: a session, its heartbeats and its attestation are named by its id. *)
Definition save_play_session (d : DataDir) (s : PlaySession) : DataDir := {|
  dd_payloads := dd_payloads d; dd_batches := dd_batches d;
  dd_sessions := <[hex_32 (ps_session_id s) := s]> (dd_sessions d);
  dd_heartbeats := dd_heartbeats d; dd_attestations := dd_attestations d |}.
Definition load_play_sessions (d : DataDir) : list PlaySession := bt_values (dd_sessions d).
Definition load_play_heartbeats (d : DataDir) (session_id_hex : string) : list PlayHeartbeat :=
  default [] (dd_heartbeats d !! session_id_hex).
Definition store_play_heartbeat (d : DataDir) (h : PlayHeartbeat) : DataDir :=
  let id := hex_32 (hb_session_id h) in {|
  dd_payloads := dd_payloads d; dd_batches := dd_batches d; dd_sessions := dd_sessions d;
  dd_heartbeats := <[id := save_play_heartbeat (load_play_heartbeats d id) h]> (dd_heartbeats d);
  dd_attestations := dd_attestations d |}.
Definition save_witness_attestation (d : DataDir) (a : WitnessAttestation) : DataDir := {|
  dd_payloads := dd_payloads d; dd_batches := dd_batches d; dd_sessions := dd_sessions d;
  dd_heartbeats := dd_heartbeats d;
  dd_attestations := <[hex_32 (wa_session_id a) := a]> (dd_attestations d) |}.
Definition load_witness_attestations (d : DataDir) : list WitnessAttestation := bt_values (dd_attestations d).

(** ** A node's own play proofs *)

Record PlayHeartbeatTickOutcome := {
  ho_sessions_created : Z;
  ho_sessions_reused : Z;
  ho_heartbeats_saved : Z;
}.
Definition PlayHeartbeatTickOutcome_default : PlayHeartbeatTickOutcome :=
  {| ho_sessions_created := 0; ho_sessions_reused := 0; ho_heartbeats_saved := 0 |}.

Definition count_heartbeat (created reused saved : Z) (o : PlayHeartbeatTickOutcome)
    : PlayHeartbeatTickOutcome := {|
  ho_sessions_created := ho_sessions_created o + created;
  ho_sessions_reused := ho_sessions_reused o + reused;
  ho_heartbeats_saved := ho_heartbeats_saved o + saved |}.

(** [config.node_id()] as the callers in mutual_proof.rs see it, with its error as text. *)
Definition node_id_text (config : NodeConfig) : outcome string NodeId :=
  match node_id config with Ok id => Ok id | Err _ => Err "invalid node id" | Panic => Panic end.

Section PlayProofs.
Context `{X : External} `{PX : ProofExternal} {DB : Type} `{PS : ProtocolStore DB}.
Context (infer_reward_game_mapping : string → option RewardGameMapping).
(** [evaluate_game_engagement(name, None) == MainMenu], from the operating system *)
Context (in_main_menu : string → bool).
Context (store : option DB) (config : NodeConfig) (identity : outcome NodeConfigError KeyPair).

Definition bucket_seconds : Z :=
  let value := heartbeat_bucket_seconds ∘ mutual_proof <$> latest_activated_protocol_params store in
  Z.max (match value with
         | Some v => if 0 <? v then v else heartbeat_bucket_seconds MutualProofParams_default
         | None => heartbeat_bucket_seconds MutualProofParams_default
         end) 1.

(** The loop over the mapped apps. [stored] was read before it started. *)
Fixpoint play_heartbeat_loop (p : LocalNodeProgress) (key : KeyPair) (node : NodeId)
    (stored : list PlaySession) (observed_players_by_app : gmap AppId Z) (cid : ContentId)
    (block_secs slots_per_block block_index bucket_index_ : Z) (at_ : UnixMillis)
    (o : PlayHeartbeatTickOutcome) (apps : list (string * AppId))
    : M DataDir NodeDaemonError PlayHeartbeatTickOutcome :=
  match apps with
  | [] => m_ret o
  | (process_name, app_id) :: apps =>
      let rest := play_heartbeat_loop p key node stored observed_players_by_app cid block_secs
        slots_per_block block_index bucket_index_ at_ in
      if in_main_menu process_name then rest o apps else
      let reused := snd <$> list_find (λ s, ps_app_id s = app_id ∧ ps_epoch_id s = next_epoch_id p ∧
        saturating_sub (ps_slot_id s) 1 / slots_per_block = block_index) stored in
      found <- match reused with
        | Some session => m_ret (session, false)
        | None =>
            session <- lift (map_err DaemonMutualProof (build_play_session (node_id_text config) key {|
              MutualProof.in_app_id := app_id; MutualProof.in_epoch_id := next_epoch_id p;
              in_slot_id := next_slot_id p; in_play_seconds := block_secs; in_collector_id := node;
              in_observation_cid := cid;
              in_observed_players := default 0 (observed_players_by_app !! app_id) |}));;
            modify (λ d, save_play_session d session);;;
            m_ret (session, true)
        end;;
      let '(session, session_created) := found in
      recorded <- gets (λ d, existsb (λ h, bucket_index h =? bucket_index_)
        (load_play_heartbeats d (hex_32 (ps_session_id session))));;
      if recorded : bool then rest (count_heartbeat 0 (of_bool (negb session_created)) 0 o) apps else
      heartbeat <- lift (map_err DaemonMutualProof (build_play_heartbeat key session bucket_index_ at_));;
      modify (λ d, store_play_heartbeat d heartbeat);;;
      rest (count_heartbeat (of_bool session_created) (of_bool (negb session_created)) 1 o) apps
  end.

Definition record_play_heartbeats (p : LocalNodeProgress) (active_game_processes : list string)
    (observed_players_by_app : gmap AppId Z) (cid : ContentId) (at_ : UnixMillis)
    : M DataDir NodeDaemonError PlayHeartbeatTickOutcome :=
  if bool_decide (active_game_processes = []) || str_is_empty cid
  then m_ret PlayHeartbeatTickOutcome_default else
  apps <- chk (active_mapped_apps infer_reward_game_mapping config active_game_processes);;
  match apps with
  | [] => m_ret PlayHeartbeatTickOutcome_default
  | _ =>
    let block_secs := Z.max (effective_reward_block_secs store config) 1 in
    let tick := Z.max (effective_collect_interval_secs config active_game_processes) 1 in
    let '(block_index, bucket) :=
      heartbeat_bucket_for_slot (next_slot_id p) block_secs bucket_seconds tick in
    key <- lift (map_err DaemonConfig identity);;
    node <- lift (map_err DaemonConfig (node_id config));;
    let slots_per_block := Z.max (block_secs / tick) 1 in
    stored <- gets load_play_sessions;;
    play_heartbeat_loop p key node stored observed_players_by_app cid block_secs slots_per_block
      block_index bucket at_ PlayHeartbeatTickOutcome_default apps
  end.
End PlayProofs.

(** ** Announcements of peers *)

Definition p2p_error_text (e : P2pError) : string :=
  match e with
  | UnknownPeer peer => "unknown peer " +:+ hex_32 peer
  | MissingPayload cid => "missing payload " +:+ cid
  | NoSubscribers t => "no subscribers for topic " +:+
      match t with
      | Observations => "Observations" | Batches => "Batches" | Receipts => "Receipts"
      | Challenges => "Challenges" | PlaySessions => "PlaySessions" | Attestations => "Attestations"
      end
  | P2pIo err => "io error: " +:+ err
  | P2pJson err => "json error: " +:+ err
  end.
Definition daemon_p2p (e : P2pError) : NodeDaemonError := DaemonIo (p2p_error_text e).

(** What the loop works on: the files, the retention book and the network. *)
Record IngestState (N : Type) := {
  in_dir : DataDir;
  in_book : LocalRetentionBook;
  in_net : N;
}.
Arguments in_dir {N}.
Arguments in_book {N}.
Arguments in_net {N}.

Definition MAX_AUTO_ATTESTATIONS_PER_EPOCH : nat := 64.

Section Ingest.
Context `{B : BuildMode} `{X : External} `{PX : ProofExternal} `{PE : PipelineEncoding} `{VE : VerifierEncoding}.
Context `{RE : ReceiptEncoding} {DB : Type} `{PS : ProtocolStore DB} {N : Type} `{NW : P2pNetwork N}.
Context (store : option DB) (config : NodeConfig) (identity : outcome NodeConfigError KeyPair).

Local Notation Ingest := (M (IngestState N) NodeDaemonError).

Definition set_dir (f : DataDir → DataDir) (st : IngestState N) : IngestState N :=
  {| in_dir := f (in_dir st); in_book := in_book st; in_net := in_net st |}.
(** A computation on the network, or on the book, in the state of the loop. *)
Definition on_net {E A} (m : M N E A) : M (IngestState N) E A := λ st,
  let '(r, n) := m (in_net st) in (r, {| in_dir := in_dir st; in_book := in_book st; in_net := n |}).
Definition on_book {E A} (m : M LocalRetentionBook E A) : M (IngestState N) E A := λ st,
  let '(r, b) := m (in_book st) in (r, {| in_dir := in_dir st; in_book := b; in_net := in_net st |}).
(** The result as a value: the caller goes on after an [Err]. *)
Definition attempt {S E F A} (m : M S E A) : M S F (outcome E A) := λ s,
  let '(r, s') := m s in
  match r with Panic => (Panic, s') | _ => (Ok r, s') end.

(** The node's own observation of the app in the epoch: the first in its payloads. *)
Definition own_observation (d : DataDir) (book : LocalRetentionBook) (session : PlaySession)
    : option (ContentId * Z) :=
  head (omap (λ p,
    if sp_epoch_id p =? ps_epoch_id session then
      content ← read_payload_file d (sp_payload_cid p);
      match borsh_decode_observations content with
      | Ok obs_vec =>
          (λ r, (sp_payload_cid p, observed_players r.2)) <$>
            list_find (λ o, obs_app_id o = ps_app_id session) obs_vec
      | _ => None
      end
    else None) (bt_values (payloads book))).

(** [diff * 1_000_000 / max], zero when both counts are *)
Definition deviation_ppm (own theirs : Z) : Z :=
  let most := Z.max own theirs in
  if most =? 0 then 0 else saturating_mul 64 (Z.abs (own - theirs)) 1000000 / most.

(** Why a session is not witnessed, in the order of the checks. *)
Inductive witness_choice :=
| NotEligible | AlreadyAttested | QuotaReached | PeerAppWitnessed | NoObservation
| SameObservation | TooFar | Attest (own_cid : ContentId) (own_players : Z).

Definition choose_witness (d : DataDir) (book : LocalRetentionBook) (key : KeyPair)
    (local_node_id : NodeId) (session : PlaySession) : witness_choice :=
  if bool_decide (ps_node_address session = identity_account_address (public key))
     || bool_decide (ps_collector_address session = local_node_id)
     || negb (cap_collect (nc_capabilities config)) then NotEligible else
  if bool_decide (is_Some (dd_attestations d !! hex_32 (ps_session_id session))) then AlreadyAttested else
  let attested := wa_session_id <$> load_witness_attestations d in
  let of_epoch := filter (λ s, ps_epoch_id s = ps_epoch_id session ∧ ps_session_id s ∈ attested)
                    (load_play_sessions d) in
  if (MAX_AUTO_ATTESTATIONS_PER_EPOCH <=? length of_epoch)%nat then QuotaReached else
  if existsb (λ s, bool_decide (ps_node_address s = ps_node_address session)
                   && (ps_app_id s =? ps_app_id session)) of_epoch then PeerAppWitnessed else
  match own_observation d book session with
  | None => NoObservation
  | Some (own_cid, own_players) =>
      if bool_decide (own_cid = observation_cid session) then SameObservation else
      if deviation_ppm own_players (ps_observed_players session)
           <=? min_witness_observation_tolerance_ppm MutualProofParams_default
      then Attest own_cid own_players else TooFar
  end.

(** The arm of [P2pMessage::PlaySession]. *)
Definition ingest_session (local_node_id : NodeId) (session : PlaySession) : Ingest unit :=
  modify (set_dir (λ d, save_play_session d session));;;
  match identity with
  | Ok key =>
      choice <- gets (λ st, choose_witness (in_dir st) (in_book st) key local_node_id session);;
      match choice with
      | Attest own_cid own_players =>
          match build_witness_attestation (node_id_text config) key session own_cid
                  (play_seconds session) own_players with
          | Ok attestation =>
              modify (set_dir (λ d, save_witness_attestation d attestation));;;
              _ <- attempt (on_net (publish local_node_id (MsgWitnessAttestation attestation)));;
              m_ret tt
          | Err _ => m_ret tt
          | Panic => lift Panic
          end
      | _ => m_ret tt
      end
  | _ => m_ret tt
  end.

(** Whether the observations of a payload are those that were announced. *)
Definition reproduces (a : BatchAnnouncement) (observations : list ObservationRecord) (leaves : list Hash32)
    : bool :=
  negb (bool_decide (observations = []))
  && (Z.of_nat (length observations) mod 2 ^ 32 =? ba_obs_count a)
  && (forallb (λ o, bool_decide (obs_collector_id o = ba_collector_id a)) observations
      && bool_decide (obs_collector_id <$> head observations = Some (ba_collector_id a)))
  && forallb (λ o, obs_epoch_id o =? ba_epoch_id a) observations
  && bool_decide (merkle_root leaves = ba_batch_root a).

(** [merkle_leaf_sha256(&borsh::to_vec(observation).expect(..))] of each *)
Definition observation_leaves (observations : list ObservationRecord) : option (list Hash32) :=
  mapM observation_leaf observations.

(** What became of an announcement. *)
Inductive fate := Own | Refused | Duplicate | Stored.

(** The rest of the loop body for [P2pMessage::Batch]. *)
Definition ingest_batch (local_node_id : NodeId) (a : BatchAnnouncement) : Ingest fate :=
  if bool_decide (ba_collector_id a = local_node_id) then m_ret Own else
  response <- attempt (on_net (request_payload local_node_id (ba_payload_cid a)));;
  match response with
  | Ok response =>
    let content := pp_payload_bytes response in
    if negb (bool_decide (pp_payload_cid response = ba_payload_cid a))
       || negb (bool_decide (pp_payload_hash response = ba_payload_hash a))
       || negb (bool_decide (stable_hash32 content = ba_payload_hash a))
       || negb (Z.of_nat (length content) =? ba_payload_size_bytes a) then m_ret Refused else
    match borsh_decode_observations content with
    | Ok observations =>
      leaves <- chk (observation_leaves observations);;
      if negb (reproduces a observations leaves) then m_ret Refused else
      let slot_id := default 0 (obs_slot_id <$> head observations) in
      let file := batch_artifact_file (ba_epoch_id a) slot_id (ba_payload_cid a) in
      exists_ <- gets (λ st, bool_decide (is_Some (dd_batches (in_dir st) !! file)));;
      if exists_ : bool then m_ret Duplicate else
      modify (set_dir (λ d, write_payload_file d (ba_payload_cid a) content));;;
      recorded <- attempt (on_book (record_payload local_node_id (ba_epoch_id a)
        (effective_min_retention_epochs store config) (ba_payload_cid a) (ba_payload_hash a)
        (Z.of_nat (length content))));;
      match recorded with
      | Ok record =>
          modify (set_dir (λ d, set_batch d file {|
            ct_epoch_id := ba_epoch_id a; ct_slot_id := slot_id; ct_payload_cid := ba_payload_cid a;
            ct_payload_hash_hex := hex_32 (ba_payload_hash a);
            ct_batch_root_hex := hex_32 (ba_batch_root a); ct_obs_count := ba_obs_count a;
            ct_collector_address := ba_collector_address a; ct_player_reward_block_count := 0;
            ct_player_reward_total := 0; ct_reward_process_name := None;
            ct_stored_payload_cid := Some (sp_payload_cid record);
            ct_retention_until_epoch := Some (sp_retention_until_epoch record) |}));;;
          m_ret Stored
      | Err (QuotaExceeded _ _ _) => m_ret Refused
      | Err err => m_throw (DaemonStorage err)
      | Panic => lift Panic
      end
    | Err _ => m_ret Refused
    | Panic => lift Panic
    end
  | _ => m_ret Refused
  end.

(** The counters are machine words that count elements of one list. *)
Definition count_fate (f : fate) (o : PeerBatchIngestionOutcome) : PeerBatchIngestionOutcome := {|
  pi_announced := pi_announced o + 1;
  pi_accepted := pi_accepted o + match f with Stored => 1 | _ => 0 end;
  pi_duplicates := pi_duplicates o + match f with Duplicate => 1 | _ => 0 end;
  pi_rejected := pi_rejected o + match f with Refused => 1 | _ => 0 end |}.

Fixpoint ingest_envelopes (local_node_id : NodeId) (o : PeerBatchIngestionOutcome)
    (envelopes : list P2pEnvelope) : Ingest PeerBatchIngestionOutcome :=
  match envelopes with
  | [] => m_ret o
  | envelope :: envelopes =>
      match message envelope with
      | MsgBatch a =>
          f <- ingest_batch local_node_id a;;
          ingest_envelopes local_node_id (count_fate f o) envelopes
      | MsgPlaySession session =>
          ingest_session local_node_id session;;;
          ingest_envelopes local_node_id o envelopes
      | MsgWitnessAttestation attestation =>
          modify (set_dir (λ d, save_witness_attestation d attestation));;;
          ingest_envelopes local_node_id o envelopes
      | _ => ingest_envelopes local_node_id o envelopes
      end
  end.

Definition ingest_peer_batch_announcements : Ingest PeerBatchIngestionOutcome :=
  local_node_id <- lift (map_err DaemonConfig (node_id config));;
  envelopes <- (λ st, let '(r, st) := on_net (drain_inbox local_node_id) st in (map_err daemon_p2p r, st));;
  ingest_envelopes local_node_id PeerBatchIngestionOutcome_default envelopes.

(** ** Challenges and the health of the network *)

(** Nobody listening is no error. *)
Definition publish_p2p_best_effort (from_ : NodeId) (m : P2pMessage) : M N NodeDaemonError Z := λ n,
  match publish from_ m n with
  | (Ok count, n) => (Ok count, n)
  | (Err (NoSubscribers _), n) => (Ok 0, n)
  | (Err err, n) => (Err (daemon_p2p err), n)
  | (Panic, n) => (Panic, n)
  end.

Definition record_failed (r : StorageChallengeRecord) : bool :=
  negb (payload_retrievable r) || negb (receipt_payload_matches r) || negb (receipt_epoch_matches r)
  || negb (receipt_storer_matches r) || negb (receipt_retention_matches r)
  || negb (receipt_signature_matches r).

Definition storage_challenge (local_node_id : NodeId) (current_epoch : EpochId)
    (failed : StorageChallengeRecord) : Challenge := {|
  ch_challenge_id := stable_hash32 (string_bytes ("storage-challenge:" +:+ display current_epoch +:+ ":"
    +:+ display (sr_epoch_id failed) +:+ ":" +:+ sr_payload_cid failed));
  ch_kind := BadStorage; ch_epoch_id := sr_epoch_id failed; target_node := Some local_node_id;
  challenger := replicate 32 0x55; ch_bond := 0; opened_at_height := 0; deadline_height := 0;
  ch_state := Open;
  evidence := {| ev_batch_root := None; aggregate_root := None; reward_root := None;
                 ev_payload_cid := Some (sr_payload_cid failed); ev_merkle_proof := [] |} |}.

Definition publish_storage_challenge_if_needed (current_epoch : EpochId)
    (artifact : StorageChallengeArtifact) : M N NodeDaemonError (option P2pChallengeActivity) :=
  if failed_payload_count artifact =? 0 then m_ret None else
  match list_find (λ r, record_failed r = true) (sc_records artifact) with
  | None => m_ret None
  | Some (_, failed) =>
      local_node_id <- lift (map_err DaemonConfig (node_id config));;
      _ <- (λ n, let '(r, n) := register_peer local_node_id n in (map_err daemon_p2p r, n));;
      let challenge := storage_challenge local_node_id current_epoch failed in
      recipients <- publish_p2p_best_effort local_node_id
        (MsgChallenge (challenge_announcement_from_challenge challenge));;
      m_ret (Some {| pa_recipients := recipients; pa_kind := ch_kind challenge;
                     pa_epoch_id := ch_epoch_id challenge;
                     pa_payload_cid := ev_payload_cid (evidence challenge) |})
  end.

Definition attached_network_retrieval_health (local_node_id : NodeId) (batch : AssembledBatch) (n : N)
    : outcome NodeDaemonError (bool * option string) * N :=
  let '(peers, n) := known_peers n in
  match peers with
  | Panic => (Panic, n)
  | _ =>
    let peers := match peers with Ok l => l | _ => [] end in
    match list_find (λ peer, peer ≠ local_node_id) peers with
    | None => (Ok (false, Some "no remote retrieval peer available"), n)
    | Some (_, requester) =>
        match request_payload requester (ab_payload_cid batch) n with
        | (Ok response, n) =>
            (Ok (if negb (bool_decide (pp_payload_cid response = ab_payload_cid batch)) then
               (false, Some "retrieved payload cid did not match published payload")
             else if negb (bool_decide (pp_payload_hash response = ab_payload_hash batch)) then
               (false, Some "retrieved payload hash did not match published payload")
             else if negb (bool_decide (pp_payload_bytes response = payload_bytes batch)) then
               (false, Some "retrieved payload bytes did not match published payload")
             else (true, None)), n)
        | (Err err, n) => (Ok (false, Some (p2p_error_text err)), n)
        | (Panic, n) => (Panic, n)
        end
    end
  end.

Record AttachedNetworkTopologySummary := {
  at_transport : string;
  at_known_peer_count : Z;
  at_learned_remote_peer_count : Z;
  at_batch_listener_count : Z;
  at_receipt_listener_count : Z;
  at_challenge_listener_count : Z;
  at_coordination_stats : P2pCoordinationStats;
}.

(** The three counters of the loop over the peers. *)
Fixpoint count_listeners (counts : Z * Z * Z) (peers : list NodeId) : M N P2pError (Z * Z * Z) :=
  match peers with
  | [] => m_ret counts
  | peer :: peers =>
      subscriptions <- subscriptions_for peer;;
      let '(b, r, c) := counts in
      let has t := of_bool (bool_decide (t ∈ subscriptions)) in
      count_listeners (b + has Batches, r + has Receipts, c + has Challenges) peers
  end.

Definition summarize_attached_network_topology : M N NodeDaemonError AttachedNetworkTopologySummary := λ n,
  let '(r, n) :=
    (peers <- known_peers;;
     learned <- learned_remote_peer_count;;
     stats <- coordination_stats;;
     counts <- count_listeners (0, 0, 0) peers;;
     let '(b, r, c) := counts in
     m_ret {| at_transport := backend_kind; at_known_peer_count := Z.of_nat (length peers);
              at_learned_remote_peer_count := learned; at_batch_listener_count := b;
              at_receipt_listener_count := r; at_challenge_listener_count := c;
              at_coordination_stats := stats |}) n in
  (map_err daemon_p2p r, n).

(** ** Pruning *)

(** [prune_batch_artifacts_for_payloads]; the files are removed in the order of their names. *)
Definition prune_batch_artifacts_for_payloads (removed : gset ContentId) (d : DataDir) : DataDir :=
  if bool_decide (removed = ∅) then d
  else with_batches d (filter (λ kv : string * CollectTickArtifact, ct_payload_cid kv.2 ∉ removed) (dd_batches d)).

(** The expired payloads leave the book, then their files go, then the artifacts of their
    batches; the last two steps of [prune_retention], on the audits and on the artifacts of
    settled epochs, are [prune_audits] and [prune_settled] below. *)
Definition prune_retention (current_epoch : EpochId) (book : LocalRetentionBook) (d : DataDir)
    : PruneOutcome * LocalRetentionBook * DataDir :=
  let '(removed, book) := prune_expired current_epoch book in
  let d := with_payloads d (foldl (λ m r, delete (payload_file (sp_payload_cid r)) m) (dd_payloads d) removed) in
  let d := prune_batch_artifacts_for_payloads (list_to_set (sp_payload_cid <$> removed)) d in
  ({| po_current_epoch := current_epoch; po_removed_payloads := sp_payload_cid <$> removed |}, book, d).

Definition oldest_epoch_to_keep (current_epoch : EpochId) : EpochId :=
  saturating_sub current_epoch (effective_min_retention_epochs store config).

(** [prune_expired_retention_audit_artifacts], on the audits by file name. *)
Definition prune_audits (current_epoch : EpochId) (audits : gmap string RetentionAuditArtifact)
    : gmap string RetentionAuditArtifact :=
  filter (λ kv, ¬ au_current_epoch kv.2 < oldest_epoch_to_keep current_epoch) audits.

(** [epoch_id_from_artifact_path], on the file stem. *)
Fixpoint take_digits (l : list Z) : list Z :=
  match l with
  | [] => []
  | x :: l => if (48 <=? x) && (x <=? 57) then x :: take_digits l else []
  end.
Definition epoch_id_from_stem (stem : string) : option EpochId :=
  epoch_suffix ← strip_prefix stem "epoch-";
  let digits := string_of_bytes (take_digits (string_bytes epoch_suffix)) in
  if str_is_empty digits then None
  else match parse_uint 64 digits with Ok e => Some e | _ => None end.

(** [prune_expired_settled_epoch_artifacts_in_dir]: which stems of a directory go. *)
Definition prune_settled (settled : gset EpochId) (current_epoch : EpochId) (stems : gset string) : gset string :=
  filter (λ stem, match epoch_id_from_stem stem with
    | Some e => (e <? oldest_epoch_to_keep current_epoch) && bool_decide (e ∈ settled)
    | None => false
    end = false) stems.
End Ingest.

(** * Properties *)

Section IngestProperties.
Context `{B : BuildMode} `{X : External} `{PX : ProofExternal} `{PE : PipelineEncoding} `{VE : VerifierEncoding}.
Context `{RE : ReceiptEncoding} {DB : Type} `{PS : ProtocolStore DB} {N : Type} `{NW : P2pNetwork N}.
Context (store : option DB) (config : NodeConfig) (identity : outcome NodeConfigError KeyPair).

Notation State := (IngestState N).
Notation ingest_batch := (ingest_batch store config).

(** [content] reproduces the announcement [a]: hash, size, number, collector, epoch and
    Merkle root of the observations it decodes to. *)
Record matches (a : BatchAnnouncement) (content : bytes) (observations : list ObservationRecord) : Prop := {
  mt_hash : stable_hash32 content = ba_payload_hash a;
  mt_size : Z.of_nat (length content) = ba_payload_size_bytes a;
  mt_decodes : borsh_decode_observations content = Ok observations;
  mt_some : observations ≠ [];
  mt_count : Z.of_nat (length observations) mod 2 ^ 32 = ba_obs_count a;
  mt_collector : Forall (λ o, obs_collector_id o = ba_collector_id a) observations;
  mt_epoch : Forall (λ o, obs_epoch_id o = ba_epoch_id a) observations;
  mt_root : ∃ leaves, observation_leaves observations = Some leaves ∧ merkle_root leaves = ba_batch_root a;
}.

Lemma reproduces_matches a content observations leaves :
  stable_hash32 content = ba_payload_hash a → Z.of_nat (length content) = ba_payload_size_bytes a →
  borsh_decode_observations content = Ok observations →
  observation_leaves observations = Some leaves → reproduces a observations leaves = true →
  matches a content observations.
Proof.
  intros Hh Hs Hd Hl. unfold reproduces. rewrite !andb_true_iff.
  intros [[[[Hn Hc] [Ha _]] He] Hr]. split; [done..| | | | |].
  - apply negb_true_iff in Hn. by apply bool_decide_eq_false in Hn.
  - by apply Z.eqb_eq.
  - apply Is_true_true, forallb_True in Ha. eapply Forall_impl; [exact Ha|]. intros o Ho. by apply bool_decide_unpack in Ho.
  - apply Is_true_true, forallb_True in He. eapply Forall_impl; [exact He|]. intros o Ho.
    by apply Is_true_true, Z.eqb_eq in Ho.
  - exists leaves. split; [done|]. by apply bool_decide_eq_true in Hr.
Qed.

(** The artifact of an ingested batch. *)
Definition artifact_of (a : BatchAnnouncement) (slot_id : SlotId) (record : StoredPayloadRecord)
    : CollectTickArtifact := {|
  ct_epoch_id := ba_epoch_id a; ct_slot_id := slot_id; ct_payload_cid := ba_payload_cid a;
  ct_payload_hash_hex := hex_32 (ba_payload_hash a); ct_batch_root_hex := hex_32 (ba_batch_root a);
  ct_obs_count := ba_obs_count a; ct_collector_address := ba_collector_address a;
  ct_player_reward_block_count := 0; ct_player_reward_total := 0; ct_reward_process_name := None;
  ct_stored_payload_cid := Some (sp_payload_cid record);
  ct_retention_until_epoch := Some (sp_retention_until_epoch record) |}.

Lemma record_payload_err storer e retention cid hash size book err book' :
  record_payload storer e retention cid hash size book = (Err err, book') → book' = book.
Proof.
  unfold record_payload, m_bind, gets, m_ret, ensure, lift, chk, modify.
  destruct (payloads book !! cid); [done|]. unfold id.
  destruct (negb _); [|by intros [= _ <-]].
  destruct (add 64 e retention); cbn; [|done].
  destruct (development_receipt_signature _ _ _ _ _ _); [|by intros [= _ <-]|done].
  destruct (add 64 (used_bytes book) size); cbn; by intros [= ].
Qed.

(** What became of an announcement, from the state before. *)
Definition batch_result (local_node_id : NodeId) (a : BatchAnnouncement) (st : State) (f : fate) (st' : State)
    : Prop :=
  match f with
  | Own => st' = st
  | Duplicate => in_dir st' = in_dir st ∧ in_book st' = in_book st
  | Refused => in_book st' = in_book st ∧ dd_batches (in_dir st') = dd_batches (in_dir st)
  | Stored => ∃ content observations record,
      let slot_id := default 0 (obs_slot_id <$> head observations) in
      let file := batch_artifact_file (ba_epoch_id a) slot_id (ba_payload_cid a) in
      ba_collector_id a ≠ local_node_id ∧ matches a content observations ∧
      dd_batches (in_dir st) !! file = None ∧
      in_dir st' = set_batch (write_payload_file (in_dir st) (ba_payload_cid a) content) file
                     (artifact_of a slot_id record) ∧
      record_payload local_node_id (ba_epoch_id a) (effective_min_retention_epochs store config)
        (ba_payload_cid a) (ba_payload_hash a) (ba_payload_size_bytes a) (in_book st)
        = (Ok record, in_book st')
  end.

Lemma ingest_batch_result local_node_id a st f st' :
  ingest_batch local_node_id a st = (Ok f, st') → batch_result local_node_id a st f st'.
Proof.
  unfold Ingestion.ingest_batch, m_bind, attempt, on_net, on_book, m_ret, chk, lift, modify, gets, m_throw.
  case_bool_decide as Hown; [by intros [= <- <-]|].
  destruct (request_payload _ _ _) as [[resp|err|] n]; [|by intros [= <- <-]|done].
  destruct (negb _ || _ || _ || _) eqn:Hg; [by intros [= <- <-]|].
  rewrite !orb_false_iff, !negb_false_iff, !bool_decide_eq_true, Z.eqb_eq in Hg.
  destruct Hg as [[[_ _] Hhash] Hsize].
  destruct (borsh_decode_observations _) as [obs|e|] eqn:Hdec; [|by intros [= <- <-]|done].
  destruct (observation_leaves obs) as [leaves|] eqn:Hl; [|done]. cbn [or_panic].
  destruct (reproduces a obs leaves) eqn:Hrep; cbn [negb]; [|by intros [= <- <-]].
  case_bool_decide as Hex; [by intros [= <- <-]|]. cbn [in_dir in_book in_net set_dir] in *.
  destruct (record_payload _ _ _ _ _ _ _) as [[rec|err|] book'] eqn:Hrec; [| |done].
  - intros [= <- <-]. exists (pp_payload_bytes resp), obs, rec. cbn.
    split_and!; [done| |by apply eq_None_not_Some|done|by rewrite <- Hsize].
    by apply (reproduces_matches a _ obs leaves).
  - apply record_payload_err in Hrec as ->. destruct err; [done..|]. by intros [= <- <-].
Qed.

(** An accepted announcement replaces the file of its payload, even one that the book
    already holds under that identifier with another hash: the book keeps its record. *)
Lemma stored_batch_replaces_payload local_node_id a st st' record :
  ingest_batch local_node_id a st = (Ok Stored, st') → payloads (in_book st) !! ba_payload_cid a = Some record →
  in_book st' = in_book st ∧
  ∃ content, read_payload_file (in_dir st') (ba_payload_cid a) = Some content ∧
    stable_hash32 content = ba_payload_hash a.
Proof.
  intros (content & obs & rec & _ & Hm & _ & Hdir & Hrec)%ingest_batch_result Hin. split.
  - unfold record_payload, m_bind, gets in Hrec. cbn beta in Hrec. rewrite Hin in Hrec. by injection Hrec.
  - exists content. rewrite Hdir. split; [apply lookup_insert_eq|apply Hm].
Qed.

(** ** A whole inbox *)

Definition announced_batches (envelopes : list P2pEnvelope) : list BatchAnnouncement :=
  omap (λ e, match message e with MsgBatch a => Some a | _ => None end) envelopes.

(** A batch artifact that comes from one of the announcements. *)
Definition ingested (local_node_id : NodeId) (announcements : list BatchAnnouncement) (file : string)
    (art : CollectTickArtifact) : Prop :=
  ∃ a content observations slot_id record, a ∈ announcements ∧ ba_collector_id a ≠ local_node_id ∧
    matches a content observations ∧ slot_id = default 0 (obs_slot_id <$> head observations) ∧
    art = artifact_of a slot_id record ∧
    file = batch_artifact_file (ba_epoch_id a) slot_id (ba_payload_cid a).

Lemma ingest_session_frame local_node_id session st r st' :
  ingest_session config identity local_node_id session st = (r, st') →
  in_book st' = in_book st ∧ dd_batches (in_dir st') = dd_batches (in_dir st) ∧
  dd_payloads (in_dir st') = dd_payloads (in_dir st).
Proof.
  unfold ingest_session, m_bind, modify, m_ret, gets, lift, attempt, on_net. cbn.
  destruct identity as [key|e|]; [|by intros [= _ <-]..].
  destruct (choose_witness _ _ _ _ _ _); try by intros [= _ <-].
  destruct (build_witness_attestation _ _ _ _ _ _); try by intros [= _ <-]. cbn.
  destruct (publish _ _ _) as [[] n]; by intros [= _ <-].
Qed.

Lemma ingested_more local_node_id l l' file art :
  ingested local_node_id l file art → (∀ a, a ∈ l → a ∈ l') → ingested local_node_id l' file art.
Proof. unfold ingested. naive_solver. Qed.

(** The counters of an outcome add up with the batches directory. *)
Definition counts_ok (o o' : PeerBatchIngestionOutcome) (announced before after : nat) : Prop :=
  pi_announced o' = pi_announced o + Z.of_nat announced ∧
  pi_accepted o' = pi_accepted o + (Z.of_nat after - Z.of_nat before) ∧
  pi_duplicates o <= pi_duplicates o' ∧ pi_rejected o <= pi_rejected o' ∧
  (pi_accepted o' - pi_accepted o) + (pi_duplicates o' - pi_duplicates o)
    + (pi_rejected o' - pi_rejected o) <= Z.of_nat announced.

Lemma count_step f o o1 (n b m : nat) (b' : nat) :
  counts_ok (count_fate f o) o1 n b' m →
  Z.of_nat b' = Z.of_nat b + match f with Stored => 1 | _ => 0 end →
  counts_ok o o1 (S n) b m.
Proof. unfold counts_ok, count_fate. cbn. destruct f; lia. Qed.

(** C27: Draining the inbox puts into the batches directory only batches of other nodes whose
    payload reproduces what was announced: same hash and size, observations that are all
    of the announced collector and epoch, as many as announced, and with the announced
    Merkle root. The batches that were there stay, the counters add up, and [accepted] is
    the number of batches that were added. *)
Theorem ingested_batches_reproduced local_node_id envelopes o st o' st' :
  ingest_envelopes store config identity local_node_id o envelopes st = (Ok o', st') →
  (∀ file art, dd_batches (in_dir st') !! file = Some art →
     dd_batches (in_dir st) !! file = Some art ∨
     ingested local_node_id (announced_batches envelopes) file art) ∧
  dd_batches (in_dir st) ⊆ dd_batches (in_dir st') ∧
  counts_ok o o' (length (announced_batches envelopes))
    (size (dd_batches (in_dir st))) (size (dd_batches (in_dir st'))).
Proof.
  revert o st. induction envelopes as [|e envelopes IH]; intros o st; cbn [ingest_envelopes].
  { intros [= <- <-]. split_and!; [auto|done|]. unfold counts_ok. cbn. lia. }
  assert (∀ st1, dd_batches (in_dir st1) = dd_batches (in_dir st) →
    (∀ a, message e ≠ MsgBatch a) →
    ingest_envelopes store config identity local_node_id o envelopes st1 = (Ok o', st') →
    (∀ file art, dd_batches (in_dir st') !! file = Some art →
       dd_batches (in_dir st) !! file = Some art ∨
       ingested local_node_id (announced_batches (e :: envelopes)) file art) ∧
    dd_batches (in_dir st) ⊆ dd_batches (in_dir st') ∧
    counts_ok o o' (length (announced_batches (e :: envelopes)))
      (size (dd_batches (in_dir st))) (size (dd_batches (in_dir st')))) as Hother.
  { intros st1 Hst Hm Hr. destruct (IH o st1 Hr) as (Hin & Hsub & Hc). rewrite Hst in *.
    unfold announced_batches in *. cbn. destruct (message e); try done. by destruct (Hm announcement). }
  destruct (message e) as [ob|a|ra|ca|s|wa] eqn:Hmsg; try (by apply Hother).
  - unfold m_bind. destruct (ingest_batch local_node_id a st) as [[f|?|] st1] eqn:Hb; [|done..].
    apply ingest_batch_result in Hb. intros Hr. destruct (IH _ _ Hr) as (Hin & Hsub & Hc).
    assert (announced_batches (e :: envelopes) = a :: announced_batches envelopes) as ->
      by (unfold announced_batches; cbn; by rewrite Hmsg).
    destruct f; cbn [batch_result] in Hb.
    1-3: assert (dd_batches (in_dir st1) = dd_batches (in_dir st)) as Heq
        by (first [by subst | destruct Hb as [_ ->]; done | by destruct Hb as [-> _]]);
      rewrite Heq in *; split_and!; [|done|by apply (count_step _ _ _ _ _ _ _ Hc); lia];
      intros file art Hf; destruct (Hin file art Hf) as [?|?]; [by left|right];
      eapply ingested_more; [done|set_solver].
    destruct Hb as (content & obs & rec & Hne & Hmt & Hnone & Hdir & _).
    assert (dd_batches (in_dir st1) = <[batch_artifact_file (ba_epoch_id a)
      (default 0 (obs_slot_id <$> head obs)) (ba_payload_cid a) :=
      artifact_of a (default 0 (obs_slot_id <$> head obs)) rec]> (dd_batches (in_dir st))) as Heq
      by (by rewrite Hdir).
    rewrite Heq in *. split_and!.
    + intros file art Hf. destruct (Hin file art Hf) as [[[<- <-]|[_ ?]]%lookup_insert_Some|?].
      * right. exists a, content, obs. eexists _, rec. split_and!; [set_solver|done..].
      * by left.
      * right. eapply ingested_more; [done|set_solver].
    + etransitivity; [by apply insert_subseteq|done].
    + apply (count_step _ _ _ _ _ _ _ Hc). rewrite map_size_insert_None by done. lia.
  - unfold m_bind. destruct (ingest_session config identity local_node_id s st) as [[u|?|] st1] eqn:Hs; [|done..].
    apply ingest_session_frame in Hs as (_ & Hs & _). by apply Hother.
Qed.

(** ** From one node to another *)

(** The announcement of a collected batch is reproduced by its payload. *)
Lemma announcement_reproduced `{T : !EncodingTotal} `{XL : !ExternalLaws} `{VL : !VerifierLaws}
    peer key e slot samples s address :
  collect_batch_from_samples peer key e slot samples = Ok s →
  let a := batch_announcement_from_assembled s address in
  ba_epoch_id a = e ∧ node_id peer = Ok (ba_collector_id a) ∧
  stable_hash32 (payload_bytes s) = ba_payload_hash a ∧
  borsh_decode_observations (payload_bytes s) = Ok (ab_observations s) ∧
  obs_slot_id <$> head (ab_observations s) = Some slot ∧
  ∃ leaves, observation_leaves (ab_observations s) = Some leaves ∧
    reproduces a (ab_observations s) leaves = true.
Proof.
  intros (c & b & Hc & Hcol)%collect_batch_inv a.
  destruct (finalize_inv _ _ _ (cl_sealed _ _ _ _ _ _ _ Hcol)) as (Hp & Hh & Hn & Hperm & leaves & Hl & Hroot).
  assert (bb_observations b ≠ []) as Hne.
  { intros E. pose proof (cl_sealed _ _ _ _ _ _ _ Hcol) as Hf. unfold finalize in Hf. by rewrite E in Hf. }
  destruct (finalize_seals b 0 Hne) as (s' & Hs' & Hseal).
  rewrite (cl_sealed _ _ _ _ _ _ _ Hcol) in Hs'. injection Hs' as <-.
  destruct (sealed_header _ _ _ Hseal) as (He & Hcc & _).
  destruct (cl_builder _ _ _ _ _ _ _ Hcol) as [Hbe Hbc].
  assert (∀ o, o ∈ ab_observations s → obs_epoch_id o = e ∧ obs_slot_id o = slot ∧ obs_collector_id o = c) as Ho.
  { intros o Hin. rewrite Hperm in Hin.
    destruct (collected_observation _ _ _ _ _ _ _ _ Hcol Hin) as (sample & Hobs).
    apply observe_ok in Hobs as (? & ? & ? & _). done. }
  destruct (ab_observations s) as [|o os] eqn:Hos.
  { exfalso. apply Hne. by apply Permutation_nil_l in Hperm. }
  assert (ba_collector_id a = c ∧ ba_epoch_id a = e) as [Hac Hae] by (cbn; by rewrite Hcc, He, Hbe, Hbc).
  split_and!; [done|by rewrite Hac|done|by apply decode_encode_observations| |].
  - cbn. f_equal. apply Ho. set_solver.
  - exists leaves. split; [exact Hl|]. unfold reproduces. rewrite !andb_true_iff. split_and!.
    + done.
    + apply Z.eqb_eq. cbn [ba_obs_count a batch_announcement_from_assembled]. by rewrite Hn.
    + apply Is_true_true, forallb_True, Forall_forall. intros x Hx. rewrite Hac.
      apply bool_decide_pack. by apply Ho.
    + apply bool_decide_eq_true. cbn [head fmap option_fmap option_map]. rewrite Hac. f_equal. apply Ho. set_solver.
    + apply Is_true_true, forallb_True, Forall_forall. intros x Hx. rewrite Hae.
      apply Is_true_true, Z.eqb_eq. by apply Ho.
    + apply bool_decide_eq_true. by rewrite <- Hroot.
Qed.

Lemma record_payload_fresh storer e retention (cid : ContentId) hash size book :
  (∀ u, ∃ enc, borsh_receipt storer e u cid hash size = Ok enc) →
  payloads book !! cid = None → used_bytes book + size <= quota_bytes book → quota_bytes book < 2 ^ 64 →
  0 <= used_bytes book → 0 <= size → 0 <= e + retention < 2 ^ 64 →
  ∃ record book', record_payload storer e retention cid hash size book = (Ok record, book') ∧
    payloads book' !! cid = Some record ∧ payload_hash record = hash.
Proof.
  intros Henc Hnone Hroom Hq Hu Hs He.
  unfold record_payload, m_bind, gets, m_ret, ensure, lift, chk, modify. cbn beta. rewrite Hnone. unfold id, lift.
  rewrite saturating_add_exact by lia.
  assert ((quota_bytes book <? used_bytes book + size) = false) as -> by (apply Z.ltb_ge; lia). cbn [negb].
  rewrite add_exact by lia. cbn [or_panic]. unfold development_receipt_signature.
  destruct (Henc (e + retention)) as [enc ->]. rewrite add_exact by lia. cbn [or_panic].
  eexists _, _. split; [reflexivity|]. cbn. by rewrite lookup_insert_eq.
Qed.

(** C28: What a peer collects reaches this node: when the network hands out the payload that
    the peer sealed and announced, for a payload this node has not recorded and has room
    for, the announcement is accepted, the payload file holds the sealed bytes, and the
    retention book has them under their hash. *)
Theorem published_batch_ingested `{T : !EncodingTotal} `{XL : !ExternalLaws} `{VL : !VerifierLaws}
    peer key e slot samples s address local_node_id st provider_ n :
  let cid := ab_payload_cid s in
  let size := Z.of_nat (length (payload_bytes s)) in
  let file := batch_artifact_file e slot cid in
  collect_batch_from_samples peer key e slot samples = Ok s →
  node_id peer ≠ Ok local_node_id →
  request_payload local_node_id cid (in_net st) =
    (Ok {| provider := provider_; pp_payload_cid := cid; pp_payload_hash := stable_hash32 (payload_bytes s);
           pp_payload_bytes := payload_bytes s |}, n) →
  dd_batches (in_dir st) !! file = None → payloads (in_book st) !! cid = None →
  used_bytes (in_book st) + size <= quota_bytes (in_book st) → quota_bytes (in_book st) < 2 ^ 64 →
  0 <= used_bytes (in_book st) → 0 <= e + effective_min_retention_epochs store config < 2 ^ 64 →
  (∀ u h, ∃ enc, borsh_receipt local_node_id e u cid h size = Ok enc) →
  ∃ st' record, ingest_batch local_node_id (batch_announcement_from_assembled s address) st = (Ok Stored, st') ∧
    read_payload_file (in_dir st') cid = Some (payload_bytes s) ∧
    dd_batches (in_dir st') !! file
      = Some (artifact_of (batch_announcement_from_assembled s address) slot record) ∧
    payloads (in_book st') !! cid = Some record ∧ payload_hash record = stable_hash32 (payload_bytes s).
Proof.
  intros cid size file Hcol Hne Hreq Hfile Hnone Hroom Hq Hu He Henc.
  destruct (announcement_reproduced peer key e slot samples s address Hcol)
    as (Hae & Hc & Hh & Hdec & Hslot & leaves & Hl & Hrep).
  set (a := batch_announcement_from_assembled s address) in *.
  change (ba_payload_cid a) with cid in *.
  destruct (record_payload_fresh local_node_id e (effective_min_retention_epochs store config) cid
    (ba_payload_hash a) size (in_book st) (λ u, Henc u (ba_payload_hash a)) Hnone Hroom Hq Hu ltac:(lia) He)
    as (record & book' & Hrec & Hin & Hrh).
  unfold Ingestion.ingest_batch, m_bind, attempt, on_net, on_book, m_ret, chk, lift, modify, gets.
  rewrite bool_decide_false by congruence. change (ba_payload_cid a) with cid. rewrite Hreq.
  cbn [pp_payload_cid pp_payload_hash pp_payload_bytes].
  rewrite !bool_decide_true by done. cbn [negb orb].
  change (ba_payload_size_bytes a) with size. fold size. rewrite Z.eqb_refl. cbn [negb].
  rewrite Hdec, Hl. cbn [or_panic]. rewrite Hrep. cbn [negb]. rewrite Hslot, Hae. cbn [default from_option id].
  fold file. cbn [in_dir]. rewrite Hfile, (bool_decide_false (is_Some None)) by (by intros []).
  cbn [set_dir in_book in_dir in_net]. rewrite Hrec. eexists _, record. split; [reflexivity|].
  split_and!; [apply lookup_insert_eq|unfold artifact_of; rewrite Hae; apply lookup_insert_eq|done|by rewrite Hrh].
Qed.
End IngestProperties.

(** ** Pruning *)

Section Pruning.
Context `{RE : ReceiptEncoding}.

Lemma delete_files (removed : list StoredPayloadRecord) (m : gmap string bytes) f :
  foldl (λ m r, delete (payload_file (sp_payload_cid r)) m) m removed !! f
  = if decide (f ∈ (λ r, payload_file (sp_payload_cid r)) <$> removed) then None else m !! f.
Proof.
  revert m. induction removed as [|r removed IH]; intros m; [done|]. cbn [foldl fmap list_fmap]. rewrite IH.
  destruct (decide (f = payload_file (sp_payload_cid r))) as [->|Hne].
  - rewrite lookup_delete_eq. repeat case_decide; set_solver.
  - rewrite lookup_delete_ne by done. repeat case_decide; set_solver.
Qed.

Definition expired_payload (book : LocalRetentionBook) (current : EpochId) (cid : ContentId) : Prop :=
  ∃ r, payloads book !! cid = Some r ∧ sp_retention_until_epoch r < current.

(** Pruning removes what has expired and nothing else: the book keeps exactly the payloads
    whose retention lasts to the current epoch, the file of a recorded payload goes exactly
    when its record does, and so does every batch artifact of a removed payload. Names of
    payload files are those of their identifiers, which differ. *)
Theorem prune_retention_spec current book d o book' d' :
  book_ok book →
  (∀ c c', is_Some (payloads book !! c) → is_Some (payloads book !! c') → payload_file c = payload_file c' → c = c') →
  prune_retention current book d = (o, book', d') →
  (∀ cid, cid ∈ po_removed_payloads o ↔ expired_payload book current cid) ∧
  (∀ cid r, payloads book' !! cid = Some r ↔
     payloads book !! cid = Some r ∧ current <= sp_retention_until_epoch r) ∧
  (∀ cid, expired_payload book current cid → read_payload_file d' cid = None) ∧
  (∀ cid r, payloads book' !! cid = Some r → read_payload_file d' cid = read_payload_file d cid) ∧
  (∀ file a, dd_batches d' !! file = Some a ↔ dd_batches d !! file = Some a ∧ ¬ expired_payload book current (ct_payload_cid a)).
Proof.
  intros Hb Hinj. unfold prune_retention.
  destruct (prune_expired_spec current book Hb) as (removed & book1 & Hp & _ & _ & Hrem & Hkept).
  rewrite Hp. intros Heq. injection Heq as <- <- <-. cbn [po_removed_payloads].
  assert (∀ cid, cid ∈ sp_payload_cid <$> removed ↔ expired_payload book current cid) as Hcids.
  { intros cid. rewrite list_elem_of_fmap. split.
    - intros (r & -> & (c & Hc & Hlt)%Hrem). destruct (book_records _ Hb c r Hc) as (<- & _). by exists r.
    - intros (r & Hr & Hlt). exists r. destruct (book_records _ Hb cid r Hr) as (<- & _).
      split; [done|]. apply Hrem. eauto. }
  assert (∀ d0, dd_payloads (prune_batch_artifacts_for_payloads (list_to_set (sp_payload_cid <$> removed)) d0)
    = dd_payloads d0) as Hpay
    by (intros d0; unfold prune_batch_artifacts_for_payloads; by case_bool_decide).
  split_and!; [exact Hcids|exact Hkept| | |].
  - intros cid Hx%Hcids. unfold read_payload_file. rewrite Hpay. cbn [with_payloads dd_payloads].
    rewrite delete_files, decide_True; [done|]. apply list_elem_of_fmap in Hx as (r & -> & Hr).
    apply list_elem_of_fmap. eauto.
  - intros cid r [Hr Hlive]%Hkept. unfold read_payload_file. rewrite Hpay. cbn [with_payloads dd_payloads].
    rewrite delete_files, decide_False; [done|]. intros (r' & Hf & Hr')%list_elem_of_fmap.
    apply Hrem in Hr' as (c' & Hc' & Hlt). destruct (book_records _ Hb c' r' Hc') as (<- & _).
    apply Hinj in Hf; [|eauto..]. subst. rewrite Hr in Hc'. injection Hc' as ->. lia.
  - intros file a. rewrite <- Hcids. unfold prune_batch_artifacts_for_payloads. case_bool_decide as He.
    + cbn. split; [|naive_solver]. intros Ha. split; [done|]. intros Hin.
      assert (ct_payload_cid a ∈ (∅ : gset ContentId)) by (rewrite <- He; by apply elem_of_list_to_set).
      set_solver.
    + cbn. rewrite map_lookup_filter_Some. cbn. by rewrite elem_of_list_to_set.
Qed.
End Pruning.

(** ** A node and its peers *)

Section DemoPeers.
#[local] Existing Instances demo_external toy_pipeline_encoding toy_verifier_encoding demo_proof_external
  toy_bech32 demo_encoding toy_runtime_encoding runtime_build.

Definition local_id : NodeId := stable_hash32 demo_public.
Definition peer_id : NodeId := replicate 32 7.

(** The network on which the peer advertises [content] as [cid]. *)
Definition net_with (cid : ContentId) (hash : Hash32) (content : bytes) : InMemoryP2pNetwork :=
  let net := (mem_bootstrap_peer local_id [Batches; PlaySessions] InMemoryP2pNetwork_default).2 in
  let net := (mem_register_peer peer_id net).2 in
  (mem_advertise_payload peer_id cid hash content net).2.

Definition from_peer (m : P2pMessage) : P2pEnvelope := {| from := peer_id; topic := message_topic m; message := m |}.

Definition ingest_demo := ingest_envelopes (DB:=InMemoryStore) (N:=InMemoryP2pNetwork) None runtime_config
  (Ok (from_seed demo_seed)) local_id PeerBatchIngestionOutcome_default.

Definition demo_state (s : AssembledBatch) : IngestState InMemoryP2pNetwork := {|
  in_dir := empty_dir; in_book := empty_book;
  in_net := net_with (ab_payload_cid s) (ab_payload_hash s) (payload_bytes s) |}.

Lemma ingested_batches_reproduced_witness :
  ∃ s o st, peer_batch = Ok s ∧
    ingest_demo [from_peer (MsgBatch (batch_announcement_from_assembled s "peer"))] (demo_state s) = (Ok o, st) ∧
    pi_accepted o = 1 ∧ size (dd_batches (in_dir st)) = 1%nat.
Proof.
  assert (match peer_batch with
    | Ok s => match (ingest_demo [from_peer (MsgBatch (batch_announcement_from_assembled s "peer"))]
                      (demo_state s)).1 with Ok o => pi_accepted o =? 1 | _ => false end
    | _ => false end = true) as Hok by (vm_compute; reflexivity).
  destruct peer_batch as [s|?|]; [|discriminate Hok..]. exists s.
  destruct (ingest_demo _ _) as [[o|?|] st] eqn:Hrun; [|discriminate Hok..]. exists o, st.
  destruct (ingested_batches_reproduced (DB:=InMemoryStore) (N:=InMemoryP2pNetwork) None runtime_config
    (Ok (from_seed demo_seed)) local_id [from_peer (MsgBatch (batch_announcement_from_assembled s "peer"))]
    PeerBatchIngestionOutcome_default (demo_state s) o st) as (_ & _ & _ & Ha & _);
    [unfold ingest_demo in Hrun; exact Hrun|].
  cbn [fst] in Hok. apply Z.eqb_eq in Hok. split_and!; [reflexivity|reflexivity|exact Hok|].
  rewrite Hok in Ha. change (size (dd_batches (in_dir (demo_state s)))) with 0%nat in Ha. cbn in Ha. lia.
Defined.

Lemma peer_batch_served :
  ∃ s n, peer_batch = Ok s ∧
    request_payload local_id (ab_payload_cid s) (in_net (demo_state s)) =
      (Ok {| provider := peer_id; pp_payload_cid := ab_payload_cid s;
             pp_payload_hash := stable_hash32 (payload_bytes s); pp_payload_bytes := payload_bytes s |}, n) ∧
    Z.of_nat (length (payload_bytes s)) <= 1000.
Proof. eexists _, _. split; [vm_compute; reflexivity|]. split; vm_compute; [reflexivity|discriminate]. Qed.

Lemma published_batch_ingested_witness :
  ∃ s st' record, peer_batch = Ok s ∧
    ingest_batch (DB:=InMemoryStore) (N:=InMemoryP2pNetwork) None runtime_config local_id
      (batch_announcement_from_assembled s "peer") (demo_state s) = (Ok Stored, st') ∧
    read_payload_file (in_dir st') (ab_payload_cid s) = Some (payload_bytes s) ∧
    payload_hash record = stable_hash32 (payload_bytes s).
Proof.
  destruct peer_batch_served as (s & n & Hs & Hreq & Hsize). exists s.
  destruct (published_batch_ingested (T:=toy_encoding_total) (XL:=demo_external_laws) (VL:=toy_verifier_laws)
    (DB:=InMemoryStore) (N:=InMemoryP2pNetwork) None runtime_config
    (with_config (hex_32 peer_id) []) None 4 3 [steam_current_players 730 90 10 "{}"] s "peer" local_id
    (demo_state s) peer_id n) as (st' & record & Hrun & Hread & _ & _ & Hhash).
  - exact Hs.
  - vm_compute. discriminate.
  - exact Hreq.
  - apply lookup_empty.
  - apply lookup_empty.
  - cbn. lia.
  - reflexivity.
  - cbn. lia.
  - vm_compute. split; [discriminate|reflexivity].
  - intros u h. eexists. reflexivity.
  - exists st', record. split_and!; [exact Hs|exact Hrun|exact Hread|exact Hhash].
Defined.

(** A session of the peer: nothing in it is checked. *)
Definition peer_session (id : Z) (epoch_id : EpochId) : PlaySession := {|
  ps_session_id := replicate 32 id; ps_node_address := replicate 32 8; ps_app_id := 570;
  ps_epoch_id := epoch_id; ps_slot_id := 3; play_seconds := 3600; ps_collector_address := peer_id;
  observation_cid := "cid://elsewhere"; ps_observed_players := 120; ps_submitted_at_height := 0;
  session_signature := [] |}.

(** The node after it collected its own sample of the app in epoch 4. *)
Definition after_collecting : IngestState InMemoryP2pNetwork :=
  match demo_stored_run with
  | (Ok out, book) =>
      let s := assembled_batch out in {|
      in_dir := write_payload_file empty_dir (ab_payload_cid s) (payload_bytes s); in_book := book;
      in_net := net_with "none" [] [] |}
  | (_, book) => {| in_dir := empty_dir; in_book := book; in_net := net_with "none" [] [] |}
  end.

(** The limit of one attestation per peer, app and epoch rests on the stored sessions,
    which a peer can replace: a second session with the identifier of the one that was
    attested, but of another epoch, clears the way for the next. *)
Example one_attestation_per_peer_and_app :
  size (dd_attestations (in_dir (ingest_demo
    [from_peer (MsgPlaySession (peer_session 1 4)); from_peer (MsgPlaySession (peer_session 2 4))]
    after_collecting).2)) = 1%nat.
Proof. vm_compute. reflexivity. Qed.
Example replaced_session_lifts_limit :
  size (dd_attestations (in_dir (ingest_demo
    [from_peer (MsgPlaySession (peer_session 1 4)); from_peer (MsgPlaySession (peer_session 1 99));
     from_peer (MsgPlaySession (peer_session 2 4))] after_collecting).2)) = 2%nat.
Proof. vm_compute. reflexivity. Qed.

(** A peer's session for the same app and block is taken for the node's own: no session of
    the node is created, and its heartbeat goes to the peer's session, in the peer's name. *)
Definition mapped_config : NodeConfig :=
  with_config (node_id_hex runtime_config)
    [{| process_name := "Game.exe"; gm_app_id := 570; game_coefficient_ppm := 1000000 |}].
Definition play_demo (d : DataDir) : outcome NodeDaemonError PlayHeartbeatTickOutcome * DataDir :=
  record_play_heartbeats (DB:=InMemoryStore) (λ _, None) (λ _, false) None mapped_config
    (Ok (from_seed demo_seed))
    {| next_epoch_id := 4; next_slot_id := 3; ticks_completed := 0; reward_blocks_completed := 0;
       legacy := {| cy_index := 0; cy_reward := 0; cy_basis_index := 0; cy_basis_weight := 0;
         cy_previous_weight := 0; cy_current_weight := 0 |};
       cycle := {| cy_index := 0; cy_reward := 0; cy_basis_index := 0; cy_basis_weight := 0;
         cy_previous_weight := 0; cy_current_weight := 0 |};
       pending_reward_block := None |}
    ["game"] {[ 570 := 120 ]} "cid://mine" 1000 d.
Example own_session_created :
  (λ d, (ps_node_address <$> load_play_sessions d)) (play_demo empty_dir).2
  = [identity_account_address (public (from_seed demo_seed))].
Proof. vm_compute. reflexivity. Qed.
Example peer_session_reused :
  let r := play_demo (save_play_session empty_dir (peer_session 1 4)) in
  r.1 = Ok {| ho_sessions_created := 0; ho_sessions_reused := 1; ho_heartbeats_saved := 1 |} ∧
  (ps_node_address <$> load_play_sessions r.2) = [replicate 32 8] ∧
  (hb_node_address <$> load_play_heartbeats r.2 (hex_32 (replicate 32 1))) = [replicate 32 8].
Proof. vm_compute. split_and!; reflexivity. Qed.

Definition recorded_book : LocalRetentionBook := (demo_record demo_book).2.
Lemma recorded_book_ok : @book_ok demo_encoding recorded_book.
Proof.
  destruct (wp_elim _ _ _ _ _ (@record_payload_wp true demo_encoding [7] 3 2 "cid" [1] 40 demo_book
    demo_book_ok ltac:(lia)) (surjective_pairing (demo_record demo_book))) as [Hok _];
    [vm_compute; discriminate|exact Hok].
Qed.

Lemma prune_retention_spec_witness :
  ∃ o book' d', prune_retention 9 recorded_book (write_payload_file empty_dir "cid" [1; 2]) = (o, book', d') ∧
    po_removed_payloads o = ["cid"] ∧ read_payload_file d' "cid" = None.
Proof.
  destruct (prune_retention 9 recorded_book (write_payload_file empty_dir "cid" [1; 2])) as [[o book'] d'] eqn:Hp.
  exists o, book', d'. split; [reflexivity|].
  destruct (prune_retention_spec (RE:=demo_encoding) 9 recorded_book (write_payload_file empty_dir "cid" [1; 2])
    o book' d' recorded_book_ok) as (_ & _ & Hgone & _).
  - assert (payloads recorded_book = {[ "cid" := default {| sp_epoch_id := 0; sp_payload_cid := ""; payload_hash := [];
      size_bytes := 0; sp_retention_until_epoch := 0; receipt := {| rr_epoch_id := 0; rr_payload_cid := "";
      storer_id := []; rr_retention_until_epoch := 0; receipt_signature := [] |} |}
      (payloads recorded_book !! "cid") ]}) as -> by (vm_compute; reflexivity).
    intros c c' [r Hr] [r' Hr'] _. apply lookup_singleton_Some in Hr as [<- _], Hr' as [<- _]. reflexivity.
  - exact Hp.
  - split.
    + vm_compute in Hp. injection Hp as <- _ _. reflexivity.
    + apply Hgone. vm_compute. eexists. split; [reflexivity|reflexivity].
Defined.
End DemoPeers.
