(* ===== verification/ProofBinary.v ===== *)
(** * The binary behind a game process: src/src/proof/l1_binary.rs, src/src/os_support.rs

    The first proof level says what stands behind a process id: the image on disk is a PE
    executable, and it is signed, or it lies in a Steam library whose manifest names it.
    What the operating system answers is the record [Host]: the image path of a process,
    the files, the status of [WinVerifyTrust], the certificates of a signed file. A path is
    its list of components (a drive, the root, then names), which is what [parent],
    [file_name], [components], [starts_with] and [join] are defined on; network and verbatim
    prefixes are left out. The functions are those of the Windows build: on another system
    no image path is found and every proof is an error. *)
From stdpp Require Import pretty.
From S2P Require Import Prelude Primitives Text ActivitySources.
Local Open Scope pole_scope.
Local Open Scope string_scope.
Local Open Scope Z_scope.

(** ** Tiers *)

Inductive ProofTier := L1SignedTrusted | L1SignedStandard | L1SteamManifest | L1BareBinary | Untrusted.
#[export] Instance ProofTier_eq_dec : EqDecision ProofTier.
Proof. solve_decision. Defined.

(** The derived [Ord] compares the discriminants. *)
Definition tier_rank (t : ProofTier) : Z :=
  match t with
  | L1SignedTrusted => 100 | L1SignedStandard => 80 | L1SteamManifest => 50
  | L1BareBinary => 0 | Untrusted => -1
  end.

Definition reward_weight_bps (t : ProofTier) : Z :=
  match t with
  | L1SignedTrusted => 10000 | L1SignedStandard => 8000 | L1SteamManifest => 5000
  | L1BareBinary => 0 | Untrusted => 0
  end.
Definition is_reward_eligible (t : ProofTier) : bool := 0 <? reward_weight_bps t.

(** ** Evidence *)

Inductive AuthenticodeStatus :=
  | Valid (signer_subject : string) (is_trusted_publisher : bool)
  | NotSigned
  | InvalidSignature (reason : string)
  | NotSupported.

Definition Path := list string.

Record SteamManifestInfo := {
  sm_app_id : Z;
  sm_name : option string;
  sm_install_dir : option string;
  sm_build_id : option string;
  sm_manifest_path : Path;
}.
Record RawBinaryEvidence := {
  rb_pid : Z;
  rb_process_name : string;
  rb_full_path : Path;
  rb_sha256 : string;
  rb_authenticode : AuthenticodeStatus;
  rb_steam_manifest : option SteamManifestInfo;
  rb_captured_at_millis : Z;
}.

Definition evaluate_binary_tier (evidence : RawBinaryEvidence) : ProofTier :=
  match rb_authenticode evidence with
  | Valid _ true => L1SignedTrusted
  | Valid _ false => L1SignedStandard
  | _ => match rb_steam_manifest evidence with Some _ => L1SteamManifest | None => L1BareBinary end
  end.

Record BinaryProof := {
  bp_pid : Z;
  bp_process_name : string;
  bp_full_path : Path;
  bp_sha256 : string;
  bp_tier : ProofTier;
  bp_authenticode : AuthenticodeStatus;
  bp_steam_manifest : option SteamManifestInfo;
  bp_verified_at_millis : Z;
  bp_raw_evidence : RawBinaryEvidence;
}.

Inductive ProofError :=
  | ProcessNotFound (pid : Z)
  | QueryImagePathFailed (message : string)
  | FileNotFound (path : Path)
  | InvalidPeBinary (path : Path).

(** ** Publishers *)

Definition KNOWN_TRUSTED_PUBLISHERS : list string :=
  [ "valve"; "electronic arts"; "epic games"; "riot games"; "ubisoft"; "activision";
    "blizzard entertainment"; "capcom"; "bandai namco"; "square enix"; "sega"; "microsoft";
    "sony interactive"; "tencent"; "bethesda"; "cd projekt"; "take-two"; "2k games";
    "rockstar games"; "bungie"; "krafton"; "mihoyo"; "cognosphere"; "wargaming" ].

Definition is_known_trusted_publisher (subject : string) : bool :=
  let lower := to_ascii_lowercase subject in
  existsb (str_contains lower) KNOWN_TRUSTED_PUBLISHERS.

(** ** The host *)

(** A [CRYPT_INTEGER_BLOB]: a length and, unless the pointer is null, that many bytes. *)
Record CryptBlob := { cb_data : Z; pb_data : option bytes }.

(** A certificate of the store that comes with a signed file: the issuer and the serial
    number of its [CERT_INFO], when it has one, and its display name. *)
Record Certificate := {
  ct_info : option (CryptBlob * CryptBlob);
  ct_display_name : string;
}.

(** What [CryptQueryObject] gives for a file: the store's certificates in their order, the
    issuer and serial number of the message's signer when it can be read, and what
    [CertFindCertificateInStore] finds for them. *)
Record SignedFile := {
  sf_store : list Certificate;
  sf_signer_info : option (CryptBlob * CryptBlob);
  sf_found : option Certificate;
}.

Record Host := {
  (* OpenProcess and QueryFullProcessImageNameW: no handle, no name, or the path *)
  host_image_path : Z → option (option Path);
  (* regular files, with the bytes that can be read from them *)
  host_is_file : Path → bool;
  host_file : Path → option bytes;
  host_read_to_string : Path → option string;
  host_read_dir : Path → option (list string);
  (* WinVerifyTrust, as an i32, and CryptQueryObject *)
  host_win_verify_trust : Path → Z;
  host_signed_file : Path → option SignedFile;
  (* SHA-256, in hexadecimal *)
  host_sha256_hex : bytes → string;
}.

Definition query_process_image_path (h : Host) (pid : Z) : outcome ProofError Path :=
  match host_image_path h pid with
  | None => Err (ProcessNotFound pid)
  | Some None =>
      Err (QueryImagePathFailed ("QueryFullProcessImageNameW returned 0 for PID " ++ display pid))
  | Some (Some path) => Ok path
  end.

(** [SystemTime::now()] in milliseconds since the epoch; [None] is a clock before it. *)
Definition millis (clock : option Z) : Z :=
  match clock with Some ms => ms mod 2 ^ 64 | None => 0 end.

(** ** Executables *)

Definition u32_from_le_bytes (b : bytes) : Z :=
  foldr (λ x acc, x + 256 * acc) 0 b.

Definition is_valid_pe_executable (h : Host) (path : Path) : bool :=
  if negb (host_is_file h path) then false else
  match host_file h path with
  | None => false
  | Some file =>
      if (length file <? 64)%nat then false else
      let dos_header := take 64 file in
      if negb (bool_decide (take 2 dos_header = [0x4D; 0x5A])) then false else
      let pe_offset := u32_from_le_bytes (take 4 (drop 0x3C dos_header)) in
      if negb ((64 <=? pe_offset) && (pe_offset <=? 10 * 1024 * 1024)) then false else
      let rest := drop (Z.to_nat pe_offset) file in
      if (length rest <? 4)%nat then false else
      bool_decide (take 4 rest = [80; 69; 0; 0])
  end.

Definition compute_executable_sha256 (h : Host) (path : Path) : option string :=
  host_sha256_hex h <$> host_file h path.

(** ** Signatures *)

Definition compare_blobs (a b : CryptBlob) : bool :=
  if negb (cb_data a =? cb_data b) then false
  else if cb_data a =? 0 then true
  else
    match pb_data a, pb_data b with
    | Some slice_a, Some slice_b => bool_decide (slice_a = slice_b)
    | _, _ => false
    end.

(** The certificate of the signer: by the lookup of the store, else the first one whose
    serial number and issuer are the signer's. *)
Definition exact_cert (sf : SignedFile) : option Certificate :=
  '(target_issuer, target_serial) ← sf_signer_info sf;
  match sf_found sf with
  | Some found => Some found
  | None =>
      List.find (λ c,
        match ct_info c with
        | Some (issuer, serial_number) =>
            compare_blobs serial_number target_serial && compare_blobs issuer target_issuer
        | None => false
        end) (sf_store sf)
  end.

(** Without it: the first trusted name of the store, else its first name. *)
Fixpoint fallback_name (name_out : option string) (store : list Certificate) : option string :=
  match store with
  | [] => name_out
  | c :: store =>
      let name := ct_display_name c in
      if str_is_empty name || str_is_empty (trim name) then fallback_name name_out store
      else if is_known_trusted_publisher name then Some name
      else fallback_name (match name_out with None => Some name | Some _ => name_out end) store
  end.

Definition extract_authenticode_signer_name (h : Host) (path : Path) : option string :=
  sf ← host_signed_file h path;
  match exact_cert sf with
  | Some cert => if str_is_empty (ct_display_name cert) then None else Some (ct_display_name cert)
  | None => fallback_name None (sf_store sf)
  end.

(** [{:08X}] of a 32-bit value. *)
Definition hex_upper (d : Z) : Z := if d <? 10 then 48 + d else 55 + d.
Definition hex8 (n : Z) : string :=
  string_of_bytes ((λ i, hex_upper (Z.shiftr n (4 * i) mod 16)) <$> [7; 6; 5; 4; 3; 2; 1; 0]).

Definition verify_authenticode (h : Host) (path : Path) : AuthenticodeStatus :=
  let status := host_win_verify_trust h path in
  if status =? 0 then
    let subject := default "Unknown Verified Signer" (extract_authenticode_signer_name h path) in
    Valid subject (is_known_trusted_publisher subject)
  else
    let code := status mod 2 ^ 32 in
    if code =? 0x800B0100 then NotSigned
    else if code =? 0x800B0101 then InvalidSignature "Certificate has expired (CERT_E_EXPIRED)"
    else if code =? 0x800B0109 then InvalidSignature "Untrusted root certificate (CERT_E_UNTRUSTEDROOT)"
    else if code =? 0x800B0111 then InvalidSignature "Explicit distrust / revoked (TRUST_E_EXPLICIT_DISTRUST)"
    else InvalidSignature ("WinVerifyTrust status code: 0x" ++ hex8 code).

(** ** Paths *)

Definition root_component : string := "\".
Definition is_separator (b : Z) : bool := (b =? 47) || (b =? 92).
Definition is_drive (c : string) : bool :=
  match string_bytes c with
  | [d; 58] => ((65 <=? d) && (d <=? 90)) || ((97 <=? d) && (d <=? 122))
  | _ => false
  end.

(** The names of a relative path: between separators, without empty and [.] ones. *)
Definition names_of (b : list Z) : list string :=
  filter (λ n, n ≠ "" ∧ n ≠ ".") (string_of_bytes <$> split_bytes 47 ((λ x, if x =? 92 then 47 else x) <$> b)).

(** [path.join(s)]: a drive replaces the path, a root keeps its drive only. *)
Definition path_join (p : Path) (s : string) : Path :=
  let b := string_bytes s in
  if is_drive (string_of_bytes (take 2 b)) then
    let rest := drop 2 b in
    let head := if existsb is_separator (take 1 rest) then [root_component] else [] in
    (string_of_bytes (take 2 b) :: head ++ names_of rest)%list
  else if existsb is_separator (take 1 b) then
    (match p with c :: _ => if is_drive c then [c] else [] | [] => [] end
       ++ root_component :: names_of b)%list
  else (p ++ names_of b)%list.

(** Components are equal as drives ignoring case, as names byte by byte. *)
Definition component_eqb (a b : string) : bool :=
  if is_drive a && is_drive b then eq_ignore_ascii_case a b else bool_decide (a = b).
Fixpoint path_starts_with (p q : Path) : bool :=
  match q, p with
  | [], _ => true
  | b :: q, a :: p => component_eqb a b && path_starts_with p q
  | _ :: _, [] => false
  end.

Definition is_name (c : string) : bool := negb (is_drive c) && negb (bool_decide (c = root_component)).
Definition path_parent (p : Path) : option Path :=
  match last p with
  | Some c => if is_name c then Some (take (length p - 1) p) else None
  | None => None
  end.
Definition path_file_name (p : Path) : option string :=
  match last p with
  | Some c => if is_name c && negb (bool_decide (c = "..")) then Some c else None
  | None => None
  end.

(** ** Steam manifests *)

Definition is_exe_within_steam_installdir (exe_path steamapps_dir : Path) (install_dir : string) : bool :=
  let common_game_dir := path_join (path_join steamapps_dir "common") install_dir in
  if path_starts_with exe_path common_game_dir then true
  else existsb (λ c, eq_ignore_ascii_case c install_dir) exe_path.

Definition quote : string := string_of_bytes [34].
Definition quoted (key : string) : string := quote ++ key ++ quote.

Definition extract_acf_value (line : string) : option string :=
  let parts := filter (λ s, str_is_empty (trim s) = false) (str_split line 34) in
  if (2 <=? length parts)%nat then parts !! 1%nat else None.

Definition manifest_line (acc : option string * option string * option string) (line : string)
    : option string * option string * option string :=
  let '(name, install_dir, build_id) := acc in
  let trimmed := trim line in
  if starts_with trimmed (quoted "name") then (extract_acf_value trimmed, install_dir, build_id)
  else if starts_with trimmed (quoted "installdir") then (name, extract_acf_value trimmed, build_id)
  else if starts_with trimmed (quoted "buildid") then (name, install_dir, extract_acf_value trimmed)
  else acc.

Definition parse_steam_manifest_file (h : Host) (manifest_path : Path) (app_id : Z)
    : option SteamManifestInfo :=
  content ← host_read_to_string h manifest_path;
  let '(name, install_dir, build_id) := fold_left manifest_line (str_lines content) (None, None, None) in
  Some {| sm_app_id := app_id; sm_name := name; sm_install_dir := install_dir;
          sm_build_id := build_id; sm_manifest_path := manifest_path |}.

(** A manifest counts when the directory it declares holds the executable. *)
Definition manifest_for (h : Host) (exe_path dir manifest_path : Path) (app_id : Z)
    : option SteamManifestInfo :=
  info ← parse_steam_manifest_file h manifest_path app_id;
  install_dir ← sm_install_dir info;
  if is_exe_within_steam_installdir exe_path dir install_dir then Some info else None.

Fixpoint scan_manifests (h : Host) (exe_path dir : Path) (entries : list string)
    : option SteamManifestInfo :=
  match entries with
  | [] => None
  | file_name :: entries =>
      let found :=
        if starts_with file_name "appmanifest_" && bool_decide (is_Some (strip_suffix file_name ".acf")) then
          let id_part := trim_end_matches (trim_start_matches file_name "appmanifest_") ".acf" in
          match parse_uint 32 id_part with
          | Ok app_id => manifest_for h exe_path dir (dir ++ [file_name])%list app_id
          | _ => None
          end
        else None in
      match found with Some info => Some info | None => scan_manifests h exe_path dir entries end
  end.

Definition manifest_in (h : Host) (exe_path dir : Path) (expected_app_id : option Z)
    : option SteamManifestInfo :=
  match expected_app_id with
  | Some target_id =>
      let manifest_file := path_join dir ("appmanifest_" ++ display target_id ++ ".acf") in
      if host_is_file h manifest_file then manifest_for h exe_path dir manifest_file target_id else None
  | None =>
      match host_read_dir h dir with
      | Some entries => scan_manifests h exe_path dir entries
      | None => None
      end
  end.

Fixpoint find_upwards (h : Host) (exe_path : Path) (expected_app_id : option Z) (levels : nat)
    (current : option Path) : option SteamManifestInfo :=
  match levels with
  | O => None
  | S levels =>
      dir ← current;
      let found :=
        if bool_decide (path_file_name dir = Some "steamapps")
        then manifest_in h exe_path dir expected_app_id else None in
      match found with
      | Some info => Some info
      | None => find_upwards h exe_path expected_app_id levels (path_parent dir)
      end
  end.
Definition find_steam_appmanifest (h : Host) (exe_path : Path) (expected_app_id : option Z)
    : option SteamManifestInfo :=
  find_upwards h exe_path expected_app_id 6 (path_parent exe_path).

(** ** The proof *)

Definition capture_raw_binary_evidence (h : Host) (clock : option Z) (pid : Z)
    (expected_app_id : option Z) : outcome ProofError RawBinaryEvidence :=
  do? full_path <- query_process_image_path h pid;
  if negb (host_is_file h full_path) then Err (FileNotFound full_path) else
  if negb (is_valid_pe_executable h full_path) then Err (InvalidPeBinary full_path) else
  Ok {| rb_pid := pid;
        rb_process_name := default "unknown.exe" (path_file_name full_path);
        rb_full_path := full_path;
        rb_sha256 := default "" (compute_executable_sha256 h full_path);
        rb_authenticode := verify_authenticode h full_path;
        rb_steam_manifest := find_steam_appmanifest h full_path expected_app_id;
        rb_captured_at_millis := millis clock |}.

Definition generate_l1_binary_proof (h : Host) (clock : option Z) (pid : Z)
    (expected_app_id : option Z) : outcome ProofError BinaryProof :=
  do? evidence <- capture_raw_binary_evidence h clock pid expected_app_id;
  Ok {| bp_pid := rb_pid evidence;
        bp_process_name := rb_process_name evidence;
        bp_full_path := rb_full_path evidence;
        bp_sha256 := rb_sha256 evidence;
        bp_tier := evaluate_binary_tier evidence;
        bp_authenticode := rb_authenticode evidence;
        bp_steam_manifest := rb_steam_manifest evidence;
        bp_verified_at_millis := rb_captured_at_millis evidence;
        bp_raw_evidence := evidence |}.

(** The process of the foreground window; 0 stands for no window or no process. *)
Definition inspect_foreground_process_l1 (h : Host) (clock : option Z) (foreground : option Z)
    (expected_app_id : option Z) : option BinaryProof :=
  pid ← foreground;
  if pid =? 0 then None else
  match generate_l1_binary_proof h clock pid expected_app_id with Ok proof => Some proof | _ => None end.

(** * Lemmas and theorems *)

(** ** Directories above the executable *)

Definition upwards (k : nat) (p : option Path) : option Path := Nat.iter k (λ c, c ≫= path_parent) p.

Lemma upwards_S k p : upwards (S k) p = upwards k (p ≫= path_parent).
Proof. unfold upwards. by rewrite Nat.iter_succ_r. Qed.

Lemma path_parent_snoc p c : is_name c = true → path_parent (p ++ [c])%list = Some p.
Proof.
  intros Hc. unfold path_parent. rewrite last_snoc, Hc, length_app, Nat.add_sub.
  by rewrite take_app_length.
Qed.
Lemma path_file_name_snoc p c n :
  is_name c = true → path_file_name (p ++ [c])%list = Some n → n = c.
Proof. unfold path_file_name. rewrite last_snoc. intros ->. simpl. by repeat case_match; intros; simplify_eq. Qed.

Lemma manifest_for_sound h exe dir file app info :
  manifest_for h exe dir file app = Some info →
  sm_app_id info = app ∧ ∃ d, sm_install_dir info = Some d ∧ is_exe_within_steam_installdir exe dir d = true.
Proof.
  unfold manifest_for, parse_steam_manifest_file. intros H.
  destruct (host_read_to_string h file); [|done]. simpl in H.
  destruct (fold_left _ _ _) as [[n i] b]. simpl in H. destruct i as [d|]; [|done]. simpl in H.
  destruct (is_exe_within_steam_installdir exe dir d) eqn:E; simplify_eq. simpl. eauto.
Qed.

Lemma manifest_in_sound h exe dir app info :
  manifest_in h exe dir app = Some info →
  (∀ id, app = Some id → sm_app_id info = id) ∧
  ∃ d, sm_install_dir info = Some d ∧ is_exe_within_steam_installdir exe dir d = true.
Proof.
  unfold manifest_in. destruct app as [id|].
  - destruct (host_is_file h _); [|done]. intros [Hid Hd]%manifest_for_sound. split; [|done].
    intros ? [=]. congruence.
  - destruct (host_read_dir h dir) as [entries|]; [|done]. intros H. split; [done|].
    revert H. induction entries as [|e entries IH]; simpl; [done|].
    repeat case_match; try done; intros; simplify_eq; auto.
    by apply (proj2 (manifest_for_sound _ _ _ _ _ _ ltac:(eassumption))).
Qed.

(** A manifest that is found declares a directory that holds the executable in the sense of
    [is_exe_within_steam_installdir], comes from a [steamapps] directory at most six levels
    up, and is the expected one. *)
Lemma find_steam_appmanifest_sound h exe app info :
  find_steam_appmanifest h exe app = Some info →
  (∀ id, app = Some id → sm_app_id info = id) ∧
  ∃ k dir d, (k < 6)%nat ∧ upwards (S k) (Some exe) = Some dir ∧
    path_file_name dir = Some "steamapps" ∧ sm_install_dir info = Some d ∧
    is_exe_within_steam_installdir exe dir d = true.
Proof.
  unfold find_steam_appmanifest. generalize 6%nat as n.
  assert (∀ n cur, find_upwards h exe app n cur = Some info →
    (∀ id, app = Some id → sm_app_id info = id) ∧
    ∃ k dir d, (k < n)%nat ∧ upwards k cur = Some dir ∧ path_file_name dir = Some "steamapps" ∧
      sm_install_dir info = Some d ∧ is_exe_within_steam_installdir exe dir d = true) as Hf.
  { induction n as [|n IH]; simpl; intros cur H; [done|]. destruct cur as [dir|]; [|done]. simpl in H.
    destruct (bool_decide _) eqn:Es in H; [apply bool_decide_eq_true in Es|];
      [destruct (manifest_in _ _ _ _) eqn:Em|].
    - simplify_eq. apply manifest_in_sound in Em as (Hid & d & Hd & Hin). split; [done|].
      exists 0%nat, dir, d. split_and!; [lia|done..].
    - destruct (IH _ H) as (Hid & k & dir' & d & Hk & Hu & ?). split; [done|].
      exists (S k), dir', d. rewrite upwards_S. split_and!; [lia|done|naive_solver..].
    - destruct (IH _ H) as (Hid & k & dir' & d & Hk & Hu & ?). split; [done|].
      exists (S k), dir', d. rewrite upwards_S. split_and!; [lia|done|naive_solver..]. }
  intros n (Hid & k & dir & d & Hk & Hu & ?)%Hf. split; [done|].
  exists k, dir, d. rewrite upwards_S. simpl. done.
Qed.

(** ** Games of a library are found *)

Lemma find_upwards_skip h exe app n p rest :
  Forall (λ c, is_name c = true ∧ c ≠ "steamapps") rest →
  find_upwards h exe app (length rest + n) (Some (p ++ rest)%list) = find_upwards h exe app n (Some p).
Proof.
  revert n. induction rest as [|c rest IH] using rev_ind; intros n Hf; [by rewrite app_nil_r|].
  apply Forall_app in Hf as [Hr [[Hc Hs] _]%Forall_cons].
  replace (length (rest ++ [c]) + n)%nat with (S (length rest + n)) by (rewrite length_app; simpl; lia).
  rewrite app_assoc. cbn [find_upwards mbind option_bind].
  rewrite bool_decide_eq_false_2 by (intros Heq%path_file_name_snoc; congruence).
  rewrite path_parent_snoc by done. by apply IH.
Qed.

(** An executable of an installed game, at most three directories below the game's own, is
    matched with its manifest when the process is expected to be that game. *)
Theorem library_manifest_found h lib d rest file id info :
  Forall (λ c, is_name c = true ∧ c ≠ "steamapps") (d :: rest ++ [file])%list →
  (length rest <= 3)%nat →
  host_is_file h (path_join (lib ++ ["steamapps"])%list ("appmanifest_" ++ display id ++ ".acf")) = true →
  parse_steam_manifest_file h (path_join (lib ++ ["steamapps"])%list ("appmanifest_" ++ display id ++ ".acf")) id
    = Some info →
  sm_install_dir info = Some d →
  find_steam_appmanifest h (lib ++ "steamapps" :: "common" :: d :: rest ++ [file])%list (Some id) = Some info.
Proof.
  intros [[Hd1 Hd2] [Hr [[Hn _] _]%Forall_cons]%Forall_app]%Forall_cons Hlen Hfile Hparse Hdir.
  set (steamapps := (lib ++ ["steamapps"])%list) in *.
  set (exe := (lib ++ "steamapps" :: "common" :: d :: rest ++ [file])%list).
  assert (exe = ((steamapps ++ "common" :: d :: rest) ++ [file]))%list as Hexe.
  { unfold exe, steamapps. by rewrite <- !app_assoc. }
  unfold find_steam_appmanifest. rewrite Hexe at 2. rewrite path_parent_snoc by done.
  replace 6%nat with (length ("common" :: d :: rest) + S (3 - length rest))%nat by (simpl; lia).
  rewrite find_upwards_skip by (by repeat constructor). cbn [find_upwards mbind option_bind].
  rewrite (bool_decide_eq_true_2 (path_file_name _ = _)) by (unfold steamapps, path_file_name; by rewrite last_snoc).
  unfold manifest_in. rewrite Hfile. unfold manifest_for. rewrite Hparse. simpl. rewrite Hdir. simpl.
  unfold is_exe_within_steam_installdir. destruct (path_starts_with _ _); [done|].
  replace (existsb _ exe) with true; [done|]. symmetry. apply existsb_exists. exists d. split.
  - unfold exe. apply in_or_app. right. do 2 right. by left.
  - unfold eq_ignore_ascii_case. by apply bool_decide_eq_true_2.
Qed.

(** ** Manifests are read back *)

(** A manifest as Steam writes it: a tab, the quoted key, two tabs and the quoted value. *)
Definition acf_line (key value : string) : list Z :=
  ([9; 34] ++ string_bytes key ++ [34; 9; 9; 34] ++ string_bytes value ++ [34])%list.
Definition manifest_lines (app_id : Z) (name install_dir build_id : string) : list (list Z) :=
  [ string_bytes (quoted "AppState"); [123]; acf_line "appid" (display app_id); acf_line "name" name;
    acf_line "installdir" install_dir; acf_line "buildid" build_id; [125] ].
Definition manifest_text (app_id : Z) (name install_dir build_id : string) : string :=
  string_of_bytes (concat ((λ l, (l ++ [10])%list) <$> manifest_lines app_id name install_dir build_id)).

(** A value that is not blank and holds neither a quote nor a line feed. *)
Definition acf_value (v : string) : Prop :=
  (34 ∉ string_bytes v) ∧ (10 ∉ string_bytes v) ∧ str_is_empty (trim v) = false.
#[export] Instance acf_value_dec v : Decision (acf_value v).
Proof. unfold acf_value. apply _. Defined.

Lemma starts_with_bytes l p :
  Forall is_byte l →
  starts_with (string_of_bytes l) p = bool_decide (is_Some (strip_prefix_list (string_bytes p) l)).
Proof.
  intros Hl. unfold starts_with, strip_prefix. rewrite string_bytes_of_bytes by done.
  apply bool_decide_ext. by rewrite fmap_is_Some.
Qed.

Lemma trim_end_rev_quote l : trim_end_rev (34 :: l) = 34 :: l.
Proof. destruct l as [|b [|a l]]; simpl; unfold ws2, ws3; simpl; by rewrite ?andb_false_r. Qed.

Lemma trim_quoted l :
  Forall is_byte l →
  trim (string_of_bytes (9 :: 34 :: l ++ [34])%list) = string_of_bytes (34 :: l ++ [34])%list.
Proof.
  intros Hl. unfold trim. rewrite string_bytes_of_bytes.
  2: { repeat constructor; try (unfold is_byte; lia). apply Forall_app. split; [done|].
       repeat constructor; unfold is_byte; lia. }
  unfold trim_bytes. f_equal.
  replace (trim_start_bytes (9 :: 34 :: l ++ [34])) with (34 :: l ++ [34])%list.
  - rewrite app_comm_cons, rev_app_distr. simpl rev at 2. cbn [app].
    rewrite trim_end_rev_quote. simpl. by rewrite rev_app_distr, rev_involutive.
  - destruct l as [|b [|c l]]; done.
Qed.

Lemma acf_line_bytes key v : Forall is_byte (acf_line key v).
Proof.
  unfold acf_line. repeat (apply Forall_app; split); try apply string_bytes_range;
    repeat constructor; unfold is_byte; lia.
Qed.

(** The line without its tab, as the reader sees it. *)
Definition acf_entry (key value : string) : list Z :=
  ([34] ++ string_bytes key ++ [34; 9; 9; 34] ++ string_bytes value ++ [34])%list.

Lemma trim_acf_line key v :
  trim (string_of_bytes (acf_line key v)) = string_of_bytes (acf_entry key v).
Proof.
  unfold acf_line, acf_entry.
  pose proof (trim_quoted (string_bytes key ++ [34; 9; 9; 34] ++ string_bytes v)) as H.
  rewrite <- !app_assoc in H. apply H.
  repeat (apply Forall_app; split); try apply string_bytes_range; repeat constructor; unfold is_byte; lia.
Qed.

Lemma extract_acf_entry key v :
  acf_value key → acf_value v → extract_acf_value (string_of_bytes (acf_entry key v)) = Some v.
Proof.
  intros (Hk & _ & Hkt) (Hv & _ & Hvt). unfold extract_acf_value, str_split.
  rewrite string_bytes_of_bytes.
  2: { pose proof (acf_line_bytes key v) as H. unfold acf_line in H. simpl in H.
       by apply Forall_cons in H as [_ H]. }
  assert (acf_entry key v =
    ([] ++ 34 :: (string_bytes key ++ 34 :: ([9; 9] ++ 34 :: (string_bytes v ++ 34 :: [])))))%list
    as -> by done.
  do 3 (rewrite split_bytes_piece by first [done | by apply (bool_decide_unpack _)]).
  rewrite (split_bytes_piece 34 (string_bytes v) []) by done. cbn [split_bytes fmap list_fmap].
  rewrite !string_of_string_bytes.
  rewrite filter_cons_False by done. rewrite filter_cons_True by done.
  rewrite filter_cons_False by done. rewrite filter_cons_True by done. done.
Qed.

Lemma manifest_line_entry acc key v :
  manifest_line acc (string_of_bytes (acf_line key v)) =
  let '(name, install_dir, build_id) := acc in
  let trimmed := string_of_bytes (acf_entry key v) in
  let has k := bool_decide (is_Some (strip_prefix_list (string_bytes (quoted k)) (acf_entry key v))) in
  if has "name" then (extract_acf_value trimmed, install_dir, build_id)
  else if has "installdir" then (name, extract_acf_value trimmed, build_id)
  else if has "buildid" then (name, install_dir, extract_acf_value trimmed)
  else acc.
Proof.
  unfold manifest_line. destruct acc as [[n i] b]. rewrite trim_acf_line.
  rewrite !starts_with_bytes; [done|..];
    (pose proof (acf_line_bytes key v) as H; unfold acf_line in H; simpl in H;
     by apply Forall_cons in H as [_ H]).
Qed.

Lemma split_terminated ls :
  Forall (λ l, 10 ∉ l) ls → split_bytes 10 (concat ((λ l, (l ++ [10])%list) <$> ls)) = (ls ++ [[]])%list.
Proof.
  induction 1 as [|l ls Hl _ IH]; [done|]. rewrite fmap_cons. cbn [concat]. rewrite <- app_assoc. cbn [app].
  by rewrite split_bytes_piece, IH.
Qed.
Lemma line_pieces_terminated ls : line_pieces (ls ++ [[]])%list = strip_cr <$> ls.
Proof. induction ls as [|l ls IH]; [done|]. destruct ls as [|l' ls]; [done|]. simpl in *. by rewrite IH. Qed.

Lemma strip_cr_acf key v : strip_cr (acf_line key v) = acf_line key v.
Proof. unfold strip_cr, acf_line. by rewrite !app_assoc, rev_app_distr. Qed.
Lemma acf_line_no_lf key v : 10 ∉ string_bytes key → 10 ∉ string_bytes v → 10 ∉ acf_line key v.
Proof. intros Hk Hv. unfold acf_line. set_solver. Qed.

Lemma concat_bytes ls :
  Forall (Forall is_byte) ls → Forall is_byte (concat ((λ l, (l ++ [10])%list) <$> ls)).
Proof.
  induction 1 as [|l ls Hl _ IH]; [constructor|]. rewrite fmap_cons. cbn [concat]. repeat (apply Forall_app; split); [done| |done].
  repeat constructor; unfold is_byte; lia.
Qed.

Lemma manifest_text_lines app_id name install_dir build_id :
  10 ∉ string_bytes (display app_id) → acf_value name → acf_value install_dir → acf_value build_id →
  str_lines (manifest_text app_id name install_dir build_id) =
  string_of_bytes <$> manifest_lines app_id name install_dir build_id.
Proof.
  intros Ha (_ & Hn & _) (_ & Hi & _) (_ & Hb & _). unfold str_lines, manifest_text.
  rewrite string_bytes_of_bytes.
  2: { apply concat_bytes. unfold manifest_lines.
       repeat (apply Forall_cons_2; [first [apply acf_line_bytes | apply string_bytes_range
         | repeat constructor; unfold is_byte; lia]|]). constructor. }
  rewrite split_terminated.
  2: { unfold manifest_lines. repeat (apply Forall_cons_2;
         [first [apply acf_line_no_lf; [by apply (bool_decide_unpack _)|done]
                | by apply (bool_decide_unpack _)]|]). constructor. }
  rewrite line_pieces_terminated. cbn [manifest_lines fmap list_fmap]. by rewrite !strip_cr_acf.
Qed.

Lemma pretty_N_go_digits x s :
  Forall (λ b, 48 <= b <= 57) (string_bytes s) → Forall (λ b, 48 <= b <= 57) (string_bytes (pretty_N_go x s)).
Proof.
  revert s. induction (N.lt_wf_0 x) as [x _ IH]; intros s Hs.
  destruct (decide (x = 0)%N) as [->|Hx]; [by rewrite pretty_N_go_0|].
  rewrite pretty_N_go_step by lia. apply IH; [apply N.div_lt; lia|].
  rewrite string_bytes_cons. constructor; [|done]. unfold pretty_N_char. by repeat case_match.
Qed.

Lemma display_digits n : 0 <= n → Forall (λ b, 48 <= b <= 57) (string_bytes (display n)).
Proof.
  intros Hn. unfold display, pretty, pretty_Z. destruct n as [|p|p]; [| |lia].
  - by apply (bool_decide_unpack _).
  - change (pretty_positive p) with (pretty_N_go (N.pos p) ""). apply pretty_N_go_digits. constructor.
Qed.

(** A manifest with a name, an install directory and a build id is read back field by
    field, whatever the application's id. *)
Theorem manifest_roundtrip h path app_id name install_dir build_id :
  0 <= app_id →
  acf_value name → acf_value install_dir → acf_value build_id →
  host_read_to_string h path = Some (manifest_text app_id name install_dir build_id) →
  parse_steam_manifest_file h path app_id =
    Some {| sm_app_id := app_id; sm_name := Some name; sm_install_dir := Some install_dir;
            sm_build_id := Some build_id; sm_manifest_path := path |}.
Proof.
  intros Hid Hn Hi Hb Hread. unfold parse_steam_manifest_file. rewrite Hread. cbn [mbind option_bind].
  rewrite manifest_text_lines; [|intros H10; pose proof (proj1 (Forall_forall _ _) (display_digits _ Hid) _ H10); simpl in *; lia|done..].
  cbn [manifest_lines fmap list_fmap fold_left]. rewrite !manifest_line_entry. cbv zeta.
  assert (∀ key, acf_value key → extract_acf_value (string_of_bytes (acf_entry key name)) = Some name
    ∧ extract_acf_value (string_of_bytes (acf_entry key install_dir)) = Some install_dir
    ∧ extract_acf_value (string_of_bytes (acf_entry key build_id)) = Some build_id) as Hx.
  { intros key Hk. split_and!; by apply extract_acf_entry. }
  destruct (Hx "name") as (-> & _); [by apply (bool_decide_unpack _)|].
  destruct (Hx "installdir") as (_ & -> & _); [by apply (bool_decide_unpack _)|].
  destruct (Hx "buildid") as (_ & _ & ->); [by apply (bool_decide_unpack _)|].
  reflexivity.
Qed.

(** ** A library on disk *)

Definition demo_lib : Path := ["D:"; root_component; "SteamLibrary"].
Definition demo_manifest : Path := (demo_lib ++ ["steamapps"; "appmanifest_570.acf"])%list.
Definition demo_text : string := manifest_text 570 "Dota 2" "dota 2 beta" "16843920".
Definition demo_exe : Path :=
  (demo_lib ++ ["steamapps"; "common"; "dota 2 beta"; "game"; "bin"; "win64"; "dota2.exe"])%list.

(** A PE image of 68 bytes: the DOS header with offset 64, then the signature. *)
Definition demo_image : bytes :=
  (0x4D :: 0x5A :: replicate 58 0 ++ [64; 0; 0; 0; 80; 69; 0; 0])%list.

(** A machine with one library; the executable named is unsigned. *)
Definition demo_host (exe : Path) : Host := {|
  host_image_path := λ pid, if pid =? 42 then Some (Some exe) else None;
  host_is_file := λ p, bool_decide (p = exe ∨ p = demo_manifest);
  host_file := λ p, if bool_decide (p = exe) then Some demo_image else None;
  host_read_to_string := λ p, if bool_decide (p = demo_manifest) then Some demo_text else None;
  host_read_dir := λ p,
    if bool_decide (p = demo_lib ++ ["steamapps"])%list
    then Some ["common"; "appmanifest_570.acf"] else None;
  host_win_verify_trust := λ _, 0x800B0100 - 2 ^ 32;
  host_signed_file := λ _, None;
  host_sha256_hex := λ b, display (Z.of_nat (length b)) |}.

Definition demo_info : SteamManifestInfo := {|
  sm_app_id := 570; sm_name := Some "Dota 2"; sm_install_dir := Some "dota 2 beta";
  sm_build_id := Some "16843920"; sm_manifest_path := demo_manifest |}.

Lemma manifest_roundtrip_witness :
  parse_steam_manifest_file (demo_host demo_exe) demo_manifest 570 = Some demo_info.
Proof.
  apply (manifest_roundtrip (demo_host demo_exe) demo_manifest 570 "Dota 2" "dota 2 beta" "16843920").
  - lia.
  - by apply (bool_decide_unpack _).
  - by apply (bool_decide_unpack _).
  - by apply (bool_decide_unpack _).
  - vm_compute. reflexivity.
Defined.

Lemma library_manifest_found_witness :
  find_steam_appmanifest (demo_host demo_exe) demo_exe (Some 570) = Some demo_info.
Proof.
  apply (library_manifest_found (demo_host demo_exe) demo_lib "dota 2 beta" ["game"; "bin"; "win64"]
    "dota2.exe" 570 demo_info).
  - by apply (bool_decide_unpack _).
  - simpl. lia.
  - vm_compute. reflexivity.
  - vm_compute. reflexivity.
  - reflexivity.
Defined.

(** The bound is exact: one directory deeper and the manifest is out of reach. *)
Example fourth_level_not_found :
  find_steam_appmanifest (demo_host demo_exe)
    (demo_lib ++ ["steamapps"; "common"; "dota 2 beta"; "a"; "b"; "c"; "d"; "dota2.exe"])%list (Some 570) = None.
Proof. vm_compute. reflexivity. Qed.

(** Containment is not enforced: an executable in another game's directory, and outside of
    [common], is matched with the manifest when a directory above it has the right name. *)
Example other_directory_accepted :
  find_steam_appmanifest (demo_host demo_exe)
    (demo_lib ++ ["steamapps"; "downloads"; "Dota 2 Beta"; "bot.exe"])%list None = Some demo_info.
Proof. vm_compute. reflexivity. Qed.

(** A publisher is known by a substring of the signer's name. *)
Example substring_publisher_trusted : is_known_trusted_publisher "Passegate Consulting Ltd." = true.
Proof. vm_compute. reflexivity. Qed.

Example demo_evidence_tier :
  generate_l1_binary_proof (demo_host demo_exe) (Some 7) 42 (Some 570) =
  Ok {| bp_pid := 42; bp_process_name := "dota2.exe"; bp_full_path := demo_exe; bp_sha256 := "68";
        bp_tier := L1SteamManifest; bp_authenticode := NotSigned; bp_steam_manifest := Some demo_info;
        bp_verified_at_millis := 7;
        bp_raw_evidence := {| rb_pid := 42; rb_process_name := "dota2.exe"; rb_full_path := demo_exe;
          rb_sha256 := "68"; rb_authenticode := NotSigned; rb_steam_manifest := Some demo_info;
          rb_captured_at_millis := 7 |} |}.
Proof. vm_compute. reflexivity. Qed.
