(* ===== verification/ProofLevels.v ===== *)
(** * Rendering, hardware and the composite proof: src/src/proof/l2_render.rs,
    src/src/proof/l3_hardware.rs, src/src/proof/composite.rs

    The second level reads the modules loaded into the process and the graphics adapters;
    the third the processor's hypervisor leaves and the TPM; the composite proof weighs the
    three. What the system answers is again a record of the host, on x86-64 Windows. *)
From S2P Require Import Prelude Primitives Text ActivitySources ProofBinary.
Local Open Scope pole_scope.
Local Open Scope string_scope.
Local Open Scope Z_scope.

(** ** L2: rendering *)

Inductive GraphicsBackend := DirectX12 | DirectX11 | Vulkan | OpenGL | DxgiOnly | DirectX9 | NoBackend.
#[export] Instance GraphicsBackend_eq_dec : EqDecision GraphicsBackend.
Proof. solve_decision. Defined.
Definition backend_rank (b : GraphicsBackend) : Z :=
  match b with
  | DirectX12 => 120 | DirectX11 => 110 | Vulkan => 100 | OpenGL => 80
  | DxgiOnly => 60 | DirectX9 => 50 | NoBackend => 0
  end.

Inductive RenderEngagementLevel := ActiveForeground3D | BackgroundInWorld3D | HeadlessOrMock.
#[export] Instance RenderEngagementLevel_eq_dec : EqDecision RenderEngagementLevel.
Proof. solve_decision. Defined.
Definition engagement_rank (e : RenderEngagementLevel) : Z :=
  match e with ActiveForeground3D => 100 | BackgroundInWorld3D => 70 | HeadlessOrMock => 0 end.

Inductive GpuDeviceType :=
  | HardwareGpu (adapter_name : string) (vendor_id dedicated_vram_bytes : Z)
  | VirtualOrSoftware (adapter_name : string)
  | NoGpu.

Definition device_is_hardware (d : GpuDeviceType) : bool :=
  match d with HardwareGpu _ _ _ => true | _ => false end.
Definition adapter_name (d : GpuDeviceType) : string :=
  match d with HardwareGpu n _ _ => n | VirtualOrSoftware n => n | NoGpu => "None" end.

Record RenderProof := {
  rp_pid : Z;
  rp_process_name : string;
  rp_is_foreground : bool;
  rp_primary_backend : GraphicsBackend;
  rp_loaded_render_modules : list string;
  rp_engagement_level : RenderEngagementLevel;
  rp_gpu_device : GpuDeviceType;
  rp_is_hardware_gpu : bool;
  rp_working_set_bytes : Z;
  rp_verified_at_millis : Z;
}.

(** What a module's lower-case name says: the runtime's name and the backend. *)
Definition module_backend (lower : string) : option (string * GraphicsBackend) :=
  if starts_with lower "d3d12" then Some ("d3d12.dll", DirectX12)
  else if starts_with lower "d3d11" then Some ("d3d11.dll", DirectX11)
  else if starts_with lower "vulkan-1" || starts_with lower "vulkan" then Some ("vulkan-1.dll", Vulkan)
  else if starts_with lower "opengl32" then Some ("opengl32.dll", OpenGL)
  else if starts_with lower "dxgi" then Some ("dxgi.dll", DxgiOnly)
  else if starts_with lower "d3d9" then Some ("d3d9.dll", DirectX9)
  else None.

(** A [BTreeSet<String>], in the order of the bytes. *)
Fixpoint bytes_ltb (a b : list Z) : bool :=
  match a, b with
  | [], [] => false
  | [], _ :: _ => true
  | _ :: _, [] => false
  | x :: a, y :: b => (x <? y) || ((x =? y) && bytes_ltb a b)
  end.
Definition str_ltb (s t : string) : bool := bytes_ltb (string_bytes s) (string_bytes t).
Fixpoint set_insert (s : string) (l : list string) : list string :=
  match l with
  | [] => [s]
  | t :: l => if bool_decide (s = t) then t :: l
              else if str_ltb s t then s :: t :: l else t :: set_insert s l
  end.

Definition classify_module (acc : GraphicsBackend * list string) (module : string)
    : GraphicsBackend * list string :=
  let '(primary, detected) := acc in
  match module_backend (to_ascii_lowercase module) with
  | Some (dll, backend) =>
      (if backend_rank primary <? backend_rank backend then backend else primary, set_insert dll detected)
  | None => acc
  end.
Definition classify_graphics_backend (modules : list string) : GraphicsBackend * list string :=
  fold_left classify_module modules (NoBackend, []).

(** One adapter as [GetDesc1] describes it. *)
Record AdapterDesc := {
  ad_description : string;
  ad_vendor_id : Z;
  ad_dedicated_video_memory : Z;
  ad_flags : Z;
}.

(** What the calls that list a process's modules come to: the functions are missing, the
    process cannot be opened, or the base names in order (none when the enumeration fails,
    an empty one for a module whose name cannot be read). *)
Inductive ModuleQuery := NoModuleApi | NotOpened | ModuleNames (names : list string).

Record RenderHost := {
  rh_modules : Z → ModuleQuery;
  (* the process of the foreground window, when there is one *)
  rh_foreground : option Z;
  (* the adapters of the DXGI factory; an adapter may refuse its description *)
  rh_adapters : option (list (option AdapterDesc));
  rh_working_set : Z → Z;
}.

Definition query_process_modules (h : RenderHost) (pid : Z) : outcome ProofError (list string) :=
  match rh_modules h pid with
  | NoModuleApi => Ok []
  | NotOpened => Err (ProcessNotFound pid)
  | ModuleNames names => Ok (filter (λ n, str_is_empty (trim n) = false) (take 512 names))
  end.

Definition is_process_foreground (h : RenderHost) (pid : Z) : bool :=
  if pid =? 0 then false else match rh_foreground h with Some fg_pid => fg_pid =? pid | None => false end.

Definition is_virtual_name (lower_name : string) : bool :=
  str_contains lower_name "basic render" || str_contains lower_name "remote"
  || str_contains lower_name "software" || str_contains lower_name "vmware"
  || str_contains lower_name "virtualbox" || str_contains lower_name "qemu".

Definition adapter_is_hw (desc : AdapterDesc) : bool :=
  let is_software_flag := negb (Z.land (ad_flags desc) 2 =? 0) in
  let is_known_hw_vendor :=
    (ad_vendor_id desc =? 0x10DE) || (ad_vendor_id desc =? 0x1002) || (ad_vendor_id desc =? 0x8086) in
  negb is_software_flag && negb (is_virtual_name (to_ascii_lowercase (trim (ad_description desc))))
  && (is_known_hw_vendor || (256 * 1024 * 1024 <? ad_dedicated_video_memory desc)).

(** The loop over the adapters stops at the first hardware one and otherwise keeps the
    first it could describe. *)
Fixpoint scan_adapters (result : option (string * Z * Z * bool)) (adapters : list (option AdapterDesc))
    : option (string * Z * Z * bool) :=
  match adapters with
  | [] => result
  | None :: adapters => scan_adapters result adapters
  | Some desc :: adapters =>
      let is_hw := adapter_is_hw desc in
      let entry := (trim (ad_description desc), ad_vendor_id desc, ad_dedicated_video_memory desc, is_hw) in
      if is_hw then Some entry
      else scan_adapters (match result with None => Some entry | Some _ => result end) adapters
  end.
Definition query_dxgi_primary_adapter (h : RenderHost) : option (string * Z * Z * bool) :=
  adapters ← rh_adapters h; scan_adapters None adapters.

Definition has_module (modules prefixes : list string) : bool :=
  existsb (λ m, existsb (starts_with (to_ascii_lowercase m)) prefixes) modules.
Definition nvidia_umd : list string := ["nvwgf2um"; "nvd3dum"; "nvapi"; "nvldumdx"].
Definition amd_umd : list string := ["atidxx"; "amdxc"; "amdxx"; "aticfx"].
Definition intel_umd : list string := ["igd10iumd"; "igd12umd"; "igc"].

Definition umd_name (has_nvidia_umd has_amd_umd : bool) : string * Z :=
  if has_nvidia_umd then ("NVIDIA Physical Hardware GPU (PCIe/UMD Attached)", 0x10DE)
  else if has_amd_umd then ("AMD Radeon Physical Hardware GPU (PCIe/UMD Attached)", 0x1002)
  else ("Intel Arc/Iris Physical Hardware GPU (PCIe/UMD Attached)", 0x8086).

Definition detect_gpu_device (h : RenderHost) (modules : list string) : bool * GpuDeviceType :=
  let has_nvidia_umd := has_module modules nvidia_umd in
  let has_amd_umd := has_module modules amd_umd in
  let has_intel_umd := has_module modules intel_umd in
  let has_umd := has_nvidia_umd || has_amd_umd || has_intel_umd in
  let '(fallback_name, vid) := umd_name has_nvidia_umd has_amd_umd in
  match query_dxgi_primary_adapter h with
  | Some (name, vendor_id, vram, is_hw) =>
      if is_hw then (true, HardwareGpu name vendor_id vram)
      else if has_umd then (true, HardwareGpu fallback_name vid vram)
      else (false, VirtualOrSoftware name)
  | None =>
      if has_umd then (true, HardwareGpu fallback_name vid 0)
      else
        let has_warp := has_module modules ["d3d10warp"] in
        let has_vmware := has_module modules ["vm3d"] in
        let has_vbox := has_module modules ["vbox"] in
        if has_warp || has_vmware || has_vbox then
          (false, VirtualOrSoftware
            (if has_vmware then "VMware SVGA 3D (Virtualized Display Adapter)"
             else if has_vbox then "VirtualBox Graphics Adapter (Virtualized Display Adapter)"
             else "Microsoft WARP (CPU Software Rasterizer)"))
        else (false, NoGpu)
  end.

Definition generate_l2_render_proof (b : Host) (h : RenderHost) (clock : option Z) (pid : Z)
    : outcome ProofError RenderProof :=
  do? modules <- query_process_modules h pid;
  let '(primary_backend, loaded_render_modules) := classify_graphics_backend modules in
  let '(is_hardware_gpu, gpu_device) := detect_gpu_device h modules in
  let is_foreground := is_process_foreground h pid in
  Ok {| rp_pid := pid;
        rp_process_name :=
          match query_process_image_path b pid with
          | Ok p => default ("pid_" ++ display pid ++ ".exe") (path_file_name p)
          | _ => "pid_" ++ display pid ++ ".exe"
          end;
        rp_is_foreground := is_foreground;
        rp_primary_backend := primary_backend;
        rp_loaded_render_modules := loaded_render_modules;
        rp_engagement_level :=
          if bool_decide (primary_backend ≠ NoBackend)
          then if is_foreground then ActiveForeground3D else BackgroundInWorld3D
          else HeadlessOrMock;
        rp_gpu_device := gpu_device;
        rp_is_hardware_gpu := is_hardware_gpu;
        rp_working_set_bytes := rh_working_set h pid;
        rp_verified_at_millis := millis clock |}.

(** ** L3: hardware *)

Inductive TpmStatus :=
  | Tpm2Available (provider_name : string) (is_hardware_bound : bool)
  | NotPresent | ServiceDisabled | AccessDenied | TpmNotSupported.

Inductive PlatformEnvironment :=
  | PhysicalBareMetal
  | VirtualMachine (hypervisor_signature : string).

Record HardwareProof := {
  hp_tpm_status : TpmStatus;
  hp_environment : PlatformEnvironment;
  hp_is_bare_metal : bool;
  hp_verified_at_millis : Z;
}.

(** The processor's leaves, and what the two TPM interfaces return: a status and whether a
    handle came back, or nothing when the library or a function of it is missing. *)
Record Cpuid := { eax : Z; ebx : Z; ecx : Z; edx : Z }.
Record HardwareHost := {
  hh_cpuid : Z → Cpuid;
  hh_ncrypt : option (Z * bool);
  hh_tbs : option (Z * bool);
}.

Definition to_le_bytes (n : Z) : bytes :=
  (λ i, Z.shiftr n (8 * i) mod 256) <$> [0; 1; 2; 3].

Definition detect_platform_environment (h : HardwareHost) : PlatformEnvironment :=
  let is_hypervisor := Z.testbit (ecx (hh_cpuid h 1)) 31 in
  if negb is_hypervisor then PhysicalBareMetal else
  let hv_leaf := hh_cpuid h 0x40000000 in
  let sig_bytes := (to_le_bytes (ebx hv_leaf) ++ to_le_bytes (ecx hv_leaf) ++ to_le_bytes (edx hv_leaf))%list in
  let sig := trim (string_of_bytes (utf8_lossy sig_bytes)) in
  VirtualMachine (if str_is_empty sig then "Unknown Hypervisor" else sig).

Definition tbs_status (tbs_res : Z) : option TpmStatus :=
  if tbs_res =? 0x80284000 then Some NotPresent
  else if (tbs_res =? 0x80284008) || (tbs_res =? 0x8028400C) then Some ServiceDisabled
  else if tbs_res =? 0x80284002 then Some AccessDenied
  else None.
Definition ncrypt_status (status : Z) : TpmStatus :=
  let code := status mod 2 ^ 32 in
  if code =? 0x80090030 then NotPresent
  else if code =? 0x80090029 then TpmNotSupported
  else if code =? 0x80070005 then AccessDenied
  else NotPresent.

Definition probe_tpm_status (h : HardwareHost) : TpmStatus :=
  match hh_ncrypt h with
  | None => TpmNotSupported
  | Some (status, provider) =>
      if (status =? 0) && provider then Tpm2Available "Microsoft Platform Crypto Provider" true else
      match hh_tbs h with
      | Some (tbs_res, context) =>
          if (tbs_res =? 0) && context then Tpm2Available "TPM Base Services (TBS 2.0)" true
          else default (ncrypt_status status) (tbs_status tbs_res)
      | None => ncrypt_status status
      end
  end.

Definition generate_l3_hardware_proof (h : HardwareHost) (clock : option Z) : HardwareProof :=
  let environment := detect_platform_environment h in
  {| hp_tpm_status := probe_tpm_status h;
     hp_environment := environment;
     hp_is_bare_metal := match environment with PhysicalBareMetal => true | _ => false end;
     hp_verified_at_millis := millis clock |}.

(** ** The composite proof *)

Inductive ConfidenceTier :=
  Tier1Gold | Tier2Silver | Tier3Bronze | TierDegradedFallback | UntrustedTier.
#[export] Instance ConfidenceTier_eq_dec : EqDecision ConfidenceTier.
Proof. solve_decision. Defined.
Definition confidence_rank (t : ConfidenceTier) : Z :=
  match t with
  | Tier1Gold => 100 | Tier2Silver => 80 | Tier3Bronze => 50 | TierDegradedFallback => 20
  | UntrustedTier => 0
  end.

Record CompositeProof := {
  cp_pid : Z;
  cp_process_name : string;
  cp_l1_binary : BinaryProof;
  cp_l2_render : RenderProof;
  cp_l3_hardware : HardwareProof;
  cp_confidence_tier : ConfidenceTier;
  cp_is_eligible_for_rewards : bool;
  cp_degradation_reasons : list string;
  cp_generated_at_millis : Z;
}.

Definition degradation_reasons (l1 : BinaryProof) (l2 : RenderProof) (l3 : HardwareProof) : list string :=
  ((if bool_decide (bp_tier l1 = Untrusted)
    then ["L1: Executable file is invalid or not a valid PE binary"] else [])
   ++ (if negb (is_reward_eligible (bp_tier l1))
       then ["L1: Bare PE binary without Authenticode signature or Steam manifest is ineligible for rewards"] else [])
   ++ (if bool_decide (rp_engagement_level l2 = HeadlessOrMock)
       then ["L2: No recognized 3D graphics runtime (DirectX/Vulkan/OpenGL) loaded"] else [])
   ++ (if negb (hp_is_bare_metal l3) then
         [if rp_is_hardware_gpu l2
          then "L3: Virtualized environment with dedicated hardware GPU passthrough detected (Eligible for Tier 2 Silver rewards)"
          else "L3: Virtualized environment detected (Eligible for Tier 3 Bronze rewards with active 3D graphics)"]
       else [])
   ++ match hp_tpm_status l3 with
      | NotPresent | ServiceDisabled => ["L3: Hardware TPM 2.0 is not available on this device"]
      | _ => []
      end)%list.

Definition tier_of (l1 : BinaryProof) (l2 : RenderProof) (l3 : HardwareProof) : ConfidenceTier :=
  if bool_decide (bp_tier l1 = Untrusted) then UntrustedTier
  else if bool_decide (bp_tier l1 = L1SignedTrusted)
          && bool_decide (rp_engagement_level l2 = ActiveForeground3D) && hp_is_bare_metal l3
  then Tier1Gold
  else if (tier_rank L1SteamManifest <=? tier_rank (bp_tier l1))
          && (engagement_rank BackgroundInWorld3D <=? engagement_rank (rp_engagement_level l2))
          && hp_is_bare_metal l3
  then Tier2Silver
  else if (tier_rank L1SteamManifest <=? tier_rank (bp_tier l1))
          && (engagement_rank BackgroundInWorld3D <=? engagement_rank (rp_engagement_level l2))
          && rp_is_hardware_gpu l2
  then Tier2Silver
  else if (tier_rank L1BareBinary <=? tier_rank (bp_tier l1))
          && (engagement_rank BackgroundInWorld3D <=? engagement_rank (rp_engagement_level l2))
  then Tier3Bronze
  else TierDegradedFallback.

Definition evaluate_composite_proof (l1 : BinaryProof) (l2 : RenderProof) (l3 : HardwareProof)
    (clock : option Z) : CompositeProof :=
  let confidence_tier := tier_of l1 l2 l3 in
  {| cp_pid := bp_pid l1;
     cp_process_name := bp_process_name l1;
     cp_l1_binary := l1; cp_l2_render := l2; cp_l3_hardware := l3;
     cp_confidence_tier := confidence_tier;
     cp_is_eligible_for_rewards :=
       (confidence_rank Tier3Bronze <=? confidence_rank confidence_tier) && is_reward_eligible (bp_tier l1);
     cp_degradation_reasons := degradation_reasons l1 l2 l3;
     cp_generated_at_millis := millis clock |}.

(** The four clock readings of the run, in the order they are taken. *)
Definition generate_composite_proof (b : Host) (r : RenderHost) (w : HardwareHost)
    (clock : nat → option Z) (pid : Z) (expected_app_id : option Z) : outcome ProofError CompositeProof :=
  do? l1 <- generate_l1_binary_proof b (clock 0%nat) pid expected_app_id;
  do? l2 <- generate_l2_render_proof b r (clock 1%nat) pid;
  Ok (evaluate_composite_proof l1 l2 (generate_l3_hardware_proof w (clock 2%nat)) (clock 3%nat)).

(** * Lemmas and theorems *)

(** ** Backends *)

(** The runtimes a module can stand for, in the order of a [BTreeSet]. *)
Definition runtimes : list string :=
  ["d3d11.dll"; "d3d12.dll"; "d3d9.dll"; "dxgi.dll"; "opengl32.dll"; "vulkan-1.dll"].
Definition loads (modules : list string) (dll : string) : Prop :=
  Exists (λ m, fst <$> module_backend (to_ascii_lowercase m) = Some dll) modules.
#[export] Instance loads_dec modules dll : Decision (loads modules dll).
Proof. unfold loads. apply _. Defined.

Lemma module_backend_runtime lower dll b : module_backend lower = Some (dll, b) → dll ∈ runtimes.
Proof. unfold module_backend. intros H. repeat case_match; simplify_eq; apply (bool_decide_unpack _); done. Qed.

Lemma module_backend_ranked lower dll b : module_backend lower = Some (dll, b) → 0 < backend_rank b.
Proof. unfold module_backend. intros H. repeat case_match; simplify_eq; done. Qed.

(** Inserting a member of a sorted list into a part of it. *)
Definition before (s t : string) : Prop := str_ltb s t = true ∧ str_ltb t s = false ∧ s ≠ t.
#[export] Instance before_dec s t : Decision (before s t).
Proof. unfold before. apply _. Defined.

Lemma set_insert_head s l : Forall (before s) l → set_insert s l = s :: l.
Proof.
  destruct 1 as [|t l (Hlt & _ & Hn) _]; [done|]. simpl.
  by rewrite bool_decide_eq_false_2, Hlt.
Qed.

Lemma filter_ext_on (P Q : string → Prop) `{∀ s, Decision (P s), ∀ s, Decision (Q s)} l :
  Forall (λ s, P s ↔ Q s) l → filter P l = filter Q l.
Proof.
  induction 1 as [|s l Hs _ IH]; [done|]. rewrite !filter_cons, IH.
  by rewrite (decide_ext (P s) (Q s)).
Qed.

Lemma set_insert_filter (P : string → Prop) `{∀ s, Decision (P s)} dll l :
  StronglySorted before l → dll ∈ l →
  set_insert dll (filter P l) = filter (λ s, s = dll ∨ P s) l.
Proof.
  induction 1 as [|t l Hs IH Ht]; [by intros ?%elem_of_nil|].
  destruct (decide (dll = t)) as [->|Hn]; intros Hin.
  - rewrite (filter_cons_True (λ s, s = t ∨ P s)) by auto.
    replace (filter (λ s, s = t ∨ P s) l) with (filter P l).
    2: { apply filter_ext_on. eapply Forall_impl; [exact Ht|]. intros s (_ & _ & ?). naive_solver. }
    rewrite filter_cons. case_decide.
    + simpl. by rewrite bool_decide_eq_true_2.
    + apply set_insert_head. rewrite Forall_forall in Ht. apply Forall_forall.
      intros s [_ ?]%list_elem_of_filter. auto.
  - apply elem_of_cons in Hin as [?|Hin]; [done|].
    pose proof (proj1 (Forall_forall _ _) Ht dll Hin) as (_ & Hlt & _).
    rewrite !filter_cons. destruct (decide (P t)) as [Hp|Hp].
    + rewrite decide_True by auto. simpl. rewrite bool_decide_eq_false_2, Hlt by done. by rewrite IH.
    + rewrite decide_False by naive_solver. auto.
Qed.

Lemma runtimes_sorted : StronglySorted before runtimes.
Proof. repeat constructor; (try done); by vm_compute. Qed.

Lemma loads_cons m modules dll :
  loads (modules ++ [m])%list dll ↔ loads modules dll ∨ fst <$> module_backend (to_ascii_lowercase m) = Some dll.
Proof. unfold loads. rewrite Exists_app, Exists_cons, Exists_nil. tauto. Qed.

Lemma classify_snoc modules m :
  classify_graphics_backend (modules ++ [m])%list = classify_module (classify_graphics_backend modules) m.
Proof. unfold classify_graphics_backend. by rewrite fold_left_app. Qed.

Lemma classify_detected modules :
  (classify_graphics_backend modules).2 = filter (loads modules) runtimes.
Proof.
  induction modules as [|m modules IH] using rev_ind.
  { reflexivity. }
  rewrite classify_snoc. unfold classify_module. destruct (classify_graphics_backend modules) as [b l].
  simpl in IH. subst l. destruct (module_backend _) as [[dll b']|] eqn:Em; simpl.
  - rewrite set_insert_filter; [|apply runtimes_sorted|by eapply module_backend_runtime].
    apply filter_ext_on, Forall_forall. intros s _. rewrite loads_cons, Em. simpl. naive_solver.
  - apply filter_ext_on, Forall_forall. intros s _. rewrite loads_cons, Em. simpl. naive_solver.
Qed.

(** The primary backend is the highest of those found; [NoBackend] has the lowest rank. *)
Lemma classify_primary modules :
  (∀ m dll b, m ∈ modules → module_backend (to_ascii_lowercase m) = Some (dll, b) →
     backend_rank b <= backend_rank (classify_graphics_backend modules).1) ∧
  ((classify_graphics_backend modules).1 = NoBackend ∨
   ∃ m dll, m ∈ modules ∧
     module_backend (to_ascii_lowercase m) = Some (dll, (classify_graphics_backend modules).1)).
Proof.
  induction modules as [|m modules [IHmax IHin]] using rev_ind.
  { split; [intros m dll b []%elem_of_nil|by left]. }
  rewrite classify_snoc. unfold classify_module.
  destruct (classify_graphics_backend modules) as [p l]. simpl in *.
  destruct (module_backend (to_ascii_lowercase m)) as [[dll b]|] eqn:Em; simpl.
  - destruct (Z.ltb_spec (backend_rank p) (backend_rank b)); split.
    + intros m' dll' b' [Hin| ->%list_elem_of_singleton]%elem_of_app Hb; [specialize (IHmax _ _ _ Hin Hb); lia|].
      by simplify_eq.
    + right. exists m, dll. set_solver.
    + intros m' dll' b' [Hin| ->%list_elem_of_singleton]%elem_of_app Hb; [by apply (IHmax _ _ _ Hin Hb)|].
      by simplify_eq.
    + destruct IHin as [?|(m' & d' & ? & ?)]; [by left|right; exists m', d'; set_solver].
  - split.
    + intros m' dll' b' [Hin| ->%list_elem_of_singleton]%elem_of_app Hb; [by apply (IHmax _ _ _ Hin Hb)|congruence].
    + destruct IHin as [?|(m' & d' & ? & ?)]; [by left|right; exists m', d'; set_solver].
Qed.

(** A backend is found exactly when some module is recognised. *)
Lemma classify_none modules :
  (classify_graphics_backend modules).1 ≠ NoBackend ↔
  ∃ m, m ∈ modules ∧ is_Some (module_backend (to_ascii_lowercase m)).
Proof.
  destruct (classify_primary modules) as [Hmax Hin]. split.
  - intros Hn. destruct Hin as [?|(m & dll & Hm & Hb)]; [done|]. exists m. by rewrite Hb.
  - intros (m & Hm & [[dll b] Hb]) Hn. specialize (Hmax _ _ _ Hm Hb). rewrite Hn in Hmax.
    apply module_backend_ranked in Hb. simpl in Hmax. lia.
Qed.

(** What [classify_graphics_backend] promises: the runtimes loaded, in order and once each;
    a backend that some module stands for when there is one, and none of higher rank. *)
Theorem classify_reference modules :
  (classify_graphics_backend modules).2 = filter (loads modules) runtimes ∧
  (∀ m dll b, m ∈ modules → module_backend (to_ascii_lowercase m) = Some (dll, b) →
     backend_rank b <= backend_rank (classify_graphics_backend modules).1) ∧
  ((∃ m, m ∈ modules ∧ is_Some (module_backend (to_ascii_lowercase m))) →
   ∃ m dll, m ∈ modules ∧
     module_backend (to_ascii_lowercase m) = Some (dll, (classify_graphics_backend modules).1)).
Proof.
  split; [apply classify_detected|]. destruct (classify_primary modules) as [Hmax Hin].
  split; [exact Hmax|]. intros Hex%classify_none. by destruct Hin.
Qed.

(** ** Eligibility *)

Lemma eligible_tier t : is_reward_eligible t = true ↔ tier_rank L1SteamManifest <= tier_rank t.
Proof. destruct t; vm_compute; split; congruence || done || (by intros []). Qed.

Lemma evaluate_binary_tier_eligible e :
  is_reward_eligible (evaluate_binary_tier e) = true ↔
  (∃ subject trusted, rb_authenticode e = Valid subject trusted) ∨ is_Some (rb_steam_manifest e).
Proof.
  unfold evaluate_binary_tier. destruct (rb_authenticode e) as [s [|]| | |];
    [naive_solver|naive_solver|..]; destruct (rb_steam_manifest e); simpl;
    (split; [intros H; try done; eauto|intros [(? & ? & [=])|[? [=]]]; done]).
Qed.

Lemma verify_authenticode_valid h path :
  (∃ subject trusted, verify_authenticode h path = Valid subject trusted) ↔ host_win_verify_trust h path = 0.
Proof.
  unfold verify_authenticode. destruct (Z.eqb_spec (host_win_verify_trust h path) 0); [naive_solver|].
  split; [|done]. intros (s & t & H). repeat case_match; done.
Qed.

Lemma evaluate_eligible l1 l2 l3 clock :
  cp_is_eligible_for_rewards (evaluate_composite_proof l1 l2 l3 clock) = true ↔
  is_reward_eligible (bp_tier l1) = true ∧ rp_engagement_level l2 ≠ HeadlessOrMock.
Proof.
  unfold evaluate_composite_proof, tier_of. simpl.
  destruct (bp_tier l1), (rp_engagement_level l2), (hp_is_bare_metal l3), (rp_is_hardware_gpu l2);
    vm_compute; split; intros; try done; try (by destruct_and?); naive_solver.
Qed.

(** C34: A process is eligible for rewards exactly when its image is a valid PE file that is
    signed or matched with a Steam manifest, and a 3D runtime is among its modules. *)
Theorem composite_eligible_iff b r w clock pid app c :
  generate_composite_proof b r w clock pid app = Ok c →
  cp_is_eligible_for_rewards c = true ↔
  ∃ path modules,
    query_process_image_path b pid = Ok path ∧
    is_valid_pe_executable b path = true ∧
    (host_win_verify_trust b path = 0 ∨ is_Some (find_steam_appmanifest b path app)) ∧
    query_process_modules r pid = Ok modules ∧
    ∃ m, m ∈ modules ∧ is_Some (module_backend (to_ascii_lowercase m)).
Proof.
  unfold generate_composite_proof, generate_l1_binary_proof, capture_raw_binary_evidence,
    generate_l2_render_proof. intros H.
  destruct (query_process_image_path b pid) as [path| |] eqn:Ep; [|done|done]. cbn [outcome_bind] in H.
  destruct (host_is_file b path); [|done]. cbn [negb] in H.
  destruct (is_valid_pe_executable b path) eqn:Epe; [|done]. cbn [negb outcome_bind] in H.
  destruct (query_process_modules r pid) as [modules| |] eqn:Em; [|done|done]. cbn [outcome_bind] in H.
  pose proof (classify_none modules) as Hcn.
  destruct (classify_graphics_backend modules) as [primary loaded].
  destruct (detect_gpu_device r modules) as [hw dev]. injection H as <-.
  rewrite evaluate_eligible. cbn [bp_tier rp_engagement_level]. rewrite evaluate_binary_tier_eligible.
  cbn [rb_authenticode rb_steam_manifest]. rewrite verify_authenticode_valid. simpl in Hcn.
  destruct (bool_decide_reflect (primary ≠ NoBackend)) as [Hp|Hp].
  - apply Hcn in Hp. split; [intros [? _]; eauto 10|].
    intros (p' & m' & [= <-] & _ & ? & _). split; [done|]. by destruct (is_process_foreground r pid).
  - split; [by intros [_ ?]|]. intros (p' & m' & _ & _ & _ & [= <-] & Hx). by apply Hcn in Hx.
Qed.

(** ** Better evidence *)

(** Evidence of the three levels, compared by tier, engagement, machine and adapter. *)
Definition no_weaker (l1 l1' : BinaryProof) (l2 l2' : RenderProof) (l3 l3' : HardwareProof) : Prop :=
  tier_rank (bp_tier l1) <= tier_rank (bp_tier l1') ∧
  engagement_rank (rp_engagement_level l2) <= engagement_rank (rp_engagement_level l2') ∧
  (rp_is_hardware_gpu l2 = true → rp_is_hardware_gpu l2' = true) ∧
  (hp_is_bare_metal l3 = true → hp_is_bare_metal l3' = true).

(** Better evidence never lowers the confidence tier, nor takes the eligibility away. *)
Theorem better_evidence_monotone l1 l1' l2 l2' l3 l3' clock clock' :
  no_weaker l1 l1' l2 l2' l3 l3' →
  confidence_rank (cp_confidence_tier (evaluate_composite_proof l1 l2 l3 clock)) <=
    confidence_rank (cp_confidence_tier (evaluate_composite_proof l1' l2' l3' clock')) ∧
  (cp_is_eligible_for_rewards (evaluate_composite_proof l1 l2 l3 clock) = true →
   cp_is_eligible_for_rewards (evaluate_composite_proof l1' l2' l3' clock') = true).
Proof.
  intros (H1 & H2 & H3 & H4). split.
  - simpl. unfold tier_of.
    destruct (bp_tier l1), (bp_tier l1'); simpl in H1; try lia;
    destruct (rp_engagement_level l2), (rp_engagement_level l2'); simpl in H2; try lia;
    destruct (rp_is_hardware_gpu l2), (rp_is_hardware_gpu l2'), (hp_is_bare_metal l3), (hp_is_bare_metal l3');
    try (by specialize (H3 eq_refl)); try (by specialize (H4 eq_refl)); vm_compute; discriminate.
  - rewrite !evaluate_eligible, !eligible_tier. intros [Ht He]. split; [lia|].
    intros Hh. rewrite Hh in H2. by destruct (rp_engagement_level l2).
Qed.

(** The first tier asks for a trusted signature, the foreground and a physical machine; a
    virtual machine reaches the second tier with a hardware adapter only. *)
Lemma gold_iff l1 l2 l3 :
  tier_of l1 l2 l3 = Tier1Gold ↔
  bp_tier l1 = L1SignedTrusted ∧ rp_engagement_level l2 = ActiveForeground3D ∧ hp_is_bare_metal l3 = true.
Proof.
  unfold tier_of. destruct (bp_tier l1), (rp_engagement_level l2), (hp_is_bare_metal l3), (rp_is_hardware_gpu l2);
    vm_compute; naive_solver.
Qed.
Lemma virtual_silver_iff l1 l2 l3 :
  hp_is_bare_metal l3 = false →
  tier_of l1 l2 l3 = Tier2Silver ↔
  is_reward_eligible (bp_tier l1) = true ∧ rp_engagement_level l2 ≠ HeadlessOrMock ∧ rp_is_hardware_gpu l2 = true.
Proof.
  unfold tier_of. intros ->. destruct (bp_tier l1), (rp_engagement_level l2), (rp_is_hardware_gpu l2);
    vm_compute; naive_solver.
Qed.

(** ** A session on a virtual machine *)

Definition demo_render : RenderHost := {|
  rh_modules := λ _, ModuleNames ["ntdll.dll"; ""; "D3D11.dll"; "dxgi.dll"; "vm3dum64.dll"];
  rh_foreground := Some 42;
  rh_adapters := Some [None; Some {| ad_description := "VMware SVGA 3D"; ad_vendor_id := 0x15AD;
    ad_dedicated_video_memory := 2 ^ 30; ad_flags := 0 |}];
  rh_working_set := λ _, 2 ^ 20 |}.
Definition demo_hardware : HardwareHost := {|
  hh_cpuid := λ leaf,
    if leaf =? 1 then {| eax := 0; ebx := 0; ecx := 2 ^ 31; edx := 0 |}
    else {| eax := 0; ebx := 0x61774D56; ecx := 0x4D566572; edx := 0x65726177 |};
  hh_ncrypt := Some (0x80090030 - 2 ^ 32, false);
  hh_tbs := Some (0x8028400F, false) |}.

Definition demo_composite : outcome ProofError CompositeProof :=
  generate_composite_proof (demo_host demo_exe) demo_render demo_hardware (λ _, Some 9) 42 (Some 570).

Example demo_virtual_machine :
  detect_platform_environment demo_hardware = VirtualMachine "VMwareVMware" ∧
  probe_tpm_status demo_hardware = NotPresent ∧
  detect_gpu_device demo_render ["vm3dum64.dll"] = (false, VirtualOrSoftware "VMware SVGA 3D").
Proof. vm_compute. done. Qed.

Lemma demo_composite_ok :
  ∃ c, demo_composite = Ok c ∧ cp_confidence_tier c = Tier3Bronze ∧
       find_steam_appmanifest (demo_host demo_exe) demo_exe (Some 570) = Some demo_info.
Proof. vm_compute. eexists. split; [reflexivity|]. split; reflexivity. Qed.

Lemma composite_eligible_iff_witness :
  ∃ c, demo_composite = Ok c ∧ cp_is_eligible_for_rewards c = true.
Proof.
  destruct demo_composite_ok as (c & Hc & _ & Hm). exists c. split; [exact Hc|].
  apply (composite_eligible_iff _ _ _ _ _ _ _ Hc).
  exists demo_exe, ["ntdll.dll"; "D3D11.dll"; "dxgi.dll"; "vm3dum64.dll"].
  split; [reflexivity|]. split; [vm_compute; reflexivity|]. split; [right; rewrite Hm; eauto|].
  split; [vm_compute; reflexivity|]. exists "D3D11.dll". split; [by apply (bool_decide_unpack _)|].
  vm_compute. eauto.
Defined.

Definition with_tier (p : BinaryProof) (t : ProofTier) : BinaryProof := {|
  bp_pid := bp_pid p; bp_process_name := bp_process_name p; bp_full_path := bp_full_path p;
  bp_sha256 := bp_sha256 p; bp_tier := t; bp_authenticode := bp_authenticode p;
  bp_steam_manifest := bp_steam_manifest p; bp_verified_at_millis := bp_verified_at_millis p;
  bp_raw_evidence := bp_raw_evidence p |}.

Lemma better_evidence_monotone_witness :
  ∃ c, demo_composite = Ok c ∧
    confidence_rank (cp_confidence_tier c) <=
      confidence_rank (cp_confidence_tier (evaluate_composite_proof
        (with_tier (cp_l1_binary c) L1SignedTrusted) (cp_l2_render c) (cp_l3_hardware c) (Some 9))).
Proof.
  destruct demo_composite_ok as (c & Hc & Ht & _). exists c. split; [exact Hc|]. rewrite Ht.
  unfold demo_composite, generate_composite_proof in Hc.
  destruct (generate_l1_binary_proof _ _ _ _) as [l1| |]; [|discriminate Hc|discriminate Hc].
  destruct (generate_l2_render_proof _ _ _ _) as [l2| |]; [|discriminate Hc|discriminate Hc].
  injection Hc as <-. rewrite <- Ht.
  apply (better_evidence_monotone l1 (with_tier l1 L1SignedTrusted) l2 l2 _ _ (Some 9) (Some 9)).
  split; [destruct (bp_tier l1); vm_compute; discriminate|]. split; [apply Z.le_refl|]. split; auto.
Defined.
