(* ===== verification/ReleaseSigning.v ===== *)
(** * Release manifests: src/src/update_manifest.rs, src/src/signing.rs

    A release is announced by a manifest, [<channel>.json], that lists a version's
    artifacts. Its signature is a sidecar of [cosign], or an inline string. JSON, Base64,
    X.509 and the two signature schemes are external: the class [ReleaseExternal]. The
    files are a map from paths to contents. *)
From S2P Require Import Prelude Primitives Crypto Text ActivitySources ProofBinary.
Local Open Scope pole_scope.
Local Open Scope string_scope.
Local Open Scope Z_scope.

Record ReleaseArtifact := {
  ra_platform : string;
  ra_kind : string;
  ra_path : string;
  ra_sha256 : string;
  ra_size_bytes : Z;
}.
Record ManifestSigning := {
  ms_scheme : string;
  ms_issuer : option string;
  ms_identity_regexp : option string;
  ms_signature_file : option string;
  ms_certificate_file : option string;
  ms_transparency_log : option string;
  ms_note : option string;
}.
Record ReleaseManifest := {
  rm_channel : string;
  rm_version : string;
  rm_artifacts : list ReleaseArtifact;
  rm_signature : string;
  rm_signing : option ManifestSigning;
}.

Class ReleaseExternal := {
  (* serde_json: a manifest, and the payload that is signed inline *)
  manifest_of_json : string → option ReleaseManifest;
  payload_json : string → string → list ReleaseArtifact → string;
  (* base64 *)
  base64_decode : bytes → option bytes;
  (* x509-parser: the algorithm's object identifier and the public key's bits *)
  x509_spki : bytes → option (string * bytes);
  (* ed25519-dalek and p256: keys, signatures and verification *)
  ed25519_key : bytes → bool;
  cert_ed25519_verify : bytes → bytes → bytes → bool;
  p256_key : bytes → bool;
  p256_from_der : bytes → option bytes;
  p256_verify : bytes → bytes → bytes → bool;
}.

(** Errors: of the file system, of a decoder, or a message of the code. *)
Inductive UpdateError := IoError | DecodeError | Message (text : string).

Notation Files := (gmap Path bytes).
Definition exists_file (fs : Files) (p : Path) : bool := bool_decide (is_Some (fs !! p)).
Definition fs_read (fs : Files) (p : Path) : outcome UpdateError bytes :=
  match fs !! p with Some b => Ok b | None => Err IoError end.

(** [String::from_utf8]: the bytes that the lossy decoding leaves alone. *)
Definition from_utf8 (b : bytes) : outcome UpdateError string :=
  if bool_decide (utf8_lossy b = b) then Ok (string_of_bytes b) else Err DecodeError.
Definition read_to_string (fs : Files) (p : Path) : outcome UpdateError string :=
  do? b <- fs_read fs p; from_utf8 b.
Definition decode {A} (o : option A) : outcome UpdateError A :=
  match o with Some a => Ok a | None => Err DecodeError end.

(** [path.parent().unwrap_or_else(|| Path::new("."))] *)
Definition parent_or_here (p : Path) : Path := default ["."] (path_parent p).

(** ** Versions *)

Definition parse_version (input : string) : list Z :=
  (λ segment, match parse_uint 64 segment with Ok n => n | _ => 0 end) <$> str_split input 46.

(** The order of [Vec<u64>]: lexicographic, a proper prefix is smaller. *)
Fixpoint vec_gt (a b : list Z) : bool :=
  match a, b with
  | [], _ => false
  | _ :: _, [] => true
  | x :: a, y :: b => (y <? x) || ((x =? y) && vec_gt a b)
  end.
Definition version_is_newer (candidate current : string) : bool :=
  vec_gt (parse_version candidate) (parse_version current).

(** ** Loading *)

Definition release_manifest_path (manifest_dir : Path) (channel : string) : Path :=
  path_join manifest_dir (channel ++ ".json").

Section Release.
Context `{ReleaseExternal} `{BuildMode}.

Definition load_release_manifest (fs : Files) (path : Path) : outcome UpdateError ReleaseManifest :=
  do? content <- read_to_string fs path; decode (manifest_of_json content).
Definition load_release_manifest_for_channel (fs : Files) (manifest_dir : Path) (channel : string)
    : outcome UpdateError ReleaseManifest :=
  load_release_manifest fs (release_manifest_path manifest_dir channel).

(** The directory of the manifests: the environment's, the installed one, the one of the
    source tree, what a download leaves, and the source tree's again. *)
Definition resolve_release_manifest_dir (fs : Files) (env_dir : option string) (root_dir in_tree : Path)
    (channel : string) (fetch : outcome UpdateError (option Path)) : outcome UpdateError Path :=
  let rest :=
    let installed := path_join root_dir "release-manifests" in
    if exists_file fs (path_join installed (channel ++ ".json")) then Ok installed
    else if exists_file fs (path_join in_tree (channel ++ ".json")) then Ok in_tree
    else
      do? fetched <- fetch;
      match fetched with Some cache => Ok cache | None => Ok in_tree end in
  match env_dir with
  | Some dir => if str_is_empty (trim dir) then rest else Ok (path_join [] (trim dir))
  | None => rest
  end.

(** ** Signatures *)

Inductive ManifestSignatureVerification := Verified | Missing | Invalid.
#[global] Instance ManifestSignatureVerification_eq_dec : EqDecision ManifestSignatureVerification.
Proof. solve_decision. Defined.

Definition status_label (v : ManifestSignatureVerification) : string :=
  match v with
  | Verified => "manifest_signed" | Missing => "missing_signature" | Invalid => "invalid_signature"
  end.
Definition is_verified (v : ManifestSignatureVerification) : bool := bool_decide (v = Verified).

Inductive CertificatePublicKey := Ed25519Key (key : bytes) | P256Key (key : bytes).

Definition release_manifest_signing_payload (manifest : ReleaseManifest) : string :=
  payload_json (rm_channel manifest) (rm_version manifest) (rm_artifacts manifest).
Definition development_manifest_signature (manifest : ReleaseManifest) : string :=
  "dev-hash:" ++ hex_32 (stable_hash32 (string_bytes (release_manifest_signing_payload manifest))).

Definition decode_cert_pem (cert_content : string) : outcome UpdateError string :=
  let trimmed := trim cert_content in
  if starts_with trimmed "-----BEGIN" then Ok trimmed
  else
    do? pem_bytes <- decode (base64_decode (string_bytes trimmed));
    from_utf8 pem_bytes.

Definition extract_certificate_public_key (pem : string) : outcome UpdateError CertificatePublicKey :=
  let base64_content :=
    concat (string_bytes <$> filter (λ line, starts_with line "-----" = false) (str_lines pem)) in
  do? der <- decode (base64_decode base64_content);
  do? spki <- decode (x509_spki der);
  let '(algorithm_oid, key) := spki in
  if bool_decide (algorithm_oid = "1.3.101.112") then
    if negb (length key =? 32)%nat then Err (Message "ed25519 public key is not 32 bytes")
    else if ed25519_key key then Ok (Ed25519Key key) else Err DecodeError
  else if bool_decide (algorithm_oid = "1.2.840.10045.2.1") then
    if p256_key key then Ok (P256Key key) else Err DecodeError
  else Err (Message ("unsupported certificate public key algorithm OID: " ++ algorithm_oid)).

Definition verify_with (public_key : CertificatePublicKey) (manifest_bytes sig_bytes : bytes)
    : outcome UpdateError bool :=
  match public_key with
  | Ed25519Key key =>
      if negb (length sig_bytes =? 64)%nat then Err (Message "ed25519 signature is not 64 bytes")
      else Ok (cert_ed25519_verify key manifest_bytes sig_bytes)
  | P256Key key =>
      do? der_sig <- decode (p256_from_der sig_bytes);
      Ok (p256_verify key manifest_bytes der_sig)
  end.

Definition verify_cosign_keyless (fs : Files) (manifest_bytes : bytes) (signing : ManifestSigning)
    (manifest_path : Path) : outcome UpdateError ManifestSignatureVerification :=
  let sig_file := default "stable.json.sig" (ms_signature_file signing) in
  let cert_file := default "stable.json.cert" (ms_certificate_file signing) in
  let dir := parent_or_here manifest_path in
  let sig_path := path_join dir sig_file in
  let cert_path := path_join dir cert_file in
  if negb (exists_file fs sig_path) || negb (exists_file fs cert_path) then Ok Missing
  else
    do? sig_b64 <- read_to_string fs sig_path;
    do? sig_bytes <- decode (base64_decode (string_bytes (trim sig_b64)));
    do? cert_content <- map_err (λ _, Message "missing certificate sidecar") (read_to_string fs cert_path);
    do? cert_pem <- decode_cert_pem cert_content;
    do? public_key <- extract_certificate_public_key cert_pem;
    do? verified <- verify_with public_key manifest_bytes sig_bytes;
    Ok (if verified then Verified else Invalid).

(** [cfg!(debug_assertions)] is the profile that also checks for overflow. *)
Definition verify_inline (manifest : ReleaseManifest) : ManifestSignatureVerification :=
  if str_is_empty (trim (rm_signature manifest)) then Missing
  else if overflow_checks && bool_decide (rm_signature manifest = "dev-signature") then Verified
  else if bool_decide (rm_signature manifest = development_manifest_signature manifest) then Verified
  else Invalid.

Definition verify_release_manifest_signature (fs : Files) (manifest : ReleaseManifest)
    (manifest_path : Path) : outcome UpdateError ManifestSignatureVerification :=
  match rm_signing manifest with
  | Some signing =>
      if bool_decide (ms_scheme signing = "cosign-keyless") then
        do? raw <- fs_read fs manifest_path;
        do? verification <- verify_cosign_keyless fs raw signing manifest_path;
        match verification with
        | Missing => Ok (verify_inline manifest)
        | other => Ok other
        end
      else Ok (verify_inline manifest)
  | None => Ok (verify_inline manifest)
  end.

End Release.

(** * Lemmas and theorems *)

(** ** Versions are strictly ordered *)

Lemma vec_gt_irrefl a : vec_gt a a = false.
Proof. induction a as [|x a IH]; simpl; [done|]. by rewrite Z.ltb_irrefl, IH, andb_false_r. Qed.

Lemma vec_gt_trans a b c : vec_gt a b = true → vec_gt b c = true → vec_gt a c = true.
Proof.
  revert b c. induction a as [|x a IH]; intros [|y b] [|z c]; simpl; try done.
  rewrite !orb_true_iff, !andb_true_iff, !Z.ltb_lt, !Z.eqb_eq.
  intros [?|[-> ?]] [?|[-> ?]]; [left; lia|left; lia|left; lia|right; split; [done|by eapply IH]].
Qed.

Lemma vec_gt_total a b : a = b ∨ vec_gt a b = true ∨ vec_gt b a = true.
Proof.
  revert b. induction a as [|x a IH]; intros [|y b]; simpl; auto.
  destruct (Z.lt_trichotomy x y) as [Hlt|[->|Hlt]].
  - right. right. by rewrite (proj2 (Z.ltb_lt x y) Hlt).
  - rewrite Z.ltb_irrefl, Z.eqb_refl. simpl. destruct (IH b) as [->|?]; auto.
  - right. left. by rewrite (proj2 (Z.ltb_lt y x) Hlt).
Qed.

#[export] Instance version_is_newer_irreflexive : Irreflexive (λ v w, version_is_newer v w = true).
Proof. intros v. unfold complement, version_is_newer. by rewrite vec_gt_irrefl. Qed.
#[export] Instance version_is_newer_transitive : Transitive (λ v w, version_is_newer v w = true).
Proof. intros u v w. apply vec_gt_trans. Qed.

(** A segment that is not a number counts as zero, so that a final release is not newer than
    its own release candidate. *)
Example release_candidate_never_left :
  version_is_newer "0.3.0" "0.3.0-rc1" = false ∧ version_is_newer "0.3.1" "0.3.1-rc1" = true.
Proof. vm_compute. done. Qed.

(** ** Signatures *)

Lemma trim_end_rev_keeps l x : 0 <= x < 128 → ws1 x = false → trim_end_rev (l ++ [x])%list ≠ [].
Proof.
  intros Hx Hw. remember (length l) as n eqn:Hn. revert l Hn.
  induction (lt_wf n) as [n _ IH]. intros [|c l1] ->.
  { simpl. by rewrite Hw. }
  assert (∀ l', (length l' < length (c :: l1))%nat → trim_end_rev (l' ++ [x])%list ≠ []) as IH'
    by (intros l' Hl; eapply IH; [exact Hl|done]).
  simpl. destruct (ws1 c); [apply IH'; simpl; lia|].
  assert (∀ b, ws2 x b = false) as H2 by (intros b; unfold ws2; destruct (Z.eqb_spec x 0xC2); [lia|done]).
  assert (∀ b d, ws3 x b d = false) as H3.
  { intros b d. unfold ws3. rewrite !(proj2 (Z.eqb_neq x _)) by lia. done. }
  destruct l1 as [|b l2]; simpl; [by rewrite H2|].
  destruct (ws2 b c); [apply IH'; simpl; lia|].
  destruct l2 as [|a l3]; simpl; [by rewrite H3|].
  destruct (ws3 a b c); [apply IH'; simpl; lia|done].
Qed.

Section SigningLemmas.
Context `{ReleaseExternal} `{BuildMode}.

Lemma dev_signature_not_blank m : str_is_empty (trim (development_manifest_signature m)) = false.
Proof.
  unfold development_manifest_signature. generalize (hex_32 (stable_hash32 (string_bytes (release_manifest_signing_payload m)))) as tail.
  intros tail. unfold trim.
  change (string_bytes ("dev-hash:" +:+ tail)) with (100 :: string_bytes ("ev-hash:" +:+ tail)).
  unfold trim_bytes.
  replace (trim_start_bytes (100 :: string_bytes ("ev-hash:" +:+ tail)))
    with (100 :: string_bytes ("ev-hash:" +:+ tail)) by reflexivity.
  simpl rev at 2. pose proof (trim_end_rev_keeps (rev (string_bytes ("ev-hash:" +:+ tail))) 100) as Hk.
  destruct (trim_end_rev _) as [|y l]; [destruct Hk; [lia|done|done]|].
  simpl. by destruct (rev l).
Qed.

Definition with_signature (m : ReleaseManifest) (s : string) : ReleaseManifest := {|
  rm_channel := rm_channel m; rm_version := rm_version m; rm_artifacts := rm_artifacts m;
  rm_signature := s; rm_signing := rm_signing m |}.

(** The inline signature is an unkeyed hash of the manifest and is accepted in every build:
    whoever writes a manifest without sidecars can sign it. *)
Theorem unkeyed_signature_accepted fs m path :
  rm_signing m = None →
  verify_release_manifest_signature fs (with_signature m (development_manifest_signature m)) path = Ok Verified.
Proof.
  intros Hs. unfold verify_release_manifest_signature, verify_inline.
  cbn [with_signature rm_signing rm_signature]. rewrite Hs, dev_signature_not_blank.
  destruct (overflow_checks && _); [reflexivity|]. by rewrite bool_decide_eq_true_2 by reflexivity.
Qed.

(** The issuer and the identity a manifest asks for are never compared with the certificate. *)
Lemma identity_not_checked fs m path s s' :
  rm_signing m = Some s →
  ms_scheme s' = ms_scheme s → ms_signature_file s' = ms_signature_file s →
  ms_certificate_file s' = ms_certificate_file s →
  verify_release_manifest_signature fs {| rm_channel := rm_channel m; rm_version := rm_version m;
    rm_artifacts := rm_artifacts m; rm_signature := rm_signature m; rm_signing := Some s' |} path =
  verify_release_manifest_signature fs m path.
Proof.
  intros Hm H1 H2 H3. unfold verify_release_manifest_signature. rewrite Hm. simpl. rewrite H1.
  unfold verify_cosign_keyless. rewrite H2, H3. done.
Qed.

(** What a verified manifest has: with complete sidecars, a signature of its bytes under the
    key of the certificate beside it; otherwise its own hash, or the development literal in
    a debug build. *)
Theorem verified_manifest_spec fs m path :
  verify_release_manifest_signature fs m path = Ok Verified →
  (∃ signing raw key sig,
     rm_signing m = Some signing ∧ ms_scheme signing = "cosign-keyless" ∧ fs !! path = Some raw ∧
     exists_file fs (path_join (parent_or_here path) (default "stable.json.cert" (ms_certificate_file signing))) = true ∧
     verify_with key raw sig = Ok true) ∨
  rm_signature m = development_manifest_signature m ∨
  (overflow_checks = true ∧ rm_signature m = "dev-signature").
Proof.
  assert (verify_inline m = Verified → rm_signature m = development_manifest_signature m ∨
    (overflow_checks = true ∧ rm_signature m = "dev-signature")) as Hin.
  { unfold verify_inline. destruct (str_is_empty _); [done|].
    destruct overflow_checks eqn:Eo; cbn [andb]; repeat case_bool_decide; auto; discriminate. }
  unfold verify_release_manifest_signature. destruct (rm_signing m) as [s|]; [|intros [= ?]; auto].
  case_bool_decide as Hs; [|intros [= ?]; auto]. unfold fs_read.
  destruct (fs !! path) as [raw|] eqn:Hraw; [|done]. cbn [outcome_bind].
  destruct (verify_cosign_keyless fs raw s path) as [v| |] eqn:Hc; [|done|done]. cbn [outcome_bind].
  destruct v; [|intros [= ?]; auto|done]. intros _. left. unfold verify_cosign_keyless in Hc.
  destruct (exists_file fs _) eqn:E1 in Hc; [|done]. cbn [negb orb] in Hc.
  destruct (exists_file fs _) eqn:E2 in Hc; [|done]. cbn [negb] in Hc.
  destruct (read_to_string fs _) as [sb| |] in Hc; [|done|done]. cbn [outcome_bind] in Hc.
  destruct (decode _) as [sig| |] in Hc; [|done|done]. cbn [outcome_bind] in Hc.
  destruct (read_to_string fs _) as [cb| |] in Hc; [|done|done]. cbn [outcome_bind map_err] in Hc.
  destruct (decode_cert_pem cb) as [pem| |] in Hc; [|done|done]. cbn [outcome_bind] in Hc.
  destruct (extract_certificate_public_key pem) as [key| |] in Hc; [|done|done]. cbn [outcome_bind] in Hc.
  destruct (verify_with key raw sig) as [[|]| |] eqn:Hv; try done.
  exists s, raw, key, sig. done.
Qed.
End SigningLemmas.
