(* ===== verification/Updater.v ===== *)
(** * The updater: src/src/updater.rs

    An update passes through four actions: [stage_update] copies an artifact of a verified
    manifest, [apply_update] makes it current, [execute_install_action] copies it over the
    installed program, [rollback_update] undoes them. The state is the records the updater
    keeps in its directory, one JSON file each, and the files of the machine; a record's
    file can be absent, unreadable or hold the record. Writing files, creating directories
    and reading the clock succeed; copying a file that is not there, or onto itself, fails. *)
From S2P Require Import Prelude Primitives Crypto Text ActivitySources ProofBinary ReleaseSigning.
Local Open Scope pole_scope.
Local Open Scope string_scope.
Local Open Scope Z_scope.

(** ** Records *)

Record PendingUpdatePlan := {
  pu_channel : string;
  pu_target_version : string;
  pu_manifest_path : Path;
  pu_artifact_count : Z;
  pu_artifact_kind : string;
  pu_artifact_path : string;
  pu_staged_artifact_path : Path;
  pu_staged_at_millis : Z;
}.
Record RollbackMetadata := {
  rb_previous_version : string;
  rb_channel : string;
  rb_manifest_path : Path;
  rb_recorded_at_millis : Z;
}.
Record AppliedUpdateRecord := {
  au_channel : string;
  au_target_version : string;
  au_manifest_path : Path;
  au_artifact_kind : string;
  au_artifact_path : string;
  au_applied_at_millis : Z;
}.
Record InstalledVersionRecord := {
  iv_version : string;
  iv_channel : string;
  iv_recorded_at_millis : Z;
}.
Record SwitchPlanRecord := {
  sp_channel : string;
  sp_target_version : string;
  sp_artifact_kind : string;
  sp_artifact_path : string;
  sp_target_install_root : Path;
  sp_service_window_status : string;
  sp_planned_at_millis : Z;
}.
Record SwitchExecutionRecord := {
  se_channel : string;
  se_target_version : string;
  se_artifact_kind : string;
  se_source_artifact_path : Path;
  se_applied_artifact_path : Path;
  se_target_install_root : Path;
  se_executed_at_millis : Z;
}.
Record InstallActionPlanRecord := {
  ia_channel : string;
  ia_target_version : string;
  ia_artifact_kind : string;
  ia_target_mode : string;
  ia_staged_artifact_path : Path;
  ia_target_install_path : Path;
  ia_backup_path : Path;
  ia_strategy : string;
  ia_planned_at_millis : Z;
}.
Record InstallExecutionRecord := {
  ie_channel : string;
  ie_target_version : string;
  ie_target_mode : string;
  ie_target_install_path : Path;
  ie_backup_path : Path;
  ie_staged_artifact_path : Path;
  ie_executed_at_millis : Z;
}.

(** What a caller gets back; the paths of the records are those of the directory. *)
Record UpdateExecutionResult := {
  ur_action : string;
  ur_channel : string;
  ur_status : string;
  ur_target_version : option string;
}.

(** ** State *)

(** A record's file: missing, not parseable, or the record. *)
Inductive Slot (A : Type) := Absent | Garbled | Stored (a : A).
Arguments Absent {A}.
Arguments Garbled {A}.
Arguments Stored {A} a.
Definition load_slot {A} (s : Slot A) : option A := match s with Stored a => Some a | _ => None end.
Definition slot_exists {A} (s : Slot A) : bool := match s with Absent => false | _ => true end.

Record Machine := {
  mc_pending : Slot PendingUpdatePlan;
  mc_rollback : Slot RollbackMetadata;
  mc_applied : Slot AppliedUpdateRecord;
  mc_installed : Slot InstalledVersionRecord;
  mc_switch_plan : Slot SwitchPlanRecord;
  mc_switch_execution : Slot SwitchExecutionRecord;
  mc_install_action : Slot InstallActionPlanRecord;
  mc_install_execution : Slot InstallExecutionRecord;
  mc_files : Files;
}.

Definition set_pending (m : Machine) s := Build_Machine s (mc_rollback m) (mc_applied m) (mc_installed m)
  (mc_switch_plan m) (mc_switch_execution m) (mc_install_action m) (mc_install_execution m) (mc_files m).
Definition set_rollback (m : Machine) s := Build_Machine (mc_pending m) s (mc_applied m) (mc_installed m)
  (mc_switch_plan m) (mc_switch_execution m) (mc_install_action m) (mc_install_execution m) (mc_files m).
Definition set_applied (m : Machine) s := Build_Machine (mc_pending m) (mc_rollback m) s (mc_installed m)
  (mc_switch_plan m) (mc_switch_execution m) (mc_install_action m) (mc_install_execution m) (mc_files m).
Definition set_installed (m : Machine) s := Build_Machine (mc_pending m) (mc_rollback m) (mc_applied m) s
  (mc_switch_plan m) (mc_switch_execution m) (mc_install_action m) (mc_install_execution m) (mc_files m).
Definition set_switch_plan (m : Machine) s := Build_Machine (mc_pending m) (mc_rollback m) (mc_applied m)
  (mc_installed m) s (mc_switch_execution m) (mc_install_action m) (mc_install_execution m) (mc_files m).
Definition set_switch_execution (m : Machine) s := Build_Machine (mc_pending m) (mc_rollback m)
  (mc_applied m) (mc_installed m) (mc_switch_plan m) s (mc_install_action m) (mc_install_execution m) (mc_files m).
Definition set_install_action (m : Machine) s := Build_Machine (mc_pending m) (mc_rollback m)
  (mc_applied m) (mc_installed m) (mc_switch_plan m) (mc_switch_execution m) s (mc_install_execution m) (mc_files m).
Definition set_install_execution (m : Machine) s := Build_Machine (mc_pending m) (mc_rollback m)
  (mc_applied m) (mc_installed m) (mc_switch_plan m) (mc_switch_execution m) (mc_install_action m) s (mc_files m).
Definition set_files (m : Machine) fs := Build_Machine (mc_pending m) (mc_rollback m) (mc_applied m)
  (mc_installed m) (mc_switch_plan m) (mc_switch_execution m) (mc_install_action m) (mc_install_execution m) fs.

Definition on_files (f : Files → Files) : M Machine UpdateError unit :=
  modify (λ m, set_files m (f (mc_files m))).

(** [fs::copy(from, to)] *)
Definition fs_copy (from to : Path) : M Machine UpdateError unit := λ m,
  match mc_files m !! from with
  | Some b => if bool_decide (from = to) then (Err IoError, m) else (Ok tt, set_files m (<[to := b]> (mc_files m)))
  | None => (Err IoError, m)
  end.

(** The managed service's status, as the caller reports it. *)
Inductive ManagedServiceStatus :=
  | SvcNotInstalled | SvcStopped
  | SvcStarting (pid : option Z) | SvcRunning (pid : option Z)
  | SvcFailed (last_error : string).

(** What an action reads besides its state: the updater's directory, two environment
    variables, the processes that run, and the readings of the clock in order. *)
Record UpdateEnv := {
  ue_update_dir : Path;
  ue_local_app_data : option string;
  ue_layout_root_override : option string;
  ue_process_is_running : Z → bool;
  ue_clock : nat → Z;
}.

Definition current_platform_label : string := "windows".
Definition preferred_kind_for_current_platform : string := "msi".

Definition install_root_for_current_platform (env : UpdateEnv) : Path :=
  match ue_local_app_data env with
  | Some local_app_data => path_join (path_join [] local_app_data) "PoLE"
  | None => path_join [] "C:/Program Files/PoLE"
  end.
Definition default_install_root_path (env : UpdateEnv) : Path :=
  match ue_layout_root_override env with
  | Some override_root =>
      if str_is_empty (trim override_root) then install_root_for_current_platform env
      else path_join [] override_root
  | None => install_root_for_current_platform env
  end.

Definition applied_artifact_dir (update_dir : Path) : Path := path_join update_dir "current".
Definition staged_artifact_dir (update_dir : Path) : Path := path_join update_dir "staged".

Definition service_window_status (env : UpdateEnv) (fs : Files) (managed_status : option ManagedServiceStatus)
    : string :=
  let by_pid :=
    match path_parent (ue_update_dir env) with
    | None => "safe_now"
    | Some data_dir =>
        match read_to_string fs (path_join data_dir "daemon.pid") with
        | Ok content =>
            match str_lines content with
            | line :: _ =>
                match parse_uint 32 (trim line) with
                | Ok pid => if ue_process_is_running env pid then "service_window_required" else "safe_now"
                | _ => "safe_now"
                end
            | [] => "safe_now"
            end
        | _ => "safe_now"
        end
    end in
  match managed_status with
  | Some (SvcRunning _) | Some (SvcStarting _) | Some (SvcFailed _) => "service_window_required"
  | _ => by_pid
  end.

Definition select_release_artifact (manifest : ReleaseManifest) : option ReleaseArtifact :=
  match List.find (λ a, bool_decide (ra_platform a = current_platform_label)
                        && bool_decide (ra_kind a = preferred_kind_for_current_platform)) (rm_artifacts manifest) with
  | Some a => Some a
  | None => List.find (λ a, bool_decide (ra_platform a = current_platform_label)) (rm_artifacts manifest)
  end.

(** An absolute artifact path has a drive and a root; it replaces the manifest's directory. *)
Definition resolve_artifact_source_path (manifest_path : Path) (artifact_path : string) : Path :=
  let artifact := path_join [] artifact_path in
  let is_absolute :=
    match artifact with
    | drive :: root :: _ => is_drive drive && bool_decide (root = root_component)
    | _ => false
    end in
  if is_absolute then artifact else path_join (parent_or_here manifest_path) artifact_path.

Definition file_name_or_artifact (p : Path) : string := default "artifact.bin" (path_file_name p).

Definition resolve_target_install_path (target_install_root : Path) (artifact_kind : string)
    (applied_artifact_path : Path) : Path :=
  if bool_decide (artifact_kind = "msi") || bool_decide (artifact_kind = "exe")
  then path_join target_install_root "pole-node.exe"
  else if bool_decide (artifact_kind = "zip")
  then path_join target_install_root (file_name_or_artifact applied_artifact_path)
  else path_join target_install_root "artifact.bin".

(** [format!("{path}.bak")] *)
Definition with_bak (p : Path) : Path :=
  match last p with Some c => (take (length p - 1) p ++ [c +:+ ".bak"])%list | None => [".bak"] end.

Definition build_install_action_plan (se : SwitchExecutionRecord) : InstallActionPlanRecord :=
  let target_install_path :=
    resolve_target_install_path (se_target_install_root se) (se_artifact_kind se) (se_applied_artifact_path se) in
  {| ia_channel := se_channel se; ia_target_version := se_target_version se;
     ia_artifact_kind := se_artifact_kind se; ia_target_mode := "switch_execution";
     ia_staged_artifact_path := se_applied_artifact_path se;
     ia_target_install_path := target_install_path; ia_backup_path := with_bak target_install_path;
     ia_strategy := "copy_then_swap"; ia_planned_at_millis := se_executed_at_millis se |}.

Definition override_target_path (override_root planned_target_path : Path) : Path :=
  path_join override_root (file_name_or_artifact planned_target_path).

Definition result (action channel status : string) (version : option string) : UpdateExecutionResult :=
  {| ur_action := action; ur_channel := channel; ur_status := status; ur_target_version := version |}.

(** The version the installation is at: the recorded one, else the program's own. *)
Definition effective_current_version (current_version : string) (m : Machine) : string :=
  match load_slot (mc_installed m) with Some r => iv_version r | None => current_version end.

(** ** Actions *)

Section Actions.
Context `{ReleaseExternal} `{BuildMode}.

Definition stage_update (env : UpdateEnv) (current_version channel : string) (release_manifest_dir : Path)
    : M Machine UpdateError UpdateExecutionResult :=
  let manifest_path := release_manifest_path release_manifest_dir channel in
  m <- gets id ;;
  manifest <- lift (load_release_manifest_for_channel (mc_files m) release_manifest_dir channel) ;;
  verification <- lift (verify_release_manifest_signature (mc_files m) manifest manifest_path) ;;
  let stop status := m_ret (result "stage" channel status (Some (rm_version manifest))) in
  if negb (is_verified verification) then stop (status_label verification)
  else if negb (version_is_newer (rm_version manifest) (effective_current_version current_version m))
  then stop "up_to_date"
  else
  match select_release_artifact manifest with
  | None => stop "no_compatible_artifact"
  | Some artifact =>
      let source_artifact_path := resolve_artifact_source_path manifest_path (ra_path artifact) in
      if negb (exists_file (mc_files m) source_artifact_path) then stop "artifact_missing"
      else
      let staged_artifact_path :=
        path_join (staged_artifact_dir (ue_update_dir env)) (file_name_or_artifact source_artifact_path) in
      fs_copy source_artifact_path staged_artifact_path ;;;
      let now := ue_clock env 0%nat in
      let pending := {|
        pu_channel := rm_channel manifest; pu_target_version := rm_version manifest;
        pu_manifest_path := manifest_path; pu_artifact_count := Z.of_nat (length (rm_artifacts manifest));
        pu_artifact_kind := ra_kind artifact; pu_artifact_path := ra_path artifact;
        pu_staged_artifact_path := staged_artifact_path; pu_staged_at_millis := now |} in
      let rollback := {|
        rb_previous_version := current_version; rb_channel := channel;
        rb_manifest_path := manifest_path; rb_recorded_at_millis := now |} in
      modify (λ m, set_pending m (Stored pending)) ;;;
      modify (λ m, set_rollback m (Stored rollback)) ;;;
      m_ret (result "stage" (rm_channel manifest) "staged" (Some (rm_version manifest)))
  end.

Definition apply_update_with_status (env : UpdateEnv) (managed_status : option ManagedServiceStatus)
    : M Machine UpdateError UpdateExecutionResult :=
  m <- gets id ;;
  match load_slot (mc_pending m) with
  | None => m_ret (result "apply" "stable" "no_pending_update" None)
  | Some pending =>
      let window := service_window_status env (mc_files m) managed_status in
      let switch_plan := {|
        sp_channel := pu_channel pending; sp_target_version := pu_target_version pending;
        sp_artifact_kind := pu_artifact_kind pending; sp_artifact_path := pu_artifact_path pending;
        sp_target_install_root := install_root_for_current_platform env;
        sp_service_window_status := window; sp_planned_at_millis := ue_clock env 0%nat |} in
      modify (λ m, set_switch_plan m (Stored switch_plan)) ;;;
      let stop status := m_ret (result "apply" (pu_channel pending) status (Some (pu_target_version pending))) in
      if negb (bool_decide (window = "safe_now")) then stop window
      else
      let source_artifact_path := pu_staged_artifact_path pending in
      if negb (exists_file (mc_files m) source_artifact_path) then stop "artifact_missing"
      else
      let applied := {|
        au_channel := pu_channel pending; au_target_version := pu_target_version pending;
        au_manifest_path := pu_manifest_path pending; au_artifact_kind := pu_artifact_kind pending;
        au_artifact_path := pu_artifact_path pending; au_applied_at_millis := ue_clock env 1%nat |} in
      let applied_artifact_path :=
        path_join (applied_artifact_dir (ue_update_dir env)) (file_name_or_artifact source_artifact_path) in
      fs_copy source_artifact_path applied_artifact_path ;;;
      modify (λ m, set_applied m (Stored applied)) ;;;
      let switch_execution := {|
        se_channel := au_channel applied; se_target_version := au_target_version applied;
        se_artifact_kind := au_artifact_kind applied; se_source_artifact_path := source_artifact_path;
        se_applied_artifact_path := applied_artifact_path;
        se_target_install_root := sp_target_install_root switch_plan;
        se_executed_at_millis := ue_clock env 2%nat |} in
      modify (λ m, set_switch_execution m (Stored switch_execution)) ;;;
      modify (λ m, set_install_action m (Stored (build_install_action_plan switch_execution))) ;;;
      let installed := {|
        iv_version := au_target_version applied; iv_channel := au_channel applied;
        iv_recorded_at_millis := ue_clock env 3%nat |} in
      modify (λ m, set_installed m (Stored installed)) ;;;
      modify (λ m, set_pending m Absent) ;;;
      m_ret (result "apply" (au_channel applied) "applied" (Some (au_target_version applied)))
  end.
Definition apply_update (env : UpdateEnv) : M Machine UpdateError UpdateExecutionResult :=
  apply_update_with_status env None.

(** Where the installation goes; [inr] is the status that refuses it. The root directory of
    an installed layout is the root it is resolved from. *)
Definition target_root (env : UpdateEnv) (install_root_override installed_layout_root_override : option Path)
    (use_installed_layout allow_system_install_write : bool) : (Path * string) + string :=
  match install_root_override with
  | Some override_root => inl (override_root, "override_root")
  | None =>
      if use_installed_layout then
        match installed_layout_root_override with
        | Some layout_root_override => inl (layout_root_override, "installed_layout_override")
        | None =>
            if negb allow_system_install_write then inr "installed_layout_requires_explicit_write"
            else inl (default_install_root_path env, "installed_layout")
        end
      else inr "install_root_required"
  end.

Definition execute_install_action (env : UpdateEnv)
    (install_root_override installed_layout_root_override : option Path)
    (use_installed_layout allow_system_install_write : bool)
    : M Machine UpdateError UpdateExecutionResult :=
  m <- gets id ;;
  match load_slot (mc_install_action m) with
  | None => m_ret (result "commit-install" "stable" "no_install_action" None)
  | Some ia =>
      match target_root env install_root_override installed_layout_root_override
              use_installed_layout allow_system_install_write with
      | inr status => m_ret (result "commit-install" (ia_channel ia) status (Some (ia_target_version ia)))
      | inl (root, target_mode) =>
          let target_install_path := override_target_path root (ia_target_install_path ia) in
          let backup_path := with_bak target_install_path in
          (if exists_file (mc_files m) target_install_path
           then fs_copy target_install_path backup_path else m_ret tt) ;;;
          fs_copy (ia_staged_artifact_path ia) target_install_path ;;;
          let execution := {|
            ie_channel := ia_channel ia; ie_target_version := ia_target_version ia;
            ie_target_mode := target_mode; ie_target_install_path := target_install_path;
            ie_backup_path := backup_path; ie_staged_artifact_path := ia_staged_artifact_path ia;
            ie_executed_at_millis := ue_clock env 0%nat |} in
          modify (λ m, set_install_execution m (Stored execution)) ;;;
          m_ret (result "commit-install" (ia_channel ia) "install_executed" (Some (ia_target_version ia)))
      end
  end.

(** [remove_dir_all]: the files below a directory. *)
Definition remove_dir_all (dir : Path) (fs : Files) : Files :=
  filter (λ pf, path_starts_with pf.1 dir = false) fs.

(** The installed program put back: the new one goes, the backup takes its place. *)
Definition restore_target (fs : Files) (ie : InstallExecutionRecord) : Files :=
  let fs := delete (ie_target_install_path ie) fs in
  match fs !! ie_backup_path ie with
  | Some b => delete (ie_backup_path ie) (<[ie_target_install_path ie := b]> fs)
  | None => fs
  end.

Definition rollback_update (env : UpdateEnv) : M Machine UpdateError UpdateExecutionResult :=
  m <- gets id ;;
  match load_slot (mc_rollback m) with
  | None => m_ret (result "rollback" "stable" "no_rollback_available" None)
  | Some rollback =>
      modify (λ m, set_pending m Absent) ;;;
      on_files (remove_dir_all (staged_artifact_dir (ue_update_dir env))) ;;;
      modify (λ m, set_applied m Absent) ;;;
      modify (λ m, set_rollback m Absent) ;;;
      modify (λ m, set_switch_plan m Absent) ;;;
      match load_slot (mc_switch_execution m) with
      | Some record => on_files (delete (se_applied_artifact_path record))
      | None => m_ret tt
      end ;;;
      modify (λ m, set_switch_execution m Absent) ;;;
      modify (λ m, set_install_action m Absent) ;;;
      match load_slot (mc_install_execution m) with
      | Some record => on_files (λ fs, restore_target fs record)
      | None => m_ret tt
      end ;;;
      modify (λ m, set_install_execution m Absent) ;;;
      let installed := {|
        iv_version := rb_previous_version rollback; iv_channel := rb_channel rollback;
        iv_recorded_at_millis := ue_clock env 0%nat |} in
      modify (λ m, set_installed m (Stored installed)) ;;;
      m_ret (result "rollback" (rb_channel rollback) "rolled_back" (Some (rb_previous_version rollback)))
  end.

(** ** The overview *)

Record UpdateOverview := {
  uo_current_version : string;
  uo_channel : string;
  uo_update_available : bool;
  uo_latest_available_version : option string;
  uo_signing_status : string;
  uo_rollback_status : string;
  uo_artifact_count : Z;
  uo_pending_target_version : option string;
  uo_applied_target_version : option string;
  uo_selected_artifact_kind : option string;
  uo_selected_artifact_path : option string;
  uo_executed_artifact_path : option Path;
  uo_planned_install_path : option Path;
  uo_planned_backup_path : option Path;
  uo_executed_install_path : option Path;
  uo_install_target_mode : option string;
  uo_install_action_status : string;
  uo_switch_execution_status : string;
  uo_service_window_status : string;
}.

Definition or_else {A} (a b : option A) : option A := match a with Some _ => a | None => b end.

Definition collect_update_overview_with_status (env : UpdateEnv) (current_version channel : string)
    (release_manifest_dir : Path) (managed_status : option ManagedServiceStatus) (m : Machine) : UpdateOverview :=
  let latest_manifest_path := release_manifest_path release_manifest_dir channel in
  let version := effective_current_version current_version m in
  let pending := load_slot (mc_pending m) in
  let switch_plan := load_slot (mc_switch_plan m) in
  let switch_execution := load_slot (mc_switch_execution m) in
  let install_action := load_slot (mc_install_action m) in
  let install_execution := load_slot (mc_install_execution m) in
  let overview ch available latest signing count artifact_path := {|
    uo_current_version := version; uo_channel := ch; uo_update_available := available;
    uo_latest_available_version := latest; uo_signing_status := signing;
    uo_rollback_status := if slot_exists (mc_rollback m) then "available" else "planned";
    uo_artifact_count := count;
    uo_pending_target_version := pu_target_version <$> pending;
    uo_applied_target_version := au_target_version <$> load_slot (mc_applied m);
    uo_selected_artifact_kind := or_else (sp_artifact_kind <$> switch_plan) (pu_artifact_kind <$> pending);
    uo_selected_artifact_path := artifact_path;
    uo_executed_artifact_path := se_applied_artifact_path <$> switch_execution;
    uo_planned_install_path := ia_target_install_path <$> install_action;
    uo_planned_backup_path := ia_backup_path <$> install_action;
    uo_executed_install_path := ie_target_install_path <$> install_execution;
    uo_install_target_mode := or_else (ie_target_mode <$> install_execution) (ia_target_mode <$> install_action);
    uo_install_action_status :=
      match install_execution, install_action with
      | Some _, _ => "install_action_executed"
      | None, Some _ => "install_action_planned"
      | None, None => "not_planned"
      end;
    uo_switch_execution_status :=
      match switch_execution with Some _ => "artifact_switched" | None => "not_executed" end;
    uo_service_window_status := service_window_status env (mc_files m) managed_status |} in
  match load_release_manifest_for_channel (mc_files m) release_manifest_dir channel with
  | Ok manifest =>
      let verification :=
        match verify_release_manifest_signature (mc_files m) manifest latest_manifest_path with
        | Ok v => v | _ => Invalid
        end in
      overview (rm_channel manifest)
        (is_verified verification && version_is_newer (rm_version manifest) version)
        (Some (rm_version manifest)) (status_label verification) (Z.of_nat (length (rm_artifacts manifest)))
        (or_else (sp_artifact_path <$> switch_plan) (pu_artifact_path <$> pending))
  | _ => overview channel false None "manifest_missing" 0 (sp_artifact_path <$> switch_plan)
  end.

End Actions.

(** * Lemmas and theorems *)

Lemma string_app_bak_ne (c : string) : c +:+ ".bak" ≠ c.
Proof.
  intros Heq. apply (f_equal (λ s, length (string_bytes s))) in Heq.
  rewrite string_bytes_app, length_app in Heq. simpl in Heq. lia.
Qed.

Lemma with_bak_ne p : with_bak p ≠ p.
Proof.
  unfold with_bak. destruct p as [|c p _] using rev_ind; [done|].
  rewrite last_snoc, length_app, Nat.add_sub, take_app_length.
  intros [_ Heq]%app_inj_2; [|done]. simplify_eq. by apply (string_app_bak_ne c).
Qed.

Section UpdaterTheorems.
Context `{ReleaseExternal} `{BuildMode}.

(** ** Applying *)

(** Applying either switches to the pending version, removes the plan and touches no record
    of an earlier installation, or leaves the installed version, the plan and every file as
    they were. *)
Theorem apply_all_or_nothing env st m out m' :
  apply_update_with_status env st m = (out, m') →
  (∃ p b,
     mc_pending m = Stored p ∧ service_window_status env (mc_files m) st = "safe_now" ∧
     mc_files m !! pu_staged_artifact_path p = Some b ∧
     out = Ok (result "apply" (pu_channel p) "applied" (Some (pu_target_version p))) ∧
     iv_version <$> load_slot (mc_installed m') = Some (pu_target_version p) ∧ mc_pending m' = Absent ∧
     mc_files m' = <[path_join (applied_artifact_dir (ue_update_dir env))
                       (file_name_or_artifact (pu_staged_artifact_path p)) := b]> (mc_files m)) ∨
  (mc_installed m' = mc_installed m ∧ mc_pending m' = mc_pending m ∧ mc_files m' = mc_files m ∧
   mc_install_action m' = mc_install_action m ∧ ∀ r, out = Ok r → ur_status r ≠ "applied").
Proof.
  unfold apply_update_with_status, m_bind, gets, modify, m_ret, id.
  destruct (mc_pending m) as [| |p] eqn:Ep; simpl; [intros [= <- <-]; right; naive_solver..|].
  destruct (bool_decide_reflect (service_window_status env (mc_files m) st = "safe_now")) as [Hw|Hw]; simpl.
  2: { intros [= <- <-]. right. split_and!; try done. intros r [= <-]. simpl. intros Heq.
       unfold service_window_status in Heq. repeat case_match; done. }
  destruct (mc_files m !! pu_staged_artifact_path p) as [b|] eqn:Ef.
  2: { unfold exists_file. rewrite bool_decide_eq_false_2 by (rewrite Ef; by intros []). simpl.
       intros [= <- <-]. right. naive_solver. }
  unfold exists_file. rewrite bool_decide_eq_true_2 by eauto. simpl. unfold fs_copy. simpl. rewrite Ef.
  case_bool_decide; simpl; intros [= <- <-]; [right; naive_solver|].
  left. exists p, b. simpl. done.
Qed.

(** ** Installing and rolling back *)

Lemma install_spec env o l u a m r m' :
  execute_install_action env o l u a m = (Ok r, m') → ur_status r = "install_executed" →
  ∃ ia root mode b, load_slot (mc_install_action m) = Some ia ∧ target_root env o l u a = inl (root, mode) ∧
    let target := override_target_path root (ia_target_install_path ia) in
    mc_rollback m' = mc_rollback m ∧ mc_switch_execution m' = mc_switch_execution m ∧
    (∃ ie, mc_install_execution m' = Stored ie ∧ ie_target_install_path ie = target ∧
           ie_backup_path ie = with_bak target) ∧
    mc_files m' = <[target := b]> match mc_files m !! target with
                                  | Some old => <[with_bak target := old]> (mc_files m)
                                  | None => mc_files m
                                  end.
Proof.
  unfold execute_install_action, m_bind, gets, modify, m_ret, id.
  destruct (load_slot (mc_install_action m)) as [ia|]; [|intros [= <- <-]; done].
  destruct (target_root env o l u a) as [[root mode]|status] eqn:Er.
  2: { intros [= <- <-]. simpl. intros ->. unfold target_root in Er. by repeat case_match. }
  set (target := override_target_path root (ia_target_install_path ia)).
  unfold exists_file. destruct (mc_files m !! target) as [old|] eqn:Et.
  - rewrite bool_decide_eq_true_2 by eauto. unfold fs_copy at 1. rewrite Et.
    rewrite bool_decide_eq_false_2 by (intros Heq; by apply (with_bak_ne target)).
    unfold fs_copy. simpl. destruct (<[with_bak target := old]> (mc_files m) !! ia_staged_artifact_path ia) as [b|];
      [|done]. case_bool_decide; [done|]. intros [= <- <-] _.
    exists ia, root, mode, b. split; [done|]. split; [done|]. cbv zeta. fold target.
    rewrite Et. split_and!; eauto.
  - rewrite bool_decide_eq_false_2 by (by intros []).
    unfold fs_copy. destruct (mc_files m !! ia_staged_artifact_path ia) as [b|]; [|done].
    case_bool_decide; [done|]. intros [= <- <-] _.
    exists ia, root, mode, b. split; [done|]. split; [done|]. cbv zeta. fold target.
    rewrite Et. split_and!; eauto.
Qed.

Lemma lookup_remove_dir_all (dir p : Path) (fs : Files) :
  path_starts_with p dir = false → remove_dir_all dir fs !! p = fs !! p.
Proof.
  intros Hp. unfold remove_dir_all. destruct (fs !! p) as [b|] eqn:E.
  - by apply map_lookup_filter_Some.
  - apply map_lookup_filter_None. by left.
Qed.

(** A path that neither the staging directory nor the current artifact covers. *)
Definition outside (env : UpdateEnv) (m : Machine) (p : Path) : Prop :=
  path_starts_with p (staged_artifact_dir (ue_update_dir env)) = false ∧
  ∀ se, load_slot (mc_switch_execution m) = Some se → se_applied_artifact_path se ≠ p.

(** The files that a rollback finds when it comes to the installed program. *)
Definition cleaned (env : UpdateEnv) (m : Machine) : Files :=
  let fs := remove_dir_all (staged_artifact_dir (ue_update_dir env)) (mc_files m) in
  match load_slot (mc_switch_execution m) with
  | Some se => delete (se_applied_artifact_path se) fs
  | None => fs
  end.

Lemma lookup_cleaned env m p : outside env m p → cleaned env m !! p = mc_files m !! p.
Proof.
  intros [Hp Hse]. unfold cleaned. cbv zeta. destruct (load_slot _) as [se|]; [|by apply lookup_remove_dir_all].
  rewrite lookup_delete_ne by (by apply Hse). by apply lookup_remove_dir_all.
Qed.

(** A rollback leaves no record but the version it goes back to. *)
Lemma rollback_spec env m rb :
  load_slot (mc_rollback m) = Some rb →
  rollback_update env m =
    (Ok (result "rollback" (rb_channel rb) "rolled_back" (Some (rb_previous_version rb))),
     {| mc_pending := Absent; mc_rollback := Absent; mc_applied := Absent;
        mc_installed := Stored {| iv_version := rb_previous_version rb; iv_channel := rb_channel rb;
                                  iv_recorded_at_millis := ue_clock env 0%nat |};
        mc_switch_plan := Absent; mc_switch_execution := Absent; mc_install_action := Absent;
        mc_install_execution := Absent;
        mc_files := match load_slot (mc_install_execution m) with
                    | Some ie => restore_target (cleaned env m) ie
                    | None => cleaned env m
                    end |}).
Proof.
  intros Hrb. unfold rollback_update, m_bind, gets, modify, m_ret, id, on_files, cleaned. rewrite Hrb.
  destruct (load_slot (mc_switch_execution m)); destruct (load_slot (mc_install_execution m)); reflexivity.
Qed.

(** Installing an update and rolling it back puts the program back, byte for byte, and
    leaves no backup; a program that was not there is gone again. *)
Theorem install_rollback_restores env o l u a m r m1 rb ie :
  execute_install_action env o l u a m = (Ok r, m1) → ur_status r = "install_executed" →
  load_slot (mc_rollback m) = Some rb → load_slot (mc_install_execution m1) = Some ie →
  outside env m (ie_target_install_path ie) → outside env m (ie_backup_path ie) →
  (mc_files m !! ie_target_install_path ie = None → mc_files m !! ie_backup_path ie = None) →
  ∃ r2 m2, rollback_update env m1 = (Ok r2, m2) ∧ ur_status r2 = "rolled_back" ∧
    mc_files m2 !! ie_target_install_path ie = mc_files m !! ie_target_install_path ie ∧
    mc_files m2 !! ie_backup_path ie = None ∧
    effective_current_version "" m2 = rb_previous_version rb.
Proof.
  intros Hx Hr Hrb Hie Ht Hb Hfresh.
  destruct (install_spec _ _ _ _ _ _ _ _ Hx Hr) as (ia & root & mode & b & _ & _ & Hm1 & Hse & (ie' & Hie' & Htp & Hbp) & Hfs).
  rewrite Hie' in Hie. simplify_eq/=. rewrite <- Htp in Hbp, Hfs. set (T := ie_target_install_path ie) in *.
  assert (∀ p, outside env m p → cleaned env m1 !! p = mc_files m1 !! p) as Hcl.
  { intros p [Hp1 Hp2]. apply lookup_cleaned. split; [done|]. by rewrite Hse. }
  rewrite (rollback_spec env m1 rb) by (by rewrite Hm1). do 2 eexists. split; [done|]. split; [done|].
  cbn [mc_files effective_current_version mc_installed load_slot iv_version]. rewrite Hie'.
  cbn [load_slot]. unfold restore_target. cbv zeta. fold T. rewrite Hbp in *.
  assert (with_bak T ≠ T) as Hne by apply with_bak_ne.
  rewrite lookup_delete_ne by done. rewrite Hcl by done. rewrite Hfs, lookup_insert_ne by done.
  destruct (mc_files m !! T) as [old|] eqn:Eo.
  - rewrite lookup_insert_eq. split_and!; [|by rewrite lookup_delete_eq|done].
    by rewrite lookup_delete_ne, lookup_insert_eq.
  - rewrite Hfresh by done. split_and!; [by rewrite lookup_delete_eq| |done].
    rewrite lookup_delete_ne by done. rewrite Hcl, Hfs, lookup_insert_ne by done. by apply Hfresh.
Qed.

(** ** Versions along a run *)

(** The version a manifest offers: verified, and newer than the installation. *)
Definition offered (current_version channel : string) (dir : Path) (m : Machine) : list string :=
  match load_release_manifest_for_channel (mc_files m) dir channel with
  | Ok manifest =>
      match verify_release_manifest_signature (mc_files m) manifest (release_manifest_path dir channel) with
      | Ok Verified =>
          if version_is_newer (rm_version manifest) (effective_current_version current_version m)
          then [rm_version manifest] else []
      | _ => []
      end
  | _ => []
  end.

Lemma stage_cases env cur ch dir m out m' :
  stage_update env cur ch dir m = (out, m') →
  mc_installed m' = mc_installed m ∧
  ((mc_pending m' = mc_pending m ∧ mc_rollback m' = mc_rollback m) ∨
   ∃ p rb v, mc_pending m' = Stored p ∧ mc_rollback m' = Stored rb ∧ rb_previous_version rb = cur ∧
     offered cur ch dir m = [v] ∧ pu_target_version p = v ∧
     version_is_newer v (effective_current_version cur m) = true).
Proof.
  unfold stage_update, m_bind, gets, modify, m_ret, lift, id, offered.
  destruct (load_release_manifest_for_channel (mc_files m) dir ch) as [mf| |];
    [|intros [= <- <-]; split; [done|by left]..].
  destruct (verify_release_manifest_signature (mc_files m) mf (release_manifest_path dir ch)) as [v| |];
    [|intros [= <- <-]; split; [done|by left]..].
  destruct v; cbn [is_verified bool_decide negb]; [|intros [= <- <-]; split; [done|by left]..].
  change (negb (is_verified Verified)) with false. cbv iota.
  destruct (version_is_newer (rm_version mf) (effective_current_version cur m)) eqn:En; cbn [negb];
    [|intros [= <- <-]; split; [done|by left]].
  destruct (select_release_artifact mf) as [artifact|]; [|intros [= <- <-]; split; [done|by left]].
  destruct (exists_file _ _); cbn [negb]; [|intros [= <- <-]; split; [done|by left]].
  unfold fs_copy. destruct (mc_files m !! _) as [b|]; [|intros [= <- <-]; split; [done|by left]].
  case_bool_decide; intros [= <- <-]; (split; [done|]); [by left|].
  right. do 3 eexists. split_and!; done.
Qed.

Lemma install_keeps env o l u a m out m' :
  execute_install_action env o l u a m = (out, m') →
  mc_installed m' = mc_installed m ∧ mc_pending m' = mc_pending m ∧ mc_rollback m' = mc_rollback m.
Proof.
  unfold execute_install_action, m_bind, gets, modify, m_ret, id, fs_copy. intros Heq.
  repeat (case_match; simplify_eq/=; try done).
Qed.

(** The machine after some actions, starting without records, and the version of the program
    that runs; files can change in between. Once a version is recorded the program can be
    restarted as another one, the installed or the rolled-back one. The list holds the
    versions that were offered when something was staged. *)
Inductive reachable : string → list string → Machine → Prop :=
  | reach_fresh current_version fs : reachable current_version []
      {| mc_pending := Absent; mc_rollback := Absent; mc_applied := Absent; mc_installed := Absent;
         mc_switch_plan := Absent; mc_switch_execution := Absent; mc_install_action := Absent;
         mc_install_execution := Absent; mc_files := fs |}
  | reach_files current_version vs m fs :
      reachable current_version vs m → reachable current_version vs (set_files m fs)
  | reach_restart current_version vs m started :
      reachable current_version vs m → is_Some (load_slot (mc_installed m)) → reachable started vs m
  | reach_stage current_version vs m env channel dir out m' :
      reachable current_version vs m →
      stage_update env current_version channel dir m = (out, m') →
      reachable current_version (offered current_version channel dir m ++ vs)%list m'
  | reach_apply current_version vs m env st out m' :
      reachable current_version vs m → apply_update_with_status env st m = (out, m') →
      reachable current_version vs m'
  | reach_install current_version vs m env o l u a out m' :
      reachable current_version vs m → execute_install_action env o l u a m = (out, m') →
      reachable current_version vs m'
  | reach_rollback current_version vs m env out m' :
      reachable current_version vs m → rollback_update env m = (out, m') →
      reachable current_version vs m'.

(** What is pending on the way was offered, and is newer than the version in effect. *)
Definition pending_inv (current_version : string) (vs : list string) (m : Machine) : Prop :=
  ∀ p, mc_pending m = Stored p → pu_target_version p ∈ vs ∧
    version_is_newer (pu_target_version p) (effective_current_version current_version m) = true.

Lemma reachable_inv cur vs m : reachable cur vs m → pending_inv cur vs m.
Proof.
  induction 1 as [cur fs|cur vs m fs _ IH|cur vs m cur' _ IH [r Hin]|cur vs m env ch dir out m' _ IH Hs
    |cur vs m env st out m' _ IH Ha|cur vs m env o l u a out m' _ IH Hi|cur vs m env out m' _ IH Hr]; intros q Hq.
  - done.
  - exact (IH q Hq).
  - destruct (IH q Hq) as [? Hn]. split; [done|]. revert Hn. unfold effective_current_version. by rewrite Hin.
  - apply stage_cases in Hs as (Hi & [[Hp Hr]|(p & rb & v & Hp & Hr & Hcur & Hof & Hv & Hn)]);
      unfold effective_current_version; rewrite Hi.
    + rewrite Hp in Hq. destruct (IH q Hq) as [? ?]. split; [set_solver|done].
    + rewrite Hp in Hq. simplify_eq. rewrite Hof. split; [set_solver|done].
  - apply apply_all_or_nothing in Ha as [(p & b & Hp & _ & _ & _ & Hv & Hp' & _)|(Hi & Hp & _)].
    + by rewrite Hp' in Hq.
    + unfold effective_current_version. rewrite Hi. rewrite Hp in Hq. exact (IH q Hq).
  - apply install_keeps in Hi as (Hi & Hp & Hr). unfold effective_current_version. rewrite Hi. rewrite Hp in Hq.
    exact (IH q Hq).
  - destruct (load_slot (mc_rollback m)) as [rb|] eqn:Erb.
    + rewrite (rollback_spec env m rb Erb) in Hr. by simplify_eq/=.
    + unfold rollback_update, m_bind, gets, m_ret, id in Hr. rewrite Erb in Hr. simplify_eq. exact (IH q Hq).
Qed.

(** C35: In any run, restarts as another version included, an update that is applied raises the installed version to one that a
    verified manifest offered. *)
Theorem updates_never_downgrade cur vs m env st r m' :
  reachable cur vs m →
  apply_update_with_status env st m = (Ok r, m') → ur_status r = "applied" →
  version_is_newer (effective_current_version cur m') (effective_current_version cur m) = true ∧
  effective_current_version cur m' ∈ vs.
Proof.
  intros Hp%reachable_inv Ha Hr.
  apply apply_all_or_nothing in Ha as [(p & b & Ep & _ & _ & _ & Hv & _)|(_ & _ & _ & _ & Hn)];
    [|by destruct (Hn r)].
  destruct (Hp p Ep) as [Hin Hnew].
  replace (effective_current_version cur m') with (pu_target_version p); [done|].
  unfold effective_current_version. destruct (load_slot (mc_installed m')); by simplify_eq/=.
Qed.
End UpdaterTheorems.

(** ** A run on a machine *)

Module Demo.

Definition channel : string := "stable".
Definition artifact : ReleaseArtifact := {|
  ra_platform := "windows"; ra_kind := "msi"; ra_path := "PoLE.msi"; ra_sha256 := "abc"; ra_size_bytes := 42 |}.
Definition manifest (version : string) : ReleaseManifest := {|
  rm_channel := channel; rm_version := version; rm_artifacts := [artifact];
  rm_signature := "dev-hash:" ++ hex_32 (stable_hash32 (string_bytes version)); rm_signing := None |}.

(** A manifest is written as its version; the payload is the version. *)
#[export] Instance release : ReleaseExternal := {|
  manifest_of_json := λ s, if starts_with s "0." then Some (manifest s) else None;
  payload_json := λ _ v _, v;
  base64_decode := λ b, Some b;
  x509_spki := λ b, None;
  ed25519_key := λ _, true; cert_ed25519_verify := λ _ _ _, false;
  p256_key := λ _, true; p256_from_der := λ b, Some b; p256_verify := λ _ _ _, false |}.
#[export] Instance build : BuildMode := false.

Definition env : UpdateEnv := {|
  ue_update_dir := ["D:"; root_component; "pole-node-data"; "updates"];
  ue_local_app_data := None; ue_layout_root_override := None;
  ue_process_is_running := λ _, false; ue_clock := Z.of_nat |}.
Definition dist : Path := ["D:"; root_component; "dist"].
Definition root : Path := ["D:"; root_component; "PoLE"].
Definition program : Path := (root ++ ["pole-node.exe"])%list.

Definition fresh (version : string) (content : bytes) : Machine := {|
  mc_pending := Absent; mc_rollback := Absent; mc_applied := Absent; mc_installed := Absent;
  mc_switch_plan := Absent; mc_switch_execution := Absent; mc_install_action := Absent;
  mc_install_execution := Absent;
  mc_files := <[(dist ++ ["stable.json"])%list := string_bytes version]>
    (<[(dist ++ ["PoLE.msi"])%list := content]> {[ program := [9; 9] ]}) |}.

Definition stage := stage_update env "0.1.0" channel dist.
Definition apply := apply_update_with_status env None.
Definition install := execute_install_action env (Some root) None false false.
Definition rollback := rollback_update env.
Definition release_files (version : string) (content : bytes) : M Machine UpdateError unit :=
  on_files (λ fs, <[(dist ++ ["stable.json"])%list := string_bytes version]>
    (<[(dist ++ ["PoLE.msi"])%list := content]> fs)).

Definition status (o : outcome UpdateError UpdateExecutionResult) : string :=
  match o with Ok r => ur_status r | _ => "error" end.

(** The artifact's hash in the manifest is not that of the file, and the file is installed. *)
Example artifact_hash_unchecked :
  let '(o, m) := (stage ;;; apply ;;; install)%pole (fresh "0.2.0" [1; 2; 3]) in
  status o = "install_executed" ∧ mc_files m !! program = Some [1; 2; 3] ∧
  effective_current_version "0.1.0" m = "0.2.0".
Proof. vm_compute. done. Qed.

(** Installing the same update a second time backs up the new program over the old one, and
    the rollback restores the new program. *)
Example second_install_loses_backup :
  let '(o, m) := (stage ;;; apply ;;; install ;;; install ;;; rollback)%pole (fresh "0.2.0" [1; 2; 3]) in
  status o = "rolled_back" ∧ mc_files m !! program = Some [1; 2; 3] ∧
  effective_current_version "0.1.0" m = "0.1.0".
Proof. vm_compute. done. Qed.

(** After a first update the rollback of a second one records the version of the running
    program, not the one that was installed in between. *)
Example rollback_skips_version :
  let '(o, m) := (stage ;;; apply ;;; install ;;; release_files "0.3.0" [4] ;;;
                  stage ;;; apply ;;; install ;;; rollback)%pole (fresh "0.2.0" [1; 2; 3]) in
  status o = "rolled_back" ∧ mc_files m !! program = Some [1; 2; 3] ∧
  effective_current_version "0.1.0" m = "0.1.0".
Proof. vm_compute. done. Qed.

(** Another run, step by step. *)
Definition staged : Machine := (stage (fresh "0.2.0" [1; 2; 3])).2.
Definition applied : Machine := (apply staged).2.
Definition executed : Machine := (install applied).2.

Lemma staged_reachable : ∃ vs, reachable "0.1.0" vs staged ∧ vs = ["0.2.0"].
Proof.
  eexists. split.
  - eapply (reach_stage "0.1.0" [] (fresh "0.2.0" [1; 2; 3]) env channel dist); [apply reach_fresh|].
    apply surjective_pairing.
  - vm_compute. reflexivity.
Qed.
Lemma apply_staged :
  ∃ r, apply staged = (Ok r, applied) ∧ ur_status r = "applied".
Proof.
  assert ((apply staged).1 = Ok (result "apply" "stable" "applied" (Some "0.2.0"))) as H1
    by (vm_compute; reflexivity).
  exists (result "apply" "stable" "applied" (Some "0.2.0")). split; [|reflexivity].
  rewrite (surjective_pairing (apply staged)), H1. reflexivity.
Qed.

Lemma updates_never_downgrade_witness :
  version_is_newer (effective_current_version "0.1.0" applied) (effective_current_version "0.1.0" staged) = true ∧
  effective_current_version "0.1.0" applied ∈ ["0.2.0"].
Proof.
  destruct staged_reachable as (vs & Hreach & ->). destruct apply_staged as (r & Ha & Hr).
  exact (updates_never_downgrade "0.1.0" ["0.2.0"] staged env None r applied Hreach Ha Hr).
Defined.

Lemma install_applied :
  ∃ r rb ie, install applied = (Ok r, executed) ∧ ur_status r = "install_executed" ∧
    load_slot (mc_rollback applied) = Some rb ∧ load_slot (mc_install_execution executed) = Some ie ∧
    ie_target_install_path ie = program ∧ ie_backup_path ie = (root ++ ["pole-node.exe.bak"])%list ∧
    mc_files applied !! program = Some [9; 9].
Proof.
  assert ((install applied).1 = Ok (result "commit-install" "stable" "install_executed" (Some "0.2.0")))
    as H1 by (vm_compute; reflexivity).
  assert (∃ rb, load_slot (mc_rollback applied) = Some rb) as [rb Hrb]
    by (vm_compute; eexists; reflexivity).
  assert (∃ ie, load_slot (mc_install_execution executed) = Some ie ∧ ie_target_install_path ie = program ∧
    ie_backup_path ie = (root ++ ["pole-node.exe.bak"])%list) as (ie & Hie & Ht & Hb)
    by (vm_compute; eexists; repeat split).
  exists (result "commit-install" "stable" "install_executed" (Some "0.2.0")), rb, ie.
  split; [rewrite (surjective_pairing (install applied)), H1; reflexivity|].
  split; [reflexivity|]. split_and!; [done..|]. vm_compute. reflexivity.
Qed.

Lemma applied_outside p :
  p = program ∨ p = (root ++ ["pole-node.exe.bak"])%list → outside env applied p.
Proof.
  intros Hp. split; [by destruct Hp as [->| ->]; vm_compute|].
  assert (load_slot (mc_switch_execution applied) = Some {|
    se_channel := "stable"; se_target_version := "0.2.0"; se_artifact_kind := "msi";
    se_source_artifact_path := (ue_update_dir env ++ ["staged"; "PoLE.msi"])%list;
    se_applied_artifact_path := (ue_update_dir env ++ ["current"; "PoLE.msi"])%list;
    se_target_install_root := path_join [] "C:/Program Files/PoLE"; se_executed_at_millis := 2 |}) as ->
    by (vm_compute; reflexivity).
  intros se [= <-]. by destruct Hp as [->| ->].
Qed.

Lemma install_rollback_restores_witness :
  ∃ r2 m2, rollback executed = (Ok r2, m2) ∧ ur_status r2 = "rolled_back" ∧
    mc_files m2 !! program = mc_files applied !! program.
Proof.
  destruct install_applied as (r & rb & ie & Hx & Hr & Hrb & Hie & Ht & Hb & Hold).
  destruct (install_rollback_restores env (Some root) None false false applied r executed rb ie Hx Hr Hrb Hie)
    as (r2 & m2 & H1 & H2 & H3 & _).
  - rewrite Ht. apply applied_outside. left. reflexivity.
  - rewrite Hb. apply applied_outside. right. reflexivity.
  - intros Hnone. rewrite Ht in Hnone. discriminate (eq_trans (eq_sym Hold) Hnone).
  - exists r2, m2. rewrite Ht in H3. split; [exact H1|]. split; [exact H2|exact H3].
Defined.

End Demo.
