(* ===== verification/ServiceControl.v ===== *)
(** * Services and updates together: src/src/service_runtime.rs, src/src/control_api.rs

    The node runs as a managed service; the control interface starts and stops it, and
    installs updates around it. [ServiceRuntime] is what is known of the daemon's process;
    the trait [ServiceManager] is the class of the same name, over the state of whatever
    manages services, whose Windows implementation is not modelled. *)
From S2P Require Import Prelude Primitives Crypto Text ActivitySources ProofBinary ReleaseSigning Updater.
Local Open Scope pole_scope.
Local Open Scope string_scope.
Local Open Scope Z_scope.

(** ** The observed process *)

Inductive ServiceState :=
  | Stopped | Starting (pid : Z) | Running (pid : Z) | Failed (last_error : string).
Record ServiceRuntime := { sr_state : ServiceState; sr_stale : bool }.
Record ServiceSnapshot := {
  ss_state_label : string;
  ss_pid : option Z;
  ss_stale : bool;
  ss_recoverable : bool;
}.

Definition ServiceRuntime_default : ServiceRuntime := {| sr_state := Stopped; sr_stale := false |}.
Definition mark_starting (pid : Z) (r : ServiceRuntime) : ServiceRuntime :=
  {| sr_state := Starting pid; sr_stale := false |}.
Definition mark_running (pid : Z) (r : ServiceRuntime) : ServiceRuntime :=
  {| sr_state := Running pid; sr_stale := false |}.
Definition mark_failed (last_error : string) (r : ServiceRuntime) : ServiceRuntime :=
  {| sr_state := Failed last_error; sr_stale := false |}.
Definition mark_stopped (r : ServiceRuntime) : ServiceRuntime :=
  {| sr_state := Stopped; sr_stale := false |}.
Definition mark_stale (r : ServiceRuntime) : ServiceRuntime :=
  {| sr_state := sr_state r; sr_stale := true |}.

Definition observe_process (pid : option Z) (is_running : bool) (r : ServiceRuntime) : ServiceRuntime :=
  match pid, is_running with
  | Some pid, true => mark_running pid r
  | Some pid, false => mark_stale (mark_starting pid r)
  | None, _ => mark_stopped r
  end.
Definition observe_persisted_process (observed_pid persisted_pid : option Z) (is_running : bool)
    (r : ServiceRuntime) : ServiceRuntime :=
  observe_process (or_else observed_pid persisted_pid) is_running r.
Definition from_observed_process (pid : option Z) (is_running : bool) : ServiceRuntime :=
  observe_process pid is_running ServiceRuntime_default.
Definition from_persisted_observation (observed_pid persisted_pid : option Z) (is_running : bool)
    : ServiceRuntime :=
  observe_persisted_process observed_pid persisted_pid is_running ServiceRuntime_default.

Definition current_pid (r : ServiceRuntime) : option Z :=
  match sr_state r with Starting pid | Running pid => Some pid | _ => None end.
Definition state_label (r : ServiceRuntime) : string :=
  match sr_state r with
  | Stopped => "stopped" | Starting _ => "starting" | Running _ => "running" | Failed _ => "failed"
  end.
Definition can_recover_without_manual_cleanup (r : ServiceRuntime) : bool :=
  sr_stale r && match sr_state r with Starting _ | Running _ => true | _ => false end.
Definition snapshot (r : ServiceRuntime) : ServiceSnapshot := {|
  ss_state_label := state_label r; ss_pid := current_pid r; ss_stale := sr_stale r;
  ss_recoverable := can_recover_without_manual_cleanup r |}.
Definition managed_status (r : ServiceRuntime) : ManagedServiceStatus :=
  match sr_state r with
  | Stopped => SvcStopped
  | Starting pid => SvcStarting (Some pid)
  | Running pid => SvcRunning (Some pid)
  | Failed last_error => SvcFailed last_error
  end.

(** ** Managers *)

Inductive ServiceManagerError :=
  | Unsupported (action platform : string)
  | InvalidDefinition (message : string)
  | ServiceIo (message : string).
Definition manager_error_text (e : ServiceManagerError) : string :=
  match e with
  | Unsupported action platform => action ++ " is not supported on " ++ platform
  | InvalidDefinition message => "invalid service definition: " ++ message
  | ServiceIo message => "service io error: " ++ message
  end.

Class ServiceManager (S : Type) := {
  svc_install : M S ServiceManagerError unit;
  svc_uninstall : M S ServiceManagerError unit;
  svc_start : M S ServiceManagerError unit;
  svc_stop : M S ServiceManagerError unit;
  svc_status : S → outcome ServiceManagerError ManagedServiceStatus;
}.

Definition service_status_label (status : ManagedServiceStatus) : string :=
  match status with
  | SvcNotInstalled => "not_installed" | SvcStopped => "stopped" | SvcStarting _ => "starting"
  | SvcRunning _ => "running" | SvcFailed _ => "failed"
  end.

(** The first line of the daemon's pid file, as a number. *)
Definition read_pid (fs : Files) (path : Path) : option Z :=
  match read_to_string fs path with
  | Ok content =>
      match str_lines content with
      | line :: _ => match parse_uint 32 (trim line) with Ok pid => Some pid | _ => None end
      | [] => None
      end
  | _ => None
  end.

(** The program that runs as the service: itself when it is [pole-node], else its sibling. *)
Definition file_stem (name : string) : string :=
  match rev (str_split name 46) with
  | _ :: (_ :: _) as parts =>
      let stem := rev (tail parts) in
      if bool_decide (stem = [""]) then name else String.concat "." stem
  | _ => name
  end.
Definition extension (name : string) : option string :=
  match rev (str_split name 46) with
  | ext :: (_ :: _) as parts => if bool_decide (rev (tail parts) = [""]) then None else Some ext
  | _ => None
  end.
Definition resolve_service_executable_path (current : Path) : Path :=
  let name := path_file_name current in
  if bool_decide (to_ascii_lowercase (default "" (file_stem <$> name)) = "pole-node") then current
  else
    let ext := match name ≫= extension with Some e => "." ++ e | None => "" end in
    path_join (parent_or_here current) ("pole-node" ++ ext).

Section Control.
Context `{ReleaseExternal} `{BuildMode} {S : Type} `{ServiceManager S}.

(** The state: the machine and the manager's. *)
Definition on_machine {A} (f : M Machine UpdateError A) : M (Machine * S) UpdateError A := λ ms,
  let '(o, m') := f ms.1 in (o, (m', ms.2)).
Definition attempt {A} (f : M S ServiceManagerError A)
    : M (Machine * S) UpdateError (outcome ServiceManagerError A) := λ ms,
  let '(o, s') := f ms.2 in (Ok o, (ms.1, s')).
(** [manager.call()?] *)
Definition on_manager {A} (f : M S ServiceManagerError A) : M (Machine * S) UpdateError A :=
  o <- attempt f ;; lift (map_err (λ e, Message (manager_error_text e)) o).
Definition manager_status : M (Machine * S) UpdateError ManagedServiceStatus :=
  s <- gets snd ;; lift (map_err (λ e, Message (manager_error_text e)) (svc_status s)).

(** ** Service actions *)

(** What the actions without privileges do to processes: whether the program can be
    spawned, what the pid file says two seconds later and whether that process runs; whether
    a process can be killed. *)
Record Processes := {
  ps_spawn : bool;
  ps_pid_path : Path;
  ps_pid_after_spawn : option Z;
  ps_is_running : Z → bool;
  ps_kill : Z → bool;
}.

Definition needs_privileges (e : ServiceManagerError) : bool :=
  str_contains (to_ascii_lowercase (manager_error_text e)) "administrator privileges".

Definition label_of_status : M (Machine * S) UpdateError string :=
  status <- manager_status ;; m_ret (service_status_label status).

Definition execute_service_action_with_fallback (ps : Processes) (action : string)
    : M (Machine * S) UpdateError string :=
  if bool_decide (action = "install") then on_manager svc_install ;;; label_of_status
  else if bool_decide (action = "uninstall") then on_manager svc_uninstall ;;; label_of_status
  else if bool_decide (action = "status") then label_of_status
  else if bool_decide (action = "start") then
    o <- attempt svc_start ;;
    match o with
    | Ok _ => label_of_status
    | Panic => lift Panic
    | Err err =>
        if needs_privileges err then
          if negb (ps_spawn ps) then m_throw IoError else
          let daemon_pid := ps_pid_after_spawn ps in
          let running := match daemon_pid with Some pid => ps_is_running ps pid | None => false end in
          m_ret (service_status_label (managed_status (from_observed_process daemon_pid running)))
        else m_throw (Message (manager_error_text err))
    end
  else if bool_decide (action = "stop") then
    o <- attempt svc_stop ;;
    match o with
    | Ok _ => label_of_status
    | Panic => lift Panic
    | Err err =>
        m <- gets fst ;;
        match read_pid (mc_files m) (ps_pid_path ps) with
        | Some pid =>
            if needs_privileges err && ps_kill ps pid then
              on_machine (on_files (delete (ps_pid_path ps))) ;;; m_ret "stopped"
            else m_throw (Message (manager_error_text err))
        | None => m_throw (Message (manager_error_text err))
        end
    end
  else m_throw (Message ("unknown service action " ++ action)).

(** ** Update actions *)

Record UpdateActionRequest := {
  uar_channel : option string;
  uar_install_root_override : option Path;
  uar_installed_layout_root_override : option Path;
  uar_use_installed_layout : bool;
  uar_allow_system_install_write : bool;
  uar_stop_service_before_install : bool;
  uar_start_service_after_install : bool;
  uar_stop_service_before_rollback : bool;
  uar_start_service_after_rollback : bool;
}.

Definition service_active (status : option ManagedServiceStatus) : bool :=
  match status with Some (SvcRunning _) | Some (SvcStarting _) | Some (SvcFailed _) => true | _ => false end.

Definition with_status (r : UpdateExecutionResult) (action status : string) : UpdateExecutionResult :=
  result action (ur_channel r) status (ur_target_version r).

Definition stop_required (action channel : string) : UpdateExecutionResult :=
  result action channel "service_stop_required" None.

(** [build_manager]: how [build_service_manager] ends, which resolves the path of the service's
    executable. The manager is built when the request asks to stop or to start the service. *)
Definition commit_install (env : UpdateEnv) (build_manager : outcome UpdateError unit)
    (req : UpdateActionRequest) (channel : string)
    (service_was_active : bool) : M (Machine * S) UpdateError UpdateExecutionResult :=
  (if uar_stop_service_before_install req || uar_start_service_after_install req
   then lift build_manager else m_ret tt) ;;;
  if negb (uar_stop_service_before_install req) && service_was_active
  then m_ret (stop_required "commit-install" channel)
  else
  (if uar_stop_service_before_install req && service_was_active then on_manager svc_stop else m_ret tt) ;;;
  r <- on_machine (execute_install_action env (uar_install_root_override req)
         (uar_installed_layout_root_override req) (uar_use_installed_layout req)
         (uar_allow_system_install_write req)) ;;
  if uar_start_service_after_install req && bool_decide (ur_status r = "install_executed") then
    o <- attempt svc_start ;;
    match o with
    | Panic => lift Panic
    | Ok _ => m_ret (with_status r (ur_action r) "install_executed_service_restarted")
    | Err _ =>
        rb <- on_machine (rollback_update env) ;;
        if service_was_active then
          o2 <- attempt svc_start ;;
          m_ret (with_status rb "commit-install"
            (if is_ok o2 then "install_executed_service_restart_failed_rolled_back_service_restarted"
             else "install_executed_service_restart_failed_rolled_back"))
        else m_ret (with_status rb "commit-install" "install_executed_service_restart_failed_rolled_back")
    end
  else m_ret r.

Definition roll_back (env : UpdateEnv) (build_manager : outcome UpdateError unit)
    (req : UpdateActionRequest) (channel : string)
    (service_was_active : bool) : M (Machine * S) UpdateError UpdateExecutionResult :=
  (if uar_stop_service_before_rollback req || uar_start_service_after_rollback req
   then lift build_manager else m_ret tt) ;;;
  if negb (uar_stop_service_before_rollback req) && service_was_active
  then m_ret (stop_required "rollback" channel)
  else
  (if uar_stop_service_before_rollback req && service_was_active then on_manager svc_stop else m_ret tt) ;;;
  r <- on_machine (rollback_update env) ;;
  if uar_start_service_after_rollback req && service_was_active then
    o <- attempt svc_start ;;
    m_ret (with_status r (ur_action r)
      (if is_ok o then "rolled_back_service_restarted" else "rolled_back_service_restart_failed"))
  else m_ret r.

(** [manifest_dir]: what [resolve_release_manifest_dir] gave for the channel. *)
Definition execute_update_action (env : UpdateEnv) (current_version action : string)
    (manifest_dir : outcome UpdateError Path) (build_manager : outcome UpdateError unit)
    (req : UpdateActionRequest) : M (Machine * S) UpdateError UpdateExecutionResult :=
  let channel := default "stable" (uar_channel req) in
  release_manifest_dir <- lift manifest_dir ;;
  s <- gets snd ;;
  let managed := match build_manager, svc_status s with Ok _, Ok st => Some st | _, _ => None end in
  if bool_decide (action = "stage")
  then on_machine (stage_update env current_version channel release_manifest_dir)
  else if bool_decide (action = "apply") then on_machine (apply_update_with_status env managed)
  else if bool_decide (action = "commit-install") then commit_install env build_manager req channel (service_active managed)
  else if bool_decide (action = "rollback") then roll_back env build_manager req channel (service_active managed)
  else m_throw (Message ("unknown update action " ++ action)).

(** * Theorems *)

(** While the service is active, neither an installation nor a rollback touches the machine
    unless the request asks to stop the service and the manager stopped it. *)
Theorem active_service_protects_program env cur action dir bm req m s st out m' s' stop_first :
  execute_update_action env cur action dir bm req (m, s) = (out, (m', s')) →
  bm = Ok tt →
  (action = "commit-install" ∧ stop_first = uar_stop_service_before_install req) ∨
  (action = "rollback" ∧ stop_first = uar_stop_service_before_rollback req) →
  svc_status s = Ok st → service_active (Some st) = true →
  stop_first = false ∨ is_ok (svc_stop s).1 = false →
  m' = m.
Proof.
  unfold execute_update_action, m_bind, lift, gets. intros Hx -> Hact Hst Ha Hstop.
  destruct dir as [d| |]; [|by simplify_eq..]. cbn [snd] in Hx. rewrite Hst, Ha in Hx.
  destruct Hact as [[-> ->]|[-> ->]]; rewrite !bool_decide_eq_false_2 in Hx by done;
    rewrite bool_decide_eq_true_2 in Hx by done;
    unfold commit_install, roll_back, on_manager, attempt, m_bind, m_ret, lift in Hx; cbn [snd fst] in Hx.
  - destruct (uar_stop_service_before_install req), (uar_start_service_after_install req);
      cbn [negb andb orb fst snd] in Hx; [..|by simplify_eq|by simplify_eq];
      (destruct Hstop as [?|Hstop]; [done|]; revert Hx Hstop; destruct (svc_stop s) as [[[]| |] s1]; intros Hx Hstop;
       [done|by simplify_eq/=..]).
  - destruct (uar_stop_service_before_rollback req), (uar_start_service_after_rollback req);
      cbn [negb andb orb fst snd] in Hx; [..|by simplify_eq|by simplify_eq];
      (destruct Hstop as [?|Hstop]; [done|]; revert Hx Hstop; destruct (svc_stop s) as [[[]| |] s1]; intros Hx Hstop;
       [done|by simplify_eq/=..]).
Qed.

(** C36: When the service does not come up after an installation, the update is rolled back and
    the program is again what it was before the installation. *)
Theorem failed_restart_restores_program env req ch (active : bool) s1 m s r m1 rb ie e s2 :
  (* the service is stopped, the update installed, and the restart fails *)
  (if active then uar_stop_service_before_install req = true ∧ svc_stop s = (Ok tt, s1) else s1 = s) →
  uar_start_service_after_install req = true →
  execute_install_action env (uar_install_root_override req) (uar_installed_layout_root_override req)
    (uar_use_installed_layout req) (uar_allow_system_install_write req) m = (Ok r, m1) →
  ur_status r = "install_executed" →
  svc_start s1 = (Err e, s2) →
  (* the records of the update, and a program outside the updater's own directories *)
  load_slot (mc_rollback m) = Some rb → load_slot (mc_install_execution m1) = Some ie →
  outside env m (ie_target_install_path ie) → outside env m (ie_backup_path ie) →
  (mc_files m !! ie_target_install_path ie = None → mc_files m !! ie_backup_path ie = None) →
  ∃ status m' s', commit_install env (Ok tt) req ch active (m, s) =
      (Ok (result "commit-install" (rb_channel rb) status (Some (rb_previous_version rb))), (m', s')) ∧
    (status = "install_executed_service_restart_failed_rolled_back" ∨
     status = "install_executed_service_restart_failed_rolled_back_service_restarted") ∧
    mc_files m' !! ie_target_install_path ie = mc_files m !! ie_target_install_path ie.
Proof.
  intros Hstop Hflag Hx Hr Hstart Hrb Hie Ht Hb Hfresh.
  assert (load_slot (mc_rollback m1) = Some rb) as Hrb1.
  { apply install_keeps in Hx as (_ & _ & ->). done. }
  destruct (install_rollback_restores env _ _ _ _ m r m1 rb ie Hx Hr Hrb Hie Ht Hb Hfresh)
    as (r2 & m2 & Hroll & _ & Hfile & _).
  rewrite (rollback_spec env m1 rb Hrb1) in Hroll. injection Hroll as <- Hm2.
  unfold commit_install, on_manager, attempt, on_machine, m_bind, m_ret, lift. cbn [fst snd].
  rewrite Hflag, orb_true_r. cbn [fst snd]. destruct active.
  - destruct Hstop as [-> Hstop]. cbn [negb andb fst snd]. rewrite Hstop. cbn [map_err fst snd]. rewrite Hx.
    rewrite bool_decide_eq_true_2 by done. cbn [fst snd]. rewrite Hstart. cbn [fst snd].
    rewrite (rollback_spec env m1 rb Hrb1), Hm2. cbn [fst snd].
    destruct (svc_start s2) as [o2 s3]. do 3 eexists. split; [reflexivity|]. split; [|done].
    destruct (is_ok o2); auto.
  - subst s1. rewrite !andb_false_r. cbn [fst snd]. rewrite Hx.
    rewrite bool_decide_eq_true_2 by done. cbn [fst snd andb]. rewrite Hstart. cbn [fst snd].
    rewrite (rollback_spec env m1 rb Hrb1), Hm2. cbn [fst snd].
    do 3 eexists. split; [reflexivity|]. split; [by left|done].
Qed.

End Control.

(** ** A service that does not come back *)

Module ServiceDemo.
#[local] Existing Instance Demo.release.
#[local] Existing Instance Demo.build.

(** A manager that can be stopped; a start fails while the new program is in place, here
    always. *)
#[export] Instance failing_manager : ServiceManager bool := {|
  svc_install := m_ret tt; svc_uninstall := m_ret tt;
  svc_start := m_throw (ServiceIo "exit code 1"); svc_stop := λ _, (Ok tt, false);
  svc_status := λ s : bool, Ok (if s then SvcRunning None else SvcStopped) |}.

Definition request : UpdateActionRequest := {|
  uar_channel := None; uar_install_root_override := Some Demo.root;
  uar_installed_layout_root_override := None; uar_use_installed_layout := false;
  uar_allow_system_install_write := false; uar_stop_service_before_install := true;
  uar_start_service_after_install := true; uar_stop_service_before_rollback := true;
  uar_start_service_after_rollback := true |}.

Lemma failed_restart_restores_program_witness :
  ∃ m' s', (commit_install Demo.env (Ok tt) request "stable" true (Demo.applied, true)).2 = (m', s') ∧
    mc_files m' !! Demo.program = mc_files Demo.applied !! Demo.program.
Proof.
  destruct Demo.install_applied as (r & rb & ie & Hx & Hr & Hrb & Hie & Ht & Hb & Hold).
  assert (uar_stop_service_before_install request = true ∧ svc_stop true = (Ok tt, false)) as Hstop
    by (split; reflexivity).
  assert (svc_start false = (Err (ServiceIo "exit code 1"), false)) as Hstart by reflexivity.
  destruct (failed_restart_restores_program Demo.env request "stable" true false Demo.applied true r
    Demo.executed rb ie (ServiceIo "exit code 1") false Hstop eq_refl Hx Hr Hstart Hrb Hie)
    as (st & m' & s' & H1 & _ & H3).
  - rewrite Ht. apply Demo.applied_outside. left. reflexivity.
  - rewrite Hb. apply Demo.applied_outside. right. reflexivity.
  - intros Hnone. rewrite Ht in Hnone. discriminate (eq_trans (eq_sym Hold) Hnone).
  - exists m', s'. rewrite Ht in H3. split; [exact (f_equal snd H1)|exact H3].
Defined.

Definition careless : UpdateActionRequest := {|
  uar_channel := None; uar_install_root_override := Some Demo.root;
  uar_installed_layout_root_override := None; uar_use_installed_layout := false;
  uar_allow_system_install_write := false; uar_stop_service_before_install := false;
  uar_start_service_after_install := false; uar_stop_service_before_rollback := false;
  uar_start_service_after_rollback := false |}.

Lemma active_service_protects_program_witness :
  (execute_update_action Demo.env "0.1.0" "commit-install" (Ok Demo.dist) (Ok tt) careless (Demo.applied, true)).2.1
  = Demo.applied.
Proof.
  apply (active_service_protects_program Demo.env "0.1.0" "commit-install" (Ok Demo.dist) (Ok tt) careless
    Demo.applied true (SvcRunning None)
    (execute_update_action Demo.env "0.1.0" "commit-install" (Ok Demo.dist) (Ok tt) careless (Demo.applied, true)).1
    _ true false).
  - rewrite <- surjective_pairing. reflexivity.
  - reflexivity.
  - left. split; reflexivity.
  - reflexivity.
  - reflexivity.
  - left. reflexivity.
Defined.

(** A rollback with nothing to roll back reports success once the service is started again. *)
#[local] Instance obliging_manager : ServiceManager bool := {|
  svc_install := m_ret tt; svc_uninstall := m_ret tt;
  svc_start := λ _, (Ok tt, true); svc_stop := λ _, (Ok tt, false);
  svc_status := λ s : bool, Ok (if s then SvcRunning None else SvcStopped) |}.
Example nothing_rolled_back :
  Demo.status (roll_back (H1 := obliging_manager) Demo.env (Ok tt) request "stable" true (Demo.fresh "0.2.0" [1], true)).1
  = "rolled_back_service_restarted".
Proof. vm_compute. reflexivity. Qed.

End ServiceDemo.
