(* ===== verification/ControlApi.v ===== *)
(** * The control interface: src/src/control_api.rs

    A connection carries one HTTP request: it is read in chunks up to a size limit, a token
    is asked of POST requests when one is configured, and the method and path choose what
    runs. Modelled are the reading, the authentication, the table of endpoints, the change
    of the configuration, the local wallet's transfers and the log excerpts; the actions on
    updates and services are in ServiceControl. The views that only report (status, storage,
    dashboard, ...) are named by the action they are chosen with and not modelled. *)
From S2P Require Import Prelude Primitives Params Records Crypto Text Rewards NodeConfig ActivitySources ProofBinary MutualProof.
Local Open Scope pole_scope.
Local Open Scope string_scope.
Local Open Scope Z_scope.

Definition MAX_REQUEST_SIZE : Z := 65536.

(** ** Reading a request *)

Definition crlf2 : bytes := [13; 10; 13; 10].

(** The first position of the blank line. *)
Fixpoint header_end (b : bytes) : option nat :=
  if bool_decide (take 4 b = crlf2) then Some 0%nat
  else match b with [] => None | _ :: b => S <$> header_end b end.

(** The number after the first colon of the first such line; anything else counts as 0. *)
Fixpoint content_length_of (lines : list string) : Z :=
  match lines with
  | [] => 0
  | line :: lines =>
      if starts_with (to_ascii_lowercase line) "content-length:" then
        match str_split line 58 !! 1%nat with
        | Some val => match parse_uint 64 (trim val) with Ok n => n | _ => 0 end
        | None => 0
        end
      else content_length_of lines
  end.
Definition content_length (header : bytes) : Z :=
  content_length_of (str_lines (string_of_bytes (utf8_lossy header))).

Section Reading.
Context `{BuildMode}.

(** The length of the whole request, once its headers have arrived. *)
Definition expected_length (buffer : bytes) : option (option Z) :=
  match header_end buffer with
  | None => Some None
  | Some e =>
      n ← add 64 (Z.of_nat e) 4;
      t ← add 64 n (content_length (take e buffer));
      Some (Some t)
  end.

(** The loop over what [stream.read] returns: [None] is an error, an empty chunk the end of
    the stream (the client closed its side). At the end of the list the client sends nothing
    more but keeps the connection open: the read times out, which is an error as well.
    [Ok None] is a request that is too large; the panic is that of the length's addition. *)
Fixpoint read_request (reads : list (option bytes)) (buffer : bytes) (expected : option Z)
    : outcome unit (option bytes) :=
  match reads with
  | [] => Err tt
  | None :: _ => Err tt
  | Some chunk :: reads =>
      if bool_decide (chunk = []) then Ok (Some buffer)
      else if MAX_REQUEST_SIZE <? Z.of_nat (length buffer + length chunk) then Ok None
      else
        let buffer := (buffer ++ chunk)%list in
        let expected :=
          match expected with Some t => Some (Some t) | None => expected_length buffer end in
        match expected with
        | None => Panic
        | Some expected =>
            match expected with
            | Some total =>
                if total <=? Z.of_nat (length buffer) then Ok (Some buffer)
                else read_request reads buffer expected
            | None => read_request reads buffer expected
            end
        end
  end.
End Reading.

(** ** Taking a request apart *)

(** [s.split("\r\n\r\n")], its first piece and its second one when there is one. *)
Definition first_piece (b : bytes) : bytes :=
  match header_end b with Some e => take e b | None => b end.
Definition second_piece (b : bytes) : option bytes :=
  match header_end b with Some e => Some (first_piece (drop (e + 4) b)) | None => None end.

(** [split_whitespace]: the runs between white space; [word] is the run being read. *)
Definition push_word (word : list Z) (words : list (list Z)) : list (list Z) :=
  match word with [] => words | _ => rev word :: words end.
Fixpoint split_ws (word : list Z) (l : list Z) : list (list Z) :=
  match l with
  | [] => push_word word []
  | a :: l1 =>
      if ws1 a then push_word word (split_ws [] l1) else
      match l1 with
      | b :: l2 =>
          if ws2 a b then push_word word (split_ws [] l2) else
          match l2 with
          | c :: l3 => if ws3 a b c then push_word word (split_ws [] l3) else split_ws (a :: word) l1
          | [] => split_ws (a :: word) l1
          end
      | [] => split_ws (a :: word) l1
      end
  end.
Definition split_whitespace (s : string) : list string := string_of_bytes <$> split_ws [] (string_bytes s).

Record ParsedRequest := {
  pr_method : string;
  pr_path : string;
  pr_headers : string;
  pr_body : string;
}.
Definition parse_request (buffer : bytes) : ParsedRequest :=
  let request := utf8_lossy buffer in
  let words := match str_lines (string_of_bytes request) with line :: _ => split_whitespace line | [] => [] end in
  let path := default "/" (words !! 1%nat) in
  {| pr_method := default "GET" (words !! 0%nat);
     pr_path := default path (head (str_split path 63));
     pr_headers := string_of_bytes (first_piece request);
     pr_body := string_of_bytes (default [] (second_piece request)) |}.

(** ** Authentication *)

Fixpoint bearer_line (prefix : string) (lines : list string) : option string :=
  match lines with
  | [] => None
  | line :: lines =>
      match strip_prefix line prefix with
      | Some value => Some (trim value)
      | None => bearer_line prefix lines
      end
  end.
Definition verify_auth_token (request_headers expected_token : string) : bool :=
  let lines := str_lines request_headers in
  match bearer_line "Authorization: Bearer " lines with
  | Some value => bool_decide (value = expected_token)
  | None =>
      match bearer_line "authorization: Bearer " lines with
      | Some value => bool_decide (value = expected_token)
      | None => false
      end
  end.

(** [POLE_API_TOKEN], when it is set and not empty. *)
Definition read_api_token (env : option string) : option string :=
  match env with Some t => if str_is_empty t then None else Some t | None => None end.

(** ** Endpoints *)

Inductive View :=
  | StatusView | GamingView | DashboardData | BlockchainView | StorageView | TokenomicsView | MetaView
  | UpdateView | GitStatusView | ChannelStatusView | ConfigData | LogsView | TransfersView.

Inductive ApiAction :=
  | StaticAsset (content_type : string)
  | Report (v : View)
  | UpdateAction (action body : string)
  | GitSync
  | SetChannel (body : string)
  | CheckUpdates
  | SyncUpdates
  | SetConfig (body : string)
  | ServiceAction (action body : string)
  | OpenWalletFolder
  | WalletTransfer (body : string)
  | NotFound.

Definition get_routes : list (string * ApiAction) :=
  [ ("/", StaticAsset "text/html; charset=utf-8"); ("/index.html", StaticAsset "text/html; charset=utf-8");
    ("/app.css", StaticAsset "text/css; charset=utf-8"); ("/app.js", StaticAsset "text/javascript; charset=utf-8");
    ("/api/status", Report StatusView); ("/api/gaming", Report GamingView);
    ("/api/dashboard", Report DashboardData); ("/api/blockchain", Report BlockchainView);
    ("/api/storage", Report StorageView); ("/api/tokenomics", Report TokenomicsView);
    ("/api/meta", Report MetaView); ("/api/update", Report UpdateView);
    ("/api/git/status", Report GitStatusView); ("/api/update/status", Report ChannelStatusView);
    ("/api/config", Report ConfigData); ("/api/logs", Report LogsView);
    ("/api/wallet/open-folder", OpenWalletFolder); ("/api/wallet/transfers", Report TransfersView) ].
Definition post_routes (body : string) : list (string * ApiAction) :=
  [ ("/api/update/stage", UpdateAction "stage" body); ("/api/update/apply", UpdateAction "apply" body);
    ("/api/update/rollback", UpdateAction "rollback" body);
    ("/api/update/commit-install", UpdateAction "commit-install" body);
    ("/api/git/sync", GitSync); ("/api/update/channel", SetChannel body);
    ("/api/update/check", CheckUpdates); ("/api/update/sync", SyncUpdates);
    ("/api/config", SetConfig body);
    ("/api/service/install", ServiceAction "install" body);
    ("/api/service/uninstall", ServiceAction "uninstall" body);
    ("/api/service/start", ServiceAction "start" body); ("/api/service/stop", ServiceAction "stop" body);
    ("/api/service/status", ServiceAction "status" body);
    ("/api/wallet/open-folder", OpenWalletFolder); ("/api/wallet/transfer", WalletTransfer body) ].

Fixpoint find_route (path : string) (routes : list (string * ApiAction)) : ApiAction :=
  match routes with
  | [] => NotFound
  | (p, a) :: routes => if bool_decide (path = p) then a else find_route path routes
  end.
Definition route (method path body : string) : ApiAction :=
  if bool_decide (method = "GET") then find_route path get_routes
  else if bool_decide (method = "POST") then find_route path (post_routes body)
  else NotFound.

(** What a connection comes to. *)
Inductive Handled := TooLarge | Unauthorized | Dispatched (a : ApiAction).

Definition dispatch (token : option string) (buffer : bytes) : Handled :=
  let r := parse_request buffer in
  let refused :=
    bool_decide (pr_method r = "POST")
    && match token with Some expected => negb (verify_auth_token (pr_headers r) expected) | None => false end in
  if refused then Unauthorized else Dispatched (route (pr_method r) (pr_path r) (pr_body r)).

Definition handle_connection `{BuildMode} (token : option string) (reads : list (option bytes))
    : outcome unit Handled :=
  do? request <- read_request reads [] None;
  match request with None => Ok TooLarge | Some buffer => Ok (dispatch token buffer) end.

(** ** The configuration *)

Record ConfigUpdateRequest := {
  cu_target_app_ids : option (list AppId);
  cu_game_process_names : option (list string);
  cu_low_impact_mode : option bool;
  cu_os_background_priority : option bool;
  cu_emission_year : option Z;
  cu_reward_source : option string;
  cu_reward_address : option string;
}.

Definition with_runtime (rt : RuntimeConfig) (req : ConfigUpdateRequest) : RuntimeConfig := {|
  data_dir := data_dir rt; poll_interval_secs := poll_interval_secs rt;
  slots_per_epoch := slots_per_epoch rt; rt_challenge_window_blocks := rt_challenge_window_blocks rt;
  low_impact_mode := default (low_impact_mode rt) (cu_low_impact_mode req);
  os_background_priority := default (os_background_priority rt) (cu_os_background_priority req);
  game_active_poll_interval_secs := game_active_poll_interval_secs rt;
  game_process_names := default (game_process_names rt) (cu_game_process_names req);
  target_app_ids := default (target_app_ids rt) (cu_target_app_ids req);
  p2p_simulation := p2p_simulation rt; p2p_socket := p2p_socket rt;
  activity_sources := activity_sources rt |}.
Definition with_reward (rw : RewardConfig) (source : RewardSourceMode) (req : ConfigUpdateRequest)
    : RewardConfig := {|
  reward_source := source; rc_emission_year := default (rc_emission_year rw) (cu_emission_year req);
  rc_reward_block_secs := rc_reward_block_secs rw; player_block_reward := player_block_reward rw;
  reward_adjustment_period_blocks := reward_adjustment_period_blocks rw;
  rc_target_network_weight_units := rc_target_network_weight_units rw;
  rc_reward_adjustment_cap_bps := rc_reward_adjustment_cap_bps rw;
  rc_collect_reward_bps := rc_collect_reward_bps rw; rc_store_reward_bps := rc_store_reward_bps rw;
  rc_verify_reward_bps := rc_verify_reward_bps rw; rc_propose_reward_bps := rc_propose_reward_bps rw;
  rc_tail_emission_start_year := rc_tail_emission_start_year rw;
  rc_tail_emission_rate_bps := rc_tail_emission_rate_bps rw; game_mappings := game_mappings rw |}.

(** Errors: of the configuration, or the message of the function itself. *)
Inductive ConfigUpdateError := ConfigError (e : NodeConfigError) | BadRewardSource (got : string).

Definition parse_reward_source (current : RewardSourceMode) (requested : option string)
    : outcome ConfigUpdateError RewardSourceMode :=
  match requested with
  | None => Ok current
  | Some s =>
      if bool_decide (s = "static") then Ok Static
      else if bool_decide (s = "tokenomics") then Ok Tokenomics
      else Err (BadRewardSource s)
  end.

Definition requested_config (c : NodeConfig) (source : RewardSourceMode) (req : ConfigUpdateRequest)
    : NodeConfig := {|
  nc_chain_id := nc_chain_id c; node_id_hex := node_id_hex c;
  reward_address_hex :=
    match cu_reward_address req with
    | Some a => if str_is_empty (trim a) then reward_address_hex c else trim a
    | None => reward_address_hex c
    end;
  nc_capabilities := nc_capabilities c; nc_collect := nc_collect c;
  runtime := with_runtime (runtime c) req; nc_storage := nc_storage c;
  nc_reward := with_reward (nc_reward c) source req |}.

(** The state is what the file holds; [save_json] validates before it writes. *)
Definition update_config (req : ConfigUpdateRequest)
    : M (outcome NodeConfigError NodeConfig) ConfigUpdateError NodeConfig :=
  file <- gets id ;;
  config <- lift (map_err ConfigError (load_json file)) ;;
  source <- lift (parse_reward_source (reward_source (nc_reward config)) (cu_reward_source req)) ;;
  let config := requested_config config source req in
  lift (map_err ConfigError (validate_node_config config)) ;;;
  modify (λ _, Ok config) ;;;
  file <- gets id ;;
  lift (map_err ConfigError (load_json file)).

(** ** Log excerpts *)

(** [&text[text.len() - max_chars..]]; [None] is the panic of a slice inside a character. *)
Definition tail_text (content : option string) (max_chars : Z) : option string :=
  let text := default "" content in
  if str_len text <=? max_chars then Some text
  else slice_from text (Z.to_nat (str_len text - max_chars)).

Fixpoint collect_logs (logs : list (string * option string)) : option (list (string * string)) :=
  match logs with
  | [] => Some []
  | (source, None) :: logs => collect_logs logs
  | (source, Some content) :: logs =>
      text ← tail_text (Some content) 8192;
      rest ← collect_logs logs;
      Some ((source, text) :: rest)
  end.

(** ** The local wallet *)

Record LocalTransferRecord := {
  lt_tx_hash : string;
  lt_from : string;
  lt_to : string;
  lt_amount : Z;
  lt_fee : Z;
  lt_timestamp_millis : Z;
  lt_memo : string;
  lt_status : string;
}.
Record WalletTransferRequest := {
  wr_to_address : string;
  wr_amount : Z;
  wr_fee : option Z;
  wr_memo : option string;
}.
Record WalletTransferResponse := {
  wt_tx_hash : string;
  wt_from_address : string;
  wt_to_address : string;
  wt_amount : Z;
  wt_fee : Z;
  wt_remaining_balance : Z;
  wt_timestamp_millis : Z;
  wt_status : string;
}.

(** The messages of the function, by what they say. *)
Inductive WalletError :=
  | AmountNotPositive | AddressEmpty | AddressInvalid | TransferToSelf
  | InsufficientBalance (available required fee : Z)
  | WalletConfigError (e : NodeConfigError)
  | WalletIo (e : string).

(** The folder of the wallet: the identity is copied into it once, and opening it shows the
    copy when there is one. Creating, copying and writing succeed here; their errors are
    ignored by the code. *)
Record WalletDir := {
  wd_exists : bool;
  wd_identity : option string;
  wd_readme : bool;
}.
Definition open_wallet_keys_dir (root_identity : option string) (d : WalletDir) : WalletDir * bool :=
  let identity := match wd_identity d with Some k => Some k | None => root_identity end in
  ({| wd_exists := true; wd_identity := identity; wd_readme := true |}, bool_decide (is_Some identity)).

(** The file of the transfers: [None] when it is missing, cannot be read or does not parse,
    all of which count as no transfers. *)
Definition load_wallet_transfers (file : option (list LocalTransferRecord)) : list LocalTransferRecord :=
  default [] file.

(** How writing the file ends: [fs::write] empties it before it writes, so that a write that
    fails half-way leaves a file that does not parse. *)
Inductive SaveOutcome := Saved | SaveRefused (e : string) | SaveTruncated (e : string).
Definition save_wallet_transfers (o : SaveOutcome) (records : list LocalTransferRecord)
    : M (option (list LocalTransferRecord)) WalletError unit :=
  match o with
  | Saved => modify (λ _, Some records)
  | SaveRefused e => m_throw (WalletIo e)
  | SaveTruncated e => modify (λ _, None) ;;; m_throw (WalletIo e)
  end.

Section Wallet.
Context `{BuildMode} `{External} `{ProofExternal}.
(** [str::to_lowercase], with the tables of Unicode. *)
Context (to_lowercase : string → string).

(** A transfer as the wallet takes it: the destination in lower case, its amount and fee. *)
Definition spent_of (t : LocalTransferRecord) : Z := saturating_add 64 (lt_amount t) (lt_fee t).

Definition is_valid_hex (to_clean : string) : bool :=
  (str_len to_clean =? 64) && forallb is_hex_digit (string_bytes to_clean).
Definition is_valid_bech (to_clean : string) : bool :=
  starts_with to_clean "pole1" || starts_with to_clean "cosmos1".

Definition signed_transfer (keypair : KeyPair) (to : bytes) (amount fee nonce : Z) : option TransferTx :=
  let tx sig := {|
    tr_from := kp_address keypair; tr_to := to; tr_amount := amount; tr_fee := fee;
    tr_nonce := nonce; tr_pubkey := public keypair; tr_signature := sig |} in
  payload ← signing_payload (Transfer (tx []));
  Some (tx (sign keypair payload)).

(** The checks and the record of a transfer, from the records that were read. *)
Definition prepare_transfer (config : NodeConfig) (identity : outcome NodeConfigError KeyPair)
    (verified_reward now_millis : Z) (transfers : list LocalTransferRecord) (req : WalletTransferRequest)
    : outcome WalletError (LocalTransferRecord * WalletTransferResponse) :=
  if wr_amount req =? 0 then Err AmountNotPositive else
  let to_clean := to_lowercase (trim (wr_to_address req)) in
  if str_is_empty to_clean then Err AddressEmpty else
  if negb (is_valid_hex to_clean) && negb (is_valid_bech to_clean) then Err AddressInvalid else
  let from_address := effective_reward_address_hex config in
  if bool_decide (to_clean = to_lowercase from_address) then Err TransferToSelf else
  match sum_from 64 0 (spent_of <$> transfers) with
  | None => Panic
  | Some total_spent =>
      let available_balance := saturating_sub verified_reward total_spent in
      let fee := default 0 (wr_fee req) in
      let required := saturating_add 64 (wr_amount req) fee in
      if available_balance <? required then Err (InsufficientBalance available_balance required fee) else
      do? keypair <- map_err WalletConfigError identity;
      do? to_bytes <- (if is_valid_hex to_clean
                       then map_err WalletConfigError (decode_hex_32 to_clean "to_address")
                       else Ok (stable_hash32 (string_bytes to_clean)));
      match signed_transfer keypair to_bytes (wr_amount req) fee (Z.of_nat (length transfers)) with
      | None => Panic
      | Some tx =>
          let tx_bytes := default [] (borsh_tx (Transfer tx)) in
          let tx_hash := hex_32 (stable_hash32 tx_bytes) in
          Ok ({| lt_tx_hash := tx_hash; lt_from := from_address; lt_to := to_clean;
                 lt_amount := wr_amount req; lt_fee := fee; lt_timestamp_millis := now_millis;
                 lt_memo := default "" (wr_memo req); lt_status := "Confirmed" |},
              {| wt_tx_hash := tx_hash; wt_from_address := from_address; wt_to_address := to_clean;
                 wt_amount := wr_amount req; wt_fee := fee;
                 wt_remaining_balance := saturating_sub available_balance required;
                 wt_timestamp_millis := now_millis; wt_status := "Confirmed" |})
      end
  end.

(** One transfer: the records are read, and written back with the new one at the end. *)
Definition execute_wallet_transfer (config : NodeConfig) (identity : outcome NodeConfigError KeyPair)
    (verified_reward now_millis : Z) (saved : SaveOutcome) (req : WalletTransferRequest)
    : M (option (list LocalTransferRecord)) WalletError WalletTransferResponse :=
  transfers <- gets load_wallet_transfers ;;
  p <- lift (prepare_transfer config identity verified_reward now_millis transfers req) ;;
  save_wallet_transfers saved (transfers ++ [p.1])%list ;;;
  m_ret p.2.

End Wallet.

(** * Lemmas and theorems *)

(** ** Requests arrive whole *)

Lemma header_end_bound b e : header_end b = Some e → (e + 4 <= length b)%nat.
Proof.
  revert e. induction b as [|x b IH]; intros e; cbn [header_end]; [done|].
  case_bool_decide as Hb.
  - intros [= <-]. apply (f_equal length) in Hb. rewrite length_take in Hb. cbn [length crlf2] in *. lia.
  - destruct (header_end b) as [e'|]; intros [= <-]. specialize (IH e' eq_refl). simpl. lia.
Qed.

Lemma header_end_app b c e : header_end b = Some e → header_end (b ++ c)%list = Some e.
Proof.
  revert e. induction b as [|x b IH]; intros e He; [done|].
  pose proof (header_end_bound _ _ He) as Hlen. cbn [header_end app] in *.
  replace (take 4 (x :: b ++ c)%list) with (take 4 (x :: b)).
  2: { rewrite app_comm_cons. rewrite take_app_le; [done|simpl in *; lia]. }
  case_bool_decide; [done|]. destruct (header_end b) as [e'|]; [|done].
  by rewrite (IH e' eq_refl).
Qed.

Section ReadingLemmas.
Context `{BuildMode}.

Lemma expected_length_ok b e :
  header_end b = Some e → 0 <= content_length (take e b) →
  Z.of_nat e + 4 + content_length (take e b) <= MAX_REQUEST_SIZE →
  expected_length b = Some (Some (Z.of_nat e + 4 + content_length (take e b))).
Proof.
  intros He H0 Hmax. unfold expected_length. rewrite He. unfold MAX_REQUEST_SIZE in *.
  unfold add. rewrite arith_exact by lia. cbn [mbind option_bind]. by rewrite arith_exact by lia.
Qed.

(** C37: However a request is cut into chunks, it is read whole and nothing further is waited for:
    when its body has the announced length and it fits the limit, the loop returns exactly its
    bytes as soon as they have arrived, whether the client then keeps the connection open, closes
    it, or anything else follows. *)
Theorem request_reassembled chunks rest msg e :
  Forall (λ c, c ≠ []) chunks → concat chunks = msg →
  header_end msg = Some e →
  Z.of_nat (length msg) = Z.of_nat e + 4 + content_length (take e msg) →
  Z.of_nat (length msg) <= MAX_REQUEST_SIZE →
  read_request ((Some <$> chunks) ++ rest)%list [] None = Ok (Some msg).
Proof.
  intros Hne Hcat He Hlen Hmax. pose proof (header_end_bound _ _ He) as Hbound.
  assert (Hgen : ∀ chunks buffer expected,
    Forall (λ c, c ≠ []) chunks → (buffer ++ concat chunks)%list = msg → (length buffer < length msg)%nat →
    (expected = None ∨ expected = Some (Z.of_nat (length msg))) →
    read_request ((Some <$> chunks) ++ rest)%list buffer expected = Ok (Some msg));
    [|apply Hgen; simpl; [done|done|lia|by left]].
  clear chunks Hne Hcat. induction chunks as [|c chunks IH]; intros buffer expected Hne Hcat Hshort Hexp.
  { exfalso. simpl in Hcat. rewrite app_nil_r in Hcat. subst. lia. }
  apply Forall_cons in Hne as [Hc Hne]. rewrite fmap_cons. cbn [read_request concat app] in *.
  rewrite bool_decide_eq_false_2 by done. rewrite app_assoc in Hcat.
  assert (length buffer + length c <= length msg)%nat as Hle.
  { rewrite <- Hcat, !length_app. lia. }
  rewrite (proj2 (Z.ltb_ge _ _)) by lia.
  set (buf := (buffer ++ c)%list) in *.
  assert (Z.of_nat (length msg) <= Z.of_nat (length buf) → buf = msg) as Hfull.
  { intros Hge. rewrite <- Hcat in Hge |- *. rewrite length_app in Hge.
    assert (concat chunks = []) as -> by (apply nil_length_inv; lia). by rewrite app_nil_r. }
  assert (match Some (Z.of_nat (length msg)) with
    | Some total => if total <=? Z.of_nat (length buf) then Ok (Some buf)
                    else read_request ((Some <$> chunks) ++ rest)%list buf (Some (Z.of_nat (length msg)))
    | None => Err tt
    end = Ok (Some msg)) as Hstep.
  { destruct (Z.leb_spec (Z.of_nat (length msg)) (Z.of_nat (length buf))) as [Hge|Hlt].
    - by rewrite Hfull.
    - apply IH; [done|done|lia|by right]. }
  destruct Hexp as [->| ->]; [|exact Hstep].
  destruct (header_end buf) as [e'|] eqn:Eb.
  - pose proof (header_end_app _ (concat chunks) _ Eb) as Hm. rewrite Hcat, He in Hm. injection Hm as ->.
    pose proof (header_end_bound _ _ Eb) as Hb.
    assert (take e' buf = take e' msg) as Ht by (rewrite <- Hcat, take_app_le by lia; done).
    rewrite (expected_length_ok buf e') by (rewrite ?Ht; first [done | lia]).
    rewrite Ht, <- Hlen. exact Hstep.
  - unfold expected_length. rewrite Eb. apply IH; [done|done| |by left].
    destruct (decide (length msg <= length buf)%nat) as [Hge|]; [|lia].
    rewrite Hfull, He in Eb by lia. done.
Qed.
End ReadingLemmas.

(** ** Authentication *)

(** The actions that change something: all but pages and reports. *)
Definition mutating (a : ApiAction) : bool :=
  match a with StaticAsset _ | Report _ | NotFound => false | _ => true end.

Lemma bearer_line_some prefix lines value :
  bearer_line prefix lines = Some value →
  ∃ line v, line ∈ lines ∧ strip_prefix line prefix = Some v ∧ value = trim v.
Proof.
  induction lines as [|line lines IH]; simpl; [done|].
  destruct (strip_prefix line prefix) as [v|] eqn:E.
  - intros [= <-]. exists line, v. set_solver.
  - intros (line' & v & ? & ?)%IH. exists line', v. set_solver.
Qed.

Lemma find_route_get path :
  mutating (find_route path get_routes) = true →
  path = "/api/wallet/open-folder" ∧ find_route path get_routes = OpenWalletFolder.
Proof. unfold get_routes. cbn [find_route]. by repeat (case_bool_decide; [|]). Qed.

(** C38: Where a token is configured, an action that changes something runs only for a POST request
    with a header line that carries the token, with one exception: preparing and opening the
    wallet's folder, which copies the identity into it, also runs for the GET request of its path,
    without a token. *)
Theorem mutations_need_token token buffer a :
  dispatch (Some token) buffer = Dispatched a → mutating a = true →
  let r := parse_request buffer in
  (pr_method r = "POST" ∧ ∃ line v, line ∈ str_lines (pr_headers r) ∧ trim v = token ∧
    (strip_prefix line "Authorization: Bearer " = Some v ∨ strip_prefix line "authorization: Bearer " = Some v)) ∨
  (pr_method r = "GET" ∧ pr_path r = "/api/wallet/open-folder" ∧ a = OpenWalletFolder).
Proof.
  unfold dispatch. set (r := parse_request buffer). case_bool_decide as Hpost; cbn [andb].
  - destruct (verify_auth_token (pr_headers r) token) eqn:Ev; cbn [negb]; [|done]. intros _ _.
    left. split; [done|]. unfold verify_auth_token in Ev.
    destruct (bearer_line "Authorization: Bearer " _) as [x|] eqn:E1.
    + apply bool_decide_eq_true in Ev as ->. apply bearer_line_some in E1 as (line & v & ? & ? & ->). eauto 10.
    + destruct (bearer_line "authorization: Bearer " _) as [x|] eqn:E2; [|done].
      apply bool_decide_eq_true in Ev as ->. apply bearer_line_some in E2 as (line & v & ? & ? & ->). eauto 10.
  - intros [= <-] Hm. unfold route in *. case_bool_decide as Hget; [|by rewrite bool_decide_eq_false_2 in Hm].
    apply find_route_get in Hm as [Hp Ha]. right. done.
Qed.

(** ** The configuration file stays valid *)

(** An update is either refused, and the file is as before, or the file holds a valid
    configuration that agrees with the request. *)
Theorem config_update_valid req c out file :
  update_config req (Ok c) = (out, file) → validate_node_config c = Ok tt →
  file = Ok c ∧ (∀ c', out ≠ Ok c') ∨
  ∃ source c', parse_reward_source (reward_source (nc_reward c)) (cu_reward_source req) = Ok source ∧
    c' = requested_config c source req ∧ out = Ok c' ∧ file = Ok c' ∧ validate_node_config c' = Ok tt.
Proof.
  unfold update_config, m_bind, gets, lift, modify, id. intros Hx Hv.
  cbn [load_json outcome_bind] in Hx. rewrite Hv in Hx. cbn [outcome_bind map_err] in Hx.
  destruct (parse_reward_source _ _) as [source| |] eqn:Es; [|simplify_eq; left; done..].
  destruct (validate_node_config (requested_config c source req)) as [[]|e|] eqn:Ec;
    cbn [map_err outcome_bind load_json] in Hx; [|simplify_eq; left; done..].
  cbn [outcome_bind map_err] in Hx. simplify_eq. right. eauto 10.
Qed.

(** ** The wallet *)

Section WalletTheorems.
Context `{BuildMode} `{External} `{ProofExternal} (to_lowercase : string → string).

(** What the recorded transfers take away. *)
Definition total_spent (ts : list LocalTransferRecord) : Z := lsum (λ t, lt_amount t + lt_fee t) ts.
Definition record_ok (t : LocalTransferRecord) : Prop := 0 <= lt_amount t ∧ 0 <= lt_fee t.
Definition request_ok (r : WalletTransferRequest) : Prop := 0 <= wr_amount r ∧ 0 <= default 0 (wr_fee r).

Lemma spent_exact ts :
  Forall record_ok ts → total_spent ts < 2 ^ 64 →
  0 <= total_spent ts ∧ lsum id (spent_of <$> ts) = total_spent ts ∧ ∀ x, x ∈ (spent_of <$> ts) → 0 <= x.
Proof.
  unfold total_spent. induction 1 as [|t ts [H1' H2'] Hts IH]; simpl; intros Hlt.
  { split_and!; [done|done|set_solver]. }
  assert (0 <= lsum (λ t, lt_amount t + lt_fee t) ts) as Hnn.
  { clear -Hts. induction Hts as [|u us [??] _ IH]; simpl; lia. }
  destruct IH as (_ & IHs & IHp); [lia|].
  assert (spent_of t = lt_amount t + lt_fee t) as Ht by (unfold spent_of; apply saturating_add_exact; lia).
  split_and!; [lia| |].
  { change (spent_of t + lsum id (spent_of <$> ts) =
      lt_amount t + lt_fee t + lsum (λ t, lt_amount t + lt_fee t) ts). lia. }
  intros x [->|Hx]%elem_of_cons; [lia|by apply IHp].
Qed.

(** A transfer that is accepted fits what is left, is recorded at the end of the file, and the
    response tells what remains; otherwise the file is as before. *)
Definition entry_of_record (t : LocalTransferRecord) : string * Z * Z := (lt_tx_hash t, lt_amount t, lt_fee t).
Definition entry_of_response (r : WalletTransferResponse) : string * Z * Z := (wt_tx_hash r, wt_amount r, wt_fee r).

Lemma transfer_spec config identity reward now saved req file out file' :
  execute_wallet_transfer to_lowercase config identity reward now saved req file = (out, file') →
  (∀ e, saved ≠ SaveTruncated e) →
  let ts := load_wallet_transfers file in
  0 <= reward < umax 64 → Forall record_ok ts → request_ok req → total_spent ts <= reward →
  (file' = file ∧ ∀ r, out ≠ Ok r) ∨
  ∃ t r, file' = Some (ts ++ [t])%list ∧ out = Ok r ∧ record_ok t ∧ entry_of_record t = entry_of_response r ∧
    total_spent (ts ++ [t])%list <= reward ∧ wt_remaining_balance r = reward - total_spent (ts ++ [t])%list.
Proof.
  unfold execute_wallet_transfer, m_bind, gets, lift, m_ret. unfold umax. cbv zeta.
  set (ts := load_wallet_transfers file).
  intros Hx Hsave Hr Hts [Ha Hf] Htot. destruct (spent_exact ts Hts) as (Hnn & Hsum & Hpos); [lia|].
  destruct (prepare_transfer _ _ _ _ _ _ _) as [[t r]|e|] eqn:Ep; simplify_eq/=; [|by left..].
  destruct saved as [|e|e]; [|simplify_eq/=; by left|by destruct (Hsave e)].
  simplify_eq/=. right. exists t, r. unfold prepare_transfer in Ep.
  destruct (_ =? 0); [done|]. destruct (str_is_empty _); [done|]. destruct (_ && _); [done|].
  case_bool_decide; [done|].
  rewrite (sum_from_exact 64 0 (spent_of <$> ts)) in Ep by (try done; lia). rewrite Hsum in Ep.
  set (fee := default 0 (wr_fee req)) in *. unfold saturating_sub, saturating_add, umax in Ep.
  destruct (Z.ltb_spec (Z.max 0 (reward - (0 + total_spent ts)))
    (Z.min (wr_amount req + fee) (2 ^ 64 - 1))) as [?|Hle]; [done|].
  destruct (map_err WalletConfigError identity) as [kp| |]; [|done|done]. cbn [outcome_bind] in Ep.
  destruct (if is_valid_hex _ then _ else _) as [tb| |] in Ep; [|done|done]. cbn [outcome_bind] in Ep.
  destruct (signed_transfer _ _ _ _ _) in Ep; [|done]. injection Ep as <- <-.
  unfold total_spent in *. rewrite lsum_app. cbn [lsum foldr lt_amount lt_fee wt_remaining_balance].
  split_and!; [done|done|done|done|lia|lia].
Qed.

(** One request after the other, each with the reward verified by then and the way its write
    ends: the responses that confirm a transfer, and the file. *)
Record TransferCall := {
  tc_reward : Z;
  tc_now : Z;
  tc_saved : SaveOutcome;
  tc_request : WalletTransferRequest;
}.
Definition call_ok (c : TransferCall) : Prop :=
  0 <= tc_reward c < umax 64 ∧ request_ok (tc_request c) ∧ ∀ e, tc_saved c ≠ SaveTruncated e.

Fixpoint run_transfers (config : NodeConfig) (identity : outcome NodeConfigError KeyPair)
    (calls : list TransferCall) (file : option (list LocalTransferRecord))
    : list WalletTransferResponse * option (list LocalTransferRecord) :=
  match calls with
  | [] => ([], file)
  | c :: calls =>
      let '(out, file) := execute_wallet_transfer to_lowercase config identity (tc_reward c) (tc_now c)
        (tc_saved c) (tc_request c) file in
      let '(rs, file) := run_transfers config identity calls file in
      (match out with Ok r => r :: rs | _ => rs end, file)
  end.

Lemma list_last_cons {A} (x d : A) l : List.last (x :: l) d = List.last l x.
Proof. revert x d. induction l as [|y l IH]; intros x d; [done|]. exact (eq_trans (IH y d) (eq_sym (IH y x))). Qed.

Lemma total_spent_snoc ts t r :
  entry_of_record t = entry_of_response r → total_spent (ts ++ [t])%list = total_spent ts + (wt_amount r + wt_fee r).
Proof.
  unfold entry_of_record, entry_of_response. intros [= _ Ha Hf]. unfold total_spent. rewrite lsum_app.
  simpl. lia.
Qed.

(** C39: Transfers made one after the other never take more than the verified reward: as long as
    the reward does not shrink and no write is cut short, what the file holds at the start and
    every transfer that was confirmed with its fee fit the last verified reward together, and the
    file holds in the end what it held and exactly the confirmed transfers in order. *)
Theorem transfers_within_reward config identity calls reward file :
  let ts := load_wallet_transfers file in
  Forall call_ok calls → Sorted Z.le (reward :: (tc_reward <$> calls)) →
  0 <= reward < umax 64 → Forall record_ok ts → total_spent ts <= reward →
  let run := run_transfers config identity calls file in
  total_spent ts + lsum (λ r, wt_amount r + wt_fee r) run.1 <= List.last (tc_reward <$> calls) reward ∧
  entry_of_record <$> load_wallet_transfers run.2
    = ((entry_of_record <$> ts) ++ (entry_of_response <$> run.1))%list.
Proof.
  cbv zeta. revert reward file.
  induction calls as [|c calls IH]; intros reward file Hcalls Hsort Hr Hts Htot.
  { simpl. rewrite app_nil_r. split; [lia|done]. }
  apply Forall_cons in Hcalls as [(Hrw & Hreq & Hsave) Hcalls].
  rewrite fmap_cons in Hsort. apply Sorted_inv in Hsort as [Hsort Hle]. apply HdRel_inv in Hle.
  cbn [run_transfers]. rewrite fmap_cons, list_last_cons.
  destruct (execute_wallet_transfer to_lowercase config identity _ _ _ _ file) as [out file'] eqn:Ex.
  apply transfer_spec in Ex; [|done..|lia]. cbv zeta in Ex.
  destruct Ex as [[-> Hno]|(t & r & -> & -> & Ht & He & Hlt & _)].
  - specialize (IH (tc_reward c) file Hcalls Hsort Hrw Hts ltac:(lia)).
    destruct (run_transfers config identity calls file) as [rs f]. destruct out as [r| |]; [by destruct (Hno r)|done..].
  - specialize (IH (tc_reward c) (Some (load_wallet_transfers file ++ [t])%list) Hcalls Hsort Hrw).
    destruct (run_transfers config identity calls _) as [rs f]. cbn [fst snd] in *.
    destruct IH as [IH1 IH2]; [apply Forall_app; split; [done|by constructor]|exact Hlt|].
    change (load_wallet_transfers (Some (load_wallet_transfers file ++ [t])%list))
      with (load_wallet_transfers file ++ [t])%list in IH1, IH2.
    rewrite (total_spent_snoc _ _ r He) in IH1. rewrite fmap_app, <- app_assoc in IH2. simpl.
    split; [lia|]. rewrite IH2. simpl. by rewrite He.
Qed.
End WalletTheorems.

(** ** Requests and transfers on concrete input *)

Definition line (s : string) : bytes := (string_bytes s ++ [13; 10])%list.
Definition demo_request (method path : string) (headers : list string) (body : string) : bytes :=
  (line (method ++ " " ++ path ++ " HTTP/1.1") ++ concat (line <$> headers) ++ [13; 10] ++ string_bytes body)%list.

Definition demo_post : bytes :=
  demo_request "POST" "/api/update/stage" ["authorization: Bearer s3cret"; "Content-Length: 2"] "{}".

(** The request in four chunks, cut inside the blank line. *)
Definition demo_chunks : list bytes :=
  [take 10 demo_post; take 72 (drop 10 demo_post); take 3 (drop 82 demo_post); drop 85 demo_post].

#[local] Instance demo_build : BuildMode := true.

Lemma request_reassembled_witness :
  read_request ((Some <$> demo_chunks) ++ [])%list [] None = Ok (Some demo_post).
Proof.
  apply (request_reassembled demo_chunks [] demo_post 80).
  - apply (bool_decide_unpack _). vm_compute. exact I.
  - vm_compute. reflexivity.
  - vm_compute. reflexivity.
  - vm_compute. reflexivity.
  - vm_compute. discriminate.
Defined.

Lemma mutations_need_token_witness :
  pr_method (parse_request demo_post) = "POST" ∧ ∃ line v, line ∈ str_lines (pr_headers (parse_request demo_post)) ∧ trim v = "s3cret" ∧
    (strip_prefix line "Authorization: Bearer " = Some v ∨ strip_prefix line "authorization: Bearer " = Some v).
Proof.
  destruct (mutations_need_token "s3cret" demo_post (UpdateAction "stage" "{}")) as [H|(_ & _ & H)].
  - vm_compute. reflexivity.
  - reflexivity.
  - exact H.
  - discriminate H.
Defined.

(** The wallet's folder is prepared and opened for a GET request, token or not: the identity
    is copied. *)
Example folder_opened_without_token :
  dispatch (Some "s3cret") (demo_request "GET" "/api/wallet/open-folder" [] "") = Dispatched OpenWalletFolder ∧
  wd_identity (open_wallet_keys_dir (Some "key") {| wd_exists := false; wd_identity := None; wd_readme := false |}).1
    = Some "key".
Proof. vm_compute. done. Qed.

(** A content length near the limit of the machine's integers stops a debug build. *)
Example length_overflow_panics :
  read_request [Some (demo_request "GET" "/" ["Content-Length: 18446744073709551615"] "")] [] None = Panic.
Proof. vm_compute. reflexivity. Qed.

(** A log whose last 8192 bytes begin inside a character panics. *)
Definition demo_log : string := string_of_bytes (concat (replicate 2731 [0xE4; 0xBD; 0xA0])).
Example log_cut_inside_character : str_len demo_log = 8193 ∧ collect_logs [("daemon_stdout", Some demo_log)] = None.
Proof. vm_compute. done. Qed.

#[local] Existing Instance demo_external.
#[local] Existing Instance demo_proof_external.

Definition demo_identity : outcome NodeConfigError KeyPair := Ok (from_seed (replicate 32 7)).
Definition demo_transfer (amount : Z) : WalletTransferRequest := {|
  wr_to_address := " POLE1qqqq "; wr_amount := amount; wr_fee := Some 1; wr_memo := None |}.
Definition demo_pay (amount : Z) := prepare_transfer to_ascii_lowercase NodeConfig_default demo_identity 1700 5 [] (demo_transfer amount).

Definition demo_call (reward now : Z) (saved : SaveOutcome) (amount : Z) : TransferCall :=
  {| tc_reward := reward; tc_now := now; tc_saved := saved; tc_request := demo_transfer amount |}.
Definition demo_calls : list TransferCall :=
  [demo_call 1700 5 Saved 900; demo_call 1700 6 Saved 900; demo_call 2550 7 (SaveRefused "read-only") 900;
   demo_call 2550 8 Saved 900].
Definition demo_run (calls : list TransferCall) :=
  run_transfers to_ascii_lowercase NodeConfig_default demo_identity calls None.

Lemma transfers_within_reward_witness :
  let run := demo_run demo_calls in
  0 + lsum (λ r, wt_amount r + wt_fee r) run.1 <= 2550 ∧
  entry_of_record <$> load_wallet_transfers run.2 = entry_of_response <$> run.1.
Proof.
  apply (transfers_within_reward to_ascii_lowercase NodeConfig_default demo_identity demo_calls 850 None).
  - repeat constructor; (intros e; discriminate) || (vm_compute; discriminate).
  - repeat constructor; vm_compute; discriminate.
  - split; vm_compute; [discriminate|reflexivity].
  - constructor.
  - vm_compute. discriminate.
Defined.

(** The second and the third are not confirmed. *)
Example sequential_second_refused : wt_timestamp_millis <$> (demo_run demo_calls).1 = [5; 8].
Proof. vm_compute. reflexivity. Qed.

(** After a write that was cut short the file counts as empty, and what was spent can be
    spent again. *)
Example cut_write_spends_again :
  let run := demo_run [demo_call 1700 5 Saved 900; demo_call 1700 6 (SaveTruncated "disk full") 100;
                       demo_call 1700 7 Saved 900] in
  lsum (λ r, wt_amount r + wt_fee r) run.1 = 1802.
Proof. vm_compute. reflexivity. Qed.

(** Connections are served in threads of their own: two transfers that read the records
    before either writes them are both confirmed, and one record replaces the other. *)
Example concurrent_transfers_both_confirmed :
  match demo_pay 900, demo_pay 1000 with
  | Ok (t1, r1), Ok (t2, r2) =>
      wt_status r1 = "Confirmed" ∧ wt_status r2 = "Confirmed" ∧
      1700 < total_spent [t1; t2] ∧ (* what the file holds in the end *) total_spent ([] ++ [t2])%list = 1001
  | _, _ => False
  end.
Proof. vm_compute. done. Qed.
