(* ===== verification/Genesis.v ===== *)
(** * The genesis document: src/src/genesis_builder/

    [pole-genesis] reads the allocations (a CSV file), the validators and the parameter
    overrides (JSON), checks them and fills the document. The document is a record of the
    parts it fills; its amounts are the decimal strings of the JSON. The hex and Base64
    crates and the JSON of the validators are external. *)
From stdpp Require Import pretty.
From S2P Require Import Prelude Primitives Text ActivitySources ProofBinary.
Local Open Scope pole_scope.
Local Open Scope string_scope.
Local Open Scope Z_scope.

Definition DEFAULT_TOTAL_SUPPLY_UPOLES : Z := 1000000000000000.
Definition MICROS_PER_UPOLES : Z := 1000000.

Inductive GenesisError :=
  | Csv (line : Z) (message : string)
  | Validation (message : string)
  | MissingField (name : string).

Record Allocation := { al_address : string; al_amount_upole : Z }.
Record ValidatorSpec := {
  vs_moniker : string;
  vs_operator_address : string;
  vs_consensus_pubkey_hex : string;
  vs_stake_upole : Z;
}.

(** A parameter's value: a number, or any other JSON text. *)
Inductive ParamValue := Number (n : Z) | Other (json : string).

Record GenesisInputs := {
  gi_chain_id : string;
  gi_allocations : list Allocation;
  gi_validators : list ValidatorSpec;
  (* the members of the overrides, when they are an object *)
  gi_params_overrides : option (list (string * ParamValue));
}.

Class GenesisExternal := {
  (** [hex::decode], with the text of its error *)
  hex_decode : string → outcome string bytes;
  (** [STANDARD.encode] *)
  base64_encode : bytes → string;
}.

(** ** The document *)

Record Balance := { bl_address : string; bl_denom : string; bl_amount : string }.
Record GenesisValidator := {
  gv_operator_address : string;
  gv_key : string;
  gv_tokens : string;
  gv_moniker : string;
}.
Record GenesisEpoch := {
  ge_identifier : string;
  ge_duration : string;
  ge_current_epoch : string;
  ge_start_time : string;
  ge_counting_started : bool;
  ge_start_height : string;
}.
Record GenesisDoc := {
  gd_chain_id : string;
  gd_balances : list Balance;
  gd_supply : list (string * string);
  gd_bond_denom : string;
  gd_validators : list GenesisValidator;
  gd_params : gmap string ParamValue;
  gd_epochs : list GenesisEpoch;
}.

Definition base_hourly_reward : Z :=
  (DEFAULT_TOTAL_SUPPLY_UPOLES * MICROS_PER_UPOLES * 2 / 100) / (365 * 24).

Definition default_pole_params : gmap string ParamValue := list_to_map
  [ ("reward_block_duration_seconds", Number 3600); ("base_hourly_reward", Number base_hourly_reward);
    ("target_network_weight_units", Number 150000000000000); ("reward_adjustment_cap_bps", Number 2000);
    ("challenge_window_blocks", Number 20); ("min_retention_epochs", Number 2);
    ("player_reward_allocation_bps", Number 8000); ("service_reward_allocation_bps", Number 1000);
    ("collect_reward_bps", Number 5000); ("store_reward_bps", Number 2500);
    ("verify_reward_bps", Number 1500); ("propose_reward_bps", Number 1000);
    ("tier1_weight_ppm", Number 1000000); ("tier2_weight_min_ppm", Number 300000);
    ("tier2_weight_max_ppm", Number 600000); ("tier3_weight_min_ppm", Number 50000);
    ("tier3_weight_max_ppm", Number 150000); ("fee_burn_bps", Number 2500);
    ("reward_burn_threshold", Number 10000); ("reward_burn_bps", Number 1000);
    ("governance_burn_bps", Number 100); ("min_verification_count", Number 3);
    ("min_player_verifier_share_bps", Number 5000); ("min_witness_count", Number 2);
    ("min_witness_observation_tolerance_ppm", Number 50000); ("min_distinct_observations", Number 2);
    ("session_slash_bps", Number 5000); ("min_heartbeat_count", Number 2);
    ("heartbeat_bucket_seconds", Number 300); ("min_heartbeat_coverage_bps", Number 5000);
    ("challenge_bond_burn_bps", Number 2500) ].

Definition skeleton (inputs : GenesisInputs) : GenesisDoc := {|
  gd_chain_id := gi_chain_id inputs; gd_balances := []; gd_supply := []; gd_bond_denom := "upole";
  gd_validators := []; gd_params := default_pole_params;
  gd_epochs := [ {| ge_identifier := "hour"; ge_duration := "3600s"; ge_current_epoch := "1";
                    ge_start_time := "2026-06-01T00:00:00Z"; ge_counting_started := true;
                    ge_start_height := "1" |} ] |}.

(** ** Input files *)

(** One line of the allocations, [None] when it is skipped. *)
Definition parse_allocation (number : Z) (raw : string) : outcome GenesisError (option Allocation) :=
  let line := trim raw in
  if str_is_empty line || starts_with line "#" then Ok None else
  match str_split line 44 with
  | [] => Err (Csv number "missing address column")
  | [_] => Err (Csv number "missing amount column")
  | [address; amount_str] =>
      match parse_uint 128 (trim amount_str) with
      | Ok amount => Ok (Some {| al_address := trim address; al_amount_upole := amount |})
      | Err e => Err (Csv number ("invalid amount `" ++ amount_str ++ "`: " ++ e))
      | Panic => Panic
      end
  | _ => Err (Csv number "too many columns (expected 2)")
  end.
Fixpoint parse_allocations (number : Z) (lines : list string) : outcome GenesisError (list Allocation) :=
  match lines with
  | [] => Ok []
  | line :: lines =>
      do? a <- parse_allocation number line;
      do? rest <- parse_allocations (number + 1) lines;
      Ok (match a with Some a => a :: rest | None => rest end)
  end.
Definition load_allocations_csv (raw : string) : outcome GenesisError (list Allocation) :=
  parse_allocations 1 (str_lines raw).

(** ** Building *)

Section Builder.
Context `{BuildMode} `{GenesisExternal}.

Fixpoint validate_validators (l : list ValidatorSpec) : outcome GenesisError unit :=
  match l with
  | [] => Ok tt
  | v :: l =>
      if negb (str_len (vs_consensus_pubkey_hex v) =? 64)
      then Err (Validation ("validator " ++ vs_moniker v ++ " has invalid pubkey length (expected 64 hex chars)"))
      else
        do? _key <- map_err (λ e, Validation ("validator " ++ vs_moniker v ++ " pubkey: " ++ e))
                    (hex_decode (vs_consensus_pubkey_hex v));
        validate_validators l
  end.

Definition validate (inputs : GenesisInputs) : outcome GenesisError unit :=
  if str_is_empty (gi_chain_id inputs) then Err (MissingField "chain_id") else
  if bool_decide (gi_validators inputs = []) then Err (Validation "at least one validator is required") else
  do? total <- or_panic (sum_checked 128 (al_amount_upole <$> gi_allocations inputs));
  if DEFAULT_TOTAL_SUPPLY_UPOLES <? total
  then Err (Validation ("allocations sum " ++ display total ++ " upole exceeds total supply "
                        ++ display DEFAULT_TOTAL_SUPPLY_UPOLES ++ " upole"))
  else validate_validators (gi_validators inputs).

(** The loop over the allocations: a balance each, and the running supply. *)
Fixpoint bank_loop (l : list Allocation) (balances : list Balance) (supply : option Z)
    : outcome GenesisError (list Balance * option Z) :=
  match l with
  | [] => Ok (balances, supply)
  | a :: l =>
      let micros := al_amount_upole a * MICROS_PER_UPOLES in
      if negb (in_width 128 micros) then Err (Validation "overflow on amount") else
      do? supply <- or_panic (add 128 (default 0 supply) micros);
      bank_loop l (balances ++ [{| bl_address := al_address a; bl_denom := "upole"; bl_amount := display micros |}])%list
        (Some supply)
  end.
Definition populate_bank (inputs : GenesisInputs) (doc : GenesisDoc) : outcome GenesisError GenesisDoc :=
  do? r <- bank_loop (gi_allocations inputs) [] None;
  Ok {| gd_chain_id := gd_chain_id doc; gd_balances := r.1;
        gd_supply := match r.2 with Some amount => [("upole", display amount)] | None => [] end;
        gd_bond_denom := gd_bond_denom doc; gd_validators := gd_validators doc;
        gd_params := gd_params doc; gd_epochs := gd_epochs doc |}.

Definition genesis_validator (v : ValidatorSpec) : outcome GenesisError GenesisValidator :=
  do? stake <- or_panic (mul 128 (vs_stake_upole v) MICROS_PER_UPOLES);
  match hex_decode (vs_consensus_pubkey_hex v) with
  | Ok key => Ok {| gv_operator_address := vs_operator_address v; gv_key := base64_encode key;
                    gv_tokens := display stake; gv_moniker := vs_moniker v |}
  | _ => Panic
  end.
Fixpoint staking_loop (l : list ValidatorSpec) : outcome GenesisError (list GenesisValidator) :=
  match l with
  | [] => Ok []
  | v :: l => do? g <- genesis_validator v; do? rest <- staking_loop l; Ok (g :: rest)
  end.
Definition populate_staking (inputs : GenesisInputs) (doc : GenesisDoc) : outcome GenesisError GenesisDoc :=
  do? validators <- staking_loop (gi_validators inputs);
  Ok {| gd_chain_id := gd_chain_id doc; gd_balances := gd_balances doc; gd_supply := gd_supply doc;
        gd_bond_denom := gd_bond_denom doc; gd_validators := validators;
        gd_params := gd_params doc; gd_epochs := gd_epochs doc |}.

Definition populate_pole_params (inputs : GenesisInputs) (doc : GenesisDoc) : GenesisDoc := {|
  gd_chain_id := gd_chain_id doc; gd_balances := gd_balances doc; gd_supply := gd_supply doc;
  gd_bond_denom := gd_bond_denom doc; gd_validators := gd_validators doc;
  gd_params := foldl (λ params kv, <[kv.1 := kv.2]> params) (gd_params doc) (default [] (gi_params_overrides inputs));
  gd_epochs := gd_epochs doc |}.

Definition build (inputs : GenesisInputs) : outcome GenesisError GenesisDoc :=
  do? _valid <- validate inputs;
  do? doc <- populate_bank inputs (skeleton inputs);
  do? doc <- populate_staking inputs doc;
  Ok (populate_pole_params inputs doc).
End Builder.

(** * Lemmas and theorems *)

(** ** Decimal numbers are read back *)

Lemma pretty_digit d :
  (d < 10)%N → parse_digit (Z.of_N (Ascii.N_of_ascii (pretty_N_char d))) = Some (Z.of_N d).
Proof.
  intros Hd. assert (d = 0 ∨ d = 1 ∨ d = 2 ∨ d = 3 ∨ d = 4 ∨ d = 5 ∨ d = 6 ∨ d = 7 ∨ d = 8 ∨ d = 9)%N as Hc by lia.
  by repeat (destruct Hc as [->|Hc]); [..|subst d].
Qed.

Lemma parse_digits_pretty w x s :
  Z.of_N x < 2 ^ w →
  parse_digits w 0 (string_bytes (pretty_N_go x s)) = parse_digits w (Z.of_N x) (string_bytes s).
Proof.
  revert s. induction (N.lt_wf_0 x) as [x _ IH]; intros s Hx.
  destruct (decide (x = 0)%N) as [->|Hn]; [by rewrite pretty_N_go_0|].
  rewrite pretty_N_go_step by lia.
  pose proof (N.div_mod x 10 ltac:(done)) as Hdm. pose proof (N.mod_lt x 10 ltac:(done)) as Hm.
  assert (x `div` 10 <= x)%N as Hle by (apply N.Div0.div_le_upper_bound; lia).
  rewrite IH; [|apply N.div_lt; lia|apply N2Z.inj_le in Hle; lia].
  rewrite string_bytes_cons. cbn [parse_digits]. rewrite pretty_digit by done.
  replace (10 * Z.of_N (x `div` 10)%N + Z.of_N (x `mod` 10)%N) with (Z.of_N x)
    by (rewrite Hdm at 1; rewrite N2Z.inj_add, N2Z.inj_mul; reflexivity).
  by rewrite (proj2 (Z.ltb_lt _ _) Hx).
Qed.

Lemma parse_display w n : 0 <= n < 2 ^ w → parse_uint w (display n) = Ok n.
Proof.
  intros [H0 Hn]. pose proof (display_digits n H0) as Hd.
  assert (parse_digits w 0 (string_bytes (display n)) = Ok n) as Hp.
  { unfold display, pretty, pretty_Z. destruct n as [|p|p]; [| |lia].
    - change ((if 0 <? 2 ^ w then Ok 0 else Err "number too large to fit in target type") = @Ok string Z 0).
      by rewrite (proj2 (Z.ltb_lt _ _) Hn).
    - exact (parse_digits_pretty w (N.pos p) "" Hn). }
  unfold parse_uint. destruct (string_bytes (display n)) as [|b l] eqn:E.
  - unfold display, pretty, pretty_Z in E. destruct n as [|p|p]; [done| |lia].
    exfalso.
    assert (∀ x s, s ≠ "" → pretty_N_go x s ≠ "") as Hne.
    { clear. intros x. induction (N.lt_wf_0 x) as [x _ IH]; intros s Hs.
      destruct (decide (x = 0)%N) as [->|]; [by rewrite pretty_N_go_0|].
      rewrite pretty_N_go_step by lia. apply IH; [apply N.div_lt; lia|done]. }
    assert (pretty_N_go (N.pos p) "" ≠ "") as Hgo by (rewrite pretty_N_go_step by lia; by apply Hne).
    apply Hgo. rewrite <- (string_of_string_bytes (pretty_N_go (N.pos p) "")). exact (f_equal string_of_bytes E).
  - apply Forall_cons in Hd as [Hb _].
    assert (b ≠ 43) by lia. repeat case_match; simplify_eq; done.
Qed.

(** ** Allocations are read back *)

(** A printable address: ASCII without white space and commas, and not a comment. *)
Definition address_ok (a : string) : Prop :=
  Forall (λ b, 33 <= b <= 126 ∧ b ≠ 44) (string_bytes a) ∧ a ≠ "" ∧ starts_with a "#" = false.
#[export] Instance address_ok_dec a : Decision (address_ok a).
Proof. unfold address_ok. apply _. Defined.

Definition csv_line (a : Allocation) : list Z :=
  (string_bytes (al_address a) ++ 44 :: string_bytes (display (al_amount_upole a)))%list.
Definition csv_text (l : list Allocation) : string :=
  string_of_bytes (concat ((λ a, (csv_line a ++ [10])%list) <$> l)).

Lemma printable_no_ws a b c : 33 <= a <= 126 → ws1 a = false ∧ ws2 a b = false ∧ ws3 a b c = false.
Proof.
  intros Ha. unfold ws1, ws2, ws3. rewrite !(proj2 (Z.eqb_neq a _)) by lia.
  rewrite (proj2 (Z.leb_gt a 13)) by lia. by rewrite andb_false_r.
Qed.

Lemma trim_printable l : Forall (λ b, 33 <= b <= 126) l → trim_bytes l = l.
Proof.
  assert (∀ l, Forall (λ b, 33 <= b <= 126) l → trim_start_bytes l = l) as Hs.
  { clear. intros [|a [|b [|c l]]] Hl; cbn [trim_start_bytes]; [done|..];
      apply Forall_cons in Hl as [Ha _].
    - by destruct (printable_no_ws a 0 0 Ha) as (-> & _).
    - by destruct (printable_no_ws a b 0 Ha) as (-> & -> & _).
    - by destruct (printable_no_ws a b c Ha) as (-> & -> & ->). }
  assert (∀ l, Forall (λ b, 33 <= b <= 126) l → trim_end_rev l = l) as He.
  { clear. intros [|c [|b [|a l]]] Hl; cbn [trim_end_rev]; [done|..];
      apply Forall_cons in Hl as [Hc Hl]; destruct (printable_no_ws c 0 0 Hc) as (-> & _); [done|..];
      apply Forall_cons in Hl as [Hb Hl]; destruct (printable_no_ws b c 0 Hb) as (_ & -> & _); [done|].
    apply Forall_cons in Hl as [Ha _]. by destruct (printable_no_ws a b c Ha) as (_ & _ & ->). }
  intros Hl. unfold trim_bytes. rewrite Hs by done. rewrite He by (by apply Forall_rev). apply rev_involutive.
Qed.

Lemma csv_line_printable a :
  address_ok (al_address a) → 0 <= al_amount_upole a → Forall (λ b, 33 <= b <= 126) (csv_line a).
Proof.
  intros (Ha & _ & _) H0. unfold csv_line. apply Forall_app. split.
  - eapply Forall_impl; [exact Ha|]. simpl. lia.
  - constructor; [lia|]. eapply Forall_impl; [by apply display_digits|]. simpl. lia.
Qed.

Lemma printable_bytes l : Forall (λ b, 33 <= b <= 126) l → Forall is_byte l.
Proof. intros Hl. eapply Forall_impl; [exact Hl|]. unfold is_byte. simpl. lia. Qed.

Lemma trim_string l : Forall (λ b, 33 <= b <= 126) l → trim (string_of_bytes l) = string_of_bytes l.
Proof.
  intros Hl. unfold trim. rewrite string_bytes_of_bytes by (by apply printable_bytes).
  by rewrite trim_printable.
Qed.

Lemma parse_allocation_line n a :
  address_ok (al_address a) → 0 <= al_amount_upole a < 2 ^ 128 →
  parse_allocation n (string_of_bytes (csv_line a)) = Ok (Some a).
Proof.
  intros Ha Hn. pose proof (csv_line_printable a Ha ltac:(lia)) as Hp.
  destruct Ha as (Hb & Hne & Hc). unfold parse_allocation. rewrite trim_string by done.
  assert (∃ x l, string_bytes (al_address a) = x :: l ∧ x ≠ 35) as (x & l & Hx & Hx35).
  { destruct (string_bytes (al_address a)) as [|x l] eqn:E.
    - destruct Hne. by rewrite <- (string_of_string_bytes (al_address a)), E.
    - exists x, l. split; [done|]. intros ->. unfold starts_with, strip_prefix in Hc. rewrite E in Hc.
      apply bool_decide_eq_false in Hc. destruct Hc. simpl. eauto. }
  rewrite starts_with_bytes by (by apply printable_bytes).
  assert (str_is_empty (string_of_bytes (csv_line a)) = false) as -> by (unfold csv_line; rewrite Hx; reflexivity).
  rewrite bool_decide_eq_false_2.
  2: { unfold csv_line. rewrite Hx. change (string_bytes "#") with [35]. cbn [app strip_prefix_list].
       rewrite (proj2 (Z.eqb_neq 35 x)) by congruence. by intros [? [=]]. }
  cbn [orb]. unfold str_split. rewrite string_bytes_of_bytes by (by apply printable_bytes).
  unfold csv_line. rewrite split_bytes_piece.
  2: { intros H44. rewrite Forall_forall in Hb. by destruct (Hb 44 H44). }
  rewrite split_bytes_whole.
  2: { intros H44. pose proof (proj1 (Forall_forall _ _) (display_digits _ (proj1 Hn)) _ H44) as Hd. simpl in Hd. lia. }
  cbn [fmap list_fmap]. rewrite !string_of_string_bytes.
  assert (∀ s, Forall (λ b, 33 <= b <= 126) (string_bytes s) → trim s = s) as Ht.
  { intros s Hs. rewrite <- (string_of_string_bytes s) at 1. rewrite trim_string by done. apply string_of_string_bytes. }
  rewrite (Ht (al_address a)) by (eapply Forall_impl; [exact Hb|]; simpl; lia).
  rewrite (Ht (display (al_amount_upole a))) by (eapply Forall_impl; [apply display_digits; lia|]; simpl; lia).
  rewrite parse_display by done. by destruct a.
Qed.

Lemma parse_allocations_lines n l :
  Forall (λ a, address_ok (al_address a) ∧ 0 <= al_amount_upole a < 2 ^ 128) l →
  parse_allocations n ((λ a, string_of_bytes (csv_line a)) <$> l) = Ok l.
Proof.
  intros Hl. revert n. induction Hl as [|a l [Ha Hn] _ IH]; intros n; [done|]. rewrite fmap_cons.
  cbn [parse_allocations]. rewrite parse_allocation_line by done. cbn [outcome_bind]. by rewrite IH.
Qed.

(** Allocations written one per line are read back as they were. *)
Theorem allocations_roundtrip l :
  Forall (λ a, address_ok (al_address a) ∧ 0 <= al_amount_upole a < 2 ^ 128) l →
  load_allocations_csv (csv_text l) = Ok l.
Proof.
  intros Hl.
  assert (Forall (λ x, Forall (λ b, 33 <= b <= 126) x) (csv_line <$> l)) as Hp.
  { apply Forall_fmap. eapply Forall_impl; [exact Hl|]. intros a [Ha Hn]. simpl. apply csv_line_printable; [done|lia]. }
  unfold load_allocations_csv, str_lines, csv_text.
  replace ((λ a, (csv_line a ++ [10])%list) <$> l) with ((λ x, (x ++ [10])%list) <$> (csv_line <$> l))
    by (by rewrite <- list_fmap_compose).
  rewrite string_bytes_of_bytes.
  2: { apply concat_bytes. eapply Forall_impl; [exact Hp|]. intros x. apply printable_bytes. }
  rewrite split_terminated.
  2: { eapply Forall_impl; [exact Hp|]. intros x Hx H10. rewrite Forall_forall in Hx. specialize (Hx 10 H10). simpl in Hx. lia. }
  rewrite line_pieces_terminated, <- !list_fmap_compose.
  rewrite <- (parse_allocations_lines 1 l Hl). f_equal. apply list_fmap_ext. intros i a Hi. simpl. f_equal.
  assert (Forall (λ b, 33 <= b <= 126) (csv_line a)) as Ha.
  { rewrite Forall_fmap in Hp. rewrite Forall_forall in Hp. apply Hp. by eapply list_elem_of_lookup_2. }
  unfold strip_cr. apply Forall_rev in Ha. destruct (rev (csv_line a)) as [|b r] eqn:E; [done|].
  apply Forall_cons in Ha as [Hb _]. repeat case_match; simplify_eq; try done; lia.
Qed.

(** ** The supply of the document *)

Section BuilderTheorems.
Context `{BuildMode} `{GenesisExternal}.

Definition allocated (l : list Allocation) : Z := lsum al_amount_upole l.
Definition balance_of (a : Allocation) : Balance := {|
  bl_address := al_address a; bl_denom := "upole"; bl_amount := display (al_amount_upole a * MICROS_PER_UPOLES) |}.

Lemma bank_loop_spec l balances supply out :
  overflow_checks = true →
  bank_loop l balances supply = Ok out →
  out = ((balances ++ (balance_of <$> l))%list,
         match l with [] => supply | _ => Some (default 0 supply + allocated l * MICROS_PER_UPOLES) end).
Proof.
  intros Hc. revert balances supply. induction l as [|a l IH]; intros balances supply; cbn [bank_loop].
  { intros [= <-]. by rewrite app_nil_r. }
  destruct (in_width _ _); cbn [negb]; [|done].
  destruct (add 128 (default 0 supply) _) as [s|] eqn:Ea; [|done]. cbn [or_panic outcome_bind].
  apply arith_checked in Ea as [-> _]; [|done]. intros ->%IH. rewrite <- app_assoc. f_equal.
  unfold allocated. destruct l as [|b l]; cbn [lsum foldr default]; f_equal; unfold id; lia.
Qed.

(** The supply that a document declares is the sum of its balances, and no more than the
    total supply; there is a balance per allocation, in order, and a validator per
    validator. *)
Theorem genesis_supply inputs doc :
  overflow_checks = true → build inputs = Ok doc →
  gd_balances doc = balance_of <$> gi_allocations inputs ∧
  gd_supply doc = match gi_allocations inputs with
                  | [] => []
                  | l => [("upole", display (allocated l * MICROS_PER_UPOLES))]
                  end ∧
  allocated (gi_allocations inputs) <= DEFAULT_TOTAL_SUPPLY_UPOLES ∧
  gv_operator_address <$> gd_validators doc = vs_operator_address <$> gi_validators inputs ∧
  gi_validators inputs ≠ [].
Proof.
  intros Hc Hb. unfold build, validate in Hb. destruct (str_is_empty _); [done|].
  case_bool_decide as Hv; [done|].
  destruct (sum_checked _ _) as [total|] eqn:Es; [|done]. cbn [or_panic outcome_bind] in Hb.
  apply sum_from_checked in Es; [|done].
  destruct (Z.ltb_spec DEFAULT_TOTAL_SUPPLY_UPOLES total) as [|Hle]; [done|].
  destruct (validate_validators _) as [[]| |]; [|done|done]. cbn [outcome_bind] in Hb.
  unfold populate_bank in Hb.
  destruct (bank_loop _ _ _) as [r| |] eqn:El; [|done|done]. cbn [outcome_bind] in Hb.
  apply bank_loop_spec in El; [|done]. subst r. cbn [fst snd] in Hb.
  unfold populate_staking in Hb.
  destruct (staking_loop (gi_validators inputs)) as [vs| |] eqn:Ev; [|done|done]. cbn [outcome_bind] in Hb.
  injection Hb as <-. cbn [populate_pole_params gd_balances gd_supply gd_validators].
  split; [done|]. split; [by destruct (gi_allocations inputs)|]. split.
  { unfold allocated. rewrite lsum_fmap in Es. replace (lsum al_amount_upole (gi_allocations inputs))
      with (lsum (id ∘ al_amount_upole) (gi_allocations inputs)) by done. lia. }
  split; [|done]. clear -Ev. revert vs Ev.
  induction (gi_validators inputs) as [|v l IH]; intros vs Ev; cbn [staking_loop] in Ev; [by simplify_eq|].
  unfold genesis_validator in Ev. destruct (mul 128 _ _); [|done]. cbn [or_panic outcome_bind] in Ev.
  destruct (hex_decode _) as [key| |]; [|done|done]. cbn [outcome_bind] in Ev.
  destruct (staking_loop l) as [rest| |]; [|done|done]. cbn [outcome_bind] in Ev. injection Ev as <-.
  rewrite !fmap_cons. by rewrite (IH rest eq_refl).
Qed.
End BuilderTheorems.

(** ** A small network *)

Module GenesisDemo.
#[export] Instance external : GenesisExternal := {| hex_decode := λ s, Ok (string_bytes s); base64_encode := λ _, "AAAA" |}.
#[export] Instance debug_build : BuildMode := true.

Definition allocations : list Allocation :=
  [{| al_address := "cosmos1abc"; al_amount_upole := 1000 |}; {| al_address := "cosmos1def"; al_amount_upole := 2000 |}].
Definition validator (stake : Z) : ValidatorSpec := {|
  vs_moniker := "v1"; vs_operator_address := "cosmosvaloper1xxx";
  vs_consensus_pubkey_hex := string_of_bytes (replicate 64 48); vs_stake_upole := stake |}.
Definition inputs (stake : Z) : GenesisInputs := {|
  gi_chain_id := "pole-test"; gi_allocations := allocations; gi_validators := [validator stake];
  gi_params_overrides := Some [("min_witness_count", Number 3)] |}.

Lemma allocations_roundtrip_witness : load_allocations_csv (csv_text allocations) = Ok allocations.
Proof. apply (allocations_roundtrip allocations). by apply (bool_decide_unpack _). Defined.

Lemma built : ∃ doc, build (inputs 1000000) = Ok doc.
Proof. vm_compute. eexists. reflexivity. Qed.

Lemma genesis_supply_witness :
  ∃ doc, build (inputs 1000000) = Ok doc ∧ gd_supply doc = [("upole", "3000000000")].
Proof.
  destruct built as [doc Hdoc]. exists doc. split; [exact Hdoc|].
  destruct (genesis_supply (inputs 1000000) doc eq_refl Hdoc) as (_ & Hs & _).
  rewrite Hs. vm_compute. reflexivity.
Defined.

(** A stake is not part of the supply that is checked: it can exceed the total supply, and
    one that does not fit 128 bits in micro-units stops a debug build and wraps otherwise. *)
Example stake_unchecked :
  is_ok (build (inputs (DEFAULT_TOTAL_SUPPLY_UPOLES * 1000))) = true ∧
  build (inputs (2 ^ 127)) = Panic ∧
  gv_tokens <$> match build (H := false) (inputs (2 ^ 127)) with Ok d => gd_validators d | _ => [] end = ["0"].
Proof. vm_compute. done. Qed.

(** The total supply is 10^15 and the hourly reward 2_283_105_022_831_050 micro-units. *)
Example hourly_reward_value : base_hourly_reward = 2283105022831050.
Proof. vm_compute. reflexivity. Qed.

End GenesisDemo.
