(* ===== verification/P2pFilesystem.v ===== *)
(** * The filesystem network: [FilesystemP2pNetwork] of src/src/p2p.rs

    Peers are directories, a subscription list is a file, an inbox a directory of numbered
    files, and the providers of a payload are the files of a directory named after it. The
    state is the content of those directories; a file may hold what does not parse. The
    theorem relates the network to the in-memory one, operation by operation: same answers
    and same errors, except that a payload may come from another of its providers. I/O does
    not fail here, and a payload id is one whose directory name is that of a directory under
    [payloads]: not empty, and not a dot or two. *)
From S2P Require Import Prelude Primitives Records Crypto Text StorageBook Pipeline NodeConfig P2p.
Local Open Scope pole_scope.
Local Open Scope string_scope.
Local Open Scope Z_scope.

(** The content of a JSON file: parsed, or the error of the parser. *)
Inductive File (A : Type) := Parsed (a : A) | Malformed (e : string).
Arguments Parsed {A} a.
Arguments Malformed {A} e.

(** [FilesystemPeerState] holds the topics; an envelope file holds the three fields of
    [FilesystemEnvelopeSerde]. *)
Record PeerDir := {
  pd_state : option (File (list P2pTopic));
  pd_inbox : gmap string (File P2pEnvelope);
}.

(** The directories under [root]: a directory that is missing is one without entries.
    [FilesystemPayloadRecord] has the fields of [PayloadProviderRecord]. *)
Record FilesystemP2pNetwork := {
  fs_peers : gmap string PeerDir;
  fs_payloads : gmap string (gmap string (File PayloadProviderRecord));
}.

Definition FilesystemP2pNetwork_new : FilesystemP2pNetwork := {| fs_peers := ∅; fs_payloads := ∅ |}.

Definition set_peer_dir (n : FilesystemP2pNetwork) (p : NodeId) (d : PeerDir) : FilesystemP2pNetwork :=
  {| fs_peers := <[hex_32 p := d]> (fs_peers n); fs_payloads := fs_payloads n |}.
Definition peer_dir (n : FilesystemP2pNetwork) (p : NodeId) : PeerDir :=
  default {| pd_state := None; pd_inbox := ∅ |} (fs_peers n !! hex_32 p).
Definition set_state (d : PeerDir) (topics : list P2pTopic) : PeerDir :=
  {| pd_state := Some (Parsed topics); pd_inbox := pd_inbox d |}.
Definition set_pd_inbox (d : PeerDir) (box : gmap string (File P2pEnvelope)) : PeerDir :=
  {| pd_state := pd_state d; pd_inbox := box |}.

(** [{sequence:016}] *)
Fixpoint digits (k : nat) (n : Z) : list Z :=
  match k with
  | O => []
  | S k => (digits k (n / 10) ++ [48 + n mod 10])%list
  end.
Definition pad16 (n : Z) : string :=
  if n <? 10 ^ 16 then string_of_bytes (digits 16 n) else display n.

Definition envelope_name (sequence : nat) : string := pad16 (Z.of_nat sequence) +:+ ".json".
Definition provider_name (p : NodeId) : string := hex_32 p +:+ ".json".

(** [replace("cid://", "").replace(['/', ':'], "_")] *)
Definition payload_filename_stub_local (cid : ContentId) : string :=
  str_replace (str_replace (str_replace cid "cid://" "") "/" "_") ":" "_".

Notation Fs := (M FilesystemP2pNetwork P2pError).

Definition peer_exists (n : FilesystemP2pNetwork) (p : NodeId) : bool :=
  bool_decide (is_Some (pd_state (peer_dir n p))).

Definition ensure_exists (p : NodeId) : Fs unit :=
  n <- gets id;; ensure (peer_exists n p) (UnknownPeer p).

(** [read_peer_state]; the callers have seen that the file exists. *)
Definition read_peer_state (p : NodeId) : Fs (list P2pTopic) :=
  n <- gets id;;
  match pd_state (peer_dir n p) with
  | Some (Parsed topics) => m_ret topics
  | Some (Malformed e) => m_throw (P2pJson e)
  | None => m_throw (P2pIo "not found")
  end.

Definition write_peer_state (p : NodeId) (topics : list P2pTopic) : Fs unit :=
  modify (λ n, set_peer_dir n p (set_state (peer_dir n p) topics)).

Definition ensure_peer_dir (p : NodeId) : Fs unit :=
  modify (λ n, set_peer_dir n p (peer_dir n p));;;
  n <- gets id;;
  if peer_exists n p then m_ret tt else write_peer_state p [].

(** The names that are not those of a peer are skipped. *)
Definition peer_id_of_name (name : string) : option NodeId :=
  match decode_hex_32 name "" with Ok p => Some p | _ => None end.

Definition list_peer_ids (n : FilesystemP2pNetwork) : list NodeId :=
  sort_by leb (omap peer_id_of_name (bt_keys (fs_peers n))).

Definition fs_subscribe (p : NodeId) (t : P2pTopic) : Fs unit :=
  ensure_exists p;;;
  topics <- read_peer_state p;;
  if bool_decide (t ∈ topics) then m_ret tt
  else write_peer_state p (dedup (sort_by leb (topics ++ [t])))%list.

Definition fs_bootstrap_peer (p : NodeId) (topics : list P2pTopic) : Fs unit :=
  ensure_peer_dir p;;; for_each (fs_subscribe p) topics.

Definition fs_unsubscribe (p : NodeId) (t : P2pTopic) : Fs bool :=
  ensure_exists p;;;
  topics <- read_peer_state p;;
  let kept := filter (λ item, item ≠ t) topics in
  write_peer_state p kept;;;
  m_ret (negb (Nat.eqb (length topics) (length kept))).

Definition fs_remove_peer (p : NodeId) : Fs unit :=
  ensure_exists p;;;
  modify (λ n, {| fs_peers := delete (hex_32 p) (fs_peers n);
                  fs_payloads := delete (provider_name p) <$> fs_payloads n |}).

Definition fs_subscriptions_for (p : NodeId) : Fs (list P2pTopic) :=
  ensure_exists p;;; read_peer_state p.

(** [self.subscriptions_for(peer).map(|topics| topics.contains(&topic)).unwrap_or(false)] *)
Definition listens (n : FilesystemP2pNetwork) (t : P2pTopic) (p : NodeId) : bool :=
  match (fs_subscriptions_for p n).1 with Ok topics => bool_decide (t ∈ topics) | _ => false end.

Definition fs_recipients (n : FilesystemP2pNetwork) (sender : NodeId) (t : P2pTopic) : list NodeId :=
  filter (λ p, listens n t p = true) (filter (λ p, p ≠ sender) (list_peer_ids n)).

(** The file is named by the number of files there are. *)
Definition fs_deliver (e : P2pEnvelope) (p : NodeId) : Fs unit :=
  modify (λ n, let d := peer_dir n p in
    set_peer_dir n p (set_pd_inbox d
      (<[envelope_name (size (pd_inbox d)) := Parsed e]> (pd_inbox d)))).

Definition fs_publish (sender : NodeId) (m : P2pMessage) : Fs Z :=
  ensure_exists sender;;;
  let t := message_topic m in
  rs <- gets (λ n, fs_recipients n sender t);;
  ensure (negb (bool_decide (rs = []))) (NoSubscribers t);;;
  for_each (fs_deliver (envelope sender m)) rs;;;
  m_ret (Z.of_nat (length rs)).

(** Each file is removed once it has been read; the first that does not parse stops. *)
Fixpoint drain_entries (p : NodeId) (entries : list (string * File P2pEnvelope)) : Fs (list P2pEnvelope) :=
  match entries with
  | [] => m_ret []
  | (name, Parsed e) :: entries =>
      modify (λ n, let d := peer_dir n p in set_peer_dir n p (set_pd_inbox d (delete name (pd_inbox d))));;;
      rest <- drain_entries p entries;;
      m_ret (e :: rest)
  | (_, Malformed err) :: _ => m_throw (P2pJson err)
  end.

Definition fs_drain_inbox (p : NodeId) : Fs (list P2pEnvelope) :=
  ensure_exists p;;;
  n <- gets id;;
  drain_entries p (bt_iter (pd_inbox (peer_dir n p))).

Definition fs_advertise_payload (p : NodeId) (cid : ContentId) (hash : Hash32) (b : bytes) : Fs unit :=
  ensure_exists p;;;
  modify (λ n, let stub := payload_filename_stub_local cid in
    {| fs_peers := fs_peers n;
       fs_payloads := <[stub := <[provider_name p := Parsed {| provider := p; pp_payload_cid := cid;
         pp_payload_hash := hash; pp_payload_bytes := b |}]> (default ∅ (fs_payloads n !! stub))]>
         (fs_payloads n) |}).

Definition fs_request_payload (requester : NodeId) (cid : ContentId) : Fs PayloadProviderRecord :=
  ensure_exists requester;;;
  n <- gets id;;
  match bt_iter (default ∅ (fs_payloads n !! payload_filename_stub_local cid)) with
  | [] => m_throw (MissingPayload cid)
  | (_, Parsed record) :: _ => m_ret record
  | (_, Malformed e) :: _ => m_throw (P2pJson e)
  end.

#[export] Instance FilesystemP2pNetwork_network : P2pNetwork FilesystemP2pNetwork := {
  backend_kind := "filesystem";
  learned_remote_peer_count := m_ret 0;
  coordination_stats := m_ret P2pCoordinationStats_default;
  register_peer := ensure_peer_dir;
  bootstrap_peer := fs_bootstrap_peer;
  subscribe := fs_subscribe;
  unsubscribe := fs_unsubscribe;
  remove_peer := fs_remove_peer;
  known_peers := gets list_peer_ids;
  subscriptions_for := fs_subscriptions_for;
  publish := fs_publish;
  drain_inbox := fs_drain_inbox;
  advertise_payload := fs_advertise_payload;
  request_payload := fs_request_payload;
}.

(** ** Operations as data *)

Inductive NetOp :=
| OpRegister (p : NodeId)
| OpBootstrap (p : NodeId) (topics : list P2pTopic)
| OpSubscribe (p : NodeId) (t : P2pTopic)
| OpUnsubscribe (p : NodeId) (t : P2pTopic)
| OpRemove (p : NodeId)
| OpPeers
| OpSubscriptions (p : NodeId)
| OpPublish (p : NodeId) (m : P2pMessage)
| OpDrain (p : NodeId)
| OpAdvertise (p : NodeId) (cid : ContentId) (hash : Hash32) (b : bytes)
| OpRequest (p : NodeId) (cid : ContentId).

Inductive NetValue :=
| VUnit | VBool (b : bool) | VCount (z : Z) | VPeers (l : list NodeId) | VTopics (l : list P2pTopic)
| VBox (l : list P2pEnvelope) | VPayload (r : PayloadProviderRecord).

Definition run_op {N} `{P2pNetwork N} (o : NetOp) : M N P2pError NetValue :=
  match o with
  | OpRegister p => register_peer p;;; m_ret VUnit
  | OpBootstrap p topics => bootstrap_peer p topics;;; m_ret VUnit
  | OpSubscribe p t => subscribe p t;;; m_ret VUnit
  | OpUnsubscribe p t => b <- unsubscribe p t;; m_ret (VBool b)
  | OpRemove p => remove_peer p;;; m_ret VUnit
  | OpPeers => l <- known_peers;; m_ret (VPeers l)
  | OpSubscriptions p => l <- subscriptions_for p;; m_ret (VTopics l)
  | OpPublish p m => z <- publish p m;; m_ret (VCount z)
  | OpDrain p => l <- drain_inbox p;; m_ret (VBox l)
  | OpAdvertise p cid hash b => advertise_payload p cid hash b;;; m_ret VUnit
  | OpRequest p cid => r <- request_payload p cid;; m_ret (VPayload r)
  end.

(** * The filesystem network refines the in-memory one *)

(** ** Names of files *)

Lemma list_cmp_snoc (xs ys : list Z) x y :
  length xs = length ys →
  list_cmp (xs ++ [x]) (ys ++ [y]) = match list_cmp xs ys with Eq => Z.compare x y | c => c end.
Proof.
  revert ys. induction xs as [|a xs IH]; intros [|b ys] Hl; try done.
  - cbn. unfold cmp, Z_ord. by destruct (x ?= y).
  - injection Hl as Hl. cbn. unfold cmp, Z_ord. destruct (a ?= b); [by apply IH|done..].
Qed.

Lemma list_cmp_app_lt (xs ys zs ws : list Z) :
  length xs = length ys → list_cmp xs ys = Lt → list_cmp (xs ++ zs) (ys ++ ws) = Lt.
Proof.
  revert ys. induction xs as [|a xs IH]; intros [|b ys] Hl; try done. injection Hl as Hl.
  cbn. destruct (cmp a b); [by apply IH|done..].
Qed.

Lemma digits_length k n : length (digits k n) = k.
Proof. revert n. induction k as [|k IH]; intros n; [done|]. cbn. rewrite length_app, IH. cbn. lia. Qed.

Lemma digits_bytes k n : Forall is_byte (digits k n).
Proof.
  revert n. induction k as [|k IH]; intros n; [constructor|]. apply Forall_app. split; [apply IH|].
  apply Forall_singleton. unfold is_byte. pose proof (Z.mod_pos_bound n 10). lia.
Qed.

Lemma digits_lt k a b : 0 <= a < b → b < 10 ^ Z.of_nat k → list_cmp (digits k a) (digits k b) = Lt.
Proof.
  revert a b. induction k as [|k IH]; intros a b Hab Hb; [cbn in Hb; lia|].
  cbn [digits]. rewrite list_cmp_snoc by (by rewrite !digits_length).
  rewrite Nat2Z.inj_succ, Z.pow_succ_r in Hb by lia.
  assert (a / 10 <= b / 10) as Hle by (apply Z.div_le_mono; lia).
  destruct (Z.eq_dec (a / 10) (b / 10)) as [He|Hne].
  - rewrite He. replace (list_cmp (digits k (b / 10)) (digits k (b / 10))) with Eq
      by (symmetry; by apply (cmp_eq (K := list Z))).
    apply Z.compare_lt_iff. pose proof (Z.div_mod a 10). pose proof (Z.div_mod b 10). lia.
  - rewrite IH; [done|split; [apply Z.div_pos; lia|lia]|]. apply Z.div_lt_upper_bound; lia.
Qed.

Lemma envelope_name_lt (i j : nat) :
  (i < j)%nat → Z.of_nat j < 10 ^ 16 → cmp (envelope_name i) (envelope_name j) = Lt.
Proof.
  intros Hij Hj. unfold cmp, string_ord, envelope_name, pad16.
  rewrite !(proj2 (Z.ltb_lt _ _)) by lia.
  rewrite !string_bytes_app, !string_bytes_of_bytes by apply digits_bytes.
  apply list_cmp_app_lt; [by rewrite !digits_length|].
  apply digits_lt; [lia|exact Hj].
Qed.

Lemma envelope_name_inj (i j : nat) :
  Z.of_nat i < 10 ^ 16 → Z.of_nat j < 10 ^ 16 → envelope_name i = envelope_name j → i = j.
Proof.
  intros Hi Hj He. destruct (Nat.lt_trichotomy i j) as [H|[H|H]]; [|done|].
  - apply envelope_name_lt in H; [|done]. rewrite He, cmp_refl in H. done.
  - apply envelope_name_lt in H; [|done]. rewrite He, cmp_refl in H. done.
Qed.

Definition is_node_id (p : NodeId) : Prop := length p = 32%nat ∧ Forall is_byte p.

Lemma peer_id_of_hex p : is_node_id p → peer_id_of_name (hex_32 p) = Some p.
Proof. intros [Hl Hb]. unfold peer_id_of_name. by rewrite decode_hex_32_hex. Qed.

Lemma node_name_inj p q : is_node_id p → is_node_id q → hex_32 p = hex_32 q → p = q.
Proof. intros Hp%peer_id_of_hex Hq%peer_id_of_hex E. rewrite E in Hp. congruence. Qed.

Lemma provider_name_inj p q :
  is_node_id p → is_node_id q → provider_name p = provider_name q → p = q.
Proof.
  intros Hp Hq E. apply node_name_inj; [done..|]. apply string_bytes_inj.
  apply (f_equal string_bytes) in E. unfold provider_name in E. rewrite !string_bytes_app in E.
  by apply app_inv_tail in E.
Qed.

(** ** Sorted lists are determined by their elements *)

Lemma sorted_unique {K} `{OrdLaws K} (l1 l2 : list K) :
  StronglySorted (λ a b, leb a b = true) l1 → StronglySorted (λ a b, leb a b = true) l2 →
  l1 ≡ₚ l2 → l1 = l2.
Proof.
  assert (AntiSymm (=) (λ a b : K, leb a b = true)) by (intros a b; apply leb_antisym).
  intros Hs1 Hs2 Hp. by apply (StronglySorted_unique (λ a b, leb a b = true)) .
Qed.

Lemma sort_by_leb_sorted {K} `{OrdLaws K} (l : list K) :
  StronglySorted (λ a b, leb a b = true) (sort_by leb l).
Proof. apply (sort_by_key_sorted id l). Qed.

Lemma bts_iter_sorted {K} `{Countable K, OrdLaws K} (s : gset K) :
  StronglySorted (λ a b, leb a b = true) (bts_iter s).
Proof. apply (sort_by_key_sorted id (elements s)). Qed.

Lemma bts_iter_unique {K} `{Countable K, OrdLaws K} (s : gset K) l :
  StronglySorted (λ a b, leb a b = true) l → NoDup l → (∀ x, x ∈ l ↔ x ∈ s) → l = bts_iter s.
Proof.
  intros Hs Hnd He. apply sorted_unique; [done|apply bts_iter_sorted|].
  unfold bts_iter. rewrite sort_by_key_perm. apply NoDup_Permutation; [done|apply NoDup_elements|].
  intros x. by rewrite He, elem_of_elements.
Qed.

Lemma elem_of_bts {K} `{Countable K, Ord K} (s : gset K) x : x ∈ bts_iter s ↔ x ∈ s.
Proof. unfold bts_iter. by rewrite sort_by_key_perm, elem_of_elements. Qed.

Lemma NoDup_bts {K} `{Countable K, Ord K} (s : gset K) : NoDup (bts_iter s).
Proof. unfold bts_iter. rewrite sort_by_key_perm. apply NoDup_elements. Qed.

Lemma StronglySorted_filter {K} (R : K → K → Prop) (P : K → Prop) `{∀ x, Decision (P x)} l :
  StronglySorted R l → StronglySorted R (filter P l).
Proof.
  induction 1 as [|x l Hs IH Hall]; [constructor|]. rewrite filter_cons. case_decide; [|done].
  constructor; [done|]. apply Forall_forall. intros y [_ Hy]%list_elem_of_filter.
  by rewrite Forall_forall in Hall; apply Hall.
Qed.

Lemma dedup_NoDup {K} `{EqDecision K} (l : list K) : NoDup l → dedup l = l.
Proof.
  induction l as [|x [|y l] IH]; intros Hnd; [done..|]. apply NoDup_cons in Hnd as [Hx Hnd].
  change (dedup (x :: y :: l)) with (if bool_decide (x = y) then dedup (y :: l) else x :: dedup (y :: l)).
  rewrite bool_decide_eq_false_2 by (intros ->; apply Hx; left). by rewrite IH.
Qed.

Lemma bts_insert (s : gset P2pTopic) t :
  t ∉ s → dedup (sort_by leb (bts_iter s ++ [t])) = bts_iter ({[t]} ∪ s).
Proof.
  intros Ht. assert (NoDup (sort_by leb (bts_iter s ++ [t]))) as Hnd.
  { rewrite sort_by_perm. apply NoDup_app. split_and!; [apply NoDup_bts| |apply NoDup_singleton].
    intros x Hx%elem_of_bts. rewrite list_elem_of_singleton. by intros ->. }
  rewrite dedup_NoDup by done. apply bts_iter_unique; [apply sort_by_leb_sorted|done|].
  intros x. rewrite sort_by_perm, elem_of_app, elem_of_bts. set_solver.
Qed.

Lemma bts_remove (s : gset P2pTopic) t : filter (λ x, x ≠ t) (bts_iter s) = bts_iter (s ∖ {[t]}).
Proof.
  apply bts_iter_unique; [apply StronglySorted_filter, bts_iter_sorted|apply NoDup_filter, NoDup_bts|].
  intros x. rewrite list_elem_of_filter, elem_of_bts. set_solver.
Qed.

(** ** Inboxes *)

Definition numbered_list (box : list P2pEnvelope) : list (string * File P2pEnvelope) :=
  imap (λ i e, (envelope_name i, Parsed e)) box.
Definition numbered (box : list P2pEnvelope) : gmap string (File P2pEnvelope) :=
  list_to_map (numbered_list box).

Definition small (box : list P2pEnvelope) : Prop := Z.of_nat (length box) <= 10 ^ 16.

Lemma numbered_keys box : (numbered_list box).*1 = envelope_name <$> seq 0 (length box).
Proof.
  apply list_eq. intros i. unfold numbered_list. rewrite !list_lookup_fmap, list_lookup_imap.
  destruct (box !! i) as [e|] eqn:He; cbn.
  - by rewrite lookup_seq_lt by (by eapply lookup_lt_Some).
  - by rewrite lookup_seq_ge by (by apply lookup_ge_None).
Qed.

Lemma numbered_NoDup box : small box → NoDup (numbered_list box).*1.
Proof.
  intros Hs. rewrite numbered_keys. apply NoDup_fmap_2_strong; [|apply NoDup_seq].
  intros i j Hi%elem_of_seq Hj%elem_of_seq. unfold small in Hs. apply envelope_name_inj; lia.
Qed.

Lemma numbered_sorted box : small box → StronglySorted (λ a b, leb a b = true) (numbered_list box).*1.
Proof.
  intros Hs. rewrite numbered_keys. unfold small in Hs.
  assert (∀ n k, Z.of_nat (k + n) <= 10 ^ 16 →
    StronglySorted (λ a b, leb a b = true) (envelope_name <$> seq k n)) as H; [|by apply H].
  induction n as [|n IH]; intros k Hk; [constructor|]. cbn [seq fmap list_fmap].
  constructor; [apply IH; lia|].
  apply Forall_fmap, Forall_seq. intros j Hj. cbn. unfold leb.
  rewrite envelope_name_lt; [done|lia|lia].
Qed.

(** Two lists of entries with the same keys in the same order, and the same entries. *)
Lemma entries_unique {A B} (l1 l2 : list (A * B)) :
  l1 ≡ₚ l2 → l1.*1 = l2.*1 → NoDup l1.*1 → l1 = l2.
Proof.
  intros Hp Hk Hnd. apply list_eq. intros i.
  pose proof (f_equal (.!! i) Hk) as Hi. cbn in Hi. rewrite !list_lookup_fmap in Hi.
  destruct (l1 !! i) as [[k a]|] eqn:E1, (l2 !! i) as [[k' b]|] eqn:E2; cbn in Hi; simplify_eq; [|done].
  assert ((k', b) ∈ l1) as [j Hj]%list_elem_of_lookup_1 by (rewrite Hp; by eapply list_elem_of_lookup_2).
  assert (i = j) as <-; [|congruence].
  apply (NoDup_lookup l1.*1 i j k'); [done|by rewrite list_lookup_fmap, E1|by rewrite list_lookup_fmap, Hj].
Qed.

Lemma bt_iter_numbered box : small box → bt_iter (numbered box) = numbered_list box.
Proof.
  intros Hs. pose proof (numbered_NoDup box Hs) as Hnd.
  assert (bt_iter (numbered box) ≡ₚ numbered_list box) as Hp
    by (rewrite bt_iter_perm; by apply map_to_list_to_map).
  apply entries_unique; [done| |apply NoDup_bt_keys].
  apply sorted_unique; [apply bt_keys_sorted|by apply numbered_sorted|by rewrite Hp].
Qed.

Lemma size_numbered box : small box → size (numbered box) = length box.
Proof.
  intros Hs. rewrite <- length_map_to_list, <- bt_iter_perm, bt_iter_numbered by done.
  apply length_imap.
Qed.

Lemma numbered_snoc box e :
  small (box ++ [e]) → <[envelope_name (length box) := Parsed e]> (numbered box) = numbered (box ++ [e])%list.
Proof.
  intros Hs. pose proof (numbered_NoDup _ Hs) as Hnd. unfold numbered, numbered_list in *.
  rewrite imap_app in *. cbn [imap] in *.
  erewrite (list_to_map_proper (_ ++ _)); [|exact Hnd|apply Permutation_app_comm].
  cbn. by rewrite Nat.add_0_r.
Qed.

(** ** Providers *)

Definition find_provider (q : NodeId) (rs : list PayloadProviderRecord) : option PayloadProviderRecord :=
  head (filter (λ r, provider r = q) rs).

Lemma find_provider_cons q r rs :
  find_provider q (r :: rs) = if decide (provider r = q) then Some r else find_provider q rs.
Proof. unfold find_provider. rewrite filter_cons. by case_decide. Qed.

Lemma find_provider_Some q rs r : find_provider q rs = Some r → r ∈ rs ∧ provider r = q.
Proof.
  unfold find_provider. intros H. apply head_Some_elem_of in H.
  by apply list_elem_of_filter in H as [].
Qed.

Lemma find_provider_None q rs : find_provider q rs = None → Forall (λ r, provider r ≠ q) rs.
Proof.
  induction rs as [|r rs IH]; [constructor|]. rewrite find_provider_cons. case_decide; [done|].
  intros. constructor; auto.
Qed.

Lemma find_provider_advertise q r rs :
  Forall (λ x, pp_payload_cid x = pp_payload_cid r) rs →
  find_provider q (advertise_in r rs) = if decide (q = provider r) then Some r else find_provider q rs.
Proof.
  induction 1 as [|x rs Hx Hall IH]; cbn [advertise_in].
  - rewrite find_provider_cons. cbn. repeat case_decide; congruence.
  - case_bool_decide as Hp; rewrite !find_provider_cons; cbn [provider].
    + rewrite Hp, Hx. destruct r. cbn. repeat case_decide; congruence.
    + rewrite IH. repeat case_decide; congruence.
Qed.

Lemma find_provider_retain p q (rs : option (list PayloadProviderRecord)) :
  find_provider q (default [] (rs ≫= retain_providers p)) =
    if decide (q = p) then None else find_provider q (default [] rs).
Proof.
  destruct rs as [rs|]; cbn; [|by case_decide].
  replace (default [] (retain_providers p rs)) with (filter (λ r, provider r ≠ p) rs)
    by (unfold retain_providers; by destruct (filter _ rs)).
  induction rs as [|r rs IH]; [by case_decide|].
  rewrite filter_cons, (find_provider_cons q r rs). destruct (decide (provider r ≠ p)).
  - rewrite find_provider_cons, IH. repeat case_decide; try done; congruence.
  - rewrite IH. repeat case_decide; try done. exfalso. tauto || naive_solver.
Qed.

(** ** The relation *)

Section Refines.
Implicit Types p q : NodeId.
(** The payloads in use; their directories are those of no other. *)
Context (C : ContentId → Prop).
Context (stub_inj : ∀ c c', C c → C c' → payload_filename_stub_local c = payload_filename_stub_local c' → c = c').

(** [f] holds the network [n], whose inboxes have at most [k] messages. *)
Record related (k : nat) (f : FilesystemP2pNetwork) (n : InMemoryP2pNetwork) : Prop := {
  rel_ok : net_ok n;
  rel_typed : ∀ p, p ∈ peers n → is_node_id p;
  rel_names : ∀ name, is_Some (fs_peers f !! name) → ∃ p, p ∈ peers n ∧ name = hex_32 p;
  rel_peer : ∀ p s box, subscriptions n !! p = Some s → inboxes n !! p = Some box →
    (length box <= k)%nat ∧
    fs_peers f !! hex_32 p = Some {| pd_state := Some (Parsed (bts_iter s)); pd_inbox := numbered box |};
  rel_payloads : ∀ cid q, C cid → is_node_id q →
    default ∅ (fs_payloads f !! payload_filename_stub_local cid) !! provider_name q
      = Parsed <$> find_provider q (default [] (im_payloads n !! cid));
  rel_files : ∀ d files name, fs_payloads f !! d = Some files → is_Some (files !! name) →
    ∃ q, is_node_id q ∧ name = provider_name q;
}.

Lemma related_init : related 0 FilesystemP2pNetwork_new InMemoryP2pNetwork_default.
Proof.
  split; [apply net_ok_default|..]; cbn.
  - set_solver.
  - intros name [? H]. by rewrite lookup_empty in H.
  - intros p s box H. by rewrite lookup_empty in H.
  - intros. by rewrite !lookup_empty.
  - intros d files name H. by rewrite lookup_empty in H.
Qed.

Lemma related_weaken k k' f n : (k <= k')%nat → related k f n → related k' f n.
Proof.
  intros Hk [H1 H2 H3 H4 H5 H6]. split; try done. intros p s box Hs Hb.
  destruct (H4 p s box Hs Hb). split; [lia|done].
Qed.

Lemma related_lookup k f n p :
  related k f n → p ∈ peers n →
  ∃ s box, subscriptions n !! p = Some s ∧ inboxes n !! p = Some box ∧ (length box <= k)%nat ∧
    fs_peers f !! hex_32 p = Some {| pd_state := Some (Parsed (bts_iter s)); pd_inbox := numbered box |}.
Proof.
  intros [[Hs Hi _ _] _ _ Hp _ _] Hin.
  assert (is_Some (subscriptions n !! p)) as [s Es] by (apply elem_of_dom; by rewrite Hs).
  assert (is_Some (inboxes n !! p)) as [box Eb] by (apply elem_of_dom; by rewrite Hi).
  destruct (Hp p s box Es Eb). by exists s, box.
Qed.

Lemma related_none k f n p :
  related k f n → is_node_id p → p ∉ peers n → fs_peers f !! hex_32 p = None.
Proof.
  intros [_ Ht Hn _ _ _] Hp Hout. destruct (fs_peers f !! hex_32 p) eqn:E; [|done].
  destruct (Hn (hex_32 p)) as (q & Hq & Heq); [by eexists|].
  apply node_name_inj in Heq as ->; [done..|by apply Ht].
Qed.

Lemma related_exists k f n p :
  related k f n → is_node_id p → peer_exists f p = bool_decide (p ∈ peers n).
Proof.
  intros Hr Hp. unfold peer_exists, peer_dir. apply bool_decide_ext. split.
  - intros [x Hx]. destruct (decide (p ∈ peers n)) as [|Hout]; [done|].
    rewrite (related_none k f n p) in Hx by done. done.
  - intros Hin. destruct (related_lookup k f n p Hr Hin) as (s & box & _ & _ & _ & ->). by eexists.
Qed.

(** ** Simulation of computations *)

Definition msim {A} (k k' : nat) (m1 : Fs A) (m2 : M InMemoryP2pNetwork P2pError A) : Prop :=
  ∀ f n, related k f n → (m1 f).1 = (m2 n).1 ∧ related k' (m1 f).2 (m2 n).2.

Lemma msim_ret {A} k (a : A) : msim k k (m_ret a) (m_ret a).
Proof. by intros f n. Qed.

Lemma msim_bind {A B} k1 k2 k3 (m1 : Fs A) m2 (g1 : A → Fs B) g2 :
  (k2 <= k3)%nat → msim k1 k2 m1 m2 → (∀ a, msim k2 k3 (g1 a) (g2 a)) →
  msim k1 k3 (m_bind m1 g1) (m_bind m2 g2).
Proof.
  intros Hk Hm Hg f n Hr. destruct (Hm f n Hr) as [Ha Hr']. unfold m_bind.
  destruct (m1 f) as [[a|e|] f'], (m2 n) as [[a'|e'|] n']; cbn in *; simplify_eq; [by apply Hg|..];
    (split; [done|by eapply related_weaken]).
Qed.

Lemma msim_for_each {A} k (g1 : A → Fs unit) g2 l :
  Forall (λ a, msim k k (g1 a) (g2 a)) l → msim k k (for_each g1 l) (for_each g2 l).
Proof.
  induction 1 as [|a l Ha _ IH]; [apply msim_ret|]. cbn [for_each].
  eapply msim_bind; [done|exact Ha|by intros []].
Qed.

(** A method that first tests its peer. *)
Lemma msim_exists {A} k k' p (m1 : Fs A) m2 :
  is_node_id p → (k <= k')%nat →
  (∀ f n, related k f n → p ∈ peers n → (m1 f).1 = (m2 n).1 ∧ related k' (m1 f).2 (m2 n).2) →
  msim k k' (ensure_exists p;;; m1) (ensure_peer p;;; m2).
Proof.
  intros Hp Hk Hm f n Hr. unfold ensure_exists, ensure_peer, m_bind, gets, ensure, lift, id.
  rewrite (related_exists k f n p Hr Hp). case_bool_decide; cbn; [by apply Hm|].
  split; [done|by eapply related_weaken].
Qed.

Lemma read_state k f n p :
  related k f n → p ∈ peers n →
  read_peer_state p f = (Ok (bts_iter (default ∅ (subscriptions n !! p))), f).
Proof.
  intros Hr Hin. destruct (related_lookup k f n p Hr Hin) as (s & box & Hs & _ & _ & Hf).
  rewrite Hs. unfold read_peer_state, m_bind, gets, id, peer_dir. by rewrite Hf.
Qed.

(** Writing the state of a peer. *)
Lemma write_state_related k f n p s :
  related k f n → p ∈ peers n →
  related k (write_peer_state p (bts_iter s) f).2 (set_subscriptions n (<[p := s]> (subscriptions n))).
Proof.
  intros Hr Hin. pose proof (related_lookup k f n p Hr Hin) as (s0 & box0 & Hs0 & Hb0 & _ & Hf0).
  destruct Hr as [[Hs Hi He Hpr] Ht Hn Hp Hpay Hfiles]. split; try done.
  - split; try done. by apply dom_insert_known.
  - cbn. intros name Hname. destruct (decide (name = hex_32 p)) as [->|Hne]; [by exists p|].
    rewrite lookup_insert_ne in Hname by done. by apply Hn.
  - cbn. intros q s' box Hq Hbox. destruct (decide (q = p)) as [->|Hne].
    + rewrite lookup_insert_eq in Hq. simplify_eq. rewrite lookup_insert_eq. unfold peer_dir. rewrite Hf0.
      cbn. split; [by eapply Hp|done].
    + rewrite lookup_insert_ne in Hq by done.
      assert (q ∈ peers n) by (rewrite <- Hs; apply elem_of_dom; by eexists).
      rewrite lookup_insert_ne by (intros E%node_name_inj; auto). by apply Hp.
Qed.

Lemma sim_subscribe k p t : is_node_id p → msim k k (fs_subscribe p t) (mem_subscribe p t).
Proof.
  intros Hp. apply msim_exists; [done..|]. intros f n Hr Hin.
  unfold m_bind at 1 2. rewrite (read_state k f n p Hr Hin).
  destruct (related_lookup k f n p Hr Hin) as (s & box & Hs & _ & _ & Hf).
  unfold modify. rewrite Hs. cbn [from_option id fst snd].
  case_bool_decide as Ht; rewrite elem_of_bts in Ht; cbn [fst snd m_ret].
  - split; [done|]. replace ({[t]} ∪ s) with s by set_solver. rewrite insert_id by done.
    by destruct n.
  - split; [done|]. rewrite bts_insert by done. by apply write_state_related.
Qed.

Lemma filter_length_ne (l : list P2pTopic) t :
  negb (Nat.eqb (length l) (length (filter (λ x, x ≠ t) l))) = bool_decide (t ∈ l).
Proof.
  destruct (decide (t ∈ l)) as [Ht|Ht].
  - rewrite bool_decide_eq_true_2 by done. apply negb_true_iff, Nat.eqb_neq.
    pose proof (length_filter_lt (λ x, x ≠ t) l t Ht). naive_solver lia.
  - rewrite bool_decide_eq_false_2 by done. apply negb_false_iff, Nat.eqb_eq.
    rewrite filter_all; [done|]. apply Forall_forall. intros x Hx ->. done.
Qed.

Lemma sim_unsubscribe k p t : is_node_id p → msim k k (fs_unsubscribe p t) (mem_unsubscribe p t).
Proof.
  intros Hp. apply msim_exists; [done..|]. intros f n Hr Hin.
  pose proof (read_state k f n p Hr Hin) as Hread.
  destruct (related_lookup k f n p Hr Hin) as (s & box & Hs & _ & _ & Hf). rewrite Hs in Hread.
  unfold m_bind, gets, modify. rewrite Hread, Hs. cbn [from_option id m_ret fst snd].
  rewrite filter_length_ne, bts_remove.
  pose proof (write_state_related k f n p (s ∖ {[t]}) Hr Hin) as Hw.
  unfold write_peer_state, modify in *. cbn [fst snd] in *. split; [|done].
  unfold m_ret. cbn [fst]. f_equal. apply bool_decide_ext, elem_of_bts.
Qed.

Lemma peer_dir_set f p d : peer_dir (set_peer_dir f p d) p = d.
Proof. unfold peer_dir, set_peer_dir. cbn [fs_peers]. by rewrite lookup_insert_eq. Qed.

Lemma sim_register k p : is_node_id p → msim k k (ensure_peer_dir p) (mem_register_peer p).
Proof.
  intros Hid f n Hr. unfold ensure_peer_dir, m_bind, modify, gets, id. cbn [fst snd].
  assert (peer_exists (set_peer_dir f p (peer_dir f p)) p = bool_decide (p ∈ peers n)) as ->.
  { rewrite <- (related_exists k f n p Hr Hid). unfold peer_exists. by rewrite peer_dir_set. }
  pose proof (register_ok p n (rel_ok _ _ _ Hr)) as Hok. case_bool_decide as Hin.
  - destruct (related_lookup k f n p Hr Hin) as (s & box & Hs & Hb & _ & Hf).
    assert ((mem_register_peer p n).2 = n) as Hn.
    { unfold mem_register_peer, modify, or_default. cbn. rewrite Hs, Hb. cbn.
      rewrite !insert_id by done. replace ({[p]} ∪ peers n) with (peers n) by set_solver. by destruct n. }
    split; [done|]. rewrite Hn. cbn. unfold set_peer_dir, peer_dir. rewrite Hf. cbn.
    rewrite insert_id by done. by destruct f.
  - pose proof (related_none k f n p Hr Hid Hin) as Hf.
    destruct Hr as [[Hs Hi He Hpr] Ht Hn Hp Hpay Hfiles]. split; [done|]. split; [done|..]; cbn.
    + intros q [->%elem_of_singleton|Hq]%elem_of_union; [done|by apply Ht].
    + intros name Hname. destruct (decide (name = hex_32 p)) as [->|Hne]; [exists p; set_solver|].
      rewrite !lookup_insert_ne in Hname by done. destruct (Hn name Hname) as (q & Hq & ->).
      exists q. set_solver.
    + intros q s box Hq Hbox. unfold or_default in Hq, Hbox. destruct (decide (q = p)) as [->|Hne].
      * rewrite lookup_insert_eq in Hq. rewrite lookup_insert_eq in Hbox.
        rewrite (not_elem_of_dom_1 (subscriptions n)) in Hq by (by rewrite Hs).
        rewrite (not_elem_of_dom_1 (inboxes n)) in Hbox by (by rewrite Hi). cbn in *. simplify_eq.
        rewrite lookup_insert_eq, peer_dir_set. unfold peer_dir. rewrite Hf. cbn. split; [lia|done].
      * rewrite lookup_insert_ne in Hq by done. rewrite lookup_insert_ne in Hbox by done.
        assert (q ∈ peers n) by (rewrite <- Hs; apply elem_of_dom; by eexists).
        rewrite !lookup_insert_ne by (intros E%node_name_inj; auto). by apply Hp.
    + done.
    + done.
Qed.

Lemma sim_bootstrap k p topics :
  is_node_id p → msim k k (fs_bootstrap_peer p topics) (mem_bootstrap_peer p topics).
Proof.
  intros Hp. eapply msim_bind; [done|by apply sim_register|]. intros [].
  apply msim_for_each, Forall_true. intros t. by apply sim_subscribe.
Qed.

Lemma sim_remove k p : is_node_id p → msim k k (fs_remove_peer p) (mem_remove_peer p).
Proof.
  intros Hid. apply msim_exists; [done..|]. intros f n Hr Hin. split; [done|].
  assert (net_ok (mem_remove_peer p n).2) as Hok by apply remove_ok, Hr.
  unfold mem_remove_peer, m_bind in Hok. destruct (ensure_peer_cases p n) as [[_ E]|[? _]]; [|done].
  rewrite E in Hok. cbn in Hok.
  destruct Hr as [[Hs _ _ _] Ht Hn Hp Hpay Hfiles]. split; [exact Hok|..]; cbn.
  - intros q [Hq _]%elem_of_difference. by apply Ht.
  - intros name [d Hd]. apply lookup_delete_Some in Hd as [Hne Hd].
    destruct (Hn name) as (q & Hq & ->); [by eexists|]. exists q. split; [|done].
    apply elem_of_difference. split; [done|]. by intros ->%elem_of_singleton.
  - intros q s box [Hne Hq]%lookup_delete_Some [_ Hbox]%lookup_delete_Some.
    assert (q ∈ peers n) by (rewrite <- Hs; apply elem_of_dom; by eexists).
    rewrite lookup_delete_ne by (intros E'%node_name_inj; auto). by apply Hp.
  - intros cid q Hc Hq. rewrite lookup_omap, find_provider_retain, lookup_fmap.
    specialize (Hpay cid q Hc Hq). destruct (fs_payloads f !! _) as [files|]; cbn in *.
    + destruct (decide (q = p)) as [->|Hqp]; [by rewrite lookup_delete_eq|].
      rewrite lookup_delete_ne by (intros E'%provider_name_inj; auto). exact Hpay.
    + rewrite lookup_empty in *. destruct (decide (q = p)); [done|exact Hpay].
  - intros d files name. rewrite lookup_fmap. intros (files' & Hd & ->)%fmap_Some [r Hr'].
    apply lookup_delete_Some in Hr' as [_ Hr']. by eapply Hfiles.
Qed.

(** ** The peers and those that listen *)

Lemma NoDup_omap_inj {A B} (g : A → option B) (l : list A) :
  (∀ x y z, x ∈ l → y ∈ l → g x = Some z → g y = Some z → x = y) → NoDup l → NoDup (omap g l).
Proof.
  intros Hg. induction 1 as [|x l Hx Hnd IH]; [constructor|]. cbn [omap list_omap].
  assert (NoDup (omap g l)) as IH' by (apply IH; intros; eapply Hg; by try right).
  destruct (g x) as [z|] eqn:Ez; [|done]. constructor; [|done].
  intros (y & Hy & Ey)%list_elem_of_omap. assert (x = y) as ->; [|done].
  eapply Hg; [left|by right|done..].
Qed.

Lemma elem_of_bt_keys {V} (m : gmap string V) name : name ∈ bt_keys m ↔ is_Some (m !! name).
Proof.
  unfold bt_keys. rewrite list_elem_of_fmap. split.
  - intros ([k v] & -> & H%elem_of_bt_iter). by eexists.
  - intros [v H]. exists (name, v). split; [done|]. by apply elem_of_bt_iter.
Qed.

Lemma peer_of_name k f n name q :
  related k f n → is_Some (fs_peers f !! name) → peer_id_of_name name = Some q →
  q ∈ peers n ∧ name = hex_32 q.
Proof.
  intros Hr Hname Hq. destruct (rel_names _ _ _ Hr name Hname) as (q' & Hq' & ->).
  rewrite peer_id_of_hex in Hq by (by eapply rel_typed). by simplify_eq.
Qed.

Lemma list_peers k f n : related k f n → list_peer_ids f = bts_iter (peers n).
Proof.
  intros Hr. apply bts_iter_unique; [apply sort_by_leb_sorted|..].
  - unfold list_peer_ids. rewrite sort_by_perm. apply NoDup_omap_inj; [|apply NoDup_bt_keys].
    intros x y q Hx%elem_of_bt_keys Hy%elem_of_bt_keys Eqx Eqy.
    apply (peer_of_name k f n) in Eqx as [_ ->]; [|done..].
    by apply (peer_of_name k f n) in Eqy as [_ ->].
  - intros q. unfold list_peer_ids. rewrite sort_by_perm, list_elem_of_omap. split.
    + intros (name & Hname%elem_of_bt_keys & Hq). by eapply peer_of_name.
    + intros Hq. exists (hex_32 q). rewrite peer_id_of_hex by (by eapply rel_typed). split; [|done].
      destruct (related_lookup k f n q Hr Hq) as (s & box & _ & _ & _ & Hf).
      apply elem_of_bt_keys. by eexists.
Qed.

Lemma sim_known_peers k : msim k k (gets list_peer_ids) (gets (λ n, bts_iter (peers n))).
Proof. intros f n Hr. split; [|done]. cbn. by rewrite (list_peers k f n Hr). Qed.

Lemma sim_subscriptions_for k p :
  is_node_id p → msim k k (fs_subscriptions_for p) (mem_subscriptions_for p).
Proof.
  intros Hp. apply msim_exists; [done..|]. intros f n Hr Hin.
  rewrite (read_state k f n p Hr Hin). split; [|done]. cbn.
  by destruct (related_lookup k f n p Hr Hin) as (s & box & -> & _).
Qed.

Lemma listens_related k f n t p :
  related k f n → p ∈ peers n → listens f t p = bool_decide (t ∈ default ∅ (subscriptions n !! p)).
Proof.
  intros Hr Hin. destruct (sim_subscriptions_for k p (rel_typed _ _ _ Hr p Hin) f n Hr) as [E _].
  unfold listens. rewrite E. unfold mem_subscriptions_for, m_bind.
  destruct (ensure_peer_cases p n) as [[_ ->]|[? _]]; [|done].
  destruct (related_lookup k f n p Hr Hin) as (s & box & Hs & _). cbn. rewrite Hs. cbn.
  apply bool_decide_ext, elem_of_bts.
Qed.

Lemma recipients_sorted n sender t :
  StronglySorted (λ a b, leb a b = true) (recipients n sender t).
Proof.
  pose proof (bt_keys_sorted (subscriptions n)) as Hs. unfold recipients, bt_keys in *.
  induction (bt_iter (subscriptions n)) as [|kv l IH]; [constructor|].
  cbn in Hs. apply StronglySorted_inv in Hs as [Hs Hall]. rewrite filter_cons.
  case_decide; [|by apply IH]. cbn. constructor; [by apply IH|].
  rewrite Forall_forall in *. intros x (kv' & -> & [_ Hx]%list_elem_of_filter)%list_elem_of_fmap.
  apply Hall. by apply list_elem_of_fmap_2.
Qed.

Lemma fs_recipients_related k f n sender t :
  related k f n → fs_recipients f sender t = recipients n sender t.
Proof.
  intros Hr. unfold fs_recipients. rewrite (list_peers k f n Hr). apply sorted_unique.
  - apply StronglySorted_filter, StronglySorted_filter, bts_iter_sorted.
  - apply recipients_sorted.
  - apply NoDup_Permutation; [apply NoDup_filter, NoDup_filter, NoDup_bts|apply NoDup_recipients|].
    intros q. rewrite elem_of_recipients, !list_elem_of_filter, elem_of_bts. split.
    + intros (Hl & Hne & Hq). rewrite (listens_related k f n t q Hr Hq) in Hl.
      apply bool_decide_eq_true in Hl. split; [done|].
      destruct (related_lookup k f n q Hr Hq) as (s & box & Hs & _). rewrite Hs in *. by exists s.
    + intros (Hne & s & Hs & Ht).
      assert (q ∈ peers n) as Hq by (rewrite <- (ok_subscriptions _ (rel_ok _ _ _ Hr)); apply elem_of_dom; by eexists).
      split_and!; [|done..]. rewrite (listens_related k f n t q Hr Hq), Hs. by apply bool_decide_eq_true.
Qed.

(** ** Publishing and draining *)

Definition no_dir : PeerDir := {| pd_state := None; pd_inbox := ∅ |}.
Definition delivered (e : P2pEnvelope) (d : PeerDir) : PeerDir :=
  set_pd_inbox d (<[envelope_name (size (pd_inbox d)) := Parsed e]> (pd_inbox d)).

Lemma deliver_all e rs f :
  NoDup (hex_32 <$> rs) →
  (for_each (fs_deliver e) rs f).1 = Ok tt ∧
  fs_payloads (for_each (fs_deliver e) rs f).2 = fs_payloads f ∧
  ∀ name, fs_peers (for_each (fs_deliver e) rs f).2 !! name =
    if decide (name ∈ hex_32 <$> rs) then Some (delivered e (default no_dir (fs_peers f !! name)))
    else fs_peers f !! name.
Proof.
  revert f. induction rs as [|r rs IH]; intros f Hnd; [by split_and!|].
  cbn [fmap list_fmap] in Hnd. apply NoDup_cons in Hnd as [Hr Hnd]. cbn [for_each].
  unfold m_bind at 1 2 3. unfold fs_deliver at 1 3 5, modify.
  destruct (IH (set_peer_dir f r (delivered e (peer_dir f r))) Hnd) as (H1 & H2 & H3).
  split_and!; [exact H1|exact H2|]. intros name.
  refine (eq_trans (H3 name) _). cbn [fs_peers set_peer_dir fmap list_fmap].
  destruct (decide (name = hex_32 r)) as [->|Hne].
  - rewrite decide_False by done. rewrite decide_True by left. by rewrite lookup_insert_eq.
  - rewrite lookup_insert_ne by done. apply decide_ext. rewrite elem_of_cons. naive_solver.
Qed.

Lemma sim_publish k p m :
  is_node_id p → Z.of_nat (S k) <= 10 ^ 16 → msim k (S k) (fs_publish p m) (mem_publish p m).
Proof.
  intros Hid Hk. apply msim_exists; [done|lia|]. intros f n Hr Hin. set (t := message_topic m).
  assert (net_ok (mem_publish p m n).2) as Hok by apply publish_ok, Hr.
  unfold mem_publish, m_bind in Hok. destruct (ensure_peer_cases p n) as [[_ E]|[? _]]; [|done].
  rewrite E in Hok. clear E. unfold m_bind, gets, ensure, lift in *. cbn in Hok.
  rewrite (fs_recipients_related k f n p t Hr). fold t in Hok.
  case_bool_decide as Hrs; cbn in *; [split; [done|by eapply related_weaken; [|done]; lia]|].
  set (rs := recipients n p t) in *.
  assert (∀ q, q ∈ rs → q ∈ peers n) as Hin_rs.
  { intros q (_ & s & Hs & _)%elem_of_recipients. rewrite <- (ok_subscriptions _ (rel_ok _ _ _ Hr)).
    apply elem_of_dom. by eexists. }
  assert (∀ q q', q ∈ peers n → q' ∈ peers n → hex_32 q = hex_32 q' → q = q') as Hinj
    by (intros q q' Hq Hq'; apply node_name_inj; by eapply rel_typed).
  assert (NoDup (hex_32 <$> rs)) as Hnd.
  { apply NoDup_fmap_2_strong; [|apply NoDup_recipients]. auto. }
  destruct (deliver_all (envelope p m) rs f Hnd) as (H1 & H2 & H3).
  destruct (for_each _ rs f) as [r f']. cbn in *. subst r. split; [done|].
  destruct Hr as [[Hs Hi _ _] Ht Hn Hp Hpay Hfiles]. split; [exact Hok|done|..]; cbn.
  - intros name Hname. rewrite H3 in Hname. destruct (decide _) as [(q & -> & Hq)%list_elem_of_fmap|]; [|auto].
    exists q. auto.
  - intros q s box Hq Hbox.
    assert (q ∈ peers n) as Hqp by (rewrite <- Hs; apply elem_of_dom; by eexists).
    unfold envelope in Hbox. rewrite lookup_deliver in Hbox;
      [|apply NoDup_recipients|intros q' Hq'; apply elem_of_dom; rewrite Hi; auto].
    assert (hex_32 q ∈ hex_32 <$> rs ↔ q ∈ rs) as Hmem.
    { split; [|apply list_elem_of_fmap_2]. intros (q' & E & Hq')%list_elem_of_fmap.
      apply Hinj in E as ->; auto. }
    rewrite H3. case_bool_decide as Hqr.
    + rewrite decide_True by tauto. apply fmap_Some in Hbox as (box0 & Hb0 & ->).
      destruct (Hp q s box0 Hq Hb0) as [Hlen ->]. rewrite length_app. cbn. split; [lia|].
      unfold delivered, set_pd_inbox. cbn. rewrite size_numbered by (unfold small; lia).
      rewrite numbered_snoc; [done|]. unfold small. rewrite length_app. cbn. lia.
    + rewrite decide_False by tauto. destruct (Hp q s box Hq Hbox). split; [lia|done].
  - by rewrite H2.
  - by rewrite H2.
Qed.

Definition without {V} (m : gmap string V) (names : list string) : gmap string V :=
  foldl (λ m name, delete name m) m names.

Lemma lookup_without {V} (m : gmap string V) names k :
  without m names !! k = if decide (k ∈ names) then None else m !! k.
Proof.
  revert m. induction names as [|x names IH]; intros m; [done|]. cbn. unfold without in IH. rewrite IH.
  destruct (decide (k = x)) as [->|Hne].
  - rewrite lookup_delete_eq, (decide_True (P := x ∈ x :: names)) by left. by case_decide.
  - rewrite lookup_delete_ne by done. apply decide_ext. rewrite elem_of_cons. naive_solver.
Qed.

Lemma without_all box : without (numbered box) (numbered_list box).*1 = ∅.
Proof.
  apply map_eq. intros name. rewrite lookup_without, lookup_empty. case_decide as Hn; [done|].
  by apply not_elem_of_list_to_map_1.
Qed.

Lemma drain_parsed p (l : list (string * P2pEnvelope)) f d :
  fs_peers f !! hex_32 p = Some d →
  drain_entries p ((λ ne, (ne.1, Parsed ne.2)) <$> l) f
    = (Ok l.*2, set_peer_dir f p (set_pd_inbox d (without (pd_inbox d) l.*1))).
Proof.
  revert f d. induction l as [|[name e] l IH]; intros f d Hd.
  - cbn. unfold m_ret, set_peer_dir, set_pd_inbox. destruct f, d. cbn in *. by rewrite insert_id.
  - cbn [fmap list_fmap drain_entries fst snd]. unfold m_bind at 1, modify, peer_dir. rewrite Hd.
    cbn [from_option id]. unfold m_bind. erewrite IH by apply lookup_insert_eq.
    unfold m_ret, set_peer_dir. cbn. by rewrite insert_insert_eq.
Qed.

Lemma sim_drain k p :
  is_node_id p → Z.of_nat k <= 10 ^ 16 → msim k k (fs_drain_inbox p) (mem_drain_inbox p).
Proof.
  intros Hid Hk. apply msim_exists; [done..|]. intros f n Hr Hin.
  assert (net_ok (mem_drain_inbox p n).2) as Hok by apply drain_ok, Hr.
  unfold mem_drain_inbox, m_bind in Hok. destruct (ensure_peer_cases p n) as [[_ E]|[? _]]; [|done].
  rewrite E in Hok. clear E. cbn in Hok.
  destruct (related_lookup k f n p Hr Hin) as (s0 & box0 & Hs0 & Hb0 & Hlen & Hf0).
  unfold m_bind, gets, modify, peer_dir. change (id f) with f. rewrite Hf0, Hb0. cbn [from_option id pd_inbox fst snd].
  rewrite bt_iter_numbered by (unfold small; lia).
  replace (numbered_list box0) with
    ((λ ne : string * P2pEnvelope, (ne.1, Parsed ne.2)) <$> imap (λ i e, (envelope_name i, e)) box0)
    by apply fmap_imap.
  rewrite (drain_parsed _ _ _ _ Hf0).
  assert ((imap (λ i e, (envelope_name i, e)) box0).*2 = box0) as ->.
  { rewrite fmap_imap. apply list_eq. intros i. rewrite list_lookup_imap. by destruct (box0 !! i). }
  assert ((imap (λ i e, (envelope_name i, e)) box0).*1 = (numbered_list box0).*1) as ->.
  { unfold numbered_list. by rewrite !fmap_imap. }
  cbn [pd_inbox]. rewrite without_all. split; [done|]. cbn [snd m_ret].
  destruct Hr as [[Hs Hi _ _] Ht Hn Hp Hpay Hfiles]. split; [exact Hok|done|..|done|done]; cbn.
  - intros name Hname. destruct (decide (name = hex_32 p)) as [->|Hne]; [by exists p|].
    rewrite lookup_insert_ne in Hname by done. by apply Hn.
  - intros q s box Hq Hbox. destruct (decide (q = p)) as [->|Hne].
    + rewrite lookup_insert_eq in Hbox. simplify_eq. rewrite lookup_insert_eq. cbn. split; [lia|done].
    + rewrite lookup_insert_ne in Hbox by done.
      assert (q ∈ peers n) by (rewrite <- Hs; apply elem_of_dom; by eexists).
      rewrite lookup_insert_ne by (intros E%node_name_inj; auto). by apply Hp.
Qed.

(** ** Payloads *)

Lemma sim_advertise k p cid hash b :
  is_node_id p → C cid → msim k k (fs_advertise_payload p cid hash b) (mem_advertise_payload p cid hash b).
Proof.
  intros Hid HC. apply msim_exists; [done..|]. intros f n Hr Hin. split; [done|].
  assert (net_ok (mem_advertise_payload p cid hash b n).2) as Hok by apply advertise_ok, Hr.
  unfold mem_advertise_payload, m_bind in Hok. destruct (ensure_peer_cases p n) as [[_ E]|[? _]]; [|done].
  rewrite E in Hok. clear E. cbn in Hok.
  destruct Hr as [[_ _ _ Hpr] Ht Hn Hp Hpay Hfiles]. split; [exact Hok|done..| |]; cbn.
  - intros c q Hc Hq. destruct (decide (c = cid)) as [->|Hne].
    + rewrite !lookup_insert_eq. cbn. rewrite find_provider_advertise; cbn.
      * destruct (decide (q = p)) as [->|Hqp]; [by rewrite lookup_insert_eq|].
        rewrite lookup_insert_ne by (intros E%provider_name_inj; auto). by apply Hpay.
      * destruct (im_payloads n !! cid) as [rs|] eqn:Ers; [|constructor].
        destruct (Hpr cid rs Ers) as (_ & _ & Hall). eapply Forall_impl; [done|]. by intros r [_ ?].
    + rewrite !lookup_insert_ne by (try (intros E%stub_inj); auto). by apply Hpay.
  - intros d files name. destruct (decide (d = payload_filename_stub_local cid)) as [->|Hne].
    + rewrite lookup_insert_eq. intros [= <-] [r Hr].
      destruct (decide (name = provider_name p)) as [->|Hnp]; [by exists p|].
      rewrite lookup_insert_ne in Hr by done.
      destruct (fs_payloads f !! _) as [files|] eqn:Ef; cbn in Hr; [|by rewrite lookup_empty in Hr].
      eapply Hfiles; [done|by eexists].
    + rewrite lookup_insert_ne by done. by apply Hfiles.
Qed.

(** Both networks hand out a record that is advertised, or both have none. *)
Definition payload_reply_ok (n : InMemoryP2pNetwork) (cid : ContentId)
    (x y : outcome P2pError PayloadProviderRecord) : Prop :=
  match x, y with
  | Ok r, Ok r' => r ∈ default [] (im_payloads n !! cid) ∧ r' ∈ default [] (im_payloads n !! cid)
  | _, _ => x = y
  end.

Lemma files_of_payload k f n cid name file :
  related k f n → C cid →
  default ∅ (fs_payloads f !! payload_filename_stub_local cid) !! name = Some file →
  ∃ r, file = Parsed r ∧ r ∈ default [] (im_payloads n !! cid).
Proof.
  intros Hr HC Hfile.
  destruct (fs_payloads f !! payload_filename_stub_local cid) as [files|] eqn:Ef;
    cbn in Hfile; [|by rewrite lookup_empty in Hfile].
  destruct (rel_files _ _ _ Hr _ files name Ef) as (q & Hq & ->); [by eexists|].
  pose proof (rel_payloads _ _ _ Hr cid q HC Hq) as Hpay. rewrite Ef in Hpay. cbn in Hpay.
  rewrite Hfile in Hpay. symmetry in Hpay. apply fmap_Some in Hpay as (r & Hfind & ->).
  apply find_provider_Some in Hfind as [Hin _]. by exists r.
Qed.

Lemma payload_has_file k f n cid r :
  related k f n → C cid → r ∈ default [] (im_payloads n !! cid) →
  is_Some (default ∅ (fs_payloads f !! payload_filename_stub_local cid) !! provider_name (provider r)).
Proof.
  intros Hr HC Hin. destruct (im_payloads n !! cid) as [rs|] eqn:Ers; cbn in Hin; [|by apply not_elem_of_nil in Hin].
  destruct (ok_providers _ (rel_ok _ _ _ Hr) cid rs Ers) as (_ & _ & Hall). rewrite Forall_forall in Hall.
  destruct (Hall r Hin) as [Hpeer _].
  rewrite (rel_payloads _ _ _ Hr) by (auto; by eapply rel_typed). rewrite Ers. cbn.
  destruct (find_provider (provider r) rs) as [r'|] eqn:Ef; [by eexists|].
  apply find_provider_None in Ef. rewrite Forall_forall in Ef. by destruct (Ef r Hin).
Qed.

Lemma sim_request k p cid f n :
  is_node_id p → C cid → related k f n →
  payload_reply_ok n cid (fs_request_payload p cid f).1 (mem_request_payload p cid n).1 ∧
  related k (fs_request_payload p cid f).2 (mem_request_payload p cid n).2.
Proof.
  intros Hid HC Hr. unfold fs_request_payload, mem_request_payload, ensure_exists, ensure_peer, m_bind, gets,
    ensure, lift. change (id f) with f. change (id n) with n.
  rewrite (related_exists k f n p Hr Hid). case_bool_decide; cbn; [|done].
  destruct (bt_iter _) as [|[name file] l] eqn:Eit.
  - assert (im_payloads n !! cid ≫= head = None) as ->; [|by split].
    destruct (im_payloads n !! cid) as [[|r rs]|] eqn:Ers; [done| |done]. exfalso.
    destruct (payload_has_file k f n cid r Hr HC) as [file Hfile]; [rewrite Ers; left|].
    apply elem_of_bt_iter in Hfile. rewrite Eit in Hfile. by apply not_elem_of_nil in Hfile.
  - assert ((name, file) ∈ bt_iter (default ∅ (fs_payloads f !! payload_filename_stub_local cid)))
      as Hfile%elem_of_bt_iter by (rewrite Eit; left).
    destruct (files_of_payload k f n cid name file Hr HC Hfile) as (r & -> & Hin).
    destruct (im_payloads n !! cid) as [[|r' rs]|] eqn:Ers; cbn in *; try by apply not_elem_of_nil in Hin.
    split; [|done]. unfold payload_reply_ok. rewrite Ers. by split; [|left].
Qed.

(** ** Sequences of operations *)

Definition op_peer (o : NetOp) : option NodeId :=
  match o with
  | OpRegister p | OpBootstrap p _ | OpSubscribe p _ | OpUnsubscribe p _ | OpRemove p | OpSubscriptions p
  | OpPublish p _ | OpDrain p | OpAdvertise p _ _ _ | OpRequest p _ => Some p
  | OpPeers => None
  end.
Definition op_payload (o : NetOp) : option ContentId :=
  match o with OpAdvertise _ cid _ _ | OpRequest _ cid => Some cid | _ => None end.

Definition payload_of (v : outcome P2pError NetValue) : outcome P2pError PayloadProviderRecord :=
  match v with Ok (VPayload r) => Ok r | Err e => Err e | _ => Panic end.

(** Equal replies; for a payload, records that are advertised. *)
Definition reply_ok (n : InMemoryP2pNetwork) (o : NetOp) (x y : outcome P2pError NetValue) : Prop :=
  match o with
  | OpRequest _ cid => payload_reply_ok n cid (payload_of x) (payload_of y)
  | _ => x = y
  end.

Fixpoint agree (f : FilesystemP2pNetwork) (n : InMemoryP2pNetwork) (ops : list NetOp) : Prop :=
  match ops with
  | [] => True
  | o :: ops =>
      reply_ok n o (run_op o f).1 (run_op o n).1 ∧ agree (run_op o f).2 (run_op o n).2 ops
  end.

Lemma msim_weaken {A} k k1 k2 (m1 : Fs A) m2 : (k1 <= k2)%nat → msim k k1 m1 m2 → msim k k2 m1 m2.
Proof. intros Hk Hm f n Hr. destruct (Hm f n Hr). split; [done|by eapply related_weaken]. Qed.

Lemma msim_value {A} k k' (m1 : Fs A) m2 (g : A → NetValue) :
  (k' <= S k)%nat → msim k k' m1 m2 → msim k (S k) (m_bind m1 (λ a, m_ret (g a))) (m_bind m2 (λ a, m_ret (g a))).
Proof. intros Hk Hm. apply (msim_bind k k'); [done..|]. intros a. eapply msim_weaken, msim_ret. done. Qed.

Lemma sim_op k o f n :
  related k f n → (∀ p, op_peer o = Some p → is_node_id p) → (∀ c, op_payload o = Some c → C c) →
  Z.of_nat (S k) <= 10 ^ 16 →
  reply_ok n o (run_op o f).1 (run_op o n).1 ∧ related (S k) (run_op o f).2 (run_op o n).2.
Proof.
  intros Hr Hids Hcs Hk.
  destruct o; cbn [op_peer op_payload] in *; try specialize (Hids _ eq_refl); try specialize (Hcs _ eq_refl);
    cbn [reply_ok run_op].
  - by eapply (msim_value _ k); [lia|apply sim_register|].
  - by eapply (msim_value _ k); [lia|apply sim_bootstrap|].
  - by eapply (msim_value _ k); [lia|apply sim_subscribe|].
  - by eapply (msim_value _ k); [lia|apply sim_unsubscribe|].
  - by eapply (msim_value _ k); [lia|apply sim_remove|].
  - by eapply (msim_value _ k); [lia|apply sim_known_peers|].
  - by eapply (msim_value _ k); [lia|apply sim_subscriptions_for|].
  - by eapply (msim_value _ (S k)); [lia|apply sim_publish|].
  - by eapply (msim_value _ k); [lia|apply sim_drain; [|lia]|].
  - by eapply (msim_value _ k); [lia|apply sim_advertise|].
  - destruct (sim_request k p cid f n Hids Hcs Hr) as [H1 H2].
    cbn [request_payload FilesystemP2pNetwork_network InMemoryP2pNetwork_network]. unfold m_bind.
    apply (related_weaken _ (S k)) in H2; [|lia].
    destruct (fs_request_payload p cid f) as [[r|e|] f'], (mem_request_payload p cid n) as [[r'|e'|] n'];
      cbn in *; try done; by simplify_eq.
Qed.

Lemma agree_from k f n ops :
  related k f n → Forall (λ o, (∀ p, op_peer o = Some p → is_node_id p)) ops →
  Forall (λ o, (∀ c, op_payload o = Some c → C c)) ops →
  Z.of_nat (k + length ops) <= 10 ^ 16 → agree f n ops.
Proof.
  intros Hr Hids Hcs. revert k f n Hr. induction ops as [|o ops IH]; intros k f n Hr Hk; [done|].
  apply Forall_cons in Hids as [Hid Hids], Hcs as [Hc Hcs]. cbn [length] in Hk.
  destruct (sim_op k o f n Hr Hid Hc) as [H1 H2]; [lia|]. split; [done|].
  apply (IH Hids Hcs (S k)); [done|lia].
Qed.
End Refines.

(** A name the file system takes as the name of a directory of its own. *)
Definition directory_name (s : string) : Prop := s ≠ "" ∧ s ≠ "." ∧ s ≠ "..".

(** C22: The directory network answers as the in-memory one does on payload ids whose directories
    are proper and pairwise different: after a sequence of operations from empty networks -
    registrations, subscriptions, removals, publications, drained inboxes, advertised and requested
    payloads - each operation returns the same value or the same error in both, except that a
    requested payload may be another peer's current advertisement of it. The conditions: the peer
    ids have 32 bytes, no payload id used has an empty directory name or one of dots, two different
    payload ids have different directory names, and no more than 10^16 operations are run (the
    width of the file names). *)
Theorem filesystem_network_refines (ops : list NetOp) :
  Forall is_node_id (omap op_peer ops) →
  Forall (λ c, directory_name (payload_filename_stub_local c)) (omap op_payload ops) →
  (∀ c c', c ∈ omap op_payload ops → c' ∈ omap op_payload ops →
    payload_filename_stub_local c = payload_filename_stub_local c' → c = c') →
  Z.of_nat (length ops) <= 10 ^ 16 →
  agree FilesystemP2pNetwork_new InMemoryP2pNetwork_default ops.
Proof.
  intros Hids _ Hinj Hlen. apply (agree_from (λ c, c ∈ omap op_payload ops) Hinj 0); [apply (related_init _ Hinj)|..|done].
  - apply Forall_forall. intros o Ho p Hp. rewrite Forall_forall in Hids. apply Hids, list_elem_of_omap. by exists o.
  - apply Forall_forall. intros o Ho c Hc. apply list_elem_of_omap. by exists o.
Qed.

(** ** Runs *)

Definition fs_demo_peer (i : Z) : NodeId := replicate 32 i.
Definition fs_demo_ops : list NetOp :=
  [OpBootstrap (fs_demo_peer 1) [Receipts; Batches]; OpRegister (fs_demo_peer 2); OpRegister (fs_demo_peer 3);
   OpPublish (fs_demo_peer 2) demo_message; OpPublish (fs_demo_peer 1) demo_message;
   OpPublish (fs_demo_peer 2) demo_message; OpDrain (fs_demo_peer 1); OpDrain (fs_demo_peer 9);
   OpUnsubscribe (fs_demo_peer 1) Receipts; OpSubscriptions (fs_demo_peer 1);
   OpAdvertise (fs_demo_peer 3) "cid://x" [7] [1]; OpAdvertise (fs_demo_peer 2) "cid://x" [7] [2];
   OpAdvertise (fs_demo_peer 2) "cid://y" [8] [3];
   OpRequest (fs_demo_peer 1) "cid://x"; OpRemove (fs_demo_peer 3); OpPeers].

Lemma filesystem_network_refines_witness :
  agree FilesystemP2pNetwork_new InMemoryP2pNetwork_default fs_demo_ops.
Proof.
  apply (filesystem_network_refines fs_demo_ops).
  - apply Forall_forall. intros p Hp. cbn in Hp. repeat (apply elem_of_cons in Hp as [->|Hp]);
      [split; [done|repeat constructor; unfold is_byte; lia]..|by apply not_elem_of_nil in Hp].
  - repeat constructor; vm_compute; discriminate.
  - intros c c' Hc Hc'. cbn in Hc, Hc'.
    repeat (apply elem_of_cons in Hc as [->|Hc]); [..|by apply not_elem_of_nil in Hc];
      (repeat (apply elem_of_cons in Hc' as [->|Hc']); [by vm_compute..|by apply not_elem_of_nil in Hc']).
  - vm_compute. discriminate.
Defined.

Definition run_state {N} `{P2pNetwork N} (n : N) (ops : list NetOp) : N :=
  foldl (λ n o, (run_op o n).2) n ops.
Definition run_last {N} `{P2pNetwork N} (n : N) (ops : list NetOp) (o : NetOp) : outcome P2pError NetValue :=
  (run_op o (run_state n ops)).1.

Definition fs_two_providers : list NetOp :=
  [OpRegister (fs_demo_peer 2); OpRegister (fs_demo_peer 3);
   OpAdvertise (fs_demo_peer 3) "cid://x" [7] [1]; OpAdvertise (fs_demo_peer 2) "cid://x" [7] [2]].

(** The in-memory network serves the first advertisement, the directories the least peer id. *)
Example providers_differ :
  run_last InMemoryP2pNetwork_default fs_two_providers (OpRequest (fs_demo_peer 2) "cid://x")
    = Ok (VPayload {| provider := fs_demo_peer 3; pp_payload_cid := "cid://x";
                      pp_payload_hash := [7]; pp_payload_bytes := [1] |}) ∧
  run_last FilesystemP2pNetwork_new fs_two_providers (OpRequest (fs_demo_peer 2) "cid://x")
    = Ok (VPayload {| provider := fs_demo_peer 2; pp_payload_cid := "cid://x";
                      pp_payload_hash := [7]; pp_payload_bytes := [2] |}).
Proof. split; vm_compute; reflexivity. Qed.

Definition fs_one_provider : list NetOp :=
  [OpRegister (fs_demo_peer 2); OpAdvertise (fs_demo_peer 2) "cid://a/b" [7] [1]].

(** Two payload ids share a directory: a request for one that nobody advertised is answered with
    the other, where the in-memory network reports that it is missing. *)
Example payload_directories_collide :
  run_last InMemoryP2pNetwork_default fs_one_provider (OpRequest (fs_demo_peer 2) "cid://a_b")
    = Err (MissingPayload "cid://a_b") ∧
  run_last FilesystemP2pNetwork_new fs_one_provider (OpRequest (fs_demo_peer 2) "cid://a_b")
    = Ok (VPayload {| provider := fs_demo_peer 2; pp_payload_cid := "cid://a/b";
                      pp_payload_hash := [7]; pp_payload_bytes := [1] |}).
Proof. split; vm_compute; reflexivity. Qed.

Definition fs_receipt (i : Z) : P2pMessage :=
  MsgReplicaReceipt {| ra_receipt := demo_receipt; ra_payload_hash := [i]; ra_payload_size_bytes := 3 |}.

(** Three messages are in the inbox, and the file of the second is damaged. *)
Definition fs_damaged : FilesystemP2pNetwork :=
  let n := run_state FilesystemP2pNetwork_new
    [OpBootstrap (fs_demo_peer 1) [Receipts]; OpRegister (fs_demo_peer 2);
     OpPublish (fs_demo_peer 2) (fs_receipt 1); OpPublish (fs_demo_peer 2) (fs_receipt 2);
     OpPublish (fs_demo_peer 2) (fs_receipt 3)] in
  let d := peer_dir n (fs_demo_peer 1) in
  set_peer_dir n (fs_demo_peer 1) (set_pd_inbox d (<[envelope_name 1 := Malformed "eof"]> (pd_inbox d))).

Definition inbox_files (n : FilesystemP2pNetwork) : list (string * File P2pEnvelope) :=
  bt_iter (pd_inbox (peer_dir n (fs_demo_peer 1))).

(** Draining fails, the first message is gone with its file; the next publication takes the name of the
    third, which is lost, and the inbox still cannot be drained. *)
Example damaged_inbox_loses_messages :
  run_last fs_damaged [] (OpDrain (fs_demo_peer 1)) = Err (P2pJson "eof") ∧
  inbox_files (run_state fs_damaged [OpDrain (fs_demo_peer 1)])
    = [(envelope_name 1, Malformed "eof"); (envelope_name 2, Parsed (envelope (fs_demo_peer 2) (fs_receipt 3)))] ∧
  inbox_files (run_state fs_damaged [OpDrain (fs_demo_peer 1); OpPublish (fs_demo_peer 2) (fs_receipt 4)])
    = [(envelope_name 1, Malformed "eof"); (envelope_name 2, Parsed (envelope (fs_demo_peer 2) (fs_receipt 4)))] ∧
  run_last fs_damaged [OpDrain (fs_demo_peer 1); OpPublish (fs_demo_peer 2) (fs_receipt 4)] (OpDrain (fs_demo_peer 1))
    = Err (P2pJson "eof").
Proof. split_and!; vm_compute; reflexivity. Qed.
