(* ===== verification/GameDirectory.v ===== *)
(** * Recognising games: src/src/steam_game_directory.rs and the process names of src/src/os_support.rs

    Which executables are games and which application a process stands for: a catalogue, a
    cache file, and the Steam libraries on disk. Names are compared in a normal form. The
    files are those of [Host] of ProofBinary, a path is its list of components, and which of
    the paths are directories is a parameter. [None] in the result of a function that slices a
    name is its panic; [canonical_process_name] is the same code in node_rewards.rs,
    steam_game_directory.rs and cli_client.rs. *)
From S2P Require Import Prelude Primitives Text Rewards NodeConfig ActiveParams ProofBinary.
Local Open Scope pole_scope.
Local Open Scope string_scope.
Local Open Scope Z_scope.

(** ** Process names *)

(** [normalize_process_name] of os_support.rs: of the last component of a path. *)
Definition os_normalize_process_name (input : string) : string :=
  let base := default input (path_file_name (path_join [] input)) in
  trim_end_matches (to_ascii_lowercase (trim base)) ".exe".

Definition non_game_patterns : list string :=
  ["crashpad"; "crashhandler"; "crashreport"; "webhelper"; "cefsubprocess"; "anticheat"; "installer";
   "unins000"; "uninstall"; "vcredist"; "dxsetup"].
Definition non_game_names : list string :=
  ["pole"; "pole-client"; "pole-node"; "pole-genesis"; "pole-sbom"; "cmd"; "powershell"; "pwsh"; "conhost";
   "windowsterminal"; "openconsole"; "explorer"; "devenv"; "code"; "idea64"; "notepad"; "notepad++";
   "sublime_text"; "svchost"; "taskhostw"; "taskmgr"; "system"; "idle"; "registry"; "smss"; "csrss";
   "wininit"; "services"; "lsass"; "fontdrvhost"; "dwm"; "sihost"; "ctfmon"; "rundll32"; "dllhost";
   "antigravity"; "msedge"; "chrome"; "firefox"; "brave"; "opera"; "vivaldi"; "wemeetapp"; "qq"; "wechat";
   "dingtalk"; "feishu"; "lark"; "discord"; "slack"; "teams"; "steam"; "steamwebhelper";
   "steamerrorreporter"; "steamerrorreporter64"; "epicgameslauncher"; "epicwebhelper"; "origin";
   "eadesktop"; "eawebhelper"; "goggalaxy"; "uplay"; "upc"; "battle.net"; "agent"; "riotclientux";
   "riotclientservices"; "werfault"; "werfaultsecure"; "wermgr"; "qtwebengineprocess"; "beservice";
   "battleye"; "vgk"; "vgc"; "punkbuster"; "pbsvc"; "setup"].

Definition non_game_normalized (normalized : string) : bool :=
  str_is_empty normalized || existsb (str_contains normalized) non_game_patterns
  || bool_decide (normalized ∈ non_game_names).
Definition is_non_game_executable (process_name : string) : bool :=
  non_game_normalized (os_normalize_process_name process_name).
Definition should_capture_foreground_process (process_name : string) : bool :=
  negb (is_non_game_executable process_name).

Fixpoint normalize_names_from (seen : gset string) (names : list string) : list string :=
  match names with
  | [] => []
  | name :: names =>
      let name := os_normalize_process_name name in
      if negb (str_is_empty name) && bool_decide (name ∉ seen)
      then name :: normalize_names_from ({[name]} ∪ seen) names
      else normalize_names_from seen names
  end.
Definition normalize_process_names (names : list string) : list string := normalize_names_from ∅ names.

Definition display_process_name (input : string) : option (option string) :=
  if str_is_empty (trim input) then Some None else Some <$> canonical_process_name input.

Definition match_configured_process_names (configured running : list string) : list string :=
  let running_set : gset string := list_to_set (normalize_process_names running) in
  filter (λ name, name ∈ running_set) configured.

(** [running]: what the process snapshot lists. *)
Definition detect_active_process_names (running process_names : list string) : list string :=
  let configured :=
    filter (λ name, is_non_game_executable name = false) (normalize_process_names process_names) in
  if bool_decide (configured = []) then [] else match_configured_process_names configured running.

(** ** Engagement *)

Inductive PlayEngagementState := MainMenu | InWorld.

Definition is_main_menu_or_launcher_title (title : string) : bool :=
  let trimmed := trim (to_ascii_lowercase title) in
  if str_is_empty trimmed then false else
  existsb (str_contains trimmed) ["launcher"; "updater"; "splash screen"; "press start"; "press any key";
    "title screen"; "main menu"; "login"; "sign in"]
  || bool_decide (is_Some (strip_suffix trimmed " - main menu"))
  || bool_decide (is_Some (strip_suffix trimmed " - title")).

Definition is_launcher_process_name (process_name : string) : bool :=
  existsb (str_contains (to_ascii_lowercase process_name))
    ["launcher"; "bootstrap"; "updater"; "crashreport"; "easyanticheat"].

(** [running]: the snapshot with the process ids. *)
Definition find_process_id_by_name (running : list (string * Z)) (process_name : string) : option Z :=
  let target := os_normalize_process_name process_name in
  if str_is_empty target then None else
  snd ∘ snd <$> list_find (λ entry, os_normalize_process_name entry.1 = target) running.

Section Engagement.
Context (h : Host) (clock : option Z) (running : list (string * Z)).
(** The two answers of [detect_foreground_window_title], and the working set of a process. *)
Context (title0 title1 : option string) (working_set : Z → Z).

Definition title_is_menu (title : option string) : bool :=
  match title with Some t => is_main_menu_or_launcher_title t | None => false end.

Definition untrusted_binary (pid : option Z) : bool :=
  match pid with
  | Some pid => negb (pid =? 0) &&
      match generate_l1_binary_proof h clock pid None with
      | Ok proof => bool_decide (bp_tier proof = Untrusted)
      | _ => false
      end
  | None => false
  end.

Definition small_menu (process_name : string) (pid : option Z) : bool :=
  match pid, title1 with
  | Some pid, Some title =>
      (0 <? working_set pid) && (working_set pid <? 120 * 1024 * 1024)
      && str_contains (to_ascii_lowercase title) (os_normalize_process_name process_name)
      && is_main_menu_or_launcher_title title
  | _, _ => false
  end.

(** [override]: [debug_override_engagement_state], [None] in a release build. *)
Definition evaluate_game_engagement (override : option PlayEngagementState) (process_name : string)
    (pid : option Z) : PlayEngagementState :=
  match override with
  | Some state => state
  | None =>
      if is_launcher_process_name process_name then MainMenu else
      let effective_pid := match pid with Some p => Some p | None => find_process_id_by_name running process_name end in
      if untrusted_binary effective_pid then MainMenu
      else if title_is_menu title0 then MainMenu
      else if small_menu process_name effective_pid then MainMenu
      else InWorld
  end.
End Engagement.

(** ** The catalogue *)

Definition DEFAULT_GAME_COEFFICIENT_PPM : Z := 1000000.
Definition KNOWN_STEAM_GAMES : list (string * AppId * Z) :=
  [("cs2.exe", 730, 1000000); ("dota2.exe", 570, 1000000); ("eldenring.exe", 1245620, 1000000);
   ("r5apex.exe", 1172470, 1000000); ("helldivers2.exe", 553850, 1000000); ("tslgame.exe", 578080, 1000000);
   ("Genesis.exe", 4891320, 1000000); ("TaskbarHero.exe", 3678970, 1000000)].
Definition KNOWN_EPIC_GAMES : list (string * AppId * Z) :=
  [("rocketleague.exe", 252950, 1000000); ("borderlands3.exe", 397540, 1000000);
   ("control_dx11.exe", 870780, 1000000); ("control_dx12.exe", 870780, 1000000)].
Definition KNOWN_EA_GAMES : list (string * AppId * Z) :=
  [("masseffectlauncher.exe", 1328670, 1000000); ("ittakestwo.exe", 1426210, 1000000);
   ("starwarsjedisurvivor.exe", 1774580, 1000000)].
Definition KNOWN_GOG_GAMES : list (string * AppId * Z) :=
  [("cyberpunk2077.exe", 1091500, 1000000); ("witcher3.exe", 292030, 1000000);
   ("baldursgate3.exe", 1080940, 1000000)].
Definition known_games : list (string * AppId * Z) :=
  (KNOWN_STEAM_GAMES ++ KNOWN_EPIC_GAMES ++ KNOWN_EA_GAMES ++ KNOWN_GOG_GAMES)%list.

(** A mapping found, or none; the outer option is the panic of the slice. *)
Definition canonical_mapping (name : string) (app_id : AppId) (coefficient : Z)
    : option (option RewardGameMapping) :=
  name ← canonical_process_name name;
  Some (Some {| process_name := name; gm_app_id := app_id; game_coefficient_ppm := coefficient |}).

Definition known_catalog_mapping (name : string) : option (option RewardGameMapping) :=
  let normalized := os_normalize_process_name name in
  match list_find (λ g, os_normalize_process_name g.1.1 = normalized) known_games with
  | Some (_, (name, app_id, coefficient)) => canonical_mapping name app_id coefficient
  | None => Some None
  end.

(** ** The cache file *)

Record RecognitionCacheEntry := {
  ce_process_name : string;
  ce_app_id : AppId;
  ce_coefficient : Z;
}.

(** No file, a file that cannot be read or parsed, or entries. *)
Inductive CacheFile := CacheMissing | CacheBroken | CacheEntries (l : list RecognitionCacheEntry).

Definition is_game_entry (e : RecognitionCacheEntry) : bool := negb (is_non_game_executable (ce_process_name e)).

(** [RecognitionCache::load_json] *)
Definition cache_load (f : CacheFile) : option (list RecognitionCacheEntry) :=
  match f with
  | CacheMissing => Some []
  | CacheBroken => None
  | CacheEntries l => Some (filter (λ e, is_game_entry e = true) l)
  end.

Definition load_cached_reward_game_mapping (f : CacheFile) (name : string)
    : option (option RewardGameMapping) :=
  if is_non_game_executable name then Some None else
  match cache_load f with
  | None => Some None
  | Some entries =>
      let normalized := os_normalize_process_name name in
      match list_find (λ e, is_game_entry e = true ∧ os_normalize_process_name (ce_process_name e) = normalized)
              entries with
      | Some (_, e) => canonical_mapping (ce_process_name e) (ce_app_id e) (ce_coefficient e)
      | None => Some None
      end
  end.

(** [writable]: whether the write succeeds; the callers ignore its error. *)
Definition store_cached_reward_game_mapping (writable : bool) (f : CacheFile) (m : RewardGameMapping)
    : option CacheFile :=
  if is_non_game_executable (process_name m) then Some f else
  let entries := default [] (cache_load f) in
  let normalized := os_normalize_process_name (process_name m) in
  let kept := filter (λ e, is_game_entry e = true
    ∧ os_normalize_process_name (ce_process_name e) ≠ normalized) entries in
  name ← canonical_process_name (process_name m);
  let entries := (kept ++ [{| ce_process_name := name; ce_app_id := gm_app_id m;
                              ce_coefficient := game_coefficient_ppm m |}])%list in
  Some (if writable then CacheEntries (sort_by (λ a b, leb (ce_process_name a) (ce_process_name b)) entries)
        else f).

(** ** Steam libraries *)

Definition parse_app_id_from_manifest_name (file_name : string) : option AppId :=
  rest ← strip_prefix file_name "appmanifest_";
  id ← strip_suffix rest ".acf";
  match parse_uint 32 id with Ok n => Some n | _ => None end.

(** The quotation mark is one byte, so that the characters between two are bytes here. *)
Fixpoint quoted_tokens_from (in_quote : bool) (current : list Z) (l : list Z) : list (list Z) :=
  match l with
  | [] => []
  | ch :: l =>
      if in_quote then
        if ch =? 34 then current :: quoted_tokens_from false [] l
        else quoted_tokens_from true (current ++ [ch])%list l
      else if ch =? 34 then quoted_tokens_from true current l
      else quoted_tokens_from false current l
  end.
Definition quoted_tokens (line : string) : list string :=
  string_of_bytes <$> quoted_tokens_from false [] (string_bytes line).

(** Two quoted tokens of which the first is the field. *)
Definition field_of_line (field line : string) : option string :=
  match quoted_tokens line with
  | key :: value :: _ =>
      if eq_ignore_ascii_case key field then Some (str_replace value "\\" "\") else None
  | _ => None
  end.
Definition parse_manifest_string_field (content field : string) : option string :=
  head (omap (field_of_line field) (str_lines content)).

Definition library_path (line : string) : option Path := path_join [] <$> field_of_line "path" line.

Section Libraries.
Context (h : Host) (is_dir : Path → bool).
Definition path_exists (p : Path) : bool := host_is_file h p || is_dir p.

Definition parse_libraryfolders (root : Path) : list Path :=
  match host_read_to_string h (root ++ ["steamapps"; "libraryfolders.vdf"])%list with
  | Some content => omap library_path (str_lines content)
  | None => []
  end.

(** The entries of one directory: the directories among them are pushed, and a file with
    the name ends the search. *)
Fixpoint scan_entries (target : string) (dir : Path) (depth : nat) (entries : list string)
    (stack : list (Path * nat)) : bool * list (Path * nat) :=
  match entries with
  | [] => (false, stack)
  | name :: entries =>
      let path := (dir ++ [name])%list in
      if is_dir path then scan_entries target dir depth entries ((path, S depth) :: stack)
      else if is_non_game_executable name then scan_entries target dir depth entries stack
      else if bool_decide (os_normalize_process_name name = target) then (true, stack)
      else scan_entries target dir depth entries stack
  end.

(** The stack of directories still to be read; [None] when the fuel is used up. *)
Fixpoint search_loop (fuel : nat) (target : string) (stack : list (Path * nat)) : option bool :=
  match fuel, stack with
  | _, [] => Some false
  | O, _ => None
  | S fuel, (dir, depth) :: stack =>
      if (3 <? depth)%nat then search_loop fuel target stack else
      match host_read_dir h dir with
      | None => search_loop fuel target stack
      | Some entries =>
          let '(found, stack) := scan_entries target dir depth entries stack in
          if found then Some true else search_loop fuel target stack
      end
  end.

(** The directories of a tree of this height, as many rounds as the loop needs. *)
Fixpoint tree_rounds (height : nat) (dir : Path) : nat :=
  match height with
  | O => 1
  | S height =>
      match host_read_dir h dir with
      | None => 1
      | Some entries =>
          S (sum_list_with (λ name, if is_dir (dir ++ [name])%list then tree_rounds height (dir ++ [name])%list else 0%nat)
               entries)
      end
  end.

Definition process_exists_in_install_dir (install_dir : Path) (normalized : string) : bool :=
  if negb (path_exists install_dir) then false
  else default false (search_loop (tree_rounds 4 install_dir) normalized [(install_dir, 0%nat)]).

(** One manifest of a library: the application it installs, when the process is in it. *)
Definition manifest_mapping (steamapps_dir : Path) (name normalized file_name : string)
    : option RewardGameMapping :=
  if negb (host_is_file h (steamapps_dir ++ [file_name])%list) then None else
  if negb (bool_decide (is_Some (strip_prefix file_name "appmanifest_"))
           && bool_decide (is_Some (strip_suffix file_name ".acf"))) then None else
  app_id ← parse_app_id_from_manifest_name file_name;
  manifest_text ← host_read_to_string h (steamapps_dir ++ [file_name])%list;
  install_dir_name ← parse_manifest_string_field manifest_text "installdir";
  let install_dir := path_join (path_join steamapps_dir "common") install_dir_name in
  if process_exists_in_install_dir install_dir normalized
  then Some {| process_name := name; gm_app_id := app_id; game_coefficient_ppm := DEFAULT_GAME_COEFFICIENT_PPM |}
  else None.

Definition library_mapping (name normalized : string) (root : Path) : option RewardGameMapping :=
  let steamapps_dir := (root ++ ["steamapps"])%list in
  if negb (path_exists steamapps_dir) then None else
  manifests ← host_read_dir h steamapps_dir;
  head (omap (manifest_mapping steamapps_dir name normalized) (sort_by leb manifests)).

Definition scan_steam_library_roots (name : string) (roots : list Path) : option RewardGameMapping :=
  let normalized := os_normalize_process_name name in
  if str_is_empty normalized || is_non_game_executable normalized then None
  else head (omap (library_mapping name normalized) roots).

Definition infer_reward_game_mapping_from_roots (name : string) (roots : list Path)
    : option (option RewardGameMapping) :=
  name ← canonical_process_name name;
  if str_is_empty name || is_non_game_executable name then Some None else
  match known_catalog_mapping name with
  | None => None
  | Some (Some mapping) => Some (Some mapping)
  | Some None => Some (scan_steam_library_roots name roots)
  end.
End Libraries.

(** [roots]: what [discover_steam_library_roots] finds. *)
Definition infer_reward_game_mapping (h : Host) (is_dir : Path → bool) (roots : list Path) (name : string)
    : option (option RewardGameMapping) :=
  name ← canonical_process_name name;
  infer_reward_game_mapping_from_roots h is_dir name roots.

(** * Lemmas and theorems *)

(** ** The search in an installation directory *)

Section InstallSearch.
Context (h : Host) (is_dir : Path → bool) (target : string).

(** A file of that name at most so many directories below. *)
Fixpoint found_within (height : nat) (dir : Path) : bool :=
  match height with
  | O => false
  | S height =>
      match host_read_dir h dir with
      | None => false
      | Some entries =>
          existsb (λ name, if is_dir (dir ++ [name])%list then found_within height (dir ++ [name])%list
            else negb (is_non_game_executable name) && bool_decide (os_normalize_process_name name = target)) entries
      end
  end.

Local Notation rounds := (tree_rounds h is_dir).
Definition found_in (stack : list (Path * nat)) : bool := existsb (λ d, found_within (4 - d.2) d.1) stack.
Definition stack_rounds (stack : list (Path * nat)) : nat := sum_list_with (λ d, rounds (4 - d.2) d.1) stack.

(** What the entries of a directory add to the stack. *)
Lemma scan_entries_spec dir depth entries stack :
  let found := existsb (λ name, negb (is_dir (dir ++ [name])%list) && (negb (is_non_game_executable name)
    && bool_decide (os_normalize_process_name name = target))) entries in
  let '(r, stack') := scan_entries is_dir target dir depth entries stack in
  r = found ∧ (r = false →
    found_in stack' = existsb (λ name, is_dir (dir ++ [name])%list
      && found_within (4 - S depth) (dir ++ [name])%list) entries || found_in stack ∧
    stack_rounds stack' = (sum_list_with (λ name, if is_dir (dir ++ [name])%list
      then rounds (4 - S depth) (dir ++ [name])%list else 0) entries + stack_rounds stack)%nat).
Proof.
  revert stack. induction entries as [|name entries IH]; intros stack; [done|].
  cbn [scan_entries existsb sum_list_with].
  destruct (is_dir (dir ++ [name])%list) eqn:Ed; cbn [negb andb orb].
  - specialize (IH ((dir ++ [name], S depth) :: stack)%list). cbn beta zeta iota in IH.
    destruct (scan_entries _ _ _ _ entries _) as [r stack']. destruct IH as [-> IH]. split; [done|].
    intros Hr. destruct (IH Hr) as [-> ->]. unfold found_in, stack_rounds. cbn [existsb sum_list_with fst snd].
    split; [|lia]. rewrite !orb_assoc. f_equal. apply orb_comm.
  - specialize (IH stack). cbn beta zeta iota in IH.
    destruct (is_non_game_executable name); cbn [negb andb orb]; [done|].
    case_bool_decide; cbn [negb andb orb]; done.
Qed.

Lemma existsb_split {A} (p f g : A → bool) l :
  existsb (λ a, if p a then f a else g a) l
    = existsb (λ a, negb (p a) && g a) l || existsb (λ a, p a && f a) l.
Proof.
  induction l as [|a l IH]; [done|]. cbn. rewrite IH. destruct (p a), (f a), (g a); cbn;
    by rewrite ?orb_true_r, ?orb_false_r.
Qed.

Lemma search_loop_spec fuel stack :
  (stack_rounds stack <= fuel)%nat → search_loop h is_dir fuel target stack = Some (found_in stack).
Proof.
  revert stack. induction fuel as [|fuel IH]; intros [|[dir depth] stack] Hf; cbn [search_loop]; try done.
  - exfalso. unfold stack_rounds in Hf. cbn in Hf.
    assert (1 <= rounds (4 - depth) dir)%nat; [|lia].
    destruct (4 - depth)%nat; cbn; [lia|]. destruct (host_read_dir h dir); lia.
  - unfold stack_rounds in Hf. cbn [sum_list_with fst snd] in Hf. fold (stack_rounds stack) in Hf.
    unfold found_in. cbn [existsb fst snd]. fold (found_in stack).
    destruct (Nat.ltb_spec 3 depth) as [Hd|Hd].
    + replace (4 - depth)%nat with 0%nat in * by lia. cbn in *. apply IH. lia.
    + replace (4 - depth)%nat with (S (4 - S depth)) in * by lia. cbn [found_within tree_rounds] in *.
      destruct (host_read_dir h dir) as [entries|]; [|apply IH; lia].
      pose proof (scan_entries_spec dir depth entries stack) as Hs. cbn zeta in Hs.
      destruct (scan_entries _ _ _ _ _ _) as [r stack']. destruct Hs as [Hr Hs]. rewrite existsb_split, <- Hr.
      destruct r; [done|]. destruct (Hs eq_refl) as [Hfound Hrounds]. rewrite IH; [by rewrite Hfound|].
      rewrite Hrounds. lia.
Qed.
End InstallSearch.

(** The search for an executable in an installation directory ends, and finds it exactly when a file of
    that name that may be a game lies in the directory or at most three directories below it. *)
Theorem process_exists_iff h is_dir dir target :
  process_exists_in_install_dir h is_dir dir target
    = path_exists h is_dir dir && found_within h is_dir target 4 dir ∧
  search_loop h is_dir (tree_rounds h is_dir 4 dir) target [(dir, 0%nat)] = Some (found_within h is_dir target 4 dir).
Proof.
  assert (search_loop h is_dir (tree_rounds h is_dir 4 dir) target [(dir, 0%nat)]
    = Some (found_within h is_dir target 4 dir)) as E.
  { rewrite search_loop_spec; unfold stack_rounds, found_in; cbn [sum_list_with existsb fst snd];
      change (4 - 0)%nat with 4%nat; [by rewrite orb_false_r|lia]. }
  split; [|done]. unfold process_exists_in_install_dir. rewrite E. by destruct (path_exists h is_dir dir).
Qed.

(** ** Engagement *)

Lemma tier_never_untrusted e : evaluate_binary_tier e ≠ Untrusted.
Proof. unfold evaluate_binary_tier. by repeat case_match. Qed.

Lemma untrusted_never h clock pid : untrusted_binary h clock pid = false.
Proof.
  unfold untrusted_binary. destruct pid as [pid|]; [|done]. destruct (pid =? 0); [done|]. cbn [negb andb].
  unfold generate_l1_binary_proof. destruct (capture_raw_binary_evidence _ _ _ _) as [e| |]; [|done..].
  cbn. apply bool_decide_eq_false_2, tier_never_untrusted.
Qed.

(** Without an override, a process counts as playing exactly when its name is not that of a launcher and
    the title of the foreground window is not that of a menu: neither the check of the binary behind the
    process nor its working set changes the answer, as long as the title is the same at both readings. *)
Theorem engagement_by_names_only h clock running title working_set process_name pid :
  evaluate_game_engagement h clock running title title working_set None process_name pid
    = if is_launcher_process_name process_name || title_is_menu title then MainMenu else InWorld.
Proof.
  unfold evaluate_game_engagement. destruct (is_launcher_process_name process_name); [done|].
  rewrite untrusted_never. cbn [orb]. destruct (title_is_menu title) eqn:Et; [done|].
  assert (∀ p, small_menu title working_set process_name p = false) as ->; [|done].
  intros p. unfold small_menu. destruct p, title as [t|]; try done. cbn in Et. by rewrite Et, andb_false_r.
Qed.

(** A game of the catalogue that is taken for a launcher whenever it runs. *)
Example catalogue_game_is_launcher :
  is_Some (known_catalog_mapping "MassEffectLauncher.exe" ≫= id) ∧
  is_launcher_process_name "MassEffectLauncher.exe" = true.
Proof. split; [by eexists|]. vm_compute. reflexivity. Qed.

(** ** Trimmed names *)

Definition starts_ws (l : list Z) : bool :=
  match l with
  | [] => false
  | [a] => ws1 a
  | [a; b] => ws1 a || ws2 a b
  | a :: b :: c :: _ => ws1 a || ws2 a b || ws3 a b c
  end.

Lemma trim_start_fixed l : starts_ws l = false → trim_start_bytes l = l.
Proof.
  destruct l as [|a [|b [|c l]]]; cbn [starts_ws trim_start_bytes]; [done|by intros ->|..];
    rewrite !orb_false_iff; intros; destruct_and?; repeat case_match; congruence.
Qed.

Lemma trim_start_starts l : starts_ws (trim_start_bytes l) = false.
Proof.
  induction l as [l IH] using (induction_ltof1 _ (@length Z)). unfold ltof in IH.
  destruct l as [|a [|b [|c l]]]; cbn [trim_start_bytes]; [done|..].
  - by destruct (ws1 a) eqn:E.
  - destruct (ws1 a) eqn:E; [apply (IH [b]); cbn; lia|]. destruct (ws2 a b) eqn:E2; [done|].
    cbn. by rewrite E, E2.
  - destruct (ws1 a) eqn:E; [apply (IH (b :: c :: l)); cbn; lia|].
    destruct (ws2 a b) eqn:E2; [apply (IH (c :: l)); cbn; lia|].
    destruct (ws3 a b c) eqn:E3; [apply (IH l); cbn; lia|]. cbn. by rewrite E, E2, E3.
Qed.

Lemma trim_end_suffix l : ∃ w, l = (w ++ trim_end_rev l)%list.
Proof.
  induction l as [l IH] using (induction_ltof1 _ (@length Z)). unfold ltof in IH.
  assert (∀ w l', (length l' < length l)%nat → l = (w ++ l')%list → ∃ w', l = (w' ++ trim_end_rev l')%list) as Hstep.
  { intros w l' Hl E. destruct (IH l' Hl) as [w' Hw]. exists (w ++ w')%list.
    rewrite <- app_assoc. congruence. }
  destruct l as [|c [|b [|a l]]]; cbn [trim_end_rev]; [by exists []|..].
  - destruct (ws1 c); [by exists [c]|by exists []].
  - destruct (ws1 c); [apply (Hstep [c] [b]); [cbn; lia|done]|].
    destruct (ws2 b c); [by exists [c; b]|by exists []].
  - destruct (ws1 c); [apply (Hstep [c] (b :: a :: l)); [cbn; lia|done]|].
    destruct (ws2 b c); [apply (Hstep [c; b] (a :: l)); [cbn; lia|done]|].
    destruct (ws3 a b c); [apply (Hstep [c; b; a] l); [cbn; lia|done]|by exists []].
Qed.

Lemma trim_start_suffix l : ∃ w, l = (w ++ trim_start_bytes l)%list.
Proof.
  induction l as [l IH] using (induction_ltof1 _ (@length Z)). unfold ltof in IH.
  assert (∀ w l', (length l' < length l)%nat → l = (w ++ l')%list → ∃ w', l = (w' ++ trim_start_bytes l')%list) as Hstep.
  { intros w l' Hl E. destruct (IH l' Hl) as [w' Hw]. exists (w ++ w')%list.
    rewrite <- app_assoc. congruence. }
  destruct l as [|a [|b [|c l]]]; cbn [trim_start_bytes]; [by exists []|..].
  - destruct (ws1 a); [by exists [a]|by exists []].
  - destruct (ws1 a); [apply (Hstep [a] [b]); [cbn; lia|done]|].
    destruct (ws2 a b); [by exists [a; b]|by exists []].
  - destruct (ws1 a); [apply (Hstep [a] (b :: c :: l)); [cbn; lia|done]|].
    destruct (ws2 a b); [apply (Hstep [a; b] (c :: l)); [cbn; lia|done]|].
    destruct (ws3 a b c); [apply (Hstep [a; b; c] l); [cbn; lia|done]|by exists []].
Qed.

(** Trimming keeps a prefix of what is left after the leading white space. *)
Lemma trim_bytes_prefix l : ∃ w, trim_start_bytes l = (trim_bytes l ++ w)%list.
Proof.
  destruct (trim_end_suffix (rev (trim_start_bytes l))) as [w Hw]. exists (rev w).
  unfold trim_bytes. rewrite <- rev_app_distr, <- Hw. by rewrite rev_involutive.
Qed.

Definition dot_exe : list Z := [46; 101; 120; 101].

Lemma ws2_dot a b : ws2 a b = true → b ≠ 46 ∧ b ≠ 101.
Proof. unfold ws2. rewrite !andb_true_iff, orb_true_iff, !Z.eqb_eq. lia. Qed.
Lemma ws3_high a b c : ws3 a b c = true → 128 <= b ∧ 128 <= c.
Proof.
  unfold ws3. rewrite !orb_true_iff, !andb_true_iff, !orb_true_iff, !andb_true_iff, !Z.eqb_eq, !Z.leb_le. lia.
Qed.

Lemma starts_ws_exe p w : starts_ws (p ++ w) = false → starts_ws (p ++ dot_exe) = false.
Proof.
  destruct p as [|a [|b [|c p]]]; [done|..]; intros H; unfold dot_exe; cbn [app starts_ws] in *.
  - assert (ws1 a = false) as -> by (destruct w as [|? [|? ?]]; cbn in H; rewrite ?orb_false_iff in H; tauto).
    destruct (ws2 a 46) eqn:E2; [apply ws2_dot in E2; lia|].
    destruct (ws3 a 46 101) eqn:E3; [apply ws3_high in E3; lia|done].
  - assert (ws1 a = false ∧ ws2 a b = false) as [-> ->]
      by (destruct w as [|? ?]; cbn in H; rewrite ?orb_false_iff in H; tauto).
    destruct (ws3 a b 46) eqn:E3; [apply ws3_high in E3; lia|done].
  - done.
Qed.

Lemma trim_end_rev_e l : trim_end_rev (101 :: l) = 101 :: l.
Proof.
  destruct l as [|b [|a l]]; cbn [trim_end_rev]; [done|..].
  - destruct (ws2 b 101) eqn:E; [apply ws2_dot in E; lia|done].
  - destruct (ws2 b 101) eqn:E; [apply ws2_dot in E; lia|].
    destruct (ws3 a b 101) eqn:E3; [apply ws3_high in E3; lia|done].
Qed.

Lemma trim_exe p w : starts_ws (p ++ w) = false → trim_bytes (p ++ dot_exe) = (p ++ dot_exe)%list.
Proof.
  intros H. unfold trim_bytes. rewrite trim_start_fixed by (by eapply starts_ws_exe).
  rewrite rev_app_distr. cbn [dot_exe rev app]. rewrite trim_end_rev_e. cbn [rev].
  by rewrite rev_involutive, <- !app_assoc.
Qed.

(** The trimmed bytes lie between the leading and the trailing white space. *)
Lemma trim_bytes_infix l : ∃ v w, l = (v ++ trim_bytes l ++ w)%list.
Proof.
  destruct (trim_start_suffix l) as [v Hv]. destruct (trim_bytes_prefix l) as [w Hw]. exists v, w. by rewrite <- Hw.
Qed.

Lemma trim_bytes_bytes s : Forall is_byte (trim_bytes (string_bytes s)).
Proof.
  pose proof (string_bytes_range s) as Hs. destruct (trim_bytes_infix (string_bytes s)) as (v & w & E).
  rewrite E in Hs. rewrite !Forall_app in Hs. tauto.
Qed.

Lemma string_bytes_trim s : string_bytes (trim s) = trim_bytes (string_bytes s).
Proof. apply string_bytes_of_bytes, trim_bytes_bytes. Qed.

(** A name is blank, or its canonical form is a prefix of the trimmed name, with the extension. *)
Lemma canonical_spec x r :
  canonical_process_name x = Some r →
  (trim x = "" ∧ r = "") ∨
  (trim x ≠ "" ∧ ∃ base tail, string_bytes r = (base ++ dot_exe)%list ∧ string_bytes (trim x) = (base ++ tail)%list ∧
     (tail = [] ∨ lower_byte <$> tail = dot_exe)).
Proof.
  unfold canonical_process_name. destruct (str_is_empty (trim x)) eqn:Ee.
  { intros [= <-]. left. by destruct (trim x). }
  apply str_is_empty_false in Ee. intros H. right. split; [done|].
  pose proof (string_bytes_range (trim x)) as Hr.
  destruct (4 <=? String.length (trim x))%nat.
  - unfold slice_from, slice_to in H.
    destruct (is_char_boundary _ _); [|done]. cbn in H.
    set (k := (String.length (trim x) - 4)%nat) in *.
    destruct (eq_ignore_ascii_case _ _) eqn:Eq; cbn in H; injection H as <-.
    + exists (take k (string_bytes (trim x))), (drop k (string_bytes (trim x))).
      rewrite string_bytes_app, string_bytes_of_bytes by (by apply Forall_take).
      rewrite take_drop. split_and!; [done..|]. right.
      unfold eq_ignore_ascii_case in Eq. apply bool_decide_eq_true in Eq.
      apply (f_equal string_bytes) in Eq. rewrite !string_bytes_lower in Eq.
      by rewrite string_bytes_of_bytes in Eq by (by apply Forall_drop).
    + exists (string_bytes (trim x)), []. rewrite string_bytes_app, app_nil_r. split_and!; auto.
  - cbn in H. injection H as <-. exists (string_bytes (trim x)), [].
    rewrite string_bytes_app, app_nil_r. split_and!; auto.
Qed.

Lemma canonical_trimmed x r : canonical_process_name x = Some r → trim r = r.
Proof.
  intros [[_ ->]|(_ & base & tail & Hr & Ht & _)]%canonical_spec; [done|].
  apply string_bytes_inj. rewrite string_bytes_trim, Hr.
  destruct (trim_bytes_prefix (string_bytes x)) as [w Hw].
  apply (trim_exe base (tail ++ w)). rewrite app_assoc, <- Ht, string_bytes_trim, <- Hw.
  apply trim_start_starts.
Qed.

Lemma canonical_of_exe r base :
  trim r = r → string_bytes r = (base ++ dot_exe)%list → canonical_process_name r = Some r.
Proof.
  intros Htrim Hr. unfold canonical_process_name. rewrite Htrim.
  assert (String.length r = (length base + 4)%nat) as Hlen by (rewrite <- string_bytes_length, Hr, length_app; done).
  destruct (str_is_empty r) eqn:Ee; [destruct r; [cbn in Hlen; lia|done]|].
  rewrite (proj2 (Nat.leb_le _ _)) by lia. rewrite Hlen, Nat.add_sub.
  assert (is_char_boundary (string_bytes r) (length base) = true) as Hb.
  { unfold is_char_boundary. rewrite Hr, lookup_app_r, Nat.sub_diag by done. done. }
  unfold slice_from, slice_to. rewrite Hb. cbn [mbind option_bind].
  rewrite Hr, drop_app_length, take_app_length.
  change (string_of_bytes dot_exe) with ".exe". cbn [eq_ignore_ascii_case].
  replace (eq_ignore_ascii_case ".exe" ".exe") with true by done. cbn [mbind option_bind].
  f_equal. apply string_bytes_inj. rewrite string_bytes_app, Hr.
  rewrite string_bytes_of_bytes; [done|]. pose proof (string_bytes_range r) as Hrr. rewrite Hr in Hrr.
  by apply Forall_app in Hrr as [? _].
Qed.

(** The canonical form of a canonical name is the name. *)
Lemma canonical_idem x r : canonical_process_name x = Some r → canonical_process_name r = Some r.
Proof.
  intros H. pose proof (canonical_trimmed x r H) as Ht.
  destruct (canonical_spec x r H) as [[_ ->]|(_ & base & tail & Hr & _)]; [done|]. by eapply canonical_of_exe.
Qed.

Lemma canonical_empty x r : canonical_process_name x = Some r → (r = "" ↔ trim x = "").
Proof.
  intros [[H ->]|(H & base & tail & Hr & _)]%canonical_spec; [done|]. split; [|done].
  intros ->. by destruct base.
Qed.

(** ** Normal forms *)

(** Without separators and colons: the name of a file, not a path. *)
Definition plain (x : string) : Prop := Forall (λ b, b ≠ 47 ∧ b ≠ 92 ∧ b ≠ 58) (string_bytes x).
#[export] Instance plain_dec x : Decision (plain x) := _.

Lemma plain_not_drive x : plain x → is_drive (string_of_bytes (take 2 (string_bytes x))) = false ∧ is_drive x = false.
Proof.
  intros Hp. unfold is_drive. rewrite string_bytes_of_bytes by (apply Forall_take, string_bytes_range).
  unfold plain in Hp. destruct (string_bytes x) as [|a [|b [|c l]]]; try done;
    rewrite !Forall_cons in Hp; destruct Hp as (_ & (_ & _ & Hb) & _); cbn; split;
    repeat case_match; simplify_eq; done.
Qed.

Lemma file_name_plain x : plain x → default x (path_file_name (path_join [] x)) = x.
Proof.
  intros Hp. destruct (plain_not_drive x Hp) as [Hd Hdx]. unfold path_join. rewrite Hd.
  assert (existsb is_separator (take 1 (string_bytes x)) = false) as ->.
  { unfold plain in Hp. destruct (string_bytes x) as [|a l]; [done|]. apply Forall_cons in Hp as [(H1 & H2 & _) _].
    cbn. unfold is_separator. by rewrite !(proj2 (Z.eqb_neq _ _)) by done. }
  cbn [app]. unfold names_of.
  assert ((λ x, if x =? 92 then 47 else x) <$> string_bytes x = string_bytes x) as ->.
  { rewrite <- (list_fmap_id (string_bytes x)) at 2. apply Forall_fmap_ext_1. eapply Forall_impl; [exact Hp|].
    cbn. intros b (_ & Hb & _). by rewrite (proj2 (Z.eqb_neq _ _)). }
  rewrite split_bytes_whole.
  2: { intros Hin. eapply Forall_forall in Hin; [|exact Hp]. naive_solver. }
  cbn [fmap list_fmap]. rewrite string_of_string_bytes, filter_cons. case_decide as Hn; [|done].
  unfold path_file_name. cbn. unfold is_name. rewrite Hdx. cbn.
  by repeat case_bool_decide.
Qed.

(** On the name of a file os_support.rs and node_rewards.rs normalise alike. *)
Lemma os_normalize_plain x : plain x → os_normalize_process_name x = normalize_process_name x.
Proof. intros Hp. unfold os_normalize_process_name. by rewrite file_name_plain. Qed.

Lemma trim_end_fuel n m p l :
  p ≠ [] → (length l <= n)%nat → (length l <= m)%nat → trim_end_matches_fuel n p l = trim_end_matches_fuel m p l.
Proof.
  intros Hp. revert m l. induction n as [|n IH]; intros m l Hn Hm.
  - destruct l; [|cbn in Hn; lia]. destruct m; [done|]. by destruct p.
  - destruct m as [|m]; [destruct l; [by destruct p|cbn in Hm; lia]|]. cbn.
    destruct (strip_prefix_list p l) as [l'|] eqn:E; [|done].
    assert (length l = (length p + length l')%nat) as Hl.
    { clear -E. revert l l' E. induction p as [|x p IH]; intros l l' E; [by injection E as ->|].
      destruct l as [|y l]; [done|]. cbn in E. destruct (x =? y); [|done]. cbn. by rewrite (IH _ _ E). }
    assert (0 < length p)%nat by (destruct p; [done|cbn; lia]). apply IH; lia.
Qed.

Lemma strip_prefix_app p l : strip_prefix_list p (p ++ l) = Some l.
Proof. induction p as [|x p IH]; [done|]. cbn. by rewrite Z.eqb_refl. Qed.

(** One extension more is trimmed with the others. *)
Lemma trim_end_exe (l : list Z) :
  Forall is_byte l →
  trim_end_matches (string_of_bytes (l ++ dot_exe)) ".exe" = trim_end_matches (string_of_bytes l) ".exe".
Proof.
  intros Hl. assert (Forall is_byte (l ++ dot_exe)) as Hl'.
  { apply Forall_app. split; [done|]. repeat constructor; unfold is_byte; lia. }
  unfold trim_end_matches. rewrite !string_bytes_of_bytes by done. cbn zeta.
  rewrite rev_app_distr. change (rev (string_bytes ".exe")) with (rev dot_exe).
  replace (length (rev dot_exe ++ rev l)) with (S (3 + length (rev l))) by (rewrite length_app; done).
  cbn [trim_end_matches_fuel]. rewrite strip_prefix_app. do 2 f_equal. apply trim_end_fuel; [done|lia|lia].
Qed.

Lemma plain_canonical x r : plain x → canonical_process_name x = Some r → plain r.
Proof.
  intros Hp [[_ ->]|(_ & base & tail & Hr & Ht & _)]%canonical_spec; [constructor|]. unfold plain in *. rewrite Hr.
  apply Forall_app. split; [|repeat constructor; lia].
  destruct (trim_bytes_infix (string_bytes x)) as (v & w & E). rewrite <- string_bytes_trim, Ht in E.
  rewrite E in Hp. rewrite !Forall_app in Hp. tauto.
Qed.

Lemma normalize_canonical x r :
  canonical_process_name x = Some r → normalize_process_name r = normalize_process_name x.
Proof.
  intros H. pose proof (canonical_trimmed x r H) as Htr. unfold normalize_process_name. rewrite Htr.
  destruct (canonical_spec x r H) as [[-> ->]|(_ & base & tail & Hr & Ht & Htail)]; [done|].
  pose proof (string_bytes_range (trim x)) as Hb. rewrite Ht in Hb. apply Forall_app in Hb as [Hb _].
  assert (Forall is_byte (lower_byte <$> base)) as Hlow
    by (apply Forall_fmap; eapply Forall_impl; [exact Hb|]; intros; by apply lower_byte_range).
  assert (∀ s, to_ascii_lowercase s = string_of_bytes (lower_byte <$> string_bytes s)) as Hlc
    by (intros s; by rewrite <- string_bytes_lower, string_of_string_bytes).
  rewrite !Hlc, Hr, Ht, !fmap_app. change (lower_byte <$> dot_exe) with dot_exe.
  rewrite trim_end_exe by done. destruct Htail as [-> | ->]; [by rewrite app_nil_r|by rewrite trim_end_exe].
Qed.

Lemma os_normalize_canonical x r :
  plain x → canonical_process_name x = Some r → os_normalize_process_name r = os_normalize_process_name x.
Proof.
  intros Hp Hr. rewrite !os_normalize_plain by eauto using plain_canonical. by apply normalize_canonical.
Qed.

Lemma non_game_canonical x r :
  plain x → canonical_process_name x = Some r → is_non_game_executable r = is_non_game_executable x.
Proof. intros Hp Hr. unfold is_non_game_executable. by rewrite (os_normalize_canonical x r). Qed.

(** ** The cache file is a map *)

Definition entry_key (e : RecognitionCacheEntry) : string := os_normalize_process_name (ce_process_name e).

(** Names of files in canonical form, one for each normal form. *)
Definition cache_ok (f : CacheFile) : Prop :=
  match cache_load f with
  | Some l => NoDup (entry_key <$> l) ∧
      Forall (λ e, plain (ce_process_name e) ∧ canonical_process_name (ce_process_name e) = Some (ce_process_name e)) l
  | None => True
  end.

Lemma find_unique {A} (P : A → Prop) `{∀ x, Decision (P x)} l l' :
  l ≡ₚ l' → (∀ x y, x ∈ l → y ∈ l → P x → P y → x = y) →
  snd <$> list_find P l = snd <$> list_find P l'.
Proof.
  intros Hp Hu. destruct (list_find P l) as [[i x]|] eqn:E; destruct (list_find P l') as [[j y]|] eqn:E'; cbn; [..|done].
  - apply list_find_Some in E as (Hi & HPx & _). apply list_find_Some in E' as (Hj & HPy & _). f_equal.
    apply Hu; [by eapply list_elem_of_lookup_2| |done..]. rewrite Hp. by eapply list_elem_of_lookup_2.
  - apply list_find_Some in E as (Hi & HPx & _). apply list_find_None in E'.
    rewrite Forall_forall in E'. destruct (E' x); [|done]. rewrite <- Hp. by eapply list_elem_of_lookup_2.
  - apply list_find_Some in E' as (Hj & HPy & _). apply list_find_None in E.
    rewrite Forall_forall in E. destruct (E y); [|done]. rewrite Hp. by eapply list_elem_of_lookup_2.
Qed.

(** What the cache holds for a normal form. *)
Definition cached (f : CacheFile) (key : string) : option RecognitionCacheEntry :=
  snd <$> list_find (λ e, is_game_entry e = true ∧ entry_key e = key) (default [] (cache_load f)).

Lemma load_cached f name :
  is_non_game_executable name = false →
  load_cached_reward_game_mapping f name =
    match cached f (os_normalize_process_name name) with
    | Some e => canonical_mapping (ce_process_name e) (ce_app_id e) (ce_coefficient e)
    | None => Some None
    end.
Proof.
  intros Hg. unfold load_cached_reward_game_mapping, cached. rewrite Hg. fold entry_key.
  destruct (cache_load f) as [l|]; [|done]. cbn [default from_option id]. unfold entry_key.
  by destruct (list_find _ l) as [[i e]|].
Qed.

Lemma find_filter_key (l : list RecognitionCacheEntry) key key' :
  key ≠ key' →
  snd <$> list_find (λ e, is_game_entry e = true ∧ entry_key e = key)
            (filter (λ e, is_game_entry e = true ∧ entry_key e ≠ key') l)
  = snd <$> list_find (λ e, is_game_entry e = true ∧ entry_key e = key) l.
Proof.
  intros Hne. induction l as [|e l IH]; [done|]. rewrite filter_cons. cbn [list_find].
  destruct (decide (is_game_entry e = true ∧ entry_key e ≠ key')) as [Hk|Hk].
  - cbn [list_find]. destruct (decide (is_game_entry e = true ∧ entry_key e = key)); [done|].
    destruct (list_find _ (filter _ l)) as [[]|], (list_find _ l) as [[]|]; cbn in *; congruence.
  - destruct (decide (is_game_entry e = true ∧ entry_key e = key)) as [[H1 H2]|].
    + destruct Hk. split; [done|]. congruence.
    + rewrite IH. by destruct (list_find _ l) as [[]|].
Qed.

Lemma entry_key_unique l x y :
  NoDup (entry_key <$> l) → x ∈ l → y ∈ l → entry_key x = entry_key y → x = y.
Proof.
  intros Hnd [i Hi]%list_elem_of_lookup [j Hj]%list_elem_of_lookup E.
  assert (i = j) as <-; [|congruence].
  apply (NoDup_lookup (entry_key <$> l) i j (entry_key x)); [done|by rewrite list_lookup_fmap, Hi|].
  rewrite list_lookup_fmap, Hj. cbn. by rewrite E.
Qed.

Definition entry_of (name : string) (m : RewardGameMapping) : RecognitionCacheEntry :=
  {| ce_process_name := name; ce_app_id := gm_app_id m; ce_coefficient := game_coefficient_ppm m |}.

(** A store puts the entry under its normal form and leaves the others. *)
Lemma store_cached f m f' name :
  cache_ok f → plain (process_name m) → is_non_game_executable (process_name m) = false →
  store_cached_reward_game_mapping true f m = Some f' → canonical_process_name (process_name m) = Some name →
  cache_ok f' ∧ ∀ key, cached f' key =
    if decide (key = os_normalize_process_name (process_name m)) then Some (entry_of name m) else cached f key.
Proof.
  intros Hok Hp Hg Hst Hn. unfold store_cached_reward_game_mapping in Hst. rewrite Hg, Hn in Hst.
  cbn [mbind option_bind] in Hst. cbv zeta in Hst. apply (inj Some) in Hst as <-. set (key0 := os_normalize_process_name (process_name m)).
  change {| ce_process_name := name; ce_app_id := gm_app_id m; ce_coefficient := game_coefficient_ppm m |}
    with (entry_of name m). fold key0.
  set (kept := filter (λ e, is_game_entry e = true ∧ os_normalize_process_name (ce_process_name e) ≠ key0)
    (default [] (cache_load f))).
  set (le := λ a b, leb (ce_process_name a) (ce_process_name b)).
  assert (entry_key (entry_of name m) = key0) as Hkey by (by apply os_normalize_canonical).
  assert (is_game_entry (entry_of name m) = true) as Hgame.
  { unfold is_game_entry. cbn. by rewrite (non_game_canonical (process_name m) name), Hg. }
  assert (Forall (λ e, is_game_entry e = true) kept) as Hkg.
  { apply Forall_forall. intros e [[He _] _]%list_elem_of_filter. done. }
  assert (cache_load (CacheEntries (sort_by le (kept ++ [entry_of name m])))
    = Some (sort_by le (kept ++ [entry_of name m]))) as Hload.
  { cbn. f_equal. apply filter_all. rewrite sort_by_perm. apply Forall_app. split; [done|by constructor]. }
  assert (NoDup (entry_key <$> (kept ++ [entry_of name m])%list)) as Hnd.
  { rewrite fmap_app. apply NoDup_app. cbn. split_and!; [|intros k Hk|apply NoDup_singleton].
    - unfold kept. unfold cache_ok in Hok. destruct (cache_load f) as [l|]; [|constructor]. cbn.
      destruct Hok as [Hnd _]. clear -Hnd. induction l as [|e l IH]; [constructor|].
      cbn in Hnd. apply NoDup_cons in Hnd as [He Hnd]. rewrite filter_cons. case_decide; [|auto].
      cbn. constructor; [|auto]. intros (e' & E & [_ He']%list_elem_of_filter)%list_elem_of_fmap.
      apply He. rewrite E. by apply list_elem_of_fmap_2.
    - rewrite list_elem_of_singleton. intros ->.
      apply list_elem_of_fmap in Hk as (e & E & [[_ He] _]%list_elem_of_filter). by rewrite Hkey in E. }
  split.
  - unfold cache_ok. rewrite Hload. split; [by rewrite sort_by_perm|]. rewrite sort_by_perm. apply Forall_app. split.
    + unfold kept. unfold cache_ok in Hok. destruct (cache_load f) as [l|]; [|constructor]. cbn.
      destruct Hok as [_ Hall]. apply Forall_forall. intros e [_ He]%list_elem_of_filter.
      rewrite Forall_forall in Hall. auto.
    + constructor; [|constructor]. cbn. eauto using plain_canonical, canonical_idem.
  - intros key. unfold cached. rewrite Hload. cbn [default from_option id].
    rewrite (find_unique _ _ (kept ++ [entry_of name m])%list).
    2: apply sort_by_perm.
    2: { intros x y Hx Hy [_ Kx] [_ Ky]. rewrite !sort_by_perm in *.
         eapply (entry_key_unique (kept ++ [entry_of name m])%list); [done..|]. congruence. }
    destruct (decide (key = key0)) as [->|Hne].
    + rewrite list_find_app_r.
      * cbn [list_find]. by rewrite decide_True.
      * apply list_find_None. apply Forall_forall. intros e [[_ He] _]%list_elem_of_filter [_ ?]. done.
    + rewrite <- (find_filter_key (default [] (cache_load f)) key key0) by done.
      change (filter (λ e, is_game_entry e = true ∧ entry_key e ≠ key0) (default [] (cache_load f))) with kept.
      destruct (list_find (λ e, is_game_entry e = true ∧ entry_key e = key) kept) as [[i e]|] eqn:E.
      * by erewrite list_find_app_l by exact E.
      * rewrite list_find_app_r by done. cbn [list_find]. rewrite decide_False; [done|].
        intros [_ Hk]. apply Hne. by rewrite <- Hk.
Qed.

(** A recognised game is remembered: after the mapping of a game has been written to the cache, the
    cache answers every spelling of its process name with that mapping, in canonical form, and every
    other name as before; and the cache stays well-formed, so that this holds of the next one too. *)
Theorem recognition_cache_map f m f' name canonical :
  cache_ok f → plain (process_name m) →
  is_non_game_executable (process_name m) = false → is_non_game_executable name = false →
  canonical_process_name (process_name m) = Some canonical →
  store_cached_reward_game_mapping true f m = Some f' →
  cache_ok f' ∧
  load_cached_reward_game_mapping f' name =
    if decide (os_normalize_process_name name = os_normalize_process_name (process_name m))
    then Some (Some {| process_name := canonical; gm_app_id := gm_app_id m;
                       game_coefficient_ppm := game_coefficient_ppm m |})
    else load_cached_reward_game_mapping f name.
Proof.
  intros Hok Hp Hg Hgn Hc Hst. destruct (store_cached f m f' canonical Hok Hp Hg Hst Hc) as [Hok' Hget].
  split; [done|]. rewrite !load_cached by done. rewrite Hget. destruct (decide _) as [E|Hne]; [|done].
  unfold canonical_mapping, entry_of. cbn [ce_process_name ce_app_id ce_coefficient].
  by rewrite (canonical_idem _ _ Hc).
Qed.

Lemma recognition_cache_map_witness :
  ∃ f', store_cached_reward_game_mapping true CacheBroken
          {| process_name := " Dota2.EXE "; gm_app_id := 570; game_coefficient_ppm := 1200000 |} = Some f' ∧
  load_cached_reward_game_mapping f' "C:\Games\dota2.exe" =
    Some (Some {| process_name := "Dota2.exe"; gm_app_id := 570; game_coefficient_ppm := 1200000 |}).
Proof.
  set (m := {| process_name := " Dota2.EXE "; gm_app_id := 570; game_coefficient_ppm := 1200000 |}).
  destruct (store_cached_reward_game_mapping true CacheBroken m) as [f'|] eqn:E; [|by vm_compute in E].
  exists f'. split; [done|].
  destruct (recognition_cache_map CacheBroken m f' "C:\Games\dota2.exe" "Dota2.exe") as [_ H].
  - done.
  - by apply (bool_decide_unpack _).
  - by vm_compute.
  - by vm_compute.
  - by vm_compute.
  - exact E.
  - rewrite decide_True in H by (vm_compute; reflexivity). exact H.
Defined.
