(* ===== verification/ClientConfig.v ===== *)
(** * The client's configuration commands: src/src/cli_client.rs, src/src/cli_parsing.rs,
    src/src/cli_support.rs, src/src/node_cli_support.rs and src/src/app_paths.rs

    The commands that change a node's configuration: each reads the file, changes it and
    writes it back when it is valid. A run is a state transformer over the files ([ClientDisk]:
    configurations by path and the recognition caches by data directory); what is printed is
    left out. The process snapshot, the Steam libraries, the current directory, a freshly
    generated identity, the parser of socket addresses and the success of writes are
    parameters; a path is its list of components, and [..] is resolved in it as
    [normalize_path] does. *)
From S2P Require Import Prelude Primitives Text Rewards Crypto MutualProof NodeConfig ActiveParams ActivitySources P2p P2pSocket ProofBinary GameDirectory NodeRuntime Settlement GovernanceRuntime SettlementRun Progress.
Local Open Scope pole_scope.
Local Open Scope string_scope.
Local Open Scope Z_scope.

(** ** Errors *)

Inductive CliParseError :=
| EmptySocketPeers
| EmptySocketTopics
| MissingPeerId
| MissingPeerAddr
| MissingTopics
| TooManyPeerSpecSegments
| CliInvalidHexLength (field : string) (expected actual : Z)
| CliInvalidHexCharacter (field : string) (index byte : Z)
| InvalidSocketAddr (field value message : string)
| UnknownSocketTopic (topic : string)
(* the other errors of the decoder in node_config.rs, which it does not return here *)
| OtherConfigError (e : NodeConfigError).

(** [Box<dyn Error>]: a message, or the error of the function called. *)
Inductive CliError :=
| CliUsage (e : string)
| CliParse (e : CliParseError)
| CliInt (e : string)
| CliConfig (e : NodeConfigError).

(** ** Parsing *)

Fixpoint map_outcome {E A B} (f : A → outcome E B) (l : list A) : outcome E (list B) :=
  match l with
  | [] => Ok []
  | a :: l => do? b <- f a; do? bs <- map_outcome f l; Ok (b :: bs)
  end.

Fixpoint str_join (sep : string) (l : list string) : string :=
  match l with
  | [] => ""
  | [s] => s
  | s :: l => s +:+ sep +:+ str_join sep l
  end.

Definition cli_hex_error (e : NodeConfigError) : CliParseError :=
  match e with
  | InvalidHexLength field expected actual => CliInvalidHexLength field expected actual
  | InvalidHexCharacter field index byte => CliInvalidHexCharacter field index byte
  | e => OtherConfigError e
  end.
(** [decode_hex32] is the decoder of node_config.rs with its own errors. *)
Definition decode_hex32 (input field : string) : outcome CliParseError bytes :=
  map_err cli_hex_error (decode_hex_32 input field).

Definition socket_topic (item : string) : outcome CliParseError P2pTopic :=
  if bool_decide (item = "batches") then Ok Batches
  else if bool_decide (item = "receipts") then Ok Receipts
  else if bool_decide (item = "challenges") then Ok Challenges
  else if bool_decide (item = "observations") then Ok Observations
  else if bool_decide (item = "playsessions") || bool_decide (item = "sessions") then Ok PlaySessions
  else if bool_decide (item = "attestations") then Ok Attestations
  else Err (UnknownSocketTopic item).

(** [split(c)] without the empty pieces *)
Definition pieces (s : string) (c : Z) : list string := filter (λ item, item ≠ "") (str_split s c).

Definition parse_socket_topics (topics : string) : outcome CliParseError (list P2pTopic) :=
  do? parsed <- map_outcome socket_topic (pieces topics 44);
  if bool_decide (parsed = []) then Err EmptySocketTopics else Ok parsed.

Definition socket_topic_label (t : P2pTopic) : string :=
  match t with
  | Observations => "observations" | Batches => "batches" | Receipts => "receipts"
  | Challenges => "challenges" | PlaySessions => "playsessions" | Attestations => "attestations"
  end.
Definition default_socket_topic_labels : list string :=
  ["observations"; "batches"; "receipts"; "challenges"; "playsessions"; "attestations"].

Section Addresses.
Context {Addr : Type} (parse_addr : string → outcome string Addr).

Definition parse_socket_addr (input field : string) : outcome CliParseError Addr :=
  map_err (InvalidSocketAddr field input) (parse_addr input).

Definition parse_socket_peer_spec (spec : string) : outcome CliParseError (SocketPeerProfile Addr) :=
  match str_split spec 64 with
  | [] => Err MissingPeerId
  | [_] => Err MissingPeerAddr
  | [_; _] => Err MissingTopics
  | [peer_id_hex; peer_addr; topics] =>
      do? id <- decode_hex32 peer_id_hex "peer_id_hex";
      do? addr <- parse_socket_addr peer_addr "peer_addr";
      do? topics <- parse_socket_topics topics;
      Ok (SocketPeerProfile_new id addr topics)
  | _ => Err TooManyPeerSpecSegments
  end.

Definition parse_socket_peer_specs (specs : string) : outcome CliParseError (list (SocketPeerProfile Addr)) :=
  do? peers <- map_outcome parse_socket_peer_spec (pieces specs 59);
  if (length peers =? 0)%nat then Err EmptySocketPeers else Ok peers.

Definition socket_peer_from_config (peer : P2pSocketPeerConfig) : outcome CliParseError (SocketPeerProfile Addr) :=
  do? id <- decode_hex32 (peer_id_hex peer) "runtime.p2p_socket.peers[].peer_id_hex";
  do? addr <- parse_socket_addr (peer_addr peer) "runtime.p2p_socket.peers[].addr";
  do? topics <- parse_socket_topics (str_join "," (peer_topics peer));
  Ok (SocketPeerProfile_new id addr topics).
Definition socket_peers_from_config (peers : list P2pSocketPeerConfig)
    : outcome CliParseError (list (SocketPeerProfile Addr)) :=
  do? parsed <- map_outcome socket_peer_from_config peers;
  if (length parsed =? 0)%nat then Err EmptySocketPeers else Ok parsed.
End Addresses.

Definition parse_activity_source_kind (input : string) : outcome CliError ActivitySourceKind :=
  let lower := to_ascii_lowercase input in
  if bool_decide (lower = "steam") then Ok Steam
  else if bool_decide (lower = "epic") then Ok Epic
  else if bool_decide (lower = "ea") then Ok Ea
  else if bool_decide (lower = "gog") then Ok Gog
  else if bool_decide (lower = "community") then Ok Community
  else Err (CliUsage ("unknown activity source kind " +:+ input)).

Definition parse_reward_source_mode (input : string) : outcome CliError RewardSourceMode :=
  if bool_decide (input = "static") then Ok Static
  else if bool_decide (input = "tokenomics") then Ok Tokenomics
  else Err (CliUsage "reward source mode must be one of: static, tokenomics").

Definition source_kind_label (k : ActivitySourceKind) : string :=
  match k with Steam => "steam" | Epic => "epic" | Ea => "ea" | Gog => "gog" | Community => "community" end.

(** ** Arguments *)

Definition parse_config_path_and_rest (args : list string) (start_index : nat) (default_config_path : string)
    : string * nat :=
  match args !! start_index with
  | Some value => if is_ok (parse_uint 64 value) then (default_config_path, start_index) else (value, S start_index)
  | None => (default_config_path, start_index)
  end.

Definition parse_config_path_and_rest_with_known_first_arg (args : list string) (start_index : nat)
    (default_config_path : string) (is_first_arg : string → bool) : string * nat :=
  match args !! start_index with
  | Some value => if is_first_arg value then (default_config_path, start_index) else (value, S start_index)
  | None => (default_config_path, start_index)
  end.

Definition looks_like_hex_32_arg (value : string) : bool :=
  (str_len value =? 64) && forallb is_hex_digit (string_bytes value).
Definition is_reward_config_subcommand (value : string) : bool :=
  bool_decide (value ∈ ["mode"; "emission-year"; "tail-policy"; "service-split"]).

Definition parse_optional_arg (w : Z) (args : list string) (index : nat) : outcome CliError (option Z) :=
  match args !! index with
  | Some value => do? n <- map_err CliInt (parse_uint w value); Ok (Some n)
  | None => Ok None
  end.
Definition parse_optional_u64_arg := parse_optional_arg 64.
Definition parse_optional_u32_arg := parse_optional_arg 32.

(** The last epoch of which a slot has been collected. *)
Definition latest_local_epoch (progress : LocalNodeProgress) : outcome CliError EpochId :=
  if ticks_completed progress =? 0
  then Err (CliUsage "no local collection history exists yet; run `pole-client collect` first")
  else if next_slot_id progress =? 1 then Ok (saturating_sub (next_epoch_id progress) 1)
  else Ok (next_epoch_id progress).

(** [unwrap_or]: the default is computed, and may fail, also when there is an argument. *)
Definition resolve_epoch_id_arg (args : list string) (index : nat) (progress : LocalNodeProgress)
    : outcome CliError EpochId :=
  do? arg <- parse_optional_u64_arg args index;
  do? latest <- latest_local_epoch progress;
  Ok (default latest arg).
Definition resolve_current_height_arg (args : list string) (index : nat) (progress : LocalNodeProgress)
    : outcome CliError Z :=
  do? arg <- parse_optional_u64_arg args index;
  Ok (default (Z.max (ticks_completed progress) 1) arg).

(** The flags of a simulated topology, in pairs. [add]: the sum of the three counts. *)
Fixpoint parse_topology_flags (usage : string) (args : list string) (t : P2pSimulationConfig)
    : outcome CliError P2pSimulationConfig :=
  match args with
  | [] => Ok t
  | [flag] => Err (CliUsage (usage +:+ ": missing value for " +:+ flag))
  | flag :: value :: args =>
      match parse_uint 64 value with
      | Ok n =>
          if bool_decide (flag = "--batch-listeners") then parse_topology_flags usage args
            {| batch_listener_count := n; receipt_listener_count := receipt_listener_count t;
               dual_listener_count := dual_listener_count t |}
          else if bool_decide (flag = "--receipt-listeners") then parse_topology_flags usage args
            {| batch_listener_count := batch_listener_count t; receipt_listener_count := n;
               dual_listener_count := dual_listener_count t |}
          else if bool_decide (flag = "--dual-listeners") then parse_topology_flags usage args
            {| batch_listener_count := batch_listener_count t;
               receipt_listener_count := receipt_listener_count t; dual_listener_count := n |}
          else Err (CliUsage (usage +:+ ": unknown argument " +:+ flag))
      | _ => Err (CliUsage (usage +:+ ": invalid value for " +:+ flag +:+ ": " +:+ value))
      end
  end.
Definition parse_simulation_topology_args `{BuildMode} (args : list string) (start_index : nat) (usage : string)
    (defaults : P2pSimulationConfig) : outcome CliError P2pSimulationConfig :=
  do? t <- parse_topology_flags usage (drop start_index args) defaults;
  do? two <- or_panic (add 64 (batch_listener_count t) (receipt_listener_count t));
  do? total <- or_panic (add 64 two (dual_listener_count t));
  if total =? 0 then Err (CliUsage (usage +:+ ": at least one listener is required")) else Ok t.

(** ** Paths *)

(** [pop] on a parent component after a name, otherwise [push]. *)
Fixpoint normalize_from (normalized : Path) (components : Path) : Path :=
  match components with
  | [] => normalized
  | c :: components =>
      if bool_decide (c = "..") then
        match last normalized with
        | Some l => if is_name l && negb (bool_decide (l = ".."))
                    then normalize_from (take (length normalized - 1) normalized) components
                    else normalize_from (normalized ++ [c])%list components
        | None => normalize_from (normalized ++ [c])%list components
        end
      else normalize_from (normalized ++ [c])%list components
  end.
Definition normalize_path (p : Path) : Path := normalize_from [] p.

Record InstallLayout := {
  root_dir : Path;
  config_dir : Path;
  il_data_dir : Path;
  log_dir : Path;
  update_dir : Path;
}.

Definition portable_install_layout (root : Path) : InstallLayout :=
  let data := (root ++ ["pole-node-data"])%list in
  {| root_dir := root; config_dir := root; il_data_dir := data; log_dir := (data ++ ["logs"])%list;
     update_dir := (data ++ ["updates"])%list |}.
Definition installed_install_layout (root : Path) : InstallLayout :=
  {| root_dir := root; config_dir := (root ++ ["config"])%list; il_data_dir := (root ++ ["data"])%list;
     log_dir := (root ++ ["logs"])%list; update_dir := (root ++ ["updates"])%list |}.
Definition portable_layout_for_config (config_path : Path) : InstallLayout :=
  portable_install_layout (default [] (path_parent config_path)).

Definition path_is_absolute (p : Path) : bool :=
  match p with d :: r :: _ => is_drive d && bool_decide (r = root_component) | _ => false end.

Definition resolve_runtime_data_dir (config_path : Path) (configured_data_dir : string) : Path :=
  if str_is_empty (trim configured_data_dir) then il_data_dir (portable_layout_for_config config_path) else
  let configured_path := path_join [] configured_data_dir in
  if path_is_absolute configured_path then normalize_path configured_path
  else normalize_path (path_join (root_dir (portable_layout_for_config config_path)) configured_data_dir).

Definition runtime_layout_for_config (config_path : Path) (configured_data_dir : string) : InstallLayout :=
  let l := portable_layout_for_config config_path in
  let data := resolve_runtime_data_dir config_path configured_data_dir in
  {| root_dir := root_dir l; config_dir := config_dir l; il_data_dir := data; log_dir := (data ++ ["logs"])%list;
     update_dir := (data ++ ["updates"])%list |}.

(** [to_string_lossy] of a path that was built by [push]: a separator between names. *)
Fixpoint path_display_from (acc : string) (after_name : bool) (p : Path) : string :=
  match p with
  | [] => acc
  | c :: p =>
      if is_name c then path_display_from (acc +:+ (if after_name then "\" else "") +:+ c) true p
      else path_display_from (acc +:+ c) false p
  end.
Definition path_display (p : Path) : string := path_display_from "" false p.

(** ** Changes of a configuration *)

Definition set_runtime (c : NodeConfig) (r : RuntimeConfig) : NodeConfig := {|
  nc_chain_id := nc_chain_id c; node_id_hex := node_id_hex c; reward_address_hex := reward_address_hex c;
  nc_capabilities := nc_capabilities c; nc_collect := nc_collect c; runtime := r;
  nc_storage := nc_storage c; nc_reward := nc_reward c |}.
Definition set_reward (c : NodeConfig) (r : RewardConfig) : NodeConfig := {|
  nc_chain_id := nc_chain_id c; node_id_hex := node_id_hex c; reward_address_hex := reward_address_hex c;
  nc_capabilities := nc_capabilities c; nc_collect := nc_collect c; runtime := runtime c;
  nc_storage := nc_storage c; nc_reward := r |}.
Definition set_capabilities (c : NodeConfig) (caps : CapabilityConfig) : NodeConfig := {|
  nc_chain_id := nc_chain_id c; node_id_hex := node_id_hex c; reward_address_hex := reward_address_hex c;
  nc_capabilities := caps; nc_collect := nc_collect c; runtime := runtime c;
  nc_storage := nc_storage c; nc_reward := nc_reward c |}.
Definition set_identity (c : NodeConfig) (id_hex address_hex : string) : NodeConfig := {|
  nc_chain_id := nc_chain_id c; node_id_hex := id_hex; reward_address_hex := address_hex;
  nc_capabilities := nc_capabilities c; nc_collect := nc_collect c; runtime := runtime c;
  nc_storage := nc_storage c; nc_reward := nc_reward c |}.

Definition set_data_dir (r : RuntimeConfig) (dir : string) : RuntimeConfig := {|
  data_dir := dir; poll_interval_secs := poll_interval_secs r; slots_per_epoch := slots_per_epoch r;
  rt_challenge_window_blocks := rt_challenge_window_blocks r; low_impact_mode := low_impact_mode r;
  os_background_priority := os_background_priority r;
  game_active_poll_interval_secs := game_active_poll_interval_secs r;
  game_process_names := game_process_names r; target_app_ids := target_app_ids r;
  p2p_simulation := p2p_simulation r; p2p_socket := p2p_socket r; activity_sources := activity_sources r |}.
Definition set_impact (r : RuntimeConfig) (low background : bool) (game_poll : Z) : RuntimeConfig := {|
  data_dir := data_dir r; poll_interval_secs := poll_interval_secs r; slots_per_epoch := slots_per_epoch r;
  rt_challenge_window_blocks := rt_challenge_window_blocks r; low_impact_mode := low;
  os_background_priority := background; game_active_poll_interval_secs := game_poll;
  game_process_names := game_process_names r; target_app_ids := target_app_ids r;
  p2p_simulation := p2p_simulation r; p2p_socket := p2p_socket r; activity_sources := activity_sources r |}.
Definition set_games (r : RuntimeConfig) (names : list string) (targets : list AppId) : RuntimeConfig := {|
  data_dir := data_dir r; poll_interval_secs := poll_interval_secs r; slots_per_epoch := slots_per_epoch r;
  rt_challenge_window_blocks := rt_challenge_window_blocks r; low_impact_mode := low_impact_mode r;
  os_background_priority := os_background_priority r;
  game_active_poll_interval_secs := game_active_poll_interval_secs r;
  game_process_names := names; target_app_ids := targets;
  p2p_simulation := p2p_simulation r; p2p_socket := p2p_socket r; activity_sources := activity_sources r |}.
Definition set_socket_peers (r : RuntimeConfig) (peers : list P2pSocketPeerConfig) : RuntimeConfig := {|
  data_dir := data_dir r; poll_interval_secs := poll_interval_secs r; slots_per_epoch := slots_per_epoch r;
  rt_challenge_window_blocks := rt_challenge_window_blocks r; low_impact_mode := low_impact_mode r;
  os_background_priority := os_background_priority r;
  game_active_poll_interval_secs := game_active_poll_interval_secs r;
  game_process_names := game_process_names r; target_app_ids := target_app_ids r;
  p2p_simulation := p2p_simulation r;
  p2p_socket := {| bind_addr := bind_addr (p2p_socket r); socket_peers := peers |};
  activity_sources := activity_sources r |}.
Definition set_sources (r : RuntimeConfig) (sources : list ActivitySourceConfig) : RuntimeConfig := {|
  data_dir := data_dir r; poll_interval_secs := poll_interval_secs r; slots_per_epoch := slots_per_epoch r;
  rt_challenge_window_blocks := rt_challenge_window_blocks r; low_impact_mode := low_impact_mode r;
  os_background_priority := os_background_priority r;
  game_active_poll_interval_secs := game_active_poll_interval_secs r;
  game_process_names := game_process_names r; target_app_ids := target_app_ids r;
  p2p_simulation := p2p_simulation r; p2p_socket := p2p_socket r; activity_sources := sources |}.

Definition set_reward_fields (r : RewardConfig) (source : RewardSourceMode)
    (year collect store verify propose tail_year tail_bps : Z) : RewardConfig := {|
  reward_source := source; rc_emission_year := year; rc_reward_block_secs := rc_reward_block_secs r;
  player_block_reward := player_block_reward r;
  reward_adjustment_period_blocks := reward_adjustment_period_blocks r;
  rc_target_network_weight_units := rc_target_network_weight_units r;
  rc_reward_adjustment_cap_bps := rc_reward_adjustment_cap_bps r;
  rc_collect_reward_bps := collect; rc_store_reward_bps := store; rc_verify_reward_bps := verify;
  rc_propose_reward_bps := propose; rc_tail_emission_start_year := tail_year;
  rc_tail_emission_rate_bps := tail_bps; game_mappings := game_mappings r |}.
Definition set_mode (r : RewardConfig) (m : RewardSourceMode) : RewardConfig :=
  set_reward_fields r m (rc_emission_year r) (rc_collect_reward_bps r) (rc_store_reward_bps r)
    (rc_verify_reward_bps r) (rc_propose_reward_bps r) (rc_tail_emission_start_year r) (rc_tail_emission_rate_bps r).
Definition set_emission_year (r : RewardConfig) (year : Z) : RewardConfig :=
  set_reward_fields r (reward_source r) year (rc_collect_reward_bps r) (rc_store_reward_bps r)
    (rc_verify_reward_bps r) (rc_propose_reward_bps r) (rc_tail_emission_start_year r) (rc_tail_emission_rate_bps r).
Definition set_tail (r : RewardConfig) (year bps : Z) : RewardConfig :=
  set_reward_fields r (reward_source r) (rc_emission_year r) (rc_collect_reward_bps r) (rc_store_reward_bps r)
    (rc_verify_reward_bps r) (rc_propose_reward_bps r) year bps.
Definition set_split (r : RewardConfig) (collect store verify propose : Z) : RewardConfig :=
  set_reward_fields r (reward_source r) (rc_emission_year r) collect store verify propose
    (rc_tail_emission_start_year r) (rc_tail_emission_rate_bps r).

(** ** Profiles *)

Inductive ClientProfile := Minimal | Player | Validator.
Definition ClientProfile_parse (input : string) : option ClientProfile :=
  if bool_decide (input = "minimal") then Some Minimal
  else if bool_decide (input = "player") then Some Player
  else if bool_decide (input = "validator") then Some Validator
  else None.
Definition ClientProfile_name (p : ClientProfile) : string :=
  match p with Minimal => "minimal" | Player => "player" | Validator => "validator" end.

Definition profile_capabilities (p : ClientProfile) : CapabilityConfig :=
  match p with
  | Minimal => {| cap_collect := true; cap_store := false; cap_verify := false; cap_propose := false;
                  cap_archive := false |}
  | Player => {| cap_collect := true; cap_store := true; cap_verify := false; cap_propose := false;
                 cap_archive := false |}
  | Validator => {| cap_collect := true; cap_store := true; cap_verify := true; cap_propose := true;
                    cap_archive := false |}
  end.
Definition profile_runtime (p : ClientProfile) (r : RuntimeConfig) : RuntimeConfig :=
  match p with
  | Minimal | Player => set_impact r true true 900
  | Validator => set_impact r false false (poll_interval_secs r)
  end.
Definition apply_profile (c : NodeConfig) (p : ClientProfile) : NodeConfig :=
  let c := set_reward c (set_emission_year (set_mode (nc_reward c) Tokenomics) 1) in
  let c := set_capabilities c (profile_capabilities p) in
  set_runtime c (profile_runtime p (runtime c)).

Definition format_capabilities (c : NodeConfig) : string :=
  let caps := nc_capabilities c in
  let names := ((if cap_collect caps then ["collect"] else []) ++ (if cap_store caps then ["store"] else [])
    ++ (if cap_verify caps then ["verify"] else []) ++ (if cap_propose caps then ["propose"] else [])
    ++ (if cap_archive caps then ["archive"] else []))%list in
  if bool_decide (names = []) then "none" else str_join "," names.

Definition configure_game_process_awareness (c : NodeConfig) : NodeConfig :=
  let r := runtime c in
  set_runtime c (set_impact r true true
    (if game_active_poll_interval_secs r <? poll_interval_secs r then poll_interval_secs r
     else game_active_poll_interval_secs r)).

Definition has_placeholder_node_identity (c : NodeConfig) : bool :=
  bool_decide (node_id_hex c = hex_32 (replicate 32 0x11)) || bool_decide (node_id_hex c = hex_32 (replicate 32 0x31)).
Definition node_id_hex_from_identity (kp : KeyPair) : string := hex_32 (stable_hash32 (public kp)).

(** ** Games *)

(** [None] is the panic of [canonical_process_name]. *)
Fixpoint merge_names (merged names : list string) : option (list string) :=
  match names with
  | [] => Some merged
  | name :: names =>
      canonical ← canonical_process_name name;
      if str_is_empty canonical then merge_names merged names
      else if existsb (λ item, eq_ignore_ascii_case item canonical) merged then merge_names merged names
      else merge_names (merged ++ [canonical])%list names
  end.
Definition merge_process_names (existing incoming : list string) : option (list string) :=
  merge_names [] (existing ++ incoming)%list.

(** The first mapping of a game whose canonical name is the process, ignoring case. *)
Fixpoint find_existing (name : string) (mappings : list RewardGameMapping) : option (option RewardGameMapping) :=
  match mappings with
  | [] => Some None
  | m :: mappings =>
      if is_non_game_executable (process_name m) then find_existing name mappings else
      canonical ← canonical_process_name (process_name m);
      if eq_ignore_ascii_case canonical name then Some (Some m) else find_existing name mappings
  end.

Definition renamed (m : RewardGameMapping) (name : string) : RewardGameMapping :=
  {| process_name := name; gm_app_id := gm_app_id m; game_coefficient_ppm := game_coefficient_ppm m |}.

Fixpoint inferred_targets (seen : list AppId) (mappings : list RewardGameMapping) : list AppId :=
  match mappings with
  | [] => seen
  | m :: mappings =>
      if bool_decide (gm_app_id m ∈ seen) then inferred_targets seen mappings
      else inferred_targets (seen ++ [gm_app_id m])%list mappings
  end.

Section Sync.
(** [infer_reward_game_mapping] on this machine, and whether the cache can be written. *)
Context (infer : string → option (option RewardGameMapping)) (cache_writable : bool).

(** One process: its mapping, and the cache afterwards. *)
Definition mapping_for (existing : list RewardGameMapping) (default_app_id : AppId) (cache : CacheFile)
    (name : string) : option (RewardGameMapping * CacheFile) :=
  found ← find_existing name existing;
  canonical ← canonical_process_name name;
  match found with
  | Some m => Some (renamed m canonical, cache)
  | None =>
      cached ← load_cached_reward_game_mapping cache name;
      match cached with
      | Some m => Some (renamed m canonical, cache)
      | None =>
          inferred ← infer name;
          let m := match inferred with
                   | Some m => renamed m canonical
                   | None => {| process_name := canonical; gm_app_id := default_app_id;
                                game_coefficient_ppm := 1000000 |}
                   end in
          cache ← store_cached_reward_game_mapping cache_writable cache m;
          Some (m, cache)
      end
  end.
Fixpoint mappings_for (existing : list RewardGameMapping) (default_app_id : AppId) (cache : CacheFile)
    (names : list string) : option (list RewardGameMapping * CacheFile) :=
  match names with
  | [] => Some ([], cache)
  | name :: names =>
      '(m, cache) ← mapping_for existing default_app_id cache name;
      '(ms, cache) ← mappings_for existing default_app_id cache names;
      Some (m :: ms, cache)
  end.

Definition sync_reward_game_mappings (cache : CacheFile) (c : NodeConfig) : option (NodeConfig * CacheFile) :=
  merged ← merge_process_names [] (game_process_names (runtime c));
  let normalized_processes := filter (λ name, is_non_game_executable name = false) merged in
  let default_app_id := default 730 (head (target_app_ids (runtime c))) in
  '(mappings, cache) ← mappings_for (game_mappings (nc_reward c)) default_app_id cache normalized_processes;
  let targets := inferred_targets [] mappings in
  let r := set_games (runtime c) normalized_processes
    (if bool_decide (targets = []) then target_app_ids (runtime c) else targets) in
  Some (set_reward (set_runtime c r) (with_game_mappings (nc_reward c) mappings), cache).
End Sync.

(** ** Activity sources *)

Definition source_kind_order (k : ActivitySourceKind) : Z :=
  match k with Steam => 0 | Epic => 1 | Ea => 2 | Gog => 3 | Community => 4 end.

Definition steam_source (app_id : AppId) : ActivitySourceConfig :=
  {| asc_app_id := app_id; asc_source_kind := Steam; endpoint_url := Some (current_players_url app_id);
     inline_json := None; retries := 0 |}.

Fixpoint add_steam_sources (reconciled : list ActivitySourceConfig) (targets : list AppId)
    : list ActivitySourceConfig :=
  match targets with
  | [] => reconciled
  | app_id :: targets =>
      if existsb (λ s, (asc_app_id s =? app_id) && bool_decide (asc_source_kind s = Steam)) reconciled
      then add_steam_sources reconciled targets
      else add_steam_sources (reconciled ++ [steam_source app_id])%list targets
  end.

(** [sort_by_key(|source| (app_id, source_kind_order(kind)))] *)
Definition source_leb (a b : ActivitySourceConfig) : bool :=
  leb (asc_app_id a, source_kind_order (asc_source_kind a)) (asc_app_id b, source_kind_order (asc_source_kind b)).

Definition sync_activity_sources (c : NodeConfig) : NodeConfig :=
  let kept := filter (λ s, asc_source_kind s ≠ Steam) (activity_sources (runtime c)) in
  set_runtime c (set_sources (runtime c)
    (sort_by source_leb (add_steam_sources kept (target_app_ids (runtime c))))).

(** ** The files *)

(** A configuration file holds what parses as a configuration, or does not parse. *)
Record ClientDisk := {
  cd_configs : gmap Path (outcome string NodeConfig);
  cd_caches : gmap string CacheFile;
}.
Notation Cli := (M ClientDisk CliError).

Definition DEFAULT_CONFIG_PATH : string := "./node.json".

Record Machine := {
  cwd : Path;
  infer_mapping : string → option (option RewardGameMapping);
  can_write_config : Path → bool;
  can_write_cache : bool;
  foreground_process : option string;
  fresh_identity : KeyPair;
  (* [write_identity_file]: the password or the keystore may fail *)
  identity_written : outcome string unit;
}.

Section Commands.
Context (mc : Machine) {Addr : Type} (parse_addr : string → outcome string Addr).

Definition absolute_path (s : string) : Path := normalize_path (path_join (cwd mc) s).

Definition load_json_at (p : Path) : Cli NodeConfig :=
  file <- gets (λ d, cd_configs d !! p);;
  match file with
  | Some content => lift (map_err CliConfig (load_json (map_err ConfigJson content)))
  | None => m_throw (CliConfig (ConfigIo "not found"))
  end.

Definition load_json_with_runtime_paths (s : string) : Cli (Path * NodeConfig) :=
  let p := absolute_path s in
  c <- load_json_at p;;
  m_ret (p, set_runtime c (set_data_dir (runtime c)
    (path_display (resolve_runtime_data_dir p (data_dir (runtime c)))))).

Definition save_json (p : Path) (c : NodeConfig) : Cli unit :=
  lift (map_err CliConfig (validate_node_config c));;;
  ensure (can_write_config mc p) (CliConfig (ConfigIo "not writable"));;;
  modify (λ d, {| cd_configs := <[p := Ok c]> (cd_configs d); cd_caches := cd_caches d |}).

(** [sync_reward_game_mappings] with the cache in the data directory of the configuration. *)
Definition sync_games (c : NodeConfig) : Cli NodeConfig :=
  let dir := data_dir (runtime c) in
  cache <- gets (λ d, default CacheMissing (cd_caches d !! dir));;
  r <- lift (or_panic (sync_reward_game_mappings (infer_mapping mc) (can_write_cache mc) cache c));;
  modify (λ d, {| cd_configs := cd_configs d; cd_caches := <[dir := r.2]> (cd_caches d) |});;;
  m_ret r.1.

Definition usage {A} (e : string) : Cli A := m_throw (CliUsage e).
Definition parse_arg (w : Z) (s : string) : Cli Z := lift (map_err CliInt (parse_uint w s)).
Definition arg (args : list string) (i : nat) : string := default "" (args !! i).

(** [init [config-path] [minimal|player|validator]] *)
Definition init_arguments (args : list string) : Cli (string * ClientProfile) :=
  match args !! 2%nat, args !! 3%nat, args !! 4%nat with
  | None, None, None => m_ret (DEFAULT_CONFIG_PATH, Player)
  | Some a, None, None =>
      match ClientProfile_parse a with
      | Some p => m_ret (DEFAULT_CONFIG_PATH, p)
      | None => m_ret (a, Player)
      end
  | Some first, Some second, None =>
      p <- ok_or (ClientProfile_parse second)
             (CliUsage "usage: pole-client init [config-path] [minimal|player|validator]");;
      m_ret (first, p)
  | _, _, _ => usage "usage: pole-client init [config-path] [minimal|player|validator]"
  end.

Definition init_cmd (args : list string) : Cli unit :=
  a <- init_arguments args;;
  let p := absolute_path a.1 in
  exists_ <- gets (λ d, bool_decide (is_Some (cd_configs d !! p)));;
  ensure (negb exists_) (CliUsage ("config already exists at " +:+ a.1));;;
  let c := NodeConfig_default in
  let c := set_runtime c (set_data_dir (runtime c) 
    (path_display (il_data_dir (portable_layout_for_config (path_join [] a.1))))) in
  let id_hex := node_id_hex_from_identity (fresh_identity mc) in
  let c := sync_activity_sources (apply_profile (set_identity c id_hex id_hex) a.2) in
  save_json p c;;;
  lift (map_err CliUsage (identity_written mc)).

Definition repair_identity_cmd (args : list string) : Cli unit :=
  ensure (length args <=? 3)%nat (CliUsage "usage: pole-client repair-identity [config-path]");;;
  pc <- load_json_with_runtime_paths (default DEFAULT_CONFIG_PATH (args !! 2%nat));;
  if negb (has_placeholder_node_identity pc.2) then m_ret tt else
  let id_hex := node_id_hex_from_identity (fresh_identity mc) in
  save_json pc.1 (set_identity pc.2 id_hex id_hex);;;
  lift (map_err CliUsage (identity_written mc)).

Definition other_source (app_id : AppId) (k : ActivitySourceKind) (s : ActivitySourceConfig) : Prop :=
  ¬ (asc_app_id s = app_id ∧ asc_source_kind s = k).
#[global] Instance other_source_dec app_id k s : Decision (other_source app_id k s) := _.

Definition new_source (app_id : AppId) (k : ActivitySourceKind) (value : string) : ActivitySourceConfig :=
  {| asc_app_id := app_id; asc_source_kind := k;
     endpoint_url := if bool_decide (k = Community) then None else Some value;
     inline_json := if bool_decide (k = Community) then Some value else None;
     retries := 0 |}.

Definition activity_sources_add_cmd (args : list string) : Cli unit :=
  ensure ((length args =? 5)%nat || (length args =? 6)%nat) (CliUsage "usage: pole-client activity-sources-add");;;
  let '(path, start_index) := parse_config_path_and_rest args 2 DEFAULT_CONFIG_PATH in
  ensure (length args =? start_index + 3)%nat (CliUsage "usage: pole-client activity-sources-add");;;
  pc <- load_json_with_runtime_paths path;;
  app_id <- parse_arg 32 (arg args start_index);;
  k <- lift (parse_activity_source_kind (arg args (start_index + 1)));;
  let sources := (filter (other_source app_id k) (activity_sources (runtime pc.2))
    ++ [new_source app_id k (arg args (start_index + 2))])%list in
  save_json pc.1 (set_runtime pc.2 (set_sources (runtime pc.2) sources)).

Definition activity_sources_remove_cmd (args : list string) : Cli unit :=
  ensure ((length args =? 4)%nat || (length args =? 5)%nat) (CliUsage "usage: pole-client activity-sources-remove");;;
  let '(path, start_index) := parse_config_path_and_rest args 2 DEFAULT_CONFIG_PATH in
  ensure (length args =? start_index + 2)%nat (CliUsage "usage: pole-client activity-sources-remove");;;
  pc <- load_json_with_runtime_paths path;;
  app_id <- parse_arg 32 (arg args start_index);;
  k <- lift (parse_activity_source_kind (arg args (start_index + 1)));;
  save_json pc.1 (set_runtime pc.2 (set_sources (runtime pc.2)
    (filter (other_source app_id k) (activity_sources (runtime pc.2))))).

Definition activity_sources_sync_cmd (args : list string) : Cli unit :=
  ensure (length args <=? 3)%nat (CliUsage "usage: pole-client activity-sources-sync [config-path]");;;
  pc <- load_json_with_runtime_paths (default DEFAULT_CONFIG_PATH (args !! 2%nat));;
  save_json pc.1 (sync_activity_sources pc.2).

(** The change a subcommand of [reward-config-set] makes. *)
Definition reward_change (args : list string) (start_index : nat) (r : RewardConfig) : Cli RewardConfig :=
  subcommand <- ok_or (args !! start_index) (CliUsage "missing reward-config-set subcommand");;
  if bool_decide (subcommand = "mode") then
    value <- ok_or (args !! S start_index) (CliUsage "usage: pole-client reward-config-set mode");;
    m <- lift (parse_reward_source_mode value);;
    m_ret (set_mode r m)
  else if bool_decide (subcommand = "emission-year") then
    value <- ok_or (args !! S start_index) (CliUsage "usage: pole-client reward-config-set emission-year");;
    year <- parse_arg 32 value;;
    m_ret (set_emission_year r year)
  else if bool_decide (subcommand = "tail-policy") then
    ensure (length args =? start_index + 3)%nat (CliUsage "usage: pole-client reward-config-set tail-policy");;;
    year <- parse_arg 32 (arg args (start_index + 1));;
    bps <- parse_arg 16 (arg args (start_index + 2));;
    m_ret (set_tail r year bps)
  else if bool_decide (subcommand = "service-split") then
    ensure (length args =? start_index + 5)%nat (CliUsage "usage: pole-client reward-config-set service-split");;;
    collect <- parse_arg 16 (arg args (start_index + 1));;
    store <- parse_arg 16 (arg args (start_index + 2));;
    verify <- parse_arg 16 (arg args (start_index + 3));;
    propose <- parse_arg 16 (arg args (start_index + 4));;
    m_ret (set_split r collect store verify propose)
  else usage "usage: pole-client reward-config-set".

Definition reward_config_set_cmd (args : list string) : Cli unit :=
  ensure (4 <=? length args)%nat (CliUsage "usage: pole-client reward-config-set");;;
  let '(path, start_index) :=
    parse_config_path_and_rest_with_known_first_arg args 2 DEFAULT_CONFIG_PATH is_reward_config_subcommand in
  pc <- load_json_with_runtime_paths path;;
  r <- reward_change args start_index (nc_reward pc.2);;
  save_json pc.1 (set_reward pc.2 r).

Definition peer_labels (args : list string) : Cli (list string) :=
  match args !! 5%nat with
  | Some value => topics <- lift (map_err CliParse (parse_socket_topics value));; m_ret (socket_topic_label <$> topics)
  | None => m_ret default_socket_topic_labels
  end.

(** [sort_by(|left, right| left.peer_id_hex.cmp(&right.peer_id_hex))], which is stable *)
Definition peer_leb (a b : P2pSocketPeerConfig) : bool := leb (peer_id_hex a) (peer_id_hex b).
Definition add_peer (peers : list P2pSocketPeerConfig) (peer : P2pSocketPeerConfig) : list P2pSocketPeerConfig :=
  sort_by peer_leb (filter (λ p, peer_id_hex p ≠ peer_id_hex peer) peers ++ [peer])%list.

Definition p2p_socket_add_peer_cmd (args : list string) : Cli unit :=
  ensure ((length args =? 5)%nat || (length args =? 6)%nat) (CliUsage "usage: pole-client p2p-socket-add-peer");;;
  let p := absolute_path (arg args 2) in
  c <- load_json_at p;;
  let id_hex := to_ascii_lowercase (trim (arg args 3)) in
  let addr := trim (arg args 4) in
  labels <- peer_labels args;;
  _id <- lift (map_err CliParse (decode_hex32 id_hex "peer_id_hex"));;
  _addr <- lift (map_err CliParse (parse_socket_addr parse_addr addr "peer_addr"));;
  let peer := {| peer_id_hex := id_hex; peer_addr := addr; peer_topics := labels |} in
  save_json p (set_runtime c (set_socket_peers (runtime c) (add_peer (socket_peers (p2p_socket (runtime c))) peer))).

(** [configure_game_process_awareness], the names, and both reconciliations. *)
Definition save_game_process_names (p : Path) (c : NodeConfig) (names : list string) : Cli unit :=
  let c := configure_game_process_awareness c in
  let c := set_runtime c (set_games (runtime c) names (target_app_ids (runtime c))) in
  c <- sync_games c;;
  save_json p (sync_activity_sources c).

Definition capture_foreground_process_cmd (args : list string) : Cli unit :=
  ensure (length args =? 3)%nat (CliUsage "usage: pole-client capture-foreground-process <config-path>");;;
  let p := absolute_path (arg args 2) in
  c <- load_json_at p;;
  name <- ok_or (foreground_process mc) (CliUsage "could not detect a foreground process to add");;
  names <- lift (or_panic (merge_process_names (game_process_names (runtime c)) [name]));;
  save_game_process_names p c names.

Definition set_game_processes_cmd (args : list string) : Cli unit :=
  ensure (4 <=? length args)%nat (CliUsage "usage: pole-client set-game-processes <config-path> <process-name>...");;;
  let p := absolute_path (arg args 2) in
  c <- load_json_at p;;
  names <- lift (or_panic (mapM canonical_process_name (drop 3 args)));;
  let names := filter (λ name, name ≠ "") names in
  ensure (negb (bool_decide (names = []))) (CliUsage "at least one process name is required");;;
  names <- lift (or_panic (merge_process_names [] names));;
  save_game_process_names p c names.

(** What [collect] does before its tick: a foreground process that may be a game joins the list. *)
Definition collect_capture (args : list string) : Cli unit :=
  ensure (length args <=? 3)%nat (CliUsage "usage: pole-client collect [config-path]");;;
  pc <- load_json_with_runtime_paths (default DEFAULT_CONFIG_PATH (args !! 2%nat));;
  match foreground_process mc with
  | Some name =>
      if should_capture_foreground_process name then
        game <- lift (or_panic (canonical_process_name name));;
        merged <- lift (or_panic (merge_process_names (game_process_names (runtime pc.2)) [game]));;
        if bool_decide (merged ≠ [] ∧ merged ≠ game_process_names (runtime pc.2))
        then save_game_process_names pc.1 pc.2 merged else m_ret tt
      else m_ret tt
  | None => m_ret tt
  end.

Inductive ClientCommand :=
| CmdInit | CmdRepairIdentity | CmdSourcesAdd | CmdSourcesRemove | CmdSourcesSync | CmdRewardSet | CmdAddPeer
| CmdCapture | CmdSetGames | CmdCollect.

Definition run_command (k : ClientCommand) (args : list string) : Cli unit :=
  match k with
  | CmdInit => init_cmd args
  | CmdRepairIdentity => repair_identity_cmd args
  | CmdSourcesAdd => activity_sources_add_cmd args
  | CmdSourcesRemove => activity_sources_remove_cmd args
  | CmdSourcesSync => activity_sources_sync_cmd args
  | CmdRewardSet => reward_config_set_cmd args
  | CmdAddPeer => p2p_socket_add_peer_cmd args
  | CmdCapture => capture_foreground_process_cmd args
  | CmdSetGames => set_game_processes_cmd args
  | CmdCollect => collect_capture args
  end.
End Commands.

(** * Properties *)

(** ** Files stay valid, and an error changes no configuration *)

Definition disk_ok (d : ClientDisk) : Prop :=
  map_Forall (λ _ file, ∀ c, file = Ok c → valid_node_config c) (cd_configs d).

(** A computation that changes no configuration file, and one that does only when it succeeds. *)
Definition quiet {A} (m : Cli A) : Prop := ∀ d, cd_configs (m d).2 = cd_configs d.
Definition atomic {A} (m : Cli A) : Prop :=
  ∀ d, disk_ok d → disk_ok (m d).2 ∧ (is_ok (m d).1 = false → cd_configs (m d).2 = cd_configs d).

Create HintDb client.

Lemma quiet_ret {A} (a : A) : quiet (m_ret a). Proof. done. Qed.
Lemma quiet_throw {A} e : quiet (A := A) (m_throw e). Proof. done. Qed.
Lemma quiet_gets {A} (f : ClientDisk → A) : quiet (gets f). Proof. done. Qed.
Lemma quiet_lift {A} (r : outcome CliError A) : quiet (lift r). Proof. done. Qed.
Lemma quiet_ensure b e : quiet (ensure b e). Proof. by destruct b. Qed.
Lemma quiet_ok_or {A} (o : option A) e : quiet (ok_or o e). Proof. by destruct o. Qed.
Lemma quiet_bind {A B} (m : Cli A) (k : A → Cli B) : quiet m → (∀ a, quiet (k a)) → quiet (m_bind m k).
Proof.
  intros Hm Hk d. unfold m_bind. specialize (Hm d). destruct (m d) as [[a|e|] d']; cbn in *; [|done..].
  by rewrite Hk.
Qed.

Lemma quiet_atomic {A} (m : Cli A) : quiet m → atomic m.
Proof. intros Hm d Hd. unfold disk_ok. by rewrite (Hm d). Qed.
Lemma atomic_bind {A B} (m : Cli A) (k : A → Cli B) : quiet m → (∀ a, atomic (k a)) → atomic (m_bind m k).
Proof.
  intros Hm Hk d Hd. unfold m_bind. specialize (Hm d). destruct (m d) as [[a|e|] d']; cbn in *.
  - assert (disk_ok d') as Hd' by (unfold disk_ok; by rewrite Hm).
    destruct (Hk a d' Hd') as [H1 H2]. split; [done|]. intros E. by rewrite H2.
  - unfold disk_ok. by rewrite Hm.
  - unfold disk_ok. by rewrite Hm.
Qed.
#[export] Hint Resolve quiet_ret quiet_throw quiet_gets quiet_lift quiet_ensure quiet_ok_or quiet_bind
  quiet_atomic atomic_bind : client.

Section Atomic.
Context (mc : Machine) {Addr : Type} (parse_addr : string → outcome string Addr).

Lemma save_atomic p c : atomic (save_json mc p c).
Proof.
  intros d Hd. unfold save_json, m_bind, lift, ensure, modify.
  destruct (validate_node_config c) as [[]|e|] eqn:Ev; cbn; [|done..].
  destruct (can_write_config mc p); cbn; [|done]. split; [|done].
  apply map_Forall_insert_2; [|done]. intros c' [= <-]. by apply validate_node_config_ok_iff.
Qed.

Lemma load_quiet p : quiet (load_json_at p).
Proof. apply quiet_bind; [apply quiet_gets|]. intros [content|]; auto with client. Qed.

Lemma load_runtime_quiet s : quiet (load_json_with_runtime_paths mc s).
Proof. apply quiet_bind; [apply load_quiet|]. intros c. apply quiet_ret. Qed.

Lemma sync_games_quiet c : quiet (sync_games mc c).
Proof.
  intros d. unfold sync_games, m_bind, gets, lift, modify, m_ret, or_panic.
  by destruct (sync_reward_game_mappings _ _ _ _).
Qed.
Hint Resolve save_atomic load_quiet load_runtime_quiet sync_games_quiet : client.

Lemma save_games_atomic p c names : atomic (save_game_process_names mc p c names).
Proof. unfold save_game_process_names. auto with client. Qed.
Hint Resolve save_games_atomic : client.

Lemma reward_change_quiet args i r : quiet (reward_change args i r).
Proof.
  unfold reward_change. apply quiet_bind; [apply quiet_ok_or|]. intros sub.
  repeat case_bool_decide; unfold parse_arg, usage; auto 12 with client.
Qed.
Lemma peer_labels_quiet args : quiet (peer_labels args).
Proof. unfold peer_labels. case_match; auto with client. Qed.
Hint Resolve reward_change_quiet peer_labels_quiet : client.

(** Commands that write an identity after the configuration are apart. *)
Definition writes_identity (k : ClientCommand) : bool :=
  match k with CmdInit | CmdRepairIdentity => true | _ => false end.

Lemma command_atomic k args : writes_identity k = false → atomic (run_command mc parse_addr k args).
Proof.
  destruct k; intros Hk; try done; cbn [run_command].
  - unfold activity_sources_add_cmd. apply atomic_bind; [apply quiet_ensure|]. intros _.
    destruct (parse_config_path_and_rest _ _ _). unfold parse_arg. auto 12 with client.
  - unfold activity_sources_remove_cmd. apply atomic_bind; [apply quiet_ensure|]. intros _.
    destruct (parse_config_path_and_rest _ _ _). unfold parse_arg. auto 12 with client.
  - unfold activity_sources_sync_cmd. auto 12 with client.
  - unfold reward_config_set_cmd. apply atomic_bind; [apply quiet_ensure|]. intros _.
    destruct (parse_config_path_and_rest_with_known_first_arg _ _ _ _). auto 12 with client.
  - unfold p2p_socket_add_peer_cmd. auto 14 with client.
  - unfold capture_foreground_process_cmd. auto 12 with client.
  - unfold set_game_processes_cmd. auto 14 with client.
  - unfold collect_capture. apply atomic_bind; [apply quiet_ensure|]. intros _.
    apply atomic_bind; [apply load_runtime_quiet|]. intros pc. destruct (foreground_process mc) as [name|]; [|auto with client].
    destruct (should_capture_foreground_process name); [|auto with client].
    do 2 (apply atomic_bind; [apply quiet_lift|]; intros ?). case_bool_decide; auto with client.
Qed.

(** Saving, then writing the identity: the file is valid, also when the identity could not be written. *)
Lemma save_then_identity_ok p c d :
  disk_ok d → disk_ok ((save_json mc p c;;; lift (map_err CliUsage (identity_written mc))) d).2.
Proof.
  intros Hd. unfold m_bind. destruct (save_atomic p c d Hd) as [H _].
  destruct (save_json mc p c d) as [[[]|e|] d']; done.
Qed.

Definition keeps {A} (m : Cli A) : Prop := ∀ d, disk_ok d → disk_ok (m d).2.
Lemma command_keeps_bind {A B} (m : Cli A) (k : A → Cli B) : quiet m → (∀ a, keeps (k a)) → keeps (m_bind m k).
Proof.
  intros Hm Hk d Hd. unfold m_bind. specialize (Hm d).
  assert (disk_ok (m d).2) as Hd' by (unfold disk_ok; by rewrite Hm).
  destruct (m d) as [[a|e|] d']; cbn in *; [by apply Hk|done..].
Qed.

Lemma command_keeps k args : keeps (run_command mc parse_addr k args).
Proof.
  destruct (writes_identity k) eqn:Hw.
  2: { intros d Hd. by destruct (command_atomic k args Hw d Hd). }
  destruct k; try done; cbn [run_command].
  - unfold init_cmd. apply command_keeps_bind.
    { unfold init_arguments, usage. repeat case_match; auto with client. }
    intros a. apply command_keeps_bind; [done|]. intros ex. apply command_keeps_bind; [apply quiet_ensure|].
    intros _ d Hd. by apply save_then_identity_ok.
  - unfold repair_identity_cmd. apply command_keeps_bind; [apply quiet_ensure|]. intros _.
    apply command_keeps_bind; [apply load_runtime_quiet|]. intros pc. case_match; [by intros d Hd|].
    intros d Hd. by apply save_then_identity_ok.
Qed.
End Atomic.

(** Any commands one after the other, each on the machine as it then is, with their errors and panics. *)
Fixpoint run_commands {Addr} (parse_addr : string → outcome string Addr)
    (l : list (Machine * ClientCommand * list string)) (d : ClientDisk) : ClientDisk :=
  match l with
  | [] => d
  | (mc, k, args) :: l => run_commands parse_addr l (run_command mc parse_addr k args d).2
  end.

(** Whatever configuration commands are run - with any arguments, foreground programs, caches and
    failing writes - every configuration file that was valid stays so and every file written is valid; and
    a command that ends in an error or a panic, other than one that also writes the identity, has left
    every configuration file as it was. *)
Theorem commands_keep_files_valid {Addr} (parse_addr : string → outcome string Addr) mc k args l d :
  disk_ok d →
  let d' := run_commands parse_addr l d in
  disk_ok d' ∧
  (writes_identity k = false → is_ok (run_command mc parse_addr k args d').1 = false →
   cd_configs (run_command mc parse_addr k args d').2 = cd_configs d').
Proof.
  cbv zeta. intros Hd. assert (disk_ok (run_commands parse_addr l d)) as Hd'.
  { revert d Hd. induction l as [|[[mc' k'] args'] l IH]; intros d Hd; [done|]. cbn.
    apply IH. by apply command_keeps. }
  split; [done|]. intros Hw. by apply command_atomic.
Qed.

(** ** Reconciling the games *)

Lemma eq_ignore_iff s t : eq_ignore_ascii_case s t = true ↔ to_ascii_lowercase s = to_ascii_lowercase t.
Proof. apply bool_decide_eq_true. Qed.

(** Canonical names that differ in more than case. *)
Definition names_ok (l : list string) : Prop :=
  Forall (λ n, canonical_process_name n = Some n ∧ n ≠ "") l ∧ NoDup (to_ascii_lowercase <$> l).

Lemma known_name merged n :
  existsb (λ item, eq_ignore_ascii_case item n) merged = true ↔ to_ascii_lowercase n ∈ to_ascii_lowercase <$> merged.
Proof.
  rewrite existsb_exists, list_elem_of_fmap. split.
  - intros (x & Hx & E%eq_ignore_iff). exists x. split; [done|]. by apply list_elem_of_In.
  - intros (x & E & Hx). exists x. split; [by apply list_elem_of_In|]. by apply eq_ignore_iff.
Qed.

Lemma names_ok_snoc l n :
  names_ok (l ++ [n]) ↔ names_ok l ∧ (canonical_process_name n = Some n ∧ n ≠ "") ∧
    to_ascii_lowercase n ∉ to_ascii_lowercase <$> l.
Proof.
  unfold names_ok. rewrite Forall_app, Forall_singleton, fmap_app. cbn [fmap list_fmap].
  rewrite (Permutation_app_comm _ [_]). cbn [app]. rewrite NoDup_cons. tauto.
Qed.

Lemma merge_ok acc names out :
  names_ok acc → merge_names acc names = Some out →
  names_ok out ∧ (∀ n, n ∈ acc → n ∈ out) ∧
  ∀ n r, n ∈ names → canonical_process_name n = Some r → r ≠ "" →
    to_ascii_lowercase r ∈ to_ascii_lowercase <$> out.
Proof.
  revert acc. induction names as [|n names IH]; intros acc Hok; cbn [merge_names].
  { intros [= <-]. split_and!; [done..|]. intros n r Hn. by apply not_elem_of_nil in Hn. }
  destruct (canonical_process_name n) as [c|] eqn:Ec; [|done]. cbn [mbind option_bind].
  destruct (str_is_empty c) eqn:Ee.
  { assert (c = "") as -> by (by destruct c). intros Hm. destruct (IH acc Hok Hm) as (H1 & H2 & H3).
    split_and!; [done..|]. intros n' r [->|Hn]%elem_of_cons; [|by eapply H3]. intros E ?. congruence. }
  apply str_is_empty_false in Ee.
  destruct (existsb (λ item, eq_ignore_ascii_case item c) acc) eqn:Ek.
  - apply known_name in Ek. intros Hm. destruct (IH acc Hok Hm) as (H1 & H2 & H3). split_and!; [done..|].
    intros n' r [->|Hn]%elem_of_cons; [|by eapply H3]. intros E ?.
    assert (r = c) as -> by congruence. apply list_elem_of_fmap in Ek as (x & -> & Hx). by apply list_elem_of_fmap_2, H2.
  - apply not_true_iff_false in Ek. rewrite known_name in Ek. intros Hm.
    destruct (IH (acc ++ [c])%list) as (H1 & H2 & H3); [|done|].
    { apply names_ok_snoc. split_and!; [done|by eapply canonical_idem|done..]. }
    split_and!; [done| |].
    + intros x Hx. apply H2, elem_of_app. by left.
    + intros n' r [->|Hn]%elem_of_cons; [|by eapply H3]. intros E ?. assert (r = c) as -> by congruence.
      apply list_elem_of_fmap_2, H2, elem_of_app. right. by apply list_elem_of_singleton.
Qed.

Lemma merge_fixed acc l : names_ok (acc ++ l) → merge_names acc l = Some (acc ++ l)%list.
Proof.
  revert acc. induction l as [|n l IH]; intros acc Hok; cbn [merge_names]; [by rewrite app_nil_r|].
  assert (names_ok (acc ++ [n])) as Hn.
  { rewrite (cons_middle n acc l), app_assoc in Hok. destruct Hok as [H1 H2]. apply Forall_app in H1 as [H1 _].
    rewrite fmap_app in H2. apply NoDup_app in H2 as [H2 _]. done. }
  apply names_ok_snoc in Hn as (_ & [-> Hne] & Hnew). cbn [mbind option_bind].
  rewrite (proj2 (str_is_empty_false n)) by done.
  destruct (existsb _ acc) eqn:Ek; [by apply known_name in Ek|].
  rewrite IH by (by rewrite <- app_assoc). by rewrite <- app_assoc.
Qed.

Lemma names_ok_filter (P : string → Prop) `{∀ x, Decision (P x)} l : names_ok l → names_ok (filter P l).
Proof.
  intros [H1 H2]. split.
  - apply Forall_forall. intros x [_ Hx]%list_elem_of_filter. rewrite Forall_forall in H1. auto.
  - clear H1. induction l as [|x l IH]; [constructor|]. cbn in H2. apply NoDup_cons in H2 as [Hx H2].
    rewrite filter_cons. case_decide; [|auto]. cbn. constructor; [|auto].
    intros (y & E & [_ Hy]%list_elem_of_filter)%list_elem_of_fmap. apply Hx. rewrite E. by apply list_elem_of_fmap_2.
Qed.

(** In a list with a mapping for each name the search finds the mapping of the name. *)
Lemma find_own ms m :
  names_ok (process_name <$> ms) → Forall (λ m, is_non_game_executable (process_name m) = false) ms → m ∈ ms →
  find_existing (process_name m) ms = Some (Some m).
Proof.
  induction ms as [|m0 ms IH]; intros [Hc Hnd] Hg Hm; [by apply not_elem_of_nil in Hm|].
  cbn [fmap list_fmap] in Hc, Hnd. apply Forall_cons in Hc as [[Hc0 _] Hc], Hg as [Hg0 Hg].
  cbn in Hnd. apply NoDup_cons in Hnd as [Hnew Hnd]. cbn [find_existing]. rewrite Hg0, Hc0. cbn [mbind option_bind].
  destruct (eq_ignore_ascii_case (process_name m0) (process_name m)) eqn:Eq.
  - apply eq_ignore_iff in Eq. apply elem_of_cons in Hm as [->|Hm]; [done|]. exfalso. apply Hnew. rewrite Eq.
    apply list_elem_of_fmap_2. by apply list_elem_of_fmap_2.
  - apply elem_of_cons in Hm as [->|Hm]; [|by apply IH].
    by rewrite (proj2 (eq_ignore_iff _ _) eq_refl) in Eq.
Qed.

Section SyncLemmas.
Context (infer : string → option (option RewardGameMapping)) (w : bool).

Lemma mapping_for_name existing app cache n m cache' :
  canonical_process_name n = Some n → mapping_for infer w existing app cache n = Some (m, cache') →
  process_name m = n ∧
  ∀ m0, find_existing n existing = Some (Some m0) →
    gm_app_id m = gm_app_id m0 ∧ game_coefficient_ppm m = game_coefficient_ppm m0.
Proof.
  intros Hn. unfold mapping_for. rewrite Hn. destruct (find_existing n existing) as [[m1|]|]; [..|done];
    cbn [mbind option_bind].
  - intros [= <- <-]. split; [done|]. by intros m0 [= <-].
  - destruct (load_cached_reward_game_mapping cache n) as [[m1|]|]; [..|done]; cbn [mbind option_bind].
    + by intros [= <- <-].
    + destruct (infer n) as [inferred|]; [|done]. cbn [mbind option_bind].
      destruct (store_cached_reward_game_mapping _ _ _); [|done]. cbn [mbind option_bind].
      intros [= <- <-]. by destruct inferred.
Qed.

Lemma mappings_for_names existing app cache names ms cache' :
  Forall (λ n, canonical_process_name n = Some n) names →
  mappings_for infer w existing app cache names = Some (ms, cache') →
  process_name <$> ms = names ∧
  ∀ m m0, m ∈ ms → find_existing (process_name m) existing = Some (Some m0) →
    gm_app_id m = gm_app_id m0 ∧ game_coefficient_ppm m = game_coefficient_ppm m0.
Proof.
  intros Hc. revert cache ms cache'. induction Hc as [|n names Hn Hc IH]; intros cache ms cache'; cbn [mappings_for].
  { intros [= <- <-]. split; [done|]. intros m m0 Hm. by apply not_elem_of_nil in Hm. }
  destruct (mapping_for _ _ _ _ _ _) as [[m1 c1]|] eqn:E1; [|done]. cbn [mbind option_bind].
  destruct (mappings_for _ _ _ _ _ _) as [[ms1 c2]|] eqn:E2; [|done]. cbn [mbind option_bind].
  intros [= <- <-]. destruct (mapping_for_name _ _ _ _ _ _ Hn E1) as [<- Hold]. destruct (IH _ _ _ E2) as [<- Hrest].
  split; [done|]. intros m m0 [->|Hm]%elem_of_cons; [apply Hold|by apply Hrest].
Qed.

(** Mappings that are there already are kept. *)
Lemma mappings_for_fixed ms app cache sub :
  names_ok (process_name <$> ms) → Forall (λ m, is_non_game_executable (process_name m) = false) ms → sub ⊆ ms →
  mappings_for infer w ms app cache (process_name <$> sub) = Some (sub, cache).
Proof.
  intros Hok Hg. induction sub as [|m sub IH]; intros Hsub; [done|]. cbn [fmap list_fmap mappings_for].
  assert (m ∈ ms) as Hm by (apply Hsub; left).
  assert (canonical_process_name (process_name m) = Some (process_name m)) as Hc.
  { destruct Hok as [H _]. rewrite Forall_fmap, Forall_forall in H. by apply H. }
  unfold mapping_for at 1. rewrite find_own, Hc by done. cbn [mbind option_bind].
  change (list_fmap _ _ process_name sub) with (process_name <$> sub).
  rewrite IH by (intros x Hx; apply Hsub; by right). cbn [mbind option_bind]. by destruct m.
Qed.
End SyncLemmas.

Lemma elem_of_targets seen ms a :
  a ∈ inferred_targets seen ms ↔ a ∈ seen ∨ a ∈ gm_app_id <$> ms.
Proof.
  revert seen. induction ms as [|m ms IH]; intros seen; cbn; [set_solver|]. case_bool_decide; rewrite IH; set_solver.
Qed.
Lemma NoDup_targets seen ms : NoDup seen → NoDup (inferred_targets seen ms).
Proof.
  revert seen. induction ms as [|m ms IH]; intros seen Hnd; cbn; [done|]. case_bool_decide; apply IH; [done|].
  apply NoDup_app. split_and!; [done| |apply NoDup_singleton]. set_solver.
Qed.

(** C33: Reconciling the games of a configuration gives exactly one mapping for each game process, in the
    order of the processes: the names become canonical and differ in more than case, no process that may
    be a game is lost, a mapping that was configured keeps its application and coefficient, and the target
    applications are those of the mappings, each once. Doing it again changes nothing, whatever the cache
    and the Steam libraries then say. *)
Theorem sync_games_stable infer w cache c c' cache' :
  sync_reward_game_mappings infer w cache c = Some (c', cache') →
  let names := game_process_names (runtime c') in
  let mappings := game_mappings (nc_reward c') in
  process_name <$> mappings = names ∧ names_ok names ∧
  (∀ n r, n ∈ game_process_names (runtime c) → canonical_process_name n = Some r → r ≠ "" →
     ∃ n', to_ascii_lowercase n' = to_ascii_lowercase r ∧ (n' ∈ names ∨ is_non_game_executable n' = true)) ∧
  (∀ m m0, m ∈ mappings → find_existing (process_name m) (game_mappings (nc_reward c)) = Some (Some m0) →
     gm_app_id m = gm_app_id m0 ∧ game_coefficient_ppm m = game_coefficient_ppm m0) ∧
  (mappings ≠ [] → NoDup (target_app_ids (runtime c')) ∧
     ∀ a, a ∈ target_app_ids (runtime c') ↔ a ∈ gm_app_id <$> mappings) ∧
  ∀ infer2 w2 cache2, sync_reward_game_mappings infer2 w2 cache2 c' = Some (c', cache2).
Proof.
  unfold sync_reward_game_mappings at 1, merge_process_names.
  destruct (merge_names [] _) as [merged|] eqn:Em; [|done]. cbn [mbind option_bind app].
  apply merge_ok in Em as (Hok & _ & Hall); [|by split; constructor].
  set (names := filter (λ name, is_non_game_executable name = false) merged).
  destruct (mappings_for _ _ _ _ _ _) as [[ms c1]|] eqn:E; [|done]. cbn [mbind option_bind].
  intros [= <- <-]. cbv zeta. cbn [runtime nc_reward set_reward set_runtime set_games game_process_names
    target_app_ids with_game_mappings game_mappings].
  assert (names_ok names) as Hnames by (by apply names_ok_filter).
  apply mappings_for_names in E as [Hpn Hold].
  2: { destruct Hnames as [H _]. eapply Forall_impl; [exact H|]. by intros x []. }
  assert (Forall (λ m, is_non_game_executable (process_name m) = false) ms) as Hg.
  { assert (Forall (λ n, is_non_game_executable n = false) (process_name <$> ms)) as H; [|by apply Forall_fmap in H].
    rewrite Hpn. apply Forall_forall. intros x [Hx _]%list_elem_of_filter. done. }
  split_and!; [done|done| | |..].
  - intros n r Hn Hr Hne. apply (Hall n r) in Hne as (n' & E' & Hn')%list_elem_of_fmap; [|done..].
    exists n'. split; [done|]. destruct (is_non_game_executable n') eqn:Eg; [by right|left].
    by apply list_elem_of_filter.
  - done.
  - intros Hms. assert (inferred_targets [] ms ≠ []) as Ht.
    { destruct ms as [|m ms]; [done|]. intros Ht. assert (gm_app_id m ∈ inferred_targets [] (m :: ms)) as Hin.
      { apply elem_of_targets. right. left. } rewrite Ht in Hin. by apply not_elem_of_nil in Hin. }
    rewrite bool_decide_eq_false_2 by done. split; [apply NoDup_targets; constructor|].
    intros a. rewrite elem_of_targets. set_solver.
  - intros infer2 w2 cache2. unfold sync_reward_game_mappings, merge_process_names.
    cbn [runtime nc_reward set_reward set_runtime set_games game_process_names target_app_ids with_game_mappings
      game_mappings app]. rewrite merge_fixed by done. cbn [mbind option_bind app].
    replace (filter (λ name, is_non_game_executable name = false) names) with names.
    2: { symmetry. apply filter_all. apply Forall_forall. intros x [Hx _]%list_elem_of_filter. done. }
    rewrite <- Hpn. rewrite mappings_for_fixed by (rewrite ?Hpn; done). cbn [mbind option_bind].
    by case_bool_decide.
Qed.

(** ** Peers that are added can be read *)

Lemma map_outcome_ok {E A B} (f : A → outcome E B) l bs :
  map_outcome f l = Ok bs ↔ Forall2 (λ a b, f a = Ok b) l bs.
Proof.
  revert bs. induction l as [|a l IH]; intros bs; cbn [map_outcome].
  - split; [intros [= <-]; constructor|]. by inversion_clear 1.
  - destruct (f a) as [b|e|] eqn:Ea; cbn [outcome_bind].
    + destruct (map_outcome f l) as [bs'|e|] eqn:El; cbn [outcome_bind].
      * split; [intros [= <-]; constructor; [done|by apply IH]|].
        intros H. inversion H as [|? b' ? bs0 Hb Hr]; subst. apply IH in Hr. congruence.
      * split; [done|]. intros H. inversion H as [|? b' ? bs0 Hb Hr]; subst. apply IH in Hr. congruence.
      * split; [done|]. intros H. inversion H as [|? b' ? bs0 Hb Hr]; subst. apply IH in Hr. congruence.
    + split; [done|]. intros H. inversion H; subst. congruence.
    + split; [done|]. intros H. inversion H; subst. congruence.
Qed.

Lemma map_outcome_total {E A B} (f : A → outcome E B) l :
  Forall (λ a, is_ok (f a) = true) l → ∃ bs, map_outcome f l = Ok bs ∧ ∀ a b, a ∈ l → f a = Ok b → b ∈ bs.
Proof.
  induction 1 as [|a l Ha _ (bs & Hbs & Hin)]; cbn [map_outcome].
  - exists []. split; [done|]. intros a b H. by apply not_elem_of_nil in H.
  - destruct (f a) as [b|e|] eqn:Ea; [|done..]. cbn [outcome_bind]. rewrite Hbs. exists (b :: bs). split; [done|].
    intros a' b' [->|Ha']%elem_of_cons E'; [rewrite Ea in E'; simplify_eq; left|right; by eapply Hin].
Qed.

Lemma map_outcome_perm {E A B} (f : A → outcome E B) l l' bs :
  l ≡ₚ l' → map_outcome f l = Ok bs → ∃ bs', map_outcome f l' = Ok bs' ∧ bs ≡ₚ bs'.
Proof.
  intros Hl Hb%map_outcome_ok. destruct (Permutation_Forall2 Hl Hb) as (bs' & Hp & Hf).
  exists bs'. by rewrite map_outcome_ok.
Qed.

Lemma map_outcome_filter {E A B} (f : A → outcome E B) (P : A → Prop) (Q : B → Prop)
    `{∀ a, Decision (P a), ∀ b, Decision (Q b)} l bs :
  map_outcome f l = Ok bs → (∀ a b, a ∈ l → f a = Ok b → P a ↔ Q b) →
  map_outcome f (filter P l) = Ok (filter Q bs).
Proof.
  rewrite !map_outcome_ok. induction 1 as [|a b l bs Hab _ IH]; intros HPQ; [constructor|].
  assert (Forall2 (λ a b, f a = Ok b) (filter P l) (filter Q bs)) as Hr
    by (apply IH; intros; apply HPQ; [by right|done]).
  assert (P a ↔ Q b) by (apply HPQ; [left|done]).
  destruct (decide (P a)) as [Ha|Ha].
  - rewrite filter_cons_True, filter_cons_True by tauto. by constructor.
  - rewrite filter_cons_False, filter_cons_False by tauto. done.
Qed.

Lemma label_bytes t : (44 ∉ string_bytes (socket_topic_label t)) ∧ socket_topic_label t ≠ "".
Proof. split; [|by destruct t]. by destruct t; apply (bool_decide_unpack _). Qed.

Lemma split_joined ts :
  ts ≠ [] → str_split (str_join "," (socket_topic_label <$> ts)) 44 = socket_topic_label <$> ts.
Proof.
  unfold str_split. induction ts as [|t [|t' ts] IH]; intros Hne; [done|..].
  - change (str_join "," (socket_topic_label <$> [t])) with (socket_topic_label t).
    rewrite split_bytes_whole by apply label_bytes. rewrite !fmap_cons, !fmap_nil. by rewrite string_of_string_bytes.
  - change (str_join "," (socket_topic_label <$> (t :: t' :: ts)))
      with (socket_topic_label t +:+ "," +:+ str_join "," (socket_topic_label <$> (t' :: ts))).
    rewrite !string_bytes_app. cbn [app]. change (string_bytes ",") with [44]. cbn [app].
    rewrite split_bytes_piece by apply label_bytes. rewrite fmap_cons, string_of_string_bytes.
    rewrite IH by done. done.
Qed.

(** The labels of topics are read as the topics. *)
Lemma topics_roundtrip ts :
  ts ≠ [] → parse_socket_topics (str_join "," (socket_topic_label <$> ts)) = Ok ts.
Proof.
  intros Hne. unfold parse_socket_topics, pieces. rewrite split_joined by done.
  rewrite filter_all by (apply Forall_fmap, Forall_true; intros t; apply label_bytes).
  assert (map_outcome socket_topic (socket_topic_label <$> ts) = Ok ts) as ->.
  { apply map_outcome_ok, Forall2_fmap_l, Forall_Forall2_diag, Forall_true. by intros []. }
  cbn [outcome_bind]. by rewrite bool_decide_eq_false_2.
Qed.

Lemma decode_field input f f' b : decode_hex32 input f = Ok b → decode_hex32 input f' = Ok b.
Proof.
  unfold decode_hex32. intros H. destruct (decode_hex_32 input f) as [b'| |] eqn:E; [|done..]. cbn in H.
  simplify_eq. apply decode_hex_32_roundtrip in E. by rewrite (proj2 (decode_hex_32_roundtrip input f' b) E).
Qed.

Lemma topics_ne value ts : parse_socket_topics value = Ok ts → ts ≠ [].
Proof.
  unfold parse_socket_topics. destruct (map_outcome _ _); [|done..]. cbn. case_bool_decide; [done|]. by intros [= <-].
Qed.

Definition all_topics : list P2pTopic := [Observations; Batches; Receipts; Challenges; PlaySessions; Attestations].

Lemma peer_labels_ok args d labels d' :
  peer_labels args d = (Ok labels, d') →
  d' = d ∧ ∃ ts, ts ≠ [] ∧ labels = socket_topic_label <$> ts ∧
    match args !! 5%nat with Some value => parse_socket_topics value = Ok ts | None => ts = all_topics end.
Proof.
  unfold peer_labels. destruct (args !! 5%nat) as [value|].
  - unfold m_bind, lift. destruct (parse_socket_topics value) as [ts| |] eqn:E; cbn; [|done..].
    intros [= <- <-]. split; [done|]. exists ts. split_and!; [by eapply topics_ne|done..].
  - intros [= <- <-]. split; [done|]. by exists all_topics.
Qed.

Lemma bind_ok {A B} (m : Cli A) (k : A → Cli B) d b d' :
  m_bind m k d = (Ok b, d') → ∃ a d1, m d = (Ok a, d1) ∧ k a d1 = (Ok b, d').
Proof. unfold m_bind. destruct (m d) as [[a|e|] d1]; [|done..]. intros H. by exists a, d1. Qed.

Lemma ensure_ok b (e : CliError) (d d' : ClientDisk) : ensure b e d = (Ok tt, d') → d' = d.
Proof. by destruct b; intros [= <-]. Qed.

Lemma load_at_ok p d c d' :
  load_json_at p d = (Ok c, d') → d' = d ∧ cd_configs d !! p = Some (Ok c).
Proof.
  unfold load_json_at, m_bind, gets. destruct (cd_configs d !! p) as [[c0|e|]|]; [|done..].
  unfold lift, load_json. cbn. destruct (validate_node_config c0); cbn; [|done..]. by intros [= <- <-].
Qed.

Lemma save_ok mc p c d d' :
  save_json mc p c d = (Ok tt, d') → cd_configs d' !! p = Some (Ok c).
Proof.
  unfold save_json, m_bind, lift, ensure, modify. destruct (validate_node_config c); cbn; [|done..].
  destruct (can_write_config mc p); cbn; [|done]. intros [= <-]. cbn. apply lookup_insert_eq.
Qed.

(** Identifiers in lower case that decode to the same bytes are the same. *)
Definition lower_case (s : string) : Prop := to_ascii_lowercase s = s.

Lemma decode_lower s s' f f' b :
  lower_case s → lower_case s' → decode_hex32 s f = Ok b → decode_hex32 s' f' = Ok b → s = s'.
Proof.
  unfold decode_hex32, lower_case. intros Hs Hs'.
  destruct (decode_hex_32 s f) as [b1| |] eqn:E1; [|done..]. destruct (decode_hex_32 s' f') as [b2| |] eqn:E2; [|done..].
  intros [= <-] [= <-]. apply decode_hex_32_roundtrip in E1 as (_ & _ & E1), E2 as (_ & _ & E2). congruence.
Qed.

Section AddedPeer.
Context {Addr : Type} (parse_addr : string → outcome string Addr).
Local Notation read := (socket_peer_from_config parse_addr).

Lemma peer_id_read q f : read q = Ok f → decode_hex32 (peer_id_hex q) "runtime.p2p_socket.peers[].peer_id_hex" = Ok (sk_peer_id f).
Proof.
  unfold socket_peer_from_config. destruct (decode_hex32 _ _); [|done..]. cbn [outcome_bind].
  destruct (parse_socket_addr _ _ _); [|done..]. cbn [outcome_bind].
  destruct (parse_socket_topics _); [|done..]. by intros [= <-].
Qed.

(** The profiles after an entry was added: the new one is read, and it replaced the profiles of
    its identifier when the entries are in lower case. *)
Lemma added_peer_read peers peer new old :
  map_outcome read peers = Ok old → read peer = Ok new →
  ∃ profiles, socket_peers_from_config parse_addr (add_peer peers peer) = Ok profiles ∧ new ∈ profiles ∧
    (lower_case (peer_id_hex peer) → Forall (λ q, lower_case (peer_id_hex q)) peers →
     profiles ≡ₚ new :: filter (λ f, sk_peer_id f ≠ sk_peer_id new) old).
Proof.
  intros Hold Hnew. set (kept := filter (λ q, peer_id_hex q ≠ peer_id_hex peer) peers).
  assert (Forall (λ q, is_ok (read q) = true) kept) as Hok.
  { assert (Forall (λ q, is_ok (read q) = true) peers) as Hall.
    { apply map_outcome_ok in Hold. clear -Hold. by induction Hold as [|q f ?? E]; constructor; [rewrite E|]. }
    apply Forall_forall. intros q [_ Hq]%list_elem_of_filter. rewrite Forall_forall in Hall. auto. }
  destruct (map_outcome_total read kept Hok) as (ks & Hks & _).
  assert (map_outcome read (kept ++ [peer])%list = Ok (ks ++ [new])%list) as Happ.
  { apply map_outcome_ok in Hks. apply map_outcome_ok, Forall2_app; [done|]. by repeat constructor. }
  destruct (map_outcome_perm read _ (add_peer peers peer) _ (symmetry (sort_by_perm peer_leb _)) Happ)
    as (profiles & Hp & Hperm).
  assert (new ∈ profiles) as Hin by (rewrite <- Hperm; apply elem_of_app; right; by apply list_elem_of_singleton).
  exists profiles. unfold socket_peers_from_config. rewrite Hp. cbn [outcome_bind]. split_and!.
  - by destruct profiles; [apply not_elem_of_nil in Hin|].
  - done.
  - intros Hlow Hlows. rewrite <- Hperm, (Permutation_app_comm ks). simpl. constructor.
    pose proof (map_outcome_filter read (λ q, peer_id_hex q ≠ peer_id_hex peer)
      (λ f, sk_peer_id f ≠ sk_peer_id new) peers old Hold) as Hf. fold kept in Hf. rewrite Hks in Hf.
    assert (filter (λ f, sk_peer_id f ≠ sk_peer_id new) old = ks) as ->; [|done].
    enough (Ok (E:=CliParseError) ks = Ok (filter (λ f, sk_peer_id f ≠ sk_peer_id new) old)) by congruence. apply Hf.
    intros q f Hq Hqf. rewrite Forall_forall in Hlows. specialize (Hlows q Hq).
    pose proof (peer_id_read _ _ Hqf) as H1. pose proof (peer_id_read _ _ Hnew) as H2.
    split; intros Hne Heq; apply Hne.
    + rewrite Heq in H1. by eapply decode_lower.
    + rewrite Heq in H1. congruence.
Qed.
End AddedPeer.

Lemma lower_case_lowered s : lower_case (to_ascii_lowercase s).
Proof.
  apply string_bytes_inj. rewrite !string_bytes_lower, <- list_fmap_compose. apply list_fmap_ext.
  intros _ x _. unfold compose, lower_byte. repeat case_match; lia.
Qed.

(** C40: A peer added with p2p-socket-add-peer can be used: when the command succeeds, the file holds
    one entry whose identifier is spelt as the lower-case form of the argument, and when the peers there
    were can all be read from the configuration, so can they with the new one among them, under the
    identifier, address and topics of the arguments (all topics without a topic argument). When the
    identifiers there were are spelt in lower case too, the profiles are then the new one and those of
    other identifiers, so that an earlier entry of the identifier is replaced; an entry in upper case
    is not recognised ([upper_case_peer_duplicated]). *)
Theorem added_peer_loads mc {Addr} (parse_addr : string → outcome string Addr) args d d' :
  p2p_socket_add_peer_cmd mc parse_addr args d = (Ok tt, d') →
  let p := absolute_path mc (arg args 2) in
  let id_hex := to_ascii_lowercase (trim (arg args 3)) in
  ∃ c c' id addr ts peer,
    cd_configs d !! p = Some (Ok c) ∧ cd_configs d' !! p = Some (Ok c') ∧
    decode_hex32 id_hex "peer_id_hex" = Ok id ∧ parse_addr (trim (arg args 4)) = Ok addr ∧
    match args !! 5%nat with Some value => parse_socket_topics value = Ok ts | None => ts = all_topics end ∧
    filter (λ q, peer_id_hex q = id_hex) (socket_peers (p2p_socket (runtime c'))) = [peer] ∧
    ∀ old, map_outcome (socket_peer_from_config parse_addr) (socket_peers (p2p_socket (runtime c))) = Ok old →
     ∃ profiles, socket_peers_from_config parse_addr (socket_peers (p2p_socket (runtime c'))) = Ok profiles ∧
       SocketPeerProfile_new id addr ts ∈ profiles ∧
       (Forall (λ q, lower_case (peer_id_hex q)) (socket_peers (p2p_socket (runtime c))) →
        profiles ≡ₚ SocketPeerProfile_new id addr ts :: filter (λ f, sk_peer_id f ≠ id) old).
Proof.
  intros H. cbv zeta. unfold p2p_socket_add_peer_cmd in H.
  apply bind_ok in H as ([] & d0 & ->%ensure_ok & H).
  apply bind_ok in H as (c & d1 & [-> Hc]%load_at_ok & H).
  apply bind_ok in H as (labels & d1 & (-> & ts & Hne & -> & Hts)%peer_labels_ok & H).
  pose proof (lower_case_lowered (trim (arg args 3))) as Hlow.
  set (id_hex := to_ascii_lowercase (trim (arg args 3))) in *.
  unfold m_bind at 1, lift at 1 in H. destruct (decode_hex32 id_hex "peer_id_hex") as [id| |] eqn:Eid; [|done..].
  cbn [map_err] in H. unfold m_bind, lift, parse_socket_addr in H.
  destruct (parse_addr (trim (arg args 4))) as [addr| |] eqn:Ea; [|done..]. cbn [map_err] in H.
  apply save_ok in H. set (peer := {| peer_id_hex := id_hex; peer_addr := trim (arg args 4);
    peer_topics := socket_topic_label <$> ts |}) in *.
  eexists c, _, id, addr, ts, peer. split_and!; [done|exact H|done..| |].
  - cbn [runtime set_runtime set_socket_peers p2p_socket socket_peers]. apply Permutation_singleton_r.
    unfold add_peer, peer. rewrite sort_by_perm, filter_app. cbn [peer_id_hex].
    rewrite filter_cons_True, filter_nil by done.
    assert (filter (λ q, peer_id_hex q = id_hex) (filter (λ q, peer_id_hex q ≠ id_hex)
      (socket_peers (p2p_socket (runtime c)))) = []) as ->; [|done].
    apply filter_none. apply Forall_forall. by intros q [? _]%list_elem_of_filter.
  - intros old Hold. cbn [runtime set_runtime set_socket_peers p2p_socket socket_peers].
    assert (socket_peer_from_config parse_addr peer = Ok (SocketPeerProfile_new id addr ts)) as Hpeer.
    { unfold socket_peer_from_config, parse_socket_addr, peer. cbn [peer_id_hex peer_addr peer_topics].
      by rewrite (decode_field _ _ _ _ Eid), Ea, topics_roundtrip. }
    destruct (added_peer_read parse_addr _ peer _ old Hold Hpeer) as (profiles & Hp & Hin & Hperm).
    exists profiles. split_and!; [done..|]. intros Hl. by apply Hperm.
Qed.

(** ** Activity sources *)

Lemma add_steam_spec kept targets :
  ∃ added, add_steam_sources kept targets = (kept ++ (steam_source <$> added))%list ∧ NoDup added ∧
    (∀ a, a ∈ added ↔ a ∈ targets ∧ ¬ ∃ s, s ∈ kept ∧ asc_app_id s = a ∧ asc_source_kind s = Steam).
Proof.
  revert kept. induction targets as [|a targets IH]; intros kept; cbn [add_steam_sources].
  { exists []. rewrite app_nil_r. split_and!; [done|constructor|]. set_solver. }
  destruct (existsb _ kept) eqn:Ek.
  - apply existsb_exists in Ek as (s & Hs%list_elem_of_In & E).
    apply andb_true_iff in E as [E1%Z.eqb_eq E2%bool_decide_eq_true].
    destruct (IH kept) as (added & -> & Hnd & Hin). exists added. split_and!; [done..|]. intros b. rewrite Hin, elem_of_cons.
    split; [naive_solver|]. intros [[-> | Hb] Hno]; [destruct Hno; by exists s|done].
  - destruct (IH (kept ++ [steam_source a])%list) as (added & -> & Hnd & Hin).
    exists (a :: added). rewrite <- app_assoc. split_and!; [done| |].
    + constructor; [|done]. rewrite Hin. intros [_ Hno]. destruct Hno. exists (steam_source a).
      split; [|done]. apply elem_of_app. right. by apply list_elem_of_singleton.
    + intros b. rewrite !elem_of_cons, Hin. split.
      * intros [-> | [Hb Hno]]; [split; [by left|]|split; [by right|]].
        -- intros (s & Hs & E1 & E2). apply not_true_iff_false in Ek. apply Ek, existsb_exists. exists s.
           split; [by apply list_elem_of_In|]. rewrite E1, Z.eqb_refl. cbn. by apply bool_decide_eq_true.
        -- intros (s & Hs & E). apply Hno. exists s. split; [|done]. apply elem_of_app. by left.
      * intros [[-> | Hb] Hno]; [by left|]. destruct (decide (b = a)) as [->|Hne]; [by left|right]. split; [done|].
        intros (s & [Hs|Hs%list_elem_of_singleton]%elem_of_app & E1 & E2); [apply Hno; by exists s|].
        subst s. cbn in E1. congruence.
Qed.

(** Reconciled sources are sorted by application and kind, hold the sources that are not Steam's as they
    were, and for Steam exactly one source for each target, at the address the collector uses. *)
Theorem synced_sources c :
  let sources := activity_sources (runtime (sync_activity_sources c)) in
  StronglySorted (λ a b, source_leb a b = true) sources ∧
  filter (λ s, asc_source_kind s ≠ Steam) sources ≡ₚ
    filter (λ s, asc_source_kind s ≠ Steam) (activity_sources (runtime c)) ∧
  filter (λ s, asc_source_kind s = Steam) sources ≡ₚ
    steam_source <$> remove_dups (target_app_ids (runtime c)).
Proof.
  cbv zeta. unfold sync_activity_sources. cbn [runtime set_runtime set_sources activity_sources].
  set (kept := filter (λ s, asc_source_kind s ≠ Steam) (activity_sources (runtime c))).
  destruct (add_steam_spec kept (target_app_ids (runtime c))) as (added & -> & Hnd & Hin).
  assert (Forall (λ s, asc_source_kind s ≠ Steam) kept) as Hk
    by (apply Forall_forall; by intros s [? _]%list_elem_of_filter).
  assert (∀ l, Forall (λ s, asc_source_kind s = Steam) (steam_source <$> l)) as Hst
    by (intros l; apply Forall_fmap, Forall_true; done).
  split_and!.
  - apply (sort_by_key_sorted (λ s, (asc_app_id s, source_kind_order (asc_source_kind s)))).
  - rewrite sort_by_perm, filter_app, (filter_all _ kept) by done.
    rewrite filter_none; [by rewrite app_nil_r|]. eapply Forall_impl; [apply Hst|]. intros s ->. naive_solver.
  - rewrite sort_by_perm, filter_app, (filter_all _ (steam_source <$> added)) by done. rewrite filter_none by done.
    cbn [app]. apply fmap_Permutation. apply NoDup_Permutation; [done|apply NoDup_remove_dups|].
    intros a. rewrite Hin, elem_of_remove_dups. split; [tauto|]. intros Ha. split; [done|].
    intros (s & Hs & _ & E). rewrite Forall_forall in Hk. by apply (Hk s).
Qed.

(** ** Runs *)

Definition demo_keypair : KeyPair := {| secret := [1]; public := [2]; kp_address := [3] |}.
Definition demo_machine (foreground : option string) (identity : outcome string unit) : Machine := {|
  cwd := ["C:"; "\"; "pole"];
  infer_mapping := infer_reward_game_mapping (demo_host demo_exe) (λ _, false) [];
  can_write_config := λ _, true; can_write_cache := true; foreground_process := foreground;
  fresh_identity := demo_keypair; identity_written := identity |}.

Definition no_addr : string → outcome string string := Ok.
Definition run_args (mc : Machine) (k : ClientCommand) (args : list string) : Cli unit :=
  run_command mc no_addr k ("pole-client" :: "command" :: args).
Definition demo_files (c : NodeConfig) : ClientDisk :=
  {| cd_configs := {[ ["C:"; "\"; "pole"; "node.json"] := Ok c ]}; cd_caches := ∅ |}.
Definition file_of (d : ClientDisk) : option NodeConfig :=
  match cd_configs d !! ["C:"; "\"; "pole"; "node.json"] with Some (Ok c) => Some c | _ => None end.
Definition idle_machine : Machine := demo_machine None (Ok tt).

Definition client_demo_files : ClientDisk := demo_files NodeConfig_default.

Lemma client_demo_files_ok : disk_ok client_demo_files.
Proof.
  apply map_Forall_insert_2; [|by apply map_Forall_empty]. intros c [= <-].
  apply validate_node_config_ok_iff, default_config_valid.
Qed.

Lemma commands_keep_files_valid_witness :
  let bad := run_args idle_machine CmdRewardSet ["service-split"; "1"; "2"; "3"; "4"] client_demo_files in
  is_ok bad.1 = false ∧ cd_configs bad.2 = cd_configs client_demo_files.
Proof.
  cbv zeta. assert (is_ok (run_args idle_machine CmdRewardSet ["service-split"; "1"; "2"; "3"; "4"]
    client_demo_files).1 = false) as E by (vm_compute; reflexivity).
  split; [exact E|].
  apply (proj2 (commands_keep_files_valid no_addr idle_machine CmdRewardSet
    ["pole-client"; "command"; "service-split"; "1"; "2"; "3"; "4"] [] client_demo_files client_demo_files_ok));
    [reflexivity|exact E].
Defined.

(** A node with two games of the catalogue. *)
Definition two_games (c : NodeConfig) : option NodeConfig :=
  fst <$> sync_reward_game_mappings (infer_mapping idle_machine) true CacheMissing
    (set_runtime c (set_games (runtime c) ["CS2"; "dota2.exe"; "cs2.EXE"; "chrome.exe"] (target_app_ids (runtime c)))).

Lemma sync_games_stable_witness :
  ∃ c' cache', sync_reward_game_mappings (infer_mapping idle_machine) true CacheMissing
    (set_runtime NodeConfig_default (set_games (runtime NodeConfig_default) ["CS2"; "dota2.exe"; "cs2.EXE"; "chrome.exe"] [730]))
    = Some (c', cache') ∧ game_process_names (runtime c') = ["CS2.exe"; "dota2.exe"] ∧
  sync_reward_game_mappings (λ _, None) true CacheBroken c' = Some (c', CacheBroken).
Proof.
  destruct (sync_reward_game_mappings (infer_mapping idle_machine) true CacheMissing
    (set_runtime NodeConfig_default (set_games (runtime NodeConfig_default) ["CS2"; "dota2.exe"; "cs2.EXE"; "chrome.exe"] [730])))
    as [[c' cache']|] eqn:E; [|by vm_compute in E].
  exists c', cache'. split; [done|].
  destruct (sync_games_stable _ _ _ _ _ _ E) as (_ & _ & _ & _ & _ & H). split; [|apply H].
  vm_compute in E. by injection E as <- _.
Defined.

Definition demo_peer_args : list string :=
  ["pole-client"; "p2p-socket-add-peer"; "node.json"; " " +:+ hex_32 (replicate 32 0xAB) +:+ " "; "10.0.0.1:9000";
   "batches,sessions"].

Lemma added_peer_loads_witness :
  let d' := (p2p_socket_add_peer_cmd idle_machine no_addr demo_peer_args client_demo_files).2 in
  ∃ c' profiles, cd_configs d' !! ["C:"; "\"; "pole"; "node.json"] = Some (Ok c') ∧
    socket_peers_from_config no_addr (socket_peers (p2p_socket (runtime c'))) = Ok profiles ∧
    SocketPeerProfile_new (replicate 32 0xAB) "10.0.0.1:9000" [Batches; PlaySessions] ∈ profiles ∧
    (profiles ≡ₚ [SocketPeerProfile_new (replicate 32 0xAB) "10.0.0.1:9000" [Batches; PlaySessions]]).
Proof.
  cbv zeta. destruct (p2p_socket_add_peer_cmd idle_machine no_addr demo_peer_args client_demo_files)
    as [[[]|e|] d'] eqn:E; [|by vm_compute in E..].
  destruct (added_peer_loads idle_machine no_addr demo_peer_args client_demo_files d' E)
    as (c & c' & id & addr & ts & peer & Hc & Hc' & Hid & Haddr & Hts & _ & Hload).
  vm_compute in Hc, Hid, Haddr, Hts. simplify_eq. destruct (Hload []) as (profiles & H1 & H2 & H3); [reflexivity|].
  exists c', profiles. split_and!; [exact Hc'|exact H1|exact H2|apply H3; constructor].
Defined.

(** ** What the commands leave behind *)

(** Two games of the catalogue, named in one command: the configuration is valid, and settling with it panics. *)
Example two_games_break_settlement :
  match two_games runtime_config with
  | Some c => gm_app_id <$> game_mappings (nc_reward c) = [730; 570] ∧ validate_node_config c = Ok tt ∧
              (demo_settle c no_failure 100 empty_disk).1 = Panic
  | None => False
  end.
Proof. vm_compute. split_and!; reflexivity. Qed.

(** Any program that is not on the list of other programs is a game when it is in the foreground, and
    counts as the first target application. *)
Example unknown_program_counts_as_target :
  let run := run_args (demo_machine (Some "winword.exe") (Ok tt)) CmdCollect ["node.json"] client_demo_files in
  run.1 = Ok tt ∧
  (λ c, game_mappings (nc_reward c)) <$> file_of run.2
    = Some [{| process_name := "winword.exe"; gm_app_id := 730; game_coefficient_ppm := 1000000 |}].
Proof. vm_compute. split; reflexivity. Qed.

(** The address of a Steam source that was set by hand is replaced when the sources are reconciled. *)
Example steam_source_replaced :
  let d1 := (run_args idle_machine CmdSourcesAdd ["node.json"; "730"; "steam"; "https://mirror.example/730"] client_demo_files).2 in
  let d2 := (run_args idle_machine CmdSourcesSync ["node.json"] d1).2 in
  (λ c, endpoint_url <$> activity_sources (runtime c)) <$> file_of d1 = Some [Some "https://mirror.example/730"] ∧
  (λ c, endpoint_url <$> activity_sources (runtime c)) <$> file_of d2 = Some [Some (current_players_url 730)].
Proof. vm_compute. split; reflexivity. Qed.

(** When the identity cannot be written the configuration already names it: the key is lost, and the next
    repair finds nothing to repair. *)
Example failed_repair_loses_identity :
  let first := run_args (demo_machine None (Err "no password")) CmdRepairIdentity ["node.json"] client_demo_files in
  let second := run_args (demo_machine None (Ok tt)) CmdRepairIdentity ["node.json"] first.2 in
  first.1 = Err (CliUsage "no password") ∧
  node_id_hex <$> file_of first.2 = Some (node_id_hex_from_identity demo_keypair) ∧
  second = (Ok tt, first.2).
Proof. vm_compute. split_and!; reflexivity. Qed.

(** An epoch given as an argument is refused on a node that has not collected. *)
Example explicit_epoch_needs_history (p : LocalNodeProgress) :
  ticks_completed p = 0 → is_ok (resolve_epoch_id_arg ["pole-client"; "verify"; "7"] 2 p) = false.
Proof. intros H. unfold resolve_epoch_id_arg, latest_local_epoch. cbn. by rewrite H. Qed.

Definition upper_id : string := string_of_bytes (replicate 64 65).

(** A peer configured in upper case is read as the same peer; adding it again gives it two entries. *)
Example upper_case_peer_duplicated :
  let c := set_runtime NodeConfig_default (set_socket_peers (runtime NodeConfig_default)
    [{| peer_id_hex := upper_id; peer_addr := "10.0.0.1:9000"; peer_topics := ["batches"] |}]) in
  let d := (run_args idle_machine CmdAddPeer ["node.json"; upper_id; "10.0.0.2:9000"] (demo_files c)).2 in
  match file_of d with
  | Some c => match socket_peers_from_config no_addr (socket_peers (p2p_socket (runtime c))) with
              | Ok profiles => sk_peer_id <$> profiles = [replicate 32 0xAA; replicate 32 0xAA]
              | _ => False
              end
  | None => False
  end.
Proof. vm_compute. reflexivity. Qed.
