(* ===== verification/BridgeCommands.v ===== *)
(** * The commands that put a node's work on the chain: src/src/cli_client.rs, src/src/cli_node.rs
    and the projections of src/src/mutual_proof.rs

    Batches, epoch commits, play sessions, heartbeats, attestations, reward records and
    verification credentials become messages of the bridge. A command is a state transformer
    over the data directory and the messages handed to the client so far; whether the chain
    takes a message is only reported, so that it does not change what follows, and
    [transmit] runs the messages through the client of CosmosClient. The configuration
    and the arguments are parsed as in ClientConfig; what the node computes for an epoch
    (batches, preparation, rewards, credentials) is the result of the functions modelled
    elsewhere, passed in. *)
From S2P Require Import Prelude Primitives Records Text Rewards Crypto MutualProof NodeConfig CosmosAddress Aggregator EpochRewards Verifier Pipeline NodeRuntime Preparation PoleMsgs CosmosClient Ingestion ClientConfig.
Local Open Scope pole_scope.
Local Open Scope string_scope.
Local Open Scope Z_scope.

Inductive BridgeError :=
| BeUsage (e : string)
| BeCosmos (e : CosmosError)
| BeProof (e : MutualProofError)
| BeDaemon (e : NodeDaemonError)
| BeCli (e : CliError)
| BeParse (e : CliParseError)
| BePreparation (e : NodePreparationError).

(** [as i64] of an unsigned 64-bit number *)
Definition as_i64 (z : Z) : Z := if z <? 2 ^ 63 then z else z - 2 ^ 64.

Record BridgeState := {
  bs_dir : DataDir;
  bs_sent : list BridgeMessage;
}.
Notation Bridge := (M BridgeState BridgeError).

(** Handing a message to the client. *)
Definition hand_over (m : BridgeMessage) : Bridge unit :=
  modify (λ s, {| bs_dir := bs_dir s; bs_sent := (bs_sent s ++ [m])%list |}).
Definition update_dir (f : DataDir → DataDir) : Bridge unit :=
  modify (λ s, {| bs_dir := f (bs_dir s); bs_sent := bs_sent s |}).

Section Projections.
Context `{External} `{Bech32}.

(** ** Wire forms *)

Definition merkle_wire (m : MerkleCommitment) : MerkleCommitmentWire :=
  {| mcw_root := hex_32 (root m); mcw_leaf_count := leaf_count m |}.

Definition batch_commit_to_wire (b : BatchCommit) (collector_address : string) : BatchCommitWire :=
  {| bcw_epoch_id := bc_epoch_id b; bcw_collector_address := collector_address;
     bcw_slot_start := slot_start b; bcw_slot_end := slot_end b; bcw_batch := merkle_wire (batch b);
     bcw_payload_cid := bc_payload_cid b; bcw_observation_count := obs_count b;
     bcw_submitted_at_height := as_i64 (submitted_at_height b) |}.

Definition epoch_commit_to_wire (c : EpochCommit) (proposer_address : string) (total_network_weight_units : Z)
    : EpochCommitWire :=
  {| ecw_epoch_id := ec_epoch_id c; ecw_accepted_batches := merkle_wire (accepted_batches c);
     ecw_observations := merkle_wire (observations c); ecw_aggregates := merkle_wire (aggregates c);
     ecw_rewards := merkle_wire (ec_rewards c); ecw_availability := merkle_wire (availability c);
     ecw_randomness_seed_hex := hex_32 (randomness_seed c); ecw_proposer_address := proposer_address;
     ecw_challenge_open_height := as_i64 (challenge_open_height c);
     ecw_challenge_deadline_height := as_i64 (challenge_deadline_height c); ecw_finalized := false;
     ecw_total_network_weight_units := total_network_weight_units |}.

(** [mutual_proof::address_to_bech32] *)
Definition proof_address (a : Address) : outcome MutualProofError string :=
  map_err (λ e, AddressError (cosmos_error_text e)) (encode_bech32 DEFAULT_BECH32_PREFIX (take 20 a)).

Definition play_session_to_wire (s : PlaySession) : outcome MutualProofError PlaySessionWire :=
  do? node <- proof_address (ps_node_address s);
  do? collector <- proof_address (ps_collector_address s);
  Ok {| psw_session_id_hex := hex_32 (ps_session_id s); psw_node_address := node; psw_app_id := ps_app_id s;
        psw_epoch_id := ps_epoch_id s; psw_slot_id := ps_slot_id s; psw_play_seconds := play_seconds s;
        psw_collector_address := collector; psw_observation_cid := observation_cid s;
        psw_observed_players := ps_observed_players s;
        psw_submitted_at_height := as_i64 (ps_submitted_at_height s);
        psw_session_signature := hex_encode_str (session_signature s) |}.

Definition play_heartbeat_to_wire (h : PlayHeartbeat) : outcome MutualProofError PlayHeartbeatWire :=
  do? node <- proof_address (hb_node_address h);
  Ok {| phw_session_id_hex := hex_32 (hb_session_id h); phw_node_address := node;
        phw_bucket_index := bucket_index h; phw_signed_at_millis := as_i64 (signed_at_millis h);
        phw_heartbeat_signature := hex_encode_str (heartbeat_signature h) |}.

Definition witness_attestation_to_wire (a : WitnessAttestation) : outcome MutualProofError WitnessAttestationWire :=
  do? witness <- proof_address (witness_address a);
  Ok {| waw_session_id_hex := hex_32 (wa_session_id a); waw_witness_address := witness;
        waw_observed_play_seconds := observed_play_seconds a;
        waw_witness_observation_cid := witness_observation_cid a;
        waw_observed_players := wa_observed_players a; waw_attested_at_height := as_i64 (attested_at_height a);
        waw_witness_signature := hex_encode_str (witness_signature a) |}.

(** Amounts on the wire have 64 bits; a larger one is refused. *)
Definition narrow_amount (v : Amount) (field : string) : outcome BridgeError Z :=
  if v <? 2 ^ 64 then Ok v
  else Err (BeUsage (field +:+ " value " +:+ display v +:+ " exceeds the u64 wire range")).

Definition reward_record_to_wire (r : RewardRecord) : outcome BridgeError RewardRecordWire :=
  do? recipient <- map_err BeCosmos (chain_recipient r);
  do? player <- narrow_amount (player_reward r) "player_reward";
  do? collect <- narrow_amount (collect_reward r) "collect_reward";
  do? store <- narrow_amount (store_reward r) "store_reward";
  do? verify <- narrow_amount (verify_reward r) "verify_reward";
  do? propose <- narrow_amount (propose_reward r) "propose_reward";
  do? slash <- narrow_amount (slash_debit r) "slash_debit";
  do? net <- narrow_amount (net_reward r) "net_reward";
  Ok {| rww_epoch_id := rw_epoch_id r; rww_recipient := recipient; rww_player_reward := player;
        rww_collect_reward := collect; rww_store_reward := store; rww_verify_reward := verify;
        rww_propose_reward := propose; rww_slash_debit := slash; rww_net_reward := net |}.

(** ** Commands *)

Definition chain_signer (identity : KeyPair) : outcome BridgeError CosmosAddress :=
  let account := cosmos_account_from_pubkey (public identity) in
  do? bech32 <- map_err BeCosmos (encode_bech32 DEFAULT_BECH32_PREFIX account);
  Ok {| ca_account := account; ca_bech32 := bech32 |}.

(** [client]: the outcome of [CosmosClient::new]. *)
Section WithClient.
Context (identity : outcome BridgeError KeyPair) (client : outcome BridgeError unit).

Definition chain_account_and_client : Bridge CosmosAddress :=
  k <- lift identity;;
  signer <- lift (chain_signer k);;
  lift client;;;
  m_ret signer.

(** Reported when there is no client, not an error. *)
Definition submit_bridge_message (m : BridgeMessage) : Bridge unit :=
  k <- lift identity;;
  lift (chain_signer k);;;
  match client with Ok _ => hand_over m | _ => m_ret tt end.

(** [batches]: what [load_batches_for_epoch] gave. *)
Definition submit_batch_cmd (batches : outcome BridgeError (list AssembledBatch)) (epoch_id : EpochId) : Bridge unit :=
  batches <- lift batches;;
  ensure (negb (length batches =? 0)%nat) (BeUsage ("no batches found for epoch " +:+ display epoch_id));;;
  signer <- chain_account_and_client;;
  for_each (λ b, let c := ab_batch_commit b in
    if negb (bc_epoch_id c =? epoch_id) then m_ret tt
    else hand_over (BSubmitBatch signer (batch_commit_to_wire c (ca_bech32 signer)))) batches.

(** [iter().sum()] of the weights *)
Definition local_total_network_weight_units `{BuildMode} (a : EpochAggregationArtifact) : option Z :=
  sum_checked 64 ((λ e, gvs_microunits (en_aggregate e)) <$> ea_records a).

Definition submit_epoch_cmd `{BuildMode} (preparation : outcome BridgeError EpochPreparationComputation) : Bridge unit :=
  p <- lift preparation;;
  total <- lift (or_panic (local_total_network_weight_units (pc_aggregation_artifact p)));;
  signer <- chain_account_and_client;;
  hand_over (BCommitEpoch signer (epoch_commit_to_wire (pc_epoch_commit p) (ca_bech32 signer) total)).

Definition verify_batch_submit_cmd (credentials : list VerificationCredential) : Bridge unit :=
  k <- lift identity;;
  if (length credentials =? 0)%nat then m_ret tt else
  signer <- lift (chain_signer k);;
  lift client;;;
  for_each (λ cred,
    collector <- lift (map_err BeCosmos (CosmosAddress_try_from (target_collector_address cred)));;
    hand_over (BVerifyBatch signer (vc_epoch_id cred) (target_batch_root_hex cred) collector (is_player cred)
      (verified cred) (signature_hex cred))) credentials.

Definition play_session_cmd `{ProofExternal} (config : NodeConfig) (inputs : PlaySessionInputs) : Bridge unit :=
  k <- lift identity;;
  session <- lift (map_err BeProof (build_play_session
    (map_err (λ _, "invalid node id") (node_id config)) k inputs));;
  update_dir (λ d, save_play_session d session);;;
  wire <- lift (map_err BeProof (play_session_to_wire session));;
  node_address <- lift (chain_signer k);;
  submit_bridge_message (BSubmitPlaySession node_address wire).

Definition load_session (session_id_hex : string) : Bridge PlaySession :=
  found <- gets (λ s, dd_sessions (bs_dir s) !! session_id_hex);;
  ok_or found (BeDaemon (DaemonIo "not found")).

Definition play_heartbeat_cmd `{ProofExternal} (session_id_hex : string) (bucket millis : Z) : Bridge unit :=
  k <- lift identity;;
  session <- load_session session_id_hex;;
  heartbeat <- lift (map_err BeProof (build_play_heartbeat k session bucket millis));;
  update_dir (λ d, store_play_heartbeat d heartbeat);;;
  wire <- lift (map_err BeProof (play_heartbeat_to_wire heartbeat));;
  node_address <- lift (chain_signer k);;
  submit_bridge_message (BSubmitPlayHeartbeat node_address wire).

Definition attest_session_cmd `{ProofExternal} (config : NodeConfig) (session_id_hex own_observation_cid : string)
    (observed_seconds observed_players : Z) : Bridge unit :=
  k <- lift identity;;
  session <- load_session session_id_hex;;
  attestation <- lift (map_err BeProof (build_witness_attestation
    (map_err (λ _, "invalid node id") (node_id config)) k session own_observation_cid observed_seconds observed_players));;
  update_dir (λ d, save_witness_attestation d attestation);;;
  wire <- lift (map_err BeProof (witness_attestation_to_wire attestation));;
  witness <- lift (chain_signer k);;
  submit_bridge_message (BAttestSession witness wire).

Definition settle_session_cmd (session_id_hex : string) : Bridge unit :=
  k <- lift identity;;
  settler <- lift (chain_signer k);;
  submit_bridge_message (BSettleSession settler session_id_hex).

(** [artifact]: the records of [reward_local_epoch]. *)
Definition reward_record_submit_cmd (artifact : outcome BridgeError (list RewardRecord)) (epoch_id : EpochId)
    : Bridge unit :=
  k <- lift identity;;
  records <- lift artifact;;
  if (length records =? 0)%nat then m_ret tt else
  wires <- lift (map_outcome reward_record_to_wire records);;
  proposer <- lift (chain_signer k);;
  submit_bridge_message (BSubmitRewardRecords proposer epoch_id wires).

(** A session and then its heartbeats. *)
Definition submit_session (node_address : CosmosAddress) (s : PlaySession) : Bridge unit :=
  wire <- lift (map_err BeProof (play_session_to_wire s));;
  submit_bridge_message (BSubmitPlaySession node_address wire);;;
  heartbeats <- gets (λ st, load_play_heartbeats (bs_dir st) (hex_32 (ps_session_id s)));;
  for_each (λ h,
    wire <- lift (map_err BeProof (play_heartbeat_to_wire h));;
    submit_bridge_message (BSubmitPlayHeartbeat node_address wire)) heartbeats.

Definition play_proof_submit_cmd (epoch_id : EpochId) : Bridge unit :=
  k <- lift identity;;
  sessions <- gets (λ st, filter (λ s, ps_epoch_id s = epoch_id) (load_play_sessions (bs_dir st)));;
  if (length sessions =? 0)%nat then m_ret tt else
  node_address <- lift (chain_signer k);;
  for_each (submit_session node_address) sessions.
End WithClient.

(** [export-tx]: the type of the transaction follows the optional path of the configuration. *)
Definition export_tx_type (args : list string) : outcome BridgeError (string * string) :=
  let '(path, start_index) := parse_config_path_and_rest args 2 DEFAULT_CONFIG_PATH in
  if (start_index + 4 <? length args)%nat then Err (BeUsage "usage: pole-client export-tx") else
  match args !! start_index with
  | Some tx_type => Ok (path, tx_type)
  | None => Err (BeUsage "tx type required (batch|epoch)")
  end.

Definition export_batches (signer : CosmosAddress) (epoch_id : EpochId) (batches : list AssembledBatch) : list Any :=
  (λ b, to_any (BSubmitBatch signer (batch_commit_to_wire (ab_batch_commit b) (ca_bech32 signer)))) <$>
    filter (λ b, bc_epoch_id (ab_batch_commit b) = epoch_id) batches.
End Projections.

(** ** Through the client *)

Section Transmit.
Context `{B : BuildMode} `{X : External} `{PX : ProofExternal} `{BC : Bech32} `{TP : TxProto}.
Context (endpoint : CosmosEndpoint).
Context (on_account : nat → outcome string (RestReply AuthAccountInner)).
Context (on_sync : nat → bytes → outcome string (RpcReply BroadcastTxResponse)).
Context (on_commit : nat → bytes → outcome string (RpcReply BroadcastTxCommitResult)).
Context (clock : nat → Z) (signer : CosmosAddress) (k : KeyPair).

(** The messages one after the other; the errors are reported, and the accepted are counted. *)
Fixpoint transmit (accepted : Z) (msgs : list BridgeMessage) (n : Net) : option Z * Net :=
  match msgs with
  | [] => (Some accepted, n)
  | msg :: msgs =>
      match submit endpoint on_account on_sync on_commit clock msg signer k BroadcastOptions_default n with
      | (Ok resp, n) => transmit (if resp_is_ok resp then accepted + 1 else accepted) msgs n
      | (Err _, n) => transmit accepted msgs n
      | (Panic, n) => (None, n)
      end
  end.

(** What is broadcast for the messages: for each in turn transactions of it, then nothing else. *)
Lemma transmit_sends `{TL : !TxProtoLaws} accepted msgs n :
  ∃ txss, sent (transmit accepted msgs n).2 = (sent n ++ concat txss)%list ∧ (length txss <= length msgs)%nat ∧
    Forall2 (λ msg txs, ∃ from upto, Forall (signed_for endpoint on_account msg signer k from upto) txs)
      (take (length txss) msgs) txss ∧
    ((transmit accepted msgs n).1 ≠ None → length txss = length msgs) ∧
    ∀ c, (transmit accepted msgs n).1 = Some c → accepted <= c <= accepted + Z.of_nat (length msgs).
Proof using.
  revert accepted n. induction msgs as [|msg msgs IH]; intros accepted n.
  { exists []. cbn. rewrite app_nil_r. split_and!; [done|done|constructor|done|]. intros c [= <-]. lia. }
  cbn [transmit]. destruct (submit _ _ _ _ _ _ _ _ _ n) as [r n1] eqn:E.
  unfold submit in E. apply submit_attempts_spec in E as (txs & Hs & _ & _ & Hall & _).
  assert (∀ acc, accepted <= acc <= accepted + 1 → ∃ txss,
    sent (transmit acc msgs n1).2 = (sent n ++ concat txss)%list ∧ (length txss <= length (msg :: msgs))%nat ∧
    Forall2 (λ msg txs, ∃ from upto, Forall (signed_for endpoint on_account msg signer k from upto) txs)
      (take (length txss) (msg :: msgs)) txss ∧
    ((transmit acc msgs n1).1 ≠ None → length txss = length (msg :: msgs)) ∧
    ∀ c, (transmit acc msgs n1).1 = Some c → accepted <= c <= accepted + Z.of_nat (length (msg :: msgs))) as Hrec.
  { intros acc Hacc. destruct (IH acc n1) as (txss & H1 & H2 & H3 & H4 & H5). exists (txs :: txss). cbn [length].
    split_and!; [by rewrite H1, Hs, <- app_assoc|lia| | |].
    - cbn [take]. constructor; [|done]. by eexists _, _.
    - intros Hn. by rewrite (H4 Hn).
    - intros c Hc. specialize (H5 c Hc). lia. }
  destruct r as [resp|e|]; [apply Hrec; destruct (resp_is_ok resp); lia|apply Hrec; lia|].
  exists [txs]. cbn. rewrite app_nil_r. split_and!; [done|lia| |done|done]. rewrite take_0.
  constructor; [|constructor]. by eexists _, _.
Qed.
End Transmit.

(** ** A session before its heartbeats *)

Definition heartbeats_backed (l : list BridgeMessage) : Prop :=
  ∀ i na w, l !! i = Some (BSubmitPlayHeartbeat na w) →
    ∃ j na' w', (j < i)%nat ∧ l !! j = Some (BSubmitPlaySession na' w') ∧
      psw_session_id_hex w' = phw_session_id_hex w.

(** Heartbeats are filed under the session they are for. *)
Definition heartbeats_filed (d : DataDir) : Prop :=
  ∀ id h, h ∈ load_play_heartbeats d id → hex_32 (hb_session_id h) = id.

Lemma backed_app l1 l2 : heartbeats_backed l1 → heartbeats_backed l2 → heartbeats_backed (l1 ++ l2).
Proof.
  intros H1 H2 i na w Hi. apply lookup_app_Some in Hi as [Hi|[Hlen Hi]].
  - destruct (H1 i na w Hi) as (j & na' & w' & Hj & Hl & E). exists j, na', w'. split_and!; [done| |done].
    by apply lookup_app_l_Some.
  - destruct (H2 _ na w Hi) as (j & na' & w' & Hj & Hl & E). exists (length l1 + j)%nat, na', w'.
    split_and!; [lia| |done]. rewrite lookup_app_r by lia. by replace (length l1 + j - length l1)%nat with j by lia.
Qed.

Lemma backed_block na w hs :
  Forall (λ h, phw_session_id_hex h = psw_session_id_hex w) hs →
  heartbeats_backed (BSubmitPlaySession na w :: (BSubmitPlayHeartbeat na <$> hs)).
Proof.
  intros Hall [|i] na' w' Hi; [done|]. cbn in Hi. apply list_lookup_fmap_Some in Hi as (h & [= -> ->] & Hh).
  exists 0%nat, na, w. split_and!; [lia|done|]. symmetry. rewrite Forall_forall in Hall.
  apply Hall. by eapply list_elem_of_lookup_2.
Qed.

Lemma bind_run {S E A B} (m : M S E A) (f : A → M S E B) s :
  m_bind m f s = match m s with (Ok a, s') => f a s' | (Err e, s') => (Err e, s') | (Panic, s') => (Panic, s') end.
Proof. unfold m_bind. by destruct (m s) as [[]]. Qed.

Section PlayProof.
Context `{X : External} `{BC : Bech32} (k : KeyPair).
Local Notation sm := (submit_bridge_message (Ok k) (Ok tt)).

Lemma submit_message_spec m st :
  is_ok (chain_signer k) = true →
  sm m st = (Ok tt, {| bs_dir := bs_dir st; bs_sent := (bs_sent st ++ [m])%list |}).
Proof.
  intros Hs. unfold submit_bridge_message, m_bind, lift. by destruct (chain_signer k).
Qed.

(** The heartbeats are sent one by one until one cannot be written. *)
Definition send_heartbeat (na : CosmosAddress) (h : PlayHeartbeat) : Bridge unit :=
  wire <- lift (map_err BeProof (play_heartbeat_to_wire h));; sm (BSubmitPlayHeartbeat na wire).

Lemma send_heartbeat_spec na h st :
  is_ok (chain_signer k) = true →
  match play_heartbeat_to_wire h with
  | Ok w => send_heartbeat na h st
      = (Ok tt, {| bs_dir := bs_dir st; bs_sent := (bs_sent st ++ [BSubmitPlayHeartbeat na w])%list |})
  | _ => ∃ r, r ≠ Ok tt ∧ send_heartbeat na h st = (r, st)
  end.
Proof.
  intros Hs. unfold send_heartbeat, m_bind at 1, lift at 1. destruct (play_heartbeat_to_wire h) as [w|e|]; cbn [map_err].
  - by apply submit_message_spec.
  - eexists. by split; [|reflexivity].
  - eexists. by split; [|reflexivity].
Qed.

Lemma submit_heartbeats_spec na hs st :
  is_ok (chain_signer k) = true →
  let run := for_each (send_heartbeat na) hs st in
  ∃ ws, Forall2 (λ h w, play_heartbeat_to_wire h = Ok w) (take (length ws) hs) ws ∧
    run.2 = {| bs_dir := bs_dir st; bs_sent := (bs_sent st ++ (BSubmitPlayHeartbeat na <$> ws))%list |} ∧
    (run.1 = Ok tt → length ws = length hs).
Proof.
  intros Hs. cbv zeta. revert st. induction hs as [|h hs IH]; intros st.
  { exists []. cbn. rewrite app_nil_r. split_and!; [constructor|by destruct st|done]. }
  cbn [for_each]. rewrite bind_run. pose proof (send_heartbeat_spec na h st Hs) as Hh.
  assert (∀ r : outcome BridgeError unit, r ≠ Ok tt → ∃ ws : list PlayHeartbeatWire,
    Forall2 (λ h w, play_heartbeat_to_wire h = Ok w) (take (length ws) (h :: hs)) ws ∧
    st = {| bs_dir := bs_dir st; bs_sent := (bs_sent st ++ (BSubmitPlayHeartbeat na <$> ws))%list |} ∧
    (r = Ok tt → length ws = length (h :: hs))) as Hstop.
  { intros r Hr. exists []. cbn. rewrite app_nil_r. split_and!; [constructor|by destruct st|done]. }
  destruct (play_heartbeat_to_wire h) as [w|e|] eqn:Ew.
  - rewrite Hh.
    destruct (IH {| bs_dir := bs_dir st; bs_sent := (bs_sent st ++ [BSubmitPlayHeartbeat na w])%list |})
      as (ws & H1 & H2 & H3).
    exists (w :: ws). split_and!; [by constructor|rewrite H2; cbn; by rewrite <- app_assoc|].
    intros Hr. cbn. by rewrite H3.
  - destruct Hh as (r & Hr & ->). destruct r as [[]|e'|]; [done|by apply Hstop|by apply Hstop].
  - destruct Hh as (r & Hr & ->). destruct r as [[]|e'|]; [done|by apply Hstop|by apply Hstop].
Qed.

Definition session_block (na : CosmosAddress) (id : string) (new : list BridgeMessage) : Prop :=
  new = [] ∨ ∃ w ws, new = BSubmitPlaySession na w :: (BSubmitPlayHeartbeat na <$> ws) ∧
    psw_session_id_hex w = id ∧ Forall (λ h, phw_session_id_hex h = id) ws.

(** All of a session is on its way. *)
Definition session_sent (na : CosmosAddress) (d : DataDir) (new : list BridgeMessage) (s : PlaySession) : Prop :=
  (∃ w, play_session_to_wire s = Ok w ∧ BSubmitPlaySession na w ∈ new) ∧
  ∀ h, h ∈ load_play_heartbeats d (hex_32 (ps_session_id s)) →
    ∃ w, play_heartbeat_to_wire h = Ok w ∧ BSubmitPlayHeartbeat na w ∈ new.

Lemma session_wire_id s w : play_session_to_wire s = Ok w → psw_session_id_hex w = hex_32 (ps_session_id s).
Proof.
  unfold play_session_to_wire. destruct (proof_address _); [|done..]. destruct (proof_address _); [|done..].
  cbn. by intros [= <-].
Qed.
Lemma heartbeat_wire_id h w : play_heartbeat_to_wire h = Ok w → phw_session_id_hex w = hex_32 (hb_session_id h).
Proof. unfold play_heartbeat_to_wire. destruct (proof_address _); [|done..]. cbn. by intros [= <-]. Qed.

Lemma submit_session_spec na s st :
  is_ok (chain_signer k) = true → heartbeats_filed (bs_dir st) →
  let run := submit_session (Ok k) (Ok tt) na s st in
  ∃ new, run.2 = {| bs_dir := bs_dir st; bs_sent := (bs_sent st ++ new)%list |} ∧
    session_block na (hex_32 (ps_session_id s)) new ∧
    (run.1 = Ok tt → session_sent na (bs_dir st) new s).
Proof.
  intros Hs Hf. cbv zeta.
  set (hs := load_play_heartbeats (bs_dir st) (hex_32 (ps_session_id s))).
  destruct (play_session_to_wire s) as [w|e|] eqn:Ew.
  2, 3: exists []; unfold submit_session; rewrite !bind_run; unfold lift; rewrite Ew; cbn; rewrite app_nil_r;
    (split_and!; [by destruct st|by left|done]).
  set (st1 := {| bs_dir := bs_dir st; bs_sent := (bs_sent st ++ [BSubmitPlaySession na w])%list |}).
  assert (submit_session (Ok k) (Ok tt) na s st = for_each (send_heartbeat na) hs st1) as ->.
  { unfold submit_session. rewrite bind_run. unfold lift at 1. rewrite Ew. cbn [map_err].
    rewrite bind_run, submit_message_spec by done. by rewrite bind_run. }
  destruct (submit_heartbeats_spec na hs st1 Hs) as (ws & H1 & H2 & H3).
  exists (BSubmitPlaySession na w :: (BSubmitPlayHeartbeat na <$> ws))%list. split_and!.
  - rewrite H2. unfold st1. cbn. by rewrite <- app_assoc.
  - right. exists w, ws. split_and!; [done|by apply session_wire_id|].
    apply Forall_forall. intros x Hx. apply list_elem_of_lookup in Hx as [i Hi].
    destruct (Forall2_lookup_r _ _ _ i x H1 Hi) as (h & Hh & Hw). rewrite (heartbeat_wire_id h x Hw).
    apply Hf. eapply list_elem_of_lookup_2. apply lookup_take_Some in Hh as [Hh _]. exact Hh.
  - intros Hr. specialize (H3 Hr). rewrite H3, take_ge in H1 by done. split; [exists w; split; [done|left]|].
    intros h [i Hi]%list_elem_of_lookup. destruct (Forall2_lookup_l _ _ _ i h H1 Hi) as (x & Hx & Hw).
    exists x. split; [done|]. right. apply list_elem_of_fmap_2. by eapply list_elem_of_lookup_2.
Qed.

Lemma submit_sessions_spec na ss st :
  is_ok (chain_signer k) = true → heartbeats_filed (bs_dir st) →
  let run := for_each (submit_session (Ok k) (Ok tt) na) ss st in
  ∃ new, run.2 = {| bs_dir := bs_dir st; bs_sent := (bs_sent st ++ new)%list |} ∧ heartbeats_backed new ∧
    (run.1 = Ok tt → Forall (session_sent na (bs_dir st) new) ss).
Proof.
  intros Hs. cbv zeta. revert st. induction ss as [|s ss IH]; intros st Hf.
  { exists []. cbn. rewrite app_nil_r. split_and!; [by destruct st|by intros i na' w|constructor]. }
  cbn [for_each]. rewrite bind_run. destruct (submit_session_spec na s st Hs Hf) as (new & H1 & H2 & H3).
  assert (heartbeats_backed new) as Hb.
  { destruct H2 as [-> | (w & ws & -> & <- & Hws)]; [by intros i na' w|by apply backed_block]. }
  destruct (submit_session (Ok k) (Ok tt) na s st) as [[[]|e|] st1]; cbn [fst snd] in *; subst st1.
  2, 3: by exists new.
  destruct (IH {| bs_dir := bs_dir st; bs_sent := (bs_sent st ++ new)%list |} Hf) as (new2 & G1 & G2 & G3).
  exists (new ++ new2)%list. split_and!; [rewrite G1; cbn; by rewrite <- app_assoc|by apply backed_app|].
  intros Hr. specialize (H3 eq_refl). specialize (G3 Hr). cbn [bs_dir] in G3. constructor.
  - destruct H3 as [(w & Hw & Hin) Hh]. split; [exists w; split; [done|by apply elem_of_app; left]|].
    intros h Hin'. destruct (Hh h Hin') as (x & Hx & Hx'). exists x. split; [done|]. apply elem_of_app. by left.
  - eapply Forall_impl; [exact G3|]. intros s' [(w & Hw & Hin) Hh]. split; [exists w; split; [done|by apply elem_of_app; right]|].
    intros h Hin'. destruct (Hh h Hin') as (x & Hx & Hx'). exists x. split; [done|]. apply elem_of_app. by right.
Qed.
End PlayProof.

(** C29: play-proof-submit hands the chain every heartbeat after its session: among the messages of a run,
    ended by an error or not, each heartbeat is preceded by the session it names; the files are not
    changed; and when the command succeeds every stored session of the epoch and every recorded heartbeat
    of it has been handed over. *)
Theorem heartbeats_follow_sessions `{X : External} `{BC : Bech32} k signer epoch_id st :
  chain_signer k = Ok signer → heartbeats_filed (bs_dir st) →
  let run := play_proof_submit_cmd (Ok k) (Ok tt) epoch_id st in
  ∃ new, run.2 = {| bs_dir := bs_dir st; bs_sent := (bs_sent st ++ new)%list |} ∧ heartbeats_backed new ∧
    (run.1 = Ok tt → ∀ s, s ∈ load_play_sessions (bs_dir st) → ps_epoch_id s = epoch_id →
       session_sent signer (bs_dir st) new s).
Proof.
  intros Hs Hf. cbv zeta. unfold play_proof_submit_cmd, m_bind, lift, gets.
  set (ss := filter (λ s, ps_epoch_id s = epoch_id) (load_play_sessions (bs_dir st))).
  assert (∀ s, s ∈ load_play_sessions (bs_dir st) → ps_epoch_id s = epoch_id → s ∈ ss) as Hss
    by (intros s Hin He; by apply list_elem_of_filter).
  destruct (length ss =? 0)%nat eqn:El.
  - apply Nat.eqb_eq, length_zero_iff_nil in El. exists []. cbn. rewrite app_nil_r.
    split_and!; [by destruct st|by intros i na w|]. intros _ s Hin He. specialize (Hss s Hin He).
    rewrite El in Hss. by apply not_elem_of_nil in Hss.
  - rewrite Hs. destruct (submit_sessions_spec k signer ss st) as (new & H1 & H2 & H3); [by rewrite Hs|done|].
    exists new. split_and!; [done..|]. intros Hr s Hin He. specialize (H3 Hr). rewrite Forall_forall in H3. auto.
Qed.

(** ** Reward records *)

Definition amounts (r : RewardRecord) : list Amount :=
  [player_reward r; collect_reward r; store_reward r; verify_reward r; propose_reward r; slash_debit r; net_reward r].
Definition wire_amounts (w : RewardRecordWire) : list Z :=
  [rww_player_reward w; rww_collect_reward w; rww_store_reward w; rww_verify_reward w; rww_propose_reward w;
   rww_slash_debit w; rww_net_reward w].

Lemma narrow_ok v field z : narrow_amount v field = Ok z ↔ v < 2 ^ 64 ∧ z = v.
Proof.
  unfold narrow_amount. destruct (Z.ltb_spec v (2 ^ 64)); [|naive_solver lia].
  split; [by intros [= <-]|]. by intros [_ ->].
Qed.

Lemma narrow_fits v field : v < 2 ^ 64 → narrow_amount v field = Ok v.
Proof. intros Hv. by apply narrow_ok. Qed.

(** A record is written exactly when its recipient has an address and its amounts fit. *)
Lemma reward_wire_ok `{Bech32} r w :
  reward_record_to_wire r = Ok w ↔
  chain_recipient r = Ok (rww_recipient w) ∧ rww_epoch_id w = rw_epoch_id r ∧
  Forall (λ a, a < 2 ^ 64) (amounts r) ∧ wire_amounts w = amounts r.
Proof.
  unfold reward_record_to_wire, wire_amounts, amounts. split.
  - intros (recipient & Hr & Hw)%outcome_bind_ok.
    destruct (chain_recipient r) as [a| |]; cbn in Hr; simplify_eq.
    do 7 (apply outcome_bind_ok in Hw as (? & [? ->]%narrow_ok & Hw)).
    injection Hw as <-. cbn. split_and!; [done..| |done]. repeat constructor; done.
  - intros (Hr & He & Hall & Ha). rewrite !Forall_cons in Hall. destruct_and!.
    rewrite Hr. cbn [map_err outcome_bind].
    rewrite !narrow_fits by done. cbn [outcome_bind].
    destruct w. cbn in *. injection Ha as -> -> -> -> -> -> ->. by rewrite He.
Qed.

Lemma records_fit `{Bech32} records :
  Forall (λ r, is_ok (chain_recipient r) = true ∧ Forall (λ a, a < 2 ^ 64) (amounts r)) records →
  is_ok (map_outcome reward_record_to_wire records) = true.
Proof.
  intros Hall. destruct (map_outcome_total reward_record_to_wire records) as (bs & -> & _); [|done].
  eapply Forall_impl; [exact Hall|]. intros r [Hr Ha]. destruct (chain_recipient r) as [a| |] eqn:E; [|done..].
  rewrite (proj2 (reward_wire_ok r {| rww_epoch_id := rw_epoch_id r; rww_recipient := a;
    rww_player_reward := player_reward r; rww_collect_reward := collect_reward r; rww_store_reward := store_reward r;
    rww_verify_reward := verify_reward r; rww_propose_reward := propose_reward r; rww_slash_debit := slash_debit r;
    rww_net_reward := net_reward r |})); [done|]. by split_and!.
Qed.

(** reward-record-submit never changes an amount: the command succeeds exactly when every recipient has
    an address and every amount fits 64 bits, and then hands over one message with the records in order
    and each amount as computed; otherwise it is an error and nothing is handed over. *)
Theorem reward_records_exact `{X : External} `{BC : Bech32} k signer records epoch_id st :
  chain_signer k = Ok signer → records ≠ [] →
  let run := reward_record_submit_cmd (Ok k) (Ok tt) (Ok records) epoch_id st in
  (run.1 = Ok tt ↔ Forall (λ r, is_ok (chain_recipient r) = true ∧ Forall (λ a, a < 2 ^ 64) (amounts r)) records) ∧
  (run.1 = Ok tt → ∃ wires, run.2 = {| bs_dir := bs_dir st;
       bs_sent := (bs_sent st ++ [BSubmitRewardRecords signer epoch_id wires])%list |} ∧
     Forall2 (λ r w, chain_recipient r = Ok (rww_recipient w) ∧ rww_epoch_id w = rw_epoch_id r ∧
       wire_amounts w = amounts r) records wires) ∧
  (run.1 ≠ Ok tt → run.2 = st).
Proof.
  intros Hs Hne. cbv zeta.
  assert (reward_record_submit_cmd (Ok k) (Ok tt) (Ok records) epoch_id st =
    match map_outcome reward_record_to_wire records with
    | Ok wires => (Ok tt, {| bs_dir := bs_dir st;
        bs_sent := (bs_sent st ++ [BSubmitRewardRecords signer epoch_id wires])%list |})
    | Err e => (Err e, st)
    | Panic => (Panic, st)
    end) as ->.
  { unfold reward_record_submit_cmd. rewrite bind_run. unfold lift at 1. rewrite bind_run. unfold lift at 1.
    destruct (length records =? 0)%nat eqn:El; [by apply Nat.eqb_eq, length_zero_iff_nil in El|].
    rewrite bind_run. unfold lift at 1. destruct (map_outcome reward_record_to_wire records); [|done..].
    rewrite bind_run. unfold lift. rewrite Hs. apply submit_message_spec. by rewrite Hs. }
  destruct (map_outcome reward_record_to_wire records) as [wires|e|] eqn:Ew.
  - apply map_outcome_ok in Ew. cbn [fst snd].
    split_and!; [|intros _; exists wires; split; [done|]|done].
    + split; [intros _|done]. apply Forall_forall. intros r [i Hi]%list_elem_of_lookup.
      destruct (Forall2_lookup_l _ _ _ i r Ew Hi) as (w & _ & (Hr & _ & Hall & _)%reward_wire_ok). by rewrite Hr.
    + eapply Forall2_impl; [exact Ew|]. intros r w (? & ? & _ & ?)%reward_wire_ok. done.
  - cbn [fst snd]. split_and!; [|done..]. split; [done|]. intros Hall%records_fit. by rewrite Ew in Hall.
  - cbn [fst snd]. split_and!; [|done..]. split; [done|]. intros Hall%records_fit. by rewrite Ew in Hall.
Qed.

(** Every directory the node builds files its heartbeats under their sessions. *)
Lemma empty_dir_filed : heartbeats_filed empty_dir.
Proof. intros id h Hin. unfold load_play_heartbeats in Hin. cbn in Hin. rewrite lookup_empty in Hin. by apply not_elem_of_nil in Hin. Qed.
Lemma save_session_filed (d : DataDir) (s : PlaySession) : heartbeats_filed d → heartbeats_filed (save_play_session d s).
Proof. done. Qed.
Lemma save_heartbeat_elem (existing : list PlayHeartbeat) (h c : PlayHeartbeat) :
  c ∈ save_play_heartbeat existing h → c ∈ existing ∨ c = h.
Proof.
  unfold save_play_heartbeat. case_match; [by left|]. rewrite sort_by_key_perm, elem_of_app, list_elem_of_singleton. done.
Qed.
Lemma store_heartbeat_filed (d : DataDir) (h : PlayHeartbeat) :
  heartbeats_filed d → heartbeats_filed (store_play_heartbeat d h).
Proof.
  intros Hd id c Hin. unfold load_play_heartbeats in Hin. cbn [dd_heartbeats store_play_heartbeat] in Hin.
  destruct (decide (hex_32 (hb_session_id h) = id)) as [<-|Hne].
  - rewrite lookup_insert_eq in Hin. apply save_heartbeat_elem in Hin as [Hin| ->]; [by apply Hd|done].
  - rewrite lookup_insert_ne in Hin by done. by apply Hd.
Qed.

(** ** Runs *)

Section BridgeRuns.
#[local] Existing Instance demo_external.
#[local] Existing Instance demo_proof_external.
#[local] Existing Instance toy_bech32.

Definition bridge_key : KeyPair := from_seed (replicate 32 7).
Definition bridge_peer : KeyPair := from_seed (replicate 32 8).
Definition bridge_session (owner : KeyPair) (id : Z) : PlaySession := {|
  ps_session_id := replicate 32 id; ps_node_address := identity_account_address (public owner); ps_app_id := 570;
  ps_epoch_id := 4; ps_slot_id := 1; play_seconds := 3600; ps_collector_address := replicate 32 9;
  observation_cid := "cid://a"; ps_observed_players := 10; ps_submitted_at_height := 0; session_signature := [1] |}.
Definition bridge_heartbeat (owner : KeyPair) (id bucket : Z) : PlayHeartbeat := {|
  hb_session_id := replicate 32 id; hb_node_address := identity_account_address (public owner);
  bucket_index := bucket; signed_at_millis := 5; heartbeat_signature := [2] |}.

(** A session of the node with two heartbeats, and one that a peer announced. *)
Definition bridge_dir : DataDir :=
  save_play_session (store_play_heartbeat (store_play_heartbeat
    (save_play_session empty_dir (bridge_session bridge_key 5)) (bridge_heartbeat bridge_key 5 0))
    (bridge_heartbeat bridge_key 5 1)) (bridge_session bridge_peer 6).
Definition bridge_state : BridgeState := {| bs_dir := bridge_dir; bs_sent := [] |}.

Definition message_kind (m : BridgeMessage) : string * string * string :=
  match m with
  | BSubmitPlaySession na w => ("session", ca_bech32 na, psw_session_id_hex w)
  | BSubmitPlayHeartbeat na w => ("heartbeat", ca_bech32 na, phw_session_id_hex w)
  | _ => ("other", "", "")
  end.

Lemma bridge_dir_filed : heartbeats_filed bridge_dir.
Proof. repeat (apply save_session_filed || apply store_heartbeat_filed). apply empty_dir_filed. Qed.

Lemma heartbeats_follow_sessions_witness :
  ∃ signer, chain_signer bridge_key = Ok signer ∧
  let run := play_proof_submit_cmd (Ok bridge_key) (Ok tt) 4 bridge_state in
  run.1 = Ok tt ∧ heartbeats_backed (bs_sent run.2) ∧ length (bs_sent run.2) = 4%nat.
Proof.
  destruct (chain_signer bridge_key) as [signer| |] eqn:E; [|by vm_compute in E..]. exists signer. split; [done|].
  cbv zeta. split; [vm_compute; reflexivity|].
  destruct (heartbeats_follow_sessions bridge_key signer 4 bridge_state E bridge_dir_filed) as (new & H1 & H2 & _).
  split; [rewrite H1; exact H2|vm_compute; reflexivity].
Defined.

(** The session a peer announced is handed over in the node's name. *)
Example peer_session_submitted :
  match chain_signer bridge_key, play_session_to_wire (bridge_session bridge_peer 6) with
  | Ok signer, Ok w =>
      BSubmitPlaySession signer w ∈ bs_sent (play_proof_submit_cmd (Ok bridge_key) (Ok tt) 4 bridge_state).2 ∧
      bool_decide (psw_node_address w = ca_bech32 signer) = false
  | _, _ => False
  end.
Proof. vm_compute. split; [|reflexivity]. do 3 right. left. Qed.

Definition peer_batch : AssembledBatch := {|
  ab_batch_commit := {| bc_epoch_id := 4; bc_collector_id := replicate 32 8; slot_start := 1; slot_end := 1;
    batch := {| root := replicate 32 3; leaf_count := 1 |}; bc_payload_cid := "cid://b"; obs_count := 1;
    submitted_at_height := 0 |};
  ab_payload_hash := replicate 32 1; ab_payload_cid := "cid://b"; payload_bytes := []; ab_observations := [] |}.

(** A batch that was ingested from a peer is submitted with the node as its collector. *)
Example peer_batch_claimed :
  match chain_signer bridge_key with
  | Ok signer =>
      bs_sent (submit_batch_cmd (Ok bridge_key) (Ok tt) (Ok [peer_batch]) 4 bridge_state).2
        = [BSubmitBatch signer (batch_commit_to_wire (ab_batch_commit peer_batch) (ca_bech32 signer))] ∧
      bcw_collector_address (batch_commit_to_wire (ab_batch_commit peer_batch) (ca_bech32 signer)) = ca_bech32 signer
  | _ => False
  end.
Proof. vm_compute. split; reflexivity. Qed.

Definition bridge_reward (amount : Amount) : RewardRecord := {|
  rw_epoch_id := 4; rw_node_id := replicate 32 8; recipient_address := "cosmos1abc"; player_reward := amount;
  collect_reward := 0; store_reward := 0; verify_reward := 0; propose_reward := 0; slash_debit := 0;
  net_reward := amount |}.

Lemma reward_records_exact_witness :
  let run a := reward_record_submit_cmd (Ok bridge_key) (Ok tt) (Ok [bridge_reward a]) 4 bridge_state in
  (run 7).1 = Ok tt ∧ (run (2 ^ 64)).2 = bridge_state.
Proof.
  destruct (chain_signer bridge_key) as [signer| |] eqn:E; [|by vm_compute in E..]. cbv zeta. split.
  - apply (reward_records_exact bridge_key signer [bridge_reward 7] 4 bridge_state E); [done|].
    repeat constructor; done.
  - apply (reward_records_exact bridge_key signer [bridge_reward (2 ^ 64)] 4 bridge_state E); [done|].
    vm_compute. discriminate.
Defined.

(** The path of the configuration cannot be left out: the type of the transaction is taken for it. *)
Example export_type_taken_for_path :
  export_tx_type ["pole-client"; "export-tx"; "batch"; "7"] = Ok ("batch", "7") ∧
  export_tx_type ["pole-client"; "export-tx"; "batch"] = Err (BeUsage "tx type required (batch|epoch)").
Proof. split; vm_compute; reflexivity. Qed.
End BridgeRuns.
